(* ===== verification/_CoqProject ===== *)
-Q . S2P
Prelude.v
GoText.v
GoStrconv.v
GoTime.v
Sha256.v
DeliveryStream.v
Authority.v
PgTx.v
AuthorityStore.v
OutboxWorker.v
AuthorityOutbox.v
AuthoritySpec.v
AuthorityInv.v
AuthorityTheorems.v
AuthorityProgress.v
AuthorityReads.v
AuthorityExample.v
SqliteTx.v
GoJson.v
GoJsonRead.v
GoBase64.v
GoUtf8.v
GoJsonText.v
SspGuard.v
SspBody.v
SspRegistry.v
SspEnvelope.v
SspStrip.v
SspWire.v
SspTheorems.v
SspIdentity.v
SspSign.v
SspExample.v
EdgeStore.v
EdgeApply.v
EdgeConsumer.v
EdgeRecovery.v
EdgeJetStream.v
EdgeSpool.v
EdgeInv.v
EdgeFront.v
EdgeTurns.v
EdgeSystem.v
EdgeTheorems.v
EdgeService.v
EdgeExample.v
GoJsonWire.v
GoJsonPrint.v
Registry.v
RegistryTheorems.v
ControlApi.v
EdgeVerifier.v
ControlTheorems.v
ControlSystem.v
ControlEdge.v
ControlExample.v
GoUrl.v
ControlHttp.v
ControlClient.v
HttpTheorems.v
HttpBounds.v
HttpEdge.v
HttpDelivery.v
HttpExample.v
EdgeRuntime.v
RuntimeExample.v
EdgeOpen.v
EdgeEnvelope.v
EdgeOpenTheorems.v
EdgeAdmission.v
OpenExample.v
EdgeReadable.v
BuzzNostr.v
BuzzProjector.v
BuzzHistory.v
