(* ===== verification/Prelude.v ===== *)
(** * Snagline: a verification of the support-case authority and its edges

    Snagline moves support cases from an edge to a global authority and the
    final advice back.  An edge signs an SSP envelope, spools the exact bytes
    and submits them to the control plane; the authority commits them to
    PostgreSQL in one serializable transaction, which also appends to the
    delivery log of the issuing edge generation and writes transactional outbox
    rows; an outbox worker publishes those rows to a JetStream stream; the edge
    consumes its deliveries, verifies them and projects them into an encrypted
    SQLite store, from which two fronts present advice.  JetStream only wakes an
    edge up: completeness comes from the authority's log, which an edge that
    missed something replays in a reconciliation pass.  Edges reach control over
    HTTP with client certificates.  A projector copies committed facts to a
    collaboration relay.

    ** The files

    Shared: [Prelude] (results and errors, byte strings, machine integers,
    tactics), [GoText] (UTF-8, TrimSpace, decimal and hex text, patterns),
    [GoStrconv] (decimal integers), [GoTime] (civil time, RFC 3339 formatting
    and parsing), [Sha256] (an executable digest), [GoJson], [GoJsonRead] and
    [GoJsonText] (how [encoding/json] writes and reads, and their round trip),
    [GoUtf8] (facts on UTF-8 and white space), [GoBase64] (base64url),
    [GoJsonWire] and [GoJsonPrint] (structs on the wire, sizes of printed
    values), [GoUrl] (paths and queries of net/url).

    The SSP package, internal/ssp: [SspGuard] the wire guards (rawGuard,
    validateStringEscapes, scanValue), [SspBody] strict members, numbers and
    the case and advice bodies, [SspRegistry] registry_family.go,
    [SspEnvelope] decoding, Validate, signing bytes, Sign, Verify,
    commitment.go, header.go, verified_registry.go and the key types of
    internal/identity/keys.go.

    The authority: [Authority] is internal/authority/authority.go (requests,
    receipts, errors, every Validate); [PgTx] the tables of
    migrations/0001_authority.up.sql as finite maps, the transaction monad and
    the retry loop of [Store.transaction]; [AuthorityStore]
    internal/authority/postgres/store.go (the three commits with all their
    statements, and the reads); [AuthorityOutbox] outbox.go (Claim,
    MarkPublished, Release); [OutboxWorker] internal/delivery/outbox/worker.go;
    [DeliveryStream] internal/deliverystream/stream.go.

    The edge: [SqliteTx] the SQLite transaction monad; [EdgeStore] and
    [EdgeApply] internal/sspedge/store.go; [EdgeSpool] edge_case_store.go,
    edge_advice_spool.go and dispatcher_turn_store.go; [EdgeConsumer]
    consumer.go and authority_reconciler.go; [EdgeJetStream]
    jetstream_consumer.go; [EdgeService] the submissions of
    internal/edge/service.go.

    Between them: [Registry] is internal/registrygraph/validate.go and
    internal/registry (snapshots, keys, epochs, the root verifier);
    [ControlApi] is internal/controlapi/service.go, which admits cases, advice
    and registries to the authority; [EdgeVerifier] is
    internal/sspedge/authority_verifier.go, which the journal consumer calls;
    [ControlHttp] is internal/controlhttp/server.go and [ControlClient]
    internal/controlclient/client.go with the adapter of
    cmd/snagline-edge/runtime.go; [EdgeRuntime] is the loops of that file;
    [EdgeOpen] is case opening and advice finalizing of
    internal/edge/service.go.

    The Buzz projector, internal/collab/buzz: [BuzzNostr] the signed events and
    cards, [BuzzProjector] projector.go, state.go and authority_source.go.

    Statements and proofs: [AuthoritySpec] is the abstract ledger (its
    transitions on whole tables) and the inversion of each commit;
    [AuthorityInv] the ledger invariants by rule induction; [AuthorityTheorems],
    [AuthorityProgress] and [AuthorityReads] the authority's theorems;
    [EdgeInv], [EdgeFront], [EdgeTurns], [EdgeSystem], [EdgeTheorems] and
    [EdgeRecovery] those of the edge; [SspStrip], [SspWire], [SspTheorems],
    [SspIdentity] and [SspSign] those of the SSP package; [RegistryTheorems],
    [ControlTheorems], [ControlSystem] (the control plane as a transition
    system) and [ControlEdge] (control and edge composed) those of admission
    and verification; [HttpTheorems], [HttpBounds], [HttpEdge] and
    [HttpDelivery] those of client and server composed with control and edge;
    [EdgeEnvelope], [EdgeOpenTheorems] and [EdgeAdmission] those of opening and
    finalizing; [EdgeReadable] those of reading the edge store; [BuzzHistory]
    those of the projector; [AuthorityExample], [EdgeExample], [SspExample],
    [ControlExample], [HttpExample], [RuntimeExample] and [OpenExample] the
    concrete inputs the theorems are evaluated on.

    ** How the code is modelled

    A Go function that returns an error is a function into [result]; a method
    on a store passes the store explicitly.  A PostgreSQL transaction attempt is
    one atomic step (serializable isolation) in an environment that may fail
    BEGIN, any statement, ROLLBACK or COMMIT with any error, may report a
    failed COMMIT that was applied, and supplies the clock; a rollback keeps the
    identity sequence of revisions.  [Store.transaction] retries three attempts,
    and between attempts any other calls may run.  A SQLite transaction is the
    same with a driver environment and the bytes crypto/rand returns.  Times
    are nanoseconds since the Unix epoch, stored texts are the formatted texts
    the code writes, and they are compared the way SQL compares them.  Integers
    are [Z] with [int64]/[uint64] conversions where the code converts.  What the
    databases refuse on their own (a NUL byte or invalid UTF-8 in a TEXT column
    of PostgreSQL) is one of the statement failures the environment may raise,
    not a check of the model.

    Parameters, with the laws used: the AEAD cipher ([AEAD], [AEADLaws]: what
    was sealed opens under the same nonce and additional data), Ed25519
    ([Ed25519], [Ed25519Laws]: a signature verifies under the signer's public
    key), the canonicalization of github.com/gowebpki/jcs ([Jcs], [JcsLaws]:
    one canonical text belongs to one JSON value; [JcsTotal]: a wire that passes
    the raw guard has one), the zone of the server's clock, uuid.Parse and schnorr.ParsePubKey in
    the projector, the verifier of the journal consumer, the reconciliation
    source, the NATS client's answers, the gateway of a submission, and the
    environments above.  SHA-256 is computed; a theorem that would need
    collision resistance has as an explicit alternative that two named texts of
    the run collide.

    ** What the theorems show

    Authority: every call of the store, under any failures, retries and
    interleaving, is a run of ledger transitions ([store_refines_ledger]), so
    the facts are append-only, each edge generation's log is dense, each case
    has one bound final advice, registries form a hash chain with one head,
    halting is final, generations never roll back, receipts are durable and
    exactly repeatable, failures leave no trace and admissible requests do
    commit; pages of the log are exact slices; outbox leases are exclusive and
    fenced, and each committed row is published to its own recipient with its
    own bytes.

    Edge: applying deliveries keeps a dense append-only log and fails closed;
    the carrier is acknowledged only after a durable effect; after a completed
    reconciliation the edge's log is the authority's log
    ([edge_follows_authority]), and the loops of the edge process keep it there,
    catch up at start-up and terminate ([EdgeRuntime]); quarantines, receipts,
    spooled wires and turns are final or fenced over any sequence of calls, and
    a row of the store only moves forward; every stored row can be read back;
    what is opened or finalized is signed for the request, spooled and submitted
    once, and through control it reaches the ledger; a retry submits the saved
    bytes and nothing else.

    SSP: the raw guard accepts exactly the bounded well-formed wires; the
    scanner that cuts out the signature agrees with the JSON parser and keeps
    every other member byte for byte; what Verify accepts is authentic, strictly
    decoded and live; what Sign returns Verify accepts; equal commitments mean
    the same statement; a registry body is accepted exactly when it is
    well-formed, and a registry proof is renewed exactly while it is live.

    Admission: a registry graph is accepted exactly when it is consistent; what
    control hands to the authority is proved by the registry it names, signed by
    a key of the right use, and comes from the workload that registry
    authorizes; and in every reachable state of the control plane a delivery of
    the log is accepted by the verifier of its own edge exactly when the
    registry was within its window at the emission.

    HTTP: a read of the client returns what the service behind the server
    answered, and a submission has a receipt exactly when the service gave one;
    the verdicts of an edge that reads control this way, and the pages and
    deliveries it cannot pass.

    Projector: an event reaches the relay only after its exact bytes are on
    disk.

    These theorems describe behaviour that is not intended:
    [retry_of_accepted_case_fails], [live_lease_treated_as_expired],
    [quarantine_halts_only_in_memory], [late_registry_rejects_committed_case],
    [unreadable_case_stalls_edge], the transient verdict of
    [case_delivery_over_http] and the large pages of [http_page_bounds].

    ** Bounds and fuel

    The retry loop is a recursion over its three attempts; loops over rows,
    batches and pages are structural.  The JSON parser and the token scan carry
    fuel, twice the length of the input plus one: [parse_fuel] shows that more
    changes nothing, and the theorems are about results, not about running out.
    The loop that strips the signature has one step per byte.  The loops of the
    edge process take one unit of fuel per pass, and [reconciliation_terminates]
    bounds the passes they need.  The parser has
    no limit on nesting (Go's own is 10000, the raw guard's 32), and where a
    body is validated before the guard has seen it, a repeated key has the last
    of its values.

    ** Not modelled

    Process entry points (cmd, but for the edge's loops), the HTTP glue of
    edgeclient, dispatcherproxy and dispatcherruntime, key and certificate files
    (identity's loaders, securefile, securetransport, pkg/provision), opening
    and migrating databases, the fronts, and the relay client, signer, verifier
    and encrypted store of the Buzz projector: I/O and wiring around the
    modelled core.  Planned next: the relay client of the projector and the
    dispatcher's HTTP surface. *)
From Stdlib Require Export ZArith Lia String Ascii.
From stdpp Require Export base gmap strings list fin_maps option.
Export List(length).

#[global] Set Default Proof Using "Type".

(** ** Scope, results and the error monad

    A Go function that returns [(T, error)] is a function into
    [result E T]; the sequence of early returns on a non-nil error is the
    bind of the monad below. *)
Declare Scope snag_scope.
Delimit Scope snag_scope with snag.
Open Scope string_scope.
Open Scope Z_scope.

Inductive result (E A : Type) : Type :=
| Ok (a : A)
| Err (e : E).
Arguments Ok {E A} a.
Arguments Err {E A} e.

#[export] Instance result_eq_decision {E A} `{!EqDecision E} `{!EqDecision A} :
  EqDecision (result E A).
Proof. solve_decision. Defined.

#[export] Instance result_ret E : MRet (result E) := fun A a => Ok a.
#[export] Instance result_bind E : MBind (result E) := fun A B f m =>
  match m with Ok a => f a | Err e => Err e end.
#[export] Instance result_fmap E : FMap (result E) := fun A B f m =>
  match m with Ok a => Ok (f a) | Err e => Err e end.

(** [reject b e]: the guard [if b { return e }]. *)
Definition reject {E} (b : bool) (e : E) : result E unit :=
  if b then Err e else Ok tt.

Definition is_ok {E A} (r : result E A) : bool :=
  match r with Ok _ => true | Err _ => false end.

Definition of_option {E A} (e : E) (o : option A) : result E A :=
  match o with Some a => Ok a | None => Err e end.

(** [first_err f l]: a Go loop over [l] that returns the first error of its
    body. *)
Fixpoint first_err {E A} (f : A -> result E unit) (l : list A) : result E unit :=
  match l with
  | [] => Ok tt
  | x :: l => match f x with Ok _ => first_err f l | Err e => Err e end
  end.

(** ** Go strings and byte slices

    A Go [string] and a Go [[]byte] are both sequences of bytes; both are the
    type [string] of the Standard Library, whose [ascii] characters are the
    256 byte values. *)
Abbreviation bytes := string (only parsing).

Definition code (a : ascii) : Z := Z.of_N (N_of_ascii a).
Definition of_code (z : Z) : ascii := ascii_of_N (Z.to_N z).
Definition len (s : string) : Z := Z.of_nat (String.length s).
Infix "=s?" := String.eqb (at level 70, no associativity) : snag_scope.
Notation "s <>s? t" := (negb (String.eqb s t)) (at level 70, no associativity) : snag_scope.
Definition is_empty (s : string) : bool :=
  match s with EmptyString => true | _ => false end.

(** Machine widths: [int64] and [uint64] of the Go source, and the ceiling of
    a JSON number that survives a double. *)
Definition int64_max : Z := 2 ^ 63 - 1.
Definition int64_min : Z := - 2 ^ 63.
Definition uint64 (z : Z) : Z := z mod 2 ^ 64.
Definition int64 (z : Z) : Z := (z + 2 ^ 63) mod 2 ^ 64 - 2 ^ 63.

(** ** Tactics

    [inv_result] opens a chain of binds whose result is known; [cases]
    destructs the scrutinee of the first match in a hypothesis. *)
Ltac inv_result_step :=
  match goal with
  | H : Ok _ = Ok _ |- _ => injection H as H; try subst
  | H : Err _ = Err _ |- _ => injection H as H; try subst
  | H : Ok _ = Err _ |- _ => discriminate H
  | H : Err _ = Ok _ |- _ => discriminate H
  | H : mret _ = _ |- _ => cbn [mret result_ret] in H
  | H : mbind _ ?m = Ok _ |- _ =>
      let E := fresh "E" in
      destruct m eqn:E; cbn [mbind result_bind] in H; [|discriminate H]
  | H : reject ?b _ = Ok _ |- _ =>
      let E := fresh "E" in
      unfold reject in H; destruct b eqn:E; [discriminate H|clear H]
  | H : (if ?b then Err _ else _) = Ok _ |- _ =>
      let E := fresh "E" in destruct b eqn:E; [discriminate H|]
  end.
Ltac inv_result := repeat inv_result_step.

(** Turn boolean guards of the code into propositions. *)
Ltac bool_step :=
  match goal with
  | H : _ || _ = false |- _ => apply orb_false_iff in H; destruct H
  | H : _ && _ = true |- _ => apply andb_true_iff in H; destruct H
  | H : negb _ = true |- _ => apply negb_true_iff in H
  | H : negb _ = false |- _ => apply negb_false_iff in H
  | H : (_ =? _)%Z = true |- _ => apply Z.eqb_eq in H
  | H : (_ =? _)%Z = false |- _ => apply Z.eqb_neq in H
  | H : (_ <? _)%Z = true |- _ => apply Z.ltb_lt in H
  | H : (_ <? _)%Z = false |- _ => apply Z.ltb_ge in H
  | H : (_ <=? _)%Z = true |- _ => apply Z.leb_le in H
  | H : (_ <=? _)%Z = false |- _ => apply Z.leb_gt in H
  | H : (_ >? _)%Z = true |- _ => rewrite Z.gtb_ltb in H
  | H : (_ >? _)%Z = false |- _ => rewrite Z.gtb_ltb in H
  | H : (_ =? _)%string = true |- _ => apply String.eqb_eq in H
  | H : (_ =? _)%string = false |- _ => apply String.eqb_neq in H
  | H : bool_decide _ = true |- _ => apply bool_decide_eq_true in H
  | H : bool_decide _ = false |- _ => apply bool_decide_eq_false in H
  | H : Bool.eqb _ _ = true |- _ => apply Bool.eqb_prop in H
  end.
Ltac bools := repeat bool_step.

(** Destruct the scrutinee of a match in a hypothesis or in the goal. *)
Ltac case_in H :=
  match type of H with
  | context [match ?x with _ => _ end] =>
      let E := fresh "E" in destruct x eqn:E
  end.
Ltac case_goal :=
  match goal with
  | |- context [match ?x with _ => _ end] =>
      let E := fresh "E" in destruct x eqn:E
  end.

(** ** Generic lemmas on lists, options and integers *)
Create HintDb snag.
#[global] Arguments String.append !_ _ : simpl nomatch.

Lemma first_err_ok {E A} (f : A -> result E unit) l :
  first_err f l = Ok tt <-> Forall (fun x => f x = Ok tt) l.
Proof.
  induction l as [|x l IH]; cbn; [done|].
  rewrite List.Forall_cons_iff, <- IH.
  destruct (f x) as [[]|] eqn:Hx; naive_solver.
Qed.

Lemma first_err_err {E A} (f : A -> result E unit) l e :
  first_err f l = Err e -> exists x, x ∈ l /\ f x = Err e.
Proof.
  induction l as [|x l IH]; cbn; [done|].
  destruct (f x) eqn:Hx; intros H.
  - destruct (IH H) as (y & ? & ?). exists y. set_solver.
  - exists x. split; [set_solver|]. congruence.
Qed.

(** Weakening a pointwise relation, knowing where the left elements come
    from. *)
Lemma Forall2_weaken {A B} (P Q : A -> B -> Prop) l k :
  Forall2 P l k -> (forall x y, x ∈ l -> P x y -> Q x y) -> Forall2 Q l k.
Proof.
  induction 1 as [|x y l k Hxy H IH]; intros HPQ; constructor.
  - apply HPQ; [by left|done].
  - apply IH. intros ???. apply HPQ. by right.
Qed.

Lemma is_empty_spec s : is_empty s = true <-> s = "".
Proof. by destruct s. Qed.

Lemma len_app s t : len (s ++ t) = len s + len t.
Proof.
  unfold len. induction s as [|a s IH]; cbn; lia.
Qed.

Lemma append_cons a (s t : string) : String a s ++ t = String a (s ++ t).
Proof. reflexivity. Qed.

Lemma len_nonneg s : 0 <= len s.
Proof. unfold len. lia. Qed.

Lemma code_range a : 0 <= code a < 256.
Proof. unfold code. pose proof (N_ascii_bounded a). lia. Qed.

Lemma of_code_code a : of_code (code a) = a.
Proof. unfold of_code, code. rewrite N2Z.id. apply ascii_N_embedding. Qed.

Lemma code_of_code z : 0 <= z < 256 -> code (of_code z) = z.
Proof. intros. unfold code, of_code. rewrite N_ascii_embedding; lia. Qed.

Lemma code_inj a b : code a = code b -> a = b.
Proof. intros H. by rewrite <- (of_code_code a), H, of_code_code. Qed.

Lemma int64_id z : int64_min <= z <= int64_max -> int64 z = z.
Proof. unfold int64, int64_min, int64_max. intros. rewrite Z.mod_small; lia. Qed.

Lemma uint64_id z : 0 <= z < 2 ^ 64 -> uint64 z = z.
Proof. intros. by apply Z.mod_small. Qed.

#[export] Hint Resolve len_nonneg code_range : snag.
