(* ===== verification/GoText.v ===== *)
(** * Text primitives of the Go standard library that the program uses

    UTF-8 decoding ([unicode/utf8]), [strings.TrimSpace], decimal printing
    ([fmt], [strconv]), lowercase hexadecimal ([encoding/hex]), big-endian words ([encoding/binary]), the
    two regular expressions for commitments and tokens, and the byte order of
    strings.  Every function is executable; the lemmas are the ones that the
    components rely on. *)
From S2P Require Import Prelude.
From stdpp Require Import pretty.
Open Scope string_scope.
Open Scope Z_scope.

(** ** UTF-8 *)
Definition in_range (lo hi : Z) (a : ascii) : bool :=
  (lo <=? code a) && (code a <=? hi).

(** The bytes a second byte may take after a lead byte, as in the [first] and
    [acceptRanges] tables of [unicode/utf8]. *)
Definition second_ok (x : Z) (b : ascii) : bool :=
  if x =? 0xE0 then in_range 0xA0 0xBF b
  else if x =? 0xED then in_range 0x80 0x9F b
  else if x =? 0xF0 then in_range 0x90 0xBF b
  else if x =? 0xF4 then in_range 0x80 0x8F b
  else in_range 0x80 0xBF b.

Definition cont (b : ascii) : Z := Z.land (code b) 0x3F.

(** [decode s]: the runes of [s] in order; [None] is a byte that starts no
    well-formed sequence, which Go reads as one [RuneError] of width one. *)
Fixpoint decode (s : string) : list (option Z) :=
  match s with
  | EmptyString => []
  | String b0 s1 =>
      let x := code b0 in
      if x <? 0x80 then Some x :: decode s1
      else match s1 with
      | EmptyString => None :: decode s1
      | String b1 s2 =>
          if (0xC2 <=? x) && (x <=? 0xDF) && second_ok x b1
          then Some (Z.lor (Z.shiftl (Z.land x 0x1F) 6) (cont b1)) :: decode s2
          else match s2 with
          | EmptyString => None :: decode s1
          | String b2 s3 =>
              if (0xE0 <=? x) && (x <=? 0xEF) && second_ok x b1 && in_range 0x80 0xBF b2
              then Some (Z.lor (Z.shiftl (Z.land x 0x0F) 12)
                        (Z.lor (Z.shiftl (cont b1) 6) (cont b2))) :: decode s3
              else match s3 with
              | EmptyString => None :: decode s1
              | String b3 s4 =>
                  if (0xF0 <=? x) && (x <=? 0xF4) && second_ok x b1
                     && in_range 0x80 0xBF b2 && in_range 0x80 0xBF b3
                  then Some (Z.lor (Z.shiftl (Z.land x 0x07) 18)
                            (Z.lor (Z.shiftl (cont b1) 12)
                            (Z.lor (Z.shiftl (cont b2) 6) (cont b3)))) :: decode s4
                  else None :: decode s1
              end
          end
      end
  end.

Definition utf8_valid (s : string) : bool := forallb (fun o => bool_decide (is_Some o)) (decode s).
Definition rune_count (s : string) : Z := Z.of_nat (length (decode s)).

(** [unicode.IsSpace]. *)
Definition is_space (r : Z) : bool :=
  ((9 <=? r) && (r <=? 13)) || (r =? 32) || (r =? 0x85) || (r =? 0xA0)
  || (r =? 0x1680) || ((0x2000 <=? r) && (r <=? 0x200a)) || (r =? 0x2028)
  || (r =? 0x2029) || (r =? 0x202f) || (r =? 0x205f) || (r =? 0x3000).

(** [strings.TrimSpace(s) != ""]: some rune of [s] is not a space. *)
Definition non_blank (s : string) : bool :=
  existsb (fun o => match o with Some r => negb (is_space r) | None => true end) (decode s).

(** The bytes of [s] rune by rune, cut as [decode] cuts them. *)
Fixpoint segments (s : string) : list (option Z * string) :=
  match s with
  | EmptyString => []
  | String b0 s1 =>
      let x := code b0 in
      let one := (if x <? 0x80 then Some x else None, String b0 "") in
      if x <? 0x80 then one :: segments s1
      else match s1 with
      | EmptyString => one :: segments s1
      | String b1 s2 =>
          if (0xC2 <=? x) && (x <=? 0xDF) && second_ok x b1
          then (Some (Z.lor (Z.shiftl (Z.land x 0x1F) 6) (cont b1)), String b0 (String b1 ""))
               :: segments s2
          else match s2 with
          | EmptyString => one :: segments s1
          | String b2 s3 =>
              if (0xE0 <=? x) && (x <=? 0xEF) && second_ok x b1 && in_range 0x80 0xBF b2
              then (Some (Z.lor (Z.shiftl (Z.land x 0x0F) 12)
                         (Z.lor (Z.shiftl (cont b1) 6) (cont b2))),
                    String b0 (String b1 (String b2 ""))) :: segments s3
              else match s3 with
              | EmptyString => one :: segments s1
              | String b3 s4 =>
                  if (0xF0 <=? x) && (x <=? 0xF4) && second_ok x b1
                     && in_range 0x80 0xBF b2 && in_range 0x80 0xBF b3
                  then (Some (Z.lor (Z.shiftl (Z.land x 0x07) 18)
                             (Z.lor (Z.shiftl (cont b1) 12)
                             (Z.lor (Z.shiftl (cont b2) 6) (cont b3)))),
                        String b0 (String b1 (String b2 (String b3 "")))) :: segments s4
                  else one :: segments s1
              end
          end
      end
  end.

Definition space_segment (g : option Z * string) : bool :=
  match g.1 with Some r => is_space r | None => false end.
Fixpoint drop_spaces (l : list (option Z * string)) : list (option Z * string) :=
  match l with
  | g :: l' => if space_segment g then drop_spaces l' else l
  | [] => []
  end.

(** [strings.TrimSpace] and [bytes.TrimSpace]. *)
Definition TrimSpace (s : string) : string :=
  String.concat "" (map snd (rev (drop_spaces (rev (drop_spaces (segments s)))))).

(** ** Character classes and the two fixed patterns *)
Definition is_digit (a : ascii) : bool := in_range 48 57 a.
Definition is_lower_hex (a : ascii) : bool := is_digit a || in_range 97 102 a.

Fixpoint all_chars (p : ascii -> bool) (s : string) : bool :=
  match s with
  | EmptyString => true
  | String a s => p a && all_chars p s
  end.

(** [^[0-9a-f]{64}$]. *)
Definition hex64 (s : string) : bool :=
  (len s =? 64) && all_chars is_lower_hex s.

(** [strings.HasPrefix] together with the remainder. *)
Fixpoint strip_prefix (p s : string) : option string :=
  match p, s with
  | EmptyString, _ => Some s
  | String a p, String b s => if Ascii.eqb a b then strip_prefix p s else None
  | String _ _, EmptyString => None
  end.

(** [^sha256:[0-9a-f]{64}$]. *)
Definition sha256_pattern (s : string) : bool :=
  match strip_prefix "sha256:" s with
  | Some r => hex64 r
  | None => false
  end.

(** ** Decimal, hexadecimal and big-endian output *)
Definition dec (z : Z) : string := pretty z.

Definition nibble (z : Z) : ascii := of_code (if z <? 10 then 48 + z else 87 + z).

Fixpoint hex (s : string) : string :=
  match s with
  | EmptyString => ""
  | String a s => String (nibble (code a / 16)) (String (nibble (code a mod 16)) (hex s))
  end.

(** [be n z]: the low [8 n] bits of [z], most significant byte first
    ([binary.BigEndian.PutUint64] is [be 8]). *)
Fixpoint be (n : nat) (z : Z) : string :=
  match n with
  | O => ""
  | S n => String (of_code ((z / 2 ^ (8 * Z.of_nat n)) mod 256)) (be n z)
  end.

(** [strings.Join]. *)
Fixpoint join (sep : string) (l : list string) : string :=
  match l with
  | [] => ""
  | [x] => x
  | x :: l => x ++ sep ++ join sep l
  end.

(** The byte order of strings: Go's [<] on strings and SQLite's BINARY
    collation. *)
Fixpoint str_lt (s t : string) : bool :=
  match s, t with
  | _, EmptyString => false
  | EmptyString, String _ _ => true
  | String a s, String b t =>
      if code a =? code b then str_lt s t else code a <? code b
  end.

(** ** Lemmas *)
Lemma app_string_assoc (a b c : string) : a ++ b ++ c = (a ++ b) ++ c.
Proof. induction a as [|x a IH]; cbn; congruence. Qed.

Lemma app_string_nil_r (a : string) : a ++ "" = a.
Proof. induction a as [|x a IH]; cbn; congruence. Qed.

Lemma app_string_cancel (a b c d : string) :
  len a = len c -> a ++ b = c ++ d -> a = c /\ b = d.
Proof.
  revert c. unfold len. induction a as [|x a IH]; intros [|y c]; cbn; try lia; [done|].
  intros Hl H. injection H as -> H.
  destruct (IH c) as [-> ->]; [lia|done|done].
Qed.

Lemma substring_prefix a b : substring 0 (String.length a) (a ++ b) = a.
Proof. induction a as [|x a IH]; cbn; [by destruct b|]. by rewrite IH. Qed.

Lemma substring_all b : substring 0 (String.length b) b = b.
Proof. rewrite <- (app_string_nil_r b) at 2. apply substring_prefix. Qed.

Lemma substring_suffix a b :
  substring (String.length a) (String.length (a ++ b) - String.length a) (a ++ b) = b.
Proof.
  induction a as [|x a IH]; cbn; [|exact IH]. rewrite Nat.sub_0_r. apply substring_all.
Qed.

Lemma len_be n z : len (be n z) = Z.of_nat n.
Proof. induction n as [|n IH]; [done|]. cbn [be]. unfold len in *. cbn. lia. Qed.

Lemma be_inj n z w :
  0 <= z < 2 ^ (8 * Z.of_nat n) -> 0 <= w < 2 ^ (8 * Z.of_nat n) ->
  be n z = be n w -> z = w.
Proof.
  intros Hz Hw H.
  assert (Hgen : forall m, be m z = be m w ->
    z mod 2 ^ (8 * Z.of_nat m) = w mod 2 ^ (8 * Z.of_nat m)).
  { induction m as [|m IH]; [by rewrite !Z.mod_1_r|].
    cbn [be]. intros Hm. injection Hm as H1 H2. specialize (IH H2).
    apply (f_equal code) in H1.
    rewrite !code_of_code in H1 by (apply Z.mod_pos_bound; lia).
    replace (8 * Z.of_nat (S m)) with (8 * Z.of_nat m + 8) by lia.
    rewrite Z.pow_add_r by lia. change (2 ^ 8) with 256.
    rewrite !Z.rem_mul_r by lia. congruence. }
  apply Hgen in H. by rewrite !Z.mod_small in H.
Qed.

Lemma dec_inj z w : dec z = dec w -> z = w.
Proof. apply (inj pretty). Qed.

Lemma strip_prefix_app p s : strip_prefix p (p ++ s) = Some s.
Proof. induction p as [|a p IH]; cbn; [done|]. by rewrite Ascii.eqb_refl. Qed.

Lemma strip_prefix_some p s r : strip_prefix p s = Some r -> s = p ++ r.
Proof.
  revert s. induction p as [|a p IH]; intros [|b s]; cbn; try naive_solver.
  destruct (Ascii.eqb_spec a b); [|done]. intros H. by rewrite (IH _ H), e.
Qed.

Lemma str_lt_irrefl s : str_lt s s = false.
Proof. induction s as [|a s IH]; cbn; [done|]. by rewrite Z.eqb_refl. Qed.

Lemma str_lt_trans s t u : str_lt s t = true -> str_lt t u = true -> str_lt s u = true.
Proof.
  revert t u. induction s as [|a s IH]; intros [|b t] [|c u]; cbn; try done.
  destruct (Z.eqb_spec (code a) (code b)), (Z.eqb_spec (code b) (code c)),
    (Z.eqb_spec (code a) (code c)); try lia; eauto;
    rewrite ?Z.ltb_lt; try lia.
Qed.

Lemma str_lt_total s t : str_lt s t = false -> str_lt t s = false -> s = t.
Proof.
  revert t. induction s as [|a s IH]; intros [|b t]; cbn; try done.
  rewrite (Z.eqb_sym (code b)).
  destruct (Z.eqb_spec (code a) (code b)) as [Heq|]; [|lia].
  intros H1 H2. by rewrite (IH _ H1 H2), (code_inj a b Heq).
Qed.

#[export] Hint Resolve len_be : snag.

(** ** Delimited decimals

    A printed integer has only digits and a sign, so a delimiter after it can
    be found again. *)
Definition dec_char (a : ascii) : bool := is_digit a || Ascii.eqb a "-".

Lemma all_chars_pretty_N_go x : forall s,
  all_chars dec_char s = true -> all_chars dec_char (pretty.pretty_N_go x s) = true.
Proof.
  induction (N.lt_wf_0 x) as [x _ IH]. intros s Hs.
  destruct (decide (x = 0)%N) as [->|Hx]; [by rewrite pretty.pretty_N_go_0|].
  rewrite pretty.pretty_N_go_step by lia. apply IH; [apply N.div_lt; lia|].
  cbn [all_chars]. rewrite Hs, andb_true_r. unfold pretty.pretty_N_char.
  by repeat case_match.
Qed.

Lemma dec_chars z : all_chars dec_char (dec z) = true.
Proof.
  assert (Hn : forall n : N, all_chars dec_char (pretty.pretty n) = true).
  { intros n. unfold pretty.pretty, pretty.pretty_N. case_decide; [done|].
    by apply all_chars_pretty_N_go. }
  destruct z as [|p|p]; [done|apply (Hn (Npos p))|].
  change (all_chars dec_char ("-" +:+ pretty.pretty (Npos p)) = true). apply (Hn (Npos p)).
Qed.

Lemma delimited_inj c p q s t :
  dec_char c = false -> all_chars dec_char p = true -> all_chars dec_char q = true ->
  p ++ String c s = q ++ String c t -> p = q /\ s = t.
Proof.
  intros Hc. revert q. induction p as [|a p IH]; intros [|b q] Hp Hq H; cbn in *.
  - by injection H.
  - injection H as -> _. by rewrite Hc in Hq.
  - injection H as -> _. by rewrite Hc in Hp.
  - injection H as -> H. bools. destruct (IH q) as [-> ->]; done.
Qed.

Lemma all_chars_app p s t : all_chars p (s ++ t) = all_chars p s && all_chars p t.
Proof. induction s as [|a s IH]; cbn; [done|]. by rewrite IH, andb_assoc. Qed.

Lemma all_chars_weaken (p q : ascii -> bool) s :
  (forall a, p a = true -> q a = true) -> all_chars p s = true -> all_chars q s = true.
Proof.
  intros Hpq. induction s as [|a s IH]; cbn; [done|]. rewrite !andb_true_iff. intros [? ?]. auto.
Qed.
