(* ===== verification/GoStrconv.v ===== *)
(** * strconv: decimal integers

    [strconv.ParseUint] and [strconv.ParseInt] in base ten at 64 bits, and
    their round trip with the printed decimal. *)
From S2P Require Import Prelude GoText.
From stdpp Require Import pretty.
Open Scope string_scope.
Open Scope Z_scope.

Fixpoint digits_value (acc : Z) (s : string) : option Z :=
  match s with
  | EmptyString => Some acc
  | String a s => if is_digit a then digits_value (10 * acc + (code a - 48)) s else None
  end.

Definition ParseUint (s : string) : option Z :=
  if is_empty s then None
  else match digits_value 0 s with
       | Some v => if v <? 2 ^ 64 then Some v else None
       | None => None
       end.

Definition ParseInt (s : string) : option Z :=
  match s with
  | String "-" r => match ParseUint r with
                    | Some v => if v <=? 2 ^ 63 then Some (- v) else None
                    | None => None
                    end
  | String "+" r => match ParseUint r with
                    | Some v => if v <? 2 ^ 63 then Some v else None
                    | None => None
                    end
  | _ => match ParseUint s with
         | Some v => if v <? 2 ^ 63 then Some v else None
         | None => None
         end
  end.

Lemma digits_value_pretty x : forall s,
  digits_value 0 (pretty.pretty_N_go x s) = digits_value (Z.of_N x) s.
Proof.
  induction (N.lt_wf_0 x) as [x _ IH]. intros s.
  destruct (decide (x = 0)%N) as [->|Hx]; [by rewrite pretty.pretty_N_go_0|].
  rewrite pretty.pretty_N_go_step by lia. rewrite IH by (apply N.div_lt; lia).
  assert (Hd : exists d, (x `mod` 10)%N = d /\ (d < 10)%N)
    by (eexists; split; [done|]; apply N.mod_lt; lia).
  destruct Hd as (d & Ed & Hlt). rewrite Ed.
  assert (Hchar : is_digit (pretty.pretty_N_char d) = true /\ code (pretty.pretty_N_char d) - 48 = Z.of_N d).
  { clear -Hlt. destruct d as [|p]; [done|].
    do 4 (try destruct p as [p|p|]); first [done | lia]. }
  destruct Hchar as [H1 H2]. cbn [digits_value]. rewrite H1, H2. f_equal.
  pose proof (N.div_mod x 10 ltac:(lia)). lia.
Qed.

Lemma dec_pos z : 0 < z -> digits_value 0 (dec z) = Some z /\ is_empty (dec z) = false /\
  forall r, dec z <> String "-" r /\ dec z <> String "+" r.
Proof.
  intros Hz. destruct z as [|p|p]; [lia| |lia].
  change (dec (Z.pos p)) with (pretty.pretty_N_go (N.pos p) "").
  pose proof (digits_value_pretty (N.pos p) "") as Hv. revert Hv.
  generalize (pretty.pretty_N_go (N.pos p) ""). intros w Hv. rewrite Hv.
  split; [done|]. destruct w as [|a r]; [by injection Hv|].
  split; [done|]. intros r'. split; intros [= -> ->]; by cbn in Hv.
Qed.

Lemma ParseUint_dec z : 0 < z < 2 ^ 64 -> ParseUint (dec z) = Some z.
Proof.
  intros Hz. destruct (dec_pos z) as (Hv & He & _); [lia|]. unfold ParseUint. rewrite He, Hv.
  destruct (Z.ltb_spec z (2 ^ 64)); [done|lia].
Qed.

Lemma ParseInt_dec z : 0 < z < 2 ^ 63 -> ParseInt (dec z) = Some z.
Proof.
  intros Hz. destruct (dec_pos z) as (_ & _ & Hs); [lia|].
  assert (Hp : ParseInt (dec z) = match ParseUint (dec z) with
    | Some v => if v <? 2 ^ 63 then Some v else None | None => None end).
  { destruct (dec z) as [|a r]; [done|]. destruct (Hs r) as [H1 H2]. unfold ParseInt.
    destruct a as [[] [] [] [] [] [] [] []]; try done; by destruct H1 || by destruct H2. }
  rewrite Hp, ParseUint_dec by lia. destruct (Z.ltb_spec z (2 ^ 63)); [done|lia].
Qed.

