(* ===== verification/GoTime.v ===== *)
(** * [time.Time]: instants, RFC 3339 printing and the strict SSP parser

    An instant is the number of nanoseconds since the Unix epoch (the program
    compares instants only after [UTC()] and never reads a monotonic clock
    reading).  [sqlTime] is the text every SQLite column of the edge store
    holds; [ParseTimestamp] is the one timestamp grammar SSP accepts. *)
From S2P Require Import Prelude GoText.
Open Scope string_scope.
Open Scope Z_scope.

Definition second : Z := 1000000000.
Definition minute : Z := 60 * second.
Definition hour : Z := 60 * minute.
Definition day : Z := 24 * hour.

(** Go's zero [Time] is 0001-01-01T00:00:00Z. *)
Definition zero_time : Z := -62135596800 * second.
Definition is_zero_time (t : Z) : bool := t =? zero_time.

(** ** Civil calendar (proleptic Gregorian), days counted from 1970-01-01 *)
Definition civil_of_doe (doe : Z) : Z * Z * Z :=
  let yoe := (doe - doe / 1460 + doe / 36524 - doe / 146096) / 365 in
  let doy := doe - (365 * yoe + yoe / 4 - yoe / 100) in
  let mp := (5 * doy + 2) / 153 in
  let d := doy - (153 * mp + 2) / 5 + 1 in
  let m := if mp <? 10 then mp + 3 else mp - 9 in
  (yoe, m, d).

Definition civil_of_days (z : Z) : Z * Z * Z :=
  let n := z + 719468 in
  let '(yoe, m, d) := civil_of_doe (n mod 146097) in
  (yoe + 400 * (n / 146097) + (if m <=? 2 then 1 else 0), m, d).

Definition doe_of_civil (yoe m d : Z) : Z :=
  yoe * 365 + yoe / 4 - yoe / 100
  + ((153 * (if 2 <? m then m - 3 else m + 9) + 2) / 5 + d - 1).

Definition days_of_civil (y m d : Z) : Z :=
  let y' := if m <=? 2 then y - 1 else y in
  (y' / 400) * 146097 + doe_of_civil (y' mod 400) m d - 719468.

Definition leap (y : Z) : bool :=
  (y mod 4 =? 0) && (negb (y mod 100 =? 0) || (y mod 400 =? 0)).

Definition days_in (y m : Z) : Z :=
  if m =? 2 then (if leap y then 29 else 28)
  else if (m =? 4) || (m =? 6) || (m =? 9) || (m =? 11) then 30 else 31.

(** ** Printing *)
Fixpoint digits (n : nat) (z : Z) : string :=
  match n with
  | O => ""
  | S n => String (of_code (48 + z / 10 ^ Z.of_nat n)) (digits n (z mod 10 ^ Z.of_nat n))
  end.

(** [appendInt]: at least [n] digits, a sign for a negative value. *)
Definition pad (n : nat) (z : Z) : string :=
  let a := Z.abs z in
  (if z <? 0 then "-" else "") ++
  (if a <? 10 ^ Z.of_nat n then digits n a else dec a).

Fixpoint trim_zeros (s : string) : string :=
  match s with
  | EmptyString => ""
  | String a s =>
      let r := trim_zeros s in
      if is_empty r && Ascii.eqb a "0" then "" else String a r
  end.

Definition fraction (ns : Z) : string :=
  if ns =? 0 then "" else String "." (trim_zeros (digits 9 ns)).

(** The date, the time of day and the fraction of an instant on the clock of
    its zone, then the text of the zone. *)
Definition format_with (zone : string) (t : Z) : string :=
  let '(y, m, d) := civil_of_days (t / day) in
  let r := t mod day in
  pad 4 y ++ "-" ++ pad 2 m ++ "-" ++ pad 2 d ++ "T" ++
  pad 2 (r / hour) ++ ":" ++ pad 2 (r mod hour / minute) ++ ":" ++
  pad 2 (r mod minute / second) ++ fraction (r mod second) ++ zone.

(** [t.UTC().Format(time.RFC3339Nano)]. *)
Definition format_nano (t : Z) : string := format_with "Z" t.

(** [t.Format(time.RFC3339Nano)] in a zone [off] minutes east of UTC. *)
Definition zone_text (off : Z) : string :=
  if off =? 0 then "Z"
  else (if off <? 0 then "-" else "+") ++ pad 2 (Z.abs off / 60) ++ ":" ++ pad 2 (Z.abs off mod 60).
Definition format_zone (off t : Z) : string := format_with (zone_text off) (t + off * minute).

(** ** The strict parser *)
Fixpoint read_digits (n : nat) (acc : Z) (s : string) : option (Z * string) :=
  match n with
  | O => Some (acc, s)
  | S n =>
      match s with
      | String a s => if is_digit a then read_digits n (10 * acc + (code a - 48)) s else None
      | EmptyString => None
      end
  end.

Definition read_char (c : ascii) (s : string) : option string :=
  match s with
  | String a s => if Ascii.eqb a c then Some s else None
  | EmptyString => None
  end.

(** The longest run of digits: its value scaled to nanoseconds, its length
    and the rest. *)
Fixpoint read_frac (scale acc : Z) (n : nat) (s : string) : Z * nat * string :=
  match s with
  | String a s' =>
      if is_digit a then read_frac (scale / 10) (acc + (code a - 48) * scale) (S n) s'
      else (acc, n, s)
  | EmptyString => (acc, n, s)
  end.

(** The optional fraction of one to six digits, then the final [Z]. *)
Definition read_tail (s : string) : option Z :=
  match s with
  | String "." s' =>
      let '(ns, n, r) := read_frac (second / 10) 0 0 s' in
      if ((1 <=? n) && (n <=? 6))%nat && String.eqb r "Z" then Some ns else None
  | _ => if String.eqb s "Z" then Some 0 else None
  end.

(** The fields of a UTC timestamp with a given reader of its tail; a field out
    of its range is refused, as [time.Parse] does.  The year is kept. *)
Definition parse_fields (tail : string -> option Z) (s : string) : option (Z * Z) :=
  '(y, s) ← read_digits 4 0 s; s ← read_char "-" s;
  '(m, s) ← read_digits 2 0 s; s ← read_char "-" s;
  '(d, s) ← read_digits 2 0 s; s ← read_char "T" s;
  '(hh, s) ← read_digits 2 0 s; s ← read_char ":" s;
  '(mm, s) ← read_digits 2 0 s; s ← read_char ":" s;
  '(ss, s) ← read_digits 2 0 s;
  ns ← tail s;
  if (m <? 1) || (12 <? m) || (d <? 1) || (days_in y m <? d)
     || (23 <? hh) || (59 <? mm) || (59 <? ss) then None
  else Some (y, days_of_civil y m d * day + hh * hour + mm * minute + ss * second + ns).

(** [ParseTimestamp]: the grammar check, the refusal of year 0000, then
    [time.Parse]. *)
Definition ParseTimestamp (s : string) : option Z :=
  '(y, t) ← parse_fields read_tail s;
  if y =? 0 then None else Some t.

(** [time.Parse(time.RFC3339Nano, ...)] on the texts the edge store writes: any
    number of fraction digits, digits past the nanosecond dropped, and [Z].
    (Numeric zone offsets, which the store never writes, are refused here.) *)
Definition read_tail_nano (s : string) : option Z :=
  match s with
  | String "." s' =>
      let '(ns, n, r) := read_frac (second / 10) 0 0 s' in
      if (1 <=? n)%nat && String.eqb r "Z" then Some ns else None
  | _ => if String.eqb s "Z" then Some 0 else None
  end.

Definition parse_nano (s : string) : option Z := snd <$> parse_fields read_tail_nano s.

(** The zone of [time.UnmarshalJSON]: [Z], or a signed offset of at most 23:59;
    in minutes. *)
Definition read_zone (s : string) : option Z :=
  if String.eqb s "Z" then Some 0
  else
    '(sign, s) ← match s with
                 | String "+" s => Some (1, s)
                 | String "-" s => Some (-1, s)
                 | _ => None
                 end;
    '(hh, s) ← read_digits 2 0 s; s ← read_char ":" s;
    '(mm, s) ← read_digits 2 0 s;
    if is_empty s && (hh <=? 23) && (mm <=? 59) then Some (sign * (60 * hh + mm)) else None.

Definition read_tail_zone (s : string) : option Z :=
  '(ns, r) ← match s with
             | String "." s' =>
                 let '(ns, n, r) := read_frac (second / 10) 0 0 s' in
                 if (1 <=? n)%nat then Some (ns, r) else None
             | _ => Some (0, s)
             end;
  off ← read_zone r; Some (ns - off * minute).

(** [Time.MarshalJSON] in a zone, and [Time.UnmarshalJSON], on the text between
    the quotes. *)
Definition parse_zone (s : string) : option Z := snd <$> parse_fields read_tail_zone s.

(** The instants of the years 0 to 9999, which have a four-digit text. *)
Definition four_digit_year (t : Z) : bool :=
  let '(y, _, _) := civil_of_days (t / day) in (0 <=? y) && (y <=? 9999).

(** [sqlTime] of internal/sspedge/store.go. *)
Definition sqlTime (t : Z) : string := format_nano t.

Example format_epoch : format_nano 0 = "1970-01-01T00:00:00Z".
Proof. reflexivity. Qed.
Example format_half : format_nano (1785240000 * second + 500000000) = "2026-07-28T12:00:00.5Z".
Proof. reflexivity. Qed.
Example parse_micro :
  ParseTimestamp "2026-07-28T12:00:00.000001Z" = Some (1785240000 * second + 1000).
Proof. reflexivity. Qed.
Example parse_feb29 : ParseTimestamp "2025-02-29T00:00:00Z" = None.
Proof. reflexivity. Qed.

(** ** Calendar lemmas

    The year of the era is found with a remainder of at most 365 days, and of
    365 days only before a 29 February. *)
Lemma year_of_era doe y : 0 <= doe < 146097 ->
  y = (doe - doe / 1460 + doe / 36524 - doe / 146096) / 365 ->
  0 <= y < 400 /\ 0 <= doe - (365 * y + y / 4 - y / 100) <= 365.
Proof. intros. Z.to_euclidean_division_equations. lia. Qed.

Lemma last_day_leap doe y : 0 <= doe < 146097 ->
  y = (doe - doe / 1460 + doe / 36524 - doe / 146096) / 365 ->
  doe - (365 * y + y / 4 - y / 100) = 365 ->
  (y + 1) mod 4 = 0 /\ ((y + 1) mod 100 <> 0 \/ (y + 1) mod 400 = 0).
Proof. intros. Z.to_euclidean_division_equations. lia. Qed.

(** Day 59 and later of a year that starts in March fall in a month [mp]. *)
Lemma month_of_day doy mp : 0 <= doy <= 365 -> mp = (5 * doy + 2) / 153 ->
  0 <= mp <= 11 /\ 1 <= doy - (153 * mp + 2) / 5 + 1 <= 31 /\
  (mp = 11 -> doy - (153 * mp + 2) / 5 + 1 <= 29 /\
              (doy - (153 * mp + 2) / 5 + 1 = 29 -> doy = 365)) /\
  (mp = 1 \/ mp = 3 \/ mp = 6 \/ mp = 8 -> doy - (153 * mp + 2) / 5 + 1 <= 30).
Proof. intros. Z.to_euclidean_division_equations. lia. Qed.

Lemma days_in_jan y : days_in y 1 = 31.
Proof. reflexivity. Qed.

Lemma days_in_feb y : days_in y 2 = if leap y then 29 else 28.
Proof. reflexivity. Qed.

Lemma civil_of_doe_spec doe yoe m d : 0 <= doe < 146097 -> civil_of_doe doe = (yoe, m, d) ->
  doe_of_civil yoe m d = doe /\ 0 <= yoe < 400 /\ 1 <= m <= 12 /\
  1 <= d <= days_in (yoe + if m <=? 2 then 1 else 0) m.
Proof.
  intros Hdoe Hc. unfold civil_of_doe in Hc. injection Hc as Hy Hm Hd.
  rewrite Hy in *. destruct (year_of_era doe yoe Hdoe (eq_sym Hy)) as [H1 H2].
  pose proof (last_day_leap doe yoe Hdoe (eq_sym Hy)) as Hleap.
  set (doy := doe - (365 * yoe + yoe / 4 - yoe / 100)) in *.
  set (mp := (5 * doy + 2) / 153) in *.
  destruct (month_of_day doy mp H2 eq_refl) as (H3 & H4 & H5 & H6).
  assert (Hmp : (if 2 <? m then m - 3 else m + 9) = mp /\ 1 <= m <= 12).
  { rewrite <- Hm. destruct (Z.ltb_spec mp 10);
      [destruct (Z.ltb_spec 2 (mp + 3))|destruct (Z.ltb_spec 2 (mp - 9))]; lia. }
  destruct Hmp as [Hmp Hm12]. unfold doe_of_civil. rewrite Hmp. rewrite Hd in H4, H5, H6.
  repeat split; try lia. clearbody mp doy.
  destruct (Z.ltb_spec mp 10); subst m.
  - unfold days_in. destruct (Z.eqb_spec (mp + 3) 2), (Z.eqb_spec (mp + 3) 4),
      (Z.eqb_spec (mp + 3) 6), (Z.eqb_spec (mp + 3) 9), (Z.eqb_spec (mp + 3) 11); cbn [orb]; lia.
  - destruct (Z.eq_dec mp 11) as [->|]; [|replace (mp - 9) with 1 by lia; rewrite days_in_jan; lia].
    destruct (H5 eq_refl) as [H7 H8]. change (11 - 9) with 2. change (2 <=? 2) with true.
    rewrite days_in_feb. destruct (Z.eq_dec d 29) as [E29|]; [|destruct (leap _); lia].
    destruct (Hleap (H8 E29)) as [L1 L2]. unfold leap.
    rewrite L1. destruct L2 as [L2|L2]; [apply Z.eqb_neq in L2|]; rewrite L2; cbn;
      rewrite ?orb_true_r; lia.
Qed.

Lemma leap_era y k : leap (y + 400 * k) = leap y.
Proof.
  unfold leap. replace (y + 400 * k) with (y + k * 100 * 4) at 1 by lia.
  rewrite Z.mod_add by lia. replace (y + 400 * k) with (y + k * 4 * 100) at 1 by lia.
  rewrite Z.mod_add by lia. replace (y + 400 * k) with (y + k * 400) by lia.
  by rewrite Z.mod_add by lia.
Qed.

Lemma days_in_era y k m : days_in (y + 400 * k) m = days_in y m.
Proof. unfold days_in. by rewrite leap_era. Qed.

Lemma civil_roundtrip z y m d :
  civil_of_days z = (y, m, d) ->
  days_of_civil y m d = z /\ 1 <= m <= 12 /\ 1 <= d <= days_in y m.
Proof.
  unfold civil_of_days. set (n := z + 719468).
  pose proof (civil_of_doe_spec (n mod 146097)) as Hok.
  destruct (civil_of_doe (n mod 146097)) as [[yoe m'] d'].
  destruct (Hok yoe m' d') as (Ho1 & Ho2 & Ho3 & Ho4); [apply Z.mod_pos_bound; lia|done|].
  intros Hc. injection Hc as <- <- <-.
  set (b := if m' <=? 2 then 1 else 0) in *.
  assert (Hy : days_in (yoe + 400 * (n / 146097) + b) m' = days_in (yoe + b) m').
  { rewrite <- (days_in_era (yoe + b) (n / 146097)). f_equal. lia. }
  rewrite Hy. split; [|lia]. unfold days_of_civil.
  replace (if m' <=? 2 then yoe + 400 * (n / 146097) + b - 1
           else yoe + 400 * (n / 146097) + b) with (yoe + (n / 146097) * 400)
    by (subst b; destruct (m' <=? 2); lia).
  rewrite Z.div_add, Z.mod_add, (Z.div_small yoe), (Z.mod_small yoe) by lia.
  pose proof (Z.div_mod n 146097). subst n. lia.
Qed.

(** ** Printing and reading digits *)
Lemma digit_spec d : 0 <= d <= 9 -> is_digit (of_code (48 + d)) = true /\
  code (of_code (48 + d)) - 48 = d.
Proof.
  intros. unfold is_digit, in_range. rewrite !code_of_code by lia.
  split; [apply andb_true_iff; lia|lia].
Qed.

Lemma pow10_pos n : 0 < 10 ^ Z.of_nat n.
Proof. apply Z.pow_pos_nonneg; lia. Qed.

Lemma pow10_S n : 10 ^ Z.of_nat (S n) = 10 * 10 ^ Z.of_nat n.
Proof. rewrite Nat2Z.inj_succ, Z.pow_succ_r; lia. Qed.

Lemma lead_digit n z : 0 <= z < 10 ^ Z.of_nat (S n) -> 0 <= z / 10 ^ Z.of_nat n <= 9.
Proof.
  rewrite pow10_S. intros. pose proof (pow10_pos n).
  split; [apply Z.div_pos; lia|]. apply Z.lt_succ_r, Z.div_lt_upper_bound; lia.
Qed.

Lemma read_digits_digits n : forall z acc r, 0 <= z < 10 ^ Z.of_nat n ->
  read_digits n acc (digits n z ++ r) = Some (acc * 10 ^ Z.of_nat n + z, r).
Proof.
  induction n as [|n IH]; intros z acc r Hz.
  - cbn in *. f_equal. f_equal. lia.
  - pose proof (lead_digit n z Hz) as Hd. pose proof (pow10_pos n).
    destruct (digit_spec _ Hd) as [H1 H2].
    cbn [digits read_digits String.append]. rewrite H1, H2, IH by (apply Z.mod_pos_bound; lia).
    f_equal. f_equal. rewrite pow10_S. pose proof (Z.div_mod z (10 ^ Z.of_nat n)). nia.
Qed.

Lemma pad_small n z : 0 <= z < 10 ^ Z.of_nat n -> pad n z = digits n z.
Proof.
  intros. unfold pad. rewrite Z.abs_eq by lia.
  destruct (Z.ltb_spec z 0); [lia|]. destruct (Z.ltb_spec z (10 ^ Z.of_nat n)); [done|lia].
Qed.

Lemma read_pad n z r : 0 <= z < 10 ^ Z.of_nat n ->
  read_digits n 0 (pad n z ++ r) = Some (z, r).
Proof. intros. by rewrite pad_small, read_digits_digits by lia. Qed.

(** The fraction of a whole number of microseconds has one to six digits. *)
Lemma read_frac_trim n : forall z acc k r,
  0 <= z < 10 ^ Z.of_nat n -> (forall a r', r = String a r' -> is_digit a = false) ->
  read_frac (10 ^ Z.of_nat n / 10) acc k (trim_zeros (digits n z) ++ r)
  = (acc + z, (k + String.length (trim_zeros (digits n z)))%nat, r).
Proof.
  induction n as [|n IH]; intros z acc k r Hz Hr.
  - cbn in *. assert (z = 0) as -> by lia. rewrite Z.add_0_r, Nat.add_0_r.
    destruct r as [|a r']; cbn; [done|]. by rewrite (Hr a r').
  - pose proof (lead_digit n z Hz) as Hd. pose proof (pow10_pos n).
    destruct (digit_spec _ Hd) as [H1 H2].
    pose proof (Z.div_mod z (10 ^ Z.of_nat n) ltac:(lia)) as Hdm.
    pose proof (Z.mod_pos_bound z (10 ^ Z.of_nat n) ltac:(lia)) as Hm.
    rewrite pow10_S, (Z.mul_comm 10), Z.div_mul by lia.
    cbn [digits trim_zeros].
    destruct (is_empty (trim_zeros (digits n (z mod 10 ^ Z.of_nat n))) &&
      Ascii.eqb (of_code (48 + z / 10 ^ Z.of_nat n)) "0") eqn:E.
    + apply andb_true_iff in E as [E1%is_empty_spec E2%Ascii.eqb_eq].
      rewrite E2 in H2. change (code "0" - 48) with 0 in H2.
      specialize (IH (z mod 10 ^ Z.of_nat n) acc k r ltac:(lia) Hr).
      rewrite E1 in IH. cbn in IH |- *. rewrite Nat.add_0_r in *.
      destruct r as [|a r']; cbn in IH |- *.
      * injection IH as IH. repeat f_equal. lia.
      * rewrite (Hr a r' eq_refl) in *. injection IH as IH. repeat f_equal. lia.
    + cbn [String.append read_frac String.length]. rewrite H1, H2, IH by (done || lia).
      replace (acc + z / 10 ^ Z.of_nat n * 10 ^ Z.of_nat n + z mod 10 ^ Z.of_nat n)
        with (acc + z) by lia.
      by rewrite <- plus_n_Sm.
Qed.

Lemma trim_zeros_0 n : trim_zeros (digits n 0) = "".
Proof.
  induction n as [|n IH]; cbn [digits trim_zeros]; [done|].
  pose proof (pow10_pos n). by rewrite Z.div_0_l, Z.mod_0_l, IH by lia.
Qed.

Lemma len_trim_digits k : forall n z, 0 <= z -> (k <= n)%nat -> z mod 10 ^ Z.of_nat (n - k) = 0 ->
  z < 10 ^ Z.of_nat n -> (String.length (trim_zeros (digits n z)) <= k)%nat.
Proof.
  induction k as [|k IH]; intros n z Hz Hk Hmod Hlt.
  - rewrite Nat.sub_0_r in Hmod. rewrite Z.mod_small in Hmod by lia. subst z.
    by rewrite trim_zeros_0.
  - destruct n as [|n]; [lia|]. pose proof (pow10_pos n).
    cbn [digits trim_zeros].
    pose proof (Z.mod_pos_bound z (10 ^ Z.of_nat n) ltac:(lia)).
    assert (String.length (trim_zeros (digits n (z mod 10 ^ Z.of_nat n))) <= k)%nat.
    { apply IH; try lia. replace (S n - S k)%nat with (n - k)%nat in Hmod by lia.
      replace (Z.of_nat n) with (Z.of_nat (n - k) + Z.of_nat k) by lia.
      rewrite Z.pow_add_r, Z.rem_mul_r by lia. rewrite Hmod, Z.add_0_l, Z.mul_comm, Z.mod_mul; [done|].
      pose proof (pow10_pos (n - k)). lia. }
    case_match; cbn; lia.
Qed.

Lemma trim_nonempty n z : 0 < z < 10 ^ Z.of_nat n -> trim_zeros (digits n z) <> "".
Proof.
  revert z. induction n as [|n IH]; intros z Hz; [cbn in Hz; lia|].
  pose proof (lead_digit n z ltac:(lia)) as Hd. pose proof (pow10_pos n).
  cbn [digits trim_zeros]. pose proof (Z.div_mod z (10 ^ Z.of_nat n) ltac:(lia)).
  pose proof (Z.mod_pos_bound z (10 ^ Z.of_nat n) ltac:(lia)).
  case_match eqn:E; [|done]. apply andb_true_iff in E as [E1%is_empty_spec E2%Ascii.eqb_eq].
  destruct (digit_spec _ Hd) as [_ Hc]. rewrite E2 in Hc. change (code "0" - 48) with 0 in Hc.
  destruct (IH (z mod 10 ^ Z.of_nat n)); [nia|done].
Qed.

Lemma read_tail_dot w : read_tail (String "." w) =
  (let '(ns, n, r) := read_frac 100000000 0 0 w in
   if ((1 <=? n) && (n <=? 6))%nat && String.eqb r "Z" then Some ns else None).
Proof. reflexivity. Qed.

Lemma pow10_9 : 10 ^ Z.of_nat 9 = second.
Proof. reflexivity. Qed.

Lemma read_frac_fraction a z ns : 0 < ns < second -> is_digit a = false ->
  read_frac 100000000 0 0 (trim_zeros (digits 9 ns) ++ String a z)
  = (ns, String.length (trim_zeros (digits 9 ns)), String a z) /\
  String.length (trim_zeros (digits 9 ns)) <> 0%nat.
Proof.
  intros Hns Ha. pose proof (read_frac_trim 9 ns 0 0 (String a z)) as Hf.
  pose proof (trim_nonempty 9 ns) as H1. rewrite pow10_9 in Hf, H1.
  replace (second / 10) with 100000000 in Hf by done.
  rewrite Hf; [|lia|by intros b r' H; injection H as <- <-].
  split; [done|]. intros E. apply H1; [lia|]. by destruct (trim_zeros (digits 9 ns)).
Qed.

Lemma read_tail_fraction ns :
  0 <= ns < second -> ns mod 1000 = 0 -> read_tail (fraction ns ++ "Z") = Some ns.
Proof.
  intros Hns Hus. unfold fraction. destruct (Z.eqb_spec ns 0) as [->|Hne]; [done|].
  rewrite append_cons, read_tail_dot. pose proof (len_trim_digits 6 9 ns) as H2.
  rewrite pow10_9 in H2. replace (10 ^ Z.of_nat (9 - 6)) with 1000 in H2 by done.
  destruct (read_frac_fraction "Z" "" ns) as [-> H1]; [lia|done|].
  specialize (H2 ltac:(lia) ltac:(lia) ltac:(lia) ltac:(lia)). revert H1 H2.
  generalize (String.length (trim_zeros (digits 9 ns))). intros w H1 H2.
  by destruct (Nat.leb_spec 1 w), (Nat.leb_spec w 6); try lia.
Qed.

Lemma read_tail_nano_dot w : read_tail_nano (String "." w) =
  (let '(ns, n, r) := read_frac 100000000 0 0 w in
   if (1 <=? n)%nat && String.eqb r "Z" then Some ns else None).
Proof. reflexivity. Qed.

Lemma read_tail_nano_fraction ns :
  0 <= ns < second -> read_tail_nano (fraction ns ++ "Z") = Some ns.
Proof.
  intros Hns. unfold fraction. destruct (Z.eqb_spec ns 0) as [->|Hne]; [done|].
  rewrite append_cons, read_tail_nano_dot.
  destruct (read_frac_fraction "Z" "" ns) as [-> H1]; [lia|done|]. revert H1.
  generalize (String.length (trim_zeros (digits 9 ns))). intros w H1.
  by destruct (Nat.leb_spec 1 w); try lia.
Qed.

Lemma read_char_cons c s : read_char c (String c s) = Some s.
Proof. cbn. by rewrite Ascii.eqb_refl. Qed.

(** The clock fields of an instant of the day. *)
Lemma clock_fields r : 0 <= r < day ->
  0 <= r / hour < 24 /\ 0 <= r mod hour / minute < 60 /\
  0 <= r mod minute / second < 60 /\ 0 <= r mod second < second /\
  r = r / hour * hour + r mod hour / minute * minute + r mod minute / second * second + r mod second.
Proof. unfold day, hour, minute, second. intros. repeat split; Z.to_euclidean_division_equations; lia. Qed.

(** A printed instant of the years 0 to 9999 reads back as the same instant,
    whatever the tail grammar, as long as it reads the printed fraction. *)
Lemma format_fields zone off tail t y m d :
  civil_of_days (t / day) = (y, m, d) -> 0 <= y <= 9999 ->
  tail (fraction (t mod day mod second) ++ zone) = Some (t mod day mod second - off) ->
  parse_fields tail (format_with zone t) = Some (y, t - off).
Proof.
  intros Hciv Hy Htail. unfold format_with. rewrite Hciv.
  destruct (civil_roundtrip _ _ _ _ Hciv) as (Hdays & Hm & Hd).
  assert (Hdin : days_in y m <= 31) by (unfold days_in; repeat case_match; lia).
  pose proof (Z.mod_pos_bound t day ltac:(done)) as Hr.
  destruct (clock_fields _ Hr) as (Hh & Hmi & Hs & Hns & Hsum).
  unfold parse_fields.
  rewrite read_pad by (cbn; lia). cbn [mbind option_bind String.append]. rewrite read_char_cons.
  cbn [mbind option_bind]. rewrite read_pad by (cbn; lia).
  cbn [mbind option_bind String.append]. rewrite read_char_cons.
  cbn [mbind option_bind]. rewrite read_pad by (cbn; lia).
  cbn [mbind option_bind String.append]. rewrite read_char_cons.
  cbn [mbind option_bind]. rewrite read_pad by (cbn; lia).
  cbn [mbind option_bind String.append]. rewrite read_char_cons.
  cbn [mbind option_bind]. rewrite read_pad by (cbn; lia).
  cbn [mbind option_bind String.append]. rewrite read_char_cons.
  cbn [mbind option_bind]. rewrite read_pad by (cbn; lia).
  cbn [mbind option_bind String.append]. rewrite Htail.
  cbn [mbind option_bind].
  case_match eqn:Eb.
  - exfalso. rewrite !orb_true_iff, !Z.ltb_lt in Eb. lia.
  - f_equal. f_equal. rewrite Hdays. pose proof (Z.div_mod t day ltac:(done)). lia.
Qed.

(** The whole-microsecond instants of the years 1 to 9999 print to a text the
    SSP grammar reads back. *)
Lemma format_parse t y m d :
  civil_of_days (t / day) = (y, m, d) -> 1 <= y <= 9999 -> t mod 1000 = 0 ->
  ParseTimestamp (format_nano t) = Some t.
Proof.
  intros Hciv Hy Hus. unfold ParseTimestamp.
  unfold format_nano. rewrite (format_fields "Z" 0 read_tail t y m d); rewrite ?Z.sub_0_r; [|done|lia|].
  - cbn. destruct (Z.eqb_spec y 0); [lia|done].
  - apply read_tail_fraction; [apply Z.mod_pos_bound; done|].
    unfold day, hour, minute, second in *. Z.to_euclidean_division_equations. lia.
Qed.

(** Every stored timestamp of those years reads back exactly. *)
Lemma parse_sqlTime t : four_digit_year t = true -> parse_nano (sqlTime t) = Some t.
Proof.
  unfold four_digit_year, parse_nano, sqlTime.
  destruct (civil_of_days (t / day)) as [[y m] d] eqn:E. intros H. bools.
  unfold format_nano. rewrite (format_fields "Z" 0 read_tail_nano t y m d); rewrite ?Z.sub_0_r; [done|done|lia|].
  apply read_tail_nano_fraction, Z.mod_pos_bound. done.
Qed.

(** ** A printed instant of any zone reads back *)
Lemma zone_text_start off : exists a r, zone_text off = String a r /\ is_digit a = false /\ a <> "."%char.
Proof.
  unfold zone_text. destruct (off =? 0); [by exists "Z"%char, ""|].
  destruct (off <? 0); eexists _, _; (split; [reflexivity|done]).
Qed.

Lemma read_zone_text off : -1440 < off < 1440 -> read_zone (zone_text off) = Some off.
Proof.
  intros Hoff. unfold zone_text. destruct (Z.eqb_spec off 0) as [->|Hne]; [done|].
  assert (Hf : 0 <= Z.abs off / 60 < 24 /\ 0 <= Z.abs off mod 60 < 60 /\ 60 * (Z.abs off / 60) + Z.abs off mod 60 = Z.abs off)
    by (Z.to_euclidean_division_equations; lia).
  revert Hf. generalize (Z.abs off / 60), (Z.abs off mod 60). intros h m (Hh & Hm & Habs).
  pose proof (read_pad 2 m "") as Hr. rewrite app_string_nil_r in Hr.
  unfold read_zone. destruct (Z.ltb_spec off 0); cbn [String.append String.eqb Ascii.eqb Bool.eqb mbind option_bind];
    rewrite read_pad by (cbn; lia); cbn [mbind option_bind String.append]; rewrite read_char_cons; cbn [mbind option_bind];
    rewrite Hr by (cbn; lia); cbn [mbind option_bind is_empty andb];
    rewrite (proj2 (Z.leb_le h 23)), (proj2 (Z.leb_le m 59)) by lia; cbn [andb]; f_equal; lia.
Qed.

Lemma read_tail_zone_fraction off ns : -1440 < off < 1440 -> 0 <= ns < second ->
  read_tail_zone (fraction ns ++ zone_text off) = Some (ns - off * minute).
Proof.
  intros Hoff Hns. pose proof (read_zone_text off Hoff) as Hz. unfold fraction.
  destruct (zone_text_start off) as (a & r & Hs & Ha & Hdot). rewrite Hs in *.
  destruct (Z.eqb_spec ns 0) as [->|Hne].
  - cbn [String.append]. unfold read_tail_zone.
    assert (Hm : (match String a r with
             | String "." s' => let '(ns, n, r) := read_frac (second / 10) 0 0 s' in if (1 <=? n)%nat then Some (ns, r) else None
             | _ => Some (0, String a r) end) = Some (0, String a r))
      by (clear -Hdot; destruct a as [[] [] [] [] [] [] [] []]; done).
    rewrite Hm. cbn [mbind option_bind]. by rewrite Hz.
  - rewrite append_cons. unfold read_tail_zone. change (second / 10) with 100000000.
    destruct (read_frac_fraction a r ns) as [-> H1]; [lia|done|]. cbn iota beta.
    destruct (Nat.leb_spec 1 (String.length (trim_zeros (digits 9 ns)))); [|lia]. cbn [mbind option_bind]. by rewrite Hz.
Qed.

(** The instants a zone prints with a year of four digits. *)
Lemma parse_format_zone off t : -1440 < off < 1440 -> four_digit_year (t + off * minute) = true ->
  parse_zone (format_zone off t) = Some t.
Proof.
  unfold four_digit_year, parse_zone, format_zone. intros Hoff.
  destruct (civil_of_days ((t + off * minute) / day)) as [[y m] d] eqn:E. intros H. bools.
  rewrite (format_fields (zone_text off) (off * minute) read_tail_zone (t + off * minute) y m d); [|done|lia|].
  - cbn. f_equal. lia.
  - apply read_tail_zone_fraction; [done|]. apply Z.mod_pos_bound. done.
Qed.

(** ** SSP timestamps are whole microseconds *)
Lemma read_frac_length s : forall scale acc k ns n r, read_frac scale acc k s = (ns, n, r) -> (k <= n)%nat.
Proof.
  induction s as [|a s IH]; intros scale acc k ns n r; cbn [read_frac]; [intros [= _ <- _]; lia|].
  destruct (is_digit a); [intros H%IH; lia|]. intros [= _ <- _]. lia.
Qed.

Lemma read_frac_micro s : forall k acc ns n r, (k <= 6)%nat -> (1000 | acc) ->
  read_frac (10 ^ (8 - Z.of_nat k)) acc k s = (ns, n, r) -> (n <= 6)%nat -> (1000 | ns).
Proof.
  induction s as [|a s IH]; intros k acc ns n r Hk Ha; cbn [read_frac]; [by intros [= <- _ _]|].
  destruct (is_digit a); [|by intros [= <- _ _]]. intros H Hn.
  pose proof (read_frac_length _ _ _ _ _ _ _ H) as Hlen.
  assert (Hs : 10 ^ (8 - Z.of_nat k) = 1000 * 10 ^ (5 - Z.of_nat k)).
  { change 1000 with (10 ^ 3). rewrite <- Z.pow_add_r by lia. f_equal. lia. }
  eapply (IH (S k)); [lia| |rewrite <- H; f_equal|done].
  - apply Z.divide_add_r; [done|]. apply Z.divide_mul_r. rewrite Hs. apply Z.divide_factor_l.
  - replace (8 - Z.of_nat k) with (8 - Z.of_nat (S k) + 1) by lia.
    rewrite Z.pow_add_r by lia. change (10 ^ 1) with 10. by rewrite Z.div_mul.
Qed.

Lemma read_tail_other a s : a <> "."%char -> read_tail (String a s) = if String.eqb (String a s) "Z" then Some 0 else None.
Proof. intros Ha. destruct a as [[] [] [] [] [] [] [] []]; try reflexivity; by destruct Ha. Qed.

Lemma read_tail_micro s ns : read_tail s = Some ns -> (1000 | ns).
Proof.
  destruct s as [|a s]; [done|]. destruct (Ascii.ascii_dec a "."%char) as [->|Ha].
  - rewrite read_tail_dot. destruct (read_frac _ _ _ s) as [[x n] r] eqn:E. destruct (_ && _) eqn:Eb; [|done].
    intros [= <-]. bools. eapply (read_frac_micro s 0); [lia|by exists 0|exact E|by apply Nat.leb_le].
  - rewrite read_tail_other by done. destruct (String.eqb _ _); [|done]. intros [= <-]. by exists 0.
Qed.

Lemma ParseTimestamp_micro s t : ParseTimestamp s = Some t -> t / 1000 * 1000 = t.
Proof.
  intros H. assert (Hd : (1000 | t)).
  { unfold ParseTimestamp in H. apply bind_Some in H as ([y t'] & H & Ht). destruct (y =? 0); [done|]. injection Ht as ->.
    unfold parse_fields in H.
    repeat match type of H with (_ ≫= _) = Some _ =>
      let x := fresh "x" in let Hx := fresh "Hx" in apply bind_Some in H as (x & Hx & H);
      try match type of x with prod _ _ => destruct x end end.
    destruct (_ || _); [done|]. injection H as _ <-.
    match goal with Hn : read_tail _ = Some _ |- _ => apply read_tail_micro in Hn as [q ->] end.
    repeat apply Z.divide_add_r; try apply Z.divide_factor_r; apply Z.divide_mul_r; apply Z.mod_divide; reflexivity || done. }
  destruct Hd as [q ->]. by rewrite Z.div_mul.
Qed.

(** No SSP timestamp is before Go's zero time. *)
Lemma civil_after_zero y m d : 1 <= y -> 1 <= m <= 12 -> 1 <= d -> -719162 <= days_of_civil y m d.
Proof.
  intros Hy Hm Hd. unfold days_of_civil, doe_of_civil.
  destruct (Z.leb_spec m 2), (Z.ltb_spec 2 m); try lia.
  - pose proof (Z.div_mod (y - 1) 400). pose proof (Z.mod_pos_bound (y - 1) 400). Z.to_euclidean_division_equations. nia.
  - pose proof (Z.div_mod y 400). pose proof (Z.mod_pos_bound y 400). Z.to_euclidean_division_equations. nia.
Qed.

Lemma read_digits_nonneg n : forall acc s z r, 0 <= acc -> read_digits n acc s = Some (z, r) -> 0 <= z.
Proof.
  induction n as [|n IH]; intros acc s z r Ha; cbn [read_digits]; [by intros [= <- _]|].
  destruct s as [|a s]; [done|]. destruct (is_digit a) eqn:E; [|done]. apply IH.
  unfold is_digit, in_range in E. bools. lia.
Qed.

Lemma read_frac_nonneg s : forall scale acc n ns k r, 0 <= scale -> 0 <= acc -> read_frac scale acc n s = (ns, k, r) -> 0 <= ns.
Proof.
  induction s as [|a s IH]; intros scale acc n ns k r Hs Ha; cbn [read_frac]; [by intros [= <- _ _]|].
  destruct (is_digit a) eqn:E; [|by intros [= <- _ _]]. unfold is_digit, in_range in E. bools.
  apply IH; [by apply Z.div_pos|nia].
Qed.

Lemma read_tail_nonneg s ns : read_tail s = Some ns -> 0 <= ns.
Proof.
  destruct s as [|a s]; [done|]. destruct (Ascii.ascii_dec a "."%char) as [->|Ha].
  - rewrite read_tail_dot. destruct (read_frac _ _ _ s) as [[x n] r] eqn:E. destruct (_ && _); [|done].
    intros [= <-]. eapply read_frac_nonneg; [|done|exact E]. done.
  - rewrite read_tail_other by done. destruct (String.eqb _ _); [|done]. by intros [= <-].
Qed.

Lemma ParseTimestamp_after_zero s t : ParseTimestamp s = Some t -> zero_time <= t.
Proof.
  intros H. unfold ParseTimestamp in H. apply bind_Some in H as ([y t'] & H & Ht).
  destruct (Z.eqb_spec y 0) as [|Hy]; [done|]. injection Ht as ->. unfold parse_fields in H.
  repeat match type of H with (_ ≫= _) = Some _ =>
    let x := fresh "x" in let Hx := fresh "Hx" in apply bind_Some in H as (x & Hx & H);
    try match type of x with prod _ _ => destruct x end end.
  destruct (_ || _) eqn:E; [done|]. injection H as -> <-. bools.
  repeat match goal with Hr : read_digits _ 0 _ = Some _ |- _ => apply read_digits_nonneg in Hr; [|done] end.
  match goal with Hn : read_tail _ = Some _ |- _ => apply read_tail_nonneg in Hn end.
  match goal with |- context [days_of_civil y ?m ?d] => assert (Hc : -719162 <= days_of_civil y m d) by (apply civil_after_zero; lia) end.
  unfold zero_time, day, hour, minute, second in *. lia.
Qed.
