(* ===== verification/Sha256.v ===== *)
(** * SHA-256 ([crypto/sha256])

    The digest behind every commitment, routing token and outbox identifier,
    as an executable function on byte strings, checked on the published test
    vectors.  Nothing is proved about collisions: theorems that go through the
    digest say which two messages would have to collide. *)
From S2P Require Import Prelude GoText.
Open Scope string_scope.
Open Scope Z_scope.

Definition w32 (z : Z) : Z := Z.land z 0xFFFFFFFF.
Definition rotr (n x : Z) : Z := w32 (Z.lor (Z.shiftr x n) (Z.shiftl x (32 - n))).

Definition ch (x y z : Z) : Z := Z.lxor (Z.land x y) (Z.land (Z.lxor x 0xFFFFFFFF) z).
Definition maj (x y z : Z) : Z :=
  Z.lxor (Z.lxor (Z.land x y) (Z.land x z)) (Z.land y z).
Definition bsig0 (x : Z) : Z := Z.lxor (Z.lxor (rotr 2 x) (rotr 13 x)) (rotr 22 x).
Definition bsig1 (x : Z) : Z := Z.lxor (Z.lxor (rotr 6 x) (rotr 11 x)) (rotr 25 x).
Definition ssig0 (x : Z) : Z := Z.lxor (Z.lxor (rotr 7 x) (rotr 18 x)) (Z.shiftr x 3).
Definition ssig1 (x : Z) : Z := Z.lxor (Z.lxor (rotr 17 x) (rotr 19 x)) (Z.shiftr x 10).

(** The constants as FIPS 180-4 defines them: the first 32 bits of the
    fractional parts of the cube roots of the first 64 primes, and of the square
    roots of the first eight.  [root k n i] refines a lower bound of the [k]-th
    root of [n] bit by bit. *)
Fixpoint root (k n : Z) (i : nat) (acc : Z) : Z :=
  match i with
  | O => acc
  | S i =>
      let acc' := acc + 2 ^ Z.of_nat i in
      root k n i (if acc' ^ k <=? n then acc' else acc)
  end.
Definition root_fraction (k p : Z) : Z := w32 (root k (p * 2 ^ (32 * k)) 40 0).

Definition is_prime (n : nat) : bool :=
  forallb (fun d => negb (Nat.modulo n d =? 0)%nat) (seq 2 (n - 2)).
Definition primes : list Z := Eval vm_compute in
  (Z.of_nat <$> List.filter is_prime (seq 2 310)).

Definition round_constants : list Z := Eval vm_compute in root_fraction 3 <$> take 64 primes.

Definition digest_state : Type := Z * Z * Z * Z * Z * Z * Z * Z.

Definition initial_state : digest_state := Eval vm_compute in
  match root_fraction 2 <$> primes with
  | a :: b :: c :: d :: e :: f :: g :: h :: _ => (a, b, c, d, e, f, g, h)
  | _ => (0, 0, 0, 0, 0, 0, 0, 0)
  end.

Definition round (st : digest_state) (kw : Z * Z) : digest_state :=
  let '(a, b, c, d, e, f, g, h) := st in
  let t1 := h + bsig1 e + ch e f g + kw.1 + kw.2 in
  let t2 := bsig0 a + maj a b c in
  (w32 (t1 + t2), a, b, c, w32 (d + t1), e, f, g).

(** The message schedule, most recent word first. *)
Fixpoint extend (n : nat) (ws : list Z) : list Z :=
  match n with
  | O => ws
  | S n =>
      extend n (w32 (ssig1 (nth 1 ws 0) + nth 6 ws 0 + ssig0 (nth 14 ws 0) + nth 15 ws 0) :: ws)
  end.

Definition compress (st : digest_state) (block : list Z) : digest_state :=
  let ws := rev (extend 48 (rev block)) in
  let '(a, b, c, d, e, f, g, h) := st in
  let '(a', b', c', d', e', f', g', h') := fold_left round (zip round_constants ws) st in
  (w32 (a + a'), w32 (b + b'), w32 (c + c'), w32 (d + d'),
   w32 (e + e'), w32 (f + f'), w32 (g + g'), w32 (h + h')).

(** Big-endian words of a padded message. *)
Fixpoint words (s : string) : list Z :=
  match s with
  | String a (String b (String c (String d s))) =>
      (code a * 16777216 + code b * 65536 + code c * 256 + code d) :: words s
  | _ => []
  end.

Fixpoint blocks (n : nat) (ws : list Z) (st : digest_state) : digest_state :=
  match n with
  | O => st
  | S n => blocks n (drop 16 ws) (compress st (take 16 ws))
  end.

Fixpoint zeros (n : nat) : string :=
  match n with O => "" | S n => String "000" (zeros n) end.

Definition padded (s : string) : string :=
  s ++ String "128" (zeros (Z.to_nat ((55 - len s) mod 64)) ++ be 8 (8 * len s)).

Definition sha256 (s : string) : string :=
  let p := padded s in
  let '(a, b, c, d, e, f, g, h) :=
    blocks (Z.to_nat (len p / 64)) (words p) initial_state in
  be 4 a ++ be 4 b ++ be 4 c ++ be 4 d ++ be 4 e ++ be 4 f ++ be 4 g ++ be 4 h.

(** The hexadecimal digest, and the commitment text over it. *)
Definition sha256_hex (s : string) : string := hex (sha256 s).
Definition sha256_text (s : string) : string := "sha256:" ++ sha256_hex s.

Example sha256_empty :
  sha256_hex "" = "e3b0c44298fc1c149afbf4c8996fb92427ae41e4649b934ca495991b7852b855".
Proof. vm_compute. reflexivity. Qed.
Example sha256_abc :
  sha256_hex "abc" = "ba7816bf8f01cfea414140de5dae2223b00361a396177a9cb410ff61f20015ad".
Proof. vm_compute. reflexivity. Qed.
Example sha256_two_blocks :
  sha256_hex "abcdbcdecdefdefgefghfghighijhijkijkljklmklmnlmnomnopnopq"
  = "248d6a61d20638b8e5c026930c3e6039a33ce45964ff2167f6ecedd419db06c1".
Proof. vm_compute. reflexivity. Qed.

(** ** Shape of a digest *)
Lemma len_sha256 s : len (sha256 s) = 32.
Proof.
  unfold sha256. destruct (blocks _ _ _) as [[[[[[[a b] c] d] e] f] g] h].
  by rewrite !len_app, !len_be.
Qed.

Lemma nibble_hex z : 0 <= z < 16 -> is_lower_hex (nibble z) = true.
Proof.
  intros. unfold nibble, is_lower_hex, is_digit, in_range.
  destruct (Z.ltb_spec z 10); rewrite code_of_code by lia;
    apply orb_true_iff; rewrite !andb_true_iff; lia.
Qed.

Lemma all_hex s : all_chars is_lower_hex (hex s) = true.
Proof.
  induction s as [|a s IH]; cbn [hex all_chars]; [done|].
  pose proof (code_range a).
  rewrite !nibble_hex, IH; [done|apply Z.mod_pos_bound; lia|].
  split; [apply Z.div_pos; lia|apply Z.div_lt_upper_bound; lia].
Qed.

Lemma len_hex s : len (hex s) = 2 * len s.
Proof. unfold len. induction s as [|a s IH]; cbn -[Z.mul]; lia. Qed.

(** Every digest has the two textual shapes the validators check. *)
Lemma sha256_hex64 s : hex64 (sha256_hex s) = true.
Proof.
  unfold hex64, sha256_hex. by rewrite len_hex, len_sha256, all_hex.
Qed.

Lemma sha256_text_pattern s : sha256_pattern (sha256_text s) = true.
Proof. unfold sha256_pattern, sha256_text. rewrite strip_prefix_app. apply sha256_hex64. Qed.

Lemma nibble_inj z w : 0 <= z < 16 -> 0 <= w < 16 -> nibble z = nibble w -> z = w.
Proof.
  intros Hz Hw H. apply (f_equal code) in H. unfold nibble in H.
  destruct (Z.ltb_spec z 10), (Z.ltb_spec w 10); rewrite !code_of_code in H by lia; lia.
Qed.

Lemma hex_inj s t : hex s = hex t -> s = t.
Proof.
  revert t. induction s as [|a s IH]; intros [|b t]; cbn [hex]; try done.
  intros H. injection H as H1 H2 H3. pose proof (code_range a). pose proof (code_range b).
  assert (forall c, 0 <= c < 256 -> 0 <= c / 16 < 16 /\ 0 <= c mod 16 < 16) as Hr.
  { intros c Hc. Z.to_euclidean_division_equations; lia. }
  apply nibble_inj in H1; [|apply Hr; lia..]. apply nibble_inj in H2; [|apply Hr; lia..].
  rewrite (IH _ H3). f_equal. apply code_inj.
  rewrite (Z.div_mod (code a) 16), (Z.div_mod (code b) 16) by lia. congruence.
Qed.

Lemma sha256_hex_eq s t : sha256_hex s = sha256_hex t -> sha256 s = sha256 t.
Proof. apply hex_inj. Qed.

#[export] Hint Resolve sha256_hex64 sha256_text_pattern : snag.
#[global] Arguments sha256 : simpl never.
#[global] Arguments sha256_hex : simpl never.

(** Two different messages with one digest. *)
Definition collision (x y : string) : Prop := x <> y /\ sha256 x = sha256 y.
