(* ===== verification/DeliveryStream.v ===== *)
(** * internal/deliverystream: subjects, tokens and publication

    The bounded at-least-once carrier between the PostgreSQL outbox and its
    recipients.  Opaque identifiers become subject tokens through a
    length-prefixed SHA-256; the JetStream client itself is a parameter
    ([js]), and all that is relied on is that it either acknowledges or
    returns an error. *)
From S2P Require Import Prelude GoText GoTime Sha256.
Open Scope string_scope.
Open Scope Z_scope.
Open Scope snag_scope.

Definition StreamName : string := "SNAGLINE_SSP_DELIVERY".
Definition SubjectPrefix : string := "snagline.ssp.delivery.v1".
Definition ProductionReplicas : Z := 3.
Definition DefaultMaxAge : Z := 7 * day.
Definition DefaultMaxBytes : Z := 2 ^ 30.
Definition HeaderOutboxID : string := "Snagline-Outbox-ID".
Definition HeaderFactSequence : string := "Snagline-Fact-Sequence".
Definition HeaderDeliverySequence : string := "Snagline-Delivery-Sequence".
Definition HeaderEdgeGeneration : string := "Snagline-Edge-Generation".
Definition DefaultAckWait : Z := 30 * second.
Definition DefaultMaxDeliver : Z := 20.

(** [ssp.MaxEnvelopeBytes]. *)
Definition MaxEnvelopeBytes : Z := Z.shiftl 64 10.

(** ** Stream configuration *)
Definition StreamModeProduction : string := "production".
Definition StreamModeSingleNodeTest : string := "single-node-test".

Record StreamConfigT := {
  sc_name : string;
  sc_subjects : list string;
  sc_retention : string;
  sc_discard : string;
  sc_max_age : Z;
  sc_max_bytes : Z;
  sc_max_msg_size : Z;
  sc_storage : string;
  sc_replicas : Z;
  sc_duplicates : Z
}.

Definition StreamConfig (mode : string) : result string StreamConfigT :=
  let config replicas :=
    {| sc_name := StreamName; sc_subjects := [SubjectPrefix ++ ".>"];
       sc_retention := "limits"; sc_discard := "old"; sc_max_age := DefaultMaxAge; sc_max_bytes := DefaultMaxBytes;
       sc_max_msg_size := MaxEnvelopeBytes; sc_storage := "file"; sc_replicas := replicas;
       sc_duplicates := DefaultMaxAge |} in
  if mode =s? StreamModeProduction then Ok (config ProductionReplicas)
  else if mode =s? StreamModeSingleNodeTest then Ok (config 1)
  else Err "unsupported SSP delivery stream mode".

(** ** Tokens *)
Fixpoint length_prefixed (values : list string) : string :=
  match values with
  | [] => ""
  | v :: values => be 8 (len v) ++ v ++ length_prefixed values
  end.

Definition hashLengthPrefixed (values : list string) : string :=
  sha256_hex (length_prefixed values).

Definition RoutingToken (opaque : string) : string := hashLengthPrefixed [opaque].

(** [EdgeToken]: the generation is a [uint64]. *)
Definition EdgeToken (edgeID : string) (generation : Z) : string :=
  hashLengthPrefixed [edgeID; be 8 generation].

Definition MessageID (outboxID : string) : string := "outbox:" ++ RoutingToken outboxID.

(** ** Subjects *)
Definition DestinationDomain : string := "domain".
Definition DestinationEdge : string := "edge".

Record PublishRequest := {
  OutboxID : string;
  Destination : string;
  pr_TenantID : string;
  pr_DomainID : string;
  pr_EdgeID : string;
  pr_EdgeGeneration : Z;
  RawSSP : bytes;
  FactSequence : Z;
  pr_DeliverySequence : Z
}.

Definition destinationSubject (destination tenantID domainID edgeID : string)
    (edgeGeneration : Z) : result string string :=
  if is_empty tenantID then Err "SSP delivery tenant ID is required"
  else
    let tenantToken := RoutingToken tenantID in
    if destination =s? DestinationDomain then
      if is_empty domainID then Err "SSP domain delivery requires a domain ID"
      else Ok (join "." [SubjectPrefix; tenantToken; DestinationDomain; RoutingToken domainID])
    else if destination =s? DestinationEdge then
      if is_empty edgeID || (edgeGeneration =? 0)
      then Err "SSP edge delivery requires an edge ID and positive generation"
      else Ok (join "." [SubjectPrefix; tenantToken; DestinationEdge;
                         EdgeToken edgeID edgeGeneration])
    else Err "unsupported SSP delivery destination".

Definition validatePublishRequest (r : PublishRequest) : result string unit :=
  if is_empty (OutboxID r) then Err "SSP delivery outbox ID is required"
  else if FactSequence r =? 0 then Err "SSP delivery fact sequence must be positive"
  else if (Destination r =s? DestinationEdge) && (pr_DeliverySequence r =? 0)
  then Err "SSP edge delivery sequence must be positive"
  else if (Destination r =s? DestinationDomain) && negb (pr_DeliverySequence r =? 0)
  then Err "SSP wake must not carry an edge delivery sequence"
  else if (len (RawSSP r) =? 0) || (MaxEnvelopeBytes <? len (RawSSP r))
  then Err "SSP delivery raw bytes out of bounds"
  else match destinationSubject (Destination r) (pr_TenantID r) (pr_DomainID r)
               (pr_EdgeID r) (pr_EdgeGeneration r) with
       | Ok _ => Ok tt
       | Err e => Err e
       end.

Definition SubjectFor (r : PublishRequest) : result string string :=
  match validatePublishRequest r with
  | Err e => Err e
  | Ok _ => destinationSubject (Destination r) (pr_TenantID r) (pr_DomainID r)
              (pr_EdgeID r) (pr_EdgeGeneration r)
  end.

(** ** Publication

    The message handed to [js.PublishMsg], and [Publish] over a client that
    answers with the duplicate flag of its acknowledgement. *)
Record NatsMsg := {
  msg_subject : string;
  msg_data : bytes;
  msg_headers : list (string * string);
  msg_id : string;
  msg_expect_stream : string
}.

Definition message_for (subject : string) (r : PublishRequest) : NatsMsg :=
  {| msg_subject := subject; msg_data := RawSSP r;
     msg_headers :=
       [(HeaderOutboxID, OutboxID r); (HeaderFactSequence, dec (FactSequence r))]
       ++ (if Destination r =s? DestinationEdge then
             [(HeaderDeliverySequence, dec (pr_DeliverySequence r));
              (HeaderEdgeGeneration, dec (pr_EdgeGeneration r))]
           else []);
     msg_id := MessageID (OutboxID r); msg_expect_stream := StreamName |}%list.

Definition Publish (js : NatsMsg -> result string bool) (r : PublishRequest) : result string bool :=
  match SubjectFor r with
  | Err e => Err e
  | Ok subject => js (message_for subject r)
  end.

(** ** Consumers *)
Record ConsumerRequest := {
  cr_Durable : string;
  cr_Destination : string;
  cr_TenantID : string;
  cr_DomainID : string;
  cr_EdgeID : string;
  cr_EdgeGeneration : Z;
  cr_AckWait : Z;
  cr_MaxDeliver : Z
}.

Record ConsumerConfig := {
  cc_stream : string;
  cc_name : string;
  cc_durable : string;
  cc_deliver_policy : string;
  cc_ack_policy : string;
  cc_replay_policy : string;
  cc_filter : string;
  cc_ack_wait : Z;
  cc_max_deliver : Z
}.

Definition durable_char (r : option Z) : bool :=
  match r with
  | Some c => ((97 <=? c) && (c <=? 122)) || ((65 <=? c) && (c <=? 90))
              || ((48 <=? c) && (c <=? 57)) || (c =? 95) || (c =? 45)
  | None => false
  end.

Definition validDurable (durable : string) : bool :=
  if is_empty durable || (64 <? len durable) then false
  else forallb durable_char (decode durable).

(** [EnsureConsumer] up to the call of [CreateOrUpdateConsumer], whose
    argument it returns. *)
Definition EnsureConsumer (r : ConsumerRequest) : result string ConsumerConfig :=
  if negb (validDurable (cr_Durable r)) then Err "invalid SSP delivery durable"
  else match destinationSubject (cr_Destination r) (cr_TenantID r) (cr_DomainID r)
               (cr_EdgeID r) (cr_EdgeGeneration r) with
  | Err e => Err e
  | Ok filter =>
      Ok {| cc_stream := StreamName; cc_name := cr_Durable r; cc_durable := cr_Durable r;
            cc_deliver_policy := "new"; cc_ack_policy := "explicit"; cc_replay_policy := "instant";
            cc_filter := filter;
            cc_ack_wait := if cr_AckWait r <=? 0 then DefaultAckWait else cr_AckWait r;
            cc_max_deliver :=
              if cr_MaxDeliver r <=? 0 then DefaultMaxDeliver else cr_MaxDeliver r |}
  end.

(** ** Properties *)

(** A length that fits the eight-byte prefix; every Go slice satisfies it. *)
Definition short (s : string) : Prop := len s < 2 ^ 64.

Lemma length_prefixed_inj l1 l2 :
  Forall short l1 -> Forall short l2 -> length_prefixed l1 = length_prefixed l2 -> l1 = l2.
Proof.
  intros H1. revert l2. induction H1 as [|v l1 Hv _ IH]; intros l2 H2 H.
  - destruct l2 as [|w l2]; [done|]. cbn [length_prefixed] in H. apply (f_equal len) in H.
    rewrite len_app, len_be in H. pose proof (len_nonneg (w ++ length_prefixed l2)).
    change (len "") with 0 in H. lia.
  - destruct H2 as [|w l2 Hw H2]; cbn [length_prefixed] in H.
    + apply (f_equal len) in H. rewrite len_app, len_be in H.
      pose proof (len_nonneg (v ++ length_prefixed l1)). change (len "") with 0 in H. lia.
    + apply app_string_cancel in H as [Hlen H]; [|by rewrite !len_be].
      apply be_inj in Hlen; [|unfold short in *; pose proof (len_nonneg v); cbn; lia
                             |unfold short in *; pose proof (len_nonneg w); cbn; lia].
      apply app_string_cancel in H as [-> H]; [|done]. f_equal. by apply IH.
Qed.

(** Equal tokens come from equal values, or the two encodings collide. *)
Lemma token_binding l1 l2 :
  Forall short l1 -> Forall short l2 ->
  hashLengthPrefixed l1 = hashLengthPrefixed l2 ->
  l1 = l2 \/ collision (length_prefixed l1) (length_prefixed l2).
Proof.
  intros H1 H2 H. apply sha256_hex_eq in H.
  destruct (decide (length_prefixed l1 = length_prefixed l2)) as [E|E].
  - left. by apply length_prefixed_inj.
  - right. by split.
Qed.

Lemma len_token l : len (hashLengthPrefixed l) = 64.
Proof. unfold hashLengthPrefixed, sha256_hex. by rewrite len_hex, len_sha256. Qed.

Lemma short_be g : short (be 8 g).
Proof. unfold short. rewrite len_be. done. Qed.

(** The values a destination hashes into the last token of its subject. *)
Definition destination_values (destination domainID edgeID : string) (edgeGeneration : Z)
  : list string :=
  if destination =s? DestinationDomain then [domainID] else [edgeID; be 8 edgeGeneration].

(** A subject is the prefix, the tenant token, the kind and the destination
    token, and the destination is one of the two kinds. *)
Lemma destinationSubject_shape d t dom e g s :
  destinationSubject d t dom e g = Ok s ->
  (d = DestinationDomain \/ d = DestinationEdge) /\
  s = SubjectPrefix ++ "." ++ hashLengthPrefixed [t] ++ "." ++ d ++ "."
      ++ hashLengthPrefixed (destination_values d dom e g).
Proof.
  unfold destinationSubject, destination_values. intros H.
  destruct (is_empty t); [done|].
  destruct (String.eqb_spec d DestinationDomain) as [->|].
  - destruct (is_empty dom); [done|]. injection H as <-. by split; [left|].
  - destruct (String.eqb_spec d DestinationEdge) as [->|]; [|done].
    case_match; [done|]. injection H as <-. by split; [right|].
Qed.

(** One subject addresses one recipient.  Two destinations with the same
    delivery subject are the same tenant and the same domain, or the same
    tenant and the same edge at the same generation, unless the two encodings
    hashed into one of the tokens are a SHA-256 collision. *)
Theorem subject_identifies_destination d1 t1 dom1 e1 g1 d2 t2 dom2 e2 g2 s :
  Forall short [t1; dom1; e1; t2; dom2; e2] -> 0 <= g1 < 2 ^ 64 -> 0 <= g2 < 2 ^ 64 ->
  destinationSubject d1 t1 dom1 e1 g1 = Ok s ->
  destinationSubject d2 t2 dom2 e2 g2 = Ok s ->
  (d1 = d2 /\ t1 = t2 /\ (d1 = DestinationDomain -> dom1 = dom2) /\
   (d1 = DestinationEdge -> e1 = e2 /\ g1 = g2))
  \/ collision (length_prefixed [t1]) (length_prefixed [t2])
  \/ collision (length_prefixed (destination_values d1 dom1 e1 g1))
               (length_prefixed (destination_values d2 dom2 e2 g2)).
Proof.
  intros Hs Hg1 Hg2 H1 H2. rewrite !List.Forall_cons_iff in Hs.
  destruct Hs as (St1 & Sd1 & Se1 & St2 & Sd2 & Se2 & _).
  apply destinationSubject_shape in H1 as [K1 ->].
  apply destinationSubject_shape in H2 as [K2 H].
  apply app_string_cancel in H as [_ H]; [|done].
  apply app_string_cancel in H as [_ H]; [|done].
  apply app_string_cancel in H as [Ht H]; [|by rewrite !len_token].
  destruct (token_binding [t1] [t2]) as [Et|?]; [by constructor..|done| |by right; left].
  injection Et as ->. apply app_string_cancel in H as [_ H]; [|done].
  assert (Hd : d1 = d2 /\ hashLengthPrefixed (destination_values d1 dom1 e1 g1)
                        = hashLengthPrefixed (destination_values d2 dom2 e2 g2)).
  { destruct K1 as [-> | ->], K2 as [-> | ->]; try (by cbn in H; discriminate);
      (split; [done|]); apply app_string_cancel in H as [_ H]; [|done| |done];
      by apply app_string_cancel in H as [_ H]. }
  destruct Hd as [-> Hd]. unfold destination_values in *.
  destruct (String.eqb_spec d2 DestinationDomain) as [->|Hne].
  - destruct (token_binding [dom1] [dom2]) as [E|?]; [by constructor..|done| |by right; right].
    injection E as ->. left. split_and!; done.
  - destruct (token_binding [e1; be 8 g1] [e2; be 8 g2]) as [E|?];
      [by repeat constructor; auto using short_be..|done| |by right; right].
    assert (e1 = e2 /\ be 8 g1 = be 8 g2) as [-> Eg] by (split; congruence).
    left. split_and!; try done. intros _. split; [done|]. by apply (be_inj 8).
Qed.

Lemma subject_identifies_destination_witness :
  exists s1 s2,
    destinationSubject "edge" "acme" "" "edge-1" 1 = Ok s1 /\
    destinationSubject "edge" "acme" "" "edge-1" 2 = Ok s2 /\ s1 <> s2 /\
    (("edge" = "edge" /\ "acme" = "acme" /\ ("edge" = "domain" -> "" = "") /\
      ("edge" = "edge" -> "edge-1" = "edge-1" /\ 1 = 1))
     \/ collision (length_prefixed ["acme"]) (length_prefixed ["acme"])
     \/ collision (length_prefixed (destination_values "edge" "" "edge-1" 1))
                  (length_prefixed (destination_values "edge" "" "edge-1" 1))).
Proof.
  eexists _, _. split_and!; [reflexivity|reflexivity|vm_compute; discriminate|].
  eapply (subject_identifies_destination "edge" "acme" "" "edge-1" 1
                                         "edge" "acme" "" "edge-1" 1);
    [repeat constructor|done|done|reflexivity|reflexivity].
Defined.

(** The subject an accepted request is published on, and the limits it met. *)
Lemma SubjectFor_ok r s :
  SubjectFor r = Ok s ->
  destinationSubject (Destination r) (pr_TenantID r) (pr_DomainID r) (pr_EdgeID r)
    (pr_EdgeGeneration r) = Ok s /\
  OutboxID r <> "" /\ FactSequence r <> 0 /\ 0 < len (RawSSP r) <= MaxEnvelopeBytes /\
  (Destination r = DestinationEdge -> pr_DeliverySequence r <> 0) /\
  (Destination r = DestinationDomain -> pr_DeliverySequence r = 0).
Proof.
  unfold SubjectFor, validatePublishRequest. intros H.
  pose proof (len_nonneg (RawSSP r)).
  repeat (case_match; try done); bools; split_and!; try done; try lia; try congruence;
    try (intros E0; rewrite E0 in *; cbn in *; bools; try done; try lia).
  all: try (intros ->; done).
Qed.
