(* ===== verification/Authority.v ===== *)
(** * internal/authority: the vocabulary of the semantic authority

    Requests, records, receipts, validation and the error values of the
    transactional boundary ([authority.go]).  The PostgreSQL implementation is
    in PgTx.v, AuthorityStore.v and AuthorityOutbox.v. *)
From S2P Require Import Prelude GoText GoTime.
Open Scope string_scope.
Open Scope Z_scope.
Open Scope snag_scope.

(** ** Errors

    The sentinels of authority.go, the sentinels of the postgres package, and
    a PostgreSQL error wrapped with the text of the failing step. *)
Inductive PgError : Type :=
| SQLSTATE (code : string)
| PgOther (what : string).

Inductive AErr : Type :=
| ErrInvalidRequest
| ErrConflictingCase
| ErrCaseNotFound
| ErrCaseBinding
| ErrFinalAdviceAlreadySet
| ErrConflictingRegistry
| ErrRegistryRevisionSequence
| ErrRegistryEquivocation
| ErrRegistryRollback
| ErrRegistryHalted
| ErrRegistryBinding
| ErrEdgeGenerationRollback
| ErrEdgeNotActive
| ErrRegistryNotFound
| ErrRegistryHeadNotFound
| ErrStaleOutboxLease
| errRetryTransaction
| ErrPlain (what : string)
| ErrPg (step : string) (e : PgError).

#[export] Instance PgError_eq_decision : EqDecision PgError.
Proof. solve_decision. Defined.
#[export] Instance AErr_eq_decision : EqDecision AErr.
Proof. solve_decision. Defined.

Definition isUniqueViolation (e : PgError) : bool :=
  match e with SQLSTATE c => String.eqb c "23505" | PgOther _ => false end.

Definition pg_retryable (e : PgError) : bool :=
  match e with SQLSTATE c => String.eqb c "40001" | PgOther _ => false end.

Definition retryable (e : AErr) : bool :=
  match e with
  | errRetryTransaction => true
  | ErrPg _ pe => pg_retryable pe
  | _ => false
  end.

(** ** Text validation *)
Definition validText (value : string) : bool := non_blank value.

(** [validCommitment]: the length test, the prefix test, then the loop over
    the runes of the suffix. *)
Definition commitment_rune (r : option Z) : bool :=
  match r with
  | Some c => negb (((c <? 48) || (57 <? c)) && ((c <? 97) || (102 <? c)))
  | None => false
  end.

Definition validCommitment (value : string) : bool :=
  if negb (len value =? 7 + 64) then false
  else match strip_prefix "sha256:" value with
       | None => false
       | Some suffix => forallb commitment_rune (decode suffix)
       end.

(** ** Requests *)
Record CommitReceipt := {
  r_AuthorityID : string;
  r_Revision : Z;
  r_EnvelopeID : string;
  r_Commitment : string
}.

Definition empty_receipt : CommitReceipt :=
  {| r_AuthorityID := ""; r_Revision := 0; r_EnvelopeID := ""; r_Commitment := "" |}.

Record CommitCaseRequest := {
  cc_TenantID : string;
  cc_CaseID : string;
  cc_EnvelopeID : string;
  cc_Commitment : string;
  cc_Raw : bytes;
  cc_Domain : string;
  cc_IssuerEdgeID : string;
  cc_IssuerEdgeGeneration : Z;
  cc_RoutingEpoch : Z;
  cc_RegistryRevision : Z;
  cc_RegistryHash : string;
  cc_ExpiresAt : Z;
  cc_PrincipalID : string;
  cc_EdgeID : string;
  cc_Decision : string
}.

Definition validate_case (r : CommitCaseRequest) : result AErr unit :=
  reject (negb (validText (cc_TenantID r)) || negb (validText (cc_CaseID r))
          || negb (validText (cc_EnvelopeID r)) || negb (validCommitment (cc_Commitment r))
          || (len (cc_Raw r) =? 0) || negb (validText (cc_Domain r))
          || negb (validText (cc_IssuerEdgeID r)) || (cc_IssuerEdgeGeneration r <=? 0)
          || (cc_RoutingEpoch r <? 0) || (cc_RegistryRevision r <? 0)
          || negb (validCommitment (cc_RegistryHash r)) || is_zero_time (cc_ExpiresAt r))
         ErrInvalidRequest.

Record CommitAdviceRequest := {
  ca_TenantID : string;
  ca_CaseID : string;
  ca_EnvelopeID : string;
  ca_CaseCommitment : string;
  ca_Commitment : string;
  ca_Raw : bytes;
  ca_RoutingEpoch : Z;
  ca_RegistryRevision : Z;
  ca_RegistryHash : string;
  ca_PrincipalID : string;
  ca_EdgeID : string;
  ca_Decision : string
}.

Definition validate_advice (r : CommitAdviceRequest) : result AErr unit :=
  reject (negb (validText (ca_TenantID r)) || negb (validText (ca_CaseID r))
          || negb (validText (ca_EnvelopeID r)) || negb (validCommitment (ca_CaseCommitment r))
          || negb (validCommitment (ca_Commitment r)) || (len (ca_Raw r) =? 0)
          || (ca_RoutingEpoch r <? 0) || (ca_RegistryRevision r <? 0)
          || negb (validCommitment (ca_RegistryHash r)))
         ErrInvalidRequest.

Record RegistryEdge := { re_PrincipalID : string; re_Generation : Z }.

(** [Edges] is a Go map that may be nil. *)
Record CommitRegistryRequest := {
  cr_TenantID : string;
  cr_Revision : Z;
  cr_EnvelopeID : string;
  cr_Commitment : string;
  cr_Raw : bytes;
  cr_RoutingEpoch : Z;
  cr_PreviousCommitment : string;
  cr_Edges : option (gmap string RegistryEdge);
  cr_PrincipalID : string;
  cr_EdgeID : string;
  cr_Decision : string
}.

Definition edge_entry_ok (entry : string * RegistryEdge) : result AErr unit :=
  reject (negb (validText entry.1) || negb (validText (re_PrincipalID entry.2))
          || (re_Generation entry.2 <=? 0)) ErrInvalidRequest.

Definition validate_registry (r : CommitRegistryRequest) : result AErr unit :=
  if negb (validText (cr_TenantID r)) || (cr_Revision r <=? 0)
     || negb (validText (cr_EnvelopeID r)) || negb (validCommitment (cr_Commitment r))
     || (len (cr_Raw r) =? 0) || (cr_RoutingEpoch r <? 0)
     || (negb (is_empty (cr_PreviousCommitment r))
         && negb (validCommitment (cr_PreviousCommitment r)))
  then Err ErrInvalidRequest
  else match cr_Edges r with
       | None => Err ErrInvalidRequest
       | Some edges => first_err edge_entry_ok (map_to_list edges)
       end.

(** ** Read queries *)
Record EdgeDeliveryQuery := {
  dq_TenantID : string;
  dq_EdgeID : string;
  dq_PrincipalID : string;
  dq_EdgeGeneration : Z;
  dq_AfterSequence : Z;
  dq_Limit : Z
}.

Definition validate_delivery_query (q : EdgeDeliveryQuery) : result AErr unit :=
  reject (negb (validText (dq_TenantID q)) || negb (validText (dq_EdgeID q))
          || negb (validText (dq_PrincipalID q)) || (dq_EdgeGeneration q <=? 0)
          || (dq_AfterSequence q <? 0) || (dq_Limit q <=? 0) || (1000 <? dq_Limit q))
         ErrInvalidRequest.

Record EdgeDelivery := {
  ed_Sequence : Z;
  ed_Kind : string;
  ed_CaseID : string;
  ed_EnvelopeID : string;
  ed_Commitment : string;
  ed_Raw : bytes;
  ed_AuthorityRevision : Z
}.

Record EdgeDeliveryPage := {
  dp_Deliveries : list EdgeDelivery;
  dp_HighWatermark : Z;
  dp_CompleteThrough : Z
}.

Record ProjectionFactQuery := {
  fq_TenantID : string;
  fq_After : Z;
  fq_Limit : Z
}.

Definition validate_fact_query (q : ProjectionFactQuery) : result AErr unit :=
  reject (negb (validText (fq_TenantID q)) || (fq_After q <? 0)
          || (fq_Limit q <=? 0) || (1000 <? fq_Limit q)) ErrInvalidRequest.

Record ProjectionFact := {
  pf_AuthorityRevision : Z;
  pf_Kind : string;
  pf_CaseID : string;
  pf_EnvelopeID : string;
  pf_Commitment : string;
  pf_Raw : bytes
}.

Record ProjectionFactPage := {
  pp_Facts : list ProjectionFact;
  pp_HighWatermark : Z
}.

(** ** Stored records *)
Record CaseRecord := {
  cs_TenantID : string;
  cs_CaseID : string;
  cs_EnvelopeID : string;
  cs_Commitment : string;
  cs_Raw : bytes;
  cs_Domain : string;
  cs_IssuerEdgeID : string;
  cs_IssuerEdgeGeneration : Z;
  cs_RoutingEpoch : Z;
  cs_RegistryRevision : Z;
  cs_RegistryHash : string;
  cs_ExpiresAt : Z;
  cs_AuthorityRevision : Z
}.

Record RegistryRecord := {
  rr_TenantID : string;
  rr_Revision : Z;
  rr_EnvelopeID : string;
  rr_Commitment : string;
  rr_Raw : bytes;
  rr_RoutingEpoch : Z;
  rr_PreviousCommitment : string;
  rr_AuthorityRevision : Z
}.

Record RegistryHead := {
  rh_TenantID : string;
  rh_Revision : Z;
  rh_Commitment : string;
  rh_RoutingEpoch : Z;
  rh_Halted : bool;
  rh_HaltReason : string
}.

(** ** The loop of [validCommitment] is the commitment pattern

    A string of 64 bytes whose runes are all lowercase hexadecimal has only
    ASCII runes, so the rune loop and the byte pattern agree. *)
Lemma decode_ascii a s : (code a <? 128) = true -> decode (String a s) = Some (code a) :: decode s.
Proof. intros H. cbn [decode]. by rewrite H. Qed.

Lemma lower_hex_rune a : commitment_rune (Some (code a)) = is_lower_hex a.
Proof.
  unfold commitment_rune, is_lower_hex, is_digit, in_range.
  destruct (Z.ltb_spec (code a) 48), (Z.ltb_spec 57 (code a)), (Z.ltb_spec (code a) 97),
    (Z.ltb_spec 102 (code a)), (Z.leb_spec 48 (code a)), (Z.leb_spec (code a) 57),
    (Z.leb_spec 97 (code a)), (Z.leb_spec (code a) 102); try lia; done.
Qed.


Lemma lor_big a b : 128 <= a -> 0 <= b -> 128 <= Z.lor a b.
Proof.
  intros Ha Hb. pose proof (Z.log2_lor a b ltac:(lia) Hb).
  pose proof (Z.log2_le_mono 128 a Ha). change (Z.log2 128) with 7 in *.
  destruct (Z.le_gt_cases 128 (Z.lor a b)) as [|Hlt]; [done|].
  destruct (Z.le_gt_cases (Z.lor a b) 0) as [Hn|Hp].
  - rewrite (Z.log2_nonpos (Z.lor a b)) in H by lia. lia.
  - apply Z.log2_lt_pow2 with (b := 7) in Hlt; lia.
Qed.

Lemma cont_nonneg b : 0 <= cont b.
Proof. unfold cont. apply Z.land_nonneg. right. lia. Qed.

Lemma big_rune c : 128 <= c -> commitment_rune (Some c) = false.
Proof.
  intros. unfold commitment_rune. destruct (Z.ltb_spec c 48), (Z.ltb_spec 57 c),
    (Z.ltb_spec c 97), (Z.ltb_spec 102 c); try lia; done.
Qed.

(** The payload of a lead byte, for every lead byte of a class. *)
Fixpoint z_all (p : Z -> bool) (n : nat) (z : Z) : bool :=
  match n with O => true | S n => p z && z_all p n (z + 1) end.

Lemma z_all_spec p n z : z_all p n z = true -> forall x, z <= x < z + Z.of_nat n -> p x = true.
Proof.
  revert z. induction n as [|n IH]; intros z; cbn; [lia|].
  intros [Hz Hn]%andb_true_iff x Hx. destruct (Z.eq_dec x z) as [->|]; [done|].
  apply (IH (z + 1)); [done|lia].
Qed.

Lemma lead2 x : 0xC2 <= x <= 0xDF -> 128 <= Z.shiftl (Z.land x 0x1F) 6.
Proof.
  intros. apply Z.leb_le, (z_all_spec (fun x => 128 <=? Z.shiftl (Z.land x 0x1F) 6) 30 0xC2);
    [reflexivity|lia].
Qed.

Lemma lead3 x b : 0xE0 <= x <= 0xEF -> second_ok x b = true ->
  128 <= Z.lor (Z.shiftl (Z.land x 0x0F) 12) (Z.shiftl (cont b) 6).
Proof.
  intros Hx Hb. destruct (Z.eq_dec x 0xE0) as [->|].
  - unfold second_ok, in_range in Hb. cbn in Hb. bools.
    apply Z.leb_le, (z_all_spec (fun c => 128 <=? Z.lor (Z.shiftl (Z.land 0xE0 0x0F) 12)
      (Z.shiftl (Z.land c 0x3F) 6)) 32 0xA0); [reflexivity|lia].
  - apply lor_big; [|apply Z.shiftl_nonneg, cont_nonneg].
    apply Z.leb_le, (z_all_spec (fun x => 128 <=? Z.shiftl (Z.land x 0x0F) 12) 15 0xE1);
      [reflexivity|lia].
Qed.

Lemma lead4 x b : 0xF0 <= x <= 0xF4 -> second_ok x b = true ->
  128 <= Z.lor (Z.shiftl (Z.land x 0x07) 18) (Z.shiftl (cont b) 12).
Proof.
  intros Hx Hb. destruct (Z.eq_dec x 0xF0) as [->|].
  - unfold second_ok, in_range in Hb. cbn in Hb. bools.
    apply Z.leb_le, (z_all_spec (fun c => 128 <=? Z.lor (Z.shiftl (Z.land 0xF0 0x07) 18)
      (Z.shiftl (Z.land c 0x3F) 12)) 48 0x90); [reflexivity|lia].
  - apply lor_big; [|apply Z.shiftl_nonneg, cont_nonneg].
    apply Z.leb_le, (z_all_spec (fun x => 128 <=? Z.shiftl (Z.land x 0x07) 18) 4 0xF1);
      [reflexivity|lia].
Qed.

Lemma non_ascii_refused a s : (code a <? 128) = false ->
  forallb commitment_rune (decode (String a s)) = false.
Proof.
  intros Ha. cbn [decode]. rewrite Ha.
  destruct s as [|b1 s]; [done|]. case_match eqn:E2.
  { bools. cbn [forallb]. rewrite big_rune; [done|].
    apply lor_big; [apply lead2; lia|apply cont_nonneg]. }
  destruct s as [|b2 s]; [done|]. case_match eqn:E3.
  { apply andb_true_iff in E3 as [E3 _]. apply andb_true_iff in E3 as [E3 Es]. bools.
    cbn [forallb]. rewrite Z.lor_assoc, big_rune; [done|].
    apply lor_big; [apply lead3; [lia|done]|apply cont_nonneg]. }
  destruct s as [|b3 s]; [done|]. case_match eqn:E4; [|done].
  apply andb_true_iff in E4 as [E4 _]. apply andb_true_iff in E4 as [E4 _].
  apply andb_true_iff in E4 as [E4 Es]. bools.
  cbn [forallb]. rewrite !Z.lor_assoc, big_rune; [done|].
  apply lor_big; [apply lor_big|]; try (apply Z.shiftl_nonneg); try apply cont_nonneg.
  apply lead4; [lia|done].
Qed.

Lemma rune_loop_is_byte_loop s : forallb commitment_rune (decode s) = all_chars is_lower_hex s.
Proof.
  induction s as [|a s IH]; [done|].
  destruct (code a <? 128) eqn:Ha.
  - rewrite decode_ascii by done. cbn [forallb all_chars]. by rewrite lower_hex_rune, IH.
  - rewrite non_ascii_refused by done. cbn [all_chars].
    unfold is_lower_hex, is_digit, in_range. bools.
    destruct (Z.leb_spec (code a) 57), (Z.leb_spec (code a) 102); lia.
Qed.

(** The hand-written commitment check of the authority and the regular
    expression of SSP, the edge store and the SQL schema accept the same
    strings. *)
Lemma validCommitment_is_pattern v : validCommitment v = sha256_pattern v.
Proof.
  unfold validCommitment, sha256_pattern, hex64.
  destruct (strip_prefix "sha256:" v) as [r|] eqn:E; [|by destruct (negb _)].
  apply strip_prefix_some in E as ->. rewrite len_app, rune_loop_is_byte_loop.
  change (len "sha256:") with 7.
  destruct (Z.eqb_spec (7 + len r) (7 + 64)), (Z.eqb_spec (len r) 64); try lia; done.
Qed.
