(* ===== verification/PgTx.v ===== *)
(** * PostgreSQL tables, the transaction monad and the retry loop

    The tables of migrations/000001 as finite maps keyed by their primary
    keys, a small monad for the closures run inside a transaction, and
    [Store.transaction] with its three attempts.

    Serializable isolation is modelled by running one attempt as one atomic
    step on the database.  What an attempt can meet is its environment: any
    statement may fail with any PostgreSQL error, [BEGIN] and [COMMIT] may
    fail, and a failed [COMMIT] that is not a serialization failure may or may
    not have been applied.  A rollback restores every table but the identity
    sequence of authority_revisions, which PostgreSQL never rolls back. *)
From S2P Require Import Prelude GoText GoTime Authority.
Open Scope string_scope.
Open Scope Z_scope.

(** ** Rows without a Go record of their own *)
Record AdviceRow := {
  av_EnvelopeID : string;
  av_CaseCommitment : string;
  av_Commitment : string;
  av_Raw : bytes;
  av_RoutingEpoch : Z;
  av_RegistryRevision : Z;
  av_RegistryHash : string;
  av_TargetEdgeID : string;
  av_TargetEdgeGeneration : Z;
  av_DeliverySequence : Z;
  av_CommitRevision : Z
}.

Record HighWaterRow := {
  hw_PrincipalID : string;
  hw_HighestGeneration : Z;
  hw_LastSeenRevision : Z
}.

Record AuditRow := {
  au_TenantID : string;
  au_EntityKind : string;
  au_EntityID : string;
  au_Commitment : string;
  au_PrincipalID : option string;
  au_EdgeID : option string;
  au_Decision : option string;
  au_AuthorityRevision : Z
}.

Record Lease := { ls_Owner : string; ls_Token : string; ls_Until : Z }.

(** The three lease columns are null together (a CHECK of the table). *)
Record OutboxRow := {
  ob_TenantID : string;
  ob_EventKind : string;
  ob_EntityID : string;
  ob_DestinationKind : string;
  ob_DestinationKey : string;
  ob_Raw : bytes;
  ob_AuthorityRevision : Z;
  ob_CreatedAt : Z;
  ob_Attempts : Z;
  ob_NextAttemptAt : Z;
  ob_Lease : option Lease;
  ob_LastError : string;
  ob_PoisonedAt : option Z;
  ob_PublishedAt : option Z
}.

(** ** The database *)
Record DB := {
  cases : gmap (string * string) CaseRecord;
  advice : gmap (string * string) AdviceRow;
  sequences : gmap (string * string * Z) Z;
  deliveries : gmap (string * string * Z * Z) EdgeDelivery;
  heads : gmap string RegistryHead;
  highwater : gmap (string * string) HighWaterRow;
  registries : gmap (string * Z) RegistryRecord;
  audit : list AuditRow;
  outbox : gmap string OutboxRow;
  revision_seq : Z
}.

Definition empty_db : DB :=
  {| cases := ∅; advice := ∅; sequences := ∅; deliveries := ∅; heads := ∅;
     highwater := ∅; registries := ∅; audit := []; outbox := ∅; revision_seq := 1 |}.

Definition set_cases x d :=
  {| cases := x; advice := advice d; sequences := sequences d; deliveries := deliveries d;
     heads := heads d; highwater := highwater d; registries := registries d; audit := audit d;
     outbox := outbox d; revision_seq := revision_seq d |}.
Definition set_advice x d :=
  {| cases := cases d; advice := x; sequences := sequences d; deliveries := deliveries d;
     heads := heads d; highwater := highwater d; registries := registries d; audit := audit d;
     outbox := outbox d; revision_seq := revision_seq d |}.
Definition set_sequences x d :=
  {| cases := cases d; advice := advice d; sequences := x; deliveries := deliveries d;
     heads := heads d; highwater := highwater d; registries := registries d; audit := audit d;
     outbox := outbox d; revision_seq := revision_seq d |}.
Definition set_deliveries x d :=
  {| cases := cases d; advice := advice d; sequences := sequences d; deliveries := x;
     heads := heads d; highwater := highwater d; registries := registries d; audit := audit d;
     outbox := outbox d; revision_seq := revision_seq d |}.
Definition set_heads x d :=
  {| cases := cases d; advice := advice d; sequences := sequences d; deliveries := deliveries d;
     heads := x; highwater := highwater d; registries := registries d; audit := audit d;
     outbox := outbox d; revision_seq := revision_seq d |}.
Definition set_highwater x d :=
  {| cases := cases d; advice := advice d; sequences := sequences d; deliveries := deliveries d;
     heads := heads d; highwater := x; registries := registries d; audit := audit d;
     outbox := outbox d; revision_seq := revision_seq d |}.
Definition set_registries x d :=
  {| cases := cases d; advice := advice d; sequences := sequences d; deliveries := deliveries d;
     heads := heads d; highwater := highwater d; registries := x; audit := audit d;
     outbox := outbox d; revision_seq := revision_seq d |}.
Definition set_audit x d :=
  {| cases := cases d; advice := advice d; sequences := sequences d; deliveries := deliveries d;
     heads := heads d; highwater := highwater d; registries := registries d; audit := x;
     outbox := outbox d; revision_seq := revision_seq d |}.
Definition set_outbox x d :=
  {| cases := cases d; advice := advice d; sequences := sequences d; deliveries := deliveries d;
     heads := heads d; highwater := highwater d; registries := registries d; audit := audit d;
     outbox := x; revision_seq := revision_seq d |}.
Definition set_revision_seq x d :=
  {| cases := cases d; advice := advice d; sequences := sequences d; deliveries := deliveries d;
     heads := heads d; highwater := highwater d; registries := registries d; audit := audit d;
     outbox := outbox d; revision_seq := x |}.

(** Some row of a table satisfies [p] (a unique index, or an EXISTS query). *)
Definition row_exists {K V} `{Countable K} (p : K -> V -> bool) (m : gmap K V) : bool :=
  existsb (fun kv => p kv.1 kv.2) (map_to_list m).

Definition unique_violation : PgError := SQLSTATE "23505".

(** ** The transaction monad *)
Record Env := {
  fault : nat -> option PgError;
  clock : nat -> Z
}.

Definition Tx (A : Type) : Type := Env -> nat * DB -> (nat * DB) * result AErr A.

#[export] Instance tx_ret : MRet Tx := fun A a env st => (st, Ok a).
#[export] Instance tx_bind : MBind Tx := fun A B k m env st =>
  match m env st with
  | (st', Ok a) => k a env st'
  | (st', Err e) => (st', Err e)
  end.

Definition tx_fail {A} (e : AErr) : Tx A := fun _ st => (st, Err e).
Definition tx_check (b : bool) (e : AErr) : Tx unit := if b then tx_fail e else mret tt.

(** One SQL statement: it may fault, it reads the clock, it may violate a
    constraint. *)
Definition statement {A} (wrap : PgError -> AErr)
    (f : Z -> DB -> result PgError (A * DB)) : Tx A := fun env st =>
  match fault env st.1 with
  | Some e => ((S st.1, st.2), Err (wrap e))
  | None =>
      match f (clock env st.1) st.2 with
      | Ok (a, db) => ((S st.1, db), Ok a)
      | Err e => ((S st.1, st.2), Err (wrap e))
      end
  end.

Definition query {A} (step : string) (f : DB -> A) : Tx A :=
  statement (ErrPg step) (fun _ db => Ok (f db, db)).

(** ** [Store.transaction] *)
Inductive CommitFate : Type :=
| Committed
| CommitError (e : PgError) (applied : bool).

Record AttemptEnv := {
  ae_begin : option PgError;
  ae_env : Env;
  ae_rollback : option PgError;
  ae_commit : CommitFate
}.

Inductive Verdict : Type :=
| Done (r : result AErr CommitReceipt)
| Retry.

Definition rollback (before after : DB) : DB := set_revision_seq (revision_seq after) before.

(** The closure's [(receipt, commit, err)]: an error without the commit flag is
    an error of the monad; an error with it is the second component. *)
Definition Work : Type := Tx (CommitReceipt * option AErr).

Definition attempt (label : string) (work : Work) (ae : AttemptEnv) (db : DB) : DB * Verdict :=
  match ae_begin ae with
  | Some e => (db, Done (Err (ErrPg ("begin " ++ label) e)))
  | None =>
      match work (ae_env ae) (O, db) with
      | ((_, db'), Err e) =>
          (rollback db db',
           if retryable e || match ae_rollback ae with Some re => pg_retryable re | None => false end
           then Retry else Done (Err e))
      | ((_, db'), Ok (receipt, workErr)) =>
          match ae_commit ae with
          | Committed =>
              (db', Done (match workErr with Some e => Err e | None => Ok receipt end))
          | CommitError e applied =>
              if pg_retryable e then (rollback db db', Retry)
              else (if applied then db' else rollback db db',
                    Done (Err (ErrPg ("commit " ++ label) e)))
          end
      end
  end.

Definition transactionAttempts : nat := 3.

(** The retry loop.  [others k] is what the rest of the system commits before
    the [k]-th attempt. *)
Fixpoint attempts (n k : nat) (label : string) (work : Work) (envs : nat -> AttemptEnv)
    (others : nat -> DB -> DB) (db : DB) : DB * result AErr CommitReceipt :=
  match n with
  | O => (db, Err (ErrPlain "transaction exhausted serializable retries"))
  | S n =>
      match attempt label work (envs k) (others k db) with
      | (db', Done r) => (db', r)
      | (db', Retry) => attempts n (S k) label work envs others db'
      end
  end.

Definition transaction (label : string) (work : Work) (envs : nat -> AttemptEnv)
    (others : nat -> DB -> DB) (db : DB) : DB * result AErr CommitReceipt :=
  attempts transactionAttempts 0 label work envs others db.

(** The environment in which nothing fails. *)
Definition calm_env (now : Z) : Env := {| fault := fun _ => None; clock := fun _ => now |}.
Definition calm (now : Z) : AttemptEnv :=
  {| ae_begin := None; ae_env := calm_env now; ae_rollback := None; ae_commit := Committed |}.

(** ** Inversion of successful runs *)
Lemma row_exists_spec {K V} `{Countable K} (p : K -> V -> bool) (m : gmap K V) :
  row_exists p m = true <-> exists k v, m !! k = Some v /\ p k v = true.
Proof.
  unfold row_exists. rewrite existsb_exists. split.
  - intros ([k v] & Hin & Hp). apply list_elem_of_In, elem_of_map_to_list in Hin. eauto.
  - intros (k & v & Hm & Hp). exists (k, v). split; [|done].
    by apply list_elem_of_In, elem_of_map_to_list.
Qed.

Lemma row_exists_false {K V} `{Countable K} (p : K -> V -> bool) (m : gmap K V) :
  row_exists p m = false <-> forall k v, m !! k = Some v -> p k v = false.
Proof.
  rewrite <- not_true_iff_false, row_exists_spec. split.
  - intros Hn k v Hm. destruct (p k v) eqn:E; [|done]. destruct Hn. eauto.
  - intros Hall (k & v & Hm & Hp). rewrite (Hall k v Hm) in Hp. done.
Qed.

Lemma tx_bind_ok {A B} (m : Tx A) (k : A -> Tx B) env st st' b :
  (m ≫= k) env st = (st', Ok b) ->
  exists a st1, m env st = (st1, Ok a) /\ k a env st1 = (st', Ok b).
Proof.
  unfold mbind, tx_bind. destruct (m env st) as [st1 [a|e]] eqn:E; [|done]. eauto.
Qed.

Lemma statement_ok {A} wrap (f : Z -> DB -> result PgError (A * DB)) env st st' a :
  statement wrap f env st = (st', Ok a) ->
  exists db, f (clock env st.1) st.2 = Ok (a, db) /\ st' = (S st.1, db).
Proof.
  unfold statement. destruct (fault env st.1); [done|].
  destruct (f _ _) as [[a' db]|]; [|done]. intros H. injection H as <- <-. eauto.
Qed.

Lemma query_ok {A} step (f : DB -> A) env st st' a :
  query step f env st = (st', Ok a) -> a = f st.2 /\ st' = (S st.1, st.2).
Proof. intros (db & H & ->)%statement_ok. by injection H as <- <-. Qed.

Lemma tx_check_ok b e env st st' u :
  tx_check b e env st = (st', Ok u) -> b = false /\ st' = st.
Proof. unfold tx_check, tx_fail, mret, tx_ret. by destruct b; intros H; inversion H. Qed.

Lemma tx_ret_ok {A} (a b : A) env st st' :
  (mret a : Tx A) env st = (st', Ok b) -> b = a /\ st' = st.
Proof. unfold mret, tx_ret. intros H. by injection H. Qed.

Lemma tx_fail_ok {A} e env st st' (a : A) : tx_fail e env st = (st', Ok a) -> False.
Proof. done. Qed.

(** ** Rollback keeps the identity sequence

    [Grows m]: whatever happens, a run of [m] only advances the sequence. *)
Class Grows {A} (m : Tx A) : Prop :=
  grows : forall env st, revision_seq st.2 <= revision_seq (m env st).1.2.

#[export] Instance grows_ret {A} (a : A) : Grows (mret a : Tx A).
Proof. intros env st. cbn. lia. Qed.
#[export] Instance grows_fail {A} e : Grows (tx_fail e : Tx A).
Proof. intros env st. cbn. lia. Qed.
#[export] Instance grows_check b e : Grows (tx_check b e).
Proof. unfold tx_check. destruct b; apply _. Qed.
#[export] Instance grows_query {A} step (f : DB -> A) : Grows (query step f).
Proof. intros env st. unfold query, statement. destruct (fault _ _); cbn; lia. Qed.

Lemma grows_statement {A} wrap (f : Z -> DB -> result PgError (A * DB)) :
  (forall now db a db', f now db = Ok (a, db') -> revision_seq db <= revision_seq db') ->
  Grows (statement wrap f).
Proof.
  intros Hf env st. unfold statement. destruct (fault _ _); cbn; [lia|].
  destruct (f _ _) as [[a db]|] eqn:E; cbn; [|lia]. by eapply Hf.
Qed.

#[export] Instance grows_bind {A B} (m : Tx A) (k : A -> Tx B) :
  Grows m -> (forall a, Grows (k a)) -> Grows (m ≫= k).
Proof.
  intros Hm Hk env st. unfold mbind, tx_bind. pose proof (Hm env st) as H.
  destruct (m env st) as [st1 [a|e]]; cbn in *; [|done].
  etrans; [exact H|apply Hk].
Qed.

#[export] Instance grows_if {A} (b : bool) (m1 m2 : Tx A) :
  Grows m1 -> Grows m2 -> Grows (if b then m1 else m2).
Proof. by destruct b. Qed.

#[export] Instance grows_option {A B} (o : option B) (m1 : B -> Tx A) (m2 : Tx A) :
  (forall b, Grows (m1 b)) -> Grows m2 ->
  Grows (match o with Some b => m1 b | None => m2 end).
Proof. by destruct o. Qed.

(** What one attempt leaves: the closure's database when it committed, else
    the old one with an advanced sequence. *)
Lemma attempt_db label work ae db db' v :
  Grows work -> attempt label work ae db = (db', v) ->
  (exists r, revision_seq db <= r /\ db' = set_revision_seq r db) \/
  (exists n res, work (ae_env ae) (O, db) = ((n, db'), Ok res)).
Proof.
  intros Hg H. unfold attempt in H. destruct (ae_begin ae).
  { injection H as <- _. left. exists (revision_seq db). split; [lia|]. by destruct db. }
  pose proof (Hg (ae_env ae) (O, db)) as Hle.
  destruct (work (ae_env ae) (O, db)) as [[n d] [[rc we]|e]] eqn:E; cbn in Hle.
  - destruct (ae_commit ae) as [|pe applied].
    + injection H as <- _. right. eauto.
    + destruct (pg_retryable pe); [injection H as <- _; left; unfold rollback; eauto|].
      injection H as <- _. destruct applied; [right; eauto|left; unfold rollback; eauto].
  - injection H as <- _. left. unfold rollback. eauto.
Qed.
