(* ===== verification/AuthorityStore.v ===== *)
(** * internal/authority/postgres/store.go: the three commits and the reads

    Each commit is the closure the Go code passes to [Store.transaction],
    statement by statement and in the order of the source, over the tables of
    PgTx.v.  The unique indexes of the schema are checked by the INSERT that
    can violate them. *)
From S2P Require Import Prelude GoText GoTime Sha256 Authority PgTx.
From stdpp Require Import sorting.
Open Scope string_scope.
Open Scope Z_scope.
Open Scope snag_scope.

Definition registryHaltPredecessorMismatch : string := "predecessor commitment mismatch".
Definition registryHaltSameRevisionConflict : string := "same-revision conflicting evidence".
Definition registryHaltRevisionRollback : string := "registry revision rollback".

(** [pgx] sends a TIMESTAMPTZ as whole microseconds. *)
Definition pg_time (t : Z) : Z := t / 1000 * 1000.

Definition nullableText (value : string) : option string :=
  if is_empty value then None else Some value.

Definition edgeKey (edgeID : string) (generation : Z) : string :=
  edgeID ++ "@" ++ dec generation.

(** [deterministicOutboxID]: the digest of length-prefixed parts. *)
Fixpoint netstrings (parts : list string) : string :=
  match parts with
  | [] => ""
  | p :: parts => dec (len p) ++ ":" ++ p ++ netstrings parts
  end.

Definition deterministicOutboxID (tenantID eventKind entityID : string) (revision : Z)
    (kind key : string) : string :=
  sha256_text (netstrings [tenantID; eventKind; entityID; dec revision; kind; key]).

(** ** Lookups *)
Definition existingCase (r : CommitCaseRequest) : Tx (option CommitReceipt) :=
  row ← query "resolve case" (fun db => cases db !! (cc_TenantID r, cc_CaseID r));
  match row with
  | None => mret None
  | Some e =>
      let exact := (cs_EnvelopeID e =s? cc_EnvelopeID r) && (cs_Commitment e =s? cc_Commitment r)
        && (cs_Raw e =s? cc_Raw r) && (cs_Domain e =s? cc_Domain r)
        && (cs_IssuerEdgeID e =s? cc_IssuerEdgeID r)
        && (cs_IssuerEdgeGeneration e =? cc_IssuerEdgeGeneration r)
        && (cs_RoutingEpoch e =? cc_RoutingEpoch r)
        && (cs_RegistryRevision e =? cc_RegistryRevision r)
        && (cs_RegistryHash e =s? cc_RegistryHash r) && (cs_ExpiresAt e =? cc_ExpiresAt r) in
      if exact
      then mret (Some {| r_AuthorityID := ""; r_Revision := cs_AuthorityRevision e;
                         r_EnvelopeID := cs_EnvelopeID e; r_Commitment := cs_Commitment e |})
      else tx_fail ErrConflictingCase
  end.

(** [existingAdvice] returns its conflict as a value, because [CommitAdvice]
    reports a halted registry before it. *)
Inductive ExistingAdvice : Type :=
| AdviceAbsent
| AdviceExact (receipt : CommitReceipt)
| AdviceConflict.

Definition existingAdvice (r : CommitAdviceRequest) : Tx ExistingAdvice :=
  row ← query "resolve final advice" (fun db => advice db !! (ca_TenantID r, ca_CaseID r));
  match row with
  | None => mret AdviceAbsent
  | Some e =>
      let exact := (av_EnvelopeID e =s? ca_EnvelopeID r)
        && (av_CaseCommitment e =s? ca_CaseCommitment r)
        && (av_Commitment e =s? ca_Commitment r) && (av_Raw e =s? ca_Raw r)
        && (av_RoutingEpoch e =? ca_RoutingEpoch r)
        && (av_RegistryRevision e =? ca_RegistryRevision r)
        && (av_RegistryHash e =s? ca_RegistryHash r) in
      mret (if exact
            then AdviceExact {| r_AuthorityID := ""; r_Revision := av_CommitRevision e;
                                r_EnvelopeID := av_EnvelopeID e; r_Commitment := av_Commitment e |}
            else AdviceConflict)
  end.

Definition existingRegistry (r : CommitRegistryRequest) : Tx (option CommitReceipt) :=
  row ← query "resolve registry" (fun db => registries db !! (cr_TenantID r, cr_Revision r));
  match row with
  | None => tx_fail (ErrPlain "current registry head has no immutable registry row")
  | Some e =>
      let exact := (rr_EnvelopeID e =s? cr_EnvelopeID r) && (rr_Commitment e =s? cr_Commitment r)
        && (rr_Raw e =s? cr_Raw r) && (rr_RoutingEpoch e =? cr_RoutingEpoch r)
        && (rr_PreviousCommitment e =s? cr_PreviousCommitment r) in
      mret (if exact
            then Some {| r_AuthorityID := ""; r_Revision := rr_AuthorityRevision e;
                         r_EnvelopeID := rr_EnvelopeID e; r_Commitment := rr_Commitment e |}
            else None)
  end.

Definition registryHeadForUpdate (tenantID : string) : Tx (option RegistryHead) :=
  query "lock registry head" (fun db => heads db !! tenantID).

Definition caseCollision (r : CommitCaseRequest) : Tx bool :=
  query "" (fun db => row_exists (fun k row =>
    (k.1 =s? cc_TenantID r) &&
    ((cs_EnvelopeID row =s? cc_EnvelopeID r) || (cs_Commitment row =s? cc_Commitment r)))
    (cases db)).

Definition adviceCollision (r : CommitAdviceRequest) : Tx bool :=
  query "" (fun db => row_exists (fun k row =>
    (k.1 =s? ca_TenantID r) &&
    ((av_EnvelopeID row =s? ca_EnvelopeID r) || (av_Commitment row =s? ca_Commitment r)))
    (advice db)).

Definition registryCollision (r : CommitRegistryRequest) : Tx bool :=
  query "" (fun db => row_exists (fun k row =>
    (k.1 =s? cr_TenantID r) &&
    ((rr_EnvelopeID row =s? cr_EnvelopeID r) || (rr_Commitment row =s? cr_Commitment r)))
    (registries db)).

(** ** Writes *)
Definition allocateRevision : Tx Z :=
  statement (ErrPg "allocate authority revision")
    (fun _ db => Ok (revision_seq db, set_revision_seq (revision_seq db + 1) db)).

Definition allocateDeliverySequence (tenantID edgeID : string) (generation : Z) : Tx Z :=
  statement (ErrPg "allocate edge delivery sequence") (fun _ db =>
    let key := (tenantID, edgeID, generation) in
    let next := match sequences db !! key with Some n => n + 1 | None => 2 end in
    Ok (next - 1, set_sequences (<[key := next]> (sequences db)) db)).

(** The rows the INSERT and UPDATE statements write. *)
Definition case_row (r : CommitCaseRequest) (revision : Z) : CaseRecord :=
  {| cs_TenantID := cc_TenantID r; cs_CaseID := cc_CaseID r;
     cs_EnvelopeID := cc_EnvelopeID r; cs_Commitment := cc_Commitment r;
     cs_Raw := cc_Raw r; cs_Domain := cc_Domain r; cs_IssuerEdgeID := cc_IssuerEdgeID r;
     cs_IssuerEdgeGeneration := cc_IssuerEdgeGeneration r;
     cs_RoutingEpoch := cc_RoutingEpoch r; cs_RegistryRevision := cc_RegistryRevision r;
     cs_RegistryHash := cc_RegistryHash r; cs_ExpiresAt := pg_time (cc_ExpiresAt r);
     cs_AuthorityRevision := revision |}.

Definition advice_row (r : CommitAdviceRequest) (edgeID : string)
    (generation sequence revision : Z) : AdviceRow :=
  {| av_EnvelopeID := ca_EnvelopeID r; av_CaseCommitment := ca_CaseCommitment r;
     av_Commitment := ca_Commitment r; av_Raw := ca_Raw r;
     av_RoutingEpoch := ca_RoutingEpoch r; av_RegistryRevision := ca_RegistryRevision r;
     av_RegistryHash := ca_RegistryHash r; av_TargetEdgeID := edgeID;
     av_TargetEdgeGeneration := generation; av_DeliverySequence := sequence;
     av_CommitRevision := revision |}.

Definition registry_row (r : CommitRegistryRequest) (revision : Z) : RegistryRecord :=
  {| rr_TenantID := cr_TenantID r; rr_Revision := cr_Revision r;
     rr_EnvelopeID := cr_EnvelopeID r; rr_Commitment := cr_Commitment r;
     rr_Raw := cr_Raw r; rr_RoutingEpoch := cr_RoutingEpoch r;
     rr_PreviousCommitment := cr_PreviousCommitment r;
     rr_AuthorityRevision := revision |}.

Definition head_row (r : CommitRegistryRequest) (halted : bool) (reason : string) : RegistryHead :=
  {| rh_TenantID := cr_TenantID r; rh_Revision := cr_Revision r;
     rh_Commitment := cr_Commitment r; rh_RoutingEpoch := cr_RoutingEpoch r;
     rh_Halted := halted; rh_HaltReason := reason |}.

Definition halted_head (reason : string) (h : RegistryHead) : RegistryHead :=
  {| rh_TenantID := rh_TenantID h; rh_Revision := rh_Revision h;
     rh_Commitment := rh_Commitment h; rh_RoutingEpoch := rh_RoutingEpoch h;
     rh_Halted := true; rh_HaltReason := reason |}.

Definition highwater_row (r : CommitRegistryRequest) (edge : RegistryEdge) : HighWaterRow :=
  {| hw_PrincipalID := re_PrincipalID edge; hw_HighestGeneration := re_Generation edge;
     hw_LastSeenRevision := cr_Revision r |}.

Definition audit_row (tenantID kind entityID commitment principalID edgeID decision : string)
    (revision : Z) : AuditRow :=
  {| au_TenantID := tenantID; au_EntityKind := kind; au_EntityID := entityID;
     au_Commitment := commitment; au_PrincipalID := nullableText principalID;
     au_EdgeID := nullableText edgeID; au_Decision := nullableText decision;
     au_AuthorityRevision := revision |}.

Definition outbox_row (tenantID eventKind entityID : string) (raw : bytes) (revision : Z)
    (destination : string * string) (now : Z) : OutboxRow :=
  {| ob_TenantID := tenantID; ob_EventKind := eventKind; ob_EntityID := entityID;
     ob_DestinationKind := destination.1; ob_DestinationKey := destination.2;
     ob_Raw := raw; ob_AuthorityRevision := revision; ob_CreatedAt := now;
     ob_Attempts := 0; ob_NextAttemptAt := now; ob_Lease := None; ob_LastError := "";
     ob_PoisonedAt := None; ob_PublishedAt := None |}.

(** A unique violation of the main INSERT asks for a retry; any other error is
    wrapped. *)
Definition wrap_insert (step : string) (e : PgError) : AErr :=
  if isUniqueViolation e then errRetryTransaction else ErrPg step e.

Definition insertCase (r : CommitCaseRequest) (revision : Z) : Tx unit :=
  statement (wrap_insert "insert case") (fun _ db =>
    let key := (cc_TenantID r, cc_CaseID r) in
    if bool_decide (is_Some (cases db !! key)) || row_exists (fun k row =>
         (k.1 =s? cc_TenantID r) &&
         ((cs_EnvelopeID row =s? cc_EnvelopeID r) || (cs_Commitment row =s? cc_Commitment r)))
         (cases db)
    then Err unique_violation
    else Ok (tt, set_cases (<[key :=
      case_row r revision]> (cases db)) db)).

Definition insertAdvice (r : CommitAdviceRequest) (edgeID : string)
    (generation sequence revision : Z) : Tx unit :=
  statement (wrap_insert "insert final advice") (fun _ db =>
    let key := (ca_TenantID r, ca_CaseID r) in
    if bool_decide (is_Some (advice db !! key)) || row_exists (fun k row =>
         (k.1 =s? ca_TenantID r) &&
         ((av_EnvelopeID row =s? ca_EnvelopeID r) || (av_Commitment row =s? ca_Commitment r)))
         (advice db)
    then Err unique_violation
    else Ok (tt, set_advice (<[key :=
      advice_row r edgeID generation sequence revision]> (advice db)) db)).

Definition insertRegistry (r : CommitRegistryRequest) (revision : Z) : Tx unit :=
  statement (wrap_insert "insert registry") (fun _ db =>
    let key := (cr_TenantID r, cr_Revision r) in
    if bool_decide (is_Some (registries db !! key)) || row_exists (fun k row =>
         (k.1 =s? cr_TenantID r) &&
         ((rr_EnvelopeID row =s? cr_EnvelopeID r) || (rr_Commitment row =s? cr_Commitment r)))
         (registries db)
    then Err unique_violation
    else Ok (tt, set_registries (<[key :=
      registry_row r revision]> (registries db)) db)).

(** The head row: an UPDATE that keeps the halt columns, or an INSERT. *)
Definition writeRegistryHead (r : CommitRegistryRequest) (headFound : bool) : Tx unit :=
  statement (wrap_insert "update registry head") (fun _ db =>
    let put halted reason := Ok (tt, set_heads (<[cr_TenantID r :=
      head_row r halted reason]> (heads db)) db) in
    match heads db !! cr_TenantID r with
    | Some h => if headFound then put (rh_Halted h) (rh_HaltReason h) else Err unique_violation
    | None => if headFound then Ok (tt, db) else put false ""
    end).

Definition haltRegistryHead (tenantID reason : string) : Tx unit :=
  affected ← statement (ErrPg "halt registry head") (fun _ db =>
    match heads db !! tenantID with
    | None => Ok (0, db)
    | Some h => Ok (1, set_heads (<[tenantID :=
        halted_head reason h]> (heads db)) db)
    end);
  tx_check (negb (affected =? 1)) (ErrPlain "registry head disappeared while halting").

Definition insertEdgeDelivery (tenantID edgeID : string) (generation sequence : Z)
    (kind caseID envelopeID commitment : string) (raw : bytes) (revision : Z) : Tx unit :=
  statement (ErrPg "write immutable edge delivery") (fun _ db =>
    let key := (tenantID, edgeID, generation, sequence) in
    if bool_decide (is_Some (deliveries db !! key)) || row_exists (fun k row =>
         (k.1.1.1 =s? tenantID) && (ed_EnvelopeID row =s? envelopeID)) (deliveries db)
    then Err unique_violation
    else Ok (tt, set_deliveries (<[key :=
      {| ed_Sequence := sequence; ed_Kind := kind; ed_CaseID := caseID;
         ed_EnvelopeID := envelopeID; ed_Commitment := commitment; ed_Raw := raw;
         ed_AuthorityRevision := revision |}]> (deliveries db)) db)).

Definition recordAudit (tenantID kind entityID commitment principalID edgeID decision : string)
    (revision : Z) : Tx unit :=
  statement (ErrPg "write audit") (fun _ db =>
    if existsb (fun row => au_AuthorityRevision row =? revision) (audit db)
    then Err unique_violation
    else Ok (tt, set_audit (audit db ++
      [audit_row tenantID kind entityID commitment principalID edgeID decision revision])%list db)).

Definition insertOutboxRow (tenantID eventKind entityID : string) (raw : bytes) (revision : Z)
    (destination : string * string) : Tx unit :=
  let id := deterministicOutboxID tenantID eventKind entityID revision
              destination.1 destination.2 in
  statement (ErrPg ("write " ++ destination.1 ++ " outbox")) (fun now db =>
    if bool_decide (is_Some (outbox db !! id)) || row_exists (fun _ row =>
         (ob_TenantID row =s? tenantID) && (ob_AuthorityRevision row =? revision) &&
         (ob_DestinationKind row =s? destination.1) && (ob_DestinationKey row =s? destination.2))
         (outbox db)
    then Err unique_violation
    else Ok (tt, set_outbox (<[id :=
      outbox_row tenantID eventKind entityID raw revision destination now]> (outbox db)) db)).

Fixpoint insertOutbox (tenantID eventKind entityID : string) (raw : bytes) (revision : Z)
    (destinations : list (string * string)) : Tx unit :=
  match destinations with
  | [] => mret tt
  | d :: destinations =>
      insertOutboxRow tenantID eventKind entityID raw revision d;;
      insertOutbox tenantID eventKind entityID raw revision destinations
  end.

(** ** The edge generation high-water mark *)
Definition str_le (s t : string) : Prop := str_lt t s = false.

#[export] Instance str_le_dec : RelDecision str_le.
Proof. intros s t. unfold str_le. apply _. Defined.

Definition sortedKeys {V} (m : gmap string V) : list string :=
  merge_sort str_le (map_to_list m).*1.

Definition enforceOneEdge (r : CommitRegistryRequest) (head : option RegistryHead)
    (edgeID : string) (edge : RegistryEdge) : Tx unit :=
  row ← query "lock edge generation high-water"
          (fun db => highwater db !! (cr_TenantID r, edgeID));
  tx_check (match row with
            | None => false
            | Some h =>
                (re_Generation edge <? hw_HighestGeneration h)
                || ((re_Generation edge =? hw_HighestGeneration h)
                    && (match head with
                        | None => true
                        | Some hd => negb (hw_LastSeenRevision h =? rh_Revision hd)
                        end || negb (hw_PrincipalID h =s? re_PrincipalID edge)))
            end) ErrEdgeGenerationRollback;;
  statement (ErrPg "advance edge generation high-water") (fun _ db =>
    Ok (tt, set_highwater (<[(cr_TenantID r, edgeID) :=
      highwater_row r edge]> (highwater db)) db)).

Fixpoint enforceEdges (r : CommitRegistryRequest) (head : option RegistryHead)
    (edges : gmap string RegistryEdge) (ids : list string) : Tx unit :=
  match ids with
  | [] => mret tt
  | id :: ids =>
      match edges !! id with
      | None => enforceEdges r head edges ids
      | Some edge => enforceOneEdge r head id edge;; enforceEdges r head edges ids
      end
  end.

Definition request_edges (r : CommitRegistryRequest) : gmap string RegistryEdge :=
  default ∅ (cr_Edges r).

Definition enforceEdgeGenerationHighWater (r : CommitRegistryRequest)
    (head : option RegistryHead) : Tx unit :=
  enforceEdges r head (request_edges r) (sortedKeys (request_edges r)).

(** ** The commits *)
Section Store.
Context (authorityID : string).

Definition receipt (revision : Z) (envelopeID commitment : string) : CommitReceipt :=
  {| r_AuthorityID := authorityID; r_Revision := revision; r_EnvelopeID := envelopeID;
     r_Commitment := commitment |}.

Definition withAuthority (r : CommitReceipt) : CommitReceipt :=
  if 0 <? r_Revision r
  then {| r_AuthorityID := authorityID; r_Revision := r_Revision r;
          r_EnvelopeID := r_EnvelopeID r; r_Commitment := r_Commitment r |}
  else r.

Definition caseBindsHead (r : CommitCaseRequest) (h : RegistryHead) : bool :=
  (rh_Revision h =? cc_RegistryRevision r) && (rh_Commitment h =s? cc_RegistryHash r)
  && (rh_RoutingEpoch h =? cc_RoutingEpoch r).

Definition commitCaseWork (r : CommitCaseRequest) : Work :=
  existing ← existingCase r;
  match existing with
  | Some rc => mret (withAuthority rc, None)
  | None =>
      head ← registryHeadForUpdate (cc_TenantID r);
      match head with
      | None => tx_fail ErrRegistryNotFound
      | Some h =>
          tx_check (rh_Halted h) ErrRegistryHalted;;
          tx_check (negb (caseBindsHead r h)) ErrRegistryBinding;;
          collision ← caseCollision r;
          tx_check collision ErrConflictingCase;;
          revision ← allocateRevision;
          insertCase r revision;;
          sequence ← allocateDeliverySequence (cc_TenantID r) (cc_IssuerEdgeID r)
                       (cc_IssuerEdgeGeneration r);
          insertEdgeDelivery (cc_TenantID r) (cc_IssuerEdgeID r) (cc_IssuerEdgeGeneration r)
            sequence "case" (cc_CaseID r) (cc_EnvelopeID r) (cc_Commitment r) (cc_Raw r) revision;;
          recordAudit (cc_TenantID r) "case" (cc_CaseID r) (cc_Commitment r) (cc_PrincipalID r)
            (cc_EdgeID r) (cc_Decision r) revision;;
          insertOutbox (cc_TenantID r) "case" (cc_CaseID r) (cc_Raw r) revision
            [("domain_dispatch", cc_Domain r);
             ("edge_delivery", edgeKey (cc_IssuerEdgeID r) (cc_IssuerEdgeGeneration r))];;
          mret (receipt revision (cc_EnvelopeID r) (cc_Commitment r), None)
      end
  end.

Definition commitAdviceWork (r : CommitAdviceRequest) : Work :=
  existing ← existingAdvice r;
  match existing with
  | AdviceExact rc => mret (withAuthority rc, None)
  | _ =>
      head ← registryHeadForUpdate (ca_TenantID r);
      match head with
      | None => tx_fail ErrRegistryNotFound
      | Some h =>
          tx_check (rh_Halted h) ErrRegistryHalted;;
          tx_check (match existing with AdviceConflict => true | _ => false end)
                   ErrFinalAdviceAlreadySet;;
          row ← query "lock committed case" (fun db => cases db !! (ca_TenantID r, ca_CaseID r));
          match row with
          | None => tx_fail ErrCaseNotFound
          | Some c =>
              tx_check (negb (ca_CaseCommitment r =s? cs_Commitment c)
                        || negb (ca_RoutingEpoch r =? cs_RoutingEpoch c)
                        || negb (ca_RegistryRevision r =? cs_RegistryRevision c)
                        || negb (ca_RegistryHash r =s? cs_RegistryHash c)) ErrCaseBinding;;
              collision ← adviceCollision r;
              tx_check collision ErrFinalAdviceAlreadySet;;
              sequence ← allocateDeliverySequence (ca_TenantID r) (cs_IssuerEdgeID c)
                           (cs_IssuerEdgeGeneration c);
              revision ← allocateRevision;
              insertAdvice r (cs_IssuerEdgeID c) (cs_IssuerEdgeGeneration c) sequence revision;;
              insertEdgeDelivery (ca_TenantID r) (cs_IssuerEdgeID c) (cs_IssuerEdgeGeneration c)
                sequence "advice" (ca_CaseID r) (ca_EnvelopeID r) (ca_Commitment r) (ca_Raw r)
                revision;;
              recordAudit (ca_TenantID r) "advice" (ca_CaseID r) (ca_Commitment r)
                (ca_PrincipalID r) (ca_EdgeID r) (ca_Decision r) revision;;
              insertOutbox (ca_TenantID r) "advice" (ca_CaseID r) (ca_Raw r) revision
                [("edge_delivery", edgeKey (cs_IssuerEdgeID c) (cs_IssuerEdgeGeneration c))];;
              mret (receipt revision (ca_EnvelopeID r) (ca_Commitment r), None)
          end
      end
  end.

(** Halting is committed together with the error it reports. *)
Definition haltWith (tenantID reason : string) (e : AErr) : Work :=
  haltRegistryHead tenantID reason;; mret (empty_receipt, Some e).

(** The part of [CommitRegistry] after the head checks. *)
Definition admitRegistry (r : CommitRegistryRequest) (head : option RegistryHead) : Work :=
  collision ← registryCollision r;
  tx_check collision ErrConflictingRegistry;;
  enforceEdgeGenerationHighWater r head;;
  revision ← allocateRevision;
  insertRegistry r revision;;
  writeRegistryHead r (match head with Some _ => true | None => false end);;
  recordAudit (cr_TenantID r) "registry" (cr_EnvelopeID r) (cr_Commitment r) (cr_PrincipalID r)
    (cr_EdgeID r) (cr_Decision r) revision;;
  mret (receipt revision (cr_EnvelopeID r) (cr_Commitment r), None).

Definition commitRegistryWork (r : CommitRegistryRequest) : Work :=
  head ← registryHeadForUpdate (cr_TenantID r);
  match head with
  | Some h =>
      tx_check (rh_Halted h) ErrRegistryHalted;;
      if cr_Revision r <? rh_Revision h then
        haltWith (cr_TenantID r) registryHaltRevisionRollback ErrRegistryRollback
      else if cr_Revision r =? rh_Revision h then
        existing ← existingRegistry r;
        match existing with
        | None => haltWith (cr_TenantID r) registryHaltSameRevisionConflict ErrRegistryEquivocation
        | Some rc => mret (withAuthority rc, None)
        end
      else
        tx_check (negb (cr_Revision r =? rh_Revision h + 1)) ErrRegistryRevisionSequence;;
        if negb (cr_PreviousCommitment r =s? rh_Commitment h) then
          haltWith (cr_TenantID r) registryHaltPredecessorMismatch ErrRegistryEquivocation
        else admitRegistry r (Some h)
  | None =>
      tx_check (negb (is_empty (cr_PreviousCommitment r))) ErrRegistryEquivocation;;
      admitRegistry r None
  end.

(** One attempt of each commit: validation first, then the transaction. *)
Definition CommitCase (r : CommitCaseRequest) (envs : nat -> AttemptEnv)
    (others : nat -> DB -> DB) (db : DB) : DB * result AErr CommitReceipt :=
  match validate_case r with
  | Err e => (db, Err e)
  | Ok _ => transaction "case" (commitCaseWork r) envs others db
  end.

Definition CommitAdvice (r : CommitAdviceRequest) (envs : nat -> AttemptEnv)
    (others : nat -> DB -> DB) (db : DB) : DB * result AErr CommitReceipt :=
  match validate_advice r with
  | Err e => (db, Err e)
  | Ok _ => transaction "advice" (commitAdviceWork r) envs others db
  end.

Definition CommitRegistry (r : CommitRegistryRequest) (envs : nat -> AttemptEnv)
    (others : nat -> DB -> DB) (db : DB) : DB * result AErr CommitReceipt :=
  match validate_registry r with
  | Err e => (db, Err e)
  | Ok _ => transaction "registry" (commitRegistryWork r) envs others db
  end.

End Store.

(** ** Reads

    Both list operations run in a read-only repeatable-read transaction, so
    they are functions of one database state; a failing statement makes them
    return an error and changes nothing. *)
Definition seq_le (a b : EdgeDelivery) : Prop := ed_Sequence a <= ed_Sequence b.
#[export] Instance seq_le_dec : RelDecision seq_le.
Proof. intros a b. unfold seq_le. apply _. Defined.

Definition edge_log (db : DB) (tenantID edgeID : string) (generation : Z) : list EdgeDelivery :=
  (filter (fun kv => kv.1.1 = (tenantID, edgeID, generation)) (map_to_list (deliveries db))).*2.

Definition max_of (l : list Z) : Z := fold_right Z.max 0 l.

Definition ListEdgeDeliveries (q : EdgeDeliveryQuery) (db : DB) : result AErr EdgeDeliveryPage :=
  match validate_delivery_query q with
  | Err e => Err e
  | Ok _ =>
    match heads db !! dq_TenantID q, highwater db !! (dq_TenantID q, dq_EdgeID q) with
    | Some h, Some w =>
        if rh_Halted h then Err ErrRegistryHalted
        else if negb (hw_PrincipalID w =s? dq_PrincipalID q)
                || negb (hw_HighestGeneration w =? dq_EdgeGeneration q)
                || negb (hw_LastSeenRevision w =? rh_Revision h)
        then Err ErrEdgeNotActive
        else
          let log := edge_log db (dq_TenantID q) (dq_EdgeID q) (dq_EdgeGeneration q) in
          let high := max_of (map ed_Sequence log) in
          let page := take (Z.to_nat (dq_Limit q))
            (merge_sort seq_le (filter (fun d => dq_AfterSequence q < ed_Sequence d) log)) in
          let last_seq := match last page with
                          | Some d => ed_Sequence d
                          | None => dq_AfterSequence q
                          end in
          Ok {| dp_Deliveries := page; dp_HighWatermark := high;
                dp_CompleteThrough :=
                  if (Z.of_nat (length page) <? dq_Limit q) && (last_seq <? high)
                  then high else last_seq |}
    | _, _ => Err ErrEdgeNotActive
    end
  end.

Definition fact_order (a b : ProjectionFact) : Prop :=
  pf_AuthorityRevision a <= pf_AuthorityRevision b.
#[export] Instance fact_order_dec : RelDecision fact_order.
Proof. intros a b. unfold fact_order. apply _. Defined.

Definition case_fact (kv : string * string * CaseRecord) : ProjectionFact :=
  {| pf_AuthorityRevision := cs_AuthorityRevision kv.2; pf_Kind := "case";
     pf_CaseID := kv.1.2; pf_EnvelopeID := cs_EnvelopeID kv.2;
     pf_Commitment := cs_Commitment kv.2; pf_Raw := cs_Raw kv.2 |}.

Definition advice_fact (kv : string * string * AdviceRow) : ProjectionFact :=
  {| pf_AuthorityRevision := av_CommitRevision kv.2; pf_Kind := "advice";
     pf_CaseID := kv.1.2; pf_EnvelopeID := av_EnvelopeID kv.2;
     pf_Commitment := av_Commitment kv.2; pf_Raw := av_Raw kv.2 |}.

Definition tenant_facts (db : DB) (tenantID : string) : list ProjectionFact :=
  (map case_fact (filter (fun kv => kv.1.1 = tenantID) (map_to_list (cases db))) ++
   map advice_fact (filter (fun kv => kv.1.1 = tenantID) (map_to_list (advice db))))%list.

Definition ListProjectionFacts (q : ProjectionFactQuery) (db : DB)
  : result AErr ProjectionFactPage :=
  match validate_fact_query q with
  | Err e => Err e
  | Ok _ =>
      let facts := tenant_facts db (fq_TenantID q) in
      Ok {| pp_Facts := take (Z.to_nat (fq_Limit q)) (merge_sort fact_order
              (filter (fun f => fq_After q < pf_AuthorityRevision f) facts));
            pp_HighWatermark := max_of (map pf_AuthorityRevision facts) |}
  end.

Definition ResolveCase (tenantID caseID commitment : string) (db : DB) : result AErr CaseRecord :=
  if negb (non_blank tenantID) || negb (non_blank caseID) || negb (validCommitment commitment)
  then Err ErrInvalidRequest
  else match cases db !! (tenantID, caseID) with
       | Some c => if cs_Commitment c =s? commitment then Ok c else Err ErrCaseNotFound
       | None => Err ErrCaseNotFound
       end.

Definition ResolveRegistry (tenantID : string) (registryRevision : Z) (commitment : string)
    (db : DB) : result AErr RegistryRecord :=
  if negb (non_blank tenantID) || (registryRevision <=? 0) || negb (validCommitment commitment)
  then Err ErrInvalidRequest
  else match registries db !! (tenantID, registryRevision) with
       | Some r => if rr_Commitment r =s? commitment then Ok r else Err ErrRegistryNotFound
       | None => Err ErrRegistryNotFound
       end.

Definition CurrentRegistryHead (tenantID : string) (db : DB) : result AErr RegistryHead :=
  if negb (non_blank tenantID) then Err ErrInvalidRequest
  else of_option ErrRegistryHeadNotFound (heads db !! tenantID).
