(* ===== verification/OutboxWorker.v ===== *)
(** * internal/delivery/outbox: the lease-fenced outbox worker

    One bounded claim / publish / close pass.  The database side is the
    interface [OutboxSource] (the Go interface [Source]); the carrier is the
    Go interface [Publisher].  A pass is a function of the source state, the
    carrier state, the points at which the context is found cancelled and the
    clock, and it records the calls it makes as a trace. *)
From S2P Require Import Prelude GoText GoTime Sha256 DeliveryStream.
Open Scope string_scope.
Open Scope Z_scope.
Open Scope snag_scope.

Definition MaxBatchSize : Z := 1000.
Definition MaxLease : Z := hour.
Definition MaxRetryDelay : Z := 24 * hour.
Definition ReasonPublishFailed : string := "publish_failed".
Definition ReasonMalformedItem : string := "malformed_item".
Definition EventCase : string := "case".
Definition EventAdvice : string := "advice".
Definition DestinationDomainDispatch : string := "domain_dispatch".
Definition DestinationEdgeDelivery : string := "edge_delivery".

Record Item := {
  it_ID : string;
  it_LeaseToken : string;
  it_TenantID : string;
  it_EventKind : string;
  it_EntityID : string;
  it_DestinationKind : string;
  it_DestinationKey : string;
  it_Raw : bytes;
  it_AuthorityRevision : Z;
  it_DomainID : string;
  it_EdgeID : string;
  it_EdgeGeneration : Z;
  it_DeliverySequence : Z
}.

(** ** From a claimed row to a publish request *)
Definition validateCommonItem (i : Item) : result string unit :=
  if is_empty (it_ID i) then Err "outbox ID is required"
  else if is_empty (it_LeaseToken i) then Err "lease token is required"
  else if is_empty (it_TenantID i) then Err "tenant ID is required"
  else if is_empty (it_EntityID i) then Err "entity ID is required"
  else if is_empty (it_DestinationKey i) then Err "destination key is required"
  else if len (it_Raw i) =? 0 then Err "raw SSP bytes are required"
  else if it_AuthorityRevision i <=? 0 then Err "authority revision must be positive"
  else if (it_EventKind i =s? EventCase) || (it_EventKind i =s? EventAdvice) then Ok tt
  else Err "unsupported event kind".

Definition publishRequest (i : Item) : result string PublishRequest :=
  validateCommonItem i ≫= fun _ =>
  let request destination domainID edgeID generation sequence :=
    {| OutboxID := it_ID i; Destination := destination; pr_TenantID := it_TenantID i;
       pr_DomainID := domainID; pr_EdgeID := edgeID; pr_EdgeGeneration := uint64 generation;
       RawSSP := it_Raw i; FactSequence := uint64 (it_AuthorityRevision i);
       pr_DeliverySequence := uint64 sequence |} in
  let checked r :=
    match SubjectFor r with
    | Err _ => Err "invalid SSP publish request"
    | Ok _ => Ok r
    end in
  if it_DestinationKind i =s? DestinationDomainDispatch then
    if negb (it_EventKind i =s? EventCase) then Err "domain dispatch requires a case event"
    else if is_empty (it_DomainID i) || negb (it_DestinationKey i =s? it_DomainID i)
    then Err "domain dispatch requires a matching domain route"
    else if negb (is_empty (it_EdgeID i)) || negb (it_EdgeGeneration i =? 0)
            || negb (it_DeliverySequence i =? 0)
    then Err "domain dispatch contains edge delivery metadata"
    else checked (request DestinationDomain (it_DomainID i) "" 0 0)
  else if it_DestinationKind i =s? DestinationEdgeDelivery then
    if negb (it_EventKind i =s? EventCase) && negb (it_EventKind i =s? EventAdvice)
    then Err "edge delivery requires a case or advice event"
    else if is_empty (it_EdgeID i) || (it_EdgeGeneration i <=? 0)
            || (it_DeliverySequence i <=? 0)
    then Err "edge delivery requires edge ID, positive generation, and positive sequence"
    else if negb (it_DestinationKey i =s? it_EdgeID i ++ "@" ++ dec (it_EdgeGeneration i))
    then Err "edge delivery destination key does not match edge tuple"
    else if negb (is_empty (it_DomainID i)) then Err "edge delivery contains domain metadata"
    else checked (request DestinationEdge "" (it_EdgeID i) (it_EdgeGeneration i)
                   (it_DeliverySequence i))
  else Err "unsupported destination kind".

(** ** The source interface *)
Class OutboxSource (S : Type) := {
  Claim : string -> Z -> Z -> S -> S * result string (list Item);
  MarkPublished : string -> string -> S -> S * result string unit;
  Release : string -> string -> Z -> string -> S -> S * result string unit
}.

(** The calls of a pass, oldest first. *)
Inductive Event : Type :=
| EvPublish (request : PublishRequest) (acked : bool)
| EvMark (id token : string) (closed : bool)
| EvRelease (id token reason : string) (retryAt : Z) (closed : bool).

Record Worker := {
  WorkerID : string;
  Limit : Z;
  LeaseFor : Z;
  RetryDelay : Z
}.

Definition worker_validate (w : Worker) : result string unit :=
  if negb (non_blank (WorkerID w)) then Err "outbox worker ID is required"
  else if (Limit w <=? 0) || (MaxBatchSize <? Limit w) then Err "outbox limit out of range"
  else if (LeaseFor w <=? 0) || (MaxLease <? LeaseFor w) then Err "outbox lease out of range"
  else if (RetryDelay w <=? 0) || (MaxRetryDelay <? RetryDelay w)
  then Err "outbox retry delay out of range"
  else Ok tt.

Section Run.
Context {S P : Type} `{!OutboxSource S}.
Context (publish : PublishRequest -> P -> P * result string unit).
(** [ctx_err k]: the context is cancelled when it is consulted the [k]-th
    time; [now k]: the clock when it is read the [k]-th time. *)
Context (ctx_err : nat -> bool) (now : nat -> Z).
Context (w : Worker).

Record PassState := {
  ps_source : S;
  ps_carrier : P;
  ps_checks : nat;
  ps_reads : nat;
  ps_errors : list string;
  ps_trace : list Event
}.

Definition ctx_message : string := "context canceled".

Definition add_error (e : string) (st : PassState) : PassState :=
  {| ps_source := ps_source st; ps_carrier := ps_carrier st; ps_checks := ps_checks st;
     ps_reads := ps_reads st; ps_errors := (ps_errors st ++ [e])%list;
     ps_trace := ps_trace st |}.

Definition check_ctx (st : PassState) : PassState * bool :=
  ({| ps_source := ps_source st; ps_carrier := ps_carrier st;
      ps_checks := Datatypes.S (ps_checks st);
      ps_reads := ps_reads st; ps_errors := ps_errors st; ps_trace := ps_trace st |},
   ctx_err (ps_checks st)).

(** [worker.release]: read the clock, add the retry delay, release the lease;
    its own error is appended. *)
Definition release (i : Item) (reason : string) (st : PassState) : PassState :=
  let retryAt := now (ps_reads st) + RetryDelay w in
  let '(src, r) := Release (it_ID i) (it_LeaseToken i) retryAt reason (ps_source st) in
  {| ps_source := src; ps_carrier := ps_carrier st; ps_checks := ps_checks st;
     ps_reads := Datatypes.S (ps_reads st);
     ps_errors := (ps_errors st ++ match r with Err e => [e] | Ok _ => [] end)%list;
     ps_trace := (ps_trace st ++
       [EvRelease (it_ID i) (it_LeaseToken i) reason retryAt (is_ok r)])%list |}.

Definition do_publish (request : PublishRequest) (st : PassState)
  : PassState * result string unit :=
  let '(p, r) := publish request (ps_carrier st) in
  ({| ps_source := ps_source st; ps_carrier := p; ps_checks := ps_checks st;
      ps_reads := ps_reads st; ps_errors := ps_errors st;
      ps_trace := (ps_trace st ++ [EvPublish request (is_ok r)])%list |}, r).

Definition do_mark (i : Item) (st : PassState) : PassState * result string unit :=
  let '(src, r) := MarkPublished (it_ID i) (it_LeaseToken i) (ps_source st) in
  ({| ps_source := src; ps_carrier := ps_carrier st; ps_checks := ps_checks st;
      ps_reads := ps_reads st; ps_errors := ps_errors st;
      ps_trace := (ps_trace st ++ [EvMark (it_ID i) (it_LeaseToken i) (is_ok r)])%list |}, r).

(** One item: [true] asks the pass to return because the context ended. *)
Definition process (i : Item) (st : PassState) : PassState * bool :=
  let '(st, cancelled) := check_ctx st in
  if cancelled then (add_error ctx_message st, true)
  else match publishRequest i with
  | Err e => (release i ReasonMalformedItem (add_error e st), false)
  | Ok request =>
      match do_publish request st with
      | (st, Err e) =>
          let '(st, cancelled) := check_ctx (add_error e st) in
          if cancelled then (add_error ctx_message st, true)
          else (release i ReasonPublishFailed st, false)
      | (st, Ok _) =>
          match do_mark i st with
          | (st, Ok _) => (st, false)
          | (st, Err e) =>
              let '(st, cancelled) := check_ctx (add_error e st) in
              if cancelled then (add_error ctx_message st, true) else (st, false)
          end
      end
  end.

Fixpoint drain (items : list Item) (st : PassState) : PassState :=
  match items with
  | [] =>
      let '(st, cancelled) := check_ctx st in
      if cancelled then add_error ctx_message st else st
  | i :: items =>
      match process i st with
      | (st, true) => st
      | (st, false) => drain items st
      end
  end.

(** [Worker.RunOnce]: [ps_errors] is the joined error, empty for nil. *)
Definition RunOnce (src : S) (carrier : P) : PassState :=
  let st0 := {| ps_source := src; ps_carrier := carrier; ps_checks := 0; ps_reads := 0;
                ps_errors := []; ps_trace := [] |} in
  match worker_validate w with
  | Err e => add_error e st0
  | Ok _ =>
      let '(st, cancelled) := check_ctx st0 in
      if cancelled then add_error ctx_message st
      else
        let '(src, r) := Claim (WorkerID w) (Limit w) (LeaseFor w) (ps_source st) in
        let st := {| ps_source := src; ps_carrier := ps_carrier st; ps_checks := ps_checks st;
                     ps_reads := ps_reads st; ps_errors := ps_errors st;
                     ps_trace := ps_trace st |} in
        match r with
        | Err e => add_error e st
        | Ok items =>
            if Limit w <? Z.of_nat (length items)
            then add_error "authority outbox source exceeded the limit" st
            else
              let '(st, cancelled) := check_ctx st in
              if cancelled then add_error ctx_message st else drain items st
        end
  end.

End Run.

(** ** Properties of a publish request *)

(** The route a request is published on is the one its row was written for:
    the destination key of the row, recomputed from the request. *)
Definition request_key (r : PublishRequest) : string :=
  if Destination r =s? DestinationDomain then pr_DomainID r
  else pr_EdgeID r ++ "@" ++ dec (pr_EdgeGeneration r).

(** Row values PostgreSQL can hold: BIGINT columns fit 63 bits. *)
Definition bigint (z : Z) : Prop := z <= int64_max.

Lemma uint64_bigint z : 0 <= z -> bigint z -> uint64 z = z.
Proof. unfold bigint, int64_max. intros. apply uint64_id. lia. Qed.

(** An accepted outbox item becomes a request with the same outbox
    identifier, the same exact SSP bytes, tenant, positive authority revision
    and delivery sequence, addressed to exactly the destination key stored in
    the row, and it has a delivery subject. *)
Theorem publishRequest_exact i r :
  bigint (it_AuthorityRevision i) -> bigint (it_EdgeGeneration i) ->
  bigint (it_DeliverySequence i) ->
  publishRequest i = Ok r ->
  OutboxID r = it_ID i /\ RawSSP r = it_Raw i /\ pr_TenantID r = it_TenantID i /\
  FactSequence r = it_AuthorityRevision i /\ pr_DeliverySequence r = it_DeliverySequence i /\
  request_key r = it_DestinationKey i /\ (exists s, SubjectFor r = Ok s).
Proof.
  intros Hrev Hgen Hseq H. unfold publishRequest in H.
  destruct (validateCommonItem i) eqn:Hv; [|done]. cbn [mbind result_bind] in H.
  unfold validateCommonItem in Hv. repeat case_match; try done; bools.
  all: inv_result; cbn [OutboxID RawSSP pr_TenantID FactSequence pr_DeliverySequence].
  all: split_and!; try (by eexists); rewrite ?uint64_bigint by (done || lia); try done.
  all: unfold request_key; cbn; rewrite ?uint64_bigint by (done || lia); done.
Qed.

Definition sample_item : Item :=
  {| it_ID := "ob-1"; it_LeaseToken := "tok"; it_TenantID := "acme"; it_EventKind := "case";
     it_EntityID := "case-1"; it_DestinationKind := "edge_delivery";
     it_DestinationKey := "edge-1@2"; it_Raw := "{}"; it_AuthorityRevision := 7;
     it_DomainID := ""; it_EdgeID := "edge-1"; it_EdgeGeneration := 2;
     it_DeliverySequence := 3 |}.

Lemma publishRequest_exact_witness :
  exists r, publishRequest sample_item = Ok r /\
    (OutboxID r = "ob-1" /\ RawSSP r = "{}" /\ pr_TenantID r = "acme" /\
     FactSequence r = 7 /\ pr_DeliverySequence r = 3 /\
     request_key r = "edge-1@2" /\ (exists s, SubjectFor r = Ok s)).
Proof.
  eexists. split; [vm_compute; reflexivity|].
  apply (publishRequest_exact sample_item); [done|done|done|vm_compute; reflexivity].
Defined.

(** ** The trace of a pass

    [group i evs]: the calls one item causes.  A malformed row is released; a
    refused publication is released, or left to its lease when the context
    ended; only an acknowledged publication is closed as published. *)
Inductive group (i : Item) : list Event -> Prop :=
| group_malformed e retryAt ok :
    publishRequest i = Err e ->
    group i [EvRelease (it_ID i) (it_LeaseToken i) ReasonMalformedItem retryAt ok]
| group_failed r retryAt ok :
    publishRequest i = Ok r ->
    group i [EvPublish r false;
             EvRelease (it_ID i) (it_LeaseToken i) ReasonPublishFailed retryAt ok]
| group_cut r :
    publishRequest i = Ok r -> group i [EvPublish r false]
| group_published r ok :
    publishRequest i = Ok r ->
    group i [EvPublish r true; EvMark (it_ID i) (it_LeaseToken i) ok].

#[export] Hint Constructors group : snag.

Section RunProperties.
Context {S P : Type} `{!OutboxSource S}.
Context (publish : PublishRequest -> P -> P * result string unit).
Context (ctx_err : nat -> bool) (now : nat -> Z) (w : Worker).

Lemma process_trace i (st st' : PassState) stop :
  process publish ctx_err now w i st = (st', stop) ->
  (ps_trace st' = ps_trace st /\ stop = true) \/
  (exists evs, group i evs /\ ps_trace st' = (ps_trace st ++ evs)%list).
Proof.
  unfold process, check_ctx, release, do_publish, do_mark.
  destruct (ctx_err (ps_checks st)); [intros H; injection H as <- <-; by left|].
  destruct (publishRequest i) as [r|e] eqn:Er; cbn [add_error ps_source ps_carrier ps_checks ps_reads ps_errors ps_trace].
  2:{ intros H. destruct (Release _ _ _ _ _) as [src res]. injection H as <- <-. right.
      eexists. split; [by eapply group_malformed|done]. }
  destruct (publish r (ps_carrier st)) as [p [u|e]]; cbn [add_error ps_source ps_carrier ps_checks ps_reads ps_errors ps_trace is_ok].
  - destruct (MarkPublished _ _ _) as [src [u'|e']]; cbn.
    + intros H. injection H as <- <-. right. eexists. split; [by eapply group_published|].
      cbn. by rewrite <- (assoc_L (++)%list).
    + destruct (ctx_err _); intros H; injection H as <- <-; right; eexists;
        (split; [by eapply group_published|]); cbn; by rewrite <- (assoc_L (++)%list).
  - destruct (ctx_err _).
    + intros H. injection H as <- <-. right. eexists. split; [by eapply group_cut|done].
    + destruct (Release _ _ _ _ _) as [src res]. intros H. injection H as <- <-. right.
      eexists. split; [by eapply group_failed|]. cbn. by rewrite <- (assoc_L (++)%list).
Qed.

Lemma drain_trace items : forall st : PassState, exists k gs,
  Forall2 group (take k items) gs /\
  ps_trace (drain publish ctx_err now w items st) = (ps_trace st ++ concat gs)%list.
Proof.
  induction items as [|i items IH]; intros st; cbn [drain].
  - exists 0%nat, []. split; [constructor|]. unfold check_ctx.
    destruct (ctx_err _); cbn; by rewrite (right_id_L [] (++)%list).
  - destruct (process publish ctx_err now w i st) as [st' stop] eqn:E.
    destruct (process_trace _ _ _ _ E) as [[Ht ->]|(evs & Hg & Ht)].
    + exists 0%nat, []. split; [constructor|]. cbn. by rewrite Ht, (right_id_L [] (++)%list).
    + destruct stop.
      * exists 1%nat, [evs]. split; [by repeat constructor|]. cbn.
        by rewrite (right_id_L [] (++)%list).
      * destruct (IH st') as (k & gs & Hf & Hd). exists (Datatypes.S k), (evs :: gs).
        split; [by constructor|]. rewrite Hd, Ht. cbn. by rewrite (assoc_L (++)%list).
Qed.

(** C36: the calls of one pass are, item by item and in the order of the
    claim, the groups above for an initial part of the claimed items.  So a
    row is closed as published only right after the carrier acknowledged the
    request built from that very row, with the token of that claim; no item is
    published twice in a pass; and a row that is not acknowledged is never
    closed. *)
Theorem RunOnce_trace src carrier items src' :
  Claim (WorkerID w) (Limit w) (LeaseFor w) src = (src', Ok items) ->
  exists k gs, Forall2 group (take k items) gs /\
    ps_trace (RunOnce publish ctx_err now w src carrier) = concat gs.
Proof.
  intros Hc. unfold RunOnce.
  assert (Hnil : forall l : list Item, exists k gs, Forall2 group (take k l) gs /\ [] = concat gs)
    by (intros l; exists 0%nat, []; split; [constructor|done]).
  destruct (worker_validate w); [|apply Hnil]. unfold check_ctx.
  destruct (ctx_err _); [apply Hnil|]. cbn [ps_source]. rewrite Hc.
  destruct (_ <? _); [apply Hnil|]. destruct (ctx_err _); [apply Hnil|].
  destruct (drain_trace items {|
    ps_source := src'; ps_carrier := carrier; ps_checks := 2; ps_reads := 0;
    ps_errors := []; ps_trace := [] |}) as (k & gs & Hf & Hd).
  exists k, gs. split; [done|]. exact Hd.
Qed.

End RunProperties.

(** A source with two rows, one of them malformed, to run the worker on. *)
#[local] Instance list_source : OutboxSource (list Item) := {|
  Claim := fun _ _ _ s => (s, Ok s);
  MarkPublished := fun id _ s => (filter (fun i => it_ID i <> id) s, Ok tt);
  Release := fun _ _ _ _ s => (s, Ok tt) |}.

Definition sample_worker : Worker :=
  {| WorkerID := "worker"; Limit := 10; LeaseFor := minute; RetryDelay := second |}.

Definition ack_all (r : PublishRequest) (log : list PublishRequest)
  : list PublishRequest * result string unit := ((log ++ [r])%list, Ok tt).

Lemma RunOnce_trace_witness :
  exists k gs, Forall2 group (take k [sample_item]) gs /\
    ps_trace (RunOnce (S := list Item) ack_all (fun _ => false) (fun _ => 0)
                sample_worker [sample_item] []) = concat gs.
Proof.
  apply (RunOnce_trace (S := list Item) ack_all (fun _ => false) (fun _ => 0)
           sample_worker [sample_item] [] [sample_item] [sample_item]).
  reflexivity.
Defined.
