(* ===== verification/AuthorityOutbox.v ===== *)
(** * internal/authority/postgres/outbox.go: leases on the transactional outbox

    The PostgreSQL side of the interface [OutboxSource]: claiming rows with a
    fenced lease, closing a row as published and releasing it with a retry
    time.  [FOR UPDATE SKIP LOCKED] is the parameter [cl_locked]: the rows some
    other transaction holds when the SELECT runs; [cl_token] is the generator
    of lease tokens (a third-party UUID). *)
From S2P Require Import Prelude GoText GoTime Sha256 DeliveryStream Authority PgTx AuthorityStore OutboxWorker.
From stdpp Require Import sorting.
Open Scope string_scope.
Open Scope Z_scope.
Open Scope snag_scope.

Definition maxOutboxAttempts : Z := 20.

Record ClaimEnv := {
  cl_attempt : AttemptEnv;
  cl_locked : string -> bool;
  cl_token : nat -> string
}.

(** ** Claim *)
Definition lease_free (now : Z) (row : OutboxRow) : bool :=
  match ob_Lease row with None => true | Some l => ls_Until l <=? now end.

Definition is_none {A} (o : option A) : bool := match o with None => true | Some _ => false end.

Definition open_row (row : OutboxRow) : bool :=
  is_none (ob_PublishedAt row) && is_none (ob_PoisonedAt row).

Definition claimable (now : Z) (row : OutboxRow) : bool :=
  open_row row && (ob_NextAttemptAt row <=? now) && lease_free now row.

(** ORDER BY next_attempt_at, created_at, outbox_id *)
Definition claim_before (a b : string * OutboxRow) : bool :=
  if ob_NextAttemptAt a.2 <? ob_NextAttemptAt b.2 then true
  else if ob_NextAttemptAt b.2 <? ob_NextAttemptAt a.2 then false
  else if ob_CreatedAt a.2 <? ob_CreatedAt b.2 then true
  else if ob_CreatedAt b.2 <? ob_CreatedAt a.2 then false
  else str_lt a.1 b.1.

Definition claim_le (a b : string * OutboxRow) : Prop := claim_before b a = false.
#[export] Instance claim_le_dec : RelDecision claim_le.
Proof. intros a b. unfold claim_le. apply _. Defined.

Definition select_claims (now : Z) (locked : string -> bool) (limit : Z) (db : DB) : list string :=
  take (Z.to_nat limit) (merge_sort claim_le
    (filter (fun kv => claimable now kv.2 = true /\ locked kv.1 = false)
            (map_to_list (outbox db)))).*1.

Definition with_lease (l : option Lease) (row : OutboxRow) : OutboxRow :=
  {| ob_TenantID := ob_TenantID row; ob_EventKind := ob_EventKind row;
     ob_EntityID := ob_EntityID row; ob_DestinationKind := ob_DestinationKind row;
     ob_DestinationKey := ob_DestinationKey row; ob_Raw := ob_Raw row;
     ob_AuthorityRevision := ob_AuthorityRevision row; ob_CreatedAt := ob_CreatedAt row;
     ob_Attempts := ob_Attempts row; ob_NextAttemptAt := ob_NextAttemptAt row;
     ob_Lease := l; ob_LastError := ob_LastError row;
     ob_PoisonedAt := ob_PoisonedAt row; ob_PublishedAt := ob_PublishedAt row |}.

(** [lease.Microseconds()] truncates the duration. *)
Definition lease_micros (lease : Z) : Z := lease / 1000 * 1000.

Definition lease_row (id workerID token : string) (lease : Z) : Tx Z :=
  statement (ErrPg "lease outbox item") (fun now db =>
    match outbox db !! id with
    | Some row =>
        if open_row row
        then Ok (1, set_outbox (<[id := with_lease
               (Some {| ls_Owner := workerID; ls_Token := token;
                        ls_Until := now + lease_micros lease |}) row]> (outbox db)) db)
        else Ok (0, db)
    | None => Ok (0, db)
    end).

(** The two LEFT JOINs of [readClaimedOutboxItem]: the case, or the edge
    delivery, committed by the row's authority revision. *)
Definition joined_case (db : DB) (row : OutboxRow) : option CaseRecord :=
  if ob_DestinationKind row =s? "domain_dispatch"
  then snd <$> list_find (fun c => cs_TenantID c = ob_TenantID row /\
                                 cs_AuthorityRevision c = ob_AuthorityRevision row)
                       (map_to_list (cases db)).*2
  else None.

Definition joined_delivery (db : DB) (row : OutboxRow)
  : option (string * string * Z * Z * EdgeDelivery) :=
  if ob_DestinationKind row =s? "edge_delivery"
  then snd <$> list_find (fun kv : string * string * Z * Z * EdgeDelivery =>
                          kv.1.1.1.1 = ob_TenantID row /\
                          ed_AuthorityRevision kv.2 = ob_AuthorityRevision row)
                       (map_to_list (deliveries db))
  else None.

Definition item_of_row (db : DB) (id token : string) (row : OutboxRow) : Item :=
  let d := joined_delivery db row in
  {| it_ID := id; it_LeaseToken := token; it_TenantID := ob_TenantID row;
     it_EventKind := ob_EventKind row; it_EntityID := ob_EntityID row;
     it_DestinationKind := ob_DestinationKind row; it_DestinationKey := ob_DestinationKey row;
     it_Raw := ob_Raw row; it_AuthorityRevision := ob_AuthorityRevision row;
     it_DomainID := match joined_case db row with Some c => cs_Domain c | None => "" end;
     it_EdgeID := match d with Some kv => kv.1.1.1.2 | None => "" end;
     it_EdgeGeneration := match d with Some kv => kv.1.1.2 | None => 0 end;
     it_DeliverySequence := match d with Some kv => ed_Sequence kv.2 | None => 0 end |}.

Definition holds_token (token : string) (row : OutboxRow) : bool :=
  match ob_Lease row with Some l => ls_Token l =s? token | None => false end.

Definition readClaimedOutboxItem (id token : string) : Tx Item :=
  found ← query "read claimed outbox item" (fun db =>
    match outbox db !! id with
    | Some row => if holds_token token row then Some (item_of_row db id token row) else None
    | None => None
    end);
  match found with
  | Some item => mret item
  | None => tx_fail ErrStaleOutboxLease
  end.

Definition claimOne (workerID : string) (lease : Z) (token id : string) : Tx Item :=
  affected ← lease_row id workerID token lease;
  tx_check (negb (affected =? 1)) ErrStaleOutboxLease;;
  readClaimedOutboxItem id token.

Fixpoint claimAll (workerID : string) (lease : Z) (token : nat -> string) (k : nat)
    (ids : list string) : Tx (list Item) :=
  match ids with
  | [] => mret []
  | id :: ids =>
      item ← claimOne workerID lease (token k) id;
      items ← claimAll workerID lease token (S k) ids;
      mret (item :: items)
  end.

Definition selectClaims (locked : string -> bool) (limit : Z) : Tx (list string) :=
  statement (ErrPg "select outbox claims")
    (fun now db => Ok (select_claims now locked limit db, db)).

Definition claimWork (workerID : string) (limit lease : Z) (ce : ClaimEnv) : Tx (list Item) :=
  ids ← selectClaims (cl_locked ce) limit;
  claimAll workerID lease (cl_token ce) 0 ids.

Definition StoreClaim (workerID : string) (limit lease : Z) (ce : ClaimEnv) (db : DB)
  : DB * result AErr (list Item) :=
  if negb (non_blank workerID) || (limit <=? 0) || (MaxBatchSize <? limit)
     || (lease <=? 0) || (MaxLease <? lease)
  then (db, Err (ErrPlain "invalid outbox claim"))
  else match ae_begin (cl_attempt ce) with
  | Some e => (db, Err (ErrPg "begin outbox claim" e))
  | None =>
      match claimWork workerID limit lease ce (ae_env (cl_attempt ce)) (O, db) with
      | ((_, _), Err e) => (db, Err e)
      | ((_, db'), Ok items) =>
          match ae_commit (cl_attempt ce) with
          | Committed => (db', Ok items)
          | CommitError e applied =>
              (if applied then db' else db, Err (ErrPg "commit outbox claim" e))
          end
      end
  end.

(** ** Closing and releasing a lease *)
Definition live_lease (now : Z) (token : string) (row : OutboxRow) : bool :=
  match ob_Lease row with
  | Some l => (ls_Token l =s? token) && (now <? ls_Until l) && open_row row
  | None => false
  end.

Definition published_row (now : Z) (row : OutboxRow) : OutboxRow :=
  {| ob_TenantID := ob_TenantID row; ob_EventKind := ob_EventKind row;
     ob_EntityID := ob_EntityID row; ob_DestinationKind := ob_DestinationKind row;
     ob_DestinationKey := ob_DestinationKey row; ob_Raw := ob_Raw row;
     ob_AuthorityRevision := ob_AuthorityRevision row; ob_CreatedAt := ob_CreatedAt row;
     ob_Attempts := ob_Attempts row; ob_NextAttemptAt := ob_NextAttemptAt row;
     ob_Lease := None; ob_LastError := "";
     ob_PoisonedAt := ob_PoisonedAt row; ob_PublishedAt := Some now |}.

Definition released_row (now retryAt : Z) (reason : string) (row : OutboxRow) : OutboxRow :=
  {| ob_TenantID := ob_TenantID row; ob_EventKind := ob_EventKind row;
     ob_EntityID := ob_EntityID row; ob_DestinationKind := ob_DestinationKind row;
     ob_DestinationKey := ob_DestinationKey row; ob_Raw := ob_Raw row;
     ob_AuthorityRevision := ob_AuthorityRevision row; ob_CreatedAt := ob_CreatedAt row;
     ob_Attempts := ob_Attempts row + 1; ob_NextAttemptAt := pg_time retryAt;
     ob_Lease := None; ob_LastError := reason;
     ob_PoisonedAt := if maxOutboxAttempts <=? ob_Attempts row + 1 then Some now else None;
     ob_PublishedAt := ob_PublishedAt row |}.

(** One UPDATE guarded by the live lease; it is its own transaction, so an
    error after the server applied it leaves the update in place. *)
Record ExecEnv := { ex_now : Z; ex_fate : CommitFate }.

Definition guarded_update (step id token : string) (f : OutboxRow -> OutboxRow) (ex : ExecEnv)
    (db : DB) : DB * result AErr unit :=
  let '(db', affected) :=
    match outbox db !! id with
    | Some row => if live_lease (ex_now ex) token row
                  then (set_outbox (<[id := f row]> (outbox db)) db, true)
                  else (db, false)
    | None => (db, false)
    end in
  match ex_fate ex with
  | Committed => (db', if affected then Ok tt else Err ErrStaleOutboxLease)
  | CommitError e applied => (if applied then db' else db, Err (ErrPg step e))
  end.

Definition StoreMarkPublished (itemID leaseToken : string) (ex : ExecEnv) (db : DB)
  : DB * result AErr unit :=
  if negb (non_blank itemID) || negb (non_blank leaseToken)
  then (db, Err (ErrPlain "invalid outbox publish closure"))
  else guarded_update "mark outbox published" itemID leaseToken (published_row (ex_now ex)) ex db.

Definition StoreRelease (itemID leaseToken : string) (retryAt : Z) (redactedReason : string)
    (ex : ExecEnv) (db : DB) : DB * result AErr unit :=
  if negb (non_blank itemID) || negb (non_blank leaseToken) || is_zero_time retryAt
     || (negb (redactedReason =s? ReasonPublishFailed)
         && negb (redactedReason =s? ReasonMalformedItem))
  then (db, Err (ErrPlain "invalid outbox release"))
  else guarded_update "release outbox item" itemID leaseToken
         (released_row (ex_now ex) retryAt redactedReason) ex db.

(** ** The interface towards the worker

    Every call of the pass meets its own environment, and [others] is what the
    rest of the system commits before it. *)
Record PgSource := { so_db : DB; so_call : nat }.

Definition aerr_text (e : AErr) : string :=
  match e with
  | ErrStaleOutboxLease => "authority/postgres: stale outbox lease"
  | ErrPlain s => s
  | ErrPg s _ => s
  | _ => "authority/postgres: error"
  end.

Definition source_call {A} (others : nat -> DB -> DB) (s : PgSource)
    (f : nat -> DB -> DB * result AErr A) : PgSource * result string A :=
  let '(db, r) := f (so_call s) (others (so_call s) (so_db s)) in
  ({| so_db := db; so_call := S (so_call s) |},
   match r with Ok a => Ok a | Err e => Err (aerr_text e) end).

#[global] Instance pg_source (others : nat -> DB -> DB) (claims : nat -> ClaimEnv)
    (execs : nat -> ExecEnv) : OutboxSource PgSource := {|
  Claim := fun w limit lease s =>
    source_call others s (fun k => StoreClaim w limit lease (claims k));
  MarkPublished := fun id token s =>
    source_call others s (fun k => StoreMarkPublished id token (execs k));
  Release := fun id token retryAt reason s =>
    source_call others s (fun k => StoreRelease id token retryAt reason (execs k)) |}.

(** ** Lemmas *)
Lemma lease_row_ok id w token lease env st st' n :
  lease_row id w token lease env st = (st', Ok n) -> n = 1 ->
  exists row, outbox st.2 !! id = Some row /\ open_row row = true /\
    st' = (S st.1, set_outbox (<[id := with_lease
      (Some {| ls_Owner := w; ls_Token := token;
               ls_Until := clock env st.1 + lease_micros lease |}) row]> (outbox st.2)) st.2).
Proof.
  intros (db & H & ->)%statement_ok ->. destruct (outbox st.2 !! id) as [row|]; [|done].
  destruct (open_row row) eqn:Ho; [|done]. injection H as <-. eauto.
Qed.

Lemma claimOne_ok w lease token id env st st' item :
  claimOne w lease token id env st = (st', Ok item) ->
  exists row until, outbox st.2 !! id = Some row /\ open_row row = true /\
    until = clock env st.1 + lease_micros lease /\
    item = item_of_row st.2 id token row /\
    st'.2 = set_outbox (<[id := with_lease
      (Some {| ls_Owner := w; ls_Token := token; ls_Until := until |}) row]> (outbox st.2)) st.2.
Proof.
  unfold claimOne, readClaimedOutboxItem.
  intros (n & st1 & H1 & (u & st2 & (Hn & ->)%tx_check_ok
            & (found & st3 & (-> & ->)%query_ok & H3)%tx_bind_ok)%tx_bind_ok)%tx_bind_ok.
  bools. subst n.
  destruct (lease_row_ok _ _ _ _ _ _ _ _ H1 eq_refl) as (row & Hrow & Ho & ->).
  cbn in H3. rewrite lookup_insert_eq in H3. unfold holds_token in H3. cbn in H3.
  rewrite String.eqb_refl in H3. injection H3 as <- <-.
  exists row, (clock env st.1 + lease_micros lease). by split_and!.
Qed.

(** [leased w lease env db db' id item]: the row [id] of [db] is open, [db']
    holds it under a lease of [w] with the item's token, and the item is read
    from it. *)
Definition leased (w : string) (lease : Z) (env : Env) (db db' : DB) (id : string) (item : Item)
  : Prop :=
  exists row j, outbox db !! id = Some row /\ open_row row = true /\
    item = item_of_row db id (it_LeaseToken item) row /\
    outbox db' !! id = Some (with_lease
      (Some {| ls_Owner := w; ls_Token := it_LeaseToken item;
               ls_Until := clock env j + lease_micros lease |}) row).

Lemma claimAll_ok w lease tok env ids : forall k st st' items,
  NoDup ids -> claimAll w lease tok k ids env st = (st', Ok items) ->
  st'.2 = set_outbox (outbox st'.2) st.2 /\
  (forall id, id ∉ ids -> outbox st'.2 !! id = outbox st.2 !! id) /\
  Forall2 (leased w lease env st.2 st'.2) ids items.
Proof.
  induction ids as [|id ids IH]; intros k st st' items Hnd H; cbn in H.
  { apply tx_ret_ok in H as [-> ->]. split_and!; [by destruct st as [? []]|done|constructor]. }
  apply NoDup_cons in Hnd as [Hid Hnd].
  apply tx_bind_ok in H as (item & st1 & H1 & H).
  apply tx_bind_ok in H as (rest & st2 & H2 & [-> ->]%tx_ret_ok).
  apply claimOne_ok in H1 as (row & until & Hrow & Ho & Hu & Hi & Hst1).
  destruct (IH _ _ _ _ Hnd H2) as (Hdb & Hframe & Hall).
  split_and!.
  - rewrite Hdb at 1. by rewrite Hst1.
  - intros id' Hn. rewrite Hframe by set_solver. rewrite Hst1. cbn.
    apply lookup_insert_ne. set_solver.
  - constructor.
    + exists row, st.1. subst until. rewrite Hframe, Hst1 by done. cbn.
      rewrite lookup_insert_eq. subst item. by split_and!.
    + eapply Forall2_weaken; [exact Hall|].
      intros i it Hin (row' & j & Hr & Hop & Hit & Hl).
      exists row', j. rewrite Hst1 in Hr, Hit. cbn in Hr.
      rewrite lookup_insert_ne in Hr by set_solver. by split_and!.
Qed.

Lemma select_claims_spec now locked limit db id :
  id ∈ select_claims now locked limit db ->
  exists row, outbox db !! id = Some row /\ claimable now row = true /\ locked id = false.
Proof.
  unfold select_claims. rewrite <- fmap_take. intros ([i row] & -> & Hin)%list_elem_of_fmap.
  apply (subseteq_take (Z.to_nat limit)) in Hin.
  rewrite merge_sort_Permutation in Hin.
  apply list_elem_of_filter in Hin as [[? ?] Hin%elem_of_map_to_list]. eauto.
Qed.

Lemma select_claims_NoDup now locked limit db : NoDup (select_claims now locked limit db).
Proof.
  unfold select_claims. eapply sublist_NoDup; [|apply sublist_take].
  rewrite merge_sort_Permutation. apply NoDup_fmap_fst.
  - intros i r1 r2 [_ H1%elem_of_map_to_list]%list_elem_of_filter
      [_ H2%elem_of_map_to_list]%list_elem_of_filter. congruence.
  - apply NoDup_filter, NoDup_map_to_list.
Qed.

Lemma StoreClaim_ok w limit lease ce db db' items :
  StoreClaim w limit lease ce db = (db', Ok items) ->
  let env := ae_env (cl_attempt ce) in
  let ids := select_claims (clock env O) (cl_locked ce) limit db in
  0 < limit <= MaxBatchSize /\ db' = set_outbox (outbox db') db /\
  (forall id, id ∉ ids -> outbox db' !! id = outbox db !! id) /\
  Forall2 (leased w lease env db db') ids items.
Proof.
  intros H env ids. unfold StoreClaim in H. destruct (_ || _) eqn:Hguard; [done|]. bools.
  destruct (ae_begin _); [done|].
  destruct (claimWork _ _ _ _ _ _) as [[n d] [its|e]] eqn:Hw; [|done].
  destruct (ae_commit _); [|done]. injection H as <- <-.
  unfold claimWork in Hw. apply tx_bind_ok in Hw as (l & st1 & Hs1 & Hs2).
  apply statement_ok in Hs1 as (db1 & Hs1 & ->). injection Hs1 as <- <-.
  split; [lia|]. exact (claimAll_ok _ _ _ _ _ _ _ _ _ (select_claims_NoDup _ _ _ _) Hs2).
Qed.

Lemma StoreClaim_frame w limit lease ce db db' r :
  StoreClaim w limit lease ce db = (db', r) ->
  db' = db \/ exists items ce', StoreClaim w limit lease ce' db = (db', Ok items).
Proof.
  unfold StoreClaim. destruct (_ || _) eqn:Hg; [intros H; injection H as <- _; by left|].
  destruct (ae_begin _) eqn:Hb; [intros H; injection H as <- _; by left|].
  destruct (claimWork _ _ _ _ _ _) as [[n d] [its|e]] eqn:Hw;
    [|intros H; injection H as <- _; by left].
  destruct (ae_commit (cl_attempt ce)) as [|e applied] eqn:Hc; intros H; injection H as <- <-.
  - right. exists its, ce. rewrite Hb, Hw, Hc. done.
  - destruct applied; [|by left]. right.
    exists its, {| cl_attempt := {| ae_begin := None; ae_env := ae_env (cl_attempt ce);
                                    ae_rollback := None; ae_commit := Committed |};
                   cl_locked := cl_locked ce; cl_token := cl_token ce |}.
    cbn. unfold claimWork in Hw |- *. cbn. by rewrite Hw.
Qed.

Lemma guarded_update_cases step id token f ex db db' r :
  guarded_update step id token f ex db = (db', r) ->
  (db' = db /\ r <> Ok tt) \/
  (exists row, outbox db !! id = Some row /\ live_lease (ex_now ex) token row = true /\
     db' = set_outbox (<[id := f row]> (outbox db)) db).
Proof.
  unfold guarded_update. destruct (outbox db !! id) as [row|].
  - destruct (live_lease _ _ _) eqn:Hl; destruct (ex_fate ex) as [|e []]; intros H;
      injection H as <- <-; eauto.
  - destruct (ex_fate ex) as [|e []]; intros H; injection H as <- <-; eauto.
Qed.

(** ** Theorems *)

(** C34: a successful claim never takes a row from a worker whose lease is
    live.  The claimed rows are distinct, at most [limit] and each was open,
    due, unlocked and free of a live lease when it was selected; afterwards
    each is leased to this worker under the token of its own item, the item
    carries exactly the row's identity, route, revision and bytes, and every
    other row and every other table is what it was. *)
Theorem StoreClaim_exclusive w limit lease ce db db' items :
  StoreClaim w limit lease ce db = (db', Ok items) ->
  let env := ae_env (cl_attempt ce) in
  Z.of_nat (length items) <= limit /\ NoDup (map it_ID items) /\
  db' = set_outbox (outbox db') db /\
  (forall id row, outbox db !! id = Some row ->
     lease_free (clock env O) row = false \/ open_row row = false \/ cl_locked ce id = true ->
     (id ∉ map it_ID items) /\ outbox db' !! id = Some row) /\
  (forall item, item ∈ items -> exists row until,
     outbox db !! it_ID item = Some row /\ claimable (clock env O) row = true /\
     item = item_of_row db (it_ID item) (it_LeaseToken item) row /\
     it_TenantID item = ob_TenantID row /\ it_EventKind item = ob_EventKind row /\ it_EntityID item = ob_EntityID row /\
     it_DestinationKind item = ob_DestinationKind row /\ it_DestinationKey item = ob_DestinationKey row /\
     it_Raw item = ob_Raw row /\ it_AuthorityRevision item = ob_AuthorityRevision row /\
     outbox db' !! it_ID item = Some (with_lease
       (Some {| ls_Owner := w; ls_Token := it_LeaseToken item; ls_Until := until |}) row)).
Proof.
  intros H env. destruct (StoreClaim_ok _ _ _ _ _ _ _ H) as (Hlim & Hdb & Hframe & Hall).
  fold env in Hframe, Hall.
  set (ids := select_claims (clock env O) (cl_locked ce) limit db) in *.
  assert (Hids : map it_ID items = ids).
  { clear -Hall. induction Hall as [|id item l k (row & j & _ & _ & -> & _) _ IH]; [done|].
    cbn. by rewrite IH. }
  pose proof (Forall2_length _ _ _ Hall) as Hlen. rewrite Hids. split_and!.
  - rewrite <- Hlen. unfold ids, select_claims. rewrite length_take. lia.
  - apply select_claims_NoDup.
  - done.
  - intros id row Hrow Hbusy. assert (Hn : id ∉ ids).
    { intros (row' & Hrow' & Hc & Hl)%select_claims_spec. simplify_eq.
      unfold claimable in Hc. bools. naive_solver congruence. }
    by rewrite Hframe.
  - intros item Hin. apply list_elem_of_lookup in Hin as [i Hi].
    destruct (Forall2_lookup_r _ _ _ _ _ Hall Hi) as (id & Hid & row & j & Hrow & Ho & Hit & Hl).
    assert (Hin : id ∈ ids) by (by eapply list_elem_of_lookup_2).
    destruct (select_claims_spec _ _ _ _ _ Hin) as (row' & Hrow' & Hc & _). simplify_eq.
    assert (it_ID item = id) as -> by (rewrite Hit; done).
    eexists _, _. split_and!; [exact Hrow|exact Hc|exact Hit| | | | | | | |exact Hl]; by rewrite Hit.
Qed.

(** The row is open and leased under this token, and the lease has not run
    out. *)
Definition holds_lease (now : Z) (token : string) (row : OutboxRow) : Prop :=
  exists l, ob_Lease row = Some l /\ ls_Token l = token /\ now < ls_Until l /\
    ob_PublishedAt row = None /\ ob_PoisonedAt row = None.

(** The columns a worker never writes. *)
Definition row_content (row : OutboxRow) :=
  (ob_TenantID row, ob_EventKind row, ob_EntityID row, ob_DestinationKind row,
   ob_DestinationKey row, ob_Raw row, ob_AuthorityRevision row, ob_CreatedAt row).

(** Only the row [id] changes, from [row] to [row']. *)
Definition row_replaced (id : string) (row row' : OutboxRow) (db db' : DB) : Prop :=
  outbox db !! id = Some row /\ outbox db' !! id = Some row' /\ row_content row' = row_content row /\
  db' = set_outbox (outbox db') db /\ (forall id', id' <> id -> outbox db' !! id' = outbox db !! id').

Lemma live_lease_holds now token row : live_lease now token row = true <-> holds_lease now token row.
Proof.
  unfold live_lease, holds_lease, open_row, is_none. split.
  - destruct (ob_Lease row) as [l|]; [|done]. intros Hl. bools. exists l.
    destruct (ob_PublishedAt row), (ob_PoisonedAt row); done.
  - intros (l & -> & <- & Hu & -> & ->). rewrite String.eqb_refl, (proj2 (Z.ltb_lt _ _) Hu). done.
Qed.

Lemma row_replaced_insert id row row' db : outbox db !! id = Some row -> row_content row' = row_content row ->
  row_replaced id row row' db (set_outbox (<[id := row']> (outbox db)) db).
Proof.
  intros Hr Hc. split_and!; [done|cbn; by rewrite lookup_insert_eq|done|done|].
  intros id' Hne. cbn. by rewrite lookup_insert_ne by congruence.
Qed.

Lemma guarded_update_exact step id token f ex db db' r : (forall row, row_content (f row) = row_content row) ->
  guarded_update step id token f ex db = (db', r) ->
  (db' = db /\ r <> Ok tt) \/ (exists row, holds_lease (ex_now ex) token row /\ row_replaced id row (f row) db db').
Proof.
  intros Hf [?|(row & Hr & Hl%live_lease_holds & ->)]%guarded_update_cases; [by left|right].
  exists row. split; [done|]. by apply row_replaced_insert.
Qed.

Lemma guarded_update_done step id token f ex db row : outbox db !! id = Some row -> holds_lease (ex_now ex) token row ->
  ex_fate ex = Committed -> (guarded_update step id token f ex db).2 = Ok tt.
Proof. intros Hr Hl Hc. unfold guarded_update. rewrite Hr, Hc. by apply live_lease_holds in Hl as ->. Qed.

(** C35: only the holder of a live lease can close or release a row, and it
    can.  Whatever [MarkPublished] or [Release] returns, either the database is
    unchanged and the call failed, or exactly one row changed, in its delivery
    columns only, and that row was open and leased under exactly the presented
    token with time left.  [MarkPublished] then sets the publication time, clears
    the lease and keeps the attempts; [Release] clears the lease, counts one more
    attempt, notes the retry time and the reason, and poisons the row exactly
    when that was the twentieth attempt.  Conversely a valid call of the holder
    succeeds when the statement is committed. *)
Theorem closing_is_fenced id token retryAt reason ex db :
  (forall db' r, StoreMarkPublished id token ex db = (db', r) ->
     (db' = db /\ r <> Ok tt) \/
     exists row row', holds_lease (ex_now ex) token row /\ row_replaced id row row' db db' /\
       ob_PublishedAt row' = Some (ex_now ex) /\ ob_PoisonedAt row' = None /\ ob_Lease row' = None /\
       ob_Attempts row' = ob_Attempts row) /\
  (forall db' r, StoreRelease id token retryAt reason ex db = (db', r) ->
     (db' = db /\ r <> Ok tt) \/
     exists row row', holds_lease (ex_now ex) token row /\ row_replaced id row row' db db' /\
       ob_PublishedAt row' = None /\ ob_Lease row' = None /\ ob_Attempts row' = ob_Attempts row + 1 /\
       ob_NextAttemptAt row' = pg_time retryAt /\ ob_LastError row' = reason /\
       (ob_Attempts row + 1 < 20 -> ob_PoisonedAt row' = None) /\
       (20 <= ob_Attempts row + 1 -> ob_PoisonedAt row' = Some (ex_now ex))) /\
  (forall row, outbox db !! id = Some row -> holds_lease (ex_now ex) token row -> ex_fate ex = Committed ->
     non_blank id = true -> non_blank token = true ->
     (StoreMarkPublished id token ex db).2 = Ok tt /\
     (is_zero_time retryAt = false -> reason = ReasonPublishFailed \/ reason = ReasonMalformedItem ->
      (StoreRelease id token retryAt reason ex db).2 = Ok tt)).
Proof.
  split_and!.
  - intros db' r. unfold StoreMarkPublished. destruct (_ || _); [intros [= <- <-]; by left|].
    intros [?|(row & Hl & Hr)]%guarded_update_exact; [by left| |done].
    right. exists row, (published_row (ex_now ex) row). destruct Hl as (l & ? & ? & ? & ? & ?). split_and!; try done. by exists l.
  - intros db' r. unfold StoreRelease. destruct (_ || _); [intros [= <- <-]; by left|].
    intros [?|(row & Hl & Hr)]%guarded_update_exact; [by left| |done].
    right. exists row, (released_row (ex_now ex) retryAt reason row). destruct Hl as (l & ? & ? & ? & ? & ?).
    split_and!; try done; [by exists l|..]; cbn; unfold maxOutboxAttempts; intros Hk; destruct (Z.leb_spec 20 (ob_Attempts row + 1)); done || lia.
  - intros row Hr Hl Hc Hi Ht. unfold StoreMarkPublished, StoreRelease. rewrite Hi, Ht. cbn [negb orb].
    split; [by eapply guarded_update_done|]. intros -> [-> | ->]; by eapply guarded_update_done.
Qed.

(** *** Poisoning and terminal rows *)
Record row_wf (row : OutboxRow) : Prop := {
  wf_attempts : 0 <= ob_Attempts row <= maxOutboxAttempts;
  wf_poison : is_Some (ob_PoisonedAt row) <-> ob_Attempts row = maxOutboxAttempts;
  wf_closed : open_row row = false -> ob_Lease row = None;
  wf_once : is_Some (ob_PublishedAt row) -> ob_PoisonedAt row = None
}.

(** [row_step row row']: what one outbox call may do to a row. *)
Definition row_step (row row' : OutboxRow) : Prop :=
  row_content row' = row_content row /\ (open_row row = false -> row' = row) /\
  ob_Attempts row <= ob_Attempts row' /\ (row_wf row -> row_wf row').

Lemma row_step_refl row : row_step row row.
Proof. split_and!; auto; lia. Qed.

Lemma row_step_lease w row : open_row row = true -> row_step row (with_lease w row).
Proof.
  intros Ho. split_and!; [done|congruence|done|].
  intros [Ha Hp Hc Hn]. constructor; [done..| |done]. cbn. unfold open_row in *. cbn. congruence.
Qed.

Lemma live_lease_open now token row : live_lease now token row = true -> open_row row = true.
Proof. unfold live_lease. destruct (ob_Lease row); [|done]. intros H. by bools. Qed.

Lemma open_row_spec row :
  open_row row = true <-> ob_PublishedAt row = None /\ ob_PoisonedAt row = None.
Proof.
  unfold open_row. destruct (ob_PublishedAt row), (ob_PoisonedAt row); cbn; naive_solver.
Qed.

Lemma row_step_published now token row :
  live_lease now token row = true -> row_step row (published_row now row).
Proof.
  intros Ho%live_lease_open. split_and!; [done|congruence|done|].
  apply open_row_spec in Ho as [_ Hp]. intros [Ha Hpo Hc Hn].
  constructor; cbn; [done..|]. by rewrite Hp.
Qed.

Lemma row_step_released now token retryAt reason row :
  live_lease now token row = true -> row_step row (released_row now retryAt reason row).
Proof.
  intros Ho%live_lease_open. split_and!; [done|congruence|cbn; lia|].
  apply open_row_spec in Ho as [Hpub Hp]. intros [Ha Hpo Hc Hn]. rewrite Hp in Hpo.
  assert (ob_Attempts row <> maxOutboxAttempts) by (intros E; by apply Hpo in E as []).
  constructor; cbn; rewrite ?Hpub; try done.
  - lia.
  - destruct (Z.leb_spec maxOutboxAttempts (ob_Attempts row + 1)).
    + split; [lia|]. by eexists.
    + split; [by intros []|lia].
Qed.
#[export] Hint Resolve row_step_refl row_step_lease row_step_published row_step_released : snag.

(** The effect of any outbox call on the database: only outbox rows change,
    none appears or disappears, and each takes an allowed step. *)
Definition outbox_only (db db' : DB) : Prop :=
  db' = set_outbox (outbox db') db /\
  forall id, option_Forall2 row_step (outbox db !! id) (outbox db' !! id).

Lemma outbox_only_refl db : outbox_only db db.
Proof.
  split; [by destruct db|]. intros id. destruct (outbox db !! id); constructor. auto with snag.
Qed.

Lemma StoreClaim_only w limit lease ce db :
  outbox_only db (StoreClaim w limit lease ce db).1.
Proof.
  destruct (StoreClaim w limit lease ce db) as [db' r] eqn:E.
  destruct (StoreClaim_frame _ _ _ _ _ _ _ E) as [->|(items & ce' & H)];
    [apply outbox_only_refl|].
  destruct (StoreClaim_ok _ _ _ _ _ _ _ H) as (_ & Hdb & Hframe & Hall). cbn.
  split; [done|]. intros id.
  match type of Hall with Forall2 _ ?l _ => destruct (decide (id ∈ l)) as [Hin|Hin] end.
  - apply list_elem_of_lookup in Hin as [i Hi].
    destruct (Forall2_lookup_l _ _ _ _ _ Hall Hi) as (it & _ & row & j & -> & Ho & _ & ->).
    constructor. auto with snag.
  - rewrite Hframe by done. destruct (outbox db !! id); constructor. auto with snag.
Qed.

Lemma guarded_update_only step id token f ex db :
  (forall row, live_lease (ex_now ex) token row = true -> row_step row (f row)) ->
  outbox_only db (guarded_update step id token f ex db).1.
Proof.
  intros Hf. destruct (guarded_update step id token f ex db) as [db' r] eqn:E.
  destruct (guarded_update_cases _ _ _ _ _ _ _ _ E) as [[-> _]|(row & Hr & Hl & ->)];
    [apply outbox_only_refl|].
  split; [done|]. intros id'. cbn. destruct (decide (id' = id)) as [->|Hne].
  - rewrite Hr, lookup_insert_eq. constructor. auto.
  - rewrite lookup_insert_ne by done.
    destruct (outbox db !! id'); constructor. auto with snag.
Qed.

Lemma StoreMarkPublished_only id token ex db :
  outbox_only db (StoreMarkPublished id token ex db).1.
Proof.
  unfold StoreMarkPublished. destruct (_ || _); [apply outbox_only_refl|].
  apply guarded_update_only. eauto with snag.
Qed.

Lemma StoreRelease_only id token retryAt reason ex db :
  outbox_only db (StoreRelease id token retryAt reason ex db).1.
Proof.
  unfold StoreRelease. destruct (_ || _); [apply outbox_only_refl|].
  apply guarded_update_only. eauto with snag.
Qed.

(** ** Witnesses *)
Definition sample_row : OutboxRow :=
  {| ob_TenantID := "acme"; ob_EventKind := "case"; ob_EntityID := "case-1";
     ob_DestinationKind := "domain_dispatch"; ob_DestinationKey := "payments"; ob_Raw := "{}";
     ob_AuthorityRevision := 7; ob_CreatedAt := 0; ob_Attempts := 0; ob_NextAttemptAt := 0;
     ob_Lease := Some {| ls_Owner := "w0"; ls_Token := "t0"; ls_Until := 5 |};
     ob_LastError := ""; ob_PoisonedAt := None; ob_PublishedAt := None |}.

Definition sample_outbox : DB := set_outbox {["ob-1" := sample_row]} empty_db.

Definition sample_claim_env : ClaimEnv :=
  {| cl_attempt := calm 10; cl_locked := fun _ => false; cl_token := fun _ => "t1" |}.

Lemma StoreClaim_exclusive_witness :
  exists items, items <> [] /\
    StoreClaim "w1" 10 minute sample_claim_env sample_outbox =
      ((StoreClaim "w1" 10 minute sample_claim_env sample_outbox).1, Ok items) /\
    NoDup (map it_ID items).
Proof.
  eexists. split; [|split].
  3:{ refine (proj1 (proj2 (StoreClaim_exclusive "w1" 10 minute sample_claim_env sample_outbox
        (StoreClaim "w1" 10 minute sample_claim_env sample_outbox).1 _ _))).
      vm_compute. reflexivity. }
  - done.
  - vm_compute. reflexivity.
Defined.

(** The holder of [t0] closes its row before the lease runs out at 5. *)
Lemma closing_is_fenced_witness :
  let ex := {| ex_now := 3; ex_fate := Committed |} in
  (StoreMarkPublished "ob-1" "t0" ex sample_outbox).2 = Ok tt /\
  (exists row row', holds_lease 3 "t0" row /\
     row_replaced "ob-1" row row' sample_outbox (StoreMarkPublished "ob-1" "t0" ex sample_outbox).1 /\
     ob_PublishedAt row' = Some 3 /\ ob_PoisonedAt row' = None /\ ob_Lease row' = None /\ ob_Attempts row' = ob_Attempts row) /\
  (StoreMarkPublished "ob-1" "t1" ex sample_outbox) = (sample_outbox, Err ErrStaleOutboxLease).
Proof.
  intros ex. pose proof (closing_is_fenced "ob-1" "t0" 9 ReasonPublishFailed ex sample_outbox) as (Hc & _ & Hd).
  assert (Hl : holds_lease (ex_now ex) "t0" sample_row) by (eexists; by split_and!).
  destruct (Hd sample_row eq_refl Hl eq_refl eq_refl eq_refl) as [Hok _]. split_and!; [done| |vm_compute; reflexivity].
  destruct (StoreMarkPublished "ob-1" "t0" ex sample_outbox) as [db' r] eqn:E.
  destruct (Hc db' r eq_refl) as [[_ Hn]|Hr]; [by destruct Hn|exact Hr].
Defined.
