(* ===== verification/AuthoritySpec.v ===== *)
(** * The authority as an abstract ledger, and the store's refinement of it

    The contract of internal/authority: each commit is one atomic transition
    of the ledger.  [ledger_step] lists the transitions; [attempt_refines_*]
    show that one attempt of each commit of the PostgreSQL store, whatever
    fails in it, is such a transition. *)
From S2P Require Import Prelude GoText GoTime Sha256 DeliveryStream Authority PgTx AuthorityStore OutboxWorker AuthorityOutbox.
From stdpp Require Import sorting.
Open Scope string_scope.
Open Scope Z_scope.
Open Scope snag_scope.

(** ** The transitions *)
Definition next_sequence (db : DB) (key : string * string * Z) : Z :=
  match sequences db !! key with Some n => n | None => 1 end.

Definition case_key (r : CommitCaseRequest) : string * string * Z :=
  (cc_TenantID r, cc_IssuerEdgeID r, cc_IssuerEdgeGeneration r).

Definition row_edge_key (tenantID : string) (c : CaseRecord) : string * string * Z :=
  (tenantID, cs_IssuerEdgeID c, cs_IssuerEdgeGeneration c).

Definition case_delivery (r : CommitCaseRequest) (sequence revision : Z) : EdgeDelivery :=
  {| ed_Sequence := sequence; ed_Kind := "case"; ed_CaseID := cc_CaseID r;
     ed_EnvelopeID := cc_EnvelopeID r; ed_Commitment := cc_Commitment r; ed_Raw := cc_Raw r;
     ed_AuthorityRevision := revision |}.

Definition advice_delivery (r : CommitAdviceRequest) (sequence revision : Z) : EdgeDelivery :=
  {| ed_Sequence := sequence; ed_Kind := "advice"; ed_CaseID := ca_CaseID r;
     ed_EnvelopeID := ca_EnvelopeID r; ed_Commitment := ca_Commitment r; ed_Raw := ca_Raw r;
     ed_AuthorityRevision := revision |}.

Definition add_outbox (tenantID kind entityID : string) (raw : bytes) (revision : Z)
    (d : string * string) (now : Z) (m : gmap string OutboxRow) : gmap string OutboxRow :=
  <[deterministicOutboxID tenantID kind entityID revision d.1 d.2 :=
    outbox_row tenantID kind entityID raw revision d now]> m.

Definition case_routes (r : CommitCaseRequest) : (string * string) * (string * string) :=
  (("domain_dispatch", cc_Domain r),
   ("edge_delivery", edgeKey (cc_IssuerEdgeID r) (cc_IssuerEdgeGeneration r))).

Definition add_case (r : CommitCaseRequest) (t1 t2 : Z) (db : DB) : DB :=
  let rev := revision_seq db in
  let seq := next_sequence db (case_key r) in
  {| cases := <[(cc_TenantID r, cc_CaseID r) := case_row r rev]> (cases db);
     advice := advice db;
     sequences := <[case_key r := seq + 1]> (sequences db);
     deliveries := <[(case_key r, seq) := case_delivery r seq rev]> (deliveries db);
     heads := heads db; highwater := highwater db; registries := registries db;
     audit := (audit db ++ [audit_row (cc_TenantID r) "case" (cc_CaseID r) (cc_Commitment r)
                              (cc_PrincipalID r) (cc_EdgeID r) (cc_Decision r) rev])%list;
     outbox := add_outbox (cc_TenantID r) "case" (cc_CaseID r) (cc_Raw r) rev
                 (case_routes r).2 t2
                 (add_outbox (cc_TenantID r) "case" (cc_CaseID r) (cc_Raw r) rev
                    (case_routes r).1 t1 (outbox db));
     revision_seq := rev + 1 |}.

Definition advice_route (c : CaseRecord) : string * string :=
  ("edge_delivery", edgeKey (cs_IssuerEdgeID c) (cs_IssuerEdgeGeneration c)).

Definition add_advice (r : CommitAdviceRequest) (c : CaseRecord) (t : Z) (db : DB) : DB :=
  let rev := revision_seq db in
  let key := row_edge_key (ca_TenantID r) c in
  let seq := next_sequence db key in
  {| cases := cases db;
     advice := <[(ca_TenantID r, ca_CaseID r) :=
       advice_row r (cs_IssuerEdgeID c) (cs_IssuerEdgeGeneration c) seq rev]> (advice db);
     sequences := <[key := seq + 1]> (sequences db);
     deliveries := <[(key, seq) := advice_delivery r seq rev]> (deliveries db);
     heads := heads db; highwater := highwater db; registries := registries db;
     audit := (audit db ++ [audit_row (ca_TenantID r) "advice" (ca_CaseID r) (ca_Commitment r)
                              (ca_PrincipalID r) (ca_EdgeID r) (ca_Decision r) rev])%list;
     outbox := add_outbox (ca_TenantID r) "advice" (ca_CaseID r) (ca_Raw r) rev
                 (advice_route c) t (outbox db);
     revision_seq := rev + 1 |}.

(** The high-water marks after a registry: one row per edge it names. *)
Fixpoint mark_edges (r : CommitRegistryRequest) (edges : gmap string RegistryEdge)
    (ids : list string) (m : gmap (string * string) HighWaterRow)
  : gmap (string * string) HighWaterRow :=
  match ids with
  | [] => m
  | id :: ids =>
      mark_edges r edges ids
        (match edges !! id with
         | Some edge => <[(cr_TenantID r, id) := highwater_row r edge]> m
         | None => m
         end)
  end.

Definition add_registry (r : CommitRegistryRequest) (db : DB) : DB :=
  let rev := revision_seq db in
  {| cases := cases db; advice := advice db; sequences := sequences db;
     deliveries := deliveries db;
     heads := <[cr_TenantID r := head_row r false
                 match heads db !! cr_TenantID r with
                 | Some h => rh_HaltReason h | None => "" end]> (heads db);
     highwater := mark_edges r (request_edges r) (sortedKeys (request_edges r)) (highwater db);
     registries := <[(cr_TenantID r, cr_Revision r) := registry_row r rev]> (registries db);
     audit := (audit db ++ [audit_row (cr_TenantID r) "registry" (cr_EnvelopeID r)
                              (cr_Commitment r) (cr_PrincipalID r) (cr_EdgeID r)
                              (cr_Decision r) rev])%list;
     outbox := outbox db; revision_seq := rev + 1 |}.

Definition halt_head (tenantID reason : string) (db : DB) : DB :=
  set_heads (alter (halted_head reason) tenantID (heads db)) db.

(** ** Their guards *)
Definition outbox_fresh (tenantID kind entityID : string) (d : string * string) (db : DB) : Prop :=
  outbox db !! deterministicOutboxID tenantID kind entityID (revision_seq db) d.1 d.2 = None.

Definition admits_case (r : CommitCaseRequest) (db : DB) : Prop :=
  validate_case r = Ok tt /\
  cases db !! (cc_TenantID r, cc_CaseID r) = None /\
  (exists h, heads db !! cc_TenantID r = Some h /\ rh_Halted h = false /\
     rh_Revision h = cc_RegistryRevision r /\ rh_Commitment h = cc_RegistryHash r /\
     rh_RoutingEpoch h = cc_RoutingEpoch r) /\
  (forall k c, cases db !! k = Some c -> k.1 = cc_TenantID r ->
     cs_EnvelopeID c <> cc_EnvelopeID r /\ cs_Commitment c <> cc_Commitment r) /\
  (forall k d, deliveries db !! k = Some d -> k.1.1.1 = cc_TenantID r ->
     ed_EnvelopeID d <> cc_EnvelopeID r) /\
  (forall d, d = (case_routes r).1 \/ d = (case_routes r).2 ->
     outbox_fresh (cc_TenantID r) "case" (cc_CaseID r) d db).

Definition admits_advice (r : CommitAdviceRequest) (c : CaseRecord) (db : DB) : Prop :=
  validate_advice r = Ok tt /\
  advice db !! (ca_TenantID r, ca_CaseID r) = None /\
  (exists h, heads db !! ca_TenantID r = Some h /\ rh_Halted h = false) /\
  cases db !! (ca_TenantID r, ca_CaseID r) = Some c /\
  ca_CaseCommitment r = cs_Commitment c /\ ca_RoutingEpoch r = cs_RoutingEpoch c /\
  ca_RegistryRevision r = cs_RegistryRevision c /\ ca_RegistryHash r = cs_RegistryHash c /\
  (forall k a, advice db !! k = Some a -> k.1 = ca_TenantID r ->
     av_EnvelopeID a <> ca_EnvelopeID r /\ av_Commitment a <> ca_Commitment r) /\
  (forall k d, deliveries db !! k = Some d -> k.1.1.1 = ca_TenantID r ->
     ed_EnvelopeID d <> ca_EnvelopeID r) /\
  outbox_fresh (ca_TenantID r) "advice" (ca_CaseID r) (advice_route c) db.

(** An edge of a new registry: a generation above the high-water mark, or the
    same generation and principal as in the registry just before. *)
Definition admits_edge (head : option RegistryHead) (w : option HighWaterRow)
    (edge : RegistryEdge) : Prop :=
  match w with
  | None => True
  | Some w =>
      hw_HighestGeneration w < re_Generation edge \/
      (hw_HighestGeneration w = re_Generation edge /\ hw_PrincipalID w = re_PrincipalID edge /\
       exists h, head = Some h /\ hw_LastSeenRevision w = rh_Revision h)
  end.

Definition admits_registry (r : CommitRegistryRequest) (db : DB) : Prop :=
  validate_registry r = Ok tt /\
  match heads db !! cr_TenantID r with
  | None => cr_PreviousCommitment r = ""
  | Some h => rh_Halted h = false /\ cr_Revision r = rh_Revision h + 1 /\
      cr_PreviousCommitment r = rh_Commitment h
  end /\
  registries db !! (cr_TenantID r, cr_Revision r) = None /\
  (forall k g, registries db !! k = Some g -> k.1 = cr_TenantID r ->
     rr_EnvelopeID g <> cr_EnvelopeID r /\ rr_Commitment g <> cr_Commitment r) /\
  (forall id edge, request_edges r !! id = Some edge ->
     admits_edge (heads db !! cr_TenantID r) (highwater db !! (cr_TenantID r, id)) edge).

(** Evidence that halts a tenant's registry chain. *)
Definition halts_registry (r : CommitRegistryRequest) (reason : string) (db : DB) : Prop :=
  validate_registry r = Ok tt /\
  exists h, heads db !! cr_TenantID r = Some h /\ rh_Halted h = false /\
    ((cr_Revision r < rh_Revision h /\ reason = registryHaltRevisionRollback) \/
     (cr_Revision r = rh_Revision h /\ reason = registryHaltSameRevisionConflict /\
      exists g, registries db !! (cr_TenantID r, cr_Revision r) = Some g /\
        g <> registry_row r (rr_AuthorityRevision g)) \/
     (cr_Revision r = rh_Revision h + 1 /\ reason = registryHaltPredecessorMismatch /\
      cr_PreviousCommitment r <> rh_Commitment h)).

(** ** One step of the ledger

    [LRevision] is an attempt that failed after it drew a revision: only the
    identity sequence advances.  [LOutbox] is a call of the outbox. *)
Inductive ledger_step : DB -> DB -> Prop :=
| LCase r t1 t2 db : admits_case r db -> ledger_step db (add_case r t1 t2 db)
| LAdvice r c t db : admits_advice r c db -> ledger_step db (add_advice r c t db)
| LRegistry r db : admits_registry r db -> ledger_step db (add_registry r db)
| LHalt r reason db :
    halts_registry r reason db -> ledger_step db (halt_head (cr_TenantID r) reason db)
| LRevision n db : revision_seq db <= n -> ledger_step db (set_revision_seq n db)
| LOutbox db db' : outbox_only db db' -> ledger_step db db'.

Definition ledger_reachable : DB -> Prop := rtc ledger_step empty_db.

(** ** Inversion of the closures *)
Ltac tx_step :=
  match goal with
  | H : mbind _ _ _ _ = (_, Ok _) |- _ =>
      let a := fresh "a" in let st := fresh "st" in let Hm := fresh "Hm" in
      apply tx_bind_ok in H as (a & st & Hm & H)
  | H : mret _ _ _ = (_, Ok _) |- _ =>
      let Ha := fresh "Hret" in let Hs := fresh "Hst" in
      apply tx_ret_ok in H as [Ha Hs]; try subst
  | H : query _ _ _ _ = (_, Ok _) |- _ =>
      let Ha := fresh "Hq" in let Hs := fresh "Hst" in
      apply query_ok in H as [Ha Hs]; subst; cbn [fst snd] in *
  | H : tx_check _ _ _ _ = (_, Ok _) |- _ =>
      let Ha := fresh "Hc" in let Hs := fresh "Hst" in
      apply tx_check_ok in H as [Ha Hs]; subst
  | H : tx_fail _ _ _ = (_, Ok _) |- _ => destruct (tx_fail_ok _ _ _ _ _ H)
  | H : statement _ _ _ _ = (_, Ok _) |- _ =>
      let db := fresh "db" in let Hd := fresh "Hstmt" in let Hs := fresh "Hst" in
      apply statement_ok in H as (db & Hd & Hs); subst; cbn [fst snd] in *
  end.
Ltac tx_inv := repeat tx_step.

(** A guard on a unique index, read as a statement about all rows. *)
Lemma unique_guard {K V} `{Countable K} (p : K -> V -> bool) (m : gmap K V) (k : K) :
  bool_decide (is_Some (m !! k)) || row_exists p m = false ->
  m !! k = None /\ (forall k' v, m !! k' = Some v -> p k' v = false).
Proof.
  intros [Hk Hr]%orb_false_iff. apply bool_decide_eq_false in Hk.
  split; [by apply eq_None_not_Some|by apply row_exists_false].
Qed.

Lemma tenant_guard a t (b c : bool) : (a =s? t) && (b || c) = false -> a = t -> b = false /\ c = false.
Proof. intros H ->. rewrite String.eqb_refl in H. by apply orb_false_iff in H. Qed.

Lemma insertCase_ok r rev env st st' u :
  insertCase r rev env st = (st', Ok u) ->
  cases st.2 !! (cc_TenantID r, cc_CaseID r) = None /\
  (forall k c, cases st.2 !! k = Some c -> k.1 = cc_TenantID r ->
     cs_EnvelopeID c <> cc_EnvelopeID r /\ cs_Commitment c <> cc_Commitment r) /\
  st' = (S st.1, set_cases (<[(cc_TenantID r, cc_CaseID r) := case_row r rev]> (cases st.2)) st.2).
Proof.
  unfold insertCase. intros H. tx_inv. destruct (_ || _) eqn:E in Hstmt; [done|].
  apply unique_guard in E as [Hk Hu]. injection Hstmt as <- <-. split_and!; [done| |done].
  intros k c Hc Ht. destruct (tenant_guard _ _ _ _ (Hu k c Hc) Ht). by bools.
Qed.

Lemma insertAdvice_ok r e g s rev env st st' u :
  insertAdvice r e g s rev env st = (st', Ok u) ->
  advice st.2 !! (ca_TenantID r, ca_CaseID r) = None /\
  (forall k a, advice st.2 !! k = Some a -> k.1 = ca_TenantID r ->
     av_EnvelopeID a <> ca_EnvelopeID r /\ av_Commitment a <> ca_Commitment r) /\
  st' = (S st.1, set_advice
    (<[(ca_TenantID r, ca_CaseID r) := advice_row r e g s rev]> (advice st.2)) st.2).
Proof.
  unfold insertAdvice. intros H. tx_inv. destruct (_ || _) eqn:E in Hstmt; [done|].
  apply unique_guard in E as [Hk Hu]. injection Hstmt as <- <-. split_and!; [done| |done].
  intros k c Hc Ht. destruct (tenant_guard _ _ _ _ (Hu k c Hc) Ht). by bools.
Qed.

Lemma insertRegistry_ok r rev env st st' u :
  insertRegistry r rev env st = (st', Ok u) ->
  registries st.2 !! (cr_TenantID r, cr_Revision r) = None /\
  (forall k g, registries st.2 !! k = Some g -> k.1 = cr_TenantID r ->
     rr_EnvelopeID g <> cr_EnvelopeID r /\ rr_Commitment g <> cr_Commitment r) /\
  st' = (S st.1, set_registries
    (<[(cr_TenantID r, cr_Revision r) := registry_row r rev]> (registries st.2)) st.2).
Proof.
  unfold insertRegistry. intros H. tx_inv. destruct (_ || _) eqn:E in Hstmt; [done|].
  apply unique_guard in E as [Hk Hu]. injection Hstmt as <- <-. split_and!; [done| |done].
  intros k c Hc Ht. destruct (tenant_guard _ _ _ _ (Hu k c Hc) Ht). by bools.
Qed.

Lemma insertEdgeDelivery_ok t e g s kind case env_id com raw rev env st st' u :
  insertEdgeDelivery t e g s kind case env_id com raw rev env st = (st', Ok u) ->
  (forall k d, deliveries st.2 !! k = Some d -> k.1.1.1 = t -> ed_EnvelopeID d <> env_id) /\
  st' = (S st.1, set_deliveries (<[(t, e, g, s) :=
    {| ed_Sequence := s; ed_Kind := kind; ed_CaseID := case; ed_EnvelopeID := env_id;
       ed_Commitment := com; ed_Raw := raw; ed_AuthorityRevision := rev |}]>
    (deliveries st.2)) st.2).
Proof.
  unfold insertEdgeDelivery. intros H. tx_inv. destruct (_ || _) eqn:E in Hstmt; [done|].
  apply unique_guard in E as [Hk Hu]. injection Hstmt as <- <-. split; [|done].
  intros k d Hd Ht. pose proof (Hu k d Hd) as Hp. cbn in Hp.
  rewrite Ht, String.eqb_refl in Hp. cbn in Hp. by bools.
Qed.

Lemma allocateDeliverySequence_ok t e g env st st' n :
  allocateDeliverySequence t e g env st = (st', Ok n) ->
  n = next_sequence st.2 (t, e, g) /\
  st' = (S st.1, set_sequences (<[(t, e, g) := n + 1]> (sequences st.2)) st.2).
Proof.
  unfold allocateDeliverySequence, next_sequence. intros H. tx_inv.
  destruct (sequences st.2 !! _) as [m|]; injection Hstmt as <- <-; [|done].
  replace (m + 1 - 1) with m by lia. done.
Qed.

Lemma insertOutboxRow_ok t k e raw rev d env st st' u :
  insertOutboxRow t k e raw rev d env st = (st', Ok u) ->
  outbox st.2 !! deterministicOutboxID t k e rev d.1 d.2 = None /\
  st' = (S st.1, set_outbox (add_outbox t k e raw rev d (clock env st.1) (outbox st.2)) st.2).
Proof.
  unfold insertOutboxRow. intros H. tx_inv. destruct (_ || _) eqn:E in Hstmt; [done|].
  apply unique_guard in E as [Hk Hu]. by injection Hstmt as <- <-.
Qed.

Lemma add_outbox_None t k e raw rev d now m id :
  add_outbox t k e raw rev d now m !! id = None -> m !! id = None.
Proof. unfold add_outbox. by intros [? _]%lookup_insert_None. Qed.

Lemma recordAudit_ok t k e c p ed dcs rev env st st' u :
  recordAudit t k e c p ed dcs rev env st = (st', Ok u) ->
  st' = (S st.1, set_audit (audit st.2 ++ [audit_row t k e c p ed dcs rev])%list st.2).
Proof.
  unfold recordAudit. intros H. tx_inv. destruct (existsb _ _); [done|]. by injection Hstmt as <- <-.
Qed.

Lemma allocateRevision_ok env st st' n :
  allocateRevision env st = (st', Ok n) ->
  n = revision_seq st.2 /\ st' = (S st.1, set_revision_seq (n + 1) st.2).
Proof. unfold allocateRevision. intros H. tx_inv. by injection Hstmt as <- <-. Qed.

(** Apply the specification of the write a hypothesis runs. *)
Ltac tx_write :=
  match goal with
  | H : insertCase _ _ _ _ = (_, Ok _) |- _ => apply insertCase_ok in H as (? & ? & ?)
  | H : insertAdvice _ _ _ _ _ _ _ = (_, Ok _) |- _ => apply insertAdvice_ok in H as (? & ? & ?)
  | H : insertRegistry _ _ _ _ = (_, Ok _) |- _ => apply insertRegistry_ok in H as (? & ? & ?)
  | H : insertEdgeDelivery _ _ _ _ _ _ _ _ _ _ _ _ = (_, Ok _) |- _ =>
      apply insertEdgeDelivery_ok in H as (? & ?)
  | H : allocateDeliverySequence _ _ _ _ _ = (_, Ok _) |- _ =>
      apply allocateDeliverySequence_ok in H as (? & ?)
  | H : insertOutboxRow _ _ _ _ _ _ _ _ = (_, Ok _) |- _ =>
      apply insertOutboxRow_ok in H as (? & ?)
  | H : recordAudit _ _ _ _ _ _ _ _ _ _ = (_, Ok _) |- _ => apply recordAudit_ok in H
  | H : allocateRevision _ _ = (_, Ok _) |- _ => apply allocateRevision_ok in H as (? & ?)
  end.
Ltac db_simpl :=
  cbn [fst snd set_cases set_advice set_sequences set_deliveries set_heads set_highwater
       set_registries set_audit set_outbox set_revision_seq cases advice sequences deliveries
       heads highwater registries audit outbox revision_seq] in *.
Ltac tx_writes := repeat (tx_write; subst; db_simpl).

(** ** The three closures refine the transitions *)
Section Works.
Context (authorityID : string).

Definition case_replayed (r : CommitCaseRequest) (c : CaseRecord) : Prop :=
  c = case_row r (cs_AuthorityRevision c) \/
  (cs_EnvelopeID c = cc_EnvelopeID r /\ cs_Commitment c = cc_Commitment r /\
   cs_Raw c = cc_Raw r /\ cs_Domain c = cc_Domain r /\
   cs_IssuerEdgeID c = cc_IssuerEdgeID r /\
   cs_IssuerEdgeGeneration c = cc_IssuerEdgeGeneration r /\
   cs_RoutingEpoch c = cc_RoutingEpoch r /\ cs_RegistryRevision c = cc_RegistryRevision r /\
   cs_RegistryHash c = cc_RegistryHash r /\ cs_ExpiresAt c = cc_ExpiresAt r).

Lemma commitCaseWork_ok r env db n db' rc we :
  validate_case r = Ok tt ->
  commitCaseWork authorityID r env (O, db) = ((n, db'), Ok (rc, we)) ->
  we = None /\
  ((db' = db /\ exists c, cases db !! (cc_TenantID r, cc_CaseID r) = Some c /\
      case_replayed r c /\ rc = withAuthority authorityID {| r_AuthorityID := "";
        r_Revision := cs_AuthorityRevision c; r_EnvelopeID := cs_EnvelopeID c;
        r_Commitment := cs_Commitment c |}) \/
   (admits_case r db /\ exists t1 t2, db' = add_case r t1 t2 db /\
      rc = receipt authorityID (revision_seq db) (cc_EnvelopeID r) (cc_Commitment r))).
Proof.
  intros Hv H. unfold commitCaseWork, existingCase in H. tx_inv.
  destruct (cases db !! _) as [c|] eqn:Hc.
  - destruct (_ && _) eqn:Hx in Hm; tx_inv. simplify_eq. split; [done|]. left. split; [done|].
    exists c. split_and!; [done| |done]. right. bools. by split_and!.
  - tx_inv. unfold registryHeadForUpdate in *. tx_inv.
    destruct (heads db !! cc_TenantID r) as [h|] eqn:Hh; [|tx_inv].
    unfold caseCollision in *. tx_inv. cbn [insertOutbox] in *. tx_inv. tx_writes. simplify_eq.
    split; [done|]. right. split.
    + unfold caseBindsHead in *. bools.
      split_and!; [done..|exists h; by split_and!|done|done|].
      intros d [->| ->]; [done|by eapply add_outbox_None].
    + eexists _, _. split; reflexivity.
Qed.

Lemma commitAdviceWork_ok r env db n db' rc we :
  validate_advice r = Ok tt ->
  commitAdviceWork authorityID r env (O, db) = ((n, db'), Ok (rc, we)) ->
  we = None /\
  ((db' = db /\ exists a, advice db !! (ca_TenantID r, ca_CaseID r) = Some a /\
      a = advice_row r (av_TargetEdgeID a) (av_TargetEdgeGeneration a)
            (av_DeliverySequence a) (av_CommitRevision a) /\
      rc = withAuthority authorityID {| r_AuthorityID := "";
        r_Revision := av_CommitRevision a; r_EnvelopeID := av_EnvelopeID a;
        r_Commitment := av_Commitment a |}) \/
   (exists c, admits_advice r c db /\ exists t, db' = add_advice r c t db /\
      rc = receipt authorityID (revision_seq db) (ca_EnvelopeID r) (ca_Commitment r))).
Proof.
  intros Hv H. unfold commitAdviceWork, existingAdvice in H. tx_inv.
  destruct (advice db !! _) as [e|] eqn:Ha.
  - destruct (_ && _) eqn:Hx in Hm; tx_inv.
    + simplify_eq. split; [done|]. left. split; [done|]. exists e.
      split_and!; [done| |done]. bools. destruct e. cbn in *. by subst.
    + unfold registryHeadForUpdate in *. tx_inv.
      destruct (heads db !! _); tx_inv. done.
  - tx_inv. unfold registryHeadForUpdate in *. tx_inv.
    destruct (heads db !! ca_TenantID r) as [h|] eqn:Hh; [|tx_inv].
    tx_inv. cbn [fst snd] in H. destruct (cases db !! _) as [c|] eqn:Hcase; [|tx_inv].
    unfold adviceCollision in *. tx_inv. cbn [insertOutbox] in *. tx_inv. tx_writes. simplify_eq.
    split; [done|]. right. exists c. split.
    + bools. split_and!; try done. by exists h.
    + eexists. split; reflexivity.
Qed.

(** *** Registries *)
Lemma haltWith_ok t reason e env st n db' rc we :
  haltWith t reason e env st = ((n, db'), Ok (rc, we)) ->
  we = Some e /\ db' = halt_head t reason st.2 /\ is_Some (heads st.2 !! t).
Proof.
  unfold haltWith, haltRegistryHead. intros H. tx_inv.
  destruct (heads st.2 !! t) as [h|] eqn:Hh; [|by injection Hstmt as <- <-].
  injection Hstmt as <- <-. simplify_eq. split_and!; [done| |done].
  unfold halt_head. db_simpl. f_equal. apply map_eq. intros k.
  destruct (decide (k = t)) as [->|].
  - by rewrite lookup_insert_eq, lookup_alter_eq, Hh.
  - by rewrite lookup_insert_ne, lookup_alter_ne.
Qed.

Lemma edge_guard head w edge :
  (match w with
   | None => false
   | Some h =>
       (re_Generation edge <? hw_HighestGeneration h)
       || ((re_Generation edge =? hw_HighestGeneration h)
           && (match head with
               | None => true
               | Some hd => negb (hw_LastSeenRevision h =? rh_Revision hd)
               end || negb (hw_PrincipalID h =s? re_PrincipalID edge)))
   end) = false <-> admits_edge head w edge.
Proof.
  unfold admits_edge. destruct w as [w|]; [|done].
  destruct (Z.ltb_spec (re_Generation edge) (hw_HighestGeneration w)),
    (Z.eqb_spec (re_Generation edge) (hw_HighestGeneration w)); cbn; try (split; [done|lia]).
  - destruct head as [h|]; cbn.
    + rewrite orb_false_iff, !negb_false_iff, Z.eqb_eq, String.eqb_eq. naive_solver lia.
    + split; [done|]. intros [?|(_ & _ & h & ? & _)]; [lia|done].
  - split; [intros _; left; lia|done].
Qed.

Lemma enforceEdges_ok r head edges ids : forall env st st' u,
  NoDup ids -> enforceEdges r head edges ids env st = (st', Ok u) ->
  st'.2 = set_highwater (mark_edges r edges ids (highwater st.2)) st.2 /\
  (forall id edge, id ∈ ids -> edges !! id = Some edge ->
     admits_edge head (highwater st.2 !! (cr_TenantID r, id)) edge).
Proof.
  induction ids as [|id ids IH]; intros env st st' u Hnd H; cbn [enforceEdges mark_edges] in *.
  { tx_inv. split; [by destruct st as [? []]|set_solver]. }
  apply NoDup_cons in Hnd as [Hid Hnd].
  destruct (edges !! id) as [edge|] eqn:He.
  - unfold enforceOneEdge in H. tx_inv. injection Hstmt as <- <-.
    destruct (IH _ _ _ _ Hnd H) as [Hst Hall]. db_simpl. split; [exact Hst|].
    intros id' e' Hin He'. apply elem_of_cons in Hin as [->|Hin].
    + simplify_eq. by apply edge_guard.
    + pose proof (Hall _ _ Hin He') as Ha. rewrite lookup_insert_ne in Ha by set_solver. done.
  - destruct (IH _ _ _ _ Hnd H) as [Hst Hall]. split; [exact Hst|].
    intros id' e' Hin He'. apply elem_of_cons in Hin as [->|Hin]; [congruence|eauto].
Qed.

Lemma sortedKeys_spec {V} (m : gmap string V) :
  NoDup (sortedKeys m) /\ forall k, k ∈ sortedKeys m <-> is_Some (m !! k).
Proof.
  unfold sortedKeys. split.
  - rewrite merge_sort_Permutation. apply NoDup_fst_map_to_list.
  - intros k. rewrite merge_sort_Permutation, list_elem_of_fmap. split.
    + intros ([k' v] & -> & Hin%elem_of_map_to_list). by exists v.
    + intros [v Hv%elem_of_map_to_list]. by exists (k, v).
Qed.

Lemma admitRegistry_ok r head env st n db' rc we :
  validate_registry r = Ok tt -> heads st.2 !! cr_TenantID r = head ->
  match head with
  | None => cr_PreviousCommitment r = ""
  | Some h => rh_Halted h = false /\ cr_Revision r = rh_Revision h + 1 /\
      cr_PreviousCommitment r = rh_Commitment h
  end ->
  admitRegistry authorityID r head env st = ((n, db'), Ok (rc, we)) ->
  we = None /\ admits_registry r st.2 /\ db' = add_registry r st.2 /\
  rc = receipt authorityID (revision_seq st.2) (cr_EnvelopeID r) (cr_Commitment r).
Proof.
  intros Hv Hh Hpre H. unfold admitRegistry, registryCollision in H. tx_inv.
  destruct (sortedKeys_spec (request_edges r)) as [Hnd Hkeys].
  unfold enforceEdgeGenerationHighWater in *.
  match goal with He : enforceEdges _ _ _ _ _ _ = _ |- _ =>
    apply (enforceEdges_ok _ _ _ _ _ _ _ _ Hnd) in He as [Hst Hedges] end.
  tx_write; subst. tx_write; subst. unfold writeRegistryHead in *. db_simpl. tx_inv.
  tx_writes. simplify_eq. rewrite Hst in *. db_simpl.
  split; [done|]. split; [|split; [|done]].
  - unfold admits_registry. split_and!; try done. intros id edge He.
    apply Hedges; [by apply Hkeys|done].
  - unfold add_registry. destruct (heads st.2 !! cr_TenantID r) as [h|] eqn:Hh.
    + destruct Hpre as [Hhalt _]. rewrite Hhalt in *. by simplify_eq.
    + by simplify_eq.
Qed.

Lemma commitRegistryWork_ok r env db n db' rc we :
  validate_registry r = Ok tt ->
  commitRegistryWork authorityID r env (O, db) = ((n, db'), Ok (rc, we)) ->
  (we = None /\ db' = db /\
   exists g, registries db !! (cr_TenantID r, cr_Revision r) = Some g /\
     rr_EnvelopeID g = cr_EnvelopeID r /\ rr_Commitment g = cr_Commitment r /\
     rr_Raw g = cr_Raw r /\ rr_RoutingEpoch g = cr_RoutingEpoch r /\
     rr_PreviousCommitment g = cr_PreviousCommitment r /\
     rc = withAuthority authorityID {| r_AuthorityID := "";
       r_Revision := rr_AuthorityRevision g; r_EnvelopeID := rr_EnvelopeID g;
       r_Commitment := rr_Commitment g |}) \/
  (is_Some we /\ exists reason, halts_registry r reason db /\
     db' = halt_head (cr_TenantID r) reason db) \/
  (we = None /\ admits_registry r db /\ db' = add_registry r db /\
   rc = receipt authorityID (revision_seq db) (cr_EnvelopeID r) (cr_Commitment r)).
Proof.
  intros Hv H. unfold commitRegistryWork, registryHeadForUpdate in H. tx_inv.
  destruct (heads db !! cr_TenantID r) as [h|] eqn:Hh.
  2:{ tx_inv. bools. apply is_empty_spec in Hc.
      right. right. by apply (admitRegistry_ok _ None) in H. }
  tx_inv.
  assert (Hhalt : forall reason e,
    haltWith (cr_TenantID r) reason e env (1%nat, db) = ((n, db'), Ok (rc, we)) \/
    haltWith (cr_TenantID r) reason e env (2%nat, db) = ((n, db'), Ok (rc, we)) ->
    halts_registry r reason db ->
    is_Some we /\ exists reason, halts_registry r reason db /\
      db' = halt_head (cr_TenantID r) reason db).
  { intros reason e [(-> & -> & _)%haltWith_ok|(-> & -> & _)%haltWith_ok] Hr; eauto. }
  destruct (Z.ltb_spec (cr_Revision r) (rh_Revision h)).
  { right. left. eapply Hhalt; [by left|]. split; [done|]. exists h. eauto 6. }
  destruct (Z.eqb_spec (cr_Revision r) (rh_Revision h)) as [Heq|Hne].
  - unfold existingRegistry in H. tx_inv. destruct (registries db !! _) as [g|] eqn:Hg; [|tx_inv].
    tx_inv. destruct (_ && _) eqn:Hx in H.
    + tx_inv. left. simplify_eq. bools. split_and!; [done..|]. exists g. by split_and!.
    + right. left. eapply Hhalt; [right; exact H|].
      split; [done|]. exists h. split_and!; [done..|]. right. left. split_and!; [done..|].
      exists g. split; [exact Hg|]. intros E. revert Hx. rewrite E. cbn.
      by rewrite !String.eqb_refl, Z.eqb_refl.
  - tx_inv. bools. destruct (negb _) eqn:Hp in H; bools.
    + right. left. eapply Hhalt; [left; exact H|]. split; [done|]. exists h. eauto 10.
    + right. right. by apply (admitRegistry_ok _ (Some h)) in H.
Qed.

(** *** Whatever happens, the identity sequence only advances *)
Ltac solve_grows :=
  repeat first
    [ apply grows_bind; [|intros ?] | apply _ | progress intros
    | match goal with |- Grows (match ?x with _ => _ end) => destruct x end
    | match goal with |- Grows (if ?x then _ else _) => destruct x end
    | apply grows_statement; intros ???? H; repeat (case_in H); simplify_eq; cbn; lia ].

#[local] Instance grows_outbox t k e raw rev ds : Grows (insertOutbox t k e raw rev ds).
Proof. induction ds as [|d ds IH]; cbn; unfold insertOutboxRow; solve_grows. Qed.

#[local] Instance grows_edges r head edges ids : Grows (enforceEdges r head edges ids).
Proof. induction ids as [|i ids IH]; cbn; unfold enforceOneEdge; solve_grows. Qed.

Lemma grows_case r : Grows (commitCaseWork authorityID r).
Proof.
  unfold commitCaseWork, existingCase, registryHeadForUpdate, caseCollision, allocateRevision,
    insertCase, allocateDeliverySequence, insertEdgeDelivery, recordAudit. solve_grows.
Qed.

Lemma grows_advice r : Grows (commitAdviceWork authorityID r).
Proof.
  unfold commitAdviceWork, existingAdvice, registryHeadForUpdate, adviceCollision,
    allocateRevision, insertAdvice, allocateDeliverySequence, insertEdgeDelivery, recordAudit.
  solve_grows.
Qed.

Lemma grows_registry r : Grows (commitRegistryWork authorityID r).
Proof.
  unfold commitRegistryWork, existingRegistry, registryHeadForUpdate, haltWith, haltRegistryHead,
    admitRegistry, registryCollision, allocateRevision, enforceEdgeGenerationHighWater,
    insertRegistry, writeRegistryHead, recordAudit. solve_grows.
Qed.
End Works.
