(* ===== verification/AuthorityInv.v ===== *)
(** * Invariants of the authority ledger

    Every state the ledger can reach, by any number of commits, replays,
    halts, failed attempts and outbox calls in any order, satisfies
    [ledger_inv]; the proofs are by rule induction on [ledger_step].  The
    whole-transaction statements (retries, faults, interference) are at the
    end. *)
From S2P Require Import Prelude GoText GoTime Sha256 DeliveryStream Authority PgTx AuthorityStore OutboxWorker AuthorityOutbox AuthoritySpec.
From stdpp Require Import sorting.
Open Scope string_scope.
Open Scope Z_scope.
Open Scope snag_scope.

(** ** The ledger only grows *)
Record ledger_extends (db db' : DB) : Prop := {
  ext_cases : cases db ⊆ cases db';
  ext_advice : advice db ⊆ advice db';
  ext_registries : registries db ⊆ registries db';
  ext_deliveries : deliveries db ⊆ deliveries db';
  ext_audit : audit db `prefix_of` audit db';
  ext_revision : revision_seq db <= revision_seq db'
}.

#[export] Instance ledger_extends_preorder : PreOrder ledger_extends.
Proof.
  split.
  - intros db. by constructor.
  - intros d1 d2 d3 [] []. constructor; solve [etrans; eassumption|lia].
Qed.

Definition log_fresh (db : DB) (key : string * string * Z) : Prop :=
  deliveries db !! (key, next_sequence db key) = None.

Lemma add_case_extends r t1 t2 db : admits_case r db -> log_fresh db (case_key r) ->
  ledger_extends db (add_case r t1 t2 db).
Proof.
  intros (_ & Hnew & _) Hlog. constructor; cbn; try done; try lia.
  - by apply insert_subseteq.
  - by apply insert_subseteq.
  - by apply prefix_app_r.
Qed.

Lemma add_advice_extends r c t db : admits_advice r c db ->
  log_fresh db (row_edge_key (ca_TenantID r) c) -> ledger_extends db (add_advice r c t db).
Proof.
  intros (_ & Hnew & _) Hlog. constructor; cbn; try done; try lia.
  - by apply insert_subseteq.
  - by apply insert_subseteq.
  - by apply prefix_app_r.
Qed.

Lemma add_registry_extends r db : admits_registry r db -> ledger_extends db (add_registry r db).
Proof.
  intros (_ & _ & Hnew & _). constructor; cbn; try done; try lia.
  - by apply insert_subseteq.
  - by apply prefix_app_r.
Qed.

Lemma same_tables_extend db db' :
  cases db' = cases db -> advice db' = advice db -> registries db' = registries db ->
  deliveries db' = deliveries db -> audit db' = audit db ->
  revision_seq db <= revision_seq db' -> ledger_extends db db'.
Proof. intros Hc Ha Hr Hd Hau Hs. constructor; [by rewrite Hc|by rewrite Ha|by rewrite Hr|by rewrite Hd|by rewrite Hau|done]. Qed.

Lemma outbox_only_extends db db' : outbox_only db db' -> ledger_extends db db'.
Proof. intros [-> _]. by apply same_tables_extend. Qed.

(** ** The delivery log of an edge generation

    The sequence numbers of a log are exactly 1 .. next-1. *)
Record log_inv (db : DB) : Prop := {
  log_pos : forall key, 1 <= next_sequence db key;
  log_dense : forall key s, is_Some (deliveries db !! (key, s)) <-> 1 <= s < next_sequence db key;
  log_sequence : forall key s d, deliveries db !! (key, s) = Some d -> ed_Sequence d = s
}.

Lemma log_inv_fresh db key : log_inv db -> log_fresh db key.
Proof.
  intros [_ Hd _]. apply eq_None_not_Some. intros H%Hd. lia.
Qed.

Lemma log_frame db db' :
  sequences db' = sequences db -> deliveries db' = deliveries db -> log_inv db -> log_inv db'.
Proof.
  intros Hs Hd [Hp Hde Hse]. split.
  - intros key. unfold next_sequence. rewrite Hs. apply Hp.
  - intros key s. unfold next_sequence. rewrite Hs, Hd. apply Hde.
  - intros key s d. rewrite Hd. apply Hse.
Qed.

(** The one append both commits make. *)
Lemma log_append db db' key d :
  log_inv db -> ed_Sequence d = next_sequence db key ->
  sequences db' = <[key := next_sequence db key + 1]> (sequences db) ->
  deliveries db' = <[(key, next_sequence db key) := d]> (deliveries db) -> log_inv db'.
Proof.
  intros [Hp Hd Hs] Hseq Es Ed.
  assert (Hnext : forall k, next_sequence db' k =
    if decide (k = key) then next_sequence db key + 1 else next_sequence db k).
  { intros k. unfold next_sequence at 1. rewrite Es. destruct (decide (k = key)) as [->|].
    - by rewrite lookup_insert_eq.
    - by rewrite lookup_insert_ne. }
  split.
  - intros k. rewrite Hnext. specialize (Hp k) as Hk. specialize (Hp key). case_decide; lia.
  - intros k s. rewrite Hnext, Ed. destruct (decide (k = key)) as [->|Hk].
    + destruct (decide (s = next_sequence db key)) as [->|Hne].
      * rewrite lookup_insert_eq. specialize (Hp key). split; [lia|eauto].
      * rewrite lookup_insert_ne by congruence. rewrite Hd. lia.
    + rewrite lookup_insert_ne by congruence. apply Hd.
  - intros k s d'. rewrite Ed. intros [[[= <- <-] <-]|[_ H]]%lookup_insert_Some; [done|eauto].
Qed.

Lemma log_step db db' : ledger_step db db' -> log_inv db -> log_inv db'.
Proof.
  destruct 1 as [r t1 t2 db Ha|r c t db Ha|r db Ha|r reason db Hh|n db Hn|db db' [-> Ho]];
    intros Hl.
  - by apply (log_append db _ (case_key r)
      (case_delivery r (next_sequence db (case_key r)) (revision_seq db))).
  - by apply (log_append db _ (row_edge_key (ca_TenantID r) c)
      (advice_delivery r (next_sequence db (row_edge_key (ca_TenantID r) c)) (revision_seq db))).
  - by apply (log_frame db).
  - by apply (log_frame db).
  - by apply (log_frame db).
  - by apply (log_frame db).
Qed.

Lemma log_empty : log_inv empty_db.
Proof.
  split.
  - intros key. unfold next_sequence. cbn. by rewrite lookup_empty.
  - intros key s. unfold next_sequence. cbn. rewrite !lookup_empty. split; [by intros []|lia].
  - intros key s d. cbn. by rewrite lookup_empty.
Qed.

Lemma step_extends db db' : ledger_step db db' -> log_inv db -> ledger_extends db db'.
Proof.
  destruct 1; intros Hl.
  - apply add_case_extends; [done|by apply log_inv_fresh].
  - apply add_advice_extends; [done|by apply log_inv_fresh].
  - by apply add_registry_extends.
  - by apply same_tables_extend.
  - by apply same_tables_extend.
  - by apply outbox_only_extends.
Qed.

(** Rule induction over a run, with the log invariant at hand. *)
Lemma run_log db db' : rtc ledger_step db db' -> log_inv db -> log_inv db'.
Proof. induction 1; eauto using log_step. Qed.

Lemma run_extends db db' : rtc ledger_step db db' -> log_inv db -> ledger_extends db db'.
Proof.
  induction 1 as [|x y z Hxy Hyz IH]; intros Hl; [done|].
  etrans; [by apply step_extends|]. apply IH. by eapply log_step.
Qed.

(** ** Revisions

    Every stored fact has a revision already drawn, and no two cases, no two
    advices, no two registries, no two deliveries and no two audit rows share
    one. *)
Section Bounded.
Context {K V : Type} `{Countable K} (rev : V -> Z).

Definition bounded (m : gmap K V) (n : Z) : Prop :=
  forall k v, m !! k = Some v -> 1 <= rev v < n.
Definition one_each (m : gmap K V) : Prop :=
  forall k1 k2 v1 v2, m !! k1 = Some v1 -> m !! k2 = Some v2 -> rev v1 = rev v2 -> k1 = k2.

Lemma bounded_mono m n n' : n <= n' -> bounded m n -> bounded m n'.
Proof. intros Hn Hb k v Hv%Hb. lia. Qed.

Lemma bounded_insert m n k v :
  1 <= n -> rev v = n -> bounded m n -> bounded (<[k := v]> m) (n + 1).
Proof. intros ? Hv Hb k' v' [[<- <-]|[_ Hm%Hb]]%lookup_insert_Some; lia. Qed.

Lemma one_each_insert m n k v :
  rev v = n -> bounded m n -> one_each m -> one_each (<[k := v]> m).
Proof.
  intros Hv Hb Hu k1 k2 v1 v2 [[<- <-]|[_ H1]]%lookup_insert_Some
    [[<- <-]|[_ H2]]%lookup_insert_Some Heq; [done| | |by eapply Hu].
  - apply Hb in H2. lia.
  - apply Hb in H1. lia.
Qed.

Lemma bounded_empty n : bounded ∅ n.
Proof. intros k v Hv. by rewrite lookup_empty in Hv. Qed.
Lemma one_each_empty : one_each ∅.
Proof. intros k1 k2 v1 v2 Hv. by rewrite lookup_empty in Hv. Qed.
End Bounded.

Lemma bounded_list_snoc {A} (rev : A -> Z) l n a :
  1 <= n -> rev a = n -> Forall (fun a => 1 <= rev a < n) l ->
  Forall (fun a => 1 <= rev a < n + 1) (l ++ [a])%list.
Proof.
  intros H1 Ha Hl. apply Forall_app. split; [|apply Forall_singleton; lia].
  eapply Forall_impl; [exact Hl|]. cbn. lia.
Qed.

Lemma distinct_snoc {A} (rev : A -> Z) l n a :
  rev a = n -> Forall (fun a => 1 <= rev a < n) l -> NoDup (map rev l) ->
  NoDup (map rev (l ++ [a])%list).
Proof.
  intros Ha Hl Hn. rewrite map_app. apply NoDup_app. split_and!; [done| |apply NoDup_singleton].
  intros x Hx Hy. apply list_elem_of_In, in_map_iff in Hx as (b & Hb & Hin).
  apply list_elem_of_In in Hy as [Hy|[]].
  apply (proj1 (List.Forall_forall _ _) Hl) in Hin. lia.
Qed.

Record revision_inv (db : DB) : Prop := {
  rev_positive : 1 <= revision_seq db;
  rev_cases : bounded cs_AuthorityRevision (cases db) (revision_seq db);
  rev_advice : bounded av_CommitRevision (advice db) (revision_seq db);
  rev_registries : bounded rr_AuthorityRevision (registries db) (revision_seq db);
  rev_deliveries : bounded ed_AuthorityRevision (deliveries db) (revision_seq db);
  rev_outbox : bounded ob_AuthorityRevision (outbox db) (revision_seq db);
  rev_audit : Forall (fun a => 1 <= au_AuthorityRevision a < revision_seq db) (audit db);
  one_case : one_each cs_AuthorityRevision (cases db);
  one_advice : one_each av_CommitRevision (advice db);
  one_registry : one_each rr_AuthorityRevision (registries db);
  one_delivery : one_each ed_AuthorityRevision (deliveries db);
  one_audit : NoDup (map au_AuthorityRevision (audit db))
}.

Lemma bounded_outbox_only db db' n :
  outbox_only db db' -> bounded ob_AuthorityRevision (outbox db) n ->
  bounded ob_AuthorityRevision (outbox db') n.
Proof.
  intros [_ Ho] Hb id o Hid. specialize (Ho id). rewrite Hid in Ho.
  destruct (outbox db !! id) as [o'|] eqn:E; [|by inversion Ho].
  inversion Ho as [? ? (Hc & _)|]; subst. apply (f_equal (fun x => x.1.2)) in Hc. cbn in Hc.
  rewrite Hc. eauto.
Qed.

Lemma revision_frame db db' :
  cases db' = cases db -> advice db' = advice db -> registries db' = registries db ->
  deliveries db' = deliveries db -> audit db' = audit db -> outbox db' = outbox db ->
  revision_seq db <= revision_seq db' -> revision_inv db -> revision_inv db'.
Proof.
  intros Hc Ha Hr Hd Hau Ho Hs []. constructor; rewrite ?Hc, ?Ha, ?Hr, ?Hd, ?Hau, ?Ho;
    eauto using bounded_mono; [lia|].
  eapply Forall_impl; [done|]. cbn. lia.
Qed.

#[export] Hint Resolve bounded_insert one_each_insert bounded_list_snoc distinct_snoc : snag.

Lemma revision_step db db' : ledger_step db db' -> revision_inv db -> revision_inv db'.
Proof.
  assert (Hle : forall n, n <= n + 1) by lia.
  destruct 1 as [r t1 t2 db Ha|r c t db Ha|r db Ha|r reason db Hh|n db Hn|db db' Ho]; intros Hi.
  - destruct Hi. constructor; cbn; eauto using bounded_mono with snag; try lia.
    unfold add_outbox.
    intros id o [[<- <-]|[_ [[<- <-]|[_ Hin]]%lookup_insert_Some]]%lookup_insert_Some; cbn;
      [lia..|]. apply rev_outbox0 in Hin. lia.
  - destruct Hi. constructor; cbn; eauto using bounded_mono with snag; lia.
  - destruct Hi. constructor; cbn; eauto using bounded_mono with snag; lia.
  - by apply (revision_frame db).
  - by apply (revision_frame db).
  - pose proof (bounded_outbox_only _ _ (revision_seq db) Ho) as Hb. destruct Ho as [-> _].
    destruct Hi. constructor; cbn; auto.
Qed.

Lemma revision_empty : revision_inv empty_db.
Proof.
  constructor; cbn; auto using bounded_empty, one_each_empty; try lia; constructor.
Qed.

(** ** Facts and their deliveries

    A case is in the log of the edge that issued it; an advice exists only for
    a committed case, repeats that case's commitment and registry binding, and
    is in the log of the edge that issued the case; and a log holds nothing
    else. *)
Definition delivery_of_case (c : CaseRecord) (s : Z) : EdgeDelivery :=
  {| ed_Sequence := s; ed_Kind := "case"; ed_CaseID := cs_CaseID c;
     ed_EnvelopeID := cs_EnvelopeID c; ed_Commitment := cs_Commitment c; ed_Raw := cs_Raw c;
     ed_AuthorityRevision := cs_AuthorityRevision c |}.

Definition delivery_of_advice (caseID : string) (a : AdviceRow) : EdgeDelivery :=
  {| ed_Sequence := av_DeliverySequence a; ed_Kind := "advice"; ed_CaseID := caseID;
     ed_EnvelopeID := av_EnvelopeID a; ed_Commitment := av_Commitment a; ed_Raw := av_Raw a;
     ed_AuthorityRevision := av_CommitRevision a |}.

Definition case_fields_ok (c : CaseRecord) : Prop :=
  0 < cs_IssuerEdgeGeneration c /\ cs_TenantID c <> "" /\ cs_CaseID c <> "" /\
  cs_Domain c <> "" /\ cs_IssuerEdgeID c <> "" /\ len (cs_Raw c) <> 0.

Definition advice_binds (a : AdviceRow) (c : CaseRecord) : Prop :=
  av_CaseCommitment a = cs_Commitment c /\ av_RoutingEpoch a = cs_RoutingEpoch c /\
  av_RegistryRevision a = cs_RegistryRevision c /\ av_RegistryHash a = cs_RegistryHash c /\
  av_TargetEdgeID a = cs_IssuerEdgeID c /\
  av_TargetEdgeGeneration a = cs_IssuerEdgeGeneration c /\ len (av_Raw a) <> 0.

Record facts_inv (db : DB) : Prop := {
  facts_case : forall t id c, cases db !! (t, id) = Some c ->
    cs_TenantID c = t /\ cs_CaseID c = id /\ case_fields_ok c /\
    exists s, deliveries db !! (row_edge_key t c, s) = Some (delivery_of_case c s);
  facts_advice : forall t id a, advice db !! (t, id) = Some a ->
    exists c, cases db !! (t, id) = Some c /\ advice_binds a c /\
      deliveries db !! (row_edge_key t c, av_DeliverySequence a) = Some (delivery_of_advice id a) /\
      (exists s, s < av_DeliverySequence a /\
         deliveries db !! (row_edge_key t c, s) = Some (delivery_of_case c s));
  facts_delivery : forall t e g s d, deliveries db !! (t, e, g, s) = Some d ->
    exists c, cases db !! (t, ed_CaseID d) = Some c /\ row_edge_key t c = (t, e, g) /\
      (d = delivery_of_case c s \/
       exists a, advice db !! (t, ed_CaseID d) = Some a /\
         d = delivery_of_advice (ed_CaseID d) a)
}.

Lemma non_blank_nonempty s : non_blank s = true -> s <> "".
Proof. by intros H ->. Qed.

Lemma validate_case_fields r rev : validate_case r = Ok tt -> case_fields_ok (case_row r rev).
Proof.
  unfold validate_case, validText. intros H. inv_result. bools.
  split_and!; cbn; try lia; by apply non_blank_nonempty.
Qed.

Lemma validate_advice_raw r : validate_advice r = Ok tt -> len (ca_Raw r) <> 0.
Proof. unfold validate_advice. intros H. inv_result. by bools. Qed.

Lemma facts_frame db db' :
  cases db' = cases db -> advice db' = advice db -> deliveries db' = deliveries db ->
  facts_inv db -> facts_inv db'.
Proof.
  intros Hc Ha Hd [Fc Fa Fd]. split; rewrite ?Hc, ?Ha, ?Hd; auto.
Qed.

Lemma facts_add_case r t1 t2 db :
  admits_case r db -> log_fresh db (case_key r) -> facts_inv db ->
  facts_inv (add_case r t1 t2 db).
Proof.
  intros Had Hf [Fc Fa Fd].
  destruct (add_case_extends r t1 t2 db Had Hf) as [Ec _ _ Ed _ _].
  destruct Had as (Hv & Hnone & _). split.
  - intros t id c Hin. cbn in Hin. apply lookup_insert_Some in Hin as [[[= <- <-] <-]|[_ Hin]].
    + split_and!; [done..|by apply validate_case_fields|].
      exists (next_sequence db (case_key r)). cbn. apply lookup_insert_eq.
    + destruct (Fc _ _ _ Hin) as (? & ? & ? & s & Hs). split_and!; [done..|].
      exists s. by eapply lookup_weaken.
  - intros t id a Hin. destruct (Fa _ _ _ Hin) as (c & Hc & Hb & Hd & s & Hlt & Hs).
    exists c. split_and!; [by eapply lookup_weaken|done|by eapply lookup_weaken|].
    exists s. split; [done|by eapply lookup_weaken].
  - intros t e g s d Hin. cbn [deliveries add_case] in Hin.
    apply lookup_insert_Some in Hin as [[[= <- <- <- <-] <-]|[_ Hin]].
    + exists (case_row r (revision_seq db)). cbn. rewrite lookup_insert_eq.
      split_and!; [done..|]. by left.
    + destruct (Fd _ _ _ _ _ Hin) as (c & Hc & Hk & Hd).
      exists c. split_and!; [by eapply lookup_weaken|done|exact Hd].
Qed.

Lemma facts_add_advice r c0 t db :
  admits_advice r c0 db -> log_inv db -> facts_inv db -> facts_inv (add_advice r c0 t db).
Proof.
  intros Had Hl [Fc Fa Fd].
  pose proof (log_inv_fresh db (row_edge_key (ca_TenantID r) c0) Hl) as Hf.
  destruct (add_advice_extends r c0 t db Had Hf) as [_ Ea _ Ed _ _].
  destruct Had as (Hv & Hnone & _ & Hcase & Hb1 & Hb2 & Hb3 & Hb4 & _). split.
  - intros t' id c Hin. destruct (Fc _ _ _ Hin) as (? & ? & ? & s & Hs). split_and!; [done..|].
    exists s. by eapply lookup_weaken.
  - intros t' id a Hin. cbn [advice add_advice] in Hin.
    apply lookup_insert_Some in Hin as [[[= <- <-] <-]|[_ Hin]].
    + exists c0. split_and!; [done| |cbn; apply lookup_insert_eq|].
      * by split_and!; cbn; try done; apply validate_advice_raw.
      * destruct (Fc _ _ _ Hcase) as (_ & _ & _ & s & Hs). exists s.
        split; [|by eapply lookup_weaken]. cbn. apply (log_dense _ Hl). eauto.
    + destruct (Fa _ _ _ Hin) as (c & Hc & Hb & Hd & s & Hlt & Hs). exists c.
      split_and!; [done..|by eapply lookup_weaken|].
      exists s. split; [done|by eapply lookup_weaken].
  - intros t' e g s d Hin. cbn [deliveries add_advice] in Hin.
    apply lookup_insert_Some in Hin as [[[= <- <- <- <-] <-]|[_ Hin]].
    + exists c0. split_and!; [done..|]. right. eexists. cbn. rewrite lookup_insert_eq. by split.
    + destruct (Fd _ _ _ _ _ Hin) as (c & Hc & Hk & [Hd|(a & Ha & Hd)]).
      * exists c. split_and!; [done..|by left].
      * exists c. split_and!; [done..|]. right. exists a. split; [by eapply lookup_weaken|done].
Qed.

Lemma facts_step db db' : ledger_step db db' -> log_inv db -> facts_inv db -> facts_inv db'.
Proof.
  destruct 1 as [r t1 t2 db Ha|r c t db Ha|r db Ha|r reason db Hh|n db Hn|db db' [-> _]];
    intros Hl Hi.
  - apply facts_add_case; auto using log_inv_fresh.
  - by apply facts_add_advice.
  - by apply (facts_frame db).
  - by apply (facts_frame db).
  - by apply (facts_frame db).
  - by apply (facts_frame db).
Qed.

Lemma facts_empty : facts_inv empty_db.
Proof. split; cbn; intros *; rewrite lookup_empty; done. Qed.

(** ** The registry chain of a tenant *)
Record chain_inv (db : DB) : Prop := {
  chain_head : forall t h, heads db !! t = Some h ->
    exists g, registries db !! (t, rh_Revision h) = Some g /\
      rr_Commitment g = rh_Commitment h /\ rr_RoutingEpoch g = rh_RoutingEpoch h;
  chain_last : forall t n g, registries db !! (t, n) = Some g ->
    rr_TenantID g = t /\ rr_Revision g = n /\ 0 < n /\
    exists h, heads db !! t = Some h /\ n <= rh_Revision h;
  chain_link : forall t n g, registries db !! (t, n) = Some g ->
    (rr_PreviousCommitment g = "" /\ forall m, m < n -> registries db !! (t, m) = None) \/
    (exists p, registries db !! (t, n - 1) = Some p /\
       rr_PreviousCommitment g = rr_Commitment p);
  chain_marks : forall t e w, highwater db !! (t, e) = Some w ->
    0 < hw_HighestGeneration w /\
    exists h, heads db !! t = Some h /\ hw_LastSeenRevision w <= rh_Revision h
}.

Lemma mark_edges_lookup r edges ids : forall m t e,
  NoDup ids ->
  mark_edges r edges ids m !! (t, e) =
    if decide (t = cr_TenantID r /\ e ∈ ids /\ is_Some (edges !! e))
    then highwater_row r <$> edges !! e else m !! (t, e).
Proof.
  induction ids as [|i ids IH]; intros m t e Hnd; cbn [mark_edges].
  { rewrite decide_False; [done|]. set_solver. }
  apply NoDup_cons in Hnd as [Hi Hnd]. rewrite IH by done.
  destruct (decide (t = cr_TenantID r)) as [->|Ht].
  2:{ rewrite !decide_False by naive_solver.
      destruct (edges !! i); [|done]. apply lookup_insert_ne. congruence. }
  destruct (decide (e = i)) as [->|He].
  - rewrite decide_False by naive_solver.
    destruct (edges !! i) as [edge|] eqn:E.
    + rewrite decide_True by (split_and!; [done|by left|done]). by rewrite lookup_insert_eq.
    + rewrite decide_False; [done|]. intros (_ & _ & Hs). by rewrite is_Some_alt in Hs.
  - destruct (decide (cr_TenantID r = cr_TenantID r /\ e ∈ ids /\ is_Some (edges !! e))) as [H|H].
    + rewrite decide_True; [done|]. destruct H as (? & ? & ?). split_and!; [done|by right|done].
    + rewrite decide_False.
      2:{ intros (_ & Hin & Hs). apply H. apply elem_of_cons in Hin as [->|Hin]; done. }
      destruct (edges !! i); [|done]. apply lookup_insert_ne. congruence.
Qed.

(** The marks after a registry, edge by edge. *)
Lemma add_registry_marks r db t e :
  highwater (add_registry r db) !! (t, e) =
    match (if decide (t = cr_TenantID r) then request_edges r !! e else None) with
    | Some edge => Some (highwater_row r edge)
    | None => highwater db !! (t, e)
    end.
Proof.
  cbn. destruct (sortedKeys_spec (request_edges r)) as [Hnd Hk].
  rewrite mark_edges_lookup by done. destruct (decide (t = cr_TenantID r)) as [->|Ht].
  - destruct (request_edges r !! e) as [edge|] eqn:E.
    + rewrite decide_True; [done|]. split_and!; [done|apply Hk; eauto|eauto].
    + rewrite decide_False; [done|]. intros (_ & _ & []). congruence.
  - rewrite decide_False by naive_solver. done.
Qed.

Lemma validate_registry_edge r id edge :
  validate_registry r = Ok tt -> request_edges r !! id = Some edge -> 0 < re_Generation edge.
Proof.
  unfold validate_registry, request_edges. intros Hv Hid.
  destruct (_ || _) in Hv; [done|]. destruct (cr_Edges r) as [edges|]; [|done].
  apply first_err_ok in Hv. cbn in Hid. apply elem_of_map_to_list, list_elem_of_In in Hid.
  rewrite List.Forall_forall in Hv. specialize (Hv _ Hid). unfold edge_entry_ok in Hv.
  cbn in Hv. inv_result. bools. lia.
Qed.

Lemma validate_registry_revision r : validate_registry r = Ok tt -> 0 < cr_Revision r.
Proof.
  unfold validate_registry. intros Hv. destruct (_ || _) eqn:E in Hv; [done|]. bools. lia.
Qed.

(** A new registry stands above all registries of its tenant. *)
Lemma registry_above r db : admits_registry r db -> chain_inv db ->
  forall n g, registries db !! (cr_TenantID r, n) = Some g -> n < cr_Revision r.
Proof.
  intros (_ & Hh & _) Hi n g Hg. destruct (chain_last _ Hi _ _ _ Hg) as (_ & _ & _ & h & E & Hle).
  rewrite E in Hh. lia.
Qed.

Lemma chain_add r db : admits_registry r db -> chain_inv db -> chain_inv (add_registry r db).
Proof.
  intros Had Hi. pose proof (registry_above r db Had Hi) as Habove.
  destruct Had as (Hv & Hh & Hnone & Huniq & Hedges).
  destruct Hi as [Hhead Hlast Hlink Hmarks]. split.
  - intros t h Hin. cbn in Hin. apply lookup_insert_Some in Hin as [[<- <-]|[Hne Hin]].
    + cbn. rewrite lookup_insert_eq. eauto.
    + destruct (Hhead _ _ Hin) as (g & Hg & ?). exists g. cbn.
      rewrite lookup_insert_ne by congruence. done.
  - intros t n g Hin. cbn in Hin. apply lookup_insert_Some in Hin as [[[= <- <-] <-]|[Hne Hin]].
    + split_and!; [done..|by apply validate_registry_revision|]. cbn.
      rewrite lookup_insert_eq. eexists. split; [done|]. cbn. lia.
    + destruct (Hlast _ _ _ Hin) as (? & ? & ? & h & Hht & ?). split_and!; [done..|]. cbn.
      destruct (decide (t = cr_TenantID r)) as [->|Ht].
      * rewrite lookup_insert_eq. eexists. split; [done|]. cbn. apply Habove in Hin. lia.
      * rewrite lookup_insert_ne by congruence. eauto.
  - intros t n g Hin. cbn in Hin |- *.
    apply lookup_insert_Some in Hin as [[[= <- <-] <-]|[Hne Hin]].
    + destruct (heads db !! cr_TenantID r) as [h|] eqn:E.
      * right. destruct Hh as (_ & Hr & Hp). destruct (Hhead _ _ E) as (p & Hp' & Hc & _).
        exists p. rewrite lookup_insert_ne by (intros [=]; lia).
        replace (cr_Revision r - 1) with (rh_Revision h) by lia. split; [done|]. cbn. congruence.
      * left. split; [exact Hh|]. intros m Hm. rewrite lookup_insert_ne by (intros [=]; lia).
        apply eq_None_not_Some. intros [g Hg]. apply Hlast in Hg as (_ & _ & _ & h & ? & _).
        congruence.
    + destruct (Hlink _ _ _ Hin) as [[Hp Hm]|(p & Hp & Hc)].
      * left. split; [done|]. intros m Hlt. rewrite lookup_insert_ne; [auto|].
        intros [= <- E]. apply Habove in Hin. lia.
      * right. exists p. rewrite lookup_insert_ne; [done|]. intros [= <- E].
        apply Habove in Hp. lia.
  - intros t e w Hin. rewrite add_registry_marks in Hin. cbn.
    destruct (decide (t = cr_TenantID r)) as [->|Ht].
    + rewrite lookup_insert_eq. destruct (request_edges r !! e) as [edge|] eqn:E.
      * injection Hin as <-. split; [by eapply validate_registry_edge|]. eexists.
        split; [done|]. cbn. lia.
      * destruct (Hmarks _ _ _ Hin) as (? & h & Hht & Hle). split; [done|]. eexists.
        split; [done|]. cbn. rewrite Hht in Hh. lia.
    + rewrite lookup_insert_ne by done. by apply Hmarks in Hin.
Qed.

Lemma halt_head_lookup t0 reason db t :
  heads (halt_head t0 reason db) !! t =
    if decide (t = t0) then halted_head reason <$> heads db !! t else heads db !! t.
Proof.
  cbn. destruct (decide (t = t0)) as [->|].
  - apply lookup_alter_eq.
  - by apply lookup_alter_ne.
Qed.

(** Halting keeps the revision, commitment and epoch of the head. *)
Lemma halt_head_some t0 reason db t h :
  heads (halt_head t0 reason db) !! t = Some h ->
  exists h0, heads db !! t = Some h0 /\ rh_Revision h = rh_Revision h0 /\
    rh_Commitment h = rh_Commitment h0 /\ rh_RoutingEpoch h = rh_RoutingEpoch h0.
Proof.
  rewrite halt_head_lookup. destruct (decide _), (heads db !! t); cbn; naive_solver.
Qed.

Lemma halt_head_is_some t0 reason db t h0 :
  heads db !! t = Some h0 ->
  exists h, heads (halt_head t0 reason db) !! t = Some h /\ rh_Revision h = rh_Revision h0.
Proof. rewrite halt_head_lookup. intros ->. destruct (decide _); eauto. Qed.

Lemma chain_halt t0 reason db : chain_inv db -> chain_inv (halt_head t0 reason db).
Proof.
  intros [Hhead Hlast Hlink Hmarks]. split.
  - intros t h (h0 & Hh & -> & -> & ->)%halt_head_some. eauto.
  - intros t n g Hg. destruct (Hlast _ _ _ Hg) as (? & ? & ? & h & Hh & Hle).
    destruct (halt_head_is_some t0 reason _ _ _ Hh) as (h' & ? & E).
    split_and!; [done..|]. exists h'. split; [done|lia].
  - exact Hlink.
  - intros t e w Hw. destruct (Hmarks _ _ _ Hw) as (? & h & Hh & Hle).
    destruct (halt_head_is_some t0 reason _ _ _ Hh) as (h' & ? & E).
    split; [done|]. exists h'. split; [done|lia].
Qed.

Lemma chain_frame db db' :
  heads db' = heads db -> registries db' = registries db -> highwater db' = highwater db ->
  chain_inv db -> chain_inv db'.
Proof. intros Hh Hr Hw [H1 H2 H3 H4]. split; rewrite ?Hh, ?Hr, ?Hw; auto. Qed.

Lemma chain_step db db' : ledger_step db db' -> chain_inv db -> chain_inv db'.
Proof.
  destruct 1 as [r t1 t2 db Ha|r c t db Ha|r db Ha|r reason db Hh|n db Hn|db db' [-> _]].
  - by apply (chain_frame db).
  - by apply (chain_frame db).
  - by apply chain_add.
  - by apply chain_halt.
  - by apply (chain_frame db).
  - by apply (chain_frame db).
Qed.

Lemma chain_empty : chain_inv empty_db.
Proof. split; cbn; intros *; rewrite lookup_empty; done. Qed.

(** ** The transactional outbox *)
Definition outbox_id (o : OutboxRow) : string :=
  deterministicOutboxID (ob_TenantID o) (ob_EventKind o) (ob_EntityID o)
    (ob_AuthorityRevision o) (ob_DestinationKind o) (ob_DestinationKey o).

Definition destination (o : OutboxRow) : string * string :=
  (ob_DestinationKind o, ob_DestinationKey o).

Definition wake_route (c : CaseRecord) : string * string := ("domain_dispatch", cs_Domain c).

(** An outbox row is delivery work for a committed fact: the wake of a case's
    domain, or the delivery of a case or an advice to the issuing edge. *)
Definition outbox_source (db : DB) (o : OutboxRow) : Prop :=
  exists c, cases db !! (ob_TenantID o, ob_EntityID o) = Some c /\
    ((ob_EventKind o = "case" /\ ob_Raw o = cs_Raw c /\
      ob_AuthorityRevision o = cs_AuthorityRevision c /\
      (destination o = wake_route c \/ destination o = advice_route c)) \/
     (exists a, advice db !! (ob_TenantID o, ob_EntityID o) = Some a /\
        ob_EventKind o = "advice" /\ ob_Raw o = av_Raw a /\
        ob_AuthorityRevision o = av_CommitRevision a /\ destination o = advice_route c)).

Definition outbox_has (db : DB) (t kind id : string) (rev : Z) (d : string * string) : Prop :=
  is_Some (outbox db !! deterministicOutboxID t kind id rev d.1 d.2).

Record outbox_inv (db : DB) : Prop := {
  ob_rows : forall id o, outbox db !! id = Some o ->
    id = outbox_id o /\ row_wf o /\ outbox_source db o;
  ob_case_rows : forall t id c, cases db !! (t, id) = Some c ->
    outbox_has db t "case" id (cs_AuthorityRevision c) (wake_route c) /\
    outbox_has db t "case" id (cs_AuthorityRevision c) (advice_route c);
  ob_advice_rows : forall t id a c, advice db !! (t, id) = Some a ->
    cases db !! (t, id) = Some c ->
    outbox_has db t "advice" id (av_CommitRevision a) (advice_route c)
}.

Lemma fresh_row_wf t k e raw rev d now : row_wf (outbox_row t k e raw rev d now).
Proof.
  constructor; cbn; unfold maxOutboxAttempts.
  - lia.
  - split; [by intros []|lia].
  - done.
  - by intros [].
Qed.

(** A committed fact stays the source of its rows. *)
Lemma outbox_source_mono db db' o :
  cases db ⊆ cases db' -> advice db ⊆ advice db' -> outbox_source db o -> outbox_source db' o.
Proof.
  intros Hc Ha (c & Hin & [H|(a & Hin' & H)]).
  - exists c. split; [by eapply lookup_weaken|by left].
  - exists c. split; [by eapply lookup_weaken|]. right. exists a.
    split; [by eapply lookup_weaken|done].
Qed.

Lemma add_outbox_has t k e raw rev d now m id :
  is_Some (m !! id) -> is_Some (add_outbox t k e raw rev d now m !! id).
Proof. intros. unfold add_outbox. apply lookup_insert_is_Some'. by right. Qed.

Lemma add_outbox_self t k e raw rev d now m :
  is_Some (add_outbox t k e raw rev d now m !! deterministicOutboxID t k e rev d.1 d.2).
Proof. unfold add_outbox. rewrite lookup_insert_eq. eauto. Qed.

Lemma add_outbox_Some t k e raw rev d now m id o :
  add_outbox t k e raw rev d now m !! id = Some o ->
  (id = outbox_id o /\ o = outbox_row t k e raw rev d now) \/ m !! id = Some o.
Proof. unfold add_outbox. intros [[<- <-]|[_ H]]%lookup_insert_Some; [by left|by right]. Qed.
#[export] Hint Resolve add_outbox_has add_outbox_self fresh_row_wf : snag.

Lemma outbox_add_case r t1 t2 db :
  admits_case r db -> facts_inv db -> outbox_inv db -> outbox_inv (add_case r t1 t2 db).
Proof.
  intros (_ & Hnone & _) Hf [Hr Hc Ha].
  assert (Ec : cases db ⊆ cases (add_case r t1 t2 db)) by (by apply insert_subseteq).
  split.
  - intros id o Hin. cbn [outbox add_case] in Hin.
    assert (Hnew : forall d t', d = (case_routes r).1 \/ d = (case_routes r).2 ->
      outbox_source (add_case r t1 t2 db) (outbox_row (cc_TenantID r) "case" (cc_CaseID r)
        (cc_Raw r) (revision_seq db) d t')).
    { intros d t' Hd. exists (case_row r (revision_seq db)). cbn. rewrite lookup_insert_eq.
      split; [done|]. left. split_and!; [done..|]. destruct Hd as [->| ->]; [by left|by right]. }
    apply add_outbox_Some in Hin as [[-> ->]|Hin]; [auto with snag|].
    apply add_outbox_Some in Hin as [[-> ->]|Hin]; [auto with snag|].
    destruct (Hr _ _ Hin) as (? & ? & ?). split_and!; [done..|].
    by eapply (outbox_source_mono db).
  - intros t id c Hin. cbn in Hin. apply lookup_insert_Some in Hin as [[[= <- <-] <-]|[_ Hin]].
    + split; [apply add_outbox_has, add_outbox_self|apply add_outbox_self].
    + destruct (Hc _ _ _ Hin). split; by do 2 apply add_outbox_has.
  - intros t id a c Hin Hcase. cbn in Hin, Hcase.
    apply lookup_insert_Some in Hcase as [[[= <- <-] <-]|[_ Hcase]].
    + destruct (facts_advice _ Hf _ _ _ Hin) as (c & ? & _). congruence.
    + do 2 apply add_outbox_has. by eapply Ha.
Qed.

Lemma outbox_add_advice r c0 t db :
  admits_advice r c0 db -> outbox_inv db -> outbox_inv (add_advice r c0 t db).
Proof.
  intros (_ & Hnone & _ & Hcase & _) [Hr Hc Ha].
  assert (Ea : advice db ⊆ advice (add_advice r c0 t db)) by (by apply insert_subseteq).
  split.
  - intros id o Hin. cbn [outbox add_advice] in Hin.
    apply add_outbox_Some in Hin as [[-> ->]|Hin].
    + split_and!; [done|auto with snag|]. exists c0. split; [done|]. right. eexists. cbn.
      rewrite lookup_insert_eq. done.
    + destruct (Hr _ _ Hin) as (? & ? & ?). split_and!; [done..|].
      by eapply (outbox_source_mono db).
  - intros t' id c Hin. destruct (Hc _ _ _ Hin). split; by apply add_outbox_has.
  - intros t' id a c Hin Hcase'. cbn in Hin.
    apply lookup_insert_Some in Hin as [[[= <- <-] <-]|[_ Hin]].
    + assert (c = c0) as -> by (cbn in Hcase'; congruence). apply add_outbox_self.
    + apply add_outbox_has. by eapply Ha.
Qed.

Lemma outbox_frame db db' :
  cases db' = cases db -> advice db' = advice db -> outbox_only db (set_outbox (outbox db') db) ->
  outbox_inv db -> outbox_inv db'.
Proof.
  intros Ec Ea [_ Ho] [Hr Hc Ha]. cbn in Ho.
  assert (Hsome : forall id, is_Some (outbox db !! id) -> is_Some (outbox db' !! id)).
  { intros id [o Hin]. specialize (Ho id). rewrite Hin in Ho. inversion Ho; eauto. }
  split.
  - intros id o' Hin. specialize (Ho id). rewrite Hin in Ho.
    destruct (outbox db !! id) as [o|] eqn:E; [|by inversion Ho].
    inversion Ho as [? ? (Hcon & _ & _ & Hwf) E1 E2|]; subst.
    destruct (Hr _ _ E) as (Hid & ? & Hsrc). unfold row_content in Hcon. injection Hcon as
      Et Ek Ee Edk Edd Eraw Erev _.
    unfold outbox_id, outbox_source, destination in *.
    rewrite Et, Ek, Ee, Edk, Edd, Eraw, Erev, Ec, Ea. auto.
  - intros t id c Hin. rewrite Ec in Hin. destruct (Hc _ _ _ Hin). split; by apply Hsome.
  - intros t id a c Hin Hcase. rewrite Ea in Hin. rewrite Ec in Hcase. apply Hsome. by eapply Ha.
Qed.

Lemma outbox_step db db' : ledger_step db db' -> facts_inv db -> outbox_inv db -> outbox_inv db'.
Proof.
  assert (Hsame : forall db db', outbox db' = outbox db ->
    outbox_only db (set_outbox (outbox db') db)).
  { intros d d' E. rewrite E. replace (set_outbox (outbox d) d) with d by (by destruct d).
    apply outbox_only_refl. }
  destruct 1 as [r t1 t2 db Ha|r c t db Ha|r db Ha|r reason db Hh|n db Hn|db db' Ho]; intros Hf Hi.
  - by apply outbox_add_case.
  - by apply outbox_add_advice.
  - apply (outbox_frame db); auto.
  - apply (outbox_frame db); auto.
  - apply (outbox_frame db); auto.
  - destruct Ho as [E Ho]. apply (outbox_frame db); [by rewrite E..| |done]. by rewrite <- E.
Qed.

Lemma outbox_empty : outbox_inv empty_db.
Proof. split; cbn; intros *; rewrite lookup_empty; done. Qed.
