(* ===== verification/AuthorityTheorems.v ===== *)
(** * What the authority promises

    The theorems about the PostgreSQL authority, on whole commits with their
    retries, faults and interference ([CommitCase], [CommitAdvice],
    [CommitRegistry]) and on every reachable ledger. *)
From S2P Require Import Prelude GoText GoTime Sha256 DeliveryStream Authority PgTx AuthorityStore OutboxWorker AuthorityOutbox AuthoritySpec AuthorityInv.
From stdpp Require Import sorting.
Open Scope string_scope.
Open Scope Z_scope.
Open Scope snag_scope.

(** ** The combined invariant *)
Record ledger_inv (db : DB) : Prop := {
  inv_log : log_inv db;
  inv_revision : revision_inv db;
  inv_facts : facts_inv db;
  inv_chain : chain_inv db;
  inv_outbox : outbox_inv db
}.

Lemma ledger_inv_empty : ledger_inv empty_db.
Proof.
  split; auto using log_empty, revision_empty, facts_empty, chain_empty, outbox_empty.
Qed.

Lemma ledger_inv_step db db' : ledger_step db db' -> ledger_inv db -> ledger_inv db'.
Proof.
  intros Hs []. split; eauto using log_step, revision_step, facts_step, chain_step, outbox_step.
Qed.

Lemma ledger_inv_run db db' : rtc ledger_step db db' -> ledger_inv db -> ledger_inv db'.
Proof. induction 1; eauto using ledger_inv_step. Qed.

Lemma ledger_inv_reachable db : ledger_reachable db -> ledger_inv db.
Proof. intros H. eapply ledger_inv_run; [exact H|apply ledger_inv_empty]. Qed.

Lemma reachable_run db db' : ledger_reachable db -> rtc ledger_step db db' -> ledger_reachable db'.
Proof. unfold ledger_reachable. intros H1 H2. by etrans. Qed.

(** ** One attempt is one step of the ledger *)
Lemma ledger_same db : ledger_step db db.
Proof.
  replace db with (set_revision_seq (revision_seq db) db) at 2 by (by destruct db).
  apply LRevision. lia.
Qed.

Section Commit.
Context (authorityID : string).

Lemma attempt_case r label ae db db' v :
  validate_case r = Ok tt ->
  attempt label (commitCaseWork authorityID r) ae db = (db', v) -> ledger_step db db'.
Proof.
  intros Hv H. apply attempt_db in H as [(n & Hn & ->)|(n & [rc we] & H)].
  - by apply LRevision.
  - apply commitCaseWork_ok in H as [_ [[-> _]|(Ha & t1 & t2 & -> & _)]];
      [apply ledger_same|by apply LCase|done].
  - apply grows_case.
Qed.

Lemma attempt_advice r label ae db db' v :
  validate_advice r = Ok tt ->
  attempt label (commitAdviceWork authorityID r) ae db = (db', v) -> ledger_step db db'.
Proof.
  intros Hv H. apply attempt_db in H as [(n & Hn & ->)|(n & [rc we] & H)].
  - by apply LRevision.
  - apply commitAdviceWork_ok in H as [_ [[-> _]|(c & Ha & t & -> & _)]];
      [apply ledger_same|by apply LAdvice|done].
  - apply grows_advice.
Qed.

Lemma attempt_registry r label ae db db' v :
  validate_registry r = Ok tt ->
  attempt label (commitRegistryWork authorityID r) ae db = (db', v) -> ledger_step db db'.
Proof.
  intros Hv H. apply attempt_db in H as [(n & Hn & ->)|(n & [rc we] & H)].
  - by apply LRevision.
  - apply commitRegistryWork_ok in H as [(_ & -> & _)|[(_ & reason & Hh & ->)|(_ & Ha & -> & _)]];
      [apply ledger_same|by eapply LHalt|by apply LRegistry|done].
  - apply grows_registry.
Qed.

(** The retry loop, for any closure whose attempts are steps of [R]. *)
Lemma attempts_run (R : relation DB) label work envs others :
  (forall k db, rtc R db (others k db)) ->
  (forall ae db db' v, attempt label work ae db = (db', v) -> R db db') ->
  forall n k db, rtc R db (attempts n k label work envs others db).1.
Proof.
  intros Ho Hw n. induction n as [|n IH]; intros k db; cbn [attempts]; [done|].
  destruct (attempt label work (envs k) (others k db)) as [db' [r|]] eqn:E.
  - etrans; [apply Ho|]. apply rtc_once. by eapply Hw.
  - etrans; [apply Ho|]. eapply rtc_l; [by eapply Hw|]. apply IH.
Qed.

End Commit.

(** ** Runs of the store

    One step is one attempt of one commit, by any caller, in any environment,
    or one call of the outbox; attempts are serializable, so concurrent callers
    interleave by whole attempts. *)
Inductive store_step : DB -> DB -> Prop :=
| SCase authorityID r ae db : validate_case r = Ok tt ->
    store_step db (attempt "case" (commitCaseWork authorityID r) ae db).1
| SAdvice authorityID r ae db : validate_advice r = Ok tt ->
    store_step db (attempt "advice" (commitAdviceWork authorityID r) ae db).1
| SRegistry authorityID r ae db : validate_registry r = Ok tt ->
    store_step db (attempt "registry" (commitRegistryWork authorityID r) ae db).1
| SClaim owner limit lease ce db : store_step db (StoreClaim owner limit lease ce db).1
| SMarkPublished id token ex db : store_step db (StoreMarkPublished id token ex db).1
| SRelease id token retryAt reason ex db :
    store_step db (StoreRelease id token retryAt reason ex db).1.

Definition store_reachable : DB -> Prop := rtc store_step empty_db.

Lemma store_step_ledger db db' : store_step db db' -> ledger_step db db'.
Proof.
  intros [a r ae d Hv|a r ae d Hv|a r ae d Hv|o l le ce d|id tok ex d|id tok rt re ex d].
  - eapply attempt_case; [done|apply surjective_pairing].
  - eapply attempt_advice; [done|apply surjective_pairing].
  - eapply attempt_registry; [done|apply surjective_pairing].
  - apply LOutbox, StoreClaim_only.
  - apply LOutbox, StoreMarkPublished_only.
  - apply LOutbox, StoreRelease_only.
Qed.

Lemma store_run_ledger db db' : rtc store_step db db' -> rtc ledger_step db db'.
Proof. intros H. eapply rtc_subrel; [|exact H]. apply store_step_ledger. Qed.

Lemma store_reachable_ledger db : store_reachable db -> ledger_reachable db.
Proof. apply store_run_ledger. Qed.

Lemma store_reachable_inv db : store_reachable db -> ledger_inv db.
Proof. intros H. by apply ledger_inv_reachable, store_run_ledger. Qed.

Section Calls.
Context (authorityID : string) (envs : nat -> AttemptEnv) (others : nat -> DB -> DB).
Context (Hothers : forall k d, rtc store_step d (others k d)).

Lemma CommitCase_run r db : rtc store_step db (CommitCase authorityID r envs others db).1.
Proof using Hothers.
  unfold CommitCase, transaction. destruct (validate_case r) as [[]|] eqn:Hv; [|done].
  apply attempts_run; [done|]. intros ae d d' v E. pose proof (SCase authorityID r ae d Hv) as Hs.
  by rewrite E in Hs.
Qed.

Lemma CommitAdvice_run r db : rtc store_step db (CommitAdvice authorityID r envs others db).1.
Proof using Hothers.
  unfold CommitAdvice, transaction. destruct (validate_advice r) as [[]|] eqn:Hv; [|done].
  apply attempts_run; [done|]. intros ae d d' v E. pose proof (SAdvice authorityID r ae d Hv) as Hs.
  by rewrite E in Hs.
Qed.

Lemma CommitRegistry_run r db : rtc store_step db (CommitRegistry authorityID r envs others db).1.
Proof using Hothers.
  unfold CommitRegistry, transaction. destruct (validate_registry r) as [[]|] eqn:Hv; [|done].
  apply attempts_run; [done|]. intros ae d d' v E. pose proof (SRegistry authorityID r ae d Hv) as Hs.
  by rewrite E in Hs.
Qed.
End Calls.

(** C1: the store refines the abstract ledger.  Whatever statements fail,
    however often an attempt is retried, even when a COMMIT is reported failed
    but was applied, and whatever other calls interleave between the attempts,
    each of the three commits is a run of attempts, and every attempt and every
    outbox call is one transition of the ledger (or only draws a revision); so
    every database the store can produce is a reachable ledger. *)
Theorem store_refines_ledger authorityID envs others db :
  (forall k d, rtc store_step d (others k d)) ->
  (forall r, rtc store_step db (CommitCase authorityID r envs others db).1) /\
  (forall r, rtc store_step db (CommitAdvice authorityID r envs others db).1) /\
  (forall r, rtc store_step db (CommitRegistry authorityID r envs others db).1) /\
  (forall d d', store_step d d' -> ledger_step d d') /\
  (store_reachable db -> ledger_reachable db).
Proof.
  intros Ho. split_and!; [intros r..| |].
  - by apply CommitCase_run.
  - by apply CommitAdvice_run.
  - by apply CommitRegistry_run.
  - apply store_step_ledger.
  - apply store_reachable_ledger.
Qed.

(** ** Invariants as theorems *)

(** C2: the ledger is append-only.  Along any run, no committed case, advice,
    registry or delivery row is changed or removed, and the audit log only
    gets longer. *)
Theorem ledger_append_only db db' :
  store_reachable db -> rtc store_step db db' -> ledger_extends db db'.
Proof.
  intros Hr Hrun%store_run_ledger. apply run_extends; [done|]. by apply inv_log, store_reachable_inv.
Qed.

(** C3: the delivery log of an edge generation has no gap and no duplicate.
    In every reachable store the sequence numbers present are exactly
    1 .. next-1, each row carries its own number, each row is the exact bytes
    of a committed case or advice issued by that edge generation, and no two
    rows of the table share an authority revision. *)
Theorem delivery_log_contiguous db t e g s :
  store_reachable db ->
  (is_Some (deliveries db !! (t, e, g, s)) <-> 1 <= s < next_sequence db (t, e, g)) /\
  (forall d, deliveries db !! (t, e, g, s) = Some d ->
     ed_Sequence d = s /\
     (exists c, cases db !! (t, ed_CaseID d) = Some c /\ row_edge_key t c = (t, e, g) /\
        (d = delivery_of_case c s \/
         exists a, advice db !! (t, ed_CaseID d) = Some a /\
           d = delivery_of_advice (ed_CaseID d) a)) /\
     (forall k d', deliveries db !! k = Some d' ->
        ed_AuthorityRevision d' = ed_AuthorityRevision d -> k = (t, e, g, s))).
Proof.
  intros Hr. apply store_reachable_inv in Hr as [[_ Hd Hs] [] [_ _ Hf] _ _].
  split; [apply Hd|]. intros d Hin. split_and!; eauto.
Qed.

(** C4: a case has at most one final advice, and it is bound to the case.  In
    every reachable store an advice row has its case; it repeats the case's
    commitment, routing epoch, registry revision and registry hash; it is
    addressed to the edge generation that issued the case; and it is in that
    edge's log under the recorded sequence number, after the case itself. *)
Theorem final_advice_bound db t id a :
  store_reachable db -> advice db !! (t, id) = Some a ->
  exists c s, cases db !! (t, id) = Some c /\ advice_binds a c /\
    deliveries db !! (t, cs_IssuerEdgeID c, cs_IssuerEdgeGeneration c, s) =
      Some (delivery_of_case c s) /\
    deliveries db !! (t, cs_IssuerEdgeID c, cs_IssuerEdgeGeneration c, av_DeliverySequence a) =
      Some (delivery_of_advice id a) /\
    s < av_DeliverySequence a.
Proof.
  intros Hr Hin. apply store_reachable_inv in Hr as [_ _ [Fc Fa _] _ _].
  destruct (Fa _ _ _ Hin) as (c & Hc & Hb & Hd & s & Hlt & Hs). exists c, s. by split_and!.
Qed.

(** C5: the registry chain is a hash chain with one head.  In every reachable
    store the head names the stored registry with the highest revision, with
    its commitment and routing epoch; every other registry is linked from its
    successor by commitment; and the revisions have no gap below the head down
    to the first registry, the only one without a predecessor. *)
Theorem registry_hash_chain db t h :
  store_reachable db -> heads db !! t = Some h ->
  (exists g, registries db !! (t, rh_Revision h) = Some g /\
     rr_Commitment g = rh_Commitment h /\ rr_RoutingEpoch g = rh_RoutingEpoch h) /\
  (forall n g, registries db !! (t, n) = Some g ->
     0 < n <= rh_Revision h /\
     ((rr_PreviousCommitment g = "" /\ forall m, m < n -> registries db !! (t, m) = None) \/
      (exists p, registries db !! (t, n - 1) = Some p /\
         rr_PreviousCommitment g = rr_Commitment p))).
Proof.
  intros Hr Hh. apply store_reachable_inv in Hr as [_ _ _ [Hhead Hlast Hlink _] _].
  split; [eauto|]. intros n g Hg. split; [|eauto].
  destruct (Hlast _ _ _ Hg) as (_ & _ & ? & h' & ? & ?). simplify_eq. lia.
Qed.

(** ** Halting *)
Definition tenant_frozen (t : string) (h : RegistryHead) (db db' : DB) : Prop :=
  heads db' !! t = Some h /\
  (forall id, cases db' !! (t, id) = cases db !! (t, id)) /\
  (forall id, advice db' !! (t, id) = advice db !! (t, id)) /\
  (forall n, registries db' !! (t, n) = registries db !! (t, n)) /\
  (forall e, highwater db' !! (t, e) = highwater db !! (t, e)).

Lemma halted_step t h db db' :
  heads db !! t = Some h -> rh_Halted h = true -> ledger_step db db' -> tenant_frozen t h db db'.
Proof.
  intros Hh Hhalt Hs. destruct Hs as [r t1 t2 db Ha|r c t' db Ha|r db Ha|r reason db Hr|n db Hn|db db' [-> Ho]].
  - destruct Ha as (_ & _ & (h' & Hh' & Hn & _) & _).
    assert (t <> cc_TenantID r) by (intros ->; congruence).
    split_and!; cbn; try done. intros id. by rewrite lookup_insert_ne by congruence.
  - destruct Ha as (_ & _ & (h' & Hh' & Hn) & _).
    assert (t <> ca_TenantID r) by (intros ->; congruence).
    split_and!; cbn; try done. intros id. by rewrite lookup_insert_ne by congruence.
  - assert (Hne : t <> cr_TenantID r).
    { intros ->. destruct Ha as (_ & Hx & _). rewrite Hh in Hx. naive_solver congruence. }
    split_and!; try done.
    + cbn. by rewrite lookup_insert_ne by congruence.
    + intros n. cbn. by rewrite lookup_insert_ne by congruence.
    + intros e. rewrite add_registry_marks. by rewrite decide_False by done.
  - assert (Hne : t <> cr_TenantID r).
    { intros ->. destruct Hr as (_ & h' & Hx & Hn & _). congruence. }
    split_and!; try done. rewrite halt_head_lookup. by rewrite decide_False by done.
  - by split_and!.
  - by split_and!.
Qed.

Lemma halted_run t h db db' :
  heads db !! t = Some h -> rh_Halted h = true -> rtc ledger_step db db' ->
  tenant_frozen t h db db'.
Proof.
  intros Hh Hhalt Hrun. induction Hrun as [db|db d2 d3 Hs Hrun IH]; [by split_and!|].
  destruct (halted_step t h _ _ Hh Hhalt Hs) as (H1 & H2 & H3 & H4 & H5).
  destruct (IH H1) as (G1 & G2 & G3 & G4 & G5).
  split_and!; [done|intros; etrans; eauto..].
Qed.

(** The registry commit on a halted tenant, when nothing fails. *)
Lemma commitRegistry_halted authorityID r now others db h :
  validate_registry r = Ok tt -> others O db = db -> heads db !! cr_TenantID r = Some h ->
  rh_Halted h = true ->
  CommitRegistry authorityID r (fun _ => calm now) others db = (db, Err ErrRegistryHalted).
Proof.
  intros Hv Ho Hh Hhalt. unfold CommitRegistry, transaction. rewrite Hv. cbn [attempts transactionAttempts].
  rewrite Ho. unfold attempt, commitRegistryWork. cbn [ae_begin calm].
  unfold mbind, tx_bind, registryHeadForUpdate, query, statement. cbn. rewrite Hh. cbn.
  rewrite Hhalt. cbn. by destruct db.
Qed.

(** A halt is sticky and stops the tenant.  Once a tenant's registry head
    is halted, in every later ledger the head is still that halted row, and
    the tenant's cases, advices, registries and edge generations are exactly
    what they were; a further registry is refused as halted. *)
Theorem halt_is_sticky authorityID t h db db' :
  heads db !! t = Some h -> rh_Halted h = true -> rtc store_step db db' ->
  tenant_frozen t h db db' /\
  (forall r now, validate_registry r = Ok tt -> cr_TenantID r = t ->
     CommitRegistry authorityID r (fun _ => calm now) (fun _ d => d) db' =
       (db', Err ErrRegistryHalted)).
Proof.
  intros Hh Hhalt Hrun%store_run_ledger. pose proof (halted_run _ _ _ _ Hh Hhalt Hrun) as Hf.
  split; [done|]. intros r now Hv <-. eapply commitRegistry_halted; [done..| |exact Hhalt].
  apply Hf.
Qed.

(** ** Edge generations *)
Lemma marks_step db db' t e w :
  ledger_step db db' -> highwater db !! (t, e) = Some w ->
  exists w', highwater db' !! (t, e) = Some w' /\
    (w' = w \/
     hw_HighestGeneration w < hw_HighestGeneration w' \/
     (hw_HighestGeneration w = hw_HighestGeneration w' /\ hw_PrincipalID w' = hw_PrincipalID w /\
      exists h, heads db !! t = Some h /\ hw_LastSeenRevision w = rh_Revision h)).
Proof.
  intros Hs Hw. destruct Hs as [r t1 t2 db Ha|r c t' db Ha|r db Ha|r reason db Hr|n db Hn|db db' [-> Ho]];
    try (exists w; by auto).
  rewrite add_registry_marks. destruct (decide (t = cr_TenantID r)) as [->|]; [|by eauto].
  destruct (request_edges r !! e) as [edge|] eqn:He; [|by eauto].
  destruct Ha as (_ & _ & _ & _ & Hedges). specialize (Hedges _ _ He). rewrite Hw in Hedges.
  eexists. split; [done|]. right. cbn.
  destruct Hedges as [Hlt|(Heq & Hp & h & Hh & Hls)]; [by left|right; eauto].
Qed.

Lemma heads_step db db' t h :
  ledger_step db db' -> heads db !! t = Some h ->
  exists h', heads db' !! t = Some h' /\ rh_Revision h <= rh_Revision h'.
Proof.
  intros Hs Hh. destruct Hs as [r t1 t2 db Ha|r c t' db Ha|r db Ha|r reason db Hr|n db Hn|db db' [-> Ho]];
    try (exists h; cbn; split; [done|lia]).
  - cbn. destruct (decide (t = cr_TenantID r)) as [->|].
    + rewrite lookup_insert_eq. eexists. split; [done|]. cbn.
      destruct Ha as (_ & Hx & _). rewrite Hh in Hx. lia.
    + rewrite lookup_insert_ne by done. exists h. split; [done|lia].
  - destruct (halt_head_is_some (cr_TenantID r) reason _ _ _ Hh) as (h' & ? & E).
    exists h'. split; [done|lia].
Qed.

(** Edge generations never roll back.  Along any run the highest
    generation of an edge never decreases, and while it stays the same the
    principal behind it stays the same.  An edge that the current registry no
    longer names is retired for good: it can only come back under a strictly
    higher generation. *)
Theorem edge_generation_high_water db db' t e w :
  rtc store_step db db' -> highwater db !! (t, e) = Some w ->
  exists w', highwater db' !! (t, e) = Some w' /\
    (hw_HighestGeneration w < hw_HighestGeneration w' \/
     (hw_HighestGeneration w = hw_HighestGeneration w' /\
      hw_PrincipalID w' = hw_PrincipalID w)) /\
    (forall h, heads db !! t = Some h -> hw_LastSeenRevision w < rh_Revision h ->
       w' = w \/ hw_HighestGeneration w < hw_HighestGeneration w').
Proof.
  intros Hrun%store_run_ledger. revert w. induction Hrun as [db|db d2 d3 Hs Hrun IH]; intros w Hw.
  { exists w. split_and!; auto. }
  destruct (marks_step _ _ _ _ _ Hs Hw) as (w2 & Hw2 & Hcase).
  destruct (IH _ Hw2) as (w3 & Hw3 & Hm & Hret). exists w3. split; [done|]. split.
  - destruct Hcase as [->|[Hlt|(Heq & Hp & _)]]; [done|left; lia|].
    destruct Hm as [|[? ?]]; [left; lia|right; split; [lia|congruence]].
  - intros h Hh Hlt. destruct Hcase as [->|[Hgt|(_ & _ & h' & ? & ?)]].
    + destruct (heads_step _ _ _ _ Hs Hh) as (h2 & Hh2 & Hle). eapply Hret; [done|lia].
    + right. lia.
    + simplify_eq. lia.
Qed.

(** ** Errors change nothing *)
Definition applied_anyway (f : CommitFate) : bool :=
  match f with CommitError _ true => true | _ => false end.

Lemma attempt_failed label work ae db db' v :
  Grows work ->
  (forall env n d rc we, work env (O, db) = ((n, d), Ok (rc, we)) -> we = None) ->
  applied_anyway (ae_commit ae) = false ->
  attempt label work ae db = (db', v) -> (forall rc, v <> Done (Ok rc)) ->
  exists n, revision_seq db <= n /\ db' = set_revision_seq n db.
Proof.
  intros Hg Hnone Happ H Hv. unfold attempt in H. destruct (ae_begin ae).
  { injection H as <- _. exists (revision_seq db). split; [lia|]. by destruct db. }
  pose proof (Hg (ae_env ae) (O, db)) as Hle.
  destruct (work (ae_env ae) (O, db)) as [[n d] [[rc we]|e]] eqn:E; cbn in Hle.
  - apply Hnone in E as ->. destruct (ae_commit ae) as [|pe []]; [|done|].
    + injection H as _ <-. by destruct (Hv rc).
    + destruct (pg_retryable pe); injection H as <- _; unfold rollback; eauto.
  - injection H as <- _. unfold rollback. eauto.
Qed.

Lemma attempts_failed label work envs :
  Grows work ->
  (forall env db n d rc we, work env (O, db) = ((n, d), Ok (rc, we)) -> we = None) ->
  (forall k, applied_anyway (ae_commit (envs k)) = false) ->
  forall n k db db' e, attempts n k label work envs (fun _ d => d) db = (db', Err e) ->
    exists m, revision_seq db <= m /\ db' = set_revision_seq m db.
Proof.
  intros Hg Hnone Happ n. induction n as [|n IH]; intros k db db' e H; cbn [attempts] in H.
  { injection H as <- _. exists (revision_seq db). split; [lia|]. by destruct db. }
  destruct (attempt label work (envs k) db) as [d v] eqn:E.
  assert (Hv : (forall rc, v <> Done (Ok rc))) by (intros rc ->; done).
  destruct (attempt_failed _ _ _ _ _ _ Hg (fun env => Hnone env db) (Happ k) E Hv) as (m & Hm & ->).
  destruct v as [r|].
  - injection H as <- _. eauto.
  - destruct (IH _ _ _ _ H) as (m' & Hm' & ->). cbn in Hm'. exists m'. split; [lia|done].
Qed.

(** A case or advice that is not committed leaves no trace.  When the
    commit returns an error (a validation error, a conflict, an injected
    PostgreSQL error at any statement, exhausted retries) and no COMMIT was
    applied behind a reported failure, every table is exactly what it was;
    only the identity sequence of revisions may have advanced. *)
Theorem failed_commit_changes_nothing authorityID envs db :
  (forall k, applied_anyway (ae_commit (envs k)) = false) ->
  (forall r db' e, CommitCase authorityID r envs (fun _ d => d) db = (db', Err e) ->
     exists n, revision_seq db <= n /\ db' = set_revision_seq n db) /\
  (forall r db' e, CommitAdvice authorityID r envs (fun _ d => d) db = (db', Err e) ->
     exists n, revision_seq db <= n /\ db' = set_revision_seq n db).
Proof.
  intros Happ.
  assert (Hsame : exists n, revision_seq db <= n /\ db = set_revision_seq n db).
  { exists (revision_seq db). split; [lia|]. by destruct db. }
  unfold CommitCase, CommitAdvice, transaction. split; intros r db' e H.
  - destruct (validate_case r) as [[]|] eqn:Hv; [|by injection H as <- _].
    eapply attempts_failed in H; eauto using grows_case.
    intros env d n d' rc we Hw. by apply commitCaseWork_ok in Hw as [-> _].
  - destruct (validate_advice r) as [[]|] eqn:Hv; [|by injection H as <- _].
    eapply attempts_failed in H; eauto using grows_advice.
    intros env d n d' rc we Hw. by apply commitAdviceWork_ok in Hw as [-> _].
Qed.

(** ** Receipts *)
Lemma attempt_done label work ae db db' rc :
  attempt label work ae db = (db', Done (Ok rc)) ->
  exists n, work (ae_env ae) (O, db) = ((n, db'), Ok (rc, None)).
Proof.
  unfold attempt. destruct (ae_begin ae); [done|].
  destruct (work (ae_env ae) (O, db)) as [[n d] [[rc' we]|e]].
  - destruct (ae_commit ae) as [|pe applied]; [|by destruct (pg_retryable pe)].
    destruct we; intros H; injection H as <- E; [done|]. subst. eauto.
  - by destruct (retryable e || _).
Qed.

Lemma attempts_done label work envs others :
  (forall k db, rtc ledger_step db (others k db)) ->
  (forall ae db db' v, attempt label work ae db = (db', v) -> ledger_step db db') ->
  forall n k db db' rc, attempts n k label work envs others db = (db', Ok rc) ->
    exists ae d m, rtc ledger_step db d /\ work (ae_env ae) (O, d) = ((m, db'), Ok (rc, None)).
Proof.
  intros Ho Hw n. induction n as [|n IH]; intros k db db' rc H; cbn [attempts] in H; [done|].
  destruct (attempt label work (envs k) (others k db)) as [d [r|]] eqn:E.
  - injection H as <- ->. destruct (attempt_done _ _ _ _ _ _ E) as (m & Hm).
    exists (envs k), (others k db), m. by split.
  - apply Hw in E. destruct (IH _ _ _ _ H) as (ae & d' & m & Hr & Hm). exists ae, d', m.
    split; [|done]. etrans; [apply Ho|]. by eapply rtc_l.
Qed.

Section Receipts.
Context (authorityID : string) (envs : nat -> AttemptEnv) (others : nat -> DB -> DB).
Context (Hothers : forall k d, rtc ledger_step d (others k d)).

Lemma withAuthority_positive rc : 1 <= r_Revision rc ->
  withAuthority authorityID rc =
    receipt authorityID (r_Revision rc) (r_EnvelopeID rc) (r_Commitment rc).
Proof. intros H. unfold withAuthority. by rewrite (proj2 (Z.ltb_lt _ _)) by lia. Qed.

Lemma CommitCase_ok r db db' rc :
  ledger_reachable db -> CommitCase authorityID r envs others db = (db', Ok rc) ->
  ledger_reachable db' /\
  exists c, cases db' !! (cc_TenantID r, cc_CaseID r) = Some c /\ case_replayed r c /\
    rc = receipt authorityID (cs_AuthorityRevision c) (cc_EnvelopeID r) (cc_Commitment r).
Proof using Hothers.
  intros Hr H. unfold CommitCase in H. destruct (validate_case r) as [[]|] eqn:Hv; [|done].
  assert (Hw : forall ae d d' v, attempt "case" (commitCaseWork authorityID r) ae d = (d', v) ->
    ledger_step d d') by (intros; by eapply attempt_case).
  pose proof (attempts_run _ _ _ envs others Hothers Hw 3 0 db) as Hrun.
  unfold transaction, transactionAttempts in H. rewrite H in Hrun. cbn in Hrun.
  split; [by eapply reachable_run|].
  destruct (attempts_done _ _ _ _ Hothers Hw _ _ _ _ _ H) as (ae & d & m & Hd & Hm).
  assert (Hrev : revision_inv d) by (apply ledger_inv_reachable; by eapply reachable_run).
  apply commitCaseWork_ok in Hm as [_ [(-> & c & Hc & Hx & ->)|(Ha & t1 & t2 & -> & ->)]]; [| |done].
  - exists c. split_and!; [done..|]. rewrite withAuthority_positive by (by eapply rev_cases).
    cbn. destruct Hx as [->|(-> & -> & _)]; done.
  - exists (case_row r (revision_seq d)). cbn. rewrite lookup_insert_eq.
    split_and!; [done|by left|done].
Qed.

Lemma CommitAdvice_ok r db db' rc :
  ledger_reachable db -> CommitAdvice authorityID r envs others db = (db', Ok rc) ->
  ledger_reachable db' /\
  exists a, advice db' !! (ca_TenantID r, ca_CaseID r) = Some a /\
    a = advice_row r (av_TargetEdgeID a) (av_TargetEdgeGeneration a)
          (av_DeliverySequence a) (av_CommitRevision a) /\
    rc = receipt authorityID (av_CommitRevision a) (ca_EnvelopeID r) (ca_Commitment r).
Proof using Hothers.
  intros Hr H. unfold CommitAdvice in H. destruct (validate_advice r) as [[]|] eqn:Hv; [|done].
  assert (Hw : forall ae d d' v, attempt "advice" (commitAdviceWork authorityID r) ae d = (d', v) ->
    ledger_step d d') by (intros; by eapply attempt_advice).
  pose proof (attempts_run _ _ _ envs others Hothers Hw 3 0 db) as Hrun.
  unfold transaction, transactionAttempts in H. rewrite H in Hrun. cbn in Hrun.
  split; [by eapply reachable_run|].
  destruct (attempts_done _ _ _ _ Hothers Hw _ _ _ _ _ H) as (ae & d & m & Hd & Hm).
  assert (Hrev : revision_inv d) by (apply ledger_inv_reachable; by eapply reachable_run).
  apply commitAdviceWork_ok in Hm as [_ [(-> & a & Ha & Hx & ->)|(c & Ha & t & -> & ->)]]; [| |done].
  - exists a. split_and!; [done..|]. rewrite withAuthority_positive by (by eapply rev_advice).
    cbn. by rewrite Hx.
  - eexists. cbn. rewrite lookup_insert_eq. by split_and!.
Qed.
End Receipts.

(** C6: a receipt is only given for a durable fact.  If [CommitCase] returns a
    receipt, under any faults, retries and interleaved commits, then the
    database at that moment holds the case with exactly the request's
    envelope, commitment, bytes and route, under the receipt's revision; the
    case is in its issuing edge's log; and both its outbox rows exist.  The
    same for [CommitAdvice] and its single outbox row. *)
Theorem receipts_are_durable authorityID envs others db :
  store_reachable db -> (forall k d, rtc store_step d (others k d)) ->
  (forall r db' rc, CommitCase authorityID r envs others db = (db', Ok rc) ->
     exists c s, cases db' !! (cc_TenantID r, cc_CaseID r) = Some c /\ case_replayed r c /\
       rc = receipt authorityID (cs_AuthorityRevision c) (cc_EnvelopeID r) (cc_Commitment r) /\
       deliveries db' !! (row_edge_key (cc_TenantID r) c, s) = Some (delivery_of_case c s) /\
       outbox_has db' (cc_TenantID r) "case" (cc_CaseID r) (r_Revision rc) (wake_route c) /\
       outbox_has db' (cc_TenantID r) "case" (cc_CaseID r) (r_Revision rc) (advice_route c)) /\
  (forall r db' rc, CommitAdvice authorityID r envs others db = (db', Ok rc) ->
     exists a c, advice db' !! (ca_TenantID r, ca_CaseID r) = Some a /\
       cases db' !! (ca_TenantID r, ca_CaseID r) = Some c /\ advice_binds a c /\
       av_Raw a = ca_Raw r /\ av_Commitment a = ca_Commitment r /\
       rc = receipt authorityID (av_CommitRevision a) (ca_EnvelopeID r) (ca_Commitment r) /\
       deliveries db' !! (row_edge_key (ca_TenantID r) c, av_DeliverySequence a) =
         Some (delivery_of_advice (ca_CaseID r) a) /\
       outbox_has db' (ca_TenantID r) "advice" (ca_CaseID r) (r_Revision rc) (advice_route c)).
Proof.
  intros Hr%store_reachable_ledger Hso.
  assert (Ho : forall k d, rtc ledger_step d (others k d)) by (intros; by apply store_run_ledger).
  split; intros r db' rc H.
  - destruct (CommitCase_ok _ _ _ Ho _ _ _ _ Hr H) as (Hr' & c & Hc & Hx & ->).
    apply ledger_inv_reachable in Hr' as [_ _ [Fc _ _] _ [_ Oc _]].
    destruct (Fc _ _ _ Hc) as (_ & _ & _ & s & Hs). destruct (Oc _ _ _ Hc).
    exists c, s. by split_and!.
  - destruct (CommitAdvice_ok _ _ _ Ho _ _ _ _ Hr H) as (Hr' & a & Ha & Hx & ->).
    apply ledger_inv_reachable in Hr' as [_ _ [_ Fa _] _ [_ _ Oa]].
    destruct (Fa _ _ _ Ha) as (c & Hc & Hb & Hd & _). pose proof (Oa _ _ _ _ Ha Hc).
    exists a, c. split_and!; try done; by rewrite Hx.
Qed.

(** ** Replay *)
Lemma CommitCase_replay authorityID r now db c :
  validate_case r = Ok tt -> cases db !! (cc_TenantID r, cc_CaseID r) = Some c ->
  case_replayed r c -> pg_time (cc_ExpiresAt r) = cc_ExpiresAt r ->
  CommitCase authorityID r (fun _ => calm now) (fun _ d => d) db =
    (db, Ok (withAuthority authorityID {| r_AuthorityID := "";
       r_Revision := cs_AuthorityRevision c; r_EnvelopeID := cs_EnvelopeID c;
       r_Commitment := cs_Commitment c |})).
Proof.
  intros Hv Hc Hx Ht. unfold CommitCase, transaction. rewrite Hv.
  cbn [attempts transactionAttempts]. unfold attempt, commitCaseWork, existingCase.
  cbn [ae_begin calm]. unfold mbind, tx_bind, query, statement. cbn. rewrite Hc.
  destruct (_ && _) eqn:E; [done|]. exfalso. apply not_true_iff_false in E. apply E.
  rewrite !andb_true_iff, !Z.eqb_eq, !String.eqb_eq.
  destruct Hx as [->|(-> & -> & -> & -> & -> & -> & -> & -> & -> & ->)]; cbn; by split_and!.
Qed.

Lemma CommitAdvice_replay authorityID r now db a :
  validate_advice r = Ok tt -> advice db !! (ca_TenantID r, ca_CaseID r) = Some a ->
  a = advice_row r (av_TargetEdgeID a) (av_TargetEdgeGeneration a)
        (av_DeliverySequence a) (av_CommitRevision a) ->
  CommitAdvice authorityID r (fun _ => calm now) (fun _ d => d) db =
    (db, Ok (withAuthority authorityID {| r_AuthorityID := "";
       r_Revision := av_CommitRevision a; r_EnvelopeID := av_EnvelopeID a;
       r_Commitment := av_Commitment a |})).
Proof.
  intros Hv Ha Hx. unfold CommitAdvice, transaction. rewrite Hv.
  cbn [attempts transactionAttempts]. unfold attempt, commitAdviceWork, existingAdvice.
  cbn [ae_begin calm]. unfold mbind, tx_bind, query, statement. cbn. rewrite Ha.
  destruct (_ && _) eqn:E; [done|]. exfalso. apply not_true_iff_false in E. apply E.
  rewrite !andb_true_iff, !Z.eqb_eq, !String.eqb_eq. rewrite Hx. cbn. by split_and!.
Qed.

Lemma CommitCase_valid authorityID r envs others db db' rc :
  CommitCase authorityID r envs others db = (db', Ok rc) -> validate_case r = Ok tt.
Proof. unfold CommitCase. by destruct (validate_case r) as [[]|]. Qed.

Lemma CommitAdvice_valid authorityID r envs others db db' rc :
  CommitAdvice authorityID r envs others db = (db', Ok rc) -> validate_advice r = Ok tt.
Proof. unfold CommitAdvice. by destruct (validate_advice r) as [[]|]. Qed.

(** C7: an exact retry returns the original receipt.  Once [CommitCase] has
    returned a receipt, submitting the same request again in any later ledger,
    after any number of other commits, halts and failures, returns that very
    receipt and changes nothing, when this submission itself meets no database
    fault; likewise for [CommitAdvice].  (A case must
    carry an expiry in whole microseconds, the precision PostgreSQL keeps.) *)
Theorem exact_replay_is_idempotent authorityID envs others now db db1 db2 :
  store_reachable db -> (forall k d, rtc store_step d (others k d)) ->
  rtc store_step db1 db2 ->
  (forall r rc, CommitCase authorityID r envs others db = (db1, Ok rc) ->
     pg_time (cc_ExpiresAt r) = cc_ExpiresAt r ->
     CommitCase authorityID r (fun _ => calm now) (fun _ d => d) db2 = (db2, Ok rc)) /\
  (forall r rc, CommitAdvice authorityID r envs others db = (db1, Ok rc) ->
     CommitAdvice authorityID r (fun _ => calm now) (fun _ d => d) db2 = (db2, Ok rc)).
Proof.
  intros Hr%store_reachable_ledger Hso Hrun%store_run_ledger.
  assert (Ho : forall k d, rtc ledger_step d (others k d)) by (intros; by apply store_run_ledger).
  assert (Hlater : ledger_reachable db1 ->
    ledger_extends db1 db2 /\ revision_inv db2).
  { intros Hr1. split.
    - apply run_extends; [done|]. by apply inv_log, ledger_inv_reachable.
    - apply ledger_inv_reachable. by eapply reachable_run. }
  split; intros r rc H.
  - intros Ht. pose proof (CommitCase_valid _ _ _ _ _ _ _ H) as Hv.
    destruct (CommitCase_ok _ _ _ Ho _ _ _ _ Hr H) as (Hr1 & c & Hc & Hx & ->).
    destruct (Hlater Hr1) as [[Ec _ _ _ _ _] Hrev].
    assert (Hc2 := lookup_weaken _ _ _ _ Hc Ec).
    rewrite (CommitCase_replay _ _ _ _ c), withAuthority_positive by
      (try done; by eapply rev_cases).
    cbn. destruct Hx as [->|(-> & -> & _)]; done.
  - pose proof (CommitAdvice_valid _ _ _ _ _ _ _ H) as Hv.
    destruct (CommitAdvice_ok _ _ _ Ho _ _ _ _ Hr H) as (Hr1 & a & Ha & Hx & ->).
    destruct (Hlater Hr1) as [[_ Ea _ _ _ _] Hrev].
    assert (Ha2 := lookup_weaken _ _ _ _ Ha Ea).
    rewrite (CommitAdvice_replay _ _ _ _ a), withAuthority_positive by
      (try done; by eapply rev_advice).
    cbn. by rewrite Hx.
Qed.
