(* ===== verification/AuthorityProgress.v ===== *)
(** * The authority makes progress

    Functional behaviour of [CommitCase] and [CommitAdvice] when nothing
    fails: an admissible request is committed, and refused requests are
    refused with the documented error.  Outbox identifiers are SHA-256 values
    of length-prefixed parts; where freshness depends on the hash the
    alternative is an explicit collision. *)
From S2P Require Import Prelude GoText GoTime Sha256 DeliveryStream Authority PgTx AuthorityStore OutboxWorker AuthorityOutbox AuthoritySpec AuthorityInv AuthorityTheorems.
From stdpp Require Import sorting.
Open Scope string_scope.
Open Scope Z_scope.
Open Scope snag_scope.

(** ** Outbox identifiers *)
Lemma netstrings_inj l : forall k, length l = length k -> netstrings l = netstrings k -> l = k.
Proof.
  induction l as [|p l IH]; intros [|q k] Hl H; try done. cbn [netstrings] in H.
  change (":" ++ p ++ netstrings l) with (String ":" (p ++ netstrings l)) in H.
  change (":" ++ q ++ netstrings k) with (String ":" (q ++ netstrings k)) in H.
  apply delimited_inj in H as [Hlen H]; [|done|apply dec_chars|apply dec_chars].
  apply dec_inj in Hlen. apply app_string_cancel in H as [-> H]; [|done].
  f_equal. apply IH; [|done]. cbn in Hl. lia.
Qed.

(** The text whose digest identifies an outbox row. *)
Definition outbox_text (t k e : string) (revision : Z) (d : string * string) : string :=
  netstrings [t; k; e; dec revision; d.1; d.2].
Definition row_text (o : OutboxRow) : string :=
  outbox_text (ob_TenantID o) (ob_EventKind o) (ob_EntityID o) (ob_AuthorityRevision o) (destination o).

(** One of these texts has the digest of another of them, or of the text of a
    stored row. *)
Definition outbox_clash (texts : list string) (db : DB) : Prop :=
  exists x y, collision x y /\ x ∈ texts /\ (y ∈ texts \/ exists id o, outbox db !! id = Some o /\ y = row_text o).

Lemma outbox_id_binding t k e n d1 d2 t' k' e' n' d1' d2' :
  deterministicOutboxID t k e n d1 d2 = deterministicOutboxID t' k' e' n' d1' d2' ->
  (t = t' /\ k = k' /\ e = e' /\ n = n' /\ d1 = d1' /\ d2 = d2') \/
  collision (outbox_text t k e n (d1, d2)) (outbox_text t' k' e' n' (d1', d2')).
Proof.
  unfold deterministicOutboxID, sha256_text. intros H. apply app_string_cancel in H as [_ H]; [|done].
  apply sha256_hex_eq in H.
  destruct (decide (netstrings [t; k; e; dec n; d1; d2] =
                    netstrings [t'; k'; e'; dec n'; d1'; d2'])) as [E|E].
  - left. apply netstrings_inj in E; [|done]. injection E as -> -> -> E -> ->.
    by apply dec_inj in E.
  - right. by split.
Qed.

(** A revision not drawn yet gives identifiers no row has. *)
Lemma fresh_outbox_id db t k e d :
  ledger_inv db -> outbox_fresh t k e d db \/ outbox_clash [outbox_text t k e (revision_seq db) d] db.
Proof.
  intros [_ [_ _ _ _ _ Hb _ _ _ _ _ _] _ _ [Hr _ _]]. unfold outbox_fresh.
  destruct (outbox db !! _) as [o|] eqn:E; [|by left].
  pose proof (Hb _ _ E) as Hlt. destruct (Hr _ _ E) as (Hid & _).
  apply outbox_id_binding in Hid as [(_ & _ & _ & Hrev & _)|Hc]; [lia|right].
  eexists _, _. split_and!; [exact Hc|destruct d; by left|]. right. eauto.
Qed.

Lemma clash_more texts texts' db : texts ⊆ texts' -> outbox_clash texts db -> outbox_clash texts' db.
Proof. intros Hs (x & y & Hc & Hx & Hy). exists x, y. split_and!; [done|auto|]. destruct Hy as [Hy|Hy]; auto. Qed.

(** ** Statements in a calm environment *)
Lemma calm_statement {A} wrap (f : Z -> DB -> result PgError (A * DB)) now n db a db' :
  f now db = Ok (a, db') -> statement wrap f (calm_env now) (n, db) = ((S n, db'), Ok a).
Proof. unfold statement. cbn. by intros ->. Qed.

Lemma calm_bind {A B} (m : Tx A) (k : A -> Tx B) now n db n' db' a :
  m (calm_env now) (n, db) = ((n', db'), Ok a) ->
  (m ≫= k) (calm_env now) (n, db) = k a (calm_env now) (n', db').
Proof. unfold mbind, tx_bind. by intros ->. Qed.

Lemma unique_ok {K V} `{Countable K} (p : K -> V -> bool) (m : gmap K V) (k : K) :
  m !! k = None -> (forall k' v, m !! k' = Some v -> p k' v = false) ->
  bool_decide (is_Some (m !! k)) || row_exists p m = false.
Proof.
  intros Hk Hp. apply orb_false_iff. split; [|by apply row_exists_false].
  rewrite Hk. apply bool_decide_eq_false. by intros [].
Qed.

Lemma tenant_ok a t (b c : bool) : (a = t -> b = false /\ c = false) -> (a =s? t) && (b || c) = false.
Proof. intros H. destruct (String.eqb_spec a t); [|done]. by destruct (H e) as [-> ->]. Qed.

Lemma neq_eqb s t : s <> t -> (s =s? t) = false.
Proof. apply String.eqb_neq. Qed.
#[export] Hint Resolve neq_eqb : snag.

Lemma calm_outbox now n db t k e raw rev d :
  outbox db !! deterministicOutboxID t k e rev d.1 d.2 = None ->
  (forall id o, outbox db !! id = Some o -> ob_AuthorityRevision o = rev -> destination o <> d) ->
  insertOutboxRow t k e raw rev d (calm_env now) (n, db) =
    ((S n, set_outbox (add_outbox t k e raw rev d now (outbox db)) db), Ok tt).
Proof.
  intros Hid Hrow. unfold insertOutboxRow. apply calm_statement. rewrite unique_ok; [done|done|].
  intros id o Ho. destruct (Z.eqb_spec (ob_AuthorityRevision o) rev) as [E|E]; [|by rewrite andb_false_r].
  specialize (Hrow _ _ Ho E). unfold destination in Hrow. destruct d as [d1 d2]. cbn.
  destruct (String.eqb_spec (ob_DestinationKind o) d1), (String.eqb_spec (ob_DestinationKey o) d2);
    rewrite ?andb_false_r; try done. congruence.
Qed.

Lemma calm_delivery now n db t e g s kind case env_id com raw rev :
  deliveries db !! (t, e, g, s) = None ->
  (forall k d, deliveries db !! k = Some d -> k.1.1.1 = t -> ed_EnvelopeID d <> env_id) ->
  insertEdgeDelivery t e g s kind case env_id com raw rev (calm_env now) (n, db) =
    ((S n, set_deliveries (<[(t, e, g, s) :=
       {| ed_Sequence := s; ed_Kind := kind; ed_CaseID := case; ed_EnvelopeID := env_id;
          ed_Commitment := com; ed_Raw := raw; ed_AuthorityRevision := rev |}]>
       (deliveries db)) db), Ok tt).
Proof.
  intros Hk Hu. unfold insertEdgeDelivery. apply calm_statement. rewrite unique_ok; [done|done|].
  intros k d Hd. destruct (String.eqb_spec k.1.1.1 t) as [E|]; [|done]. cbn.
  eauto with snag.
Qed.

Lemma calm_sequence now n db t e g :
  allocateDeliverySequence t e g (calm_env now) (n, db) =
    ((S n, set_sequences (<[(t, e, g) := next_sequence db (t, e, g) + 1]> (sequences db)) db),
     Ok (next_sequence db (t, e, g))).
Proof.
  unfold allocateDeliverySequence, next_sequence. apply calm_statement.
  destruct (sequences db !! (t, e, g)) as [m|]; [|done].
  by replace (m + 1 - 1) with m by lia.
Qed.

Lemma calm_audit now n db t k e c p ed dcs rev :
  Forall (fun a => 1 <= au_AuthorityRevision a < rev) (audit db) ->
  recordAudit t k e c p ed dcs rev (calm_env now) (n, db) =
    ((S n, set_audit (audit db ++ [audit_row t k e c p ed dcs rev])%list db), Ok tt).
Proof.
  intros Hb. unfold recordAudit. apply calm_statement.
  replace (existsb _ _) with false; [done|]. symmetry. apply not_true_iff_false.
  rewrite existsb_exists. intros (a & Hin & Ha). bools.
  apply (proj1 (List.Forall_forall _ _) Hb) in Hin. lia.
Qed.

(** ** Admissible requests are committed *)
Definition case_admissible (r : CommitCaseRequest) (db : DB) : Prop :=
  validate_case r = Ok tt /\
  cases db !! (cc_TenantID r, cc_CaseID r) = None /\
  (exists h, heads db !! cc_TenantID r = Some h /\ rh_Halted h = false /\
     rh_Revision h = cc_RegistryRevision r /\ rh_Commitment h = cc_RegistryHash r /\
     rh_RoutingEpoch h = cc_RoutingEpoch r) /\
  (forall k c, cases db !! k = Some c -> k.1 = cc_TenantID r ->
     cs_EnvelopeID c <> cc_EnvelopeID r /\ cs_Commitment c <> cc_Commitment r) /\
  (forall k d, deliveries db !! k = Some d -> k.1.1.1 = cc_TenantID r ->
     ed_EnvelopeID d <> cc_EnvelopeID r).

(** The texts of the two rows of a case, and of the row of an advice. *)
Definition case_texts (r : CommitCaseRequest) (db : DB) : list string :=
  [outbox_text (cc_TenantID r) "case" (cc_CaseID r) (revision_seq db) (case_routes r).1;
   outbox_text (cc_TenantID r) "case" (cc_CaseID r) (revision_seq db) (case_routes r).2].
Definition advice_texts (r : CommitAdviceRequest) (c : CaseRecord) (db : DB) : list string :=
  [outbox_text (ca_TenantID r) "advice" (ca_CaseID r) (revision_seq db) (advice_route c)].

Lemma case_admissible_admits r db :
  ledger_inv db -> case_admissible r db -> admits_case r db \/ outbox_clash (case_texts r db) db.
Proof.
  intros Hi (H1 & H2 & H3 & H4 & H5).
  destruct (fresh_outbox_id db (cc_TenantID r) "case" (cc_CaseID r) (case_routes r).1 Hi) as [F1|F1];
    [|right; eapply clash_more, F1; set_solver].
  destruct (fresh_outbox_id db (cc_TenantID r) "case" (cc_CaseID r) (case_routes r).2 Hi) as [F2|F2];
    [|right; eapply clash_more, F2; set_solver].
  left. split_and!; [done..|]. by intros d [->| ->].
Qed.

#[local] Opaque deterministicOutboxID.

(** Rewrite with the result of the next statement. *)
Ltac calm_step := erewrite calm_bind; [|first [apply calm_statement; reflexivity | reflexivity]];
  cbv beta iota; db_simpl.

Lemma calm_case authorityID r now db :
  ledger_inv db -> admits_case r db ->
  deterministicOutboxID (cc_TenantID r) "case" (cc_CaseID r) (revision_seq db)
    (case_routes r).1.1 (case_routes r).1.2 <>
  deterministicOutboxID (cc_TenantID r) "case" (cc_CaseID r) (revision_seq db)
    (case_routes r).2.1 (case_routes r).2.2 ->
  exists n, commitCaseWork authorityID r (calm_env now) (O, db) =
    ((n, add_case r now now db),
     Ok (receipt authorityID (revision_seq db) (cc_EnvelopeID r) (cc_Commitment r), None)).
Proof.
  intros [Hlog Hrev _ _ _] (Hv & Hnone & (h & Hh & Hhalt & B1 & B2 & B3) & Hu & Hd & Hf) Hne.
  eexists. unfold commitCaseWork, existingCase.
  erewrite calm_bind.
  2:{ erewrite calm_bind; [|by apply calm_statement]. rewrite Hnone. reflexivity. }
  cbv beta iota. erewrite calm_bind; [|by apply calm_statement]. rewrite Hh. cbv beta iota.
  rewrite Hhalt. calm_step.
  assert (caseBindsHead r h = true) as ->.
  { unfold caseBindsHead. by rewrite B1, B2, B3, !Z.eqb_refl, String.eqb_refl. }
  calm_step.
  assert (Hcol : row_exists (fun k row => (k.1 =s? cc_TenantID r) &&
      ((cs_EnvelopeID row =s? cc_EnvelopeID r) || (cs_Commitment row =s? cc_Commitment r)))
      (cases db) = false).
  { apply row_exists_false. intros k c Hc. apply tenant_ok. intros Ht.
    destruct (Hu _ _ Hc Ht). auto with snag. }
  erewrite calm_bind; [|by apply calm_statement]. cbv beta iota. rewrite Hcol. calm_step.
  calm_step. erewrite calm_bind.
  2:{ apply calm_statement. cbn [cases set_revision_seq]. rewrite Hcol, Hnone. reflexivity. }
  cbv beta iota. erewrite calm_bind; [|apply calm_sequence]. cbv beta iota.
  erewrite calm_bind; [|apply calm_delivery]; db_simpl.
  2:{ by apply (log_inv_fresh db (case_key r)). }
  2:{ exact Hd. }
  erewrite calm_bind; [|apply calm_audit, (rev_audit _ Hrev)]. db_simpl.
  cbn [insertOutbox]. erewrite calm_bind.
  2:{ erewrite calm_bind; [|apply calm_outbox]; db_simpl.
      2:{ exact (Hf (case_routes r).1 (or_introl eq_refl)). }
      2:{ intros id o Ho E. apply (rev_outbox _ Hrev) in Ho. lia. }
      erewrite calm_bind; [reflexivity|]. apply calm_outbox; db_simpl.
      - unfold add_outbox. rewrite lookup_insert_ne by exact Hne.
        exact (Hf (case_routes r).2 (or_intror eq_refl)).
      - intros id o [[-> ->]|Ho]%add_outbox_Some E; [done|].
        apply (rev_outbox _ Hrev) in Ho. lia. }
  reflexivity.
Qed.

Definition advice_admissible (r : CommitAdviceRequest) (c : CaseRecord) (db : DB) : Prop :=
  validate_advice r = Ok tt /\
  advice db !! (ca_TenantID r, ca_CaseID r) = None /\
  (exists h, heads db !! ca_TenantID r = Some h /\ rh_Halted h = false) /\
  cases db !! (ca_TenantID r, ca_CaseID r) = Some c /\
  ca_CaseCommitment r = cs_Commitment c /\ ca_RoutingEpoch r = cs_RoutingEpoch c /\
  ca_RegistryRevision r = cs_RegistryRevision c /\ ca_RegistryHash r = cs_RegistryHash c /\
  (forall k a, advice db !! k = Some a -> k.1 = ca_TenantID r ->
     av_EnvelopeID a <> ca_EnvelopeID r /\ av_Commitment a <> ca_Commitment r) /\
  (forall k d, deliveries db !! k = Some d -> k.1.1.1 = ca_TenantID r ->
     ed_EnvelopeID d <> ca_EnvelopeID r).

Lemma advice_admissible_admits r c db :
  ledger_inv db -> advice_admissible r c db -> admits_advice r c db \/ outbox_clash (advice_texts r c db) db.
Proof.
  intros Hi (H1 & H2 & H3 & H4 & H5 & H6 & H7 & H8 & H9 & H10).
  destruct (fresh_outbox_id db (ca_TenantID r) "advice" (ca_CaseID r) (advice_route c) Hi);
    [|by right]. left. by split_and!.
Qed.

Lemma calm_advice authorityID r c now db :
  ledger_inv db -> admits_advice r c db ->
  exists n, commitAdviceWork authorityID r (calm_env now) (O, db) =
    ((n, add_advice r c now db),
     Ok (receipt authorityID (revision_seq db) (ca_EnvelopeID r) (ca_Commitment r), None)).
Proof.
  intros [Hlog Hrev _ _ _] (Hv & Hnone & (h & Hh & Hhalt) & Hc & B1 & B2 & B3 & B4 & Hu & Hd & Hf).
  eexists. unfold commitAdviceWork, existingAdvice.
  erewrite calm_bind.
  2:{ erewrite calm_bind; [|by apply calm_statement]. rewrite Hnone. reflexivity. }
  cbv beta iota. erewrite calm_bind; [|by apply calm_statement]. rewrite Hh. cbv beta iota.
  rewrite Hhalt. calm_step. calm_step.
  erewrite calm_bind; [|by apply calm_statement]. rewrite Hc. cbv beta iota.
  rewrite B1, B2, B3, B4, !String.eqb_refl, !Z.eqb_refl. calm_step.
  assert (Hcol : row_exists (fun k row => (k.1 =s? ca_TenantID r) &&
      ((av_EnvelopeID row =s? ca_EnvelopeID r) || (av_Commitment row =s? ca_Commitment r)))
      (advice db) = false).
  { apply row_exists_false. intros k a Ha. apply tenant_ok. intros Ht.
    destruct (Hu _ _ Ha Ht). auto with snag. }
  erewrite calm_bind; [|by apply calm_statement]. cbv beta iota. rewrite Hcol. calm_step.
  erewrite calm_bind; [|apply calm_sequence]. cbv beta iota. calm_step.
  erewrite calm_bind.
  2:{ apply calm_statement. cbn [advice set_revision_seq set_sequences].
      rewrite Hcol, Hnone. reflexivity. }
  cbv beta iota. erewrite calm_bind; [|apply calm_delivery]; db_simpl.
  2:{ by apply (log_inv_fresh db (row_edge_key (ca_TenantID r) c)). }
  2:{ exact Hd. }
  erewrite calm_bind; [|apply calm_audit, (rev_audit _ Hrev)]. db_simpl.
  cbn [insertOutbox]. erewrite calm_bind.
  2:{ erewrite calm_bind; [reflexivity|]. apply calm_outbox; db_simpl; [exact Hf|].
      intros id o Ho E. apply (rev_outbox _ Hrev) in Ho. lia. }
  reflexivity.
Qed.

Lemma calm_transaction label work now db n db' rc :
  work (calm_env now) (O, db) = ((n, db'), Ok (rc, None)) ->
  transaction label work (fun _ => calm now) (fun _ d => d) db = (db', Ok rc).
Proof.
  intros H. unfold transaction, transactionAttempts. cbn [attempts]. unfold attempt.
  cbn [ae_begin calm ae_env ae_commit]. by rewrite H.
Qed.

(** C8: admissible requests are committed.  When nothing fails, [CommitCase]
    of a valid new case bound to the tenant's live registry head, and
    [CommitAdvice] of a valid first advice bound to its case, perform exactly
    the ledger transition and return the receipt with the next authority
    revision.  The only other possibility is that the identifier text of one of
    the outbox rows of this very request has the SHA-256 of the different text
    of its other row or of a row already stored. *)
Theorem admissible_requests_commit authorityID now db :
  store_reachable db ->
  (forall r, case_admissible r db ->
     CommitCase authorityID r (fun _ => calm now) (fun _ d => d) db =
       (add_case r now now db,
        Ok (receipt authorityID (revision_seq db) (cc_EnvelopeID r) (cc_Commitment r))) \/
     outbox_clash (case_texts r db) db) /\
  (forall r c, advice_admissible r c db ->
     CommitAdvice authorityID r (fun _ => calm now) (fun _ d => d) db =
       (add_advice r c now db,
        Ok (receipt authorityID (revision_seq db) (ca_EnvelopeID r) (ca_Commitment r))) \/
     outbox_clash (advice_texts r c db) db).
Proof.
  intros Hi%store_reachable_inv. split.
  - intros r Ha. destruct (case_admissible_admits r db Hi Ha) as [Had|?]; [|by right].
    destruct (decide (deterministicOutboxID (cc_TenantID r) "case" (cc_CaseID r) (revision_seq db)
        (case_routes r).1.1 (case_routes r).1.2 =
      deterministicOutboxID (cc_TenantID r) "case" (cc_CaseID r) (revision_seq db)
        (case_routes r).2.1 (case_routes r).2.2)) as [E|E].
    { right. apply outbox_id_binding in E as [(_ & _ & _ & _ & ? & _)|E]; [done|].
      eexists _, _. split_and!; [exact E|by left|left; right; by left]. }
    left. destruct (calm_case authorityID r now db Hi Had E) as [n Hn].
    unfold CommitCase. rewrite (proj1 Had). by eapply calm_transaction.
  - intros r c Ha. destruct (advice_admissible_admits r c db Hi Ha) as [Had|?]; [|by right].
    left. destruct (calm_advice authorityID r c now db Hi Had) as [n Hn].
    unfold CommitAdvice. rewrite (proj1 Had). by eapply calm_transaction.
Qed.
