(* ===== verification/AuthorityReads.v ===== *)
(** * Reads of the authority and the hand-over to the carrier

    The pages of [ListEdgeDeliveries] and [ListProjectionFacts] are exact
    slices of the committed log, and every row a worker claims from a
    reachable outbox becomes a valid publish request. *)
From S2P Require Import Prelude GoText GoTime Sha256 DeliveryStream Authority PgTx AuthorityStore OutboxWorker AuthorityOutbox AuthoritySpec AuthorityInv AuthorityTheorems.
From stdpp Require Import sorting list_numbers.
Open Scope string_scope.
Open Scope Z_scope.
Open Scope snag_scope.

(** ** Sorted slices *)
#[export] Instance seq_le_total : Total seq_le.
Proof. intros a b. unfold seq_le. lia. Qed.
#[export] Instance fact_order_total : Total fact_order.
Proof. intros a b. unfold fact_order. lia. Qed.

Lemma take_seqZ k a n : take k (seqZ a n) = seqZ a (Z.min (Z.of_nat k) n).
Proof.
  apply list_eq. intros i. destruct (decide (i < k)%nat) as [Hi|Hi].
  - rewrite lookup_take_lt by lia. apply option_eq. intros x. rewrite !lookup_seqZ. lia.
  - rewrite lookup_take_ge by lia. symmetry. apply lookup_seqZ_ge. lia.
Qed.

Lemma map_take {A B} (f : A -> B) n l : map f (take n l) = take n (map f l).
Proof. exact (fmap_take f n l). Qed.

Lemma sorted_seqZ a n : Sorted Z.le (seqZ a n).
Proof.
  destruct (Z.le_gt_cases 0 n) as [Hn|Hn]; [|by rewrite seqZ_nil by lia].
  revert a. pattern n. apply natlike_ind; [done| |done].
  intros x Hx IH a. rewrite seqZ_cons by lia. rewrite Z.pred_succ. constructor; [apply IH|].
  destruct (decide (0 < x)) as [|].
  - rewrite seqZ_cons by lia. constructor. lia.
  - by rewrite seqZ_nil by lia.
Qed.

(** The keys of a sorted list are determined by their set. *)
Lemma sorted_keys {A} (f : A -> Z) (R : relation A) l a n :
  (forall x y, R x y -> f x <= f y) -> Sorted R l ->
  NoDup (map f l) -> (forall k, k ∈ map f l <-> a <= k < a + n) -> map f l = seqZ a n.
Proof.
  intros HR Hs Hnd Hin. apply (Sorted_unique Z.le).
  - by apply (Sorted_fmap f R Z.le).
  - apply sorted_seqZ.
  - apply NoDup_Permutation; [done|apply NoDup_seqZ|]. intros k. by rewrite Hin, elem_of_seqZ.
Qed.

Lemma max_of_seq l n : 0 <= n -> (forall k, k ∈ l <-> 1 <= k <= n) -> max_of l = n.
Proof.
  intros Hn Hl. assert (Hub : forall l, (forall k, k ∈ l -> k <= n) -> max_of l <= n).
  { clear -Hn. induction l as [|x l IH]; cbn; intros H; [lia|].
    pose proof (H x ltac:(by left)). specialize (IH ltac:(intros; apply H; by right)).
    unfold max_of in IH. lia. }
  assert (Hlb : forall l k, k ∈ l -> k <= max_of l).
  { clear. induction l as [|x l IH]; intros k Hk; [by apply not_elem_of_nil in Hk|].
    cbn. apply elem_of_cons in Hk as [->|Hk]; [lia|]. apply IH in Hk. unfold max_of in Hk. lia. }
  specialize (Hub l ltac:(intros k Hk; apply Hl in Hk; lia)).
  destruct (decide (n = 0)) as [->|].
  - destruct l as [|x l]; [done|]. pose proof (proj1 (Hl x) ltac:(by left)). lia.
  - specialize (Hlb l n ltac:(apply Hl; lia)). lia.
Qed.

(** ** The delivery log as a list *)
Lemma edge_log_elem db t e g d :
  log_inv db -> d ∈ edge_log db t e g <-> deliveries db !! (t, e, g, ed_Sequence d) = Some d.
Proof.
  intros Hl. unfold edge_log. rewrite list_elem_of_fmap. split.
  - intros ([[key s] d'] & -> & [Hk Hin%elem_of_map_to_list]%list_elem_of_filter). cbn in *.
    subst key. by rewrite (log_sequence _ Hl _ _ _ Hin).
  - intros Hd. exists ((t, e, g, ed_Sequence d), d). split; [done|].
    apply list_elem_of_filter. split; [done|]. by apply elem_of_map_to_list.
Qed.

Lemma edge_log_NoDup db t e g : log_inv db -> NoDup (map ed_Sequence (edge_log db t e g)).
Proof.
  intros Hl. unfold edge_log.
  assert (Hnd : NoDup (filter (fun kv => kv.1.1 = (t, e, g)) (map_to_list (deliveries db))).*1).
  { eapply sublist_NoDup; [apply (NoDup_fst_map_to_list (deliveries db))|]. apply fmap_sublist, sublist_filter. }
  set (l := filter _ _) in *.
  assert (Hkey : Forall (fun kv => kv.1 = (t, e, g, ed_Sequence kv.2)) l).
  { apply Forall_forall. intros [[key s] d] [Hk Hin%elem_of_map_to_list]%list_elem_of_filter.
    cbn in *. subst key. by rewrite (log_sequence _ Hl _ _ _ Hin). }
  clearbody l. induction Hkey as [|kv l Hkv Hl' IH]; [constructor|].
  cbn in *. apply NoDup_cons in Hnd as [Hn Hnd]. apply NoDup_cons. split; [|auto].
  intros Hin. apply list_elem_of_In, in_map_iff in Hin as (d & Hd & Hin).
  apply list_elem_of_In, list_elem_of_fmap in Hin as (kv' & -> & Hin).
  apply Hn. apply list_elem_of_fmap. exists kv'. split; [|done].
  rewrite List.Forall_forall in Hl'. rewrite (Hl' kv') by (by apply list_elem_of_In).
  rewrite Hkv. by rewrite Hd.
Qed.

Lemma edge_log_keys db t e g k :
  log_inv db -> k ∈ map ed_Sequence (edge_log db t e g) <-> 1 <= k < next_sequence db (t, e, g).
Proof.
  intros Hl. rewrite <- (log_dense _ Hl). rewrite list_elem_of_In, in_map_iff. split.
  - intros (d & <- & Hd%list_elem_of_In%edge_log_elem); [by eexists|done].
  - intros [d Hd]. pose proof (log_sequence _ Hl _ _ _ Hd) as E. exists d. split; [done|].
    apply list_elem_of_In, edge_log_elem; [done|]. by rewrite E.
Qed.

(** The part of a log after a cursor, sorted. *)
Lemma edge_log_after db t e g after :
  log_inv db -> 0 <= after ->
  map ed_Sequence (merge_sort seq_le
    (filter (fun d => after < ed_Sequence d) (edge_log db t e g))) =
    seqZ (after + 1) (next_sequence db (t, e, g) - 1 - after).
Proof.
  intros Hl Ha. apply (sorted_keys _ seq_le); [done|apply Sorted_merge_sort, _| |].
  - change (NoDup (ed_Sequence <$> merge_sort seq_le
      (filter (fun d => after < ed_Sequence d) (edge_log db t e g)))).
    rewrite merge_sort_Permutation. eapply sublist_NoDup; [apply edge_log_NoDup, Hl|].
    apply fmap_sublist, sublist_filter.
  - intros k. change (k ∈ ed_Sequence <$> merge_sort seq_le
      (filter (fun d => after < ed_Sequence d) (edge_log db t e g)) <->
      after + 1 <= k < after + 1 + (next_sequence db (t, e, g) - 1 - after)).
    rewrite merge_sort_Permutation, list_elem_of_fmap.
    pose proof (edge_log_keys db t e g k Hl) as Hk. rewrite list_elem_of_In, in_map_iff in Hk.
    setoid_rewrite list_elem_of_filter. split.
    + intros (d & -> & Hlt & Hin). assert (1 <= ed_Sequence d < next_sequence db (t, e, g)); [|lia].
      apply edge_log_keys; [done|]. apply list_elem_of_In, in_map, list_elem_of_In, Hin.
    + intros Hr. destruct (proj2 Hk ltac:(lia)) as (d & <- & Hin). exists d.
      split_and!; [done|lia|by apply list_elem_of_In].
Qed.

Lemma last_seqZ_keys {A} (f : A -> Z) l a n z :
  map f l = seqZ a n ->
  match last l with Some x => f x | None => z end = if decide (0 < n) then a + n - 1 else z.
Proof.
  intros H. assert (Hl : length l = Z.to_nat n) by (by rewrite <- (length_map f), H, length_seqZ).
  destruct (last l) as [x|] eqn:E.
  - rewrite last_lookup in E. assert (Hx : map f l !! pred (length l) = Some (f x)).
    { change ((f <$> l) !! pred (length l) = Some (f x)). by rewrite list_lookup_fmap, E. }
    rewrite H in Hx. apply lookup_seqZ in Hx. rewrite decide_True; lia.
  - apply last_None in E as ->. rewrite decide_False; [done|]. cbn in Hl. lia.
Qed.

Lemma ListEdgeDeliveries_page q db page :
  log_inv db -> ListEdgeDeliveries q db = Ok page ->
  let key := (dq_TenantID q, dq_EdgeID q, dq_EdgeGeneration q) in
  dp_HighWatermark page = next_sequence db key - 1 /\
  map ed_Sequence (dp_Deliveries page) =
    seqZ (dq_AfterSequence q + 1)
         (Z.min (dq_Limit q) (dp_HighWatermark page - dq_AfterSequence q)) /\
  dp_CompleteThrough page =
    dq_AfterSequence q + Z.of_nat (length (dp_Deliveries page)) /\
  (forall d, d ∈ dp_Deliveries page -> deliveries db !! (key, ed_Sequence d) = Some d).
Proof.
  intros Hl Hq key.
  unfold ListEdgeDeliveries in Hq. destruct (validate_delivery_query q) eqn:Hv; [|done].
  unfold validate_delivery_query in Hv. inv_result. bools.
  destruct (heads db !! _); [|done]. destruct (highwater db !! _); [|done].
  destruct (rh_Halted _); [done|]. destruct (_ || _); [done|]. injection Hq as <-. cbn.
  set (log := edge_log db _ _ _). fold key.
  set (page := take (Z.to_nat (dq_Limit q)) _).
  assert (Hhigh : max_of (map ed_Sequence log) = next_sequence db key - 1).
  { pose proof (log_pos _ Hl key). apply max_of_seq; [lia|]. intros k.
    unfold log. rewrite edge_log_keys by done. fold key. lia. }
  rewrite Hhigh.
  assert (Hpage : map ed_Sequence page = seqZ (dq_AfterSequence q + 1)
    (Z.min (dq_Limit q) (next_sequence db key - 1 - dq_AfterSequence q))).
  { unfold page. rewrite map_take.
    unfold log. rewrite edge_log_after by (done || lia). rewrite take_seqZ. f_equal.
    fold key. lia. }
  assert (Hlen : length page = Z.to_nat
    (Z.min (dq_Limit q) (next_sequence db key - 1 - dq_AfterSequence q)))
    by (by rewrite <- (length_map ed_Sequence), Hpage, length_seqZ).
  split_and!; [done..| |].
  - rewrite (last_seqZ_keys _ _ _ _ _ Hpage).
    rewrite Hlen. destruct (_ && _) eqn:Hb; bools; case_decide; lia.
  - intros d Hd. unfold page in Hd. apply (subseteq_take (Z.to_nat (dq_Limit q))) in Hd.
    rewrite merge_sort_Permutation in Hd.
    apply list_elem_of_filter in Hd as [_ Hd]. by apply edge_log_elem in Hd.
Qed.

(** A page of deliveries is an exact slice of the committed log.  In any
    reachable store an accepted query returns exactly the deliveries numbered
    after+1, after+2, ... of that edge generation, in order, without gap or
    repetition, as many as the limit allows; the high watermark is the number
    of the last delivery, and [CompleteThrough] is the cursor plus the number
    of deliveries on the page. *)
Theorem ListEdgeDeliveries_exact q db page :
  store_reachable db -> ListEdgeDeliveries q db = Ok page ->
  let key := (dq_TenantID q, dq_EdgeID q, dq_EdgeGeneration q) in
  dp_HighWatermark page = next_sequence db key - 1 /\
  map ed_Sequence (dp_Deliveries page) =
    seqZ (dq_AfterSequence q + 1)
         (Z.min (dq_Limit q) (dp_HighWatermark page - dq_AfterSequence q)) /\
  dp_CompleteThrough page =
    dq_AfterSequence q + Z.of_nat (length (dp_Deliveries page)) /\
  (forall d, d ∈ dp_Deliveries page -> deliveries db !! (key, ed_Sequence d) = Some d).
Proof. intros Hr. apply ListEdgeDeliveries_page. by apply inv_log, store_reachable_inv. Qed.

(** ** Projection facts *)
Definition committed_fact (db : DB) (t : string) (f : ProjectionFact) : Prop :=
  (exists id c, cases db !! (t, id) = Some c /\ f = case_fact ((t, id), c)) \/
  (exists id a, advice db !! (t, id) = Some a /\ f = advice_fact ((t, id), a)).

Lemma tenant_rows {V} (m : gmap (string * string) V) t (g : string * string * V -> ProjectionFact) f :
  f ∈ map g (filter (fun kv => kv.1.1 = t) (map_to_list m)) <->
  exists id v, m !! (t, id) = Some v /\ f = g ((t, id), v).
Proof.
  rewrite list_elem_of_In, in_map_iff. setoid_rewrite <- list_elem_of_In.
  setoid_rewrite list_elem_of_filter. split.
  - intros ([[t' id] v] & <- & Ht & Hin%elem_of_map_to_list). cbn in Ht. subst. eauto.
  - intros (id & v & Hin%elem_of_map_to_list & ->). by exists ((t, id), v).
Qed.

Lemma tenant_facts_elem db t f : f ∈ tenant_facts db t <-> committed_fact db t f.
Proof. unfold tenant_facts, committed_fact. by rewrite elem_of_app, !tenant_rows. Qed.

Lemma map_key_NoDup {V} (m : gmap (string * string) V) t (rev : V -> Z)
    (g : string * string * V -> ProjectionFact) :
  one_each rev m -> (forall kv, pf_AuthorityRevision (g kv) = rev kv.2) ->
  NoDup (map pf_AuthorityRevision (map g (filter (fun kv => kv.1.1 = t) (map_to_list m)))).
Proof.
  intros Hone Hg.
  assert (Hnd : NoDup (filter (fun kv => kv.1.1 = t) (map_to_list m)))
    by apply NoDup_filter, NoDup_map_to_list.
  assert (Hm : forall kv, kv ∈ filter (fun kv => kv.1.1 = t) (map_to_list m) ->
    m !! kv.1 = Some kv.2).
  { intros [k v] [_ H%elem_of_map_to_list]%list_elem_of_filter. done. }
  induction (filter _ _) as [|kv l IH]; [constructor|]. cbn.
  apply NoDup_cons in Hnd as [Hn Hnd]. apply NoDup_cons. split.
  - intros Hin. apply list_elem_of_In, in_map_iff in Hin as (f & Hf & Hin).
    apply in_map_iff in Hin as (kv' & <- & Hin). apply list_elem_of_In in Hin.
    rewrite !Hg in Hf. pose proof (Hm kv ltac:(by left)) as H1.
    pose proof (Hm kv' ltac:(by right)) as H2. pose proof (Hone _ _ _ _ H2 H1 Hf) as E.
    assert (kv' = kv) as ->; [|done]. destruct kv, kv'. cbn in *. congruence.
  - apply IH; [done|]. intros. apply Hm. by right.
Qed.

(** A case and an advice never share a revision: their deliveries would. *)
Lemma case_advice_revisions db t id1 id2 c a :
  ledger_inv db -> cases db !! (t, id1) = Some c -> advice db !! (t, id2) = Some a ->
  cs_AuthorityRevision c <> av_CommitRevision a.
Proof.
  intros [_ Hrev [Fc Fa _] _ _] Hc Ha E.
  destruct (Fc _ _ _ Hc) as (_ & _ & _ & s & Hs). destruct (Fa _ _ _ Ha) as (c' & _ & _ & Hd & _).
  pose proof (one_delivery _ Hrev _ _ _ _ Hs Hd E) as Hk. rewrite Hk, Hd in Hs. by injection Hs.
Qed.

Lemma tenant_facts_NoDup db t :
  ledger_inv db -> NoDup (map pf_AuthorityRevision (tenant_facts db t)).
Proof.
  intros Hi. unfold tenant_facts. rewrite map_app. apply NoDup_app. split_and!.
  - apply (map_key_NoDup _ _ cs_AuthorityRevision); [apply Hi|done].
  - intros n Hn1 Hn2.
    apply list_elem_of_In, in_map_iff in Hn1 as (f1 & E1 & Hf1%list_elem_of_In%tenant_rows).
    apply list_elem_of_In, in_map_iff in Hn2 as (f2 & E2 & Hf2%list_elem_of_In%tenant_rows).
    destruct Hf1 as (id1 & c & Hc & ->), Hf2 as (id2 & a & Ha & ->). cbn in *.
    eapply (case_advice_revisions db t); [done..|congruence].
  - apply (map_key_NoDup _ _ av_CommitRevision); [apply Hi|done].
Qed.

Lemma sorted_strict (l : list Z) : Sorted Z.le l -> NoDup l -> StronglySorted Z.lt l.
Proof.
  intros Hs%Sorted_StronglySorted Hnd; [|intros ???; lia].
  induction Hs as [|x l Hs IH Hf]; [constructor|]. apply NoDup_cons in Hnd as [Hn Hnd].
  constructor; [auto|]. apply List.Forall_forall. intros y Hy.
  rewrite List.Forall_forall in Hf. specialize (Hf y Hy).
  assert (x <> y) by (intros ->; by apply Hn, list_elem_of_In). lia.
Qed.

Lemma max_of_ub l x : x ∈ l -> x <= max_of l.
Proof.
  induction l as [|y l IH]; intros H; [by apply not_elem_of_nil in H|].
  cbn. apply elem_of_cons in H as [->|H]; [lia|]. apply IH in H. unfold max_of in H. lia.
Qed.

(** The projection feed replays every committed fact once, in revision
    order.  In any reachable store a page is strictly increasing in authority
    revision, holds only committed cases and advices of that tenant after the
    cursor and up to the high watermark, and omits such a fact only when the
    page is full and the fact comes after everything on it; so paging from the
    last revision seen visits every fact exactly once. *)
Theorem ListProjectionFacts_exact q db page :
  store_reachable db -> ListProjectionFacts q db = Ok page ->
  StronglySorted Z.lt (map pf_AuthorityRevision (pp_Facts page)) /\
  Z.of_nat (length (pp_Facts page)) <= fq_Limit q /\
  (forall f, f ∈ pp_Facts page ->
     committed_fact db (fq_TenantID q) f /\
     fq_After q < pf_AuthorityRevision f <= pp_HighWatermark page) /\
  (forall f, committed_fact db (fq_TenantID q) f -> fq_After q < pf_AuthorityRevision f ->
     f ∈ pp_Facts page \/
     (Z.of_nat (length (pp_Facts page)) = fq_Limit q /\
      forall g, g ∈ pp_Facts page -> pf_AuthorityRevision g < pf_AuthorityRevision f)).
Proof.
  intros Hi%store_reachable_inv Hq. unfold ListProjectionFacts in Hq.
  destruct (validate_fact_query q) eqn:Hv; [|done].
  unfold validate_fact_query in Hv. inv_result. bools. cbn.
  set (facts := tenant_facts db (fq_TenantID q)).
  set (L := merge_sort fact_order (filter (fun f => fq_After q < pf_AuthorityRevision f) facts)).
  assert (HL : forall f, f ∈ L <-> committed_fact db (fq_TenantID q) f /\
    fq_After q < pf_AuthorityRevision f).
  { intros f. unfold L. rewrite merge_sort_Permutation, list_elem_of_filter.
    unfold facts. rewrite tenant_facts_elem. tauto. }
  assert (Hs : StronglySorted Z.lt (map pf_AuthorityRevision L)).
  { apply sorted_strict.
    - apply (Sorted_fmap pf_AuthorityRevision fact_order Z.le); [done|].
      apply Sorted_merge_sort, _.
    - change (NoDup (pf_AuthorityRevision <$> L)). unfold L. rewrite merge_sort_Permutation.
      eapply sublist_NoDup; [apply (tenant_facts_NoDup db (fq_TenantID q)), Hi|].
      apply fmap_sublist, sublist_filter. }
  clearbody L. set (n := Z.to_nat (fq_Limit q)).
  rewrite <- (take_drop n L), map_app in Hs. pose proof Hs as Hs'.
  apply StronglySorted_app in Hs' as (Hcross & Hs1 & _).
  split_and!; [done|rewrite length_take; unfold n; lia| |].
  - intros f Hf%(subseteq_take n). apply HL in Hf as [Hc Hlt]. split_and!; [done..|].
    apply max_of_ub, list_elem_of_In, in_map, list_elem_of_In, tenant_facts_elem. done.
  - intros f Hc Hlt. assert (Hin : f ∈ L) by (by apply HL).
    rewrite <- (take_drop n L) in Hin. apply elem_of_app in Hin as [|Hin]; [by left|right].
    split.
    + rewrite length_take. destruct (decide (n <= length L)%nat) as [|Hle]; [unfold n in *; lia|].
      rewrite drop_ge in Hin by lia. by apply not_elem_of_nil in Hin.
    + intros g Hg. apply Hcross; by apply list_elem_of_In, in_map, list_elem_of_In.
Qed.

(** ** From a claimed row to the carrier *)
Lemma joined_case_spec db o c k :
  revision_inv db -> facts_inv db -> cases db !! (ob_TenantID o, k) = Some c ->
  cs_AuthorityRevision c = ob_AuthorityRevision o -> ob_DestinationKind o = "domain_dispatch" ->
  joined_case db o = Some c.
Proof.
  intros Hrev Hf Hc Hr Hk. unfold joined_case. rewrite Hk. cbn.
  destruct (facts_case _ Hf _ _ _ Hc) as (Ht & _).
  destruct (list_find _ _) as [[i x]|] eqn:E; cbn.
  - apply list_find_Some in E as (Hx & [Hxt Hxr] & _).
    apply list_elem_of_lookup_2, list_elem_of_fmap in Hx as ([k' x'] & -> & Hin).
    apply elem_of_map_to_list in Hin. cbn in *.
    assert (k' = (ob_TenantID o, k)) as -> by (eapply (one_case _ Hrev); [done..|congruence]).
    congruence.
  - apply list_find_None in E. rewrite List.Forall_forall in E. exfalso. apply (E c); [|done].
    apply list_elem_of_In, list_elem_of_fmap. exists ((ob_TenantID o, k), c). split; [done|].
    by apply elem_of_map_to_list.
Qed.

Lemma joined_delivery_spec db o e g s d :
  revision_inv db -> deliveries db !! (ob_TenantID o, e, g, s) = Some d ->
  ed_AuthorityRevision d = ob_AuthorityRevision o -> ob_DestinationKind o = "edge_delivery" ->
  joined_delivery db o = Some ((ob_TenantID o, e, g, s), d).
Proof.
  intros Hrev Hd Hr Hk. unfold joined_delivery. rewrite Hk. cbn.
  destruct (list_find _ _) as [[i [k x]]|] eqn:E; cbn.
  - apply list_find_Some in E as (Hx & [Hxt Hxr] & _).
    apply list_elem_of_lookup_2, elem_of_map_to_list in Hx. cbn in *.
    assert (k = (ob_TenantID o, e, g, s)) as ->
      by (eapply (one_delivery _ Hrev); [done..|congruence]). congruence.
  - apply list_find_None in E. rewrite List.Forall_forall in E. exfalso.
    apply (E ((ob_TenantID o, e, g, s), d)); [|done].
    by apply list_elem_of_In, elem_of_map_to_list.
Qed.

(** The item read for a row, by its route. *)
Lemma item_of_wake db id token o c :
  ledger_inv db -> cases db !! (ob_TenantID o, ob_EntityID o) = Some c ->
  ob_AuthorityRevision o = cs_AuthorityRevision c -> destination o = wake_route c ->
  let i := item_of_row db id token o in
  it_DomainID i = cs_Domain c /\ it_EdgeID i = "" /\ it_EdgeGeneration i = 0 /\
  it_DeliverySequence i = 0.
Proof.
  intros [_ Hrev Hf _ _] Hc Hr Hd. injection Hd as Hk Hkey. cbn.
  rewrite (joined_case_spec db o c (ob_EntityID o)) by done.
  unfold joined_delivery. by rewrite Hk.
Qed.

Lemma item_of_edge db id token o e g s d :
  ledger_inv db -> deliveries db !! (ob_TenantID o, e, g, s) = Some d ->
  ed_AuthorityRevision d = ob_AuthorityRevision o -> ob_DestinationKind o = "edge_delivery" ->
  let i := item_of_row db id token o in
  it_DomainID i = "" /\ it_EdgeID i = e /\ it_EdgeGeneration i = g /\ it_DeliverySequence i = s.
Proof.
  intros [Hl Hrev _ _ _] Hd Hr Hk. cbn.
  rewrite (joined_delivery_spec db o e g s d) by done. unfold joined_case. rewrite Hk. cbn.
  by rewrite (log_sequence _ Hl _ _ _ Hd).
Qed.

Lemma is_empty_false s : s <> "" -> is_empty s = false.
Proof. by destruct s. Qed.

Lemma edgeKey_nonempty e g : edgeKey e g <> "".
Proof. unfold edgeKey. by destruct e. Qed.

Record item_common (i : Item) : Prop := {
  ic_id : it_ID i <> "";
  ic_token : it_LeaseToken i <> "";
  ic_tenant : it_TenantID i <> "";
  ic_entity : it_EntityID i <> "";
  ic_raw : 0 < len (it_Raw i) <= MaxEnvelopeBytes;
  ic_revision : 0 < it_AuthorityRevision i <= int64_max
}.

Lemma uint64_nonzero z : 0 < z <= int64_max -> (uint64 z =? 0) = false.
Proof. unfold int64_max. intros. rewrite uint64_id by lia. apply Z.eqb_neq. lia. Qed.

Lemma common_valid i :
  item_common i -> it_DestinationKey i <> "" ->
  (it_EventKind i = "case" \/ it_EventKind i = "advice") -> validateCommonItem i = Ok tt.
Proof.
  intros [] Hk He. unfold validateCommonItem. rewrite !is_empty_false by done.
  rewrite (proj2 (Z.eqb_neq _ _)), (proj2 (Z.leb_gt _ _)) by lia.
  by destruct He as [->| ->].
Qed.

Lemma publishRequest_wake i :
  item_common i -> it_DestinationKind i = "domain_dispatch" -> it_EventKind i = "case" ->
  it_DestinationKey i = it_DomainID i -> it_DomainID i <> "" -> it_EdgeID i = "" ->
  it_EdgeGeneration i = 0 -> it_DeliverySequence i = 0 ->
  publishRequest i = Ok
    {| OutboxID := it_ID i; Destination := DestinationDomain; pr_TenantID := it_TenantID i;
       pr_DomainID := it_DomainID i; pr_EdgeID := ""; pr_EdgeGeneration := 0;
       RawSSP := it_Raw i; FactSequence := uint64 (it_AuthorityRevision i);
       pr_DeliverySequence := 0 |}.
Proof.
  intros Hc Hd Hk Hkey Hdom He Hg Hs. unfold publishRequest.
  rewrite common_valid by (first [done|by rewrite Hkey|by left]). cbn [mbind result_bind].
  rewrite Hd, Hk, He, Hg, Hs, Hkey, String.eqb_refl, !(is_empty_false (it_DomainID i)) by done.
  cbn -[SubjectFor]. unfold SubjectFor, validatePublishRequest. cbn -[destinationSubject].
  destruct Hc. rewrite is_empty_false by done. rewrite uint64_nonzero by done.
  rewrite (proj2 (Z.eqb_neq (len (it_Raw i)) 0)), (proj2 (Z.ltb_ge _ (len (it_Raw i)))) by lia. cbn -[destinationSubject].
  unfold destinationSubject. rewrite !is_empty_false, !String.eqb_refl by done. reflexivity.
Qed.

Lemma publishRequest_edge i :
  item_common i -> it_DestinationKind i = "edge_delivery" ->
  (it_EventKind i = "case" \/ it_EventKind i = "advice") ->
  it_DestinationKey i = edgeKey (it_EdgeID i) (it_EdgeGeneration i) -> it_EdgeID i <> "" ->
  0 < it_EdgeGeneration i <= int64_max -> 0 < it_DeliverySequence i <= int64_max ->
  it_DomainID i = "" ->
  publishRequest i = Ok
    {| OutboxID := it_ID i; Destination := DestinationEdge; pr_TenantID := it_TenantID i;
       pr_DomainID := ""; pr_EdgeID := it_EdgeID i;
       pr_EdgeGeneration := uint64 (it_EdgeGeneration i); RawSSP := it_Raw i;
       FactSequence := uint64 (it_AuthorityRevision i);
       pr_DeliverySequence := uint64 (it_DeliverySequence i) |}.
Proof.
  intros Hc Hd Hk Hkey He Hg Hs Hdom. unfold publishRequest.
  rewrite common_valid by (try done; rewrite Hkey; apply edgeKey_nonempty).
  cbn [mbind result_bind]. rewrite Hd, Hdom, Hkey. unfold edgeKey. rewrite String.eqb_refl.
  rewrite (is_empty_false (it_EdgeID i)) by done.
  rewrite !(proj2 (Z.leb_gt _ _)) by lia.
  replace (negb (it_EventKind i =s? EventCase) && negb (it_EventKind i =s? EventAdvice)) with false
    by (by destruct Hk as [->| ->]).
  cbn -[SubjectFor uint64]. unfold SubjectFor, validatePublishRequest.
  cbn -[destinationSubject uint64].
  destruct Hc. rewrite is_empty_false by done. rewrite !uint64_nonzero by done.
  rewrite (proj2 (Z.eqb_neq (len (it_Raw i)) 0)), (proj2 (Z.ltb_ge _ (len (it_Raw i)))) by lia.
  cbn -[destinationSubject uint64]. unfold destinationSubject.
  rewrite (is_empty_false (it_TenantID i)), (is_empty_false (it_EdgeID i)) by done.
  rewrite ?uint64_nonzero, ?String.eqb_refl by done. reflexivity.
Qed.

(** The bounds the schema and the API put on a row: BIGINT columns, and
    envelopes of at most 64 KiB. *)
Record row_fits (db : DB) (o : OutboxRow) : Prop := {
  fits_revision : revision_seq db <= int64_max + 1;
  fits_raw : len (ob_Raw o) <= MaxEnvelopeBytes;
  fits_generation : forall t e g s d, deliveries db !! (t, e, g, s) = Some d -> g <= int64_max;
  fits_sequence : forall t e g s d, deliveries db !! (t, e, g, s) = Some d -> s <= int64_max
}.

Lemma outbox_id_nonempty o : outbox_id o <> "".
Proof. done. Qed.

Lemma outbox_item_common db id token o c :
  ledger_inv db -> outbox db !! id = Some o -> row_fits db o -> token <> "" ->
  cases db !! (ob_TenantID o, ob_EntityID o) = Some c -> len (ob_Raw o) <> 0 ->
  item_common (item_of_row db id token o).
Proof.
  intros Hi Ho [] Htok Hc Hraw. destruct (ob_rows _ (inv_outbox _ Hi) _ _ Ho) as (-> & _ & _).
  destruct (facts_case _ (inv_facts _ Hi) _ _ _ Hc) as (Ht & Hid & (_ & H1 & H2 & _) & _).
  pose proof (rev_outbox _ (inv_revision _ Hi) _ _ Ho). pose proof (len_nonneg (ob_Raw o)).
  constructor; cbn; try done; try congruence; lia.
Qed.

(** Every claimed row can be published, to the right recipient.  For any
    row of a reachable outbox and any non-empty lease token, the item read for
    it is accepted by [publishRequest]; the request carries the exact bytes and
    revision of the committed case or advice, and goes either to the domain of
    that case or to the edge generation that issued it, at the sequence number
    it has in that edge's log. *)
Theorem outbox_rows_publishable db id token o :
  store_reachable db -> outbox db !! id = Some o -> row_fits db o -> token <> "" ->
  exists r c, publishRequest (item_of_row db id token o) = Ok r /\
    cases db !! (ob_TenantID o, ob_EntityID o) = Some c /\
    OutboxID r = id /\ RawSSP r = ob_Raw o /\ FactSequence r = ob_AuthorityRevision o /\
    ((Destination r = DestinationDomain /\ pr_DomainID r = cs_Domain c /\
      ob_Raw o = cs_Raw c) \/
     (Destination r = DestinationEdge /\ pr_EdgeID r = cs_IssuerEdgeID c /\
      pr_EdgeGeneration r = cs_IssuerEdgeGeneration c /\
      exists d, deliveries db !! (row_edge_key (ob_TenantID o) c, pr_DeliverySequence r) = Some d /\
        ed_Raw d = ob_Raw o /\ ed_AuthorityRevision d = ob_AuthorityRevision o)).
Proof.
  intros Hi%store_reachable_inv Ho Hfit Htok.
  destruct (ob_rows _ (inv_outbox _ Hi) _ _ Ho) as (_ & _ & c & Hc & Hsrc).
  destruct (facts_case _ (inv_facts _ Hi) _ _ _ Hc) as (Ht & _ & (Hgen & _ & _ & Hdom & Hedge & Hraw) & s & Hs).
  assert (Hu : uint64 (ob_AuthorityRevision o) = ob_AuthorityRevision o).
  { pose proof (rev_outbox _ (inv_revision _ Hi) _ _ Ho). destruct Hfit. apply uint64_id.
    unfold int64_max in *. lia. }
  assert (Hkind : ob_EventKind o = "case" \/ ob_EventKind o = "advice") by naive_solver.
  assert (Hlen : len (ob_Raw o) <> 0).
  { destruct Hsrc as [(_ & -> & _)|(a & Ha & _ & -> & _)]; [done|].
    destruct (facts_advice _ (inv_facts _ Hi) _ _ _ Ha) as (c' & _ & Hb & _). apply Hb. }
  pose proof (outbox_item_common db id token o c Hi Ho Hfit Htok Hc Hlen) as Hcom.
  assert (Hto_edge : forall s d, destination o = advice_route c ->
    deliveries db !! (row_edge_key (ob_TenantID o) c, s) = Some d ->
    ed_AuthorityRevision d = ob_AuthorityRevision o -> ed_Raw d = ob_Raw o ->
    exists r, publishRequest (item_of_row db id token o) = Ok r /\ OutboxID r = id /\
      RawSSP r = ob_Raw o /\ FactSequence r = ob_AuthorityRevision o /\
      Destination r = DestinationEdge /\ pr_EdgeID r = cs_IssuerEdgeID c /\
      pr_EdgeGeneration r = cs_IssuerEdgeGeneration c /\ pr_DeliverySequence r = s).
  { intros s' d Hroute Hd Hr Hraw'. injection Hroute as Hk Hkey.
    destruct (item_of_edge db id token o _ _ s' d Hi Hd Hr Hk) as (I1 & I2 & I3 & I4).
    pose proof (fits_generation _ _ Hfit _ _ _ _ _ Hd). pose proof (fits_sequence _ _ Hfit _ _ _ _ _ Hd).
    assert (1 <= s') by (eapply (log_dense _ (inv_log _ Hi)); eauto).
    eexists. split; [apply publishRequest_edge|]; rewrite ?I1, ?I2, ?I3, ?I4; try done; try lia.
    cbn -[uint64]. rewrite Hu, !uint64_id by (unfold int64_max in *; lia). by split_and!. }
  destruct Hsrc as [(Hk & Hr & Hrev & [Hroute|Hroute])|(a & Ha & Hk & Hr & Hrev & Hroute)].
  - destruct (item_of_wake db id token o c Hi Hc Hrev Hroute) as (I1 & I2 & I3 & I4).
    injection Hroute as Hdk Hkey. eexists _, c.
    split; [apply publishRequest_wake; rewrite ?I1; done|]. cbn -[uint64]. rewrite Hu.
    split_and!; [done..|]. left. split_and!; [done| |done]. exact I1.
  - destruct (Hto_edge s _ Hroute Hs (eq_sym Hrev) (eq_sym Hr)) as (r & Hp & ? & ? & ? & ? & ? & ? & E).
    exists r, c. split_and!; [done..|]. right. split_and!; [done..|]. rewrite E. eauto.
  - destruct (facts_advice _ (inv_facts _ Hi) _ _ _ Ha) as (c' & Hc' & _ & Hd & _).
    assert (c' = c) as -> by congruence.
    destruct (Hto_edge _ _ Hroute Hd (eq_sym Hrev) (eq_sym Hr)) as (r & Hp & ? & ? & ? & ? & ? & ? & E).
    exists r, c. split_and!; [done..|]. right. split_and!; [done..|]. rewrite E. eauto.
Qed.
