(* ===== verification/AuthorityExample.v ===== *)
(** * A worked ledger: one tenant, one registry, one case, one advice

    The concrete ledger the theorems about the authority are evaluated on:
    a registry naming one edge, a case issued by it, the advice for the case,
    and a rolled-back registry that halts the tenant. *)
From S2P Require Import Prelude GoText GoTime Sha256 DeliveryStream Authority PgTx AuthorityStore OutboxWorker AuthorityOutbox AuthoritySpec AuthorityInv AuthorityTheorems AuthorityProgress AuthorityReads.
From stdpp Require Import sorting list_numbers.
Open Scope string_scope.
Open Scope Z_scope.
Open Scope snag_scope.

Definition digest_of (c : string) : string :=
  "sha256:" ++ c ++ "bcdef0123456789abcdef0123456789abcdef0123456789abcdef0123456789".

Definition ex_registry : CommitRegistryRequest :=
  {| cr_TenantID := "acme"; cr_Revision := 1; cr_EnvelopeID := "reg-env-1";
     cr_Commitment := digest_of "a"; cr_Raw := "{registry}"; cr_RoutingEpoch := 4;
     cr_PreviousCommitment := "";
     cr_Edges := Some {["edge-1" := {| re_PrincipalID := "spiffe-1"; re_Generation := 2 |}]};
     cr_PrincipalID := "admin"; cr_EdgeID := ""; cr_Decision := "registry" |}.

Definition ex_case : CommitCaseRequest :=
  {| cc_TenantID := "acme"; cc_CaseID := "case-1"; cc_EnvelopeID := "env-1";
     cc_Commitment := digest_of "b"; cc_Raw := "{case}"; cc_Domain := "payments";
     cc_IssuerEdgeID := "edge-1"; cc_IssuerEdgeGeneration := 2; cc_RoutingEpoch := 4;
     cc_RegistryRevision := 1; cc_RegistryHash := digest_of "a"; cc_ExpiresAt := 5 * second;
     cc_PrincipalID := "spiffe-1"; cc_EdgeID := "edge-1"; cc_Decision := "commit" |}.

Definition ex_advice : CommitAdviceRequest :=
  {| ca_TenantID := "acme"; ca_CaseID := "case-1"; ca_EnvelopeID := "env-2";
     ca_CaseCommitment := digest_of "b"; ca_Commitment := digest_of "c"; ca_Raw := "{advice}";
     ca_RoutingEpoch := 4; ca_RegistryRevision := 1; ca_RegistryHash := digest_of "a";
     ca_PrincipalID := "dispatcher"; ca_EdgeID := ""; ca_Decision := "advise" |}.

(** A conflicting registry at the current revision. *)
Definition ex_conflict : CommitRegistryRequest :=
  {| cr_TenantID := "acme"; cr_Revision := 1; cr_EnvelopeID := "reg-env-2";
     cr_Commitment := digest_of "d"; cr_Raw := "{other}"; cr_RoutingEpoch := 4;
     cr_PreviousCommitment := ""; cr_Edges := Some ∅;
     cr_PrincipalID := "admin"; cr_EdgeID := ""; cr_Decision := "registry" |}.

Definition ex_case_row : CaseRecord := case_row ex_case 2.

Definition ex_db1 : DB := add_registry ex_registry empty_db.
Definition ex_db2 : DB := add_case ex_case 10 10 ex_db1.
Definition ex_db3 : DB := add_advice ex_advice ex_case_row 20 ex_db2.
Definition ex_db4 : DB := halt_head "acme" registryHaltSameRevisionConflict ex_db3.

#[local] Opaque deterministicOutboxID.

Lemma ex_step1 : store_step empty_db ex_db1.
Proof. exact (SRegistry "authority" ex_registry (calm 10) empty_db eq_refl). Qed.

Lemma ex_head1 : heads ex_db1 !! "acme" = Some (head_row ex_registry false "").
Proof. reflexivity. Qed.

Lemma ex_db1_empty : cases ex_db1 = ∅ /\ deliveries ex_db1 = ∅ /\ outbox ex_db1 = ∅ /\
  advice ex_db1 = ∅ /\ sequences ex_db1 = ∅.
Proof. done. Qed.

Lemma ex_case_admits : admits_case ex_case ex_db1.
Proof.
  destruct ex_db1_empty as (Ec & Ed & Eo & _ & _).
  unfold admits_case, outbox_fresh. rewrite Ec, Ed, Eo. split_and!; try reflexivity.
  - exists (head_row ex_registry false ""). split; [exact ex_head1|done].
  - intros k c H. by rewrite lookup_empty in H.
  - intros k d H. by rewrite lookup_empty in H.
Qed.

Lemma ex_step2 : store_step ex_db1 ex_db2.
Proof. exact (SCase "authority" ex_case (calm 10) ex_db1 eq_refl). Qed.

Lemma ex_deliveries2 : deliveries ex_db2 =
  {[("acme", "edge-1", 2, 1) := case_delivery ex_case 1 2]}.
Proof. reflexivity. Qed.

Lemma ex_step3 : store_step ex_db2 ex_db3.
Proof. exact (SAdvice "authority" ex_advice (calm 20) ex_db2 eq_refl). Qed.

Lemma ex_step4 : store_step ex_db3 ex_db4.
Proof. exact (SRegistry "authority" ex_conflict (calm 30) ex_db3 eq_refl). Qed.

Lemma ex_run : rtc store_step empty_db ex_db3.
Proof. do 3 (eapply rtc_l; [first [apply ex_step1|apply ex_step2|apply ex_step3]|]). done. Qed.

(** ** The theorems at work on this ledger *)
Lemma store_refines_ledger_witness :
  rtc store_step ex_db1
    (CommitCase "authority" ex_case (fun _ => calm 10) (fun _ d => d) ex_db1).1.
Proof.
  exact (proj1 (store_refines_ledger "authority" (fun _ => calm 10) (fun _ d => d) ex_db1
    (fun _ d => rtc_refl store_step d)) ex_case).
Defined.

Lemma ledger_append_only_witness : ledger_extends ex_db1 ex_db3.
Proof.
  apply (ledger_append_only ex_db1 ex_db3).
  - apply rtc_once, ex_step1.
  - eapply rtc_l; [apply ex_step2|]. apply rtc_once, ex_step3.
Defined.

Lemma delivery_log_contiguous_witness :
  is_Some (deliveries ex_db3 !! ("acme", "edge-1", 2, 2)) <->
  1 <= 2 < next_sequence ex_db3 ("acme", "edge-1", 2).
Proof. exact (proj1 (delivery_log_contiguous ex_db3 "acme" "edge-1" 2 2 ex_run)). Defined.

Lemma final_advice_bound_witness :
  exists a, advice ex_db3 !! ("acme", "case-1") = Some a /\
  exists c s, cases ex_db3 !! ("acme", "case-1") = Some c /\ advice_binds a c /\
    deliveries ex_db3 !! ("acme", cs_IssuerEdgeID c, cs_IssuerEdgeGeneration c, s) =
      Some (delivery_of_case c s) /\
    deliveries ex_db3 !! ("acme", cs_IssuerEdgeID c, cs_IssuerEdgeGeneration c,
      av_DeliverySequence a) = Some (delivery_of_advice "case-1" a) /\
    s < av_DeliverySequence a.
Proof.
  exists (advice_row ex_advice "edge-1" 2 2 3). split; [reflexivity|].
  apply (final_advice_bound ex_db3 "acme" "case-1"); [apply ex_run|reflexivity].
Defined.

Lemma registry_hash_chain_witness :
  exists g, registries ex_db3 !! ("acme", 1) = Some g /\
    rr_Commitment g = digest_of "a" /\ rr_RoutingEpoch g = 4.
Proof.
  refine (proj1 (registry_hash_chain ex_db3 "acme" (head_row ex_registry false "") ex_run _)).
  reflexivity.
Defined.

Lemma halt_is_sticky_witness :
  tenant_frozen "acme" (halted_head registryHaltSameRevisionConflict
    (head_row ex_registry false "")) ex_db4
    (attempt "case" (commitCaseWork "authority" ex_case) (calm 40) ex_db4).1.
Proof.
  refine (proj1 (halt_is_sticky "authority" _ _ _ _ _ _ _)).
  - reflexivity.
  - reflexivity.
  - apply rtc_once, SCase. reflexivity.
Defined.

Lemma edge_generation_high_water_witness :
  exists w', highwater ex_db3 !! ("acme", "edge-1") = Some w' /\ 2 <= hw_HighestGeneration w'.
Proof.
  destruct (edge_generation_high_water ex_db1 ex_db3 "acme" "edge-1"
    {| hw_PrincipalID := "spiffe-1"; hw_HighestGeneration := 2; hw_LastSeenRevision := 1 |})
    as (w' & Hw & Hg & _).
  - eapply rtc_l; [apply ex_step2|]. apply rtc_once, ex_step3.
  - reflexivity.
  - exists w'. split; [exact Hw|]. cbn in Hg. lia.
Defined.

(** A commit without a registry is refused and leaves the database alone. *)
Lemma failed_commit_changes_nothing_witness :
  exists n, 1 <= n /\
    (CommitCase "authority" ex_case (fun _ => calm 10) (fun _ d => d) empty_db).1 =
      set_revision_seq n empty_db.
Proof.
  refine (proj1 (failed_commit_changes_nothing "authority" (fun _ => calm 10) empty_db _)
    ex_case _ ErrRegistryNotFound _).
  - intros k. reflexivity.
  - reflexivity.
Defined.

Lemma ex_case_commits :
  CommitCase "authority" ex_case (fun _ => calm 10) (fun _ d => d) ex_db1 =
    (ex_db2, Ok (receipt "authority" 2 "env-1" (digest_of "b"))).
Proof. reflexivity. Qed.

Lemma receipts_are_durable_witness :
  exists c s, cases ex_db2 !! ("acme", "case-1") = Some c /\ case_replayed ex_case c /\
    deliveries ex_db2 !! (row_edge_key "acme" c, s) = Some (delivery_of_case c s).
Proof.
  destruct (proj1 (receipts_are_durable "authority" (fun _ => calm 10) (fun _ d => d) ex_db1
    (rtc_once _ _ ex_step1) (fun _ d => rtc_refl store_step d))
    ex_case ex_db2 _ ex_case_commits) as (c & s & Hc & Hx & _ & Hd & _).
  exists c, s. split; [exact Hc|]. split; [exact Hx|exact Hd].
Defined.

Lemma exact_replay_is_idempotent_witness :
  CommitCase "authority" ex_case (fun _ => calm 99) (fun _ d => d) ex_db3 =
    (ex_db3, Ok (receipt "authority" 2 "env-1" (digest_of "b"))).
Proof.
  refine (proj1 (exact_replay_is_idempotent "authority" (fun _ => calm 10) (fun _ d => d) 99
    ex_db1 ex_db2 ex_db3 (rtc_once _ _ ex_step1) (fun _ d => rtc_refl store_step d)
    (rtc_once _ _ ex_step3)) ex_case _ ex_case_commits _).
  reflexivity.
Defined.

Lemma admissible_requests_commit_witness :
  CommitCase "authority" ex_case (fun _ => calm 10) (fun _ d => d) ex_db1 =
    (add_case ex_case 10 10 ex_db1,
     Ok (receipt "authority" (revision_seq ex_db1) "env-1" (digest_of "b"))) \/
  outbox_clash (case_texts ex_case ex_db1) ex_db1.
Proof.
  refine (proj1 (admissible_requests_commit "authority" 10 ex_db1 (rtc_once _ _ ex_step1))
    ex_case _).
  - destruct ex_case_admits as (H1 & H2 & H3 & H4 & H5 & _).
    split; [exact H1|]. split; [exact H2|]. split; [exact H3|]. split; [exact H4|exact H5].
Defined.

Definition ex_query : EdgeDeliveryQuery :=
  {| dq_TenantID := "acme"; dq_EdgeID := "edge-1"; dq_PrincipalID := "spiffe-1";
     dq_EdgeGeneration := 2; dq_AfterSequence := 0; dq_Limit := 10 |}.

Lemma ListEdgeDeliveries_exact_witness :
  exists page, ListEdgeDeliveries ex_query ex_db3 = Ok page /\
    map ed_Sequence (dp_Deliveries page) = seqZ 1 (Z.min 10 (dp_HighWatermark page - 0)).
Proof.
  eexists. split; [vm_compute; reflexivity|].
  refine (proj1 (proj2 (ListEdgeDeliveries_exact ex_query ex_db3 _ ex_run _))).
  vm_compute. reflexivity.
Defined.

Definition ex_fact_query : ProjectionFactQuery :=
  {| fq_TenantID := "acme"; fq_After := 0; fq_Limit := 10 |}.

Lemma ListProjectionFacts_exact_witness :
  exists page, ListProjectionFacts ex_fact_query ex_db3 = Ok page /\ pp_Facts page <> [] /\
    StronglySorted Z.lt (map pf_AuthorityRevision (pp_Facts page)).
Proof.
  eexists. split; [vm_compute; reflexivity|]. split; [discriminate|].
  refine (proj1 (ListProjectionFacts_exact ex_fact_query ex_db3 _ ex_run _)).
  vm_compute. reflexivity.
Defined.

Definition ex_wake : OutboxRow :=
  outbox_row "acme" "case" "case-1" "{case}" 2 ("domain_dispatch", "payments") 10.

Lemma outbox_rows_publishable_witness :
  exists r, publishRequest (item_of_row ex_db2 (outbox_id ex_wake) "token" ex_wake) = Ok r /\
    RawSSP r = "{case}".
Proof.
  destruct (outbox_rows_publishable ex_db2 (outbox_id ex_wake) "token" ex_wake)
    as (r & c & Hp & _ & _ & Hraw & _).
  - eapply rtc_l; [apply ex_step1|]. apply rtc_once, ex_step2.
  - reflexivity.
  - split.
    + vm_compute. discriminate.
    + vm_compute. discriminate.
    + intros t e g s d H. rewrite ex_deliveries2 in H.
      apply lookup_singleton_Some in H as [H _]. injection H as _ _ <- _. vm_compute. discriminate.
    + intros t e g s d H. rewrite ex_deliveries2 in H.
      apply lookup_singleton_Some in H as [H _]. injection H as _ _ _ <-. vm_compute. discriminate.
  - discriminate.
  - exists r. split; [exact Hp|exact Hraw].
Defined.
