(* ===== verification/SqliteTx.v ===== *)
(** * The edge's SQLite transactions

    Every operation of internal/sspedge runs under the store's write mutex in
    one SQLite transaction: [BeginTx], statements, [Commit], with a deferred
    [Rollback].  A closure is a state and error monad over the tables; any
    statement, the BEGIN and the COMMIT may fail with a driver error, and a
    transaction that does not reach a successful COMMIT leaves the tables as
    they were. *)
From S2P Require Import Prelude.
Open Scope string_scope.
Open Scope Z_scope.

(** The outside of one transaction: which statement the driver fails, and what
    crypto/rand returns at each read. *)
Record TxEnv := {
  io : nat -> option string;
  random : nat -> nat -> ascii
}.

(** [rand.Read] into a buffer of [n] bytes. *)
Fixpoint random_bytes (f : nat -> ascii) (n : nat) : string :=
  match n with O => "" | S n => String (f n) (random_bytes f n) end.

Lemma len_random_bytes f n : len (random_bytes f n) = Z.of_nat n.
Proof. unfold len. induction n as [|n IH]; cbn; lia. Qed.

Definition STx (S A : Type) : Type := TxEnv -> nat * S -> (nat * S) * result string A.

#[export] Instance stx_ret S : MRet (STx S) := fun A a env st => (st, Ok a).
#[export] Instance stx_bind S : MBind (STx S) := fun A B k m env st =>
  match m env st with
  | (st', Ok a) => k a env st'
  | (st', Err e) => (st', Err e)
  end.

Section Tx.
Context {S : Type}.

Definition fail {A} (e : string) : STx S A := fun _ st => (st, Err e).
Definition check (b : bool) (e : string) : STx S unit := if b then fail e else mret tt.
Definition lift {A} (r : result string A) : STx S A := fun _ st => (st, r).

(** One SQL statement. *)
Definition sql {A} (f : S -> result string (A * S)) : STx S A := fun env st =>
  match io env st.1 with
  | Some e => ((Datatypes.S st.1, st.2), Err e)
  | None =>
      match f st.2 with
      | Ok (a, s) => ((Datatypes.S st.1, s), Ok a)
      | Err e => ((Datatypes.S st.1, st.2), Err e)
      end
  end.

Definition select {A} (f : S -> A) : STx S A := sql (fun s => Ok (f s, s)).
Definition exec (f : S -> S) : STx S unit := sql (fun s => Ok (tt, f s)).
Definition rand (n : nat) : STx S string := fun env st =>
  ((Datatypes.S st.1, st.2), Ok (random_bytes (random env st.1) n)).

(** BEGIN is statement 0, COMMIT the statement after the closure. *)
Definition run_tx {A} (work : STx S A) (env : TxEnv) (s : S) : S * result string A :=
  match io env 0 with
  | Some e => (s, Err e)
  | None =>
      match work env (1%nat, s) with
      | ((n, s'), Ok a) =>
          match io env n with
          | Some e => (s, Err e)
          | None => (s', Ok a)
          end
      | (_, Err e) => (s, Err e)
      end
  end.

(** ** Inversion *)
Lemma stx_bind_ok {A B} (m : STx S A) (k : A -> STx S B) env st st' b :
  (m ≫= k) env st = (st', Ok b) ->
  exists a st1, m env st = (st1, Ok a) /\ k a env st1 = (st', Ok b).
Proof. unfold mbind, stx_bind. destruct (m env st) as [st1 [a|e]] eqn:E; [|done]. eauto. Qed.

Lemma sql_ok {A} (f : S -> result string (A * S)) env st st' a :
  sql f env st = (st', Ok a) -> exists s, f st.2 = Ok (a, s) /\ st' = (Datatypes.S st.1, s).
Proof.
  unfold sql. destruct (io env st.1); [done|].
  destruct (f st.2) as [[a' s]|]; [|done]. intros H. injection H as <- <-. eauto.
Qed.

Lemma select_ok {A} (f : S -> A) env st st' a :
  select f env st = (st', Ok a) -> a = f st.2 /\ st' = (Datatypes.S st.1, st.2).
Proof. intros (s & H & ->)%sql_ok. by injection H as <- <-. Qed.

Lemma exec_ok (f : S -> S) env st st' u :
  exec f env st = (st', Ok u) -> st' = (Datatypes.S st.1, f st.2).
Proof. intros (s & H & ->)%sql_ok. by injection H as <- <-. Qed.

Lemma rand_ok n env st st' a : rand n env st = (st', Ok a) ->
  a = random_bytes (random env st.1) n /\ st' = (Datatypes.S st.1, st.2).
Proof. unfold rand. intros H. by injection H as <- <-. Qed.

Lemma check_ok b e env st st' u : check b e env st = (st', Ok u) -> b = false /\ st' = st.
Proof. unfold check. by destruct b; intros H; inversion H. Qed.

Lemma sret_ok {A} (a b : A) env st st' : (mret a : STx S A) env st = (st', Ok b) -> b = a /\ st' = st.
Proof. intros H. by injection H. Qed.

Lemma fail_ok {A} e env st st' (a : A) : fail e env st = (st', Ok a) -> False.
Proof. done. Qed.

Lemma lift_ok {A} (r : result string A) env st st' a : lift r env st = (st', Ok a) ->
  r = Ok a /\ st' = st.
Proof. unfold lift. intros H. by injection H as <- <-. Qed.

(** A transaction either fails and changes nothing, or is its closure. *)
Lemma run_tx_cases {A} (work : STx S A) env s s' r :
  run_tx work env s = (s', r) ->
  (exists e, r = Err e /\ s' = s) \/
  (exists n a, r = Ok a /\ work env (1%nat, s) = ((n, s'), Ok a)).
Proof.
  unfold run_tx. destruct (io env 0); [intros H; injection H as <- <-; eauto|].
  destruct (work env (1%nat, s)) as [[n s1] [a|e]] eqn:E; [|intros H; injection H as <- <-; eauto].
  destruct (io env n); intros H; injection H as <- <-; eauto 10.
Qed.

Lemma run_tx_ok {A} (work : STx S A) env s s' a :
  run_tx work env s = (s', Ok a) -> exists n, work env (1%nat, s) = ((n, s'), Ok a).
Proof. intros [(e & ? & _)|(n & b & [= ->] & ?)]%run_tx_cases; [done|eauto]. Qed.

Lemma run_tx_err {A} (work : STx S A) env s s' e :
  run_tx work env s = (s', Err e) -> s' = s.
Proof. intros [(e' & _ & ->)|(n & a & ? & _)]%run_tx_cases; done. Qed.
End Tx.

(** Open a successful closure statement by statement. *)
Ltac stx_step :=
  match goal with
  | H : mbind _ _ _ _ = (_, Ok _) |- _ =>
      let a := fresh "a" in let st := fresh "st" in let Hm := fresh "Hm" in
      apply stx_bind_ok in H as (a & st & Hm & H)
  | H : mret _ _ _ = (_, Ok _) |- _ =>
      let Ha := fresh "Hret" in let Hs := fresh "Hst" in
      apply sret_ok in H as [Ha Hs]; subst; cbn [fst snd] in *
  | H : select _ _ _ = (_, Ok _) |- _ =>
      let Ha := fresh "Hq" in let Hs := fresh "Hst" in
      apply select_ok in H as [Ha Hs]; subst; cbn [fst snd] in *
  | H : exec _ _ _ = (_, Ok _) |- _ =>
      apply exec_ok in H; subst; cbn [fst snd] in *
  | H : rand _ _ _ = (_, Ok _) |- _ =>
      let Ha := fresh "Hrand" in let Hs := fresh "Hst" in
      apply rand_ok in H as [Ha Hs]; subst; cbn [fst snd] in *
  | H : check _ _ _ _ = (_, Ok _) |- _ =>
      let Ha := fresh "Hc" in let Hs := fresh "Hst" in
      apply check_ok in H as [Ha Hs]; subst; cbn [fst snd] in *
  | H : lift _ _ _ = (_, Ok _) |- _ =>
      let Ha := fresh "Hl" in let Hs := fresh "Hst" in
      apply lift_ok in H as [Ha Hs]; subst; cbn [fst snd] in *
  | H : fail _ _ _ = (_, Ok _) |- _ => destruct (fail_ok _ _ _ _ _ H)
  | H : sql _ _ _ = (_, Ok _) |- _ =>
      let s := fresh "s" in let Hd := fresh "Hsql" in let Hs := fresh "Hst" in
      apply sql_ok in H as (s & Hd & Hs); subst; cbn [fst snd] in *
  end.
Ltac stx_inv := repeat stx_step.
