(* ===== verification/GoJson.v ===== *)
(** * encoding/json: strings

    [json.Marshal] of a Go string: two-character escapes, [\u00XX] for the
    other control characters and for the HTML characters, [\u2028] and
    [\u2029], and the replacement character for a byte that is not UTF-8. *)
From S2P Require Import Prelude GoText.
Open Scope string_scope.
Open Scope Z_scope.

Definition byte1 (z : Z) (s : string) : string := String (of_code z) s.

Definition encode_rune (c : Z) : string :=
  if c <? 0x80 then byte1 c ""
  else if c <? 0x800 then
    byte1 (Z.lor 0xC0 (Z.shiftr c 6)) (byte1 (Z.lor 0x80 (Z.land c 0x3F)) "")
  else if c <? 0x10000 then
    byte1 (Z.lor 0xE0 (Z.shiftr c 12))
      (byte1 (Z.lor 0x80 (Z.land (Z.shiftr c 6) 0x3F)) (byte1 (Z.lor 0x80 (Z.land c 0x3F)) ""))
  else
    byte1 (Z.lor 0xF0 (Z.shiftr c 18))
      (byte1 (Z.lor 0x80 (Z.land (Z.shiftr c 12) 0x3F))
        (byte1 (Z.lor 0x80 (Z.land (Z.shiftr c 6) 0x3F)) (byte1 (Z.lor 0x80 (Z.land c 0x3F)) ""))).

Definition backslash : ascii := of_code 92.
Definition quote : ascii := of_code 34.
Definition escape (c : Z) : string := String backslash (byte1 c "").
Definition escape_u (c : Z) : string :=
  String backslash (String "u" (String (nibble (Z.shiftr c 12)) (String (nibble (Z.land (Z.shiftr c 8) 15))
    (String (nibble (Z.land (Z.shiftr c 4) 15)) (String (nibble (Z.land c 15)) ""))))).

Definition json_rune (r : option Z) : string :=
  match r with
  | None => escape_u 0xFFFD
  | Some c =>
      if (c =? 34) || (c =? 92) then escape c
      else if c =? 8 then escape 98
      else if c =? 12 then escape 102
      else if c =? 10 then escape 110
      else if c =? 13 then escape 114
      else if c =? 9 then escape 116
      else if (c <? 32) || (c =? 60) || (c =? 62) || (c =? 38) then escape_u c
      else if (c =? 0x2028) || (c =? 0x2029) then escape_u c
      else encode_rune c
  end.

Definition json_string (s : string) : string :=
  String quote (String.concat "" (map json_rune (decode s)) ++ String quote "").

Example json_plain : json_string "hello" = String quote ("hello" ++ String quote "").
Proof. reflexivity. Qed.
Example json_html : json_string "<a>" =
  String quote (escape_u 60 ++ "a" ++ escape_u 62 ++ String quote "").
Proof. reflexivity. Qed.
