(* ===== verification/GoJsonRead.v ===== *)
(** * encoding/json: reading

    The grammar of Go's JSON scanner as an executable parser.  A value keeps
    what the program can observe of it: numbers keep their text, strings their
    decoded value, an array its elements and an object its members with their
    keys, in order, each with the exact bytes of its value (what a
    [json.RawMessage] receives).
    The fuel of the parser is twice the length of its input, which [parse_fuel]
    shows to be enough. *)
From S2P Require Import Prelude GoText GoJson.
Open Scope string_scope.
Open Scope Z_scope.
Open Scope snag_scope.

Infix "=c?" := Ascii.eqb (at level 70, no associativity) : snag_scope.

(** ** Tokens *)
Definition is_ws (a : ascii) : bool :=
  (code a =? 32) || (code a =? 9) || (code a =? 13) || (code a =? 10).

Fixpoint skip_ws (s : string) : string :=
  match s with
  | String a r => if is_ws a then skip_ws r else s
  | EmptyString => s
  end.

Definition push (a : ascii) (x : option (string * string)) : option (string * string) :=
  match x with Some (t, r) => Some (String a t, r) | None => None end.

Definition is_hex (a : ascii) : bool :=
  is_digit a || in_range 97 102 a || in_range 65 70 a.

(** The one-character escapes: backslash, slash, quote, b, f, n, r, t. *)
Definition simple_escape (a : ascii) : bool :=
  (code a =? 34) || (code a =? 92) || (code a =? 47) || (code a =? 98) || (code a =? 102)
  || (code a =? 110) || (code a =? 114) || (code a =? 116).

(** After the opening quote: the text up to the closing quote, and the rest. *)
Fixpoint str_scan (s : string) : option (string * string) :=
  match s with
  | EmptyString => None
  | String a r =>
      if a =c? quote then Some ("", r)
      else if a =c? backslash then
        match r with
        | String e r1 =>
            if simple_escape e then push a (push e (str_scan r1))
            else if e =c? "u" then
              match r1 with
              | String h1 (String h2 (String h3 (String h4 r5))) =>
                  if is_hex h1 && is_hex h2 && is_hex h3 && is_hex h4
                  then push a (push e (push h1 (push h2 (push h3 (push h4 (str_scan r5))))))
                  else None
              | _ => None
              end
            else None
        | EmptyString => None
        end
      else if code a <? 32 then None
      else push a (str_scan r)
  end.

(** ** Unquoting, on the runes of a scanned text *)
Definition hex_value (c : Z) : option Z :=
  if (48 <=? c) && (c <=? 57) then Some (c - 48)
  else if (97 <=? c) && (c <=? 102) then Some (c - 87)
  else if (65 <=? c) && (c <=? 70) then Some (c - 55)
  else None.

Definition hex4 (a b c d : option Z) : option Z :=
  match a ≫= hex_value, b ≫= hex_value, c ≫= hex_value, d ≫= hex_value with
  | Some a, Some b, Some c, Some d => Some (4096 * a + 256 * b + 16 * c + d)
  | _, _, _, _ => None
  end.

Definition surrogate (u : Z) : bool := (0xD800 <=? u) && (u <? 0xE000).
Definition high_unit (u : Z) : bool := (0xD800 <=? u) && (u <=? 0xDBFF).
Definition low_unit (u : Z) : bool := (0xDC00 <=? u) && (u <=? 0xDFFF).
Definition utf16_pair (hi lo : Z) : Z := 0x10000 + 1024 * (hi - 0xD800) + (lo - 0xDC00).

Definition simple_value (c : Z) : Z :=
  if c =? 98 then 8 else if c =? 102 then 12 else if c =? 110 then 10
  else if c =? 114 then 13 else if c =? 116 then 9 else c.

Definition replacement : Z := 0xFFFD.

Fixpoint unquote_runes (l : list (option Z)) : string :=
  match l with
  | [] => ""
  | Some 92 :: Some 117 :: a :: b :: c :: d :: l1 =>
      match hex4 a b c d with
      | None => encode_rune replacement ++ unquote_runes l1
      | Some u =>
          if surrogate u then
            match l1 with
            | Some 92 :: Some 117 :: a' :: b' :: c' :: d' :: l2 =>
                match hex4 a' b' c' d' with
                | Some v =>
                    if high_unit u && low_unit v then encode_rune (utf16_pair u v) ++ unquote_runes l2
                    else encode_rune replacement ++ unquote_runes l1
                | None => encode_rune replacement ++ unquote_runes l1
                end
            | _ => encode_rune replacement ++ unquote_runes l1
            end
          else encode_rune u ++ unquote_runes l1
      end
  | Some 92 :: Some c :: l1 => encode_rune (simple_value c) ++ unquote_runes l1
  | Some c :: l1 => encode_rune c ++ unquote_runes l1
  | None :: l1 => encode_rune replacement ++ unquote_runes l1
  end.

Definition unquote (t : string) : string := unquote_runes (decode t).

(** ** Numbers *)
Fixpoint digits_scan (s : string) : string * string :=
  match s with
  | String a r => if is_digit a then let '(d, r) := digits_scan r in (String a d, r) else ("", s)
  | EmptyString => ("", "")
  end.

Definition int_scan (s : string) : option (string * string) :=
  match s with
  | String a r =>
      if code a =? 48 then Some (String a "", r)
      else if is_digit a then let '(d, r) := digits_scan r in Some (String a d, r)
      else None
  | EmptyString => None
  end.

Definition frac_scan (s : string) : option (string * string) :=
  match s with
  | String a r =>
      if code a =? 46 then
        let '(d, r) := digits_scan r in if is_empty d then None else Some (String a d, r)
      else Some ("", s)
  | EmptyString => Some ("", s)
  end.

Definition exp_scan (s : string) : option (string * string) :=
  match s with
  | String a r =>
      if (code a =? 101) || (code a =? 69) then
        let '(sign, r) := match r with
                          | String b r' => if (code b =? 43) || (code b =? 45) then (String b "", r') else ("", r)
                          | EmptyString => ("", r)
                          end in
        let '(d, r) := digits_scan r in if is_empty d then None else Some (String a (sign ++ d), r)
      else Some ("", s)
  | EmptyString => Some ("", s)
  end.

Definition number_scan (s : string) : option (string * string) :=
  let '(sign, s) := match s with
                    | String a r => if code a =? 45 then (String a "", r) else ("", s)
                    | EmptyString => ("", s)
                    end in
  '(i, s) ← int_scan s;
  '(f, s) ← frac_scan s;
  '(e, s) ← exp_scan s;
  Some (sign ++ i ++ f ++ e, s).

(** ** Values *)
Inductive json : Type :=
| JNull
| JBool (b : bool)
| JNumber (text : string)
| JString (value : string)
| JArray (l : list (string * json))
| JObject (l : list (string * string * json)).

Definition literal_scan (s : string) : option (json * string) :=
  match strip_prefix "null" s with
  | Some r => Some (JNull, r)
  | None =>
      match strip_prefix "true" s with
      | Some r => Some (JBool true, r)
      | None =>
          match strip_prefix "false" s with
          | Some r => Some (JBool false, r)
          | None => match number_scan s with Some (t, r) => Some (JNumber t, r) | None => None end
          end
      end
  end.

(** The part of [s] before its suffix [r]. *)
Definition before (s r : string) : string := substring 0 (String.length s - String.length r) s.

Fixpoint parse_value (n : nat) (s : string) : option (json * string) :=
  match n with
  | O => None
  | S n =>
      match s with
      | EmptyString => None
      | String a r =>
          if a =c? "{" then
            match skip_ws r with
            | String b r' =>
                if b =c? "}" then Some (JObject [], r')
                else match parse_members n (String b r') with
                     | Some (l, r2) => Some (JObject l, r2)
                     | None => None
                     end
            | EmptyString => None
            end
          else if a =c? "[" then
            match skip_ws r with
            | String b r' =>
                if b =c? "]" then Some (JArray [], r')
                else match parse_elems n (String b r') with
                     | Some (l, r2) => Some (JArray l, r2)
                     | None => None
                     end
            | EmptyString => None
            end
          else if a =c? quote then
            match str_scan r with Some (t, r') => Some (JString (unquote t), r') | None => None end
          else literal_scan s
      end
  end
with parse_elems (n : nat) (s : string) : option (list (string * json) * string) :=
  match n with
  | O => None
  | S n =>
      match parse_value n s with
      | None => None
      | Some (v, r) =>
          match skip_ws r with
          | EmptyString => None
          | String b r' =>
              if b =c? "]" then Some ([(before s r, v)], r')
              else if b =c? "," then
                match parse_elems n (skip_ws r') with
                | Some (l, r2) => Some ((before s r, v) :: l, r2)
                | None => None
                end
              else None
          end
      end
  end
with parse_members (n : nat) (s : string) : option (list (string * string * json) * string) :=
  match n with
  | O => None
  | S n =>
      match s with
      | EmptyString => None
      | String a r =>
          if a =c? quote then
            match str_scan r with
            | None => None
            | Some (t, r1) =>
                match skip_ws r1 with
                | EmptyString => None
                | String b r2 =>
                    if b =c? ":" then
                      let s2 := skip_ws r2 in
                      match parse_value n s2 with
                      | None => None
                      | Some (v, r3) =>
                          let member := (unquote t, before s2 r3, v) in
                          match skip_ws r3 with
                          | EmptyString => None
                          | String d r4 =>
                              if d =c? "}" then Some ([member], r4)
                              else if d =c? "," then
                                match parse_members n (skip_ws r4) with
                                | Some (l, r5) => Some (member :: l, r5)
                                | None => None
                                end
                              else None
                          end
                      end
                    else None
                end
            end
          else None
      end
  end.

(** One value with leading white space, as a [Decoder] reads it. *)
Definition read_value (s : string) : option (json * string) :=
  let s := skip_ws s in parse_value (S (2 * String.length s)) s.

(** The whole input, as [json.Unmarshal] wants it. *)
Definition parse (s : string) : option json :=
  match read_value s with
  | Some (v, r) => if is_empty (skip_ws r) then Some v else None
  | None => None
  end.

(** ** Every scanner consumes a prefix *)
Lemma string_length_ind (P : string -> Prop) :
  (forall s, (forall r, (String.length r < String.length s)%nat -> P r) -> P s) -> forall s, P s.
Proof.
  intros Hs s. remember (String.length s) as n eqn:E. revert s E.
  induction (lt_wf n) as [n _ IH]. intros s ->. apply Hs. intros r Hr. by eapply IH.
Qed.

Lemma skip_ws_length s : (String.length (skip_ws s) <= String.length s)%nat.
Proof. induction s as [|a r IH]; cbn; [lia|]. destruct (is_ws a); cbn; lia. Qed.

Lemma skip_ws_idem s : skip_ws (skip_ws s) = skip_ws s.
Proof. induction s as [|a r IH]; [done|]. cbn. destruct (is_ws a) eqn:E; [done|]. cbn. by rewrite E. Qed.

Lemma push_some a x t r : push a x = Some (t, r) -> exists t', t = String a t' /\ x = Some (t', r).
Proof. destruct x as [[t' r']|]; [|done]. intros [= <- <-]. eauto. Qed.

Ltac push_inv :=
  repeat match goal with
  | H : push _ _ = Some _ |- _ =>
      let t := fresh "t" in let E := fresh "E" in apply push_some in H as (t & E & H); subst
  end.

Lemma str_scan_split s t r : str_scan s = Some (t, r) -> s = t ++ String quote r.
Proof.
  revert t r. induction s as [s IH] using string_length_ind. intros t r H.
  destruct s as [|a s1]; [done|]. cbn [str_scan] in H.
  destruct (Ascii.eqb_spec a quote) as [->|]; [by injection H as <- <-|].
  destruct (Ascii.eqb_spec a backslash) as [->|].
  - destruct s1 as [|e s2]; [done|]. destruct (simple_escape e).
    + push_inv. cbn. do 2 f_equal. apply IH; [cbn; lia|done].
    + destruct (Ascii.eqb_spec e "u") as [->|]; [|done].
      destruct s2 as [|h1 [|h2 [|h3 [|h4 s5]]]]; try done.
      destruct (_ && _); [|done]. push_inv. cbn. do 6 f_equal. apply IH; [cbn; lia|done].
  - destruct (_ <? _); [done|]. push_inv. cbn. f_equal. apply IH; [cbn; lia|done].
Qed.

Lemma length_app (a b : string) : String.length (a ++ b) = (String.length a + String.length b)%nat.
Proof. induction a as [|x a IH]; cbn; [done|]. by rewrite IH. Qed.

Lemma str_scan_length s t r : str_scan s = Some (t, r) -> (String.length r < String.length s)%nat.
Proof. intros ->%str_scan_split. rewrite length_app. cbn. lia. Qed.

Lemma digits_scan_split s d r : digits_scan s = (d, r) -> s = d ++ r.
Proof.
  revert d r. induction s as [|a s IH]; intros d r H; cbn in H; [by injection H as <- <-|].
  destruct (is_digit a); [|by injection H as <- <-].
  destruct (digits_scan s) as [d1 r1]. injection H as <- <-. cbn. f_equal. by apply IH.
Qed.

Lemma int_scan_split s d r : int_scan s = Some (d, r) -> s = d ++ r /\ d <> "".
Proof.
  destruct s as [|a s]; [done|]. cbn. destruct (_ =? _); [by intros [= <- <-]|].
  destruct (is_digit a); [|done]. destruct (digits_scan s) as [d1 r1] eqn:E.
  intros [= <- <-]. apply digits_scan_split in E. by subst.
Qed.

Lemma frac_scan_split s d r : frac_scan s = Some (d, r) -> s = d ++ r.
Proof.
  destruct s as [|a s]; cbn; [by intros [= <- <-]|]. destruct (_ =? _); [|by intros [= <- <-]].
  destruct (digits_scan s) as [d1 r1] eqn:E. destruct (is_empty d1); [done|]. intros [= <- <-].
  apply digits_scan_split in E. by subst.
Qed.

Lemma exp_scan_split s d r : exp_scan s = Some (d, r) -> s = d ++ r.
Proof.
  destruct s as [|a s]; cbn; [by intros [= <- <-]|]. destruct (_ || _); [|by intros [= <- <-]].
  destruct s as [|b s].
  - cbn. done.
  - destruct (_ || _); (destruct (digits_scan _) as [d1 r1] eqn:E); (destruct (is_empty d1); [done|]);
      intros [= <- <-]; apply digits_scan_split in E; cbn; by rewrite E.
Qed.

Lemma number_scan_split s t r : number_scan s = Some (t, r) -> s = t ++ r /\ t <> "".
Proof.
  unfold number_scan.
  destruct (match s with "" => ("", s) | String a r => if code a =? 45 then (String a "", r) else ("", s) end)
    as [sign s1] eqn:Es.
  assert (Hs : s = sign ++ s1).
  { destruct s as [|a s]; [by injection Es as <- <-|]. by destruct (_ =? _); injection Es as <- <-. }
  destruct (int_scan s1) as [[i s2]|] eqn:Ei; [|done]. apply int_scan_split in Ei as [-> Hi]. cbn.
  destruct (frac_scan s2) as [[f s3]|] eqn:Ef; [|done]. apply frac_scan_split in Ef as ->. cbn.
  destruct (exp_scan s3) as [[e s4]|] eqn:Ee; [|done]. apply exp_scan_split in Ee as ->. cbn.
  intros [= <- <-]. subst s. rewrite !app_string_assoc. split; [done|].
  destruct sign; [|done]. by destruct i.
Qed.

Lemma strip_prefix_split p s r : strip_prefix p s = Some r -> s = p ++ r.
Proof.
  revert s. induction p as [|a p IH]; intros s H; cbn in H; [by injection H as ->|].
  destruct s as [|b s]; [done|]. destruct (Ascii.eqb_spec a b) as [->|]; [|done].
  cbn. f_equal. by apply IH.
Qed.

Lemma literal_scan_length s v r : literal_scan s = Some (v, r) ->
  (String.length r < String.length s)%nat.
Proof.
  unfold literal_scan. intros H.
  repeat match goal with
  | H : (match strip_prefix ?p ?s with _ => _ end) = Some _ |- _ =>
      let E := fresh "E" in destruct (strip_prefix p s) eqn:E;
      [injection H as <- <-; apply strip_prefix_split in E as ->; rewrite length_app; cbn; lia|clear E]
  end.
  destruct (number_scan s) as [[t r']|] eqn:E; [|done]. injection H as <- <-.
  apply number_scan_split in E as [-> Ht]. rewrite length_app. destruct t; [done|]. cbn. lia.
Qed.

Ltac len_ws := repeat match goal with
  | H : skip_ws ?x = _ |- _ => let L := fresh "L" in
      pose proof (skip_ws_length x) as L; rewrite H in L; cbn [String.length] in L; clear H
  end; cbn [String.length] in *; lia.

(** A parsed value is a non-empty prefix. *)
Lemma parse_length n :
  (forall s v r, parse_value n s = Some (v, r) -> (String.length r < String.length s)%nat) /\
  (forall s l r, parse_elems n s = Some (l, r) -> (String.length r < String.length s)%nat) /\
  (forall s l r, parse_members n s = Some (l, r) -> (String.length r < String.length s)%nat).
Proof.
  induction n as [|n (IHv & IHe & IHm)]; [done|]. split_and!; intros s v r H; cbn [parse_value parse_elems parse_members] in H.
  - destruct s as [|a s]; [done|].
    destruct (a =c? "{").
    { destruct (skip_ws s) as [|b s1] eqn:E; [done|]. destruct (b =c? "}").
      - injection H as <- <-. len_ws.
      - destruct (parse_members n _) as [[l r2]|] eqn:Em; [|done]. injection H as <- <-.
        apply IHm in Em. cbn in Em. len_ws. }
    destruct (a =c? "[").
    { destruct (skip_ws s) as [|b s1] eqn:E; [done|]. destruct (b =c? "]").
      - injection H as <- <-. len_ws.
      - destruct (parse_elems n _) as [[l r2]|] eqn:Em; [|done]. injection H as <- <-.
        apply IHe in Em. cbn in Em. len_ws. }
    destruct (a =c? quote); [|by apply literal_scan_length in H].
    destruct (str_scan s) as [[t r']|] eqn:Es; [|done]. injection H as <- <-.
    apply str_scan_length in Es. len_ws.
  - destruct (parse_value n s) as [[w r1]|] eqn:Ev; [|done]. apply IHv in Ev.
    destruct (skip_ws r1) as [|b r2] eqn:E; [done|].
    destruct (b =c? "]"); [injection H as <- <-; len_ws|]. destruct (b =c? ","); [|done].
    destruct (parse_elems n _) as [[l r3]|] eqn:Ee; [|done]. injection H as <- <-. apply IHe in Ee.
    pose proof (skip_ws_length r2). len_ws.
  - destruct s as [|a s]; [done|]. destruct (a =c? quote); [|done].
    destruct (str_scan s) as [[t r1]|] eqn:Es; [|done]. apply str_scan_length in Es.
    destruct (skip_ws r1) as [|b r2] eqn:E1; [done|]. destruct (b =c? ":"); [|done].
    destruct (parse_value n _) as [[w r3]|] eqn:Ev; [|done]. apply IHv in Ev.
    pose proof (skip_ws_length r2). destruct (skip_ws r3) as [|d r4] eqn:E3; [done|].
    destruct (d =c? "}"); [injection H as <- <-; len_ws|]. destruct (d =c? ","); [|done].
    destruct (parse_members n _) as [[l r5]|] eqn:Em; [|done]. injection H as <- <-. apply IHm in Em.
    pose proof (skip_ws_length r4). len_ws.
Qed.

(** Fuel beyond twice the length changes nothing. *)
Lemma parse_fuel n :
  (forall m s, (2 * String.length s < n)%nat -> (2 * String.length s < m)%nat ->
     parse_value n s = parse_value m s) /\
  (forall m s, (S (2 * String.length s) < n)%nat -> (S (2 * String.length s) < m)%nat ->
     parse_elems n s = parse_elems m s) /\
  (forall m s, (2 * String.length s < n)%nat -> (2 * String.length s < m)%nat ->
     parse_members n s = parse_members m s).
Proof.
  induction n as [|n (IHv & IHe & IHm)]; [split_and!; intros; lia|].
  split_and!; intros [|m] s Hn Hm; try lia; cbn [parse_value parse_elems parse_members].
  - destruct s as [|a s]; [done|]. destruct (a =c? "{").
    { destruct (skip_ws s) as [|b s1] eqn:E; [done|]. rewrite (IHm m) by len_ws. done. }
    destruct (a =c? "["); [|done].
    destruct (skip_ws s) as [|b s1] eqn:E; [done|]. rewrite (IHe m) by len_ws. done.
  - rewrite (IHv m) by lia. destruct (parse_value m s) as [[w r1]|] eqn:Ev; [|done].
    apply (proj1 (parse_length m)) in Ev. destruct (skip_ws r1) as [|b r2] eqn:E; [done|].
    destruct (b =c? "]"); [done|]. destruct (b =c? ","); [|done].
    pose proof (skip_ws_length r2). rewrite (IHe m) by len_ws. done.
  - destruct s as [|a s]; [done|]. destruct (a =c? quote); [|done].
    destruct (str_scan s) as [[t r1]|] eqn:Es; [|done]. apply str_scan_length in Es.
    destruct (skip_ws r1) as [|b r2] eqn:E1; [done|]. destruct (b =c? ":"); [|done]. cbn zeta.
    pose proof (skip_ws_length r2). rewrite (IHv m) by len_ws.
    destruct (parse_value m _) as [[w r3]|] eqn:Ev; [|done]. apply (proj1 (parse_length m)) in Ev.
    destruct (skip_ws r3) as [|d r4] eqn:E3; [done|].
    destruct (d =c? "}"); [done|]. destruct (d =c? ","); [|done].
    pose proof (skip_ws_length r4). rewrite (IHm m) by len_ws. done.
Qed.

(** The members of an object as [json.Unmarshal] into a map of raw values: the
    last one of a repeated key. *)
Definition last_member (l : list (string * string * json)) (key : string)
  : option (string * json) :=
  match List.filter (fun m => m.1.1 =s? key) (rev l) with
  | m :: _ => Some (m.1.2, m.2)
  | [] => None
  end.

(** [json.Unmarshal] into a string: a null leaves the variable empty. *)
Definition unmarshal_string (raw : string) : option string :=
  match parse raw with
  | Some (JString v) => Some v
  | Some JNull => Some ""
  | _ => None
  end.

(** ** Examples *)
Example parse_nested :
  parse (" {" ++ json_string "a" ++ " : [1, -2.5e3 ,true], " ++ json_string "b" ++ ":{}} ")
  = Some (JObject [("a", "[1, -2.5e3 ,true]", JArray [("1", JNumber "1"); ("-2.5e3", JNumber "-2.5e3"); ("true", JBool true)]);
                   ("b", "{}", JObject [])]).
Proof. vm_compute. reflexivity. Qed.
Example parse_trailing_comma : parse "[1,]" = None /\ parse "[01]" = None /\ parse "[1 2]" = None.
Proof. split_and!; vm_compute; reflexivity. Qed.
