(* ===== verification/GoBase64.v ===== *)
(** * encoding/base64: [RawURLEncoding]

    Unpadded base64url: the encoder, and the strict decoder, which skips line
    ends, refuses unused trailing bits and characters outside the alphabet. *)
From S2P Require Import Prelude GoText.
Open Scope string_scope.
Open Scope Z_scope.

Definition b64_char (v : Z) : ascii :=
  of_code (if v <? 26 then 65 + v else if v <? 52 then 71 + v else if v <? 62 then v - 4
           else if v =? 62 then 45 else 95).

Definition b64_value (a : ascii) : option Z :=
  let c := code a in
  if (65 <=? c) && (c <=? 90) then Some (c - 65)
  else if (97 <=? c) && (c <=? 122) then Some (c - 71)
  else if (48 <=? c) && (c <=? 57) then Some (c + 4)
  else if c =? 45 then Some 62
  else if c =? 95 then Some 63
  else None.

Fixpoint b64_encode (s : string) : string :=
  match s with
  | String a (String b (String c r)) =>
      let v := 65536 * code a + 256 * code b + code c in
      String (b64_char (v / 262144)) (String (b64_char (v / 4096 mod 64))
        (String (b64_char (v / 64 mod 64)) (String (b64_char (v mod 64)) (b64_encode r))))
  | String a (String b EmptyString) =>
      let v := 256 * code a + code b in
      String (b64_char (v / 1024)) (String (b64_char (v / 16 mod 64))
        (String (b64_char (4 * (v mod 16))) ""))
  | String a EmptyString =>
      String (b64_char (code a / 4)) (String (b64_char (16 * (code a mod 4))) "")
  | EmptyString => ""
  end.

(** The quanta, after line ends are removed. *)
Fixpoint b64_quanta (s : string) : option string :=
  match s with
  | EmptyString => Some ""
  | String a (String b EmptyString) =>
      match b64_value a, b64_value b with
      | Some x, Some y => if y mod 16 =? 0 then Some (String (of_code (4 * x + y / 16)) "") else None
      | _, _ => None
      end
  | String a (String b (String c EmptyString)) =>
      match b64_value a, b64_value b, b64_value c with
      | Some x, Some y, Some z =>
          if z mod 4 =? 0
          then Some (String (of_code (4 * x + y / 16)) (String (of_code (16 * (y mod 16) + z / 4)) ""))
          else None
      | _, _, _ => None
      end
  | String a (String b (String c (String d r))) =>
      match b64_value a, b64_value b, b64_value c, b64_value d, b64_quanta r with
      | Some x, Some y, Some z, Some w, Some t =>
          Some (String (of_code (4 * x + y / 16)) (String (of_code (16 * (y mod 16) + z / 4))
            (String (of_code (64 * (z mod 4) + w)) t)))
      | _, _, _, _, _ => None
      end
  | String _ EmptyString => None
  end.

Fixpoint drop_line_ends (s : string) : string :=
  match s with
  | EmptyString => ""
  | String a r => if (code a =? 10) || (code a =? 13) then drop_line_ends r
                  else String a (drop_line_ends r)
  end.

Definition b64_decode (s : string) : option string := b64_quanta (drop_line_ends s).

(** ** Round trip *)
Lemma code_b64_char v : 0 <= v < 64 ->
  code (b64_char v) = if v <? 26 then 65 + v else if v <? 52 then 71 + v else if v <? 62 then v - 4
                      else if v =? 62 then 45 else 95.
Proof.
  intros Hv. unfold b64_char. apply code_of_code.
  repeat match goal with |- context [if ?b then _ else _] => destruct b eqn:? end; bools; lia.
Qed.

Lemma b64_value_char v : 0 <= v < 64 -> b64_value (b64_char v) = Some v.
Proof.
  intros Hv. unfold b64_value. rewrite code_b64_char by done.
  destruct (Z.ltb_spec v 26); [|destruct (Z.ltb_spec v 52); [|destruct (Z.ltb_spec v 62);
    [|destruct (Z.eqb_spec v 62)]]];
    repeat match goal with |- context [(?a <=? ?b) && (?c <=? ?d)] =>
      destruct (Z.leb_spec a b); destruct (Z.leb_spec c d); cbn [andb] end;
    try lia; f_equal; lia.
Qed.

Lemma b64_char_no_line_end v : 0 <= v < 64 ->
  (code (b64_char v) =? 10) || (code (b64_char v) =? 13) = false.
Proof.
  intros Hv. rewrite code_b64_char by done.
  apply orb_false_iff. rewrite !Z.eqb_neq.
  repeat match goal with |- context [if ?b then _ else _] => destruct b eqn:? end; bools; lia.
Qed.

Lemma string3_ind (P : string -> Prop) :
  P "" -> (forall a, P (String a "")) -> (forall a b, P (String a (String b ""))) ->
  (forall a b c r, P r -> P (String a (String b (String c r)))) -> forall s, P s.
Proof.
  intros H0 H1 H2 H3. fix IH 1. intros [|a [|b [|c r]]]; [apply H0|apply H1|apply H2|apply H3, IH].
Qed.

Ltac b64_bounds := repeat match goal with
  | |- context [code ?a] => lazymatch goal with
      | _ : 0 <= code a < 256 |- _ => fail
      | _ => pose proof (code_range a) end
  end.

Lemma drop_line_ends_encode s : drop_line_ends (b64_encode s) = b64_encode s.
Proof.
  induction s as [|a|a b|a b c r IH] using string3_ind; [done|..];
    cbn [b64_encode drop_line_ends]; b64_bounds;
    rewrite !b64_char_no_line_end by (Z.to_euclidean_division_equations; lia); congruence.
Qed.

Lemma of_code_eq a z : code a = z -> of_code z = a.
Proof. intros <-. apply of_code_code. Qed.

Lemma b64_decode_encode s : b64_decode (b64_encode s) = Some s.
Proof.
  unfold b64_decode. rewrite drop_line_ends_encode.
  induction s as [|a|a b|a b c r IH] using string3_ind; [done|..]; cbn [b64_encode b64_quanta];
    b64_bounds; rewrite !b64_value_char by (Z.to_euclidean_division_equations; lia).
  - rewrite (proj2 (Z.eqb_eq _ _)) by (Z.to_euclidean_division_equations; lia).
    do 2 f_equal. apply of_code_eq. Z.to_euclidean_division_equations; lia.
  - rewrite (proj2 (Z.eqb_eq _ _)) by (Z.to_euclidean_division_equations; lia).
    do 2 f_equal; [|do 1 f_equal]; apply of_code_eq; Z.to_euclidean_division_equations; lia.
  - rewrite IH. do 2 f_equal; [|f_equal; [|f_equal]]; apply of_code_eq;
      Z.to_euclidean_division_equations; lia.
Qed.

Lemma b64_encode_inj s t : b64_encode s = b64_encode t -> s = t.
Proof. intros H. apply (f_equal b64_decode) in H. rewrite !b64_decode_encode in H. by injection H. Qed.

Example b64_foobar : b64_encode "foobar" = "Zm9vYmFy" /\ b64_encode "foob" = "Zm9vYg".
Proof. split; reflexivity. Qed.
Example b64_strict : b64_decode "Zm9vYh" = None /\ b64_decode "Zm9vY" = None.
Proof. split; reflexivity. Qed.
