(* ===== verification/GoUtf8.v ===== *)
(** * UTF-8 and white space: facts

    Cutting a text at an ASCII byte, the round trip of runes, and what
    [strings.TrimSpace] leaves. *)
From S2P Require Import Prelude GoText GoJson GoJsonRead.
Open Scope string_scope.
Open Scope Z_scope.
Open Scope snag_scope.

Definition is_ascii (a : ascii) : bool := code a <? 128.

(** ** Cutting at an ASCII byte *)
Lemma in_range_ascii a hi : is_ascii a = true -> in_range 0x80 hi a = false.
Proof. unfold is_ascii, in_range. intros H. bools. by rewrite (proj2 (Z.leb_gt _ _)) by lia. Qed.

Lemma second_ascii x a : is_ascii a = true -> second_ok x a = false.
Proof.
  unfold is_ascii, second_ok, in_range. intros H. bools.
  repeat case_goal; rewrite (proj2 (Z.leb_gt _ _)) by lia; done.
Qed.

Lemma segments_app_ascii s a r : is_ascii a = true ->
  segments (s ++ String a r) = app (segments s) (segments (String a r)).
Proof.
  intros Ha. remember (segments (String a r)) as tl eqn:Htl. induction s as [s IH] using string_length_ind.
  destruct s as [|b0 s1]; [done|]. cbn [append segments].
  pose proof (IH s1 ltac:(cbn; lia)) as IH1.
  destruct (code b0 <? 128); [by rewrite IH1|].
  destruct s1 as [|b1 s2].
  { cbn [append]. rewrite !(second_ascii _ _ Ha), !andb_false_r. cbn [andb]. rewrite <- Htl. by repeat case_match. }
  cbn [append] in *. pose proof (IH s2 ltac:(cbn; lia)) as IH2.
  destruct (_ && second_ok (code b0) b1); [by rewrite IH2|].
  destruct s2 as [|b2 s3].
  { cbn [append] in *. rewrite !(in_range_ascii _ _ Ha), !andb_false_r. cbn [andb]. rewrite IH1. by repeat case_match. }
  cbn [append] in *. pose proof (IH s3 ltac:(cbn; lia)) as IH3.
  destruct (_ && in_range 128 191 b2); [by rewrite IH3|].
  destruct s3 as [|b3 s4].
  { cbn [append] in *. rewrite !(in_range_ascii _ _ Ha), !andb_false_r. rewrite IH1. done. }
  cbn [append] in *. destruct (_ && in_range 128 191 b3); [by rewrite (IH s4 ltac:(cbn; lia))|]. by rewrite IH1.
Qed.

(** Runes and segments cut a text the same way. *)
Lemma decode_segments s : decode s = map fst (segments s).
Proof.
  induction s as [s IH] using string_length_ind. destruct s as [|b0 s1]; [done|].
  cbn [decode segments]. pose proof (IH s1 ltac:(cbn; lia)) as IH1.
  destruct (code b0 <? 128) eqn:E; [cbn; by rewrite IH1|].
  destruct s1 as [|b1 s2]; [done|]. destruct (_ && second_ok (code b0) b1); [cbn; by rewrite (IH s2 ltac:(cbn; lia))|].
  destruct s2 as [|b2 s3]; [by rewrite IH1|]. destruct (_ && in_range 128 191 b2); [cbn; by rewrite (IH s3 ltac:(cbn; lia))|].
  destruct s3 as [|b3 s4]; [by rewrite IH1|].
  destruct (_ && in_range 128 191 b3); [cbn; by rewrite (IH s4 ltac:(cbn; lia))|]. by rewrite IH1.
Qed.

Lemma concat_cons (x : string) l : String.concat "" (x :: l) = x ++ String.concat "" l.
Proof. destruct l as [|y l]; cbn; [by rewrite app_string_nil_r|done]. Qed.

Lemma concat_app l k : String.concat "" (app l k) = String.concat "" l ++ String.concat "" k.
Proof.
  induction l as [|x l IH]; [done|]. rewrite <- app_comm_cons, !concat_cons, IH. by rewrite app_string_assoc.
Qed.

Lemma concat_segments s : String.concat "" (map snd (segments s)) = s.
Proof.
  induction s as [s IH] using string_length_ind. destruct s as [|b0 s1]; [done|].
  cbn [segments]. pose proof (IH s1 ltac:(cbn; lia)) as IH1.
  assert (H1 : forall o, String.concat "" (map snd ((o, String b0 "") :: segments s1)) = String b0 s1)
    by (intros o; cbn [map snd]; rewrite concat_cons, IH1; done).
  destruct (code b0 <? 128); [apply H1|]. destruct s1 as [|b1 s2]; [apply H1|].
  destruct (_ && second_ok (code b0) b1); [cbn [map snd]; by rewrite concat_cons, (IH s2 ltac:(cbn; lia))|].
  destruct s2 as [|b2 s3]; [apply H1|].
  destruct (_ && in_range 128 191 b2); [cbn [map snd]; by rewrite concat_cons, (IH s3 ltac:(cbn; lia))|].
  destruct s3 as [|b3 s4]; [apply H1|].
  destruct (_ && in_range 128 191 b3); [cbn [map snd]; by rewrite concat_cons, (IH s4 ltac:(cbn; lia))|]. apply H1.
Qed.

Lemma utf8_app_ascii s a r : is_ascii a = true ->
  utf8_valid (s ++ String a r) = utf8_valid s && utf8_valid (String a r).
Proof.
  intros Ha. unfold utf8_valid. rewrite !decode_segments, segments_app_ascii by done.
  by rewrite map_app, forallb_app.
Qed.

Lemma decode_ascii_cons a s : is_ascii a = true -> decode (String a s) = Some (code a) :: decode s.
Proof. unfold is_ascii. cbn [decode]. by intros ->. Qed.

(** ** [TrimSpace] between bytes that are not spaces *)
Definition space_byte (a : ascii) : bool := is_ascii a && is_space (code a).
Definition plain_byte (a : ascii) : bool := is_ascii a && negb (is_space (code a)).

Lemma segments_ascii a s : is_ascii a = true -> segments (String a s) = (Some (code a), String a "") :: segments s.
Proof. unfold is_ascii. cbn [segments]. by intros ->. Qed.

Lemma segments_spaces w : all_chars space_byte w = true -> forall s,
  segments (w ++ s) = app (segments w) (segments s) /\ drop_spaces (app (segments w) (segments s)) = drop_spaces (segments s) /\
  Forall (fun g => space_segment g = true) (segments w).
Proof.
  induction w as [|a w IH]; intros Hw s; [by split_and!|]. cbn in Hw. apply andb_true_iff in Hw as [Ha Hw].
  unfold space_byte in Ha. apply andb_true_iff in Ha as [Ha Hs]. destruct (IH Hw s) as (H1 & H2 & H3).
  cbn [append]. rewrite !segments_ascii by done. rewrite <- app_comm_cons. cbn [drop_spaces space_segment fst].
  unfold space_segment at 1. cbn [fst]. rewrite Hs. split_and!; [by rewrite H1|done|]. by constructor.
Qed.

Lemma drop_spaces_all l k : Forall (fun g => space_segment g = true) l -> drop_spaces (app l k) = drop_spaces k.
Proof. induction 1 as [|g l Hg _ IH]; [done|]. cbn. by rewrite Hg. Qed.

(** A text between white space that starts and ends with a plain byte is what
    [TrimSpace] returns. *)
Lemma TrimSpace_between w a y b z w' : all_chars space_byte w = true -> all_chars space_byte w' = true ->
  plain_byte a = true -> plain_byte b = true -> String a y = z ++ String b "" ->
  TrimSpace (w ++ String a y ++ w') = String a y.
Proof.
  intros Hw Hw' Ha Hb Heq. unfold plain_byte in *. apply andb_true_iff in Ha as [Ha Has], Hb as [Hb Hbs].
  apply negb_true_iff in Has, Hbs. unfold TrimSpace.
  destruct (segments_spaces w Hw (String a y ++ w')) as (Hseg & Hdrop & _).
  rewrite Hseg, Hdrop. cbn [append]. rewrite segments_ascii by done. cbn [drop_spaces].
  unfold space_segment at 1. cbn [fst]. rewrite Has.
  assert (Hx : (Some (code a), String a "") :: segments (y ++ w') = app (segments (String a y)) (segments w')).
  { rewrite <- segments_ascii by done. change (String a (y ++ w')) with (String a y ++ w'). rewrite Heq, <- app_string_assoc.
    cbn [append]. rewrite !segments_app_ascii by done. rewrite <- app_assoc. f_equal.
    rewrite !segments_ascii by done. done. }
  rewrite Hx, rev_app_distr, drop_spaces_all.
  2:{ destruct (segments_spaces w' Hw' "") as (_ & _ & H). apply Forall_rev. done. }
  rewrite Heq, segments_app_ascii, rev_app_distr by done. rewrite segments_ascii by done.
  cbn [segments rev app drop_spaces]. unfold space_segment at 1. cbn [fst]. rewrite Hbs.
  cbn [rev]. rewrite rev_involutive, map_app, concat_app, concat_segments. done.
Qed.

(** A text that starts with a plain byte keeps it. *)
Lemma TrimSpace_first a s : plain_byte a = true -> exists t, TrimSpace (String a s) = String a t.
Proof.
  intros Ha. unfold plain_byte in Ha. apply andb_true_iff in Ha as [Ha Has]. apply negb_true_iff in Has.
  unfold TrimSpace. rewrite segments_ascii by done. cbn [drop_spaces]. unfold space_segment at 1. cbn [fst]. rewrite Has.
  cbn [rev]. assert (Hd : forall l, drop_spaces (app l [(Some (code a), String a "")]) =
    app (drop_spaces l) [(Some (code a), String a "")]).
  { induction l as [|g l IH]; cbn [app drop_spaces].
    - unfold space_segment. cbn [fst]. by rewrite Has.
    - by destruct (space_segment g). }
  rewrite Hd, rev_app_distr. cbn [rev app map snd]. rewrite concat_cons. cbn. eauto.
Qed.

Lemma last_char s : s <> "" -> exists z b, s = z ++ String b "".
Proof.
  induction s as [|a s IH]; [done|]. intros _. destruct s as [|c s]; [by exists "", a|].
  destruct IH as (z & b & ->); [done|]. by exists (String a z), b.
Qed.

Lemma all_chars_last p z b : all_chars p (z ++ String b "") = true -> p b = true.
Proof. induction z as [|a z IH]; cbn; rewrite andb_true_iff; [by intros [? _]|]. intros [_ ?]. auto. Qed.

Lemma TrimSpace_plain s : all_chars plain_byte s = true -> TrimSpace s = s.
Proof.
  destruct s as [|a s]; [done|]. intros H. destruct (last_char (String a s)) as (z & b & Hz); [done|].
  assert (Hb : plain_byte b = true) by (rewrite Hz in H; by apply all_chars_last in H).
  cbn in H. apply andb_true_iff in H as [Ha _].
  pose proof (TrimSpace_between "" a s b z "" eq_refl eq_refl Ha Hb Hz) as HT.
  by rewrite app_string_nil_r in HT.
Qed.

(** ** Runes *)
Definition scalar (c : Z) : Prop := 0 <= c < 0xD800 \/ 0xE000 <= c < 0x110000.

Lemma lor_shift a b k : 0 <= k -> 0 <= b < 2 ^ k -> Z.lor (Z.shiftl a k) b = a * 2 ^ k + b.
Proof.
  intros Hk Hb. rewrite <- Z.add_nocarry_lor; [by rewrite Z.shiftl_mul_pow2|].
  apply Z.bits_inj'. intros n Hn. rewrite Z.land_spec, Z.bits_0.
  destruct (Z.ltb_spec n k).
  - by rewrite Z.shiftl_spec_low.
  - destruct (Z.eq_dec b 0) as [->|]; [by rewrite Z.bits_0, andb_false_r|].
    rewrite (Z.bits_above_log2 b n); [by rewrite andb_false_r|lia|].
    apply Z.log2_lt_pow2; [lia|]. apply Z.lt_le_trans with (2 ^ k); [lia|]. apply Z.pow_le_mono_r; lia.
Qed.

Lemma land_low a k : 0 <= k -> Z.land a (2 ^ k - 1) = a mod 2 ^ k.
Proof. intros Hk. rewrite <- Z.land_ones by done. by rewrite Z.ones_equiv, Z.sub_1_r. Qed.

Lemma lead_C0 v : 0 <= v < 64 -> Z.lor 0xC0 v = 192 + v.
Proof. intros H. change (Z.lor 0xC0 v) with (Z.lor (Z.shiftl 3 6) v). rewrite lor_shift; lia. Qed.
Lemma lead_80 v : 0 <= v < 64 -> Z.lor 0x80 v = 128 + v.
Proof. intros H. change (Z.lor 0x80 v) with (Z.lor (Z.shiftl 2 6) v). rewrite lor_shift; lia. Qed.
Lemma lead_E0 v : 0 <= v < 32 -> Z.lor 0xE0 v = 224 + v.
Proof. intros H. change (Z.lor 0xE0 v) with (Z.lor (Z.shiftl 7 5) v). rewrite lor_shift; lia. Qed.
Lemma lead_F0 v : 0 <= v < 16 -> Z.lor 0xF0 v = 240 + v.
Proof. intros H. change (Z.lor 0xF0 v) with (Z.lor (Z.shiftl 15 4) v). rewrite lor_shift; lia. Qed.

Lemma land_63 v : Z.land v 0x3F = v mod 64.
Proof. exact (land_low v 6 ltac:(lia)). Qed.
Lemma land_31 v : Z.land v 0x1F = v mod 32.
Proof. exact (land_low v 5 ltac:(lia)). Qed.
Lemma land_15 v : Z.land v 0x0F = v mod 16.
Proof. exact (land_low v 4 ltac:(lia)). Qed.
Lemma land_7 v : Z.land v 0x07 = v mod 8.
Proof. exact (land_low v 3 ltac:(lia)). Qed.

Ltac zdiv := Z.to_euclidean_division_equations; lia.

(** The bytes of a rune, in arithmetic. *)
Lemma encode_rune_eq c : 0 <= c < 0x110000 -> encode_rune c =
  if c <? 0x80 then String (of_code c) ""
  else if c <? 0x800 then String (of_code (192 + c / 64)) (String (of_code (128 + c mod 64)) "")
  else if c <? 0x10000 then
    String (of_code (224 + c / 4096)) (String (of_code (128 + c / 64 mod 64)) (String (of_code (128 + c mod 64)) ""))
  else String (of_code (240 + c / 262144)) (String (of_code (128 + c / 4096 mod 64))
         (String (of_code (128 + c / 64 mod 64)) (String (of_code (128 + c mod 64)) ""))).
Proof.
  intros Hc. unfold encode_rune, byte1. rewrite !land_63.
  rewrite !Z.shiftr_div_pow2 by lia. change (2 ^ 6) with 64. change (2 ^ 12) with 4096. change (2 ^ 18) with 262144.
  destruct (Z.ltb_spec c 0x80); [done|]. destruct (Z.ltb_spec c 0x800).
  { by rewrite lead_C0, lead_80 by zdiv. }
  destruct (Z.ltb_spec c 0x10000).
  { by rewrite lead_E0, !lead_80 by zdiv. }
  by rewrite lead_F0, !lead_80 by zdiv.
Qed.

Ltac decide_bounds := repeat match goal with
  | |- context [?a <=? ?b] => first [rewrite (proj2 (Z.leb_le a b)) by lia | rewrite (proj2 (Z.leb_gt a b)) by lia]
  | |- context [?a <? ?b] => first [rewrite (proj2 (Z.ltb_lt a b)) by lia | rewrite (proj2 (Z.ltb_ge a b)) by lia]
  end.

Lemma second_of_code x v : 0 <= v < 64 ->
  (x = 0xE0 -> 32 <= v) -> (x = 0xED -> v < 32) -> (x = 0xF0 -> 16 <= v) -> (x = 0xF4 -> v < 16) ->
  second_ok x (of_code (128 + v)) = true.
Proof.
  intros Hv H1 H2 H3 H4. unfold second_ok, in_range. rewrite code_of_code by lia.
  repeat (match goal with |- context [?a =? ?b] => destruct (Z.eqb_spec a b) end); decide_bounds; done.
Qed.

Lemma in_range_of_code v : 0 <= v < 64 -> in_range 0x80 0xBF (of_code (128 + v)) = true.
Proof. intros Hv. unfold in_range. rewrite code_of_code by lia. by decide_bounds. Qed.

Lemma cont_of_code v : 0 <= v < 64 -> cont (of_code (128 + v)) = v.
Proof. intros Hv. unfold cont. rewrite code_of_code, land_63 by lia. zdiv. Qed.

(** One step of [decode]. *)
Lemma decode_cons b0 s1 : decode (String b0 s1) =
      (let x := code b0 in
      if x <? 0x80 then Some x :: decode s1
      else match s1 with
      | EmptyString => None :: decode s1
      | String b1 s2 =>
          if (0xC2 <=? x) && (x <=? 0xDF) && second_ok x b1
          then Some (Z.lor (Z.shiftl (Z.land x 0x1F) 6) (cont b1)) :: decode s2
          else match s2 with
          | EmptyString => None :: decode s1
          | String b2 s3 =>
              if (0xE0 <=? x) && (x <=? 0xEF) && second_ok x b1 && in_range 0x80 0xBF b2
              then Some (Z.lor (Z.shiftl (Z.land x 0x0F) 12)
                        (Z.lor (Z.shiftl (cont b1) 6) (cont b2))) :: decode s3
              else match s3 with
              | EmptyString => None :: decode s1
              | String b3 s4 =>
                  if (0xF0 <=? x) && (x <=? 0xF4) && second_ok x b1
                     && in_range 0x80 0xBF b2 && in_range 0x80 0xBF b3
                  then Some (Z.lor (Z.shiftl (Z.land x 0x07) 18)
                            (Z.lor (Z.shiftl (cont b1) 12)
                            (Z.lor (Z.shiftl (cont b2) 6) (cont b3)))) :: decode s4
                  else None :: decode s1
              end
          end
      end).
Proof. done. Qed.

Lemma decode_two h l s : 2 <= h < 32 -> 0 <= l < 64 ->
  decode (String (of_code (192 + h)) (String (of_code (128 + l)) s)) = Some (h * 64 + l) :: decode s.
Proof.
  intros Hh Hl. rewrite decode_cons. cbn zeta iota. rewrite code_of_code by lia. decide_bounds.
  rewrite second_of_code by lia. cbn [andb]. rewrite cont_of_code by lia. rewrite land_31, lor_shift by zdiv.
  do 2 f_equal. zdiv.
Qed.

Lemma decode_three h m l s : 0 <= h < 16 -> 0 <= m < 64 -> 0 <= l < 64 -> (h = 0 -> 32 <= m) -> (h = 13 -> m < 32) ->
  decode (String (of_code (224 + h)) (String (of_code (128 + m)) (String (of_code (128 + l)) s)))
  = Some (h * 4096 + m * 64 + l) :: decode s.
Proof.
  intros Hh Hm Hl H0 Hd. rewrite decode_cons. cbn zeta iota. rewrite (code_of_code (224 + h)) by lia. decide_bounds.
  rewrite second_of_code, in_range_of_code by lia. cbn [andb]. rewrite !cont_of_code by lia.
  rewrite (lor_shift m), land_15, lor_shift by zdiv. do 2 f_equal. zdiv.
Qed.

Lemma decode_four h k m l s : 0 <= h < 5 -> 0 <= k < 64 -> 0 <= m < 64 -> 0 <= l < 64 ->
  (h = 0 -> 16 <= k) -> (h = 4 -> k < 16) ->
  decode (String (of_code (240 + h)) (String (of_code (128 + k)) (String (of_code (128 + m)) (String (of_code (128 + l)) s))))
  = Some (h * 262144 + k * 4096 + m * 64 + l) :: decode s.
Proof.
  intros Hh Hk Hm Hl H0 H4. rewrite decode_cons. cbn zeta iota. rewrite (code_of_code (240 + h)) by lia. decide_bounds.
  rewrite second_of_code, !in_range_of_code by lia. cbn [andb]. rewrite !cont_of_code by lia.
  rewrite (lor_shift m), (lor_shift k) by lia. rewrite land_7, lor_shift by zdiv. do 2 f_equal. zdiv.
Qed.

Lemma decode_rune c s : scalar c -> decode (encode_rune c ++ s) = Some c :: decode s.
Proof.
  intros Hc. unfold scalar in Hc. rewrite encode_rune_eq by lia.
  destruct (Z.ltb_spec c 0x80).
  { cbn [append decode]. rewrite code_of_code by lia. by decide_bounds. }
  destruct (Z.ltb_spec c 0x800).
  { cbn [append]. rewrite decode_two by zdiv. do 2 f_equal. zdiv. }
  destruct (Z.ltb_spec c 0x10000).
  { cbn [append]. rewrite decode_three by zdiv. do 2 f_equal. zdiv. }
  cbn [append]. rewrite decode_four by zdiv. do 2 f_equal. zdiv.
Qed.

(** ** Valid text is the encoding of its runes *)
Definition rune_segment (g : option Z * string) : Prop :=
  match g.1 with Some c => scalar c /\ g.2 = encode_rune c | None => True end.

Lemma byte_eq a z : code a = z -> of_code z = a.
Proof. intros <-. apply of_code_code. Qed.

Lemma second_range x b : second_ok x b = true -> 0x80 <= code b <= 0xBF /\
  (x = 0xE0 -> 0xA0 <= code b) /\ (x = 0xED -> code b <= 0x9F) /\ (x = 0xF0 -> 0x90 <= code b) /\ (x = 0xF4 -> code b <= 0x8F).
Proof.
  unfold second_ok, in_range.
  repeat (match goal with |- context [?a =? ?b] => destruct (Z.eqb_spec a b) end); intros H; bools; lia.
Qed.

Lemma rune_one b0 : code b0 <? 0x80 = true -> rune_segment (Some (code b0), String b0 "").
Proof.
  intros H. bools. pose proof (code_range b0). unfold rune_segment. cbn [fst snd]. split; [left; lia|].
  rewrite encode_rune_eq by lia. decide_bounds. by rewrite of_code_code.
Qed.

Lemma rune_two b0 b1 : (0xC2 <=? code b0) && (code b0 <=? 0xDF) && second_ok (code b0) b1 = true ->
  rune_segment (Some (Z.lor (Z.shiftl (Z.land (code b0) 0x1F) 6) (cont b1)), String b0 (String b1 "")).
Proof.
  intros H. bools. match goal with H : second_ok _ _ = true |- _ => apply second_range in H as (Hb & _) end. unfold cont. rewrite land_31, land_63, lor_shift by zdiv.
  unfold rune_segment. cbn [fst snd]. set (c := code b0 mod 32 * 2 ^ 6 + code b1 mod 64).
  assert (Hc : c = (code b0 - 192) * 64 + (code b1 - 128)) by (subst c; zdiv). clearbody c.
  split; [left; lia|]. rewrite encode_rune_eq by lia. decide_bounds.
  by rewrite !(byte_eq b0), (byte_eq b1) by zdiv.
Qed.

Lemma rune_three b0 b1 b2 :
  (0xE0 <=? code b0) && (code b0 <=? 0xEF) && second_ok (code b0) b1 && in_range 0x80 0xBF b2 = true ->
  rune_segment (Some (Z.lor (Z.shiftl (Z.land (code b0) 0x0F) 12) (Z.lor (Z.shiftl (cont b1) 6) (cont b2))),
                String b0 (String b1 (String b2 ""))).
Proof.
  unfold in_range. intros H. bools. match goal with H : second_ok _ _ = true |- _ => apply second_range in H as (Hb & Hx & Hy & _) end.
  unfold cont. rewrite land_15, !land_63, (lor_shift (code b1 mod 64)), lor_shift by zdiv.
  unfold rune_segment. cbn [fst snd].
  set (c := code b0 mod 16 * 2 ^ 12 + (code b1 mod 64 * 2 ^ 6 + code b2 mod 64)).
  assert (Hc : c = (code b0 - 224) * 4096 + (code b1 - 128) * 64 + (code b2 - 128)) by (subst c; zdiv). clearbody c.
  assert (Hs : scalar c).
  { unfold scalar. destruct (Z.le_gt_cases (code b0) 0xEC); [left; lia|].
    destruct (Z.eq_dec (code b0) 0xED) as [E|]; [specialize (Hy E); left; lia|right; lia]. }
  assert (0x800 <= c < 0x10000) by (destruct (Z.eq_dec (code b0) 0xE0) as [E|]; [specialize (Hx E)|]; lia).
  split; [done|]. rewrite encode_rune_eq by lia. decide_bounds.
  by rewrite (byte_eq b0), (byte_eq b1), (byte_eq b2) by zdiv.
Qed.

Lemma rune_four b0 b1 b2 b3 :
  (0xF0 <=? code b0) && (code b0 <=? 0xF4) && second_ok (code b0) b1 && in_range 0x80 0xBF b2 && in_range 0x80 0xBF b3 = true ->
  rune_segment (Some (Z.lor (Z.shiftl (Z.land (code b0) 0x07) 18)
                       (Z.lor (Z.shiftl (cont b1) 12) (Z.lor (Z.shiftl (cont b2) 6) (cont b3)))),
                String b0 (String b1 (String b2 (String b3 "")))).
Proof.
  unfold in_range. intros H. bools. match goal with H : second_ok _ _ = true |- _ => apply second_range in H as (Hb & _ & _ & Hx & Hy) end.
  unfold cont. rewrite land_7, !land_63, (lor_shift (code b2 mod 64)), (lor_shift (code b1 mod 64)), lor_shift by zdiv.
  unfold rune_segment. cbn [fst snd].
  set (c := code b0 mod 8 * 2 ^ 18 + (code b1 mod 64 * 2 ^ 12 + (code b2 mod 64 * 2 ^ 6 + code b3 mod 64))).
  assert (Hc : c = (code b0 - 240) * 262144 + (code b1 - 128) * 4096 + (code b2 - 128) * 64 + (code b3 - 128))
    by (subst c; zdiv). clearbody c.
  assert (0x10000 <= c < 0x110000).
  { destruct (Z.eq_dec (code b0) 0xF0) as [E|]; [specialize (Hx E)|]; [lia|].
    destruct (Z.eq_dec (code b0) 0xF4) as [E|]; [specialize (Hy E)|]; lia. }
  split; [right; lia|]. rewrite encode_rune_eq by lia. decide_bounds.
  by rewrite (byte_eq b0), (byte_eq b1), (byte_eq b2), (byte_eq b3) by zdiv.
Qed.

Lemma segments_runes s : Forall rune_segment (segments s).
Proof.
  induction s as [s IH] using string_length_ind. destruct s as [|b0 s1]; [constructor|].
  pose proof (IH s1 ltac:(cbn; lia)) as IH1. cbn [segments].
  assert (Hnone : Forall rune_segment ((None, String b0 "") :: segments s1)) by (by constructor).
  destruct (code b0 <? 128) eqn:E; [constructor; [by apply rune_one|done]|].
  destruct s1 as [|b1 s2]; [done|]. destruct (_ && second_ok (code b0) b1) eqn:E2.
  { constructor; [by apply rune_two|apply IH; cbn; lia]. }
  destruct s2 as [|b2 s3]; [done|]. destruct (_ && in_range 128 191 b2) eqn:E3.
  { constructor; [by apply rune_three|apply IH; cbn; lia]. }
  destruct s3 as [|b3 s4]; [done|]. destruct (_ && in_range 128 191 b3) eqn:E4; [|done].
  constructor; [by apply rune_four|apply IH; cbn; lia].
Qed.

Lemma utf8_runes s : utf8_valid s = true ->
  exists l, decode s = map Some l /\ Forall scalar l /\ s = String.concat "" (map encode_rune l).
Proof.
  unfold utf8_valid. rewrite decode_segments. pose proof (concat_segments s) as Hc. pose proof (segments_runes s) as Hr.
  remember (segments s) as g eqn:Eg. clear Eg. revert s Hc.
  induction Hr as [|[[c|] x] l Hg Hr IH]; intros s Hc Hv; cbn [map forallb fst] in *.
  - exists []. split_and!; [done|constructor|by rewrite <- Hc].
  - apply andb_true_iff in Hv as [_ Hv]. destruct Hg as [Hs Hx]. cbn [fst snd] in *. subst x.
    destruct (IH _ eq_refl Hv) as (k & Hk & Hks & Hke). exists (c :: k). split_and!.
    + cbn. by rewrite Hk.
    + by constructor.
    + cbn [map]. rewrite concat_cons, <- Hke, <- Hc. cbn [map snd]. by rewrite concat_cons.
  - by apply andb_true_iff in Hv as [? _].
Qed.
