(* ===== verification/GoJsonText.v ===== *)
(** * encoding/json: a printed string reads back

    [json.Marshal] of a valid UTF-8 string is a JSON string whose decoded value
    is the string. *)
From S2P Require Import Prelude GoText GoJson GoJsonRead GoUtf8.
Open Scope string_scope.
Open Scope Z_scope.
Open Scope snag_scope.

(** The text between the quotes. *)
Definition json_text (s : string) : string := String.concat "" (map json_rune (decode s)).

Lemma json_string_text s : json_string s = String quote (json_text s ++ String quote "").
Proof. done. Qed.

(** ** Scanning *)
Definition prepend (x : string) (o : option (string * string)) : option (string * string) :=
  match o with Some (t, r) => Some (x ++ t, r) | None => None end.

Definition text_byte (a : ascii) : bool := negb (a =c? quote) && negb (a =c? backslash) && (32 <=? code a).

Lemma str_scan_bytes x s : all_chars text_byte x = true -> str_scan (x ++ s) = prepend x (str_scan s).
Proof.
  induction x as [|a x IH]; cbn [append all_chars].
  - intros _. by destruct (str_scan s) as [[t r]|].
  - unfold text_byte at 1. intros H. bools. cbn [str_scan].
    rewrite H, H2, (proj2 (Z.ltb_ge _ _)) by lia. rewrite IH by done. by destruct (str_scan s) as [[t r]|].
Qed.

Lemma high_text z : 128 <= z < 256 -> text_byte (of_code z) = true.
Proof.
  intros Hz. unfold text_byte. rewrite code_of_code by lia.
  assert (H : forall b, code b < 128 -> (of_code z =c? b) = false).
  { intros b Hb. apply Ascii.eqb_neq. intros Heq. apply (f_equal code) in Heq. rewrite code_of_code in Heq; lia. }
  rewrite !H by (vm_compute; done). cbn [negb andb]. apply Z.leb_le. lia.
Qed.

Lemma rune_text c : scalar c -> 32 <= c -> c <> 34 -> c <> 92 -> all_chars text_byte (encode_rune c) = true.
Proof.
  unfold scalar. intros Hc H32 H34 H92. rewrite encode_rune_eq by lia.
  destruct (Z.ltb_spec c 0x80).
  - cbn [all_chars]. rewrite andb_true_r. unfold text_byte. rewrite code_of_code by lia.
    assert (H1 : (of_code c =c? quote) = false).
    { apply Ascii.eqb_neq. intros Heq. apply (f_equal code) in Heq. rewrite code_of_code in Heq by lia. vm_compute in Heq. lia. }
    assert (H2 : (of_code c =c? backslash) = false).
    { apply Ascii.eqb_neq. intros Heq. apply (f_equal code) in Heq. rewrite code_of_code in Heq by lia. vm_compute in Heq. lia. }
    rewrite H1, H2. by apply Z.leb_le.
  - destruct (Z.ltb_spec c 0x800); [|destruct (Z.ltb_spec c 0x10000)]; cbn [all_chars]; rewrite !high_text by zdiv; done.
Qed.

(** The runes printed as an escape, and those printed as they are. *)
Inductive printed (c : Z) : string -> Prop :=
| printed_simple : c = 34 \/ c = 92 -> printed c (escape c)
| printed_letter e : (c, e) ∈ [(8, 98); (12, 102); (10, 110); (13, 114); (9, 116)] -> printed c (escape e)
| printed_u : 0 <= c < 32 \/ c ∈ [38; 60; 62; 0x2028; 0x2029] -> printed c (escape_u c)
| printed_rune : 32 <= c -> c <> 34 -> c <> 92 -> printed c (encode_rune c).

Lemma json_rune_printed c : scalar c -> printed c (json_rune (Some c)).
Proof.
  intros Hc. unfold scalar in Hc. unfold json_rune.
  destruct ((c =? 34) || (c =? 92)) eqn:E; [apply orb_true_iff in E; rewrite !Z.eqb_eq in E; by constructor|].
  apply orb_false_iff in E as [E1 E2]. rewrite Z.eqb_neq in E1, E2.
  destruct (Z.eqb_spec c 8) as [->|]; [apply printed_letter; set_solver|].
  destruct (Z.eqb_spec c 12) as [->|]; [apply printed_letter; set_solver|].
  destruct (Z.eqb_spec c 10) as [->|]; [apply printed_letter; set_solver|].
  destruct (Z.eqb_spec c 13) as [->|]; [apply printed_letter; set_solver|].
  destruct (Z.eqb_spec c 9) as [->|]; [apply printed_letter; set_solver|].
  destruct (Z.ltb_spec c 32); [cbn; apply printed_u; left; lia|].
  destruct (Z.eqb_spec c 60) as [->|]; [apply printed_u; right; set_solver|].
  destruct (Z.eqb_spec c 62) as [->|]; [apply printed_u; right; set_solver|].
  destruct (Z.eqb_spec c 38) as [->|]; [apply printed_u; right; set_solver|]. cbn [orb].
  destruct (Z.eqb_spec c 0x2028) as [->|]; [apply printed_u; right; set_solver|].
  destruct (Z.eqb_spec c 0x2029) as [->|]; [apply printed_u; right; set_solver|].
  by apply printed_rune.
Qed.

(** A small rune is one of thirty-two. *)
Lemma small_rune (P : Z -> Prop) : Forall P (seqZ 0 32) -> forall c, 0 <= c < 32 -> P c.
Proof. rewrite Forall_forall. intros H c Hc. apply H. apply list_elem_of_In, elem_of_seqZ. lia. Qed.

Ltac enum_small := let l := eval vm_compute in (seqZ 0 32) in change (seqZ 0 32) with l; repeat constructor.

Lemma str_scan_rune c t s : scalar c -> printed c t -> str_scan (t ++ s) = prepend t (str_scan s).
Proof.
  intros Hc [[-> | ->]|e He|He|]; [..|by apply str_scan_bytes, rune_text].
  - cbn. by destruct (str_scan s) as [[t' r]|].
  - cbn. by destruct (str_scan s) as [[t' r]|].
  - repeat (apply elem_of_cons in He as [[= -> ->]|He]; [cbn; by destruct (str_scan s) as [[t' r]|]|]). by apply elem_of_nil in He.
  - destruct He as [He|He].
    + clear Hc. revert c He. apply small_rune. enum_small; cbn; by destruct (str_scan s) as [[t' r]|].
    + repeat (apply elem_of_cons in He as [->|He]; [cbn; by destruct (str_scan s) as [[t' r]|]|]). by apply elem_of_nil in He.
Qed.

(** ** Unquoting *)
Lemma unquote_plain c l : c <> 92 -> unquote_runes (Some c :: l) = encode_rune c ++ unquote_runes l.
Proof.
  intros Hc. destruct c as [|p|p]; [done| |done].
  repeat (destruct p as [p|p|]; try done).
Qed.

Lemma unquote_rune c t s : scalar c -> printed c t ->
  unquote_runes (decode (t ++ s)) = encode_rune c ++ unquote_runes (decode s).
Proof.
  intros Hc [[-> | ->]|e He|He|]; [..|by rewrite decode_rune, unquote_plain].
  - done.
  - done.
  - repeat (apply elem_of_cons in He as [[= -> ->]|He]; [done|]). by apply elem_of_nil in He.
  - destruct He as [He|He].
    + clear Hc. revert c He. apply small_rune. enum_small; done.
    + repeat (apply elem_of_cons in He as [->|He]; [done|]). by apply elem_of_nil in He.
Qed.

(** ** Texts, for any printer that escapes enough *)
Section Printer.
Context (print : option Z -> string) (Hprint : forall c, scalar c -> printed c (print (Some c))).

Definition print_text (s : string) : string := String.concat "" (map print (decode s)).

Lemma print_text_scan s z : utf8_valid s = true -> str_scan (print_text s ++ String quote z) = Some (print_text s, z).
Proof using Hprint.
  intros (l & Hl & Hs & _)%utf8_runes. unfold print_text. rewrite Hl. clear Hl.
  induction Hs as [|c l Hc _ IH]; [done|]. cbn [map].
  rewrite concat_cons, <- app_string_assoc, (str_scan_rune c), IH by auto. done.
Qed.

Lemma print_text_unquote s : utf8_valid s = true -> unquote (print_text s) = s.
Proof using Hprint.
  intros (l & Hl & Hs & ->)%utf8_runes. unfold print_text, unquote. rewrite Hl. clear Hl.
  induction Hs as [|c l Hc _ IH]; [done|]. cbn [map]. by rewrite !concat_cons, (unquote_rune c), IH by auto.
Qed.
End Printer.

Lemma json_text_scan s z : utf8_valid s = true -> str_scan (json_text s ++ String quote z) = Some (json_text s, z).
Proof. apply (print_text_scan json_rune json_rune_printed). Qed.

Lemma json_text_unquote s : utf8_valid s = true -> unquote (json_text s) = s.
Proof. apply (print_text_unquote json_rune json_rune_printed). Qed.
