(* ===== verification/SspGuard.v ===== *)
(** * internal/ssp/envelope.go: the raw guards

    What an SSP wire must satisfy before anything of it is decoded: its size,
    UTF-8, well-formed surrogate escapes, an object at the root, no duplicate
    keys at any level and bounded nesting.  [scanValue] reads the tokens of
    Go's [json.Decoder] (whose numbers must fit a float64). *)
From S2P Require Import Prelude GoText GoStrconv GoJson GoJsonRead DeliveryStream.
Open Scope string_scope.
Open Scope Z_scope.
Open Scope snag_scope.

Definition MaxDepth : Z := 32.

Inductive SspErr : Type :=
| ErrUnknownFamily
| ErrUnknownField
| ErrDuplicateKey
| ErrExpiredEnvelope
| ErrInvalidEnvelope (inner : SspErr)
| ErrSsp (what : string).

(** ** Surrogate escapes *)
Definition isHighSurrogate (unit : Z) : bool := (0xD800 <=? unit) && (unit <=? 0xDBFF).
Definition isLowSurrogate (unit : Z) : bool := (0xDC00 <=? unit) && (unit <=? 0xDFFF).

Definition readHex4 (s : string) : result SspErr Z :=
  match s with
  | String a (String b (String c (String d _))) =>
      of_option (ErrSsp "invalid unicode escape digit")
        (hex4 (Some (code a)) (Some (code b)) (Some (code c)) (Some (code d)))
  | _ => Err (ErrSsp "truncated unicode escape")
  end.

(** The loop over the raw bytes; [inString] is its state. *)
Fixpoint escapes_from (inString : bool) (s : string) : result SspErr unit :=
  match s with
  | EmptyString => Ok tt
  | String c r =>
      if negb inString then escapes_from (c =c? quote) r
      else if c =c? quote then escapes_from false r
      else if c =c? backslash then
        match r with
        | EmptyString => Err (ErrSsp "truncated escape sequence")
        | String e r1 =>
            if negb (e =c? "u") then escapes_from true r1
            else
              first ← readHex4 r1;
              match r1 with
              | String _ (String _ (String _ (String _ r5))) =>
                  if isLowSurrogate first then Err (ErrSsp "lone low surrogate escape")
                  else if isHighSurrogate first then
                    match r5 with
                    | String b (String u (String g1 (String g2 (String g3 (String g4 r11))))) =>
                        if negb (b =c? backslash) || negb (u =c? "u")
                        then Err (ErrSsp "high surrogate escape is not followed by a low one")
                        else
                          second ← readHex4 (String g1 (String g2 (String g3 (String g4 r11))));
                          if negb (isLowSurrogate second)
                          then Err (ErrSsp "high surrogate escape is followed by another unit")
                          else escapes_from true r11
                    | _ => Err (ErrSsp "high surrogate escape is not followed by a low one")
                    end
                  else escapes_from true r5
              | _ => Err (ErrSsp "truncated unicode escape")
              end
        end
      else escapes_from true r
  end.

Definition validateStringEscapes (raw : bytes) : result SspErr unit := escapes_from false raw.

(** ** Tokens *)

(** [strconv.ParseFloat] of a JSON number fails exactly when it rounds to an
    infinity. *)
Definition float_bound : Z := 2 ^ 1024 - 2 ^ 970.

Definition unsigned (t : string) : string :=
  match t with String a r => if code a =? 45 then r else t | EmptyString => t end.

Definition float_ok (t : string) : bool :=
  let '(i, r) := digits_scan (unsigned t) in
  let '(f, r) := match r with
                 | String a r' => if code a =? 46 then digits_scan r' else ("", r)
                 | EmptyString => ("", r)
                 end in
  let m := default 0 (digits_value 0 (i ++ f)) in
  let x := match r with
           | String _ r' =>
               match r' with
               | String b r2 =>
                   if code b =? 45 then - default 0 (digits_value 0 r2)
                   else if code b =? 43 then default 0 (digits_value 0 r2)
                   else default 0 (digits_value 0 r')
               | EmptyString => 0
               end
           | EmptyString => 0
           end - len f in
  if m =? 0 then true
  else if 0 <=? x then m * 10 ^ x <? float_bound else m <? float_bound * 10 ^ (- x).

Definition malformed : SspErr := ErrSsp "malformed JSON".
Definition too_deep : SspErr := ErrSsp "nesting depth exceeded".

Fixpoint scanValue (n : nat) (depth : Z) (s : string) : result SspErr string :=
  if MaxDepth <? depth then Err too_deep
  else match n with
  | O => Err malformed
  | S n =>
      match skip_ws s with
      | EmptyString => Err malformed
      | String a r =>
          if a =c? "{" then
            if MaxDepth <=? depth then Err too_deep else scanMembers n depth [] true r
          else if a =c? "[" then
            if MaxDepth <=? depth then Err too_deep else scanElems n depth true r
          else if a =c? quote then
            match str_scan r with Some (_, r') => Ok r' | None => Err malformed end
          else match literal_scan (String a r) with
               | Some (JNumber t, r') => if float_ok t then Ok r' else Err malformed
               | Some (_, r') => Ok r'
               | None => Err malformed
               end
      end
  end
with scanElems (n : nat) (depth : Z) (first : bool) (s : string) : result SspErr string :=
  match n with
  | O => Err malformed
  | S n =>
      match skip_ws s with
      | EmptyString => Err malformed
      | String a r =>
          if a =c? "]" then Ok r
          else if a =c? "}" then Err malformed
          else
            s1 ← (if first then Ok (String a r) else if a =c? "," then Ok (skip_ws r) else Err malformed);
            rest ← scanValue n (depth + 1) s1;
            scanElems n depth false rest
      end
  end
with scanMembers (n : nat) (depth : Z) (keys : list string) (first : bool) (s : string)
  : result SspErr string :=
  match n with
  | O => Err malformed
  | S n =>
      match skip_ws s with
      | EmptyString => Err malformed
      | String a r =>
          if a =c? "}" then Ok r
          else if a =c? "]" then Err malformed
          else
            s1 ← (if first then Ok (String a r) else if a =c? "," then Ok (skip_ws r) else Err malformed);
            match s1 with
            | EmptyString => Err malformed
            | String q r1 =>
                if q =c? quote then
                  match str_scan r1 with
                  | None => Err malformed
                  | Some (t, r2) =>
                      if existsb (String.eqb (unquote t)) keys then Err ErrDuplicateKey
                      else match skip_ws r2 with
                      | EmptyString => Err malformed
                      | String c r3 =>
                          if c =c? ":" then
                            rest ← scanValue n (depth + 1) r3;
                            scanMembers n depth (unquote t :: keys) false rest
                          else Err malformed
                      end
                  end
                else Err malformed
            end
      end
  end.

Definition rawGuard (raw : bytes) : result SspErr unit :=
  if MaxEnvelopeBytes <? len raw then Err (ErrSsp "envelope exceeds the size limit")
  else if negb (utf8_valid raw) then Err (ErrSsp "invalid UTF-8")
  else
    validateStringEscapes raw;;
    match skip_ws raw with
    | String a _ =>
        if negb (a =c? "{") then Err (ErrSsp "envelope root must be an object")
        else
          rest ← scanValue (S (2 * String.length raw)) 0 raw;
          if is_empty (skip_ws rest) then Ok tt else Err malformed
    | EmptyString => Err (ErrSsp "envelope root must be an object")
    end.

(** ** The guard against a reference

    [guard_ok d v]: what the token scan demands of a value at depth [d]: no
    repeated key, containers nested at most 32 deep, and numbers that fit a
    float64. *)
Definition keys_of (l : list (string * string * json)) : list string := map (fun m => m.1.1) l.

Fixpoint guard_ok (d : Z) (v : json) : bool :=
  match v with
  | JNumber t => float_ok t
  | JArray l => (d <? 32) && forallb (fun m => guard_ok (d + 1) m.2) l
  | JObject l => (d <? 32) && bool_decide (NoDup (keys_of l))
                 && forallb (fun m => guard_ok (d + 1) m.2) l
  | _ => true
  end.

Definition to_option {E A} (r : result E A) : option A :=
  match r with Ok a => Some a | Err _ => None end.

(** What a parse leaves when the parsed part passes a check. *)
Definition checked {A} (p : A -> bool) (x : option (A * string)) : option string :=
  match x with Some (a, r) => if p a then Some r else None | None => None end.

(** The part of an array, or of an object, after one of its values. *)
Definition tail_elems (n : nat) (s : string) : option (list (string * json) * string) :=
  match skip_ws s with
  | EmptyString => None
  | String b r => if b =c? "]" then Some ([], r)
                  else if b =c? "," then parse_elems n (skip_ws r) else None
  end.

Definition tail_members (n : nat) (s : string) : option (list (string * string * json) * string) :=
  match skip_ws s with
  | EmptyString => None
  | String b r => if b =c? "}" then Some ([], r)
                  else if b =c? "," then parse_members n (skip_ws r) else None
  end.

Lemma to_option_bind {E A B} (m : result E A) (k : A -> result E B) :
  to_option (m ≫= k) = to_option m ≫= (fun a => to_option (k a)).
Proof. by destruct m. Qed.

Fixpoint fresh_keys (keys : list string) (l : list (string * string * json)) : bool :=
  match l with
  | [] => true
  | m :: l => negb (existsb (String.eqb m.1.1) keys) && fresh_keys (m.1.1 :: keys) l
  end.

Lemma fresh_keys_spec keys l : fresh_keys keys l = true <->
  NoDup (keys_of l) /\ forall k, k ∈ keys_of l -> k ∉ keys.
Proof.
  revert keys. induction l as [|m l IH]; intros keys; cbn.
  - split; [|done]. intros _. split; [constructor|]. intros k Hk. by apply not_elem_of_nil in Hk.
  - rewrite andb_true_iff, negb_true_iff, IH, list.NoDup_cons. clear IH.
    assert (He : existsb (String.eqb m.1.1) keys = false <-> m.1.1 ∉ keys).
    { rewrite <- not_true_iff_false, existsb_exists. split.
      - intros Hn Hin. apply Hn. exists m.1.1. split; [by apply list_elem_of_In|apply String.eqb_refl].
      - intros Hn (x & Hx & <-%String.eqb_eq). by apply Hn, list_elem_of_In. }
    rewrite He. split.
    + intros (H1 & H2 & H3). split_and!.
      * intros Hin. apply (H3 _ Hin). by left.
      * done.
      * intros k [->|Hk]%elem_of_cons; [done|]. intros Hin. apply (H3 _ Hk). by right.
    + intros ((H1 & H2) & H3). split_and!; [apply H3; by left|done|].
      intros k Hk [->|Hin]%elem_of_cons; [done|]. apply (H3 k); [by right|done].
Qed.

Lemma fresh_keys_nil l : fresh_keys [] l = bool_decide (NoDup (keys_of l)).
Proof.
  destruct (fresh_keys [] l) eqn:E.
  - symmetry. apply bool_decide_eq_true. by apply fresh_keys_spec in E as [? _].
  - symmetry. apply bool_decide_eq_false. intros Hn. apply not_true_iff_false in E. apply E.
    apply fresh_keys_spec. split; [done|]. intros k _. apply not_elem_of_nil.
Qed.

(** The same parts from their opening bracket on. *)
Definition head_elems (n : nat) (s : string) : option (list (string * json) * string) :=
  match skip_ws s with
  | EmptyString => None
  | String b r => if b =c? "]" then Some ([], r) else parse_elems n (String b r)
  end.

Definition head_members (n : nat) (s : string) : option (list (string * string * json) * string) :=
  match skip_ws s with
  | EmptyString => None
  | String b r => if b =c? "}" then Some ([], r) else parse_members n (String b r)
  end.

Lemma parse_elems_tail n s : parse_elems (S n) s =
  match parse_value n s with
  | Some (v, r) => match tail_elems n r with Some (l, r2) => Some ((before s r, v) :: l, r2) | None => None end
  | None => None
  end.
Proof.
  cbn [parse_elems]. destruct (parse_value n s) as [[v r]|]; [|done]. unfold tail_elems.
  destruct (skip_ws r) as [|b r1]; [done|]. destruct (b =c? "]"); [done|]. by destruct (b =c? ",").
Qed.

Lemma parse_members_tail n r1 : parse_members (S n) (String quote r1) =
  match str_scan r1 with
  | Some (t, r2) =>
      match skip_ws r2 with
      | String c r3 =>
          if c =c? ":" then
            match parse_value n (skip_ws r3) with
            | Some (v, r) =>
                match tail_members n r with
                | Some (l, r5) => Some ((unquote t, before (skip_ws r3) r, v) :: l, r5)
                | None => None
                end
            | None => None
            end
          else None
      | EmptyString => None
      end
  | None => None
  end.
Proof.
  cbn [parse_members]. rewrite Ascii.eqb_refl. destruct (str_scan r1) as [[t' r2]|]; [|done].
  destruct (skip_ws r2) as [|c r3]; [done|]. destruct (c =c? ":"); [|done]. cbn zeta.
  destruct (parse_value n _) as [[v r]|]; [|done]. unfold tail_members.
  destruct (skip_ws r) as [|b r4]; [done|]. destruct (b =c? "}"); [done|]. by destruct (b =c? ",").
Qed.

Lemma parse_elems_brace n r : parse_elems n (String "}" r) = None.
Proof. by destruct n as [|[|n]]. Qed.
Lemma parse_members_other n a r : a <> quote -> parse_members n (String a r) = None.
Proof. intros Ha. destruct n; [done|]. cbn [parse_members]. by destruct (Ascii.eqb_spec a quote). Qed.

Lemma skip_ws_head s a r : skip_ws s = String a r -> skip_ws (String a r) = String a r.
Proof. intros <-. apply skip_ws_idem. Qed.

Section ScanStep.
Context (n : nat).
Context (IHv : forall d s, (2 * String.length s < n)%nat -> d <= MaxDepth ->
  to_option (scanValue n d s) = checked (guard_ok d) (parse_value n (skip_ws s))).
Context (IHe : forall d s, (2 * String.length s < n)%nat -> d < MaxDepth ->
  to_option (scanElems n d false s) = checked (forallb (fun m => guard_ok (d + 1) m.2)) (tail_elems n s)).
Context (IHm : forall d keys s, (2 * String.length s < n)%nat -> d < MaxDepth ->
  to_option (scanMembers n d keys false s) =
  checked (fun l => fresh_keys keys l && forallb (fun m => guard_ok (d + 1) m.2) l) (tail_members n s)).

(** One element and what follows it. *)
Lemma scan_element d s : (2 * String.length s < n)%nat -> d < MaxDepth ->
  to_option (rest ← scanValue n (d + 1) s; scanElems n d false rest) =
  checked (forallb (fun m => guard_ok (d + 1) m.2)) (parse_elems (S n) (skip_ws s)).
Proof using IHv IHe.
  intros Hl Hd. rewrite to_option_bind, IHv, parse_elems_tail by lia.
  destruct (parse_value n (skip_ws s)) as [[v r]|] eqn:E; [|done].
  apply (proj1 (parse_length n)) in E. pose proof (skip_ws_length s). cbn [checked].
  destruct (guard_ok (d + 1) v) eqn:Hg; cbn [mbind option_bind].
  - rewrite IHe by lia. destruct (tail_elems n r) as [[l r2]|]; [|done]. cbn. by rewrite Hg.
  - destruct (tail_elems n r) as [[l r2]|]; [|done]. cbn. by rewrite Hg.
Qed.

(** One member, from its key on. *)
Definition scan_member (d : Z) (keys : list string) (s : string) : result SspErr string :=
  match s with
  | EmptyString => Err malformed
  | String q r1 =>
      if q =c? quote then
        match str_scan r1 with
        | None => Err malformed
        | Some (t, r2) =>
            if existsb (String.eqb (unquote t)) keys then Err ErrDuplicateKey
            else match skip_ws r2 with
            | EmptyString => Err malformed
            | String c r3 =>
                if c =c? ":" then
                  rest ← scanValue n (d + 1) r3;
                  scanMembers n d (unquote t :: keys) false rest
                else Err malformed
            end
        end
      else Err malformed
  end.

Lemma scan_member_exact d keys s : (2 * String.length s < n)%nat -> d < MaxDepth ->
  to_option (scan_member d keys s) =
  checked (fun l => fresh_keys keys l && forallb (fun m => guard_ok (d + 1) m.2) l)
    (parse_members (S n) s).
Proof using IHv IHm.
  intros Hl Hd. destruct s as [|q r1]; [done|]. cbn [scan_member].
  destruct (Ascii.eqb_spec q quote) as [->|Hq]; [|by rewrite parse_members_other].
  rewrite parse_members_tail. destruct (str_scan r1) as [[t r2]|] eqn:Es; [|done].
  apply str_scan_length in Es. cbn [String.length] in Hl.
  destruct (skip_ws r2) as [|c r3] eqn:E2; [by destruct (existsb _ _)|].
  pose proof (skip_ws_length r2) as L2. rewrite E2 in L2. cbn in L2.
  destruct (c =c? ":"); [|by destruct (existsb _ _)].
  destruct (parse_value n (skip_ws r3)) as [[v r]|] eqn:Ev.
  2:{ destruct (existsb _ _); [done|]. rewrite to_option_bind, IHv, Ev by lia. done. }
  pose proof (proj1 (parse_length n) _ _ _ Ev) as Lr. pose proof (skip_ws_length r3).
  destruct (existsb _ keys) eqn:Hk.
  { destruct (tail_members n r) as [[l r5]|]; [|done]. cbn. by rewrite Hk. }
  rewrite to_option_bind, IHv, Ev by lia. cbn [checked].
  destruct (guard_ok (d + 1) v) eqn:Hg; cbn [mbind option_bind].
  - rewrite IHm by lia. destruct (tail_members n r) as [[l r5]|]; [|done].
    cbn. by rewrite Hk, Hg.
  - destruct (tail_members n r) as [[l r5]|]; [|done]. cbn. by rewrite Hg, andb_false_r.
Qed.
End ScanStep.

Lemma scan_exact n :
  (forall d s, (2 * String.length s < n)%nat -> d <= MaxDepth ->
     to_option (scanValue n d s) = checked (guard_ok d) (parse_value n (skip_ws s))) /\
  (forall d s, (2 * String.length s < n)%nat -> d < MaxDepth ->
     to_option (scanElems n d false s) = checked (forallb (fun m => guard_ok (d + 1) m.2)) (tail_elems n s)) /\
  (forall d keys s, (2 * String.length s < n)%nat -> d < MaxDepth ->
     to_option (scanMembers n d keys false s) =
     checked (fun l => fresh_keys keys l && forallb (fun m => guard_ok (d + 1) m.2) l)
       (tail_members n s)) /\
  (forall d s, (S (2 * String.length s) < n)%nat -> d < MaxDepth ->
     to_option (scanElems n d true s) = checked (forallb (fun m => guard_ok (d + 1) m.2)) (head_elems n s)) /\
  (forall d s, (S (2 * String.length s) < n)%nat -> d < MaxDepth ->
     to_option (scanMembers n d [] true s) =
     checked (fun l => fresh_keys [] l && forallb (fun m => guard_ok (d + 1) m.2) l)
       (head_members n s)).
Proof.
  induction n as [|n (IHv & IHe & IHm & IHe1 & IHm1)]; [split_and!; intros; lia|].
  split_and!.
  - intros d s Hl Hd. cbn [scanValue]. rewrite (proj2 (Z.ltb_ge _ _)) by done.
    destruct (skip_ws s) as [|a r] eqn:Es; [done|].
    pose proof (skip_ws_length s) as Ls. rewrite Es in Ls. cbn [String.length] in Ls.
    cbn [parse_value]. destruct (a =c? "{") eqn:Ea.
    { assert (Hp : match skip_ws r with
        | "" => None
        | String b r' => if b =c? "}" then Some (JObject [], r') else
            match parse_members n (String b r') with Some (l, r2) => Some (JObject l, r2) | None => None end
        end = match head_members n r with Some (l, r2) => Some (JObject l, r2) | None => None end).
      { unfold head_members. destruct (skip_ws r) as [|b r']; [done|]. by destruct (b =c? "}"). }
      rewrite Hp. clear Hp. destruct (Z.leb_spec MaxDepth d).
      - destruct (head_members n r) as [[l r2]|]; [|done]. cbn [checked guard_ok].
        by rewrite (proj2 (Z.ltb_ge _ _)) by done.
      - rewrite IHm1 by lia. destruct (head_members n r) as [[l r2]|]; [|done]. cbn [checked guard_ok].
        by rewrite (proj2 (Z.ltb_lt _ _)), fresh_keys_nil by done. }
    destruct (a =c? "[").
    { assert (Hp : match skip_ws r with
        | "" => None
        | String b r' => if b =c? "]" then Some (JArray [], r') else
            match parse_elems n (String b r') with Some (l, r2) => Some (JArray l, r2) | None => None end
        end = match head_elems n r with Some (l, r2) => Some (JArray l, r2) | None => None end).
      { unfold head_elems. destruct (skip_ws r) as [|b r']; [done|]. by destruct (b =c? "]"). }
      rewrite Hp. clear Hp. destruct (Z.leb_spec MaxDepth d).
      - destruct (head_elems n r) as [[l r2]|]; [|done]. cbn [checked guard_ok].
        by rewrite (proj2 (Z.ltb_ge _ _)) by done.
      - rewrite IHe1 by lia. destruct (head_elems n r) as [[l r2]|]; [|done]. cbn [checked guard_ok].
        by rewrite (proj2 (Z.ltb_lt _ _)) by done. }
    destruct (a =c? quote); [by destruct (str_scan r) as [[t r']|]|].
    destruct (literal_scan (String a r)) as [[[]]|] eqn:El; try done; try (cbn; by destruct (float_ok _)).
    all: exfalso; unfold literal_scan in El; by repeat case_match.
  - intros d s Hl Hd. cbn [scanElems]. unfold tail_elems. destruct (skip_ws s) as [|a r] eqn:Es; [done|].
    pose proof (skip_ws_length s) as Ls. rewrite Es in Ls. cbn [String.length] in Ls.
    destruct (a =c? "]"); [done|]. destruct (Ascii.eqb_spec a "}") as [->|]; [done|].
    destruct (a =c? ","); [|done]. pose proof (skip_ws_length r).
    rewrite <- (skip_ws_idem r) at 2. by apply scan_element; [..|lia|].
  - intros d keys s Hl Hd. cbn [scanMembers]. unfold tail_members. destruct (skip_ws s) as [|a r] eqn:Es; [done|].
    pose proof (skip_ws_length s) as Ls. rewrite Es in Ls. cbn [String.length] in Ls.
    destruct (a =c? "}"); [done|]. destruct (Ascii.eqb_spec a "]") as [->|]; [done|].
    destruct (a =c? ","); [|done]. pose proof (skip_ws_length r).
    by apply (scan_member_exact n); [..|lia|].
  - intros d s Hl Hd. cbn [scanElems]. unfold head_elems. destruct (skip_ws s) as [|a r] eqn:Es; [done|].
    pose proof (skip_ws_length s) as Ls. rewrite Es in Ls. cbn [String.length] in Ls.
    destruct (a =c? "]"); [done|]. destruct (Ascii.eqb_spec a "}") as [->|]; [by rewrite parse_elems_brace|].
    rewrite <- (skip_ws_head _ _ _ Es) at 2. apply scan_element; [done..| |done]. cbn. lia.
  - intros d s Hl Hd. cbn [scanMembers]. unfold head_members. destruct (skip_ws s) as [|a r] eqn:Es; [done|].
    pose proof (skip_ws_length s) as Ls. rewrite Es in Ls. cbn [String.length] in Ls.
    destruct (a =c? "}"); [done|]. destruct (Ascii.eqb_spec a "]") as [->|]; [by rewrite parse_members_other|].
    refine (scan_member_exact n IHv IHm d [] (String a r) _ Hd). cbn. lia.
Qed.

Lemma literal_scan_scalar s v r : literal_scan s = Some (v, r) -> forall l, v <> JObject l.
Proof. unfold literal_scan. intros H l ->. by repeat case_match. Qed.

(** The root of a parsed text is an object exactly when it starts with a brace. *)
Lemma parse_value_object n a r v rest : parse_value n (String a r) = Some (v, rest) ->
  (a =c? "{") = true <-> exists l, v = JObject l.
Proof.
  intros H. destruct n as [|n]; [done|]. cbn [parse_value] in H. destruct (a =c? "{") eqn:Ea.
  - split; [intros _|done]. repeat case_match; try done; injection H as <- _; eauto.
  - split; [done|]. intros [l ->]. destruct (a =c? "["); [by repeat case_match; simplify_eq|].
    destruct (a =c? quote); [by repeat case_match; simplify_eq|].
    by destruct (literal_scan_scalar _ _ _ H l).
Qed.

Lemma to_option_ok {E A} (r : result E A) a : r = Ok a <-> to_option r = Some a.
Proof. destruct r; cbn; split; congruence. Qed.

Lemma read_value_fuel s : read_value s = parse_value (S (2 * String.length s)) (skip_ws s).
Proof.
  unfold read_value. cbn zeta. apply parse_fuel; pose proof (skip_ws_length s); lia.
Qed.

Lemma rawGuard_spec raw :
  rawGuard raw = Ok tt <->
  len raw <= MaxEnvelopeBytes /\ utf8_valid raw = true /\ validateStringEscapes raw = Ok tt /\
  exists l, parse raw = Some (JObject l) /\ guard_ok 0 (JObject l) = true.
Proof.
  unfold rawGuard, parse. rewrite read_value_fuel.
  destruct (Z.ltb_spec MaxEnvelopeBytes (len raw)); [split; [done|intros (? & _); lia]|].
  destruct (utf8_valid raw); [cbn [negb]|split; [done|naive_solver]].
  destruct (validateStringEscapes raw) as [[]|] eqn:Hesc; cbn [mbind result_bind]; [|split; [done|naive_solver]].
  destruct (skip_ws raw) as [|a r] eqn:Es; [split; [done|intros (_ & _ & _ & l & H1 & _); done]|].
  pose proof (proj1 (scan_exact (S (2 * String.length raw))) 0 raw ltac:(lia) ltac:(done)) as Hscan.
  rewrite Es in Hscan. set (n := S (2 * String.length raw)) in *.
  destruct (a =c? "{") eqn:Ea; cbn [negb].
  2:{ split; [done|]. intros (_ & _ & _ & l & Hp & _).
      destruct (parse_value n (String a r)) as [[v rest]|] eqn:Ev; [|done].
      destruct (is_empty _); [|done]. injection Hp as ->.
      pose proof (proj2 (parse_value_object _ _ _ _ _ Ev) (ex_intro _ l eq_refl)). congruence. }
  destruct (parse_value n (String a r)) as [[v rest]|] eqn:Ev; cbn [checked] in Hscan.
  2:{ destruct (scanValue n 0 raw); [done|]. split; [done|naive_solver]. }
  destruct (proj1 (parse_value_object _ _ _ _ _ Ev) Ea) as [l ->].
  destruct (guard_ok 0 (JObject l)) eqn:Hg.
  - apply to_option_ok in Hscan. rewrite Hscan. cbn [mbind result_bind].
    destruct (is_empty _); [|split; [done|naive_solver]]. split; [|done]. intros _. eauto 10.
  - destruct (scanValue n 0 raw); [done|]. split; [done|]. intros (_ & _ & _ & l' & Hp & Hg').
    destruct (is_empty _); [|done]. injection Hp as <-. congruence.
Qed.
