(* ===== verification/SspBody.v ===== *)
(** * internal/ssp: members, numbers and the bodies of the three families

    The helpers that read a JSON object strictly (envelope.go), the bodies of
    ssp.case.v1 and ssp.advice.v1, and the structural validation of
    ssp.registry.v1 (registry_family.go). *)
From S2P Require Import Prelude GoText GoStrconv GoTime GoJson GoJsonRead GoBase64 SspGuard.
Open Scope string_scope.
Open Scope Z_scope.
Open Scope snag_scope.

Definition SspFamilyCase : string := "ssp.case.v1".
Definition SspFamilyAdvice : string := "ssp.advice.v1".
Definition SspFamilyRegistry : string := "ssp.registry.v1".

Definition maxSafeInteger : Z := 2 ^ 53 - 1.

Abbreviation members := (list (string * string * json)) (only parsing).

(** ** Strict objects *)
Definition exactObject (raw : bytes) : result SspErr members :=
  match TrimSpace raw with
  | String a r =>
      if negb (a =c? "{") then Err (ErrSsp "must be an object")
      else match parse (String a r) with
           | Some (JObject l) => Ok l
           | _ => Err (ErrSsp "invalid object")
           end
  | EmptyString => Err (ErrSsp "must be an object")
  end.

Definition raw_member (l : members) (name : string) : option bytes := fst <$> last_member l name.
Definition mem (name : string) (names : list string) : bool := existsb (String.eqb name) names.

Definition requireExactMembers (l : members) (allowed required : list string) : result SspErr unit :=
  if existsb (fun m => negb (mem m.1.1 allowed)) l then Err ErrUnknownField
  else first_err (fun name =>
    match raw_member l name with
    | None => Err (ErrSsp "missing required member")
    | Some raw => reject (TrimSpace raw =s? "null") (ErrSsp "required member is null")
    end) required.

Definition requiredString (l : members) (name : string) : result SspErr string :=
  match raw_member l name with
  | None => Err (ErrSsp "required member is missing or null")
  | Some raw =>
      if TrimSpace raw =s? "null" then Err (ErrSsp "required member is missing or null")
      else of_option (ErrSsp "member must be a string") (unmarshal_string raw)
  end.

(** The pattern of a non-negative integer: a zero with an optional minus, or
    digits that start with a non-zero one. *)
Definition integer_pattern (t : string) : bool :=
  (t =s? "0") || (t =s? "-0")
  || match t with String a r => in_range 49 57 a && all_chars is_digit r | EmptyString => false end.

Definition requiredNonNegativeInteger (l : members) (name : string) : result SspErr Z :=
  match raw_member l name with
  | None => Err (ErrSsp "required member is missing or null")
  | Some raw =>
      let text := TrimSpace raw in
      if text =s? "null" then Err (ErrSsp "required member is missing or null")
      else if negb (integer_pattern text) then Err (ErrSsp "member must be a non-negative integer")
      else match ParseInt text with
           | Some v => if maxSafeInteger <? v then Err (ErrSsp "outside the safe integer range") else Ok v
           | None => Err (ErrSsp "outside the safe integer range")
           end
  end.

Definition validOpaqueID (v : string) : bool :=
  utf8_valid v && (1 <=? rune_count v) && (rune_count v <=? 512).

(** ** Numbers: every number of a body is a safe integer *)
Definition float_char (a : ascii) : bool := (code a =? 46) || (code a =? 101) || (code a =? 69).

Definition check_number (text : string) : result SspErr unit :=
  if negb (all_chars (fun a => negb (float_char a)) text)
  then Err (ErrSsp "floating-point numbers are not allowed")
  else match ParseInt text with
       | Some n => reject ((n <? - maxSafeInteger) || (maxSafeInteger <? n)) (ErrSsp "integer exceeds safe range")
       | None => Err (ErrSsp "integer exceeds safe range")
       end.

(** The walk over the decoded value; of a repeated key it sees the last
    member. *)
Fixpoint walk (v : json) : result SspErr unit :=
  match v with
  | JNumber text => check_number text
  | JArray l =>
      (fix items l := match l with
                      | [] => Ok tt
                      | m :: l => walk m.2;; items l
                      end) l
  | JObject l =>
      (fix items l := match l with
                      | [] => Ok tt
                      | m :: l => (if mem m.1.1 (keys_of l) then Ok tt else walk m.2);; items l
                      end) l
  | _ => Ok tt
  end.

Definition validateNumbers (raw : bytes) : result SspErr unit :=
  match read_value raw with
  | Some (v, _) => walk v
  | None => Err (ErrSsp "invalid body")
  end.

(** ** The bodies of a case and of an advice *)
Definition case_members : list string :=
  ["domain"; "issuer_edge_id"; "issuer_edge_generation"; "summary"; "public_summary"; "context_manifest"].
Definition advice_members : list string := ["case_commitment"; "text"; "public_summary"].

Definition validateCaseAdviceBody (schema : string) (raw : bytes) : result SspErr unit :=
  if negb (utf8_valid raw) then Err (ErrSsp "invalid UTF-8 body")
  else
    l ← exactObject raw;
    if schema =s? SspFamilyCase then
      requireExactMembers l case_members case_members;;
      domain ← requiredString l "domain";
      issuerEdgeID ← requiredString l "issuer_edge_id";
      match requiredNonNegativeInteger l "issuer_edge_generation" with
      | Err _ => Err (ErrSsp "invalid ssp.case.v1 body")
      | Ok issuerEdgeGeneration =>
          if issuerEdgeGeneration =? 0 then Err (ErrSsp "invalid ssp.case.v1 body")
          else
            summary ← requiredString l "summary";
            publicSummary ← requiredString l "public_summary";
            contextManifest ← requiredString l "context_manifest";
            let summaryLength := rune_count summary in
            let publicSummaryLength := rune_count publicSummary in
            reject (negb (validOpaqueID domain) || negb (validOpaqueID issuerEdgeID)
                    || (summaryLength =? 0) || (4096 <? summaryLength)
                    || (publicSummaryLength =? 0) || (1024 <? publicSummaryLength)
                    || negb (sha256_pattern contextManifest)) (ErrSsp "invalid ssp.case.v1 body")
      end
    else if schema =s? SspFamilyAdvice then
      requireExactMembers l advice_members advice_members;;
      caseCommitment ← requiredString l "case_commitment";
      text ← requiredString l "text";
      publicSummary ← requiredString l "public_summary";
      let textLength := rune_count text in
      let publicSummaryLength := rune_count publicSummary in
      reject (negb (sha256_pattern caseCommitment) || (textLength =? 0) || (8192 <? textLength)
              || (publicSummaryLength =? 0) || (1024 <? publicSummaryLength))
             (ErrSsp "invalid ssp.advice.v1 body")
    else Err ErrUnknownFamily.

(** ** Canonical base64 *)
Definition DecodeCanonicalBase64 (encoded : string) (wantLen : Z) : result SspErr bytes :=
  match b64_decode encoded with
  | None => Err (ErrSsp "not canonical base64url")
  | Some decoded =>
      if negb (len decoded =? wantLen) then Err (ErrSsp "decoded length")
      else if b64_encode decoded <>s? encoded then Err (ErrSsp "base64url encoding is not canonical")
      else Ok decoded
  end.

(** ** The envelope *)
Record Envelope := mkEnvelope {
  Schema : string;
  ID : string;
  CaseID : string;
  EmittedAt : string;
  ExpiresAt : string;
  RoutingEpoch : Z;
  RegistryRevision : Z;
  RegistryHash : string;
  AuthorKeyID : string;
  SignatureAlg : string;
  Body : bytes;
  Signature : string }.

Lemma canonical_base64_spec encoded n d :
  DecodeCanonicalBase64 encoded n = Ok d <-> encoded = b64_encode d /\ len d = n.
Proof.
  unfold DecodeCanonicalBase64. split.
  - destruct (b64_decode encoded) as [x|]; [|done]. intros H. inv_result. by bools.
  - intros [-> <-]. by rewrite b64_decode_encode, Z.eqb_refl, String.eqb_refl.
Qed.

(** A canonical base64 text is the one encoding of the bytes it yields:
    [DecodeCanonicalBase64] returns [d] exactly for the text that the encoder
    prints for [d], and only when [d] has the wanted length.  In particular no
    two texts decode to the same signature. *)
Theorem canonical_base64_exact encoded n d :
  DecodeCanonicalBase64 encoded n = Ok d <-> encoded = b64_encode d /\ len d = n.
Proof. apply canonical_base64_spec. Qed.


(** ** What a required member is *)
Lemma mem_spec x l : mem x l = true <-> x ∈ l.
Proof.
  unfold mem. rewrite existsb_exists, list_elem_of_In. split.
  - intros (y & Hy & ->%String.eqb_eq). done.
  - intros H. exists x. by rewrite String.eqb_refl.
Qed.
