(* ===== verification/SspRegistry.v ===== *)
(** * internal/ssp/registry_family.go: the body of ssp.registry.v1

    The structural half of a registry snapshot: member sets and their JSON
    types, closed vocabularies, bounded integers and arrays, and the mirrors of
    the header's revision and routing epoch.

    The struct decoding ([json.Unmarshal] into a struct) runs after the member
    names are known to be the schema's own, so only exact names matter; each
    occurrence of a member must decode, a null leaves a scalar as it is, and the
    last occurrence wins. *)
From S2P Require Import Prelude GoText GoStrconv GoTime GoJson GoJsonRead GoBase64 SspGuard SspBody.
Open Scope string_scope.
Open Scope Z_scope.
Open Scope snag_scope.

Definition maxRegistryDomains : Z := 4096.
Definition maxRegistryPrincipals : Z := 16384.
Definition maxRegistryEdges : Z := 16384.
Definition maxRegistryKeys : Z := 32768.
Definition maxOpaqueIDArrayItems : Z := 16384.
Definition registryKeyUsages : list string := ["advice"; "edge"; "registry"].

(** ** JSON types of raw members *)
Inductive jsonType : Type :=
| jsonInvalid | jsonNull | jsonBool | jsonNumber | jsonString | jsonArray | jsonObject.

#[export] Instance jsonType_eq_dec : EqDecision jsonType.
Proof. solve_decision. Defined.

Fixpoint classifyJSON (raw : bytes) : jsonType :=
  match raw with
  | EmptyString => jsonInvalid
  | String b r =>
      if is_ws b then classifyJSON r
      else if b =c? "n" then jsonNull
      else if (b =c? "t") || (b =c? "f") then jsonBool
      else if b =c? quote then jsonString
      else if b =c? "[" then jsonArray
      else if b =c? "{" then jsonObject
      else if (b =c? "-") || is_digit b then jsonNumber
      else jsonInvalid
  end.

Record memberRule := rule {
  rule_name : string;
  rule_kind : jsonType;
  rule_optional : bool;
  rule_nullable : bool }.

Definition required (name : string) (kind : jsonType) : memberRule := rule name kind false false.

(** [json.Unmarshal] into a map of raw members; a null leaves the map nil. *)
Definition unmarshal_members (raw : bytes) : option members :=
  match parse raw with
  | Some (JObject l) => Some l
  | Some JNull => Some []
  | _ => None
  end.

Definition check_rule (l : members) (r : memberRule) : result SspErr unit :=
  match raw_member l (rule_name r) with
  | None => if rule_optional r then Ok tt else Err (ErrSsp "missing member")
  | Some value =>
      let actual := classifyJSON value in
      if bool_decide (actual = rule_kind r) || (rule_nullable r && bool_decide (actual = jsonNull))
      then Ok tt else Err (ErrSsp "member has the wrong type")
  end.

Definition requireTypedMembers (raw : bytes) (rules : list memberRule) : result SspErr members :=
  l ← of_option (ErrSsp "invalid object") (unmarshal_members raw);
  first_err (check_rule l) rules;;
  if existsb (fun m => negb (mem m.1.1 (rule_name <$> rules))) l
  then Err (ErrSsp "unknown member") else Ok l.

(** ** Struct fields *)
Definition field {A} (decode : A -> json -> option A) (zero : A) (l : members) (name : string) : option A :=
  foldl (fun acc m => cur ← acc; if m.1.1 =s? name then decode cur m.2 else Some cur) (Some zero) l.

Definition decode_int64 (cur : Z) (v : json) : option Z :=
  match v with JNumber t => ParseInt t | JNull => Some cur | _ => None end.
Definition decode_string (cur : string) (v : json) : option string :=
  match v with JString s => Some s | JNull => Some cur | _ => None end.
Definition decode_string_ptr (_ : option string) (v : json) : option (option string) :=
  match v with JString s => Some (Some s) | JNull => Some None | _ => None end.
Definition decode_strings (_ : list string) (v : json) : option (list string) :=
  match v with
  | JArray l => mapM (fun m => decode_string "" m.2) l
  | JNull => Some []
  | _ => None
  end.
Definition decode_raws (_ : list bytes) (v : json) : option (list bytes) :=
  match v with JArray l => Some (fst <$> l) | JNull => Some [] | _ => None end.

(** ** Checks shared by the records *)
Definition checkIntegerRange (value min : Z) : result SspErr unit :=
  reject ((value <? min) || (maxSafeInteger <? value)) (ErrSsp "invalid integer").

Fixpoint distinct_ids (seen values : list string) : result SspErr unit :=
  match values with
  | [] => Ok tt
  | value :: values =>
      if negb (validOpaqueID value) then Err (ErrSsp "invalid entry")
      else if mem value seen then Err (ErrSsp "duplicate entry")
      else distinct_ids (value :: seen) values
  end.

Definition validateOpaqueIDArray (values : list string) : result SspErr unit :=
  if maxOpaqueIDArrayItems <? Z.of_nat (length values) then Err (ErrSsp "too many entries")
  else distinct_ids [] values.

Fixpoint distinct_families (seen families : list string) : result SspErr (list string) :=
  match families with
  | [] => Ok seen
  | family :: families =>
      if (family <>s? SspFamilyCase) && (family <>s? SspFamilyAdvice) then Err (ErrSsp "unsupported family")
      else if mem family seen then Err (ErrSsp "duplicate family")
      else distinct_families (family :: seen) families
  end.

Definition validateRouteFamilies (families : list string) : result SspErr unit :=
  if negb (length families =? 2)%nat then Err (ErrSsp "families must contain exactly case and advice")
  else
    seen ← distinct_families [] families;
    if negb (mem SspFamilyCase seen) then Err (ErrSsp "case family is missing")
    else if negb (mem SspFamilyAdvice seen) then Err (ErrSsp "advice family is missing")
    else Ok tt.

Definition parseRegistryTimestamp (value : string) : result SspErr Z :=
  of_option (ErrSsp "invalid timestamp") (ParseTimestamp value).

(** ** The records *)
Record DomainRoute := mkRoute {
  rt_domain : string;
  rt_dispatcher : string;
  rt_issuers : list string;
  rt_specialists : list string;
  rt_families : list string;
  rt_epoch : Z }.

Definition route_rules : list memberRule :=
  [required "domain" jsonString; required "dispatcher_principal_id" jsonString;
   required "issuer_edge_ids" jsonArray; required "specialist_principal_ids" jsonArray;
   required "families" jsonArray; required "routing_epoch" jsonNumber].

Definition decode_route (l : members) : option DomainRoute :=
  d ← field decode_string "" l "domain";
  p ← field decode_string "" l "dispatcher_principal_id";
  i ← field decode_strings [] l "issuer_edge_ids";
  s ← field decode_strings [] l "specialist_principal_ids";
  f ← field decode_strings [] l "families";
  n ← field decode_int64 0 l "routing_epoch";
  Some (mkRoute d p i s f n).

Definition check_route (r : DomainRoute) : result SspErr unit :=
  reject (negb (validOpaqueID (rt_domain r))) (ErrSsp "invalid domain");;
  reject (negb (validOpaqueID (rt_dispatcher r))) (ErrSsp "invalid dispatcher_principal_id");;
  reject (bool_decide (rt_issuers r = [])) (ErrSsp "issuer_edge_ids must not be empty");;
  validateOpaqueIDArray (rt_issuers r);;
  validateOpaqueIDArray (rt_specialists r);;
  validateRouteFamilies (rt_families r);;
  checkIntegerRange (rt_epoch r) 0.

Definition validateDomainRoute (raw : bytes) : result SspErr unit :=
  l ← requireTypedMembers raw route_rules;
  r ← of_option (ErrSsp "invalid domain route") (decode_route l);
  check_route r.

Record PrincipalRecord := mkPrincipal {
  pr_id : string;
  pr_roles : list string;
  pr_keys : list string;
  pr_edges : list string }.

Definition principal_rules : list memberRule :=
  [required "principal_id" jsonString; required "roles" jsonArray;
   required "ssp_key_ids" jsonArray; required "edge_ids" jsonArray].

Definition decode_principal (l : members) : option PrincipalRecord :=
  p ← field decode_string "" l "principal_id";
  r ← field decode_strings [] l "roles";
  k ← field decode_strings [] l "ssp_key_ids";
  e ← field decode_strings [] l "edge_ids";
  Some (mkPrincipal p r k e).

Definition check_principal (r : PrincipalRecord) : result SspErr unit :=
  reject (negb (validOpaqueID (pr_id r))) (ErrSsp "invalid principal_id");;
  first_err validateOpaqueIDArray [pr_roles r; pr_keys r; pr_edges r].

Definition validatePrincipalRecord (raw : bytes) : result SspErr unit :=
  l ← requireTypedMembers raw principal_rules;
  r ← of_option (ErrSsp "invalid principal") (decode_principal l);
  check_principal r.

Record EdgeRecord := mkEdge { ed_id : string; ed_principal : string; ed_generation : Z }.

Definition edge_rules : list memberRule :=
  [required "edge_id" jsonString; required "principal_id" jsonString; required "generation" jsonNumber].

Definition decode_edge (l : members) : option EdgeRecord :=
  e ← field decode_string "" l "edge_id";
  p ← field decode_string "" l "principal_id";
  g ← field decode_int64 0 l "generation";
  Some (mkEdge e p g).

Definition check_edge (r : EdgeRecord) : result SspErr unit :=
  reject (negb (validOpaqueID (ed_id r))) (ErrSsp "invalid edge_id");;
  reject (negb (validOpaqueID (ed_principal r))) (ErrSsp "invalid principal_id");;
  checkIntegerRange (ed_generation r) 1.

Definition validateEdgeRecord (raw : bytes) : result SspErr unit :=
  l ← requireTypedMembers raw edge_rules;
  r ← of_option (ErrSsp "invalid edge") (decode_edge l);
  check_edge r.

Record KeyRecord := mkKey {
  ky_id : string;
  ky_public : string;
  ky_principal : string;
  ky_usage : string;
  ky_not_before : string;
  ky_expires : string;
  ky_revoked : option string }.

Definition key_rules : list memberRule :=
  [required "key_id" jsonString; required "public_key" jsonString; required "principal_id" jsonString;
   required "usage" jsonString; required "not_before" jsonString; required "expires_at" jsonString;
   rule "revoked_at" jsonString true true].

Definition decode_key (l : members) : option KeyRecord :=
  k ← field decode_string "" l "key_id";
  pk ← field decode_string "" l "public_key";
  p ← field decode_string "" l "principal_id";
  u ← field decode_string "" l "usage";
  b ← field decode_string "" l "not_before";
  x ← field decode_string "" l "expires_at";
  r ← field decode_string_ptr None l "revoked_at";
  Some (mkKey k pk p u b x r).

Definition PublicKeySize : Z := 32.

Definition check_key (r : KeyRecord) : result SspErr unit :=
  reject (negb (validOpaqueID (ky_id r))) (ErrSsp "invalid key_id");;
  reject (negb (validOpaqueID (ky_principal r))) (ErrSsp "invalid principal_id");;
  DecodeCanonicalBase64 (ky_public r) PublicKeySize;;
  reject (negb (mem (ky_usage r) registryKeyUsages)) (ErrSsp "invalid usage");;
  notBefore ← parseRegistryTimestamp (ky_not_before r);
  expiresAt ← parseRegistryTimestamp (ky_expires r);
  reject (expiresAt <=? notBefore) (ErrSsp "invalid validity window");;
  match ky_revoked r with
  | Some t => parseRegistryTimestamp t;; Ok tt
  | None => Ok tt
  end.

Definition validateKeyRecord (raw : bytes) : result SspErr unit :=
  l ← requireTypedMembers raw key_rules;
  r ← of_option (ErrSsp "invalid key") (decode_key l);
  check_key r.

(** ** The body *)
Record RegistryBody := mkRegistryBody {
  rb_revision : Z;
  rb_epoch : Z;
  rb_previous : option string;
  rb_domains : list bytes;
  rb_principals : list bytes;
  rb_edges : list bytes;
  rb_keys : list bytes }.

Definition registry_rules : list memberRule :=
  [required "revision" jsonNumber; required "routing_epoch" jsonNumber;
   rule "previous_commitment" jsonString false true;
   required "domains" jsonArray; required "principals" jsonArray;
   required "edges" jsonArray; required "keys" jsonArray].

Definition decode_registry (l : members) : option RegistryBody :=
  r ← field decode_int64 0 l "revision";
  n ← field decode_int64 0 l "routing_epoch";
  p ← field decode_string_ptr None l "previous_commitment";
  d ← field decode_raws [] l "domains";
  ps ← field decode_raws [] l "principals";
  es ← field decode_raws [] l "edges";
  ks ← field decode_raws [] l "keys";
  Some (mkRegistryBody r n p d ps es ks).

Definition check_group (max : Z) (validate : bytes -> result SspErr unit) (entries : list bytes) : result SspErr unit :=
  reject (max <? Z.of_nat (length entries)) (ErrSsp "too many entries");;
  first_err validate entries.

Definition check_registry (e : Envelope) (b : RegistryBody) : result SspErr unit :=
  checkIntegerRange (rb_revision b) 0;;
  checkIntegerRange (rb_epoch b) 0;;
  reject (match rb_previous b with Some c => negb (sha256_pattern c) | None => false end)
         (ErrSsp "invalid previous_commitment");;
  reject (negb (rb_revision b =? RegistryRevision e)) (ErrSsp "revision does not match the header");;
  reject (negb (rb_epoch b =? RoutingEpoch e)) (ErrSsp "routing_epoch does not match the header");;
  check_group maxRegistryDomains validateDomainRoute (rb_domains b);;
  check_group maxRegistryPrincipals validatePrincipalRecord (rb_principals b);;
  check_group maxRegistryEdges validateEdgeRecord (rb_edges b);;
  check_group maxRegistryKeys validateKeyRecord (rb_keys b).

Definition validateRegistryBody (e : Envelope) : result SspErr unit :=
  l ← requireTypedMembers (Body e) registry_rules;
  b ← of_option (ErrSsp "invalid registry body") (decode_registry l);
  check_registry e b.

(** ** What an accepted registry body is

    The declarative counterpart: an object conforms to a frozen schema when
    every member is one of the schema's, every member that is not optional is
    present, and each has the declared JSON type. *)
Definition kind_of (v : json) : jsonType :=
  match v with
  | JNull => jsonNull
  | JBool _ => jsonBool
  | JNumber _ => jsonNumber
  | JString _ => jsonString
  | JArray _ => jsonArray
  | JObject _ => jsonObject
  end.

Definition conforms (l : members) (rules : list memberRule) : Prop :=
  Forall (fun r => match last_member l (rule_name r) with
                   | None => rule_optional r = true
                   | Some (_, v) => kind_of v = rule_kind r \/ (rule_nullable r = true /\ v = JNull)
                   end) rules /\
  Forall (fun k => k ∈ rule_name <$> rules) (keys_of l).

Definition record_ok {R} (rules : list memberRule) (decode : members -> option R) (P : R -> Prop) (raw : bytes) : Prop :=
  exists l r, unmarshal_members raw = Some l /\ conforms l rules /\ decode l = Some r /\ P r.

Definition id_array (l : list string) : Prop :=
  Z.of_nat (length l) <= maxOpaqueIDArrayItems /\ Forall (fun x => validOpaqueID x = true) l /\ NoDup l.
Definition in_safe_range (min v : Z) : Prop := min <= v <= maxSafeInteger.

Definition route_ok (r : DomainRoute) : Prop :=
  validOpaqueID (rt_domain r) = true /\ validOpaqueID (rt_dispatcher r) = true /\
  rt_issuers r <> [] /\ id_array (rt_issuers r) /\ id_array (rt_specialists r) /\
  rt_families r ≡ₚ [SspFamilyCase; SspFamilyAdvice] /\ in_safe_range 0 (rt_epoch r).

Definition principal_ok (r : PrincipalRecord) : Prop :=
  validOpaqueID (pr_id r) = true /\ id_array (pr_roles r) /\ id_array (pr_keys r) /\ id_array (pr_edges r).

Definition edge_ok (r : EdgeRecord) : Prop :=
  validOpaqueID (ed_id r) = true /\ validOpaqueID (ed_principal r) = true /\
  in_safe_range 1 (ed_generation r).

Definition key_ok (r : KeyRecord) : Prop :=
  validOpaqueID (ky_id r) = true /\ validOpaqueID (ky_principal r) = true /\
  (exists pk, ky_public r = b64_encode pk /\ len pk = PublicKeySize) /\
  ky_usage r ∈ registryKeyUsages /\
  (exists nb ex, ParseTimestamp (ky_not_before r) = Some nb /\
                 ParseTimestamp (ky_expires r) = Some ex /\ nb < ex) /\
  (forall t, ky_revoked r = Some t -> is_Some (ParseTimestamp t)).

Definition group_ok (max : Z) (P : bytes -> Prop) (l : list bytes) : Prop :=
  Z.of_nat (length l) <= max /\ Forall P l.

Definition registry_ok (e : Envelope) (b : RegistryBody) : Prop :=
  rb_revision b = RegistryRevision e /\ in_safe_range 0 (rb_revision b) /\
  rb_epoch b = RoutingEpoch e /\ in_safe_range 0 (rb_epoch b) /\
  (forall c, rb_previous b = Some c -> sha256_pattern c = true) /\
  group_ok maxRegistryDomains (record_ok route_rules decode_route route_ok) (rb_domains b) /\
  group_ok maxRegistryPrincipals (record_ok principal_rules decode_principal principal_ok) (rb_principals b) /\
  group_ok maxRegistryEdges (record_ok edge_rules decode_edge edge_ok) (rb_edges b) /\
  group_ok maxRegistryKeys (record_ok key_rules decode_key key_ok) (rb_keys b).

(** *** The wire type of a member is the type of its parsed value *)
Lemma before_cons a s r : (String.length r <= String.length s)%nat ->
  exists t, before (String a s) r = String a t.
Proof.
  intros H. unfold before. cbn [String.length].
  replace (S (String.length s) - String.length r)%nat with (S (String.length s - String.length r)) by lia.
  cbn. eauto.
Qed.

Lemma number_scan_start a s t r : number_scan (String a s) = Some (t, r) ->
  (a =c? "-") || is_digit a = true.
Proof.
  unfold number_scan. destruct (code a =? 45) eqn:Ea.
  - intros _. apply Z.eqb_eq in Ea. by rewrite (code_inj a "-" Ea).
  - cbn [int_scan]. destruct (Z.eqb_spec (code a) 48) as [E|]; [by rewrite (code_inj a "0" E)|].
    destruct (is_digit a); [by rewrite orb_true_r|done].
Qed.

(** The classification of a value by its first byte. *)
Definition first_byte_kind (a : ascii) : jsonType := classifyJSON (String a "").

Lemma classify_first a s : is_ws a = false -> classifyJSON (String a s) = first_byte_kind a.
Proof. intros H. unfold first_byte_kind. cbn [classifyJSON]. by rewrite H. Qed.

Lemma number_byte a : (a =c? "-") || is_digit a = true ->
  is_ws a = false /\ first_byte_kind a = jsonNumber.
Proof. destruct a as [[] [] [] [] [] [] [] []]; vm_compute; done. Qed.

Lemma literal_scan_kind a s v r : literal_scan (String a s) = Some (v, r) ->
  is_ws a = false /\ first_byte_kind a = kind_of v.
Proof.
  unfold literal_scan. intros H.
  destruct (strip_prefix "null" _) eqn:E1; [apply strip_prefix_split in E1; cbn in E1; by simplify_eq|].
  destruct (strip_prefix "true" _) eqn:E2; [apply strip_prefix_split in E2; cbn in E2; by simplify_eq|].
  destruct (strip_prefix "false" _) eqn:E3; [apply strip_prefix_split in E3; cbn in E3; by simplify_eq|].
  destruct (number_scan _) as [[t r']|] eqn:E4; [|done]. simplify_eq.
  by apply number_scan_start, number_byte in E4.
Qed.

Lemma parse_value_kind n a s v r : parse_value n (String a s) = Some (v, r) ->
  is_ws a = false /\ first_byte_kind a = kind_of v.
Proof.
  destruct n as [|n]; [done|]. cbn [parse_value]. intros H.
  destruct (Ascii.eqb_spec a "{") as [->|]; [by repeat case_match; simplify_eq|].
  destruct (Ascii.eqb_spec a "[") as [->|]; [by repeat case_match; simplify_eq|].
  destruct (Ascii.eqb_spec a quote) as [->|]; [by repeat case_match; simplify_eq|].
  by eapply literal_scan_kind.
Qed.

Lemma classify_before n s v r : parse_value n s = Some (v, r) ->
  classifyJSON (before s r) = kind_of v.
Proof.
  intros H. pose proof (proj1 (parse_length n) _ _ _ H) as Hl. destruct s as [|a s]; [by destruct n|].
  apply parse_value_kind in H as [Hw Hk]. destruct (before_cons a s r) as [t ->]; [cbn in Hl; lia|].
  by rewrite classify_first.
Qed.

Definition classified (l : members) : Prop := Forall (fun m => classifyJSON m.1.2 = kind_of m.2) l.

Lemma parse_members_classified n : forall s l r, parse_members n s = Some (l, r) -> classified l.
Proof.
  induction n as [|n IH]; [done|]. intros s l r H. cbn [parse_members] in H.
  destruct s as [|a s]; [done|]. destruct (a =c? quote); [|done].
  destruct (str_scan s) as [[t r1]|]; [|done]. destruct (skip_ws r1) as [|b r2]; [done|].
  destruct (b =c? ":"); [|done]. destruct (parse_value n _) as [[v r3]|] eqn:Ev; [|done].
  apply classify_before in Ev. destruct (skip_ws r3) as [|d r4]; [done|].
  destruct (d =c? "}"); [simplify_eq; by repeat constructor|]. destruct (d =c? ","); [|done].
  destruct (parse_members n _) as [[l' r5]|] eqn:Em; [|done]. simplify_eq.
  constructor; [done|by eapply IH].
Qed.

Lemma unmarshal_classified raw l : unmarshal_members raw = Some l -> classified l.
Proof.
  unfold unmarshal_members, parse. destruct (read_value raw) as [[v r]|] eqn:Er; [|done].
  destruct (is_empty _); [|done]. intros H. destruct v; simplify_eq; [by constructor|].
  unfold read_value in Er. cbn [parse_value] in Er.
  repeat case_match; simplify_eq; try by constructor.
  - by eapply parse_members_classified.
  - by destruct (literal_scan_scalar _ _ _ Er l).
Qed.

Lemma last_member_classified l name raw v : classified l -> last_member l name = Some (raw, v) ->
  classifyJSON raw = kind_of v.
Proof.
  unfold classified, last_member. rewrite Forall_forall. intros Hl H.
  destruct (List.filter _ (rev l)) as [|m k] eqn:E; [done|]. simplify_eq. apply Hl.
  assert (Hm : In m (m :: k)) by by left. rewrite <- E in Hm.
  apply filter_In in Hm as [Hm _]. by apply in_rev.
Qed.

(** *** Each check against its declarative counterpart *)
Lemma check_rule_exact l r : classified l ->
  check_rule l r = Ok tt <->
  match last_member l (rule_name r) with
  | None => rule_optional r = true
  | Some (_, v) => kind_of v = rule_kind r \/ (rule_nullable r = true /\ v = JNull)
  end.
Proof.
  intros Hl. unfold check_rule, raw_member. destruct (last_member l _) as [[raw v]|] eqn:E; cbn [fmap option_fmap option_map fst].
  - rewrite (last_member_classified _ _ _ _ Hl E).
    assert (Hn : kind_of v = jsonNull <-> v = JNull) by by destruct v.
    destruct (rule_nullable r); repeat case_bool_decide; naive_solver.
  - destruct (rule_optional r); naive_solver.
Qed.

Lemma requireTypedMembers_exact raw rules l :
  requireTypedMembers raw rules = Ok l <-> unmarshal_members raw = Some l /\ conforms l rules.
Proof.
  unfold requireTypedMembers, conforms.
  destruct (unmarshal_members raw) as [k|] eqn:E; cbn [of_option mbind result_bind]; [|naive_solver].
  pose proof (unmarshal_classified _ _ E) as Hk.
  transitivity (k = l /\ first_err (check_rule k) rules = Ok tt /\
    existsb (fun m => negb (mem m.1.1 (rule_name <$> rules))) k = false).
  { destruct (first_err _ _) as [[]|]; cbn [mbind result_bind]; [|naive_solver].
    destruct (existsb _ k); naive_solver. }
  rewrite first_err_ok, (Forall_iff _ _ _ (fun r => check_rule_exact k r Hk)).
  assert (Hb : existsb (fun m => negb (mem m.1.1 (rule_name <$> rules))) k = false <->
    Forall (fun x => x ∈ rule_name <$> rules) (keys_of k)).
  { rewrite <- not_true_iff_false, existsb_exists, Forall_forall. setoid_rewrite <- mem_spec.
    unfold keys_of. setoid_rewrite in_map_iff. split.
    - intros H x (m & <- & Hm). destruct (mem _ _) eqn:Em; [done|]. exfalso. apply H. exists m. by rewrite Em.
    - intros H (m & Hm & Hn). rewrite (H m.1.1) in Hn; [done|eauto]. }
  rewrite Hb. naive_solver.
Qed.

Lemma validated_record {R} rules (decode : members -> option R) check (P : R -> Prop) err raw :
  (forall r, check r = Ok tt <-> P r) ->
  (l ← requireTypedMembers raw rules; r ← of_option err (decode l); check r) = Ok tt <->
  record_ok rules decode P raw.
Proof.
  intros Hc. unfold record_ok. split.
  - intros H. inv_result. apply requireTypedMembers_exact in E as [Hu Hl].
    destruct (decode _) eqn:Ed; [|done]. cbn in E0. inv_result. exists a, a0. rewrite <- Hc. eauto.
  - intros (l & r & Hu & Hl & Hd & Hr). rewrite (proj2 (requireTypedMembers_exact raw rules l)) by done.
    cbn [mbind result_bind]. rewrite Hd. cbn. by apply Hc.
Qed.

Lemma distinct_ids_exact l : forall seen, distinct_ids seen l = Ok tt <->
  Forall (fun x => validOpaqueID x = true) l /\ NoDup l /\ Forall (fun x => x ∉ seen) l.
Proof.
  induction l as [|x l IH]; intros seen; cbn [distinct_ids].
  { split; [|done]. intros _. split_and!; constructor. }
  rewrite !List.Forall_cons_iff, list.NoDup_cons.
  destruct (validOpaqueID x); cbn [negb]; [|naive_solver].
  destruct (mem x seen) eqn:Em; [apply mem_spec in Em; naive_solver|].
  rewrite IH. assert (~ In x seen) by (rewrite <- list_elem_of_In, <- mem_spec; congruence).
  rewrite !Forall_forall. setoid_rewrite list_elem_of_In. split.
  - intros (? & ? & Hs). split_and!; try done.
    + intros Hx. apply (Hs x Hx). by left.
    + intros y Hy Hin. apply (Hs y Hy). by right.
  - intros ([? ?] & [? ?] & ? & Hs). split_and!; try done. intros y Hy [->|?]; [done|by apply (Hs y Hy)].
Qed.

Lemma validateOpaqueIDArray_exact l : validateOpaqueIDArray l = Ok tt <-> id_array l.
Proof.
  unfold validateOpaqueIDArray, id_array. destruct (Z.ltb_spec maxOpaqueIDArrayItems (Z.of_nat (length l))).
  - split; [done|]. intros [? _]. lia.
  - rewrite distinct_ids_exact. rewrite (Forall_forall (fun x => x ∉ [])).
    split; [|intros (? & ? & ?)]; [naive_solver|]. split_and!; try done. intros x _ Hx. by apply elem_of_nil in Hx.
Qed.

Lemma validateRouteFamilies_exact l :
  validateRouteFamilies l = Ok tt <-> l ≡ₚ [SspFamilyCase; SspFamilyAdvice].
Proof.
  unfold validateRouteFamilies. split.
  - destruct l as [|f [|g [|]]]; try done. cbn [length Nat.eqb negb distinct_families].
    destruct (String.eqb_spec f SspFamilyCase) as [->|]; [|destruct (String.eqb_spec f SspFamilyAdvice) as [->|]];
      destruct (String.eqb_spec g SspFamilyCase) as [->|]; try (destruct (String.eqb_spec g SspFamilyAdvice) as [->|]);
      try done; intros _; first [done | apply perm_swap].
  - intros H. assert (Hl : l = [SspFamilyCase; SspFamilyAdvice] \/ l = [SspFamilyAdvice; SspFamilyCase]).
    { apply Permutation_sym, Permutation_length_2_inv in H. naive_solver. }
    by destruct Hl as [-> | ->].
Qed.

Lemma checkIntegerRange_exact v min : checkIntegerRange v min = Ok tt <-> in_safe_range min v.
Proof.
  unfold checkIntegerRange, in_safe_range, reject.
  destruct (Z.ltb_spec v min), (Z.ltb_spec maxSafeInteger v); cbn; split; try done; lia.
Qed.

(** A guard chain succeeds when each of its guards does. *)
Lemma then_ok {A B} (m : result SspErr A) (k : result SspErr B) b :
  (m;; k) = Ok b <-> (exists a, m = Ok a) /\ k = Ok b.
Proof. destruct m as [a|]; cbn [mbind result_bind]; split; [eauto|by intros [_ ?]|done|by intros [[? ?] _]]. Qed.

Lemma unit_ok (m : result SspErr unit) : (exists a, m = Ok a) <-> m = Ok tt.
Proof. split; [by intros [[] ?]|eauto]. Qed.

Lemma reject_ok b (e : SspErr) : reject b e = Ok tt <-> b = false.
Proof. by destruct b. Qed.

Ltac chain := rewrite ?then_ok, ?unit_ok, ?reject_ok, ?negb_false_iff, ?bool_decide_eq_false,
  ?validateOpaqueIDArray_exact, ?validateRouteFamilies_exact, ?checkIntegerRange_exact.

Lemma check_route_exact r : check_route r = Ok tt <-> route_ok r.
Proof. unfold check_route, route_ok. by repeat (progress chain). Qed.

Lemma check_principal_exact r : check_principal r = Ok tt <-> principal_ok r.
Proof.
  unfold check_principal, principal_ok. repeat (progress chain). rewrite first_err_ok.
  rewrite !List.Forall_cons_iff, !validateOpaqueIDArray_exact. naive_solver.
Qed.

Lemma check_edge_exact r : check_edge r = Ok tt <-> edge_ok r.
Proof. unfold check_edge, edge_ok. by repeat (progress chain). Qed.

Lemma check_key_exact r : check_key r = Ok tt <-> key_ok r.
Proof.
  unfold check_key, key_ok, parseRegistryTimestamp. repeat (progress chain). rewrite mem_spec.
  setoid_rewrite canonical_base64_spec.
  assert (Ht : (notBefore ← of_option (ErrSsp "invalid timestamp") (ParseTimestamp (ky_not_before r));
     expiresAt ← of_option (ErrSsp "invalid timestamp") (ParseTimestamp (ky_expires r));
     reject (expiresAt <=? notBefore) (ErrSsp "invalid validity window");;
     match ky_revoked r with
     | Some t => of_option (ErrSsp "invalid timestamp") (ParseTimestamp t);; Ok tt
     | None => Ok tt
     end) = Ok tt <->
    (exists nb ex, ParseTimestamp (ky_not_before r) = Some nb /\ ParseTimestamp (ky_expires r) = Some ex /\ nb < ex) /\
    (forall t, ky_revoked r = Some t -> is_Some (ParseTimestamp t))).
  { destruct (ParseTimestamp (ky_not_before r)) as [nb|]; cbn [of_option mbind result_bind]; [|naive_solver].
    destruct (ParseTimestamp (ky_expires r)) as [ex|]; cbn [of_option mbind result_bind]; [|naive_solver].
    repeat (progress chain). rewrite Z.leb_gt. destruct (ky_revoked r) as [t|].
    - destruct (ParseTimestamp t) eqn:Et; cbn [of_option mbind result_bind]; unfold is_Some; naive_solver congruence.
    - naive_solver. }
  rewrite Ht. naive_solver.
Qed.

Lemma validateDomainRoute_exact raw :
  validateDomainRoute raw = Ok tt <-> record_ok route_rules decode_route route_ok raw.
Proof. apply validated_record, check_route_exact. Qed.
Lemma validatePrincipalRecord_exact raw :
  validatePrincipalRecord raw = Ok tt <-> record_ok principal_rules decode_principal principal_ok raw.
Proof. apply validated_record, check_principal_exact. Qed.
Lemma validateEdgeRecord_exact raw :
  validateEdgeRecord raw = Ok tt <-> record_ok edge_rules decode_edge edge_ok raw.
Proof. apply validated_record, check_edge_exact. Qed.
Lemma validateKeyRecord_exact raw :
  validateKeyRecord raw = Ok tt <-> record_ok key_rules decode_key key_ok raw.
Proof. apply validated_record, check_key_exact. Qed.

Lemma check_group_exact max validate (P : bytes -> Prop) l : (forall x, validate x = Ok tt <-> P x) ->
  check_group max validate l = Ok tt <-> group_ok max P l.
Proof.
  intros HP. unfold check_group, group_ok. repeat (progress chain). rewrite first_err_ok, Z.ltb_ge.
  by rewrite (Forall_iff _ _ _ HP).
Qed.

(** C32: a registry body is accepted exactly when it is well-formed.  Its object
    has exactly the members of the schema with the declared JSON types (a null
    never stands for a required value), its revision and routing epoch are the
    header's and safe integers, every array is within its limit, and every
    route, principal, edge and key record is well-formed in the same sense:
    valid and distinct ids, exactly the two families on a route, at least one
    issuer, a canonical 32-byte public key with a known usage and a non-empty
    validity window. *)
Theorem registry_body_exact e :
  validateRegistryBody e = Ok tt <-> record_ok registry_rules decode_registry (registry_ok e) (Body e).
Proof.
  apply validated_record. intros b. unfold check_registry, registry_ok. repeat (progress chain).
  rewrite !Z.eqb_eq.
  rewrite (check_group_exact _ _ _ _ validateDomainRoute_exact).
  rewrite (check_group_exact _ _ _ _ validatePrincipalRecord_exact).
  rewrite (check_group_exact _ _ _ _ validateEdgeRecord_exact).
  rewrite (check_group_exact _ _ _ _ validateKeyRecord_exact).
  assert (Hp : (match rb_previous b with Some c => negb (sha256_pattern c) | None => false end) = false <->
    forall c, rb_previous b = Some c -> sha256_pattern c = true).
  { destruct (rb_previous b) as [c|]; [rewrite negb_false_iff|]; naive_solver. }
  rewrite Hp. naive_solver.
Qed.
