(* ===== verification/SspEnvelope.v ===== *)
(** * internal/ssp: envelopes, signing bytes and commitments

    envelope.go, commitment.go, header.go, verified_registry.go and the key
    types of internal/identity/keys.go.

    Two things are parameters: the JSON canonicalization of
    github.com/gowebpki/jcs ([Jcs]), and the Ed25519 primitive ([Ed25519]) with
    the law that a signature verifies under the public key of its private
    key. *)
From stdpp Require Import gmap.
From S2P Require Import Prelude GoText GoStrconv GoTime GoJson GoJsonRead GoBase64 Sha256 SspGuard SspBody SspRegistry.
Open Scope string_scope.
Open Scope Z_scope.
Open Scope snag_scope.

Class Jcs := jcs_transform : bytes -> option bytes.

Class Ed25519 := {
  ed25519_public : bytes -> bytes;
  ed25519_sign : bytes -> bytes -> bytes;
  ed25519_verify : bytes -> bytes -> bytes -> bool }.

Definition SignatureSize : Z := 64.
Definition PrivateKeySize : Z := 64.

Class Ed25519Laws `{Ed25519} : Prop := {
  ed25519_public_size k : len k = PrivateKeySize -> len (ed25519_public k) = PublicKeySize;
  ed25519_sign_size k m : len k = PrivateKeySize -> len (ed25519_sign k m) = SignatureSize;
  ed25519_verify_sign k m : len k = PrivateKeySize ->
    ed25519_verify (ed25519_public k) m (ed25519_sign k m) = true }.

(** ** Keys: internal/identity *)
Record Ed25519SigningKey := mkSigningKey { privateKey : bytes }.
Record Ed25519VerifyingKey := mkVerifyingKey { publicKey : bytes }.

Definition NewEd25519SigningKey (k : bytes) : result SspErr Ed25519SigningKey :=
  if negb (len k =? PrivateKeySize) then Err (ErrSsp "ed25519 private key size") else Ok (mkSigningKey k).
Definition NewEd25519VerifyingKey (k : bytes) : result SspErr Ed25519VerifyingKey :=
  if negb (len k =? PublicKeySize) then Err (ErrSsp "ed25519 public key size") else Ok (mkVerifyingKey k).

Definition signing_is_zero (key : Ed25519SigningKey) : bool := is_empty (privateKey key).
Definition verifying_is_zero (key : Ed25519VerifyingKey) : bool := is_empty (publicKey key).

Definition signing_public `{Ed25519} (key : Ed25519SigningKey) : result SspErr bytes :=
  if signing_is_zero key then Err (ErrSsp "ed25519 signing key is not configured")
  else Ok (ed25519_public (privateKey key)).
Definition VerifyingKey `{Ed25519} (key : Ed25519SigningKey) : result SspErr Ed25519VerifyingKey :=
  pk ← signing_public key;
  NewEd25519VerifyingKey pk.
Definition verifying_public (key : Ed25519VerifyingKey) : result SspErr bytes :=
  if verifying_is_zero key then Err (ErrSsp "ed25519 verifying key is not configured")
  else Ok (publicKey key).
Definition key_sign `{Ed25519} (key : Ed25519SigningKey) (message : bytes) : result SspErr bytes :=
  if signing_is_zero key then Err (ErrSsp "ed25519 signing key is not configured")
  else Ok (ed25519_sign (privateKey key) message).

(** ** Strict decoding *)
Definition envelopeCommonRequiredMembers : list string :=
  ["schema"; "id"; "emitted_at"; "expires_at"; "routing_epoch"; "registry_revision";
   "author_key_id"; "signature_alg"; "body"; "signature"].

Definition family_members (l : members) (schema : string) : result SspErr (list string) :=
  if (schema =s? SspFamilyCase) || (schema =s? SspFamilyAdvice) then
    Ok (app envelopeCommonRequiredMembers ["case_id"; "registry_hash"])
  else if schema =s? SspFamilyRegistry then
    first_err (fun forbidden => reject (bool_decide (is_Some (raw_member l forbidden)))
                                  (ErrSsp "member is forbidden for ssp.registry.v1"))
              ["case_id"; "registry_hash"];;
    Ok envelopeCommonRequiredMembers
  else Err ErrUnknownFamily.

Definition decodeStrictEnvelope (raw : bytes) : result SspErr Envelope :=
  rawGuard raw;;
  l ← exactObject raw;
  schema ← requiredString l "schema";
  required ← family_members l schema;
  requireExactMembers l required required;;
  routingEpoch ← requiredNonNegativeInteger l "routing_epoch";
  registryRevision ← requiredNonNegativeInteger l "registry_revision";
  id ← requiredString l "id";
  emitted ← requiredString l "emitted_at";
  expires ← requiredString l "expires_at";
  author ← requiredString l "author_key_id";
  alg ← requiredString l "signature_alg";
  signature ← requiredString l "signature";
  '(case_id, registry_hash) ←
    (if schema <>s? SspFamilyRegistry then
       case_id ← requiredString l "case_id";
       registry_hash ← requiredString l "registry_hash";
       Ok (case_id, registry_hash)
     else Ok ("", ""));
  Ok {| Schema := schema; ID := id; CaseID := case_id; EmittedAt := emitted; ExpiresAt := expires;
        RoutingEpoch := routingEpoch; RegistryRevision := registryRevision;
        RegistryHash := registry_hash; AuthorKeyID := author; SignatureAlg := alg;
        Body := default "" (raw_member l "body"); Signature := signature |}.

(** ** Validation *)
Definition validateBody (e : Envelope) : result SspErr unit :=
  if Schema e =s? SspFamilyRegistry then validateRegistryBody e
  else if (Schema e =s? SspFamilyCase) || (Schema e =s? SspFamilyAdvice)
  then validateCaseAdviceBody (Schema e) (Body e)
  else Err ErrUnknownFamily.

Definition known_family (s : string) : bool :=
  (s =s? SspFamilyCase) || (s =s? SspFamilyAdvice) || (s =s? SspFamilyRegistry).

(** The header's shape by family. *)
Definition check_shape (e : Envelope) : result SspErr unit :=
  if Schema e =s? SspFamilyRegistry then
    reject (CaseID e <>s? "") (ErrSsp "case_id is forbidden for ssp.registry.v1");;
    reject (RegistryHash e <>s? "") (ErrSsp "registry_hash is forbidden for ssp.registry.v1")
  else reject (negb (validOpaqueID (CaseID e)) || (RegistryHash e =s? "")) (ErrSsp "missing required field").

Definition Validate (e : Envelope) (now : Z) : result SspErr unit :=
  reject (negb (known_family (Schema e))) ErrUnknownFamily;;
  reject (negb (validOpaqueID (ID e)) || negb (validOpaqueID (AuthorKeyID e))
          || (SignatureAlg e <>s? "ed25519") || (len (Body e) =? 0)) (ErrSsp "missing required field");;
  check_shape e;;
  emitted ← of_option (ErrSsp "invalid emitted_at") (ParseTimestamp (EmittedAt e));
  expires ← of_option (ErrSsp "invalid expires_at") (ParseTimestamp (ExpiresAt e));
  reject (now <? emitted) (ErrSsp "emitted_at is in the future");;
  reject (expires <=? now) ErrExpiredEnvelope;;
  reject (expires <=? emitted) (ErrSsp "invalid time range");;
  reject ((RoutingEpoch e <? 0) || (RegistryRevision e <? 0)
          || (maxSafeInteger <? RoutingEpoch e) || (maxSafeInteger <? RegistryRevision e))
         (ErrSsp "invalid revision");;
  reject ((Schema e <>s? SspFamilyRegistry) && negb (sha256_pattern (RegistryHash e)))
         (ErrSsp "invalid registry_hash");;
  validateNumbers (Body e);;
  validateBody e.

(** [invalidEnvelope]: the error wrapped in ErrInvalidEnvelope. *)
Definition invalidEnvelope {A} (r : result SspErr A) : result SspErr A :=
  match r with Ok a => Ok a | Err err => Err (ErrInvalidEnvelope err) end.

Definition decodeAndValidate (raw : bytes) (now : Z) : result SspErr Envelope :=
  e ← invalidEnvelope (decodeStrictEnvelope raw);
  invalidEnvelope (Validate e now);;
  Ok e.

(** ** Signing bytes *)
Fixpoint string_end (escaped : bool) (s : string) : result SspErr string :=
  match s with
  | EmptyString => Err (ErrSsp "unterminated JSON string")
  | String c r =>
      if escaped then string_end false r
      else if c =c? backslash then string_end true r
      else if c =c? quote then Ok r
      else string_end false r
  end.

(** What follows the string that starts [s]. *)
Definition stringEnd (s : string) : result SspErr string :=
  match s with
  | String a r => if a =c? quote then string_end false r else Err (ErrSsp "malformed JSON string")
  | EmptyString => Err (ErrSsp "malformed JSON string")
  end.

(** The loop inside a container; [open] is the height of the stack below the
    innermost open container. *)
Fixpoint container_end (open : nat) (inString escaped : bool) (s : string) : result SspErr string :=
  match s with
  | EmptyString => Err (ErrSsp "unterminated JSON container")
  | String c r =>
      if inString then
        if escaped then container_end open true false r
        else if c =c? backslash then container_end open true true r
        else container_end open (negb (c =c? quote)) false r
      else if c =c? quote then container_end open true false r
      else if (c =c? "{") || (c =c? "[") then container_end (S open) false false r
      else if (c =c? "}") || (c =c? "]") then
        match open with O => Ok r | S open => container_end open false false r end
      else container_end open false false r
  end.

Definition scalar_char (a : ascii) : bool :=
  negb ((a =c? ",") || (a =c? "}") || (a =c? "]") || is_ws a).

Fixpoint scalar_end (s : string) : string :=
  match s with
  | String a r => if scalar_char a then scalar_end r else s
  | EmptyString => s
  end.

Definition valueEnd (s : string) : result SspErr string :=
  match s with
  | EmptyString => Err (ErrSsp "missing JSON value")
  | String a r =>
      if a =c? quote then stringEnd s
      else if (a =c? "{") || (a =c? "[") then container_end 0 false false r
      else if scalar_char a then Ok (scalar_end r) else Err (ErrSsp "missing JSON value")
  end.

Fixpoint strip_members (n : nat) (kept : list bytes) (s : string) : result SspErr (list bytes) :=
  match n with
  | O => Err malformed
  | S n =>
      match skip_ws s with
      | EmptyString => Err malformed
      | String a r =>
          if a =c? "}" then Ok kept
          else
            let member := String a r in
            keyEnd ← stringEnd member;
            key ← of_option malformed (unmarshal_string (before member keyEnd));
            match skip_ws keyEnd with
            | EmptyString => Err malformed
            | String c r1 =>
                if negb (c =c? ":") then Err malformed
                else
                  rest ← valueEnd (skip_ws r1);
                  let kept := if key <>s? "signature" then app kept [before member rest] else kept in
                  match skip_ws rest with
                  | EmptyString => Err malformed
                  | String d r2 =>
                      if d =c? "," then strip_members n kept r2
                      else if d =c? "}" then Ok kept
                      else Err malformed
                  end
            end
      end
  end.

Definition stripUnsignedTopLevel (raw : bytes) : result SspErr bytes :=
  match skip_ws raw with
  | EmptyString => Err (ErrSsp "envelope root must be an object")
  | String a r =>
      if negb (a =c? "{") then Err (ErrSsp "envelope root must be an object")
      else
        kept ← strip_members (S (String.length raw)) [] r;
        Ok ("{" ++ join "," kept ++ "}")
  end.

Definition canonical `{Jcs} (raw : bytes) : result SspErr bytes :=
  rawGuard raw;;
  of_option (ErrSsp "jcs") (jcs_transform raw).

(** The bytes a signature and a commitment cover. *)
Definition signing_bytes `{Jcs} (raw : bytes) : result SspErr bytes :=
  unsigned ← invalidEnvelope (stripUnsignedTopLevel raw);
  invalidEnvelope (canonical unsigned).

(** ** Signing *)

(** [json.Marshal] of a raw message: white space outside strings dropped, the
    HTML characters and U+2028, U+2029 escaped. *)
Fixpoint compact_from (inString escaped : bool) (s : string) : string :=
  match s with
  | EmptyString => ""
  | String c r =>
      if negb inString && is_ws c then compact_from false false r
      else
        let inString' := if inString then escaped || negb (c =c? quote) else c =c? quote in
        let escaped' := inString && negb escaped && (c =c? backslash) in
        if (code c =? 60) || (code c =? 62) || (code c =? 38)
        then escape_u (code c) ++ compact_from inString' escaped' r
        else match r with
             | String b (String d r2) =>
                 if (code c =? 0xE2) && (code b =? 0x80) && ((code d =? 0xA8) || (code d =? 0xA9))
                 then escape_u (0x2028 + (code d - 0xA8)) ++ compact_from inString' escaped' r2
                 else String c (compact_from inString' escaped' r)
             | _ => String c (compact_from inString' escaped' r)
             end
  end.

Definition marshal_raw (raw : bytes) : option bytes :=
  match parse raw with Some _ => Some (compact_from false false raw) | None => None end.

Definition marshal_member (name value : string) : string := json_string name ++ ":" ++ value.
Definition omit_empty (name value : string) : list string :=
  if value =s? "" then [] else [marshal_member name (json_string value)].

Definition marshal_envelope (e : Envelope) : result SspErr bytes :=
  match marshal_raw (Body e) with
  | None => Err (ErrSsp "marshal envelope")
  | Some body =>
      Ok ("{" ++ join "," (
        [marshal_member "schema" (json_string (Schema e)); marshal_member "id" (json_string (ID e))]
        ++ omit_empty "case_id" (CaseID e)
        ++ [marshal_member "emitted_at" (json_string (EmittedAt e));
            marshal_member "expires_at" (json_string (ExpiresAt e));
            marshal_member "routing_epoch" (dec (RoutingEpoch e));
            marshal_member "registry_revision" (dec (RegistryRevision e))]
        ++ omit_empty "registry_hash" (RegistryHash e)
        ++ [marshal_member "author_key_id" (json_string (AuthorKeyID e));
            marshal_member "signature_alg" (json_string (SignatureAlg e));
            marshal_member "body" body]
        ++ omit_empty "signature" (Signature e))%list ++ "}")
  end.

Definition with_signature (e : Envelope) (s : string) : Envelope :=
  mkEnvelope (Schema e) (ID e) (CaseID e) (EmittedAt e) (ExpiresAt e) (RoutingEpoch e)
    (RegistryRevision e) (RegistryHash e) (AuthorKeyID e) (SignatureAlg e) (Body e) s.

Definition Sign `{Jcs} `{Ed25519} (e : Envelope) (key : Ed25519SigningKey) (now : Z) : result SspErr bytes :=
  let e := with_signature e "" in
  Validate e now;;
  unsigned ← marshal_envelope e;
  c ← canonical unsigned;
  sig ← key_sign key c;
  wire ← marshal_envelope (with_signature e (b64_encode sig));
  rawGuard wire;;
  Ok wire.

(** ** Verification, commitment, header *)
Definition Verify `{Jcs} `{Ed25519} (raw : bytes) (keys : gmap string Ed25519VerifyingKey) (now : Z)
  : result SspErr Envelope :=
  e ← decodeAndValidate raw now;
  sig ← match DecodeCanonicalBase64 (Signature e) SignatureSize with
        | Ok sig => Ok sig
        | Err _ => Err (ErrSsp "invalid signature")
        end;
  c ← signing_bytes raw;
  match keys !! AuthorKeyID e with
  | None => Err (ErrSsp "author key is unknown")
  | Some key =>
      match verifying_public key with
      | Ok pk => if negb (ed25519_verify pk c sig) then Err (ErrSsp "signature verification failed") else Ok e
      | Err _ => Err (ErrSsp "signature verification failed")
      end
  end.

Definition EnvelopeCommitment `{Jcs} (raw : bytes) (now : Z) : result SspErr string :=
  decodeAndValidate raw now;;
  c ← signing_bytes raw;
  Ok (sha256_text c).

Record EnvelopeHeader := mkHeader {
  hd_schema : string;
  hd_id : string;
  hd_case : string;
  hd_emitted : string;
  hd_expires : string;
  hd_epoch : Z;
  hd_revision : Z;
  hd_registry_hash : string;
  hd_author : string }.

Definition ReadHeader (raw : bytes) : result SspErr EnvelopeHeader :=
  e ← decodeStrictEnvelope raw;
  Ok (mkHeader (Schema e) (ID e) (CaseID e) (EmittedAt e) (ExpiresAt e) (RoutingEpoch e)
        (RegistryRevision e) (RegistryHash e) (AuthorKeyID e)).

(** ** Verified registry envelopes *)
Record VerifiedRegistryEnvelope := mkVerified {
  vr_verified : bool;
  vr_raw : bytes;
  vr_envelope : Envelope;
  vr_commitment : string;
  vr_author : string;
  vr_key : Ed25519VerifyingKey;
  vr_at : Z }.

Definition VerifyRegistry `{Jcs} `{Ed25519} (raw : bytes) (expectedAuthorKeyID : string)
  (key : Ed25519VerifyingKey) (now : Z) : result SspErr VerifiedRegistryEnvelope :=
  reject (expectedAuthorKeyID =s? "") (ErrSsp "expected author key id is required");;
  reject (verifying_is_zero key) (ErrSsp "verifying key is required");;
  envelope ← Verify raw {[ expectedAuthorKeyID := key ]} now;
  reject (Schema envelope <>s? SspFamilyRegistry) ErrUnknownFamily;;
  reject (AuthorKeyID envelope <>s? expectedAuthorKeyID) (ErrSsp "author_key_id is not the pinned one");;
  commitment ← EnvelopeCommitment raw now;
  Ok (mkVerified true raw envelope commitment expectedAuthorKeyID key now).

Definition ErrUnverifiedProof : SspErr := ErrSsp "registry proof was not produced by VerifyRegistry".

Definition ReverifyAt `{Jcs} `{Ed25519} (v : VerifiedRegistryEnvelope) (now : Z)
  : result SspErr VerifiedRegistryEnvelope :=
  if negb (vr_verified v) then Err ErrUnverifiedProof
  else VerifyRegistry (vr_raw v) (vr_author v) (vr_key v) now.

(** The accessors all refuse a value without proof. *)
Definition proven {A} (get : VerifiedRegistryEnvelope -> A) (v : VerifiedRegistryEnvelope) : result SspErr A :=
  if negb (vr_verified v) then Err ErrUnverifiedProof else Ok (get v).
Definition vr_Raw := proven vr_raw.
Definition vr_Envelope := proven vr_envelope.
Definition vr_Commitment := proven vr_commitment.
Definition vr_AuthorKeyID := proven vr_author.
Definition vr_Revision := proven (fun v => RegistryRevision (vr_envelope v)).
Definition vr_RoutingEpoch := proven (fun v => RoutingEpoch (vr_envelope v)).
Definition vr_VerifiedAt := proven vr_at.
