(* ===== verification/SspStrip.v ===== *)
(** * internal/ssp: the signing bytes keep every other member

    [stripUnsignedTopLevel] cuts the wire with its own scanner of strings and
    containers.  This file relates that scanner to the parser of encoding/json
    and shows that the stripped text parses to the object without its signature
    member, every other member with the same key and the same bytes. *)
From S2P Require Import Prelude GoText GoStrconv GoTime GoJson GoJsonRead GoBase64 SspGuard SspBody SspRegistry SspEnvelope.
Open Scope string_scope.
Open Scope Z_scope.
Open Scope snag_scope.

(** ** Characters *)

(** The characters of numbers and of the three literals. *)
Definition lit_char (a : ascii) : bool :=
  is_digit a || in_range 97 122 a || (a =c? "-") || (a =c? "+") || (a =c? ".") || (a =c? "E").

Lemma lit_char_plain a : lit_char a = true ->
  scalar_char a = true /\ is_ws a = false /\ (a =c? quote) = false /\ (a =c? "{") = false /\
  (a =c? "[") = false /\ (a =c? "}") = false /\ (a =c? "]") = false.
Proof. destruct a as [[] [] [] [] [] [] [] []]; vm_compute; done. Qed.

(** What may follow a scalar: nothing, or a character no scalar contains. *)
Definition delimited (s : string) : Prop :=
  match s with EmptyString => True | String a _ => scalar_char a = false end.

Lemma delimited_number a s : delimited (String a s) ->
  is_digit a = false /\ (code a =? 46) = false /\ (code a =? 101) || (code a =? 69) = false /\
  (code a =? 48) = false.
Proof. cbn. destruct a as [[] [] [] [] [] [] [] []]; vm_compute; done. Qed.

(** ** Scanners are stable: what they read does not depend on what follows *)
Definition no_digit (s : string) : Prop :=
  match s with EmptyString => True | String a _ => is_digit a = false end.

Lemma delimited_no_digit s : delimited s -> no_digit s.
Proof. destruct s; [done|]. by intros [? _]%delimited_number. Qed.

Lemma digits_scan_stop r : no_digit r -> digits_scan r = ("", r).
Proof. destruct r as [|a r]; cbn; [done|]. by intros ->. Qed.

Lemma digits_scan_stable s d r : digits_scan s = (d, r) ->
  all_chars is_digit d = true /\ forall r', no_digit r' -> digits_scan (d ++ r') = (d, r').
Proof.
  revert d r. induction s as [|a s IH]; intros d r H; cbn in H.
  { simplify_eq. split; [done|]. apply digits_scan_stop. }
  destruct (is_digit a) eqn:Ea; [|simplify_eq; split; [done|apply digits_scan_stop]].
  destruct (digits_scan s) as [d1 r1]. simplify_eq. destruct (IH _ _ eq_refl) as [Hd Hs].
  split; [cbn; by rewrite Ea|]. intros r' Hr. cbn. by rewrite Ea, Hs.
Qed.

Lemma digit_lit d : all_chars is_digit d = true -> all_chars lit_char d = true.
Proof. apply all_chars_weaken. intros a Ha. unfold lit_char. by rewrite Ha. Qed.

Lemma int_scan_stable s d r : int_scan s = Some (d, r) ->
  all_chars lit_char d = true /\ forall r', no_digit r' -> int_scan (d ++ r') = Some (d, r').
Proof.
  destruct s as [|a s]; [done|]. cbn. destruct (code a =? 48) eqn:E0.
  - intros [= <- <-]. split; [|intros r' _; cbn; by rewrite E0].
    apply Z.eqb_eq in E0. by rewrite (code_inj a "0" E0).
  - destruct (is_digit a) eqn:Ea; [|done]. destruct (digits_scan s) as [d1 r1] eqn:Ed. intros [= <- <-].
    apply digits_scan_stable in Ed as [Hd Hs]. split; [cbn; unfold lit_char at 1; by rewrite Ea, digit_lit|].
    intros r' Hr. cbn. by rewrite E0, Ea, Hs.
Qed.

(** After the integer part, after the fraction. *)
Definition no_frac (s : string) : Prop :=
  match s with EmptyString => True | String a _ => is_digit a = false /\ (code a =? 46) = false end.

Lemma frac_scan_stable s d r : frac_scan s = Some (d, r) ->
  all_chars lit_char d = true /\
  forall r', no_frac r' -> frac_scan (d ++ r') = Some (d, r') /\ no_digit (d ++ r').
Proof.
  assert (Hstop : forall r', no_frac r' -> frac_scan r' = Some ("", r') /\ no_digit r').
  { intros [|a r'] Hr; [done|]. destruct Hr as [Ha Hd]. cbn. by rewrite Hd. }
  destruct s as [|a s]; cbn; [by intros [= <- <-]|]. destruct (code a =? 46) eqn:E; [|by intros [= <- <-]].
  destruct (digits_scan s) as [d1 r1] eqn:Ed. destruct (is_empty d1) eqn:Ee; [done|]. intros [= <- <-].
  apply digits_scan_stable in Ed as [Hd Hs]. apply Z.eqb_eq in E as E'.
  assert (a = "."%char) as -> by by apply code_inj.
  split; [cbn; by rewrite digit_lit|]. intros r' Hr. cbn. rewrite Hs, Ee; [done|].
  destruct r'; [done|]. by destruct Hr.
Qed.

Lemma exp_scan_stable s d r : exp_scan s = Some (d, r) ->
  all_chars lit_char d = true /\
  forall r', delimited r' -> exp_scan (d ++ r') = Some (d, r') /\ no_frac (d ++ r').
Proof.
  assert (Hstop : forall r', delimited r' -> exp_scan r' = Some ("", r') /\ no_frac r').
  { intros [|a r'] Hr; [done|]. apply delimited_number in Hr as (H1 & H2 & H3 & _). cbn. by rewrite H3. }
  destruct s as [|a s]; [by intros [= <- <-]|]. cbn [exp_scan].
  destruct ((code a =? 101) || (code a =? 69)) eqn:E; [|by intros [= <- <-]].
  assert (Ha : lit_char a = true /\ is_digit a = false /\ (code a =? 46) = false)
    by (clear -E; revert E; destruct a as [[] [] [] [] [] [] [] []]; vm_compute; done).
  destruct Ha as (Ha & Hda & Hfa). destruct s as [|b s]; [done|].
  destruct ((code b =? 43) || (code b =? 45)) eqn:Eb.
  - destruct (digits_scan s) as [d1 r1] eqn:Ed. destruct (is_empty d1) eqn:Ee; [done|]. intros [= <- <-].
    apply digits_scan_stable in Ed as [Hd Hs].
    assert (Hb : lit_char b = true)
      by (clear -Eb; revert Eb; destruct b as [[] [] [] [] [] [] [] []]; vm_compute; done).
    split; [cbn; by rewrite Ha, Hb, digit_lit|]. intros r' Hr. cbn [append exp_scan no_frac].
    rewrite E, Eb, Hs, Ee; [done|]. by apply delimited_no_digit.
  - destruct (digits_scan (String b s)) as [d1 r1] eqn:Ed. destruct (is_empty d1) eqn:Ee; [done|].
    intros [= <- <-]. pose proof (digits_scan_split _ _ _ Ed) as Hsp.
    apply digits_scan_stable in Ed as [Hd Hs]. destruct d1 as [|c d1]; [done|].
    cbn in Hsp. injection Hsp as <- _.
    split; [cbn [append all_chars]; rewrite Ha; exact (digit_lit _ Hd)|]. intros r' Hr. cbn [append exp_scan no_frac].
    rewrite E, Eb. cbn [append] in Hs. rewrite Hs; [done|]. by apply delimited_no_digit.
Qed.

Lemma no_frac_no_digit s : no_frac s -> no_digit s.
Proof. destruct s; [done|]. by intros [? _]. Qed.

Lemma number_scan_stable s t r : number_scan s = Some (t, r) ->
  all_chars lit_char t = true /\ forall r', delimited r' -> number_scan (t ++ r') = Some (t, r').
Proof.
  unfold number_scan at 1. intros H.
  assert (Hsign : exists sign s1, all_chars (fun a => code a =? 45) sign = true /\ len sign <= 1 /\
    ('(i, s) ← int_scan s1; '(f, s) ← frac_scan s; '(e, s) ← exp_scan s; Some (sign ++ i ++ f ++ e, s))
      = Some (t, r)).
  { destruct s as [|a s]; [by exists "", ""|]. destruct (code a =? 45) eqn:Ea.
    - exists (String a ""), s. cbn [all_chars]. by rewrite Ea.
    - by exists "", (String a s). }
  destruct Hsign as (sign & s1 & Hsign & Hlen & Hscan). clear H.
  destruct (int_scan s1) as [[i s2]|] eqn:Ei; [|done]. cbn in Hscan.
  destruct (frac_scan s2) as [[f s3]|] eqn:Ef; [|done]. cbn in Hscan.
  destruct (exp_scan s3) as [[e s4]|] eqn:Ee; [|done]. cbn in Hscan. injection Hscan as <- <-.
  pose proof (int_scan_split _ _ _ Ei) as [_ Hi].
  pose proof Ei as Ei'. apply int_scan_stable in Ei as [Hci Hsi].
  apply frac_scan_stable in Ef as [Hcf Hsf]. apply exp_scan_stable in Ee as [Hce Hse].
  split.
  { rewrite !all_chars_app, Hci, Hcf, Hce, andb_true_r. revert Hsign. apply all_chars_weaken.
    intros a Ha%Z.eqb_eq. by rewrite (code_inj a "-" Ha). }
  intros r' Hr. destruct (Hse r' Hr) as [He Hnf]. destruct (Hsf _ Hnf) as [Hf Hnd]. pose proof (Hsi _ Hnd) as Hint.
  rewrite <- !app_string_assoc. unfold number_scan.
  assert (Hgo : ('(i0, s) ← int_scan (i ++ f ++ e ++ r'); '(f0, s) ← frac_scan s; '(e0, s) ← exp_scan s;
    Some (sign ++ i0 ++ f0 ++ e0, s)) = Some (sign ++ i ++ f ++ e, r')).
  { rewrite Hint. cbn. rewrite Hf. cbn. rewrite He. done. }
  destruct sign as [|a sign].
  - cbn [append] in *. destruct i as [|b i]; [done|]. cbn [append] in *.
    assert (Hb : (code b =? 45) = false).
    { destruct s1 as [|b' s1]; [done|]. cbn in Ei'. destruct (Z.eqb_spec (code b) 45) as [Hb|]; [|done].
      rewrite (code_inj b "-" Hb) in Ei'. cbn in Hint. by rewrite (code_inj b "-" Hb) in Hint. }
    by rewrite Hb.
  - cbn in Hsign. apply andb_true_iff in Hsign as [Ha _]. destruct sign; [|cbn in Hlen; unfold len in Hlen; cbn in Hlen; lia].
    cbn [append] in *. by rewrite Ha.
Qed.

Lemma strip_prefix_ok p s : strip_prefix p (p ++ s) = Some s.
Proof. apply strip_prefix_app. Qed.

Lemma literal_scan_stable s v r : literal_scan s = Some (v, r) ->
  exists t, s = t ++ r /\ t <> "" /\ all_chars lit_char t = true /\
    forall r', delimited r' -> literal_scan (t ++ r') = Some (v, r').
Proof.
  unfold literal_scan. intros H.
  destruct (strip_prefix "null" s) eqn:E1; [apply strip_prefix_split in E1; simplify_eq; by exists "null"|].
  destruct (strip_prefix "true" s) eqn:E2; [apply strip_prefix_split in E2; simplify_eq; by exists "true"|].
  destruct (strip_prefix "false" s) eqn:E3; [apply strip_prefix_split in E3; simplify_eq; by exists "false"|].
  destruct (number_scan s) as [[t r1]|] eqn:En; [|done]. injection H as <- <-. exists t.
  pose proof (number_scan_split _ _ _ En) as [-> Ht]. pose proof (number_scan_stable _ _ _ En) as [Hc Hs].
  split_and!; try done. intros r' Hr. rewrite (Hs r' Hr).
  destruct t as [|a t]; [done|]. cbn [append] in En. apply number_scan_start in En.
  assert (Hp : forall p z, strip_prefix (String p z) (String a (t ++ r')) =
    if Ascii.eqb p a then strip_prefix z (t ++ r') else None) by done.
  cbn [append]. rewrite !Hp.
  assert (Hn : Ascii.eqb "n" a = false /\ Ascii.eqb "t" a = false /\ Ascii.eqb "f" a = false)
    by (clear -En; revert En; destruct a as [[] [] [] [] [] [] [] []]; vm_compute; done).
  destruct Hn as (-> & -> & ->). done.
Qed.

Lemma str_scan_stable s t r : str_scan s = Some (t, r) ->
  forall r', str_scan (t ++ String quote r') = Some (t, r').
Proof.
  revert t r. induction s as [s IH] using string_length_ind. intros t r H r'.
  destruct s as [|a s1]; [done|]. cbn [str_scan] in H.
  destruct (a =c? quote) eqn:Eq; [by simplify_eq|].
  destruct (a =c? backslash) eqn:Eb.
  - destruct s1 as [|e s2]; [done|]. destruct (simple_escape e) eqn:Ee.
    + push_inv. cbn [append str_scan]. rewrite Eq, Eb, Ee, (IH s2 ltac:(cbn; lia) _ _ H). done.
    + destruct (e =c? "u") eqn:Eu; [|done].
      destruct s2 as [|h1 [|h2 [|h3 [|h4 s5]]]]; try done.
      destruct (_ && _) eqn:Eh; [|done]. push_inv. cbn [append str_scan].
      rewrite Eq, Eb, Ee, Eu, Eh, (IH s5 ltac:(cbn; lia) _ _ H). done.
  - destruct (code a <? 32) eqn:Ec; [done|]. push_inv. cbn [append str_scan].
    rewrite Eq, Eb, Ec, (IH s1 ltac:(cbn; lia) _ _ H). done.
Qed.

(** ** White space *)
Fixpoint ws_prefix (s : string) : string :=
  match s with
  | String a r => if is_ws a then String a (ws_prefix r) else ""
  | EmptyString => ""
  end.

Lemma ws_prefix_split s : s = ws_prefix s ++ skip_ws s.
Proof. induction s as [|a s IH]; cbn; [done|]. destruct (is_ws a); cbn; congruence. Qed.

Lemma skip_ws_prefix w s : all_chars is_ws w = true -> skip_ws (w ++ s) = skip_ws s.
Proof.
  induction w as [|a w IH]; cbn; [done|]. intros [Ha Hw]%andb_true_iff. rewrite Ha. auto.
Qed.

Lemma all_ws_prefix s : all_chars is_ws (ws_prefix s) = true.
Proof. induction s as [|a s IH]; cbn; [done|]. destruct (is_ws a) eqn:E; cbn; [|done]. by rewrite E. Qed.

Lemma skip_ws_stop a s : is_ws a = false -> skip_ws (String a s) = String a s.
Proof. cbn. by intros ->. Qed.

Lemma ws_delimiter a : is_ws a = true -> scalar_char a = false.
Proof. unfold scalar_char. intros ->. by rewrite orb_true_r. Qed.

(** What is left after a value inside a container. *)
Lemma skip_ws_delimited s a r : skip_ws s = String a r -> scalar_char a = false -> delimited s.
Proof.
  destruct s as [|b s]; [done|]. cbn. destruct (is_ws b) eqn:Eb; [intros _ _; by apply ws_delimiter|].
  by intros [= -> ->].
Qed.

Lemma before_app x r : before (x ++ r) r = x.
Proof.
  unfold before. rewrite length_app, Nat.add_sub. apply substring_prefix.
Qed.

(** ** Parses are stable *)
Lemma delimited_ws_app w s : all_chars is_ws w = true -> delimited s -> delimited (w ++ s).
Proof. destruct w as [|a w]; [done|]. cbn. intros [Ha _]%andb_true_iff _. by apply ws_delimiter. Qed.

Lemma skip_ws_some s b s1 : skip_ws s = String b s1 ->
  exists w, s = w ++ String b s1 /\ is_ws b = false /\ all_chars is_ws w = true /\
    forall z, skip_ws (w ++ String b z) = String b z.
Proof.
  intros H. exists (ws_prefix s). pose proof (ws_prefix_split s) as Hs. rewrite H in Hs.
  assert (Hb : is_ws b = false).
  { clear Hs. induction s as [|a s IH]; [done|]. cbn in H. destruct (is_ws a) eqn:E; [auto|]. by simplify_eq. }
  split_and!; try done; [apply all_ws_prefix|]. intros z.
  rewrite skip_ws_prefix by apply all_ws_prefix. by apply skip_ws_stop.
Qed.

(** A text that starts with no white space. *)
Definition starts (x : string) : Prop :=
  match x with EmptyString => False | String a _ => is_ws a = false end.

Lemma skip_ws_starts w x r : all_chars is_ws w = true -> starts x -> skip_ws (w ++ x ++ r) = x ++ r.
Proof.
  intros Hw Hx. rewrite skip_ws_prefix by done. destruct x as [|a x]; [done|]. by apply skip_ws_stop.
Qed.

Lemma parse_value_start n a s v r : parse_value n (String a s) = Some (v, r) -> is_ws a = false.
Proof. intros H. by apply parse_value_kind in H as [? _]. Qed.

Ltac open_ws E := apply skip_ws_some in E as (?w & ?Hs & ?Hb & ?Hw & ?Hz).

(** The parsed text [x] parses the same before anything that may follow it. *)
Definition value_stable (n : nat) : Prop := forall s v r, parse_value n s = Some (v, r) ->
  exists x, s = x ++ r /\ starts x /\ forall r', delimited r' -> parse_value n (x ++ r') = Some (v, r').
Definition elems_stable (n : nat) : Prop := forall s l r, parse_elems n s = Some (l, r) ->
  exists x, s = x ++ r /\ starts x /\ forall r', parse_elems n (x ++ r') = Some (l, r').
Definition members_stable (n : nat) : Prop := forall s l r, parse_members n s = Some (l, r) ->
  exists x, s = x ++ r /\ starts x /\ forall r', parse_members n (x ++ r') = Some (l, r').

Lemma value_stable_S n : elems_stable n -> members_stable n -> value_stable (S n).
Proof.
  intros IHe IHm s v r H. destruct s as [|a s]; [done|]. pose proof (parse_value_start _ _ _ _ _ H) as Hw.
  cbn [parse_value] in H.
  destruct (a =c? "{") eqn:Eo.
  { destruct (skip_ws s) as [|b s1] eqn:E; [done|]. open_ws E. subst s. destruct (b =c? "}") eqn:Eb.
    - simplify_eq. exists (String a (w ++ String b "")). cbn [append]. rewrite <- app_string_assoc.
      split_and!; try done. intros r' _. cbn [append parse_value].
      rewrite Eo, <- app_string_assoc. cbn [append]. by rewrite Hz, Eb.
    - destruct (parse_members n _) as [[l r2]|] eqn:Em; [|done]. simplify_eq.
      apply IHm in Em as (x & Hx & Hst & Hm). rewrite Hx.
      exists (String a (w ++ x)). cbn [append]. rewrite <- app_string_assoc. split_and!; try done.
      intros r' _. cbn [append parse_value]. rewrite Eo, <- app_string_assoc, skip_ws_starts by done.
      destruct x as [|b' x]; [done|]. cbn [append] in *. simplify_eq. by rewrite Eb, Hm. }
  destruct (a =c? "[") eqn:Ea.
  { destruct (skip_ws s) as [|b s1] eqn:E; [done|]. open_ws E. subst s. destruct (b =c? "]") eqn:Eb.
    - simplify_eq. exists (String a (w ++ String b "")). cbn [append]. rewrite <- app_string_assoc.
      split_and!; try done. intros r' _. cbn [append parse_value].
      rewrite Eo, Ea, <- app_string_assoc. cbn [append]. by rewrite Hz, Eb.
    - destruct (parse_elems n _) as [[l r2]|] eqn:Em; [|done]. simplify_eq.
      apply IHe in Em as (x & Hx & Hst & Hm). rewrite Hx.
      exists (String a (w ++ x)). cbn [append]. rewrite <- app_string_assoc. split_and!; try done.
      intros r' _. cbn [append parse_value]. rewrite Eo, Ea, <- app_string_assoc, skip_ws_starts by done.
      destruct x as [|b' x]; [done|]. cbn [append] in *. simplify_eq. by rewrite Eb, Hm. }
  destruct (a =c? quote) eqn:Eq.
  { destruct (str_scan s) as [[t r1]|] eqn:Es; [|done]. simplify_eq.
    pose proof (str_scan_split _ _ _ Es) as ->. exists (String a (t ++ String quote "")).
    cbn [append]. rewrite <- app_string_assoc. split_and!; try done.
    intros r' _. cbn [append parse_value]. rewrite Eo, Ea, Eq, <- app_string_assoc. cbn [append].
    by rewrite (str_scan_stable _ _ _ Es). }
  apply literal_scan_stable in H as (t & Ht & Hne & _ & Hst). exists t.
  destruct t as [|b t]; [done|]. cbn [append] in Ht. simplify_eq. split_and!; try done.
  intros r' Hr. cbn [append parse_value]. rewrite Eo, Ea, Eq. by apply Hst.
Qed.

Lemma elems_stable_S n : value_stable n -> elems_stable n -> elems_stable (S n).
Proof.
  intros IHv IHe s v r H.
  cbn [parse_elems] in H. destruct (parse_value n s) as [[w1 r1]|] eqn:Ev; [|done].
  apply IHv in Ev as (x & -> & Hst & Hv). destruct (skip_ws r1) as [|b r2] eqn:E; [done|].
  open_ws E. subst r1. rewrite before_app in H. destruct (b =c? "]") eqn:Eb.
  - simplify_eq. apply Ascii.eqb_eq in Eb as ->. exists (x ++ w ++ String "]" "").
    rewrite <- !app_string_assoc. split_and!; [done|by destruct x|]. intros r'. cbn [parse_elems].
    rewrite <- !app_string_assoc. cbn [append].
    rewrite Hv by (by apply delimited_ws_app). by rewrite Hz, before_app.
  - destruct (b =c? ",") eqn:Ec; [|done]. apply Ascii.eqb_eq in Ec as ->.
    destruct (parse_elems n _) as [[l r3]|] eqn:Ee; [|done]. simplify_eq.
    apply IHe in Ee as (y & Hy & Hsty & He). pose proof (ws_prefix_split r2) as Hp. rewrite Hy in Hp.
    exists (x ++ w ++ String "," (ws_prefix r2 ++ y)). rewrite Hp at 1.
    rewrite <- !app_string_assoc. cbn [append]. rewrite <- !app_string_assoc.
    split_and!; [done|by destruct x|]. intros r'. cbn [parse_elems].
    rewrite <- !app_string_assoc. cbn [append]. rewrite <- !app_string_assoc.
    rewrite Hv by (by apply delimited_ws_app). rewrite Hz, before_app. cbn iota.
    change ("," =c? "]")%char with false. change ("," =c? ",")%char with true. cbn iota.
    rewrite skip_ws_starts by (done || apply all_ws_prefix). by rewrite He.
Qed.

(** The text of one member: the quoted key, the colon and the value. *)
Definition member_text (n : nat) (text : string) (m : string * string * json) : Prop :=
  exists t w1 w2 x v,
    text = String quote (t ++ String quote (w1 ++ String ":" (w2 ++ x))) /\
    all_chars is_ws w1 = true /\ all_chars is_ws w2 = true /\ starts x /\
    (forall z, str_scan (t ++ String quote z) = Some (t, z)) /\
    (forall r', delimited r' -> parse_value n (x ++ r') = Some (v, r')) /\
    m = (unquote t, x, v).

Definition after_member (n : nat) (m : string * string * json) (s : string)
  : option (list (string * string * json) * string) :=
  match skip_ws s with
  | EmptyString => None
  | String d r =>
      if d =c? "}" then Some ([m], r)
      else if d =c? "," then
        match parse_members n (skip_ws r) with
        | Some (l, r) => Some (m :: l, r)
        | None => None
        end
      else None
  end.

Lemma member_text_parse n text m r : member_text n text m -> delimited r ->
  parse_members (S n) (text ++ r) = after_member n m r.
Proof.
  intros (t & w1 & w2 & x & v & -> & Hw1 & Hw2 & Hx & Ht & Hv & ->) Hr.
  cbn [append parse_members]. rewrite Ascii.eqb_refl. repeat (rewrite <- app_string_assoc; cbn [append]).
  rewrite Ht, skip_ws_prefix, skip_ws_stop by done. rewrite Ascii.eqb_refl.
  rewrite skip_ws_starts, Hv by done. cbn zeta iota. by rewrite before_app.
Qed.

Lemma parse_first_member n s l r : value_stable n -> parse_members (S n) s = Some (l, r) ->
  exists text m r', s = text ++ r' /\ delimited r' /\ member_text n text m /\
    after_member n m r' = Some (l, r).
Proof.
  intros IHv H. cbn [parse_members] in H. destruct s as [|a s]; [done|].
  destruct (Ascii.eqb_spec a quote) as [->|]; [|done].
  destruct (str_scan s) as [[t r1]|] eqn:Es; [|done]. destruct (skip_ws r1) as [|b r2] eqn:E1; [done|].
  open_ws E1. destruct (Ascii.eqb_spec b ":") as [->|]; [|done]. cbn zeta in H.
  destruct (parse_value n _) as [[v r3]|] eqn:Ev; [|done].
  apply IHv in Ev as (x & Hx & Hst & Hv). pose proof (ws_prefix_split r2) as Hp. rewrite Hx in H, Hp.
  pose proof (str_scan_split _ _ _ Es) as ->. rewrite before_app in H.
  exists (String quote (t ++ String quote (w ++ String ":" (ws_prefix r2 ++ x)))), (unquote t, x, v), r3.
  split_and!; [|..|done].
  - rewrite Hs, Hp at 1. by repeat (cbn [append]; rewrite <- ?app_string_assoc; f_equal).
  - destruct (skip_ws r3) as [|d r4] eqn:E3; [done|]. eapply skip_ws_delimited; [done|].
    destruct (Ascii.eqb_spec d "}") as [->|]; [done|]. by destruct (Ascii.eqb_spec d ",") as [->|].
  - exists t, w, (ws_prefix r2), x, v. split_and!; try done; [apply all_ws_prefix|].
    intros z. by eapply str_scan_stable.
Qed.

Lemma members_stable_S n : value_stable n -> members_stable n -> members_stable (S n).
Proof.
  intros IHv IHm s l r H. apply parse_first_member in H as (text & m & r1 & -> & Hd & Hm & Ha); [|done].
  assert (Hst : starts text) by by destruct Hm as (? & ? & ? & ? & ? & -> & _).
  assert (Hgo : exists y, r1 = y ++ r /\ (forall r', delimited (y ++ r')) /\
    forall r', after_member n m (y ++ r') = Some (l, r')).
  { unfold after_member in Ha. destruct (skip_ws r1) as [|d r2] eqn:E; [done|]. open_ws E. subst r1.
    unfold after_member. destruct (Ascii.eqb_spec d "}") as [->|Hd1].
    - simplify_eq. exists (w ++ String "}" ""). rewrite <- app_string_assoc. split_and!; [done|..]; intros r';
        rewrite <- app_string_assoc; cbn [append]; [by apply delimited_ws_app|]. by rewrite Hz.
    - destruct (Ascii.eqb_spec d ",") as [->|]; [|done].
      destruct (parse_members n _) as [[l' r3]|] eqn:Em; [|done]. simplify_eq.
      apply IHm in Em as (y & Hy & Hsty & He). pose proof (ws_prefix_split r2) as Hp. rewrite Hy in Hp.
      exists (w ++ String "," (ws_prefix r2 ++ y)). rewrite Hp at 1.
      repeat (rewrite <- app_string_assoc; cbn [append]). split_and!; [done|..]; intros r';
        repeat (rewrite <- app_string_assoc; cbn [append]); [by apply delimited_ws_app|].
      rewrite Hz. change ("," =c? "}")%char with false. change ("," =c? ",")%char with true. cbn iota.
      rewrite skip_ws_starts by (done || apply all_ws_prefix). by rewrite He. }
  destruct Hgo as (y & -> & Hdy & Hy). exists (text ++ y). rewrite <- app_string_assoc.
  split_and!; [done|by destruct text|]. intros r'. rewrite <- app_string_assoc.
  rewrite (member_text_parse _ _ _ _ Hm) by done. apply Hy.
Qed.

Lemma parse_stable n : value_stable n /\ elems_stable n /\ members_stable n.
Proof.
  induction n as [|n (IHv & IHe & IHm)]; [done|].
  split_and!; [by apply value_stable_S|by apply elems_stable_S|by apply members_stable_S].
Qed.

(** ** The envelope's own scanner *)
Lemma hex_plain a : is_hex a = true -> (a =c? quote) = false /\ (a =c? backslash) = false.
Proof. destruct a as [[] [] [] [] [] [] [] []]; vm_compute; done. Qed.

(** Any scan of a string that skips escapes two bytes at a time ends where the
    parser does: [f false] reads a byte, [f true] skips an escaped one. *)
Lemma escape_scan {A} (f : bool -> string -> A) (close : string -> A) :
  (forall a r, f true (String a r) = f false r) ->
  (forall a r, f false (String a r) = if a =c? backslash then f true r else
                                      if a =c? quote then close r else f false r) ->
  forall s t r, str_scan s = Some (t, r) -> f false s = close r.
Proof.
  intros Ht Hf. induction s as [s IH] using string_length_ind. intros t r H.
  destruct s as [|a s1]; [done|]. rewrite Hf. cbn [str_scan] in H.
  destruct (Ascii.eqb_spec a quote) as [->|Hq]; [by simplify_eq|].
  destruct (a =c? backslash) eqn:Eb.
  - destruct s1 as [|e s2]; [done|]. rewrite Ht. destruct (simple_escape e).
    + push_inv. eapply IH; [cbn; lia|done].
    + destruct (e =c? "u"); [|done]. destruct s2 as [|h1 [|h2 [|h3 [|h4 s5]]]]; try done.
      destruct (_ && _) eqn:Eh; [|done]. push_inv. rewrite !andb_true_iff in Eh. destruct Eh as [[[H1 H2] H3] H4].
      apply hex_plain in H1 as [Q1 B1], H2 as [Q2 B2], H3 as [Q3 B3], H4 as [Q4 B4].
      rewrite !Hf, B1, Q1, B2, Q2, B3, Q3, B4, Q4. eapply IH; [cbn; lia|done].
  - destruct (_ <? _); [done|]. push_inv. eapply IH; [cbn; lia|done].
Qed.

Lemma string_end_scan s t r : str_scan s = Some (t, r) -> string_end false s = Ok r.
Proof. by apply (escape_scan string_end Ok). Qed.

Lemma container_string d s t r : str_scan s = Some (t, r) ->
  container_end d true false s = container_end d false false r.
Proof.
  apply (escape_scan (container_end d true) (container_end d false false)); [done|].
  intros a s1. cbn [container_end]. destruct (Ascii.eqb_spec a backslash) as [->|]; [done|].
  by destruct (a =c? quote).
Qed.

Definition close_container (d : nat) (r : string) : result SspErr string :=
  match d with O => Ok r | S d => container_end d false false r end.

Lemma container_ws d s : container_end d false false s = container_end d false false (skip_ws s).
Proof.
  induction s as [|a s IH]; [done|]. cbn [skip_ws]. destruct (is_ws a) eqn:E; [|done]. rewrite <- IH.
  cbn [container_end].
  assert (Ha : (a =c? quote) = false /\ (a =c? "{") || (a =c? "[") = false /\ (a =c? "}") || (a =c? "]") = false)
    by (clear -E; revert E; destruct a as [[] [] [] [] [] [] [] []]; vm_compute; done).
  by destruct Ha as (-> & -> & ->).
Qed.

Lemma container_plain d t r : all_chars lit_char t = true ->
  container_end d false false (t ++ r) = container_end d false false r.
Proof.
  induction t as [|a t IH]; [done|]. cbn [all_chars append container_end]. intros [Ha Ht]%andb_true_iff.
  apply lit_char_plain in Ha as (_ & _ & -> & -> & -> & -> & ->). auto.
Qed.

Lemma container_skip a d r : (a =c? ",") || (a =c? ":") = true ->
  container_end d false false (String a r) = container_end d false false r.
Proof.
  intros H. cbn [container_end].
  assert (Ha : (a =c? quote) = false /\ (a =c? "{") || (a =c? "[") = false /\ (a =c? "}") || (a =c? "]") = false)
    by (clear -H; revert H; destruct a as [[] [] [] [] [] [] [] []]; vm_compute; done).
  by destruct Ha as (-> & -> & ->).
Qed.

Lemma container_close a d r : (a =c? "}") || (a =c? "]") = true ->
  container_end d false false (String a r) = close_container d r.
Proof.
  intros H. cbn [container_end].
  assert (Ha : (a =c? quote) = false /\ (a =c? "{") || (a =c? "[") = false)
    by (clear -H; revert H; destruct a as [[] [] [] [] [] [] [] []]; vm_compute; done).
  destruct Ha as (-> & ->). by rewrite H.
Qed.

Lemma container_open a d r : (a =c? "{") || (a =c? "[") = true ->
  container_end d false false (String a r) = container_end (S d) false false r.
Proof.
  intros H. cbn [container_end].
  assert (Ha : (a =c? quote) = false)
    by (clear -H; revert H; destruct a as [[] [] [] [] [] [] [] []]; vm_compute; done).
  by rewrite Ha, H.
Qed.

(** The container scan passes over a parsed value, and leaves its container
    where the parser does. *)
Lemma container_parse n :
  (forall s v r, parse_value n s = Some (v, r) ->
     forall d, container_end d false false s = container_end d false false r) /\
  (forall s l r, parse_elems n s = Some (l, r) -> forall d, container_end d false false s = close_container d r) /\
  (forall s l r, parse_members n s = Some (l, r) -> forall d, container_end d false false s = close_container d r).
Proof.
  induction n as [|n (IHv & IHe & IHm)]; [done|]. split_and!; intros s v r H d;
    cbn [parse_value parse_elems parse_members] in H.
  - destruct s as [|a s]; [done|].
    destruct (a =c? "{") eqn:Eo; [|destruct (a =c? "[") eqn:Ea].
    + rewrite container_open by by rewrite Eo. rewrite container_ws.
      destruct (skip_ws s) as [|b s1]; [done|]. destruct (b =c? "}") eqn:Eb.
      * simplify_eq. by rewrite container_close by by rewrite Eb.
      * destruct (parse_members n _) as [[l r2]|] eqn:Em; [|done]. simplify_eq. by rewrite (IHm _ _ _ Em).
    + rewrite container_open by by rewrite Ea, orb_true_r. rewrite container_ws.
      destruct (skip_ws s) as [|b s1]; [done|]. destruct (b =c? "]") eqn:Eb.
      * simplify_eq. by rewrite container_close by by rewrite Eb, orb_true_r.
      * destruct (parse_elems n _) as [[l r2]|] eqn:Em; [|done]. simplify_eq. by rewrite (IHe _ _ _ Em).
    + destruct (a =c? quote) eqn:Eq.
      * destruct (str_scan s) as [[t r1]|] eqn:Es; [|done]. simplify_eq. cbn [container_end]. rewrite Eq.
        by eapply container_string.
      * apply literal_scan_stable in H as (t & -> & _ & Hc & _). by apply container_plain.
  - destruct (parse_value n s) as [[w r1]|] eqn:Ev; [|done]. rewrite (IHv _ _ _ Ev), container_ws.
    destruct (skip_ws r1) as [|b r2]; [done|]. destruct (b =c? "]") eqn:Eb.
    { simplify_eq. by rewrite container_close by by rewrite Eb, orb_true_r. }
    destruct (b =c? ",") eqn:Ec; [|done]. rewrite container_skip, container_ws by by rewrite Ec.
    destruct (parse_elems n _) as [[l r3]|] eqn:Ee; [|done]. simplify_eq. by apply IHe with (1 := Ee).
  - destruct s as [|a s]; [done|]. destruct (a =c? quote) eqn:Eq; [|done].
    destruct (str_scan s) as [[t r1]|] eqn:Es; [|done]. cbn [container_end]. rewrite Eq.
    rewrite (container_string _ _ _ _ Es), container_ws. destruct (skip_ws r1) as [|b r2]; [done|].
    destruct (b =c? ":") eqn:Ec; [|done]. rewrite container_skip, container_ws by by rewrite Ec, orb_true_r.
    destruct (parse_value n _) as [[w r3]|] eqn:Ev; [|done]. rewrite (IHv _ _ _ Ev), container_ws.
    destruct (skip_ws r3) as [|e r4]; [done|]. destruct (e =c? "}") eqn:Eb.
    { simplify_eq. by rewrite container_close by by rewrite Eb. }
    destruct (e =c? ",") eqn:Ed; [|done]. rewrite container_skip, container_ws by by rewrite Ed.
    destruct (parse_members n _) as [[l r5]|] eqn:Em; [|done]. simplify_eq. by apply IHm with (1 := Em).
Qed.

Lemma scalar_end_plain t r : all_chars lit_char t = true -> delimited r -> scalar_end (t ++ r) = r.
Proof.
  intros Ht Hr. induction t as [|a t IH]; cbn [append].
  - destruct r as [|b r]; [done|]. cbn [scalar_end]. by rewrite Hr.
  - cbn in Ht. apply andb_true_iff in Ht as [Ha Ht]. cbn [scalar_end].
    apply lit_char_plain in Ha as (-> & _). auto.
Qed.

(** [valueEnd] finds the end of a value that the parser reads. *)
Lemma valueEnd_parse n s v r : parse_value n s = Some (v, r) -> delimited r -> valueEnd s = Ok r.
Proof.
  intros H Hr. destruct n as [|n]; [done|]. destruct s as [|a s]; [done|].
  destruct (a =c? quote) eqn:Eq.
  { apply Ascii.eqb_eq in Eq as ->. cbn [parse_value] in H.
    destruct (str_scan s) as [[t r1]|] eqn:Es; [|done]. cbn in H. injection H as <- <-.
    cbn [valueEnd stringEnd]. rewrite Ascii.eqb_refl. by eapply string_end_scan. }
  unfold valueEnd. rewrite Eq. destruct ((a =c? "{") || (a =c? "[")) eqn:Eo.
  { pose proof (container_parse n) as (_ & Hce & Hcm). cbn [parse_value] in H.
    destruct (a =c? "{"); [|destruct (a =c? "["); [|done]]; rewrite container_ws;
      (destruct (skip_ws s) as [|b s1]; [done|]).
    - destruct (b =c? "}") eqn:Eb; [simplify_eq; by rewrite container_close by by rewrite Eb|].
      destruct (parse_members n _) as [[l r2]|] eqn:Em; [|done]. simplify_eq. by rewrite (Hcm _ _ _ Em).
    - destruct (b =c? "]") eqn:Eb; [simplify_eq; by rewrite container_close by by rewrite Eb, orb_true_r|].
      destruct (parse_elems n _) as [[l r2]|] eqn:Em; [|done]. simplify_eq. by rewrite (Hce _ _ _ Em). }
  apply orb_false_iff in Eo as [Eo1 Eo2]. cbn [parse_value] in H. rewrite Eo1, Eo2, Eq in H.
  apply literal_scan_stable in H as (t & Ht & Hne & Hcs & _). destruct t as [|b t]; [done|].
  cbn [append] in Ht. simplify_eq. cbn in Hcs. apply andb_true_iff in Hcs as [Ha Hcs].
  apply lit_char_plain in Ha as (-> & _). by rewrite scalar_end_plain.
Qed.

(** ** More fuel keeps a parse *)
Lemma parse_mono n : forall m, (n <= m)%nat ->
  (forall s v r, parse_value n s = Some (v, r) -> parse_value m s = Some (v, r)) /\
  (forall s l r, parse_elems n s = Some (l, r) -> parse_elems m s = Some (l, r)) /\
  (forall s l r, parse_members n s = Some (l, r) -> parse_members m s = Some (l, r)).
Proof.
  induction n as [|n IH]; [done|]. intros [|m] Hm; [lia|].
  destruct (IH m ltac:(lia)) as (IHv & IHe & IHm). clear IH.
  split_and!; intros s v r H; cbn [parse_value parse_elems parse_members] in H |- *.
  - destruct s as [|a s]; [done|]. destruct (a =c? "{"); [|destruct (a =c? "["); [|done]];
      (destruct (skip_ws s) as [|b s1]; [done|]).
    + destruct (b =c? "}"); [done|]. destruct (parse_members n _) as [[l r2]|] eqn:E; [|done]. by rewrite (IHm _ _ _ E).
    + destruct (b =c? "]"); [done|]. destruct (parse_elems n _) as [[l r2]|] eqn:E; [|done]. by rewrite (IHe _ _ _ E).
  - destruct (parse_value n s) as [[w r1]|] eqn:Ev; [|done]. rewrite (IHv _ _ _ Ev).
    destruct (skip_ws r1) as [|b r2]; [done|]. destruct (b =c? "]"); [done|]. destruct (b =c? ","); [|done].
    destruct (parse_elems n _) as [[l r3]|] eqn:E; [|done]. by rewrite (IHe _ _ _ E).
  - destruct s as [|a s]; [done|]. destruct (a =c? quote); [|done].
    destruct (str_scan s) as [[t r1]|]; [|done]. destruct (skip_ws r1) as [|b r2]; [done|].
    destruct (b =c? ":"); [|done]. cbn zeta in *.
    destruct (parse_value n _) as [[w r3]|] eqn:Ev; [|done]. rewrite (IHv _ _ _ Ev).
    destruct (skip_ws r3) as [|d r4]; [done|]. destruct (d =c? "}"); [done|]. destruct (d =c? ","); [|done].
    destruct (parse_members n _) as [[l r5]|] eqn:E; [|done]. by rewrite (IHm _ _ _ E).
Qed.

(** Any fuel beyond twice the length does. *)
Lemma parse_value_enough n m s v r : parse_value n s = Some (v, r) -> (2 * String.length s < m)%nat ->
  parse_value m s = Some (v, r).
Proof.
  intros H Hm. apply (proj1 (parse_mono n (Nat.max n m) ltac:(lia))) in H. rewrite <- H.
  apply parse_fuel; lia.
Qed.

Definition member_of (text : string) (m : string * string * json) : Prop := exists n, member_text n text m.

Lemma member_of_parse n text m r : member_of text m -> delimited r ->
  (2 * String.length (text ++ r) < S n)%nat -> parse_members (S n) (text ++ r) = after_member n m r.
Proof.
  intros (k & t & w1 & w2 & x & v & -> & Hw1 & Hw2 & Hx & Ht & Hv & ->) Hr Hn.
  cbn [append parse_members]. rewrite Ascii.eqb_refl. repeat (rewrite <- app_string_assoc; cbn [append]).
  rewrite Ht, skip_ws_prefix, skip_ws_stop by done. rewrite Ascii.eqb_refl.
  rewrite skip_ws_starts by done. rewrite (parse_value_enough k n _ v r); [|by apply Hv|].
  - cbn zeta iota. by rewrite before_app.
  - revert Hn. repeat (progress (cbn [append String.length]; rewrite ?length_app)). lia.
Qed.

(** ** Reparsing the kept members *)
Lemma starts_member text m : member_of text m -> exists y, text = String quote y.
Proof. intros (n & ? & ? & ? & ? & ? & -> & _). eauto. Qed.

Lemma parse_joined ps : ps <> [] -> Forall (fun p => member_of p.1 p.2) ps ->
  forall n r, (2 * String.length (join "," (fst <$> ps) ++ String "}" r) < n)%nat ->
  parse_members n (join "," (fst <$> ps) ++ String "}" r) = Some (snd <$> ps, r).
Proof.
  induction ps as [|[text m] ps IH]; [done|]. intros _ Hps [|n] r Hn; [lia|].
  apply List.Forall_cons_iff in Hps as [Hm Hps]. cbn [fst snd] in Hm.
  destruct ps as [|p ps].
  - cbn [fmap list_fmap join fst] in *. rewrite (member_of_parse _ _ _ _ Hm) by done. done.
  - assert (Hj : join "," (fst <$> (text, m) :: p :: ps) = text ++ String "," (join "," (fst <$> p :: ps))) by done.
    rewrite Hj in *. rewrite <- app_string_assoc in *. cbn [append] in *.
    rewrite (member_of_parse _ _ _ _ Hm) by done. unfold after_member.
    rewrite skip_ws_stop by done. change ("," =c? "}")%char with false. change ("," =c? ",")%char with true. cbn iota.
    assert (Hs : skip_ws (join "," (fst <$> p :: ps) ++ String "}" r) = join "," (fst <$> p :: ps) ++ String "}" r).
    { apply List.Forall_cons_iff in Hps as [Hp _]. apply starts_member in Hp as [y Hy].
      destruct ps; cbn [fmap list_fmap join]; rewrite Hy; done. }
    rewrite Hs, IH; [done|done|done|]. rewrite length_app in Hn. cbn [String.length] in Hn. lia.
Qed.

(** ** The loop over the members *)
Lemma unmarshal_quoted t : (forall z, str_scan (t ++ String quote z) = Some (t, z)) ->
  unmarshal_string (String quote (t ++ String quote "")) = Some (unquote t).
Proof.
  intros Ht. unfold unmarshal_string, parse, read_value. rewrite skip_ws_stop by done.
  cbn [String.length]. cbn [parse_value]. change (quote =c? "{") with false. change (quote =c? "[") with false.
  rewrite Ascii.eqb_refl. cbn iota. by rewrite Ht.
Qed.

Definition signed (m : string * string * json) : bool := m.1.1 <>s? "signature".

Lemma strip_step n k kept text m r : member_text n text m -> delimited r ->
  strip_members (S k) kept (text ++ r) =
  (let kept := if signed m then app kept [text] else kept in
   match skip_ws r with
   | EmptyString => Err malformed
   | String d r2 => if d =c? "," then strip_members k kept r2
                    else if d =c? "}" then Ok kept else Err malformed
   end).
Proof.
  intros (t & w1 & w2 & x & v & -> & Hw1 & Hw2 & Hx & Ht & Hv & ->) Hr. cbn zeta. unfold signed. cbn [fst].
  set (text := String quote (t ++ String quote (w1 ++ String ":" (w2 ++ x)))).
  set (keyEnd := w1 ++ String ":" (w2 ++ x ++ r)).
  assert (Hk : text ++ r = String quote (t ++ String quote "") ++ keyEnd).
  { unfold text, keyEnd. by repeat (progress (cbn [append]; rewrite <- ?app_string_assoc)). }
  assert (Hend : stringEnd (text ++ r) = Ok keyEnd).
  { rewrite Hk. cbn [append stringEnd]. rewrite Ascii.eqb_refl, <- app_string_assoc. cbn [append].
    eapply string_end_scan, Ht. }
  assert (Hskip : skip_ws (text ++ r) = text ++ r) by done.
  change (strip_members (S k) kept (text ++ r)) with
    (match skip_ws (text ++ r) with
     | EmptyString => Err malformed
     | String a r0 =>
         if a =c? "}" then Ok kept
         else
           keyEnd ← stringEnd (String a r0);
           key ← of_option malformed (unmarshal_string (before (String a r0) keyEnd));
           match skip_ws keyEnd with
           | EmptyString => Err malformed
           | String c r1 =>
               if negb (c =c? ":") then Err malformed
               else
                 rest ← valueEnd (skip_ws r1);
                 let kept := if key <>s? "signature" then app kept [before (String a r0) rest] else kept in
                 match skip_ws rest with
                 | EmptyString => Err malformed
                 | String d r2 =>
                     if d =c? "," then strip_members k kept r2
                     else if d =c? "}" then Ok kept
                     else Err malformed
                 end
           end
     end).
  rewrite Hskip. destruct (text ++ r) as [|a r0] eqn:E; [done|].
  assert (Ha : (a =c? "}") = false) by (unfold text in E; cbn in E; by injection E as <- _).
  rewrite Ha, Hend. cbn [mbind result_bind]. rewrite Hk, before_app, unmarshal_quoted by done.
  cbn [of_option mbind result_bind]. unfold keyEnd at 1. rewrite skip_ws_prefix, skip_ws_stop by done.
  rewrite Ascii.eqb_refl. cbn [negb]. rewrite skip_ws_starts by done.
  rewrite (valueEnd_parse _ _ _ _ (Hv r Hr) Hr). cbn [mbind result_bind]. cbn zeta.
  rewrite <- Hk, <- E, before_app. done.
Qed.

Lemma strip_members_parse n : forall s l r, parse_members n s = Some (l, r) ->
  exists ps, l = snd <$> ps /\ Forall (fun p => member_of p.1 p.2) ps /\
    forall k kept, (String.length s < k)%nat ->
      strip_members k kept s = Ok (app kept (fst <$> List.filter (fun p => signed p.2) ps)).
Proof.
  induction n as [|n IH]; [done|]. intros s l r H.
  apply parse_first_member in H as (text & m & r1 & -> & Hd & Hm & Ha); [|apply parse_stable].
  assert (Hst : (0 < String.length text)%nat) by (destruct Hm as (? & ? & ? & ? & ? & -> & _); cbn; lia).
  unfold after_member in Ha. destruct (skip_ws r1) as [|d r2] eqn:E; [done|].
  pose proof (skip_ws_length r1) as Hl. rewrite E in Hl. cbn in Hl.
  destruct (Ascii.eqb_spec d "}") as [->|].
  - simplify_eq. exists [(text, m)]. split_and!; [done|by repeat constructor; exists n|].
    intros [|k] kept Hk; [lia|]. rewrite (strip_step _ _ _ _ _ _ Hm Hd), E. cbn [List.filter snd].
    destruct (signed m); [done|]. cbn. by rewrite app_nil_r.
  - destruct (Ascii.eqb_spec d ",") as [->|]; [|done].
    destruct (parse_members n (skip_ws r2)) as [[l' r3]|] eqn:Em; [|done]. simplify_eq.
    apply IH in Em as (ps & -> & Hps & Hgo). exists ((text, m) :: ps).
    split_and!; [done|by constructor; [exists n|]|]. intros [|k] kept Hk; [lia|].
    rewrite (strip_step _ _ _ _ _ _ Hm Hd), E. cbn zeta. cbn iota.
    rewrite length_app in Hk.
    assert (Hws : forall kept, strip_members k kept r2 = strip_members k kept (skip_ws r2)).
    { intros k0. destruct k; [done|]. cbn [strip_members]. by rewrite skip_ws_idem. }
    change ("," =c? ",")%char with true. cbn iota. rewrite Hws, Hgo by (pose proof (skip_ws_length r2); lia).
    cbn [List.filter snd]. destruct (signed m); [|done]. cbn. by rewrite <- app_assoc.
Qed.

Lemma parse_object raw l : parse raw = Some (JObject l) ->
  exists s, skip_ws raw = String "{" s /\
    ((l = [] /\ exists r, skip_ws s = String "}" r) \/
     (exists n r, parse_members n (skip_ws s) = Some (l, r))).
Proof.
  unfold parse, read_value. destruct (skip_ws raw) as [|a s] eqn:Es; [done|]. set (n := (2 * _)%nat).
  destruct (parse_value (S n) (String a s)) as [[v r]|] eqn:Ev; [|done]. destruct (is_empty _); [|done].
  intros [= ->]. pose proof (proj2 (parse_value_object _ _ _ _ _ Ev) (ex_intro _ l eq_refl)) as Ea.
  apply Ascii.eqb_eq in Ea as ->. exists s. split; [done|]. cbn [parse_value] in Ev.
  rewrite Ascii.eqb_refl in Ev. destruct (skip_ws s) as [|b s1]; [done|].
  destruct (Ascii.eqb_spec b "}") as [->|]; [left; simplify_eq; eauto|right].
  destruct (parse_members n _) as [[l' r2]|] eqn:Em; [|done]. simplify_eq. eauto.
Qed.

Lemma parse_braced ps : Forall (fun p => member_of p.1 p.2) ps ->
  parse ("{" ++ join "," (fst <$> ps) ++ "}") = Some (JObject (snd <$> ps)).
Proof.
  intros Hps. destruct ps as [|p ps]; [done|]. unfold parse, read_value.
  rewrite append_cons, skip_ws_stop by done. cbn [String.append]. cbn [String.length parse_value].
  rewrite Ascii.eqb_refl. set (s := join "," (fst <$> p :: ps) ++ "}").
  assert (Hp : exists y, s = String quote y).
  { apply List.Forall_cons_iff in Hps as [Hp _]. apply starts_member in Hp as [y Hy]. unfold s.
    destruct ps; cbn [fmap list_fmap join]; rewrite Hy; eauto. }
  assert (Hj : forall n, (2 * String.length s < n)%nat -> parse_members n s = Some (snd <$> p :: ps, ""))
    by (intros n Hn; by apply parse_joined).
  clearbody s. destruct Hp as [y ->]. rewrite skip_ws_stop by done.
  change (quote =c? "}") with false. cbn iota. rewrite Hj by lia. done.
Qed.

Lemma strip_spec raw l :
  parse raw = Some (JObject l) ->
  exists w, stripUnsignedTopLevel raw = Ok w /\ parse w = Some (JObject (List.filter signed l)).
Proof.
  intros H. apply parse_object in H as (s & Hs & Hl).
  pose proof (skip_ws_length raw) as Hlen. rewrite Hs in Hlen. cbn in Hlen.
  assert (Hps : exists ps, l = snd <$> ps /\ Forall (fun p => member_of p.1 p.2) ps /\
    strip_members (S (String.length raw)) [] s = Ok (fst <$> List.filter (fun p => signed p.2) ps)).
  { assert (Hws : strip_members (S (String.length raw)) [] s = strip_members (S (String.length raw)) [] (skip_ws s))
      by (cbn [strip_members]; by rewrite skip_ws_idem).
    rewrite Hws. destruct Hl as [[-> (r & Hr)]|(n & r & Hm)].
    - exists []. split_and!; [done|constructor|]. rewrite Hr. done.
    - apply strip_members_parse in Hm as (ps & -> & Hps & Hgo). exists ps. split_and!; try done.
      rewrite Hgo; [done|]. pose proof (skip_ws_length s). lia. }
  destruct Hps as (ps & -> & Hps & Hstrip). unfold stripUnsignedTopLevel. rewrite Hs, Ascii.eqb_refl.
  cbn [negb]. rewrite Hstrip. cbn [mbind result_bind]. eexists. split; [done|].
  rewrite parse_braced; [do 2 f_equal|].
  - clear. induction ps as [|p ps IH]; [done|]. cbn. destruct (signed p.2); cbn; by rewrite IH.
  - rewrite Forall_forall in *. intros p [Hp _]%filter_In. auto.
Qed.

(** The signing bytes keep every member but the signature.  On every wire
    that parses to an object, [stripUnsignedTopLevel] succeeds, and its result
    parses to the same object without its top-level signature member: the other
    members are all there, in order, with the same keys, the same values and
    the same bytes. *)
Theorem strip_keeps_members raw l :
  parse raw = Some (JObject l) ->
  exists w, stripUnsignedTopLevel raw = Ok w /\ parse w = Some (JObject (List.filter signed l)).
Proof. apply strip_spec. Qed.

