(* ===== verification/SspWire.v ===== *)
(** * internal/ssp/envelope.go: the wires the raw guard accepts

    The raw guard against a description that does not mention its scanners:
    [well_escaped] says when the escapes of a string literal pair up,
    [string_literals] walks the literals of a text, and [rawGuard_exact] puts
    them together with the size, the encoding and the parsed object. *)
From S2P Require Import Prelude GoText GoStrconv GoTime GoJson GoJsonRead DeliveryStream SspGuard SspStrip.
Open Scope string_scope.
Open Scope Z_scope.
Open Scope snag_scope.

(** ** Well-formed escapes

    The text of a string literal in which the UTF-16 units of the escapes pair
    up: an escaped unit is outside 0xD800..0xDFFF, or it is a high surrogate
    and the escape of a low one follows it at once. *)
Inductive well_escaped : string -> Prop :=
| we_nil : well_escaped ""
| we_char a t : a <> quote -> a <> backslash -> well_escaped t -> well_escaped (String a t)
| we_simple e t : e <> "u"%char -> well_escaped t -> well_escaped (String backslash (String e t))
| we_unit h1 h2 h3 h4 u t :
    hex4 (Some (code h1)) (Some (code h2)) (Some (code h3)) (Some (code h4)) = Some u ->
    ~ (0xD800 <= u <= 0xDFFF) -> well_escaped t ->
    well_escaped (String backslash (String "u" (String h1 (String h2 (String h3 (String h4 t))))))
| we_pair h1 h2 h3 h4 l1 l2 l3 l4 u v t :
    hex4 (Some (code h1)) (Some (code h2)) (Some (code h3)) (Some (code h4)) = Some u ->
    hex4 (Some (code l1)) (Some (code l2)) (Some (code l3)) (Some (code l4)) = Some v ->
    0xD800 <= u <= 0xDBFF -> 0xDC00 <= v <= 0xDFFF -> well_escaped t ->
    well_escaped (String backslash (String "u" (String h1 (String h2 (String h3 (String h4
      (String backslash (String "u" (String l1 (String l2 (String l3 (String l4 t)))))))))))).

Lemma high_surrogate_spec u : isHighSurrogate u = true <-> 0xD800 <= u <= 0xDBFF.
Proof. unfold isHighSurrogate. rewrite andb_true_iff, !Z.leb_le. done. Qed.
Lemma low_surrogate_spec u : isLowSurrogate u = true <-> 0xDC00 <= u <= 0xDFFF.
Proof. unfold isLowSurrogate. rewrite andb_true_iff, !Z.leb_le. done. Qed.

Lemma high_not_low u : isHighSurrogate u = true -> isLowSurrogate u = false.
Proof. unfold isHighSurrogate, isLowSurrogate. intros H. bools. apply andb_false_iff. left. lia. Qed.

Lemma is_hex_value a : is_hex a = true -> is_Some (hex_value (code a)).
Proof.
  unfold is_hex, is_digit, in_range, hex_value. intros H.
  destruct (_ && _); [by eexists|]. destruct (_ && _); [by eexists|]. destruct (_ && _); [by eexists|done].
Qed.

Lemma hex4_some a b c d : is_hex a && is_hex b && is_hex c && is_hex d = true ->
  exists u, hex4 (Some (code a)) (Some (code b)) (Some (code c)) (Some (code d)) = Some u.
Proof.
  intros H. rewrite !andb_true_iff in H. destruct H as [[[Ha Hb] Hc] Hd].
  apply is_hex_value in Ha as [? Ha], Hb as [? Hb], Hc as [? Hc], Hd as [? Hd].
  unfold hex4. cbn [mbind option_bind]. rewrite Ha, Hb, Hc, Hd. eauto.
Qed.

(** The scan of a text, one escape at a time. *)
Lemma str_scan_unit h1 h2 h3 h4 s t r :
  str_scan (String backslash (String "u" (String h1 (String h2 (String h3 (String h4 s)))))) = Some (t, r) ->
  exists u t', hex4 (Some (code h1)) (Some (code h2)) (Some (code h3)) (Some (code h4)) = Some u /\
    t = String backslash (String "u" (String h1 (String h2 (String h3 (String h4 t'))))) /\
    str_scan s = Some (t', r).
Proof.
  cbn [str_scan]. change (backslash =c? quote) with false. change (backslash =c? backslash) with true.
  change (simple_escape "u") with false. cbn iota. rewrite Ascii.eqb_refl.
  destruct (_ && _) eqn:Hh; [|done]. intros H. push_inv. destruct (hex4_some _ _ _ _ Hh) as [u Hu].
  eauto 10.
Qed.

Lemma we_unit_inv h1 h2 h3 h4 u t :
  hex4 (Some (code h1)) (Some (code h2)) (Some (code h3)) (Some (code h4)) = Some u ->
  isHighSurrogate u = false ->
  well_escaped (String backslash (String "u" (String h1 (String h2 (String h3 (String h4 t)))))) <->
  isLowSurrogate u = false /\ well_escaped t.
Proof.
  intros Hu Hh. rewrite <- not_true_iff_false, low_surrogate_spec.
  rewrite <- not_true_iff_false, high_surrogate_spec in Hh.
  split; [|intros [Hl Ht]; eapply we_unit; [done| |done]; lia].
  intros H. inversion H; simplify_eq; try done; split; (done || lia).
Qed.

Lemma we_pair_inv h1 h2 h3 h4 u t :
  hex4 (Some (code h1)) (Some (code h2)) (Some (code h3)) (Some (code h4)) = Some u ->
  isHighSurrogate u = true ->
  well_escaped (String backslash (String "u" (String h1 (String h2 (String h3 (String h4 t)))))) ->
  exists l1 l2 l3 l4 v t', t = String backslash (String "u" (String l1 (String l2 (String l3 (String l4 t'))))) /\
    hex4 (Some (code l1)) (Some (code l2)) (Some (code l3)) (Some (code l4)) = Some v /\
    isLowSurrogate v = true /\ well_escaped t'.
Proof.
  intros Hu Hh%high_surrogate_spec H. inversion H; simplify_eq; try done; [lia|].
  do 6 eexists. split_and!; [done|done|by apply low_surrogate_spec|done].
Qed.

(** Surrogate escapes are accepted exactly when they pair up.  From inside a
    string literal whose text is [t] (as the scanner of [encoding/json] delimits
    it), the check reaches the closing quote exactly when every high surrogate
    escape in [t] is directly followed by a low one and no low one stands
    alone; then it continues with the rest of the wire. *)
Lemma escapes_exact s t r :
  str_scan s = Some (t, r) ->
  escapes_from true s = Ok tt <-> well_escaped t /\ escapes_from false r = Ok tt.
Proof.
  revert t r. induction s as [s IH] using string_length_ind. intros t r H.
  destruct s as [|a s1]; [done|].
  destruct (Ascii.eqb_spec a quote) as [->|Hq].
  { cbn in H. injection H as <- <-. cbn. split; [intros; by split; [constructor|]|by intros [_ ?]]. }
  destruct (Ascii.eqb_spec a backslash) as [->|Hb].
  2:{ cbn [str_scan escapes_from negb] in *.
      rewrite (proj2 (Ascii.eqb_neq a quote)), (proj2 (Ascii.eqb_neq a backslash)) in * by done.
      destruct (_ <? _); [done|]. push_inv. rewrite (IH s1 ltac:(cbn; lia) _ _ H).
      split; [intros [? ?]; by split; [constructor|]|]. intros [Hw ?]. split; [|done]. by inversion Hw; simplify_eq. }
  destruct s1 as [|e s2]; [done|]. destruct (Ascii.eqb_spec e "u") as [->|He].
  2:{ cbn [str_scan escapes_from negb] in *.
      change (backslash =c? quote) with false in *. change (backslash =c? backslash) with true in *.
      rewrite (proj2 (Ascii.eqb_neq e "u")) in * by done. cbn iota in *.
      destruct (simple_escape e); [|done]. push_inv. cbn [negb]. rewrite (IH s2 ltac:(cbn; lia) _ _ H).
      split; [intros [? ?]; by split; [constructor|]|]. intros [Hw ?]. split; [|done]. by inversion Hw; simplify_eq. }
  destruct s2 as [|h1 [|h2 [|h3 [|h4 s5]]]]; try done.
  apply str_scan_unit in H as (u & t5 & Hu & -> & H).
  cbn [escapes_from negb readHex4]. change (backslash =c? quote) with false.
  change (backslash =c? backslash) with true. rewrite Ascii.eqb_refl. cbn [negb].
  cbn iota. rewrite Hu. cbn [of_option mbind result_bind].
  destruct (isHighSurrogate u) eqn:Hhigh.
  2:{ rewrite (we_unit_inv _ _ _ _ _ _ Hu Hhigh). destruct (isLowSurrogate u); [split; [done|naive_solver]|].
      rewrite (IH s5 ltac:(cbn; lia) _ _ H). naive_solver. }
  rewrite (high_not_low _ Hhigh). split.
  - intros Hesc. destruct s5 as [|b [|w [|g1 [|g2 [|g3 [|g4 r11]]]]]]; try done.
    destruct (Ascii.eqb_spec b backslash) as [->|]; [|done]. destruct (Ascii.eqb_spec w "u") as [->|]; [|done].
    apply str_scan_unit in H as (v & t11 & Hv & -> & H). cbn [negb orb] in Hesc.
    unfold readHex4 in Hesc. rewrite Hv in Hesc. cbn [of_option mbind result_bind] in Hesc.
    destruct (isLowSurrogate v) eqn:Hlow; [|done]. cbn [negb] in Hesc.
    apply (IH r11 ltac:(cbn; lia) _ _ H) in Hesc as [Hw Hr]. split; [|done].
    by eapply we_pair; [done|done|apply high_surrogate_spec|apply low_surrogate_spec|].
  - intros [Hw Hr]. destruct (we_pair_inv _ _ _ _ _ _ Hu Hhigh Hw) as (l1 & l2 & l3 & l4 & v & t' & -> & Hv & Hlow & Ht).
    pose proof (str_scan_split _ _ _ H) as Hs5. cbn in Hs5. subst s5.
    apply str_scan_unit in H as (v' & t11 & _ & E & H). injection E as <-.
    change (backslash =c? backslash) with true. change ("u" =c? "u")%char with true. cbn [negb orb].
    unfold readHex4. rewrite Hv. cbn [of_option mbind result_bind]. rewrite Hlow. cbn [negb].
    refine (proj2 (IH (t' ++ String quote r) _ _ _ H) _); [cbn; lia|by split].
Qed.

(** ** The literals of a text

    Every quote met outside a literal opens one, which [encoding/json] delimits
    and whose text satisfies [P]; the other bytes stand between literals. *)
Inductive string_literals (P : string -> Prop) : string -> Prop :=
| sl_end : string_literals P ""
| sl_byte a s : a <> quote -> string_literals P s -> string_literals P (String a s)
| sl_string s t r : str_scan s = Some (t, r) -> P t -> string_literals P r ->
    string_literals P (String quote s).

Notation delimited_literals := (string_literals (fun _ => True)).

Lemma sl_byte_iff P a s : a <> quote -> string_literals P (String a s) <-> string_literals P s.
Proof. intros Ha. split; [|by constructor]. intros H. by inversion H; simplify_eq. Qed.

Lemma sl_string_iff (P : string -> Prop) s t r : str_scan s = Some (t, r) ->
  string_literals P (String quote s) <-> P t /\ string_literals P r.
Proof.
  intros Hs. split; [|intros [? ?]; by econstructor].
  intros H. by inversion H; simplify_eq.
Qed.

(** On a text whose literals are delimited, the loop over the raw bytes finds
    the literals and accepts exactly the well-escaped ones. *)
Lemma validateStringEscapes_spec s : delimited_literals s ->
  validateStringEscapes s = Ok tt <-> string_literals well_escaped s.
Proof.
  unfold validateStringEscapes. induction 1 as [|a s Ha _ IH|s t r Hs _ _ IH].
  - split; [constructor|done].
  - rewrite (sl_byte_iff _ _ _ Ha), <- IH. cbn [escapes_from negb].
    by rewrite (proj2 (Ascii.eqb_neq a quote)).
  - rewrite (sl_string_iff _ _ _ _ Hs), <- IH. cbn [escapes_from negb]. rewrite Ascii.eqb_refl.
    by apply escapes_exact.
Qed.

(** ** The literals of a parsed text *)
Lemma sl_chars p t r : (forall a, p a = true -> a <> quote) -> all_chars p t = true ->
  delimited_literals r -> delimited_literals (t ++ r).
Proof.
  intros Hp. induction t as [|a t IH]; [done|]. cbn. intros [Ha Ht]%andb_true_iff Hr.
  constructor; auto.
Qed.

Lemma sl_ws s : delimited_literals (skip_ws s) -> delimited_literals s.
Proof.
  induction s as [|a s IH]; [done|]. cbn. destruct (is_ws a) eqn:E; [|done].
  intros H. constructor; [|auto]. by intros ->.
Qed.

Lemma sl_literal s v r : literal_scan s = Some (v, r) -> delimited_literals r -> delimited_literals s.
Proof.
  intros (t & -> & _ & Hc & _)%literal_scan_stable. apply (sl_chars lit_char); [|done]. by intros a Ha ->.
Qed.

Lemma sl_str s t r : str_scan s = Some (t, r) -> delimited_literals r -> delimited_literals (String quote s).
Proof. intros Hs Hr. by eapply sl_string. Qed.

(** After white space, a byte that is not a quote. *)
Lemma sl_skip s a r : skip_ws s = String a r -> a <> quote -> delimited_literals r -> delimited_literals s.
Proof. intros Hs Ha Hr. apply sl_ws. rewrite Hs. by constructor. Qed.

Ltac byte_is a c := destruct (Ascii.eqb_spec a c) as [->|].

Lemma sl_parse n :
  (forall s v r, parse_value n s = Some (v, r) -> delimited_literals r -> delimited_literals s) /\
  (forall s l r, parse_elems n s = Some (l, r) -> delimited_literals r -> delimited_literals s) /\
  (forall s l r, parse_members n s = Some (l, r) -> delimited_literals r -> delimited_literals s).
Proof.
  induction n as [|n (IHv & IHe & IHm)]; [done|].
  split_and!; intros s v r H Hr; cbn [parse_value parse_elems parse_members] in H.
  - destruct s as [|a s]; [done|]. byte_is a "{"%char.
    { constructor; [done|]. destruct (skip_ws s) as [|b s1] eqn:E; [done|]. byte_is b "}"%char.
      - simplify_eq. by eapply sl_skip.
      - destruct (parse_members n _) as [[l r2]|] eqn:Em; [|done]. simplify_eq.
        apply sl_ws. rewrite E. by eapply IHm. }
    byte_is a "["%char.
    { constructor; [done|]. destruct (skip_ws s) as [|b s1] eqn:E; [done|]. byte_is b "]"%char.
      - simplify_eq. by eapply sl_skip.
      - destruct (parse_elems n _) as [[l r2]|] eqn:Em; [|done]. simplify_eq.
        apply sl_ws. rewrite E. by eapply IHe. }
    byte_is a quote; [|by eapply sl_literal].
    destruct (str_scan s) as [[t r']|] eqn:Es; [|done]. simplify_eq. by eapply sl_str.
  - destruct (parse_value n s) as [[w r1]|] eqn:Ev; [|done]. apply (IHv _ _ _ Ev).
    destruct (skip_ws r1) as [|b r2] eqn:E; [done|]. byte_is b "]"%char; [simplify_eq; by eapply sl_skip|].
    byte_is b ","%char; [|done]. destruct (parse_elems n _) as [[l r3]|] eqn:Ee; [|done]. simplify_eq.
    eapply sl_skip; [done..|]. apply sl_ws. by eapply IHe.
  - destruct s as [|a s]; [done|]. byte_is a quote; [|done].
    destruct (str_scan s) as [[t r1]|] eqn:Es; [|done]. apply (sl_str _ _ _ Es).
    destruct (skip_ws r1) as [|b r2] eqn:E1; [done|]. byte_is b ":"%char; [|done].
    eapply sl_skip; [done..|]. apply sl_ws.
    destruct (parse_value n _) as [[w r3]|] eqn:Ev; [|done]. apply (IHv _ _ _ Ev).
    destruct (skip_ws r3) as [|d r4] eqn:E3; [done|]. byte_is d "}"%char; [simplify_eq; by eapply sl_skip|].
    byte_is d ","%char; [|done]. destruct (parse_members n _) as [[l r5]|] eqn:Em; [|done]. simplify_eq.
    eapply sl_skip; [done..|]. apply sl_ws. by eapply IHm.
Qed.

Lemma parse_delimited s v : parse s = Some v -> delimited_literals s.
Proof.
  unfold parse, read_value. destruct (parse_value _ _) as [[w r]|] eqn:E; [|done].
  destruct (skip_ws r) eqn:Er; [|done]. intros _. apply sl_ws, (proj1 (sl_parse _) _ _ _ E), sl_ws.
  rewrite Er. constructor.
Qed.

(** C31: the raw guard accepts exactly the bounded, well-formed wires.  A wire
    passes when it has at most 64 KiB of valid UTF-8; in every string literal
    of it, key or value, each escaped high surrogate is directly followed by an
    escaped low one and no escaped low surrogate stands alone; and it parses to
    one JSON object, with nothing after it, in which no object at any level
    repeats a key, containers are nested at most 32 deep and numbers fit a
    float64.  And only then. *)
Theorem rawGuard_exact raw :
  rawGuard raw = Ok tt <->
  len raw <= 65536 /\ utf8_valid raw = true /\ string_literals well_escaped raw /\
  exists l, parse raw = Some (JObject l) /\ guard_ok 0 (JObject l) = true.
Proof.
  rewrite rawGuard_spec. split.
  - intros (H1 & H2 & H3 & l & Hl & Hg). split_and!; eauto.
    by apply validateStringEscapes_spec; [eapply parse_delimited|].
  - intros (H1 & H2 & H3 & l & Hl & Hg). split_and!; eauto.
    by apply validateStringEscapes_spec; [eapply parse_delimited|].
Qed.
