(* ===== verification/SspTheorems.v ===== *)
(** * internal/ssp: what verification and commitments establish *)
From stdpp Require Import gmap.
From S2P Require Import Prelude GoText GoStrconv GoTime GoJson GoJsonRead GoBase64 Sha256 GoUtf8 GoJsonText SspGuard SspBody SspRegistry SspEnvelope SspStrip.
Open Scope string_scope.
Open Scope Z_scope.
Open Scope snag_scope.

(** ** Parsed members read back from their own bytes *)
Definition text_of (raw : string) (v : json) : Prop :=
  starts raw /\ exists n, parse_value n raw = Some (v, "").

Lemma parse_members_texts n : forall s l r, parse_members n s = Some (l, r) ->
  Forall (fun m => text_of m.1.2 m.2) l /\ exists y, s = y ++ String "}" r.
Proof.
  induction n as [|n IH]; [done|]. intros s l r H.
  apply parse_first_member in H as (text & m & r1 & -> & Hd & Hm & Ha); [|apply parse_stable].
  assert (Ht : text_of m.1.2 m.2).
  { destruct Hm as (t & w1 & w2 & x & v & -> & _ & _ & Hx & _ & Hv & ->). cbn. split; [done|].
    exists n. specialize (Hv "" I). by rewrite app_string_nil_r in Hv. }
  unfold after_member in Ha. destruct (skip_ws r1) as [|d r2] eqn:E; [done|]. open_ws E. subst r1.
  destruct (Ascii.eqb_spec d "}") as [->|].
  - simplify_eq. split; [constructor; [done|apply Forall_nil]|]. exists (text ++ w). by rewrite <- app_string_assoc.
  - destruct (d =c? ","); [|done]. destruct (parse_members n _) as [[l' r3]|] eqn:Em; [|done]. simplify_eq.
    apply IH in Em as [Hl (y & Hy)]. split; [by constructor|].
    exists (text ++ w ++ String d (ws_prefix r2 ++ y)). rewrite (ws_prefix_split r2), Hy at 1.
    by repeat (rewrite <- app_string_assoc; cbn [append]).
Qed.

Lemma is_ws_space a : is_ws a = true -> space_byte a = true.
Proof. destruct a as [[] [] [] [] [] [] [] []]; vm_compute; done. Qed.

Lemma ws_space w : all_chars is_ws w = true -> all_chars space_byte w = true.
Proof. apply all_chars_weaken, is_ws_space. Qed.

Lemma lit_plain t : all_chars lit_char t = true -> all_chars plain_byte t = true.
Proof. apply all_chars_weaken. intros a. destruct a as [[] [] [] [] [] [] [] []]; vm_compute; done. Qed.

Lemma all_ws_rest r : is_empty (skip_ws r) = true -> all_chars is_ws r = true.
Proof.
  induction r as [|a r IH]; [done|]. cbn [skip_ws all_chars]. destruct (is_ws a); [auto|done].
Qed.

Lemma parse_text raw v : text_of raw v -> parse raw = Some v.
Proof.
  intros [Hs (n & Hn)]. unfold parse, read_value. destruct raw as [|a raw]; [done|].
  rewrite skip_ws_stop by done. rewrite (parse_value_enough n _ _ _ _ Hn); [done|lia].
Qed.

(** An object is read the same from the trimmed text. *)
Lemma exactObject_spec raw l : parse raw = Some (JObject l) ->
  exactObject raw = Ok l /\ Forall (fun m => text_of m.1.2 m.2) l.
Proof.
  unfold parse, read_value. pose proof (ws_prefix_split raw) as Hsp. pose proof (all_ws_prefix raw) as Hw.
  destruct (skip_ws raw) as [|a s] eqn:Es; [done|]. set (n := S _).
  destruct (parse_value n (String a s)) as [[v r]|] eqn:Ev; [|done].
  destruct (is_empty (skip_ws r)) eqn:Er; [|done]. intros [= ->]. apply all_ws_rest in Er.
  pose proof (proj2 (parse_value_object _ _ _ _ _ Ev) (ex_intro _ l eq_refl)) as Ea.
  apply Ascii.eqb_eq in Ea as ->.
  assert (Hl : Forall (fun m => text_of m.1.2 m.2) l /\ exists y, String "{" s = y ++ String "}" r).
  { unfold n in Ev. cbn [parse_value] in Ev. rewrite Ascii.eqb_refl in Ev. pose proof (ws_prefix_split s) as Hs.
    destruct (skip_ws s) as [|b s1]; [done|]. destruct (Ascii.eqb_spec b "}") as [->|].
    - simplify_eq. split; [apply Forall_nil|]. exists (String "{" (ws_prefix s)). cbn [append]. by rewrite Hs at 1.
    - destruct (parse_members _ _) as [[l' r2]|] eqn:Em; [|done]. simplify_eq.
      apply parse_members_texts in Em as [Hl (y & Hy)]. split; [done|].
      exists (String "{" (ws_prefix s ++ y)). cbn [append]. rewrite <- app_string_assoc, <- Hy. by rewrite Hs at 1. }
  destruct Hl as [Hl (y & Hy)]. split; [|done].
  destruct (proj1 (parse_stable n) _ _ _ Ev) as (x & Hx & Hst & Hp).
  assert (Hxy : x = y ++ String "}" "").
  { apply (f_equal (fun z => before z r)) in Hx. rewrite before_app, Hy in Hx. rewrite <- Hx.
    change (y ++ String "}" r) with (y ++ (String "}" "" ++ r)). by rewrite app_string_assoc, before_app. }
  destruct x as [|c x]; [done|]. cbn [append] in Hx. injection Hx as <- Hs.
  assert (HT : TrimSpace raw = String "{" x).
  { rewrite Hsp, Hs. change (String "{" (x ++ r)) with (String "{" x ++ r).
    by apply (TrimSpace_between _ _ _ "}" y); [apply ws_space..| | | ]. }
  unfold exactObject. rewrite HT, Ascii.eqb_refl. cbn [negb].
  rewrite (parse_text (String "{" x) (JObject l)); [done|]. split; [done|]. exists n.
  specialize (Hp "" I). by rewrite app_string_nil_r in Hp.
Qed.
(** ** Decoding against the parsed members *)

(** The members an envelope is decoded from. *)
Definition decoded_from (l : members) (e : Envelope) : Prop :=
  (forall name v, In (name, v) [("schema", Schema e); ("id", ID e); ("emitted_at", EmittedAt e);
       ("expires_at", ExpiresAt e); ("author_key_id", AuthorKeyID e);
       ("signature_alg", SignatureAlg e); ("signature", Signature e)] ->
     exists raw, In (name, raw, JString v) l) /\
  (forall name v, In (name, v) [("routing_epoch", RoutingEpoch e); ("registry_revision", RegistryRevision e)] ->
     0 <= v <= maxSafeInteger /\
     exists raw t, In (name, raw, JNumber t) l /\ ParseInt t = Some v) /\
  (exists v, In ("body", Body e, v) l) /\
  (if Schema e =s? SspFamilyRegistry
   then CaseID e = "" /\ RegistryHash e = "" /\ ~ In "case_id" (keys_of l) /\ ~ In "registry_hash" (keys_of l)
   else (exists raw, In ("case_id", raw, JString (CaseID e)) l) /\
        (exists raw, In ("registry_hash", raw, JString (RegistryHash e)) l)) /\
  NoDup (keys_of l) /\
  (forall k, In k (keys_of l) -> In k ("case_id" :: "registry_hash" :: envelopeCommonRequiredMembers)).

(** ** Required members *)
Lemma last_member_In l k raw v : last_member l k = Some (raw, v) -> In (k, raw, v) l.
Proof.
  unfold last_member. destruct (List.filter _ (rev l)) as [|[[k' raw'] v'] f] eqn:E; [done|]. cbn. intros [= <- <-].
  assert (Hm : In (k', raw', v') (List.filter (fun m : string * string * json => m.1.1 =s? k) (rev l)))
    by (rewrite E; by left).
  apply filter_In in Hm as [Hm Hk]. cbn in Hk. apply String.eqb_eq in Hk as ->. by apply in_rev.
Qed.

Lemma raw_member_In l k raw : raw_member l k = Some raw -> exists v, In (k, raw, v) l.
Proof.
  unfold raw_member. destruct (last_member l k) as [[raw' v]|] eqn:E; [|done]. cbn. intros [= <-].
  exists v. by apply last_member_In.
Qed.

Lemma raw_member_None l k : raw_member l k = None <-> ~ In k (keys_of l).
Proof.
  unfold raw_member, last_member. split.
  - destruct (List.filter _ (rev l)) as [|m f] eqn:E; [|done]. intros _ (m & <- & Hm)%in_map_iff.
    assert (Hin : In m (List.filter (fun x => x.1.1 =s? m.1.1) (rev l)))
      by (apply filter_In; split; [by apply -> in_rev|apply String.eqb_refl]).
    rewrite E in Hin. done.
  - intros Hk. destruct (List.filter _ (rev l)) as [|m f] eqn:E; [done|]. exfalso. apply Hk.
    assert (Hm : In m (List.filter (fun x => x.1.1 =s? k) (rev l))) by (rewrite E; by left).
    apply filter_In in Hm as [Hm <-%String.eqb_eq]. apply in_map_iff. exists m. split; [done|by apply in_rev].
Qed.

Lemma text_In (l : members) k raw v : Forall (fun m => text_of m.1.2 m.2) l -> In (k, raw, v) l -> text_of raw v.
Proof. rewrite Forall_forall. intros H Hin. exact (H _ Hin). Qed.

Lemma text_null raw : text_of raw JNull -> raw = "null".
Proof.
  intros [Hs (n & Hn)]. destruct n as [|n]; [done|]. destruct raw as [|a raw]; [done|]. cbn [parse_value] in Hn.
  destruct (a =c? "{"); [by repeat case_match|]. destruct (a =c? "["); [by repeat case_match|].
  destruct (a =c? quote); [by repeat case_match|]. unfold literal_scan in Hn.
  destruct (strip_prefix "null" _) as [r|] eqn:E.
  - injection Hn as ->. by apply strip_prefix_split in E.
  - by repeat case_match.
Qed.

Lemma text_number raw t : text_of raw (JNumber t) -> raw = t /\ all_chars lit_char raw = true.
Proof.
  intros [Hs (n & Hn)]. destruct n as [|n]; [done|]. destruct raw as [|a raw]; [done|]. cbn [parse_value] in Hn.
  destruct (a =c? "{"); [by repeat case_match|]. destruct (a =c? "["); [by repeat case_match|].
  destruct (a =c? quote); [by repeat case_match|]. unfold literal_scan in Hn.
  destruct (strip_prefix "null" _); [done|]. destruct (strip_prefix "true" _); [done|].
  destruct (strip_prefix "false" _); [done|]. destruct (number_scan _) as [[t' r]|] eqn:E; [|done].
  injection Hn as -> ->. pose proof (number_scan_split _ _ _ E) as [H1 _]. rewrite app_string_nil_r in H1.
  rewrite H1. split; [done|]. by apply number_scan_stable in E as [? _].
Qed.

Lemma requiredString_In (l : members) k v : Forall (fun m => text_of m.1.2 m.2) l -> requiredString l k = Ok v ->
  exists raw, In (k, raw, JString v) l.
Proof.
  intros Hl. unfold requiredString. destruct (raw_member l k) as [raw|] eqn:E; [|done].
  apply raw_member_In in E as [w Hw]. pose proof (text_In _ _ _ _ Hl Hw) as Ht.
  destruct (TrimSpace raw =s? "null") eqn:En; [done|]. unfold unmarshal_string. rewrite (parse_text _ _ Ht).
  destruct w; try done; [|cbn; intros [= <-]; eauto].
  apply text_null in Ht as ->. done.
Qed.

(** The first byte of a value is not a space. *)
Lemma value_byte_plain a : first_byte_kind a <> jsonInvalid -> plain_byte a = true.
Proof. destruct a as [[] [] [] [] [] [] [] []]; vm_compute; done. Qed.

Lemma digits_value_nonneg s : forall acc v, 0 <= acc -> digits_value acc s = Some v -> 0 <= v.
Proof.
  induction s as [|a s IH]; intros acc v Ha; cbn; [by intros [= <-]|].
  destruct (is_digit a) eqn:E; [|done]. apply IH. unfold is_digit, in_range in E. bools. lia.
Qed.

Lemma pattern_nonneg t v : integer_pattern t = true -> ParseInt t = Some v -> 0 <= v.
Proof.
  unfold integer_pattern. rewrite !orb_true_iff, !String.eqb_eq. intros [[-> | ->]|H]; [by intros [= <-]..|].
  destruct t as [|a t]; [done|]. apply andb_true_iff in H as [Ha _].
  assert (Hp : ParseInt (String a t) = match ParseUint (String a t) with
    | Some v => if v <? 2 ^ 63 then Some v else None | None => None end)
    by (clear -Ha; revert Ha; destruct a as [[] [] [] [] [] [] [] []]; cbn; done).
  rewrite Hp. unfold ParseUint. cbn [is_empty]. destruct (digits_value 0 _) as [w|] eqn:E; [|done].
  apply digits_value_nonneg in E; [|lia]. repeat case_match; naive_solver.
Qed.

Lemma pattern_start a t : integer_pattern (String a t) = true -> (a =c? "-") || is_digit a = true.
Proof.
  unfold integer_pattern. rewrite !orb_true_iff, !String.eqb_eq. intros [[[= -> _]|[= -> _]]|H]; [by right|by left|right].
  apply andb_true_iff in H as [Ha _]. unfold is_digit, in_range in *. bools. apply andb_true_iff. split; apply Z.leb_le; lia.
Qed.

Lemma requiredInteger_In (l : members) k v : Forall (fun m => text_of m.1.2 m.2) l -> requiredNonNegativeInteger l k = Ok v ->
  0 <= v <= maxSafeInteger /\ exists raw t, In (k, raw, JNumber t) l /\ ParseInt t = Some v.
Proof.
  intros Hl. unfold requiredNonNegativeInteger. destruct (raw_member l k) as [raw|] eqn:E; [|done].
  apply raw_member_In in E as [w Hw]. pose proof (text_In _ _ _ _ Hl Hw) as Ht.
  destruct (TrimSpace raw =s? "null") eqn:En; [done|].
  destruct (integer_pattern (TrimSpace raw)) eqn:Ep; [|done]. cbn [negb].
  destruct (ParseInt (TrimSpace raw)) as [n|] eqn:Ei; [|done].
  destruct (Z.ltb_spec maxSafeInteger n); [done|]. intros [= ->].
  pose proof (pattern_nonneg _ _ Ep Ei). split; [lia|]. exists raw.
  assert (Hk : kind_of w = jsonNumber).
  { destruct Ht as [Hs (m & Hm)]. destruct raw as [|a raw]; [done|]. apply parse_value_kind in Hm as [_ Hk].
    assert (Ha : plain_byte a = true) by (apply value_byte_plain; rewrite Hk; by destruct w).
    destruct (TrimSpace_first a raw Ha) as [t Ht]. rewrite Ht in Ep. rewrite <- Hk.
    apply number_byte. by eapply pattern_start. }
  destruct w; try done. exists text. apply text_number in Ht as [-> Hc].
  rewrite TrimSpace_plain in Ei by by apply lit_plain. done.
Qed.

Lemma requireExactMembers_keys l allowed req u : requireExactMembers l allowed req = Ok u ->
  (forall k, In k (keys_of l) -> In k allowed) /\ (forall k, In k req -> In k (keys_of l)).
Proof.
  unfold requireExactMembers. intros H. inv_result. destruct u. apply first_err_ok in H. split.
  - intros k (m & <- & Hm)%in_map_iff. apply list_elem_of_In, mem_spec.
    destruct (mem m.1.1 allowed) eqn:Em; [done|]. rewrite <- not_true_iff_false, existsb_exists in E.
    exfalso. apply E. exists m. by rewrite Em.
  - intros k Hk. rewrite Forall_forall in H. specialize (H k Hk). cbn beta in H.
    destruct (raw_member l k) as [raw|] eqn:Er; [|done]. apply raw_member_In in Er as [v Hv].
    apply in_map_iff. by exists (k, raw, v).
Qed.

Lemma family_members_spec l schema req : family_members l schema = Ok req ->
  (forall k, In k req -> In k ("case_id" :: "registry_hash" :: envelopeCommonRequiredMembers)) /\
  (forall k, In k envelopeCommonRequiredMembers -> In k req) /\
  (if schema =s? SspFamilyRegistry then req = envelopeCommonRequiredMembers else In "case_id" req /\ In "registry_hash" req).
Proof.
  unfold family_members. destruct ((schema =s? SspFamilyCase) || (schema =s? SspFamilyAdvice)) eqn:E.
  - intros [= <-]. split_and!.
    + intros k Hk. cbn [In envelopeCommonRequiredMembers] in *. tauto.
    + intros k Hk. cbn [In envelopeCommonRequiredMembers] in *. tauto.
    + destruct (String.eqb_spec schema SspFamilyRegistry) as [->|]; [done|]. cbn [In]. tauto.
  - destruct (schema =s? SspFamilyRegistry) eqn:Er; [|done]. intros H. inv_result.
    split_and!; try done. intros k Hk. by do 2 right.
Qed.

(** Strict decoding: the envelope is exactly what the wire's members say. *)
Lemma decodeStrictEnvelope_spec raw e : decodeStrictEnvelope raw = Ok e ->
  exists l, parse raw = Some (JObject l) /\ decoded_from l e.
Proof.
  unfold decodeStrictEnvelope. intros H.
  destruct (rawGuard raw) as [[]|] eqn:Hg; [|done]. cbn [mbind result_bind] in H.
  apply rawGuard_spec in Hg as (_ & _ & _ & l & Hl & Hg). exists l. split; [done|].
  destruct (exactObject_spec _ _ Hl) as [Hx Ht]. rewrite Hx in H. cbn [mbind result_bind] in H.
  assert (Hn : NoDup (keys_of l)) by (cbn in Hg; by bools).
  inv_result. destruct a10 as [cid rh]. inv_result.
  pose proof (family_members_spec _ _ _ E0) as (Hf1 & Hf2 & Hf3).
  pose proof (requireExactMembers_keys _ _ _ _ E1) as (Hk1 & Hk2).
  unfold decoded_from. cbn [Schema ID EmittedAt ExpiresAt AuthorKeyID SignatureAlg Signature RoutingEpoch RegistryRevision Body CaseID RegistryHash].
  split_and!.
  - intros name v Hin. cbn [In] in Hin.
    repeat (destruct Hin as [[= <- <-]|Hin]; [by eapply requiredString_In|]). done.
  - intros name v Hin. cbn [In] in Hin.
    repeat (destruct Hin as [[= <- <-]|Hin]; [by eapply requiredInteger_In|]). done.
  - assert (Hb : In "body" (keys_of l)) by (apply Hk2, Hf2; cbn; tauto).
    destruct (raw_member l "body") as [b|] eqn:Eb; [by apply raw_member_In in Eb|].
    by rewrite raw_member_None in Eb.
  - destruct (_ =s? SspFamilyRegistry) eqn:Er; cbn [negb] in *; inv_result.
    + split_and!; try done; intros Hin%Hk1; subst; cbn in Hin; naive_solver.
    + split; by eapply requiredString_In.
  - done.
  - auto.
Qed.

(** ** Validity over time *)

(** The window in which an envelope is live. *)
Definition live (e : Envelope) (now : Z) : Prop :=
  exists em ex, ParseTimestamp (EmittedAt e) = Some em /\ ParseTimestamp (ExpiresAt e) = Some ex /\ em <= now < ex.

(** Everything [Validate] asks that does not depend on the instant. *)
Definition well_formed (e : Envelope) : Prop :=
  known_family (Schema e) = true /\ validOpaqueID (ID e) = true /\ validOpaqueID (AuthorKeyID e) = true /\
  SignatureAlg e = "ed25519" /\ len (Body e) <> 0 /\ check_shape e = Ok tt /\
  0 <= RoutingEpoch e <= maxSafeInteger /\ 0 <= RegistryRevision e <= maxSafeInteger /\
  (Schema e <> SspFamilyRegistry -> sha256_pattern (RegistryHash e) = true) /\
  validateNumbers (Body e) = Ok tt /\ validateBody e = Ok tt.

Lemma Validate_exact e now : Validate e now = Ok tt <-> well_formed e /\ live e now.
Proof.
  unfold Validate, well_formed, live. repeat (progress chain). rewrite !orb_false_iff, !negb_false_iff.
  rewrite String.eqb_eq, Z.eqb_neq.
  assert (Ht : forall em ex P, ParseTimestamp (EmittedAt e) = em -> ParseTimestamp (ExpiresAt e) = ex ->
    ((emitted ← of_option (ErrSsp "invalid emitted_at") em;
      expires ← of_option (ErrSsp "invalid expires_at") ex;
      reject (now <? emitted) (ErrSsp "emitted_at is in the future");;
      reject (expires <=? now) ErrExpiredEnvelope;;
      reject (expires <=? emitted) (ErrSsp "invalid time range");; P) = Ok tt <->
     P = Ok tt /\ exists a b, em = Some a /\ ex = Some b /\ a <= now < b)).
  { intros em ex P _ _. destruct em as [a|]; cbn [of_option mbind result_bind]; [|naive_solver].
    destruct ex as [b|]; cbn [of_option mbind result_bind]; [|naive_solver]. repeat (progress chain).
    rewrite Z.ltb_ge, !Z.leb_gt. split; [intros (? & ? & ? & ?); naive_solver|].
    intros (? & x & y & [= <-] & [= <-] & ? & ?). split_and!; (done || lia). }
  rewrite (Ht _ _ _ eq_refl eq_refl). clear Ht. repeat (progress chain). rewrite !orb_false_iff, !Z.ltb_ge.
  assert (Hh : (Schema e <>s? SspFamilyRegistry) && negb (sha256_pattern (RegistryHash e)) = false <->
    (Schema e <> SspFamilyRegistry -> sha256_pattern (RegistryHash e) = true)).
  { destruct (String.eqb_spec (Schema e) SspFamilyRegistry); cbn [negb andb]; [naive_solver|].
    rewrite negb_false_iff. naive_solver. }
  rewrite Hh. tauto.
Qed.

(** ** Authenticity *)
Section Authentic.
Context `{Jcs} `{Ed25519}.

Lemma decodeAndValidate_spec raw now e : decodeAndValidate raw now = Ok e <->
  decodeStrictEnvelope raw = Ok e /\ Validate e now = Ok tt.
Proof.
  unfold decodeAndValidate, invalidEnvelope. destruct (decodeStrictEnvelope raw) as [e'|]; cbn; [|naive_solver].
  destruct (Validate e' now) as [[]|] eqn:Ev; cbn; naive_solver congruence.
Qed.

Lemma signing_bytes_spec raw l c : parse raw = Some (JObject l) -> signing_bytes raw = Ok c ->
  exists w, parse w = Some (JObject (List.filter signed l)) /\ rawGuard w = Ok tt /\ jcs_transform w = Some c.
Proof.
  intros Hl Hc. destruct (strip_spec _ _ Hl) as (w & Hw & Hp). exists w. split; [done|].
  unfold signing_bytes, invalidEnvelope in Hc. rewrite Hw in Hc. cbn [mbind result_bind] in Hc.
  unfold canonical in Hc. destruct (rawGuard w) as [[]|]; [|done]. cbn in Hc.
  destruct (jcs_transform w); [|done]. cbn in Hc. by injection Hc as ->.
Qed.

Lemma Verify_exact raw keys now e : Verify raw keys now = Ok e <->
  decodeAndValidate raw now = Ok e /\
  exists sig c key, Signature e = b64_encode sig /\ len sig = SignatureSize /\ signing_bytes raw = Ok c /\
    keys !! AuthorKeyID e = Some key /\ verifying_is_zero key = false /\
    ed25519_verify (publicKey key) c sig = true.
Proof.
  unfold Verify. destruct (decodeAndValidate raw now) as [e'|]; cbn [mbind result_bind]; [|naive_solver].
  transitivity (e' = e /\ exists sig c key, DecodeCanonicalBase64 (Signature e') SignatureSize = Ok sig /\
    signing_bytes raw = Ok c /\ keys !! AuthorKeyID e' = Some key /\ verifying_is_zero key = false /\
    ed25519_verify (publicKey key) c sig = true).
  - destruct (DecodeCanonicalBase64 _ _) as [sig|]; cbn [mbind result_bind]; [|naive_solver].
    destruct (signing_bytes raw) as [c|]; cbn [mbind result_bind]; [|naive_solver].
    destruct (keys !! AuthorKeyID e') as [key|]; [|naive_solver]. unfold verifying_public.
    destruct (verifying_is_zero key) eqn:Ez; [naive_solver congruence|].
    destruct (ed25519_verify (publicKey key) c sig) eqn:Ev; cbn [negb]; naive_solver congruence.
  - setoid_rewrite canonical_base64_spec. naive_solver.
Qed.

(** C28: whatever [Verify] accepts is authentic and live.  The envelope is
    decoded from the members of the wire, no member twice and none unknown; it
    is well-formed for its family and its window contains the instant of the
    check; its signature is the canonical text of 64 bytes that verify, under
    the key registered for exactly the author it names, over the
    canonicalization of the object that consists of all its other members. *)
Theorem verify_authentic raw keys now e :
  Verify raw keys now = Ok e ->
  exists l w c sig key,
    parse raw = Some (JObject l) /\ decoded_from l e /\ well_formed e /\ live e now /\
    parse w = Some (JObject (List.filter signed l)) /\ jcs_transform w = Some c /\
    Signature e = b64_encode sig /\ len sig = SignatureSize /\
    keys !! AuthorKeyID e = Some key /\ ed25519_verify (publicKey key) c sig = true.
Proof.
  intros ([Hd Hv]%decodeAndValidate_spec & sig & c & key & Hs & Hlen & Hc & Hk & _ & Hver)%Verify_exact.
  apply decodeStrictEnvelope_spec in Hd as (l & Hl & Hd). apply Validate_exact in Hv as [Hw Hlive].
  destruct (signing_bytes_spec _ _ _ Hl Hc) as (w & Hp & _ & Hj). exists l, w, c, sig, key. by split_and!.
Qed.

Lemma EnvelopeCommitment_exact raw now d : EnvelopeCommitment raw now = Ok d <->
  exists e c, decodeAndValidate raw now = Ok e /\ signing_bytes raw = Ok c /\ d = sha256_text c.
Proof.
  unfold EnvelopeCommitment. destruct (decodeAndValidate raw now) as [e|]; cbn [mbind result_bind]; [|naive_solver].
  destruct (signing_bytes raw) as [c|]; cbn [mbind result_bind]; naive_solver.
Qed.

Lemma VerifyRegistry_exact raw author key now v : VerifyRegistry raw author key now = Ok v <->
  exists e d, author <> "" /\ Verify raw {[author := key]} now = Ok e /\ Schema e = SspFamilyRegistry /\
    EnvelopeCommitment raw now = Ok d /\ v = mkVerified true raw e d author key now.
Proof.
  unfold VerifyRegistry. split.
  - intros Hv. inv_result. bools. eauto 10.
  - intros (e & d & Ha & Hver & Hs & Hd & ->).
    pose proof Hver as (_ & sig & c & key' & _ & _ & _ & Hk & Hz & _)%Verify_exact.
    apply lookup_singleton_Some in Hk as [Hk <-].
    rewrite (proj2 (String.eqb_neq _ _) Ha), Hz. cbn [reject mbind result_bind]. rewrite Hver. cbn [mbind result_bind].
    rewrite Hs, <- Hk, !String.eqb_refl. cbn [negb reject mbind result_bind]. by rewrite Hd.
Qed.

Lemma decode_later raw now now' e : decodeAndValidate raw now = Ok e ->
  forall e', decodeAndValidate raw now' = Ok e' <-> e' = e /\ live e now'.
Proof.
  intros [Hd [Hw _]%Validate_exact]%decodeAndValidate_spec e'. rewrite decodeAndValidate_spec, Validate_exact, Hd.
  naive_solver.
Qed.

(** A registry proof is re-established exactly while it is live.  A proof
    minted by [VerifyRegistry] names the pinned author and a registry envelope;
    verifying it again at any other instant succeeds exactly when that instant
    lies in the envelope's window, with the same wire, envelope and
    commitment. *)
Theorem reverify_exact raw author key now v :
  VerifyRegistry raw author key now = Ok v ->
  AuthorKeyID (vr_envelope v) = author /\ Schema (vr_envelope v) = SspFamilyRegistry /\
  forall now' v', ReverifyAt v now' = Ok v' <->
    live (vr_envelope v) now' /\
    v' = mkVerified true raw (vr_envelope v) (vr_commitment v) author key now'.
Proof.
  intros (e & d & Ha & Hver & Hs & Hd & ->)%VerifyRegistry_exact. cbn [vr_envelope vr_commitment].
  pose proof Hver as (Hdec & sig & c & key' & Hsig & Hlen & Hc & Hk & Hz & Hok)%Verify_exact.
  pose proof Hk as [Hauth _]%lookup_singleton_Some. split_and!; [done|done|]. intros now' v'.
  unfold ReverifyAt. cbn [vr_verified negb vr_raw vr_author vr_key].
  rewrite VerifyRegistry_exact. setoid_rewrite Verify_exact. setoid_rewrite EnvelopeCommitment_exact.
  setoid_rewrite (decode_later _ _ now' _ Hdec).
  apply EnvelopeCommitment_exact in Hd as (e2 & c2 & _ & Hc2 & ->).
  split.
  - intros (e' & d' & _ & ((-> & Hlive) & _) & _ & (e3 & c3 & _ & Hc3 & ->) & ->). split; [done|]. congruence.
  - intros [Hlive ->]. exists e, (sha256_text c2). split_and!; try done; eauto 15.
Qed.

End Authentic.
