(* ===== verification/SspIdentity.v ===== *)
(** * internal/ssp: a commitment identifies one statement

    The comment of [DecodeCanonicalBase64] says that the raw wire is no
    identity and the digest of the canonical signing bytes is.  Here: two wires
    with the same commitment carry the same statement, field by field, unless
    their signing texts are a SHA-256 collision. *)
From S2P Require Import Prelude GoText GoStrconv GoTime GoJson GoJsonRead GoBase64 Sha256 GoUtf8 GoJsonText SspGuard SspBody SspRegistry SspEnvelope SspStrip SspTheorems.
Open Scope string_scope.
Open Scope Z_scope.
Open Scope snag_scope.

Definition safe_integer (t : string) (a : Z) : Prop := ParseInt t = Some a /\ Z.abs a <= maxSafeInteger.

(** The same JSON data: objects up to the order of members, numbers that are
    safe integers by value. *)
Inductive jsame : json -> json -> Prop :=
| same_null : jsame JNull JNull
| same_bool b : jsame (JBool b) (JBool b)
| same_string s : jsame (JString s) (JString s)
| same_number t u : (forall a b, safe_integer t a -> safe_integer u b -> a = b) -> jsame (JNumber t) (JNumber u)
| same_array l k : Forall2 (fun x y => jsame x.2 y.2) l k -> jsame (JArray l) (JArray k)
| same_object l k :
    (forall m, In m l -> exists m', In m' k /\ m'.1.1 = m.1.1 /\ jsame m.2 m'.2) ->
    (forall m', In m' k -> exists m, In m l /\ m.1.1 = m'.1.1 /\ jsame m.2 m'.2) ->
    jsame (JObject l) (JObject k).

(** What RFC 8785 promises of the canonicalization, for texts within the raw
    guard (which keeps malformed surrogates away from it): one canonical text
    belongs to one JSON value. *)
Class JcsLaws `{Jcs} : Prop :=
  jcs_same w w' c v v' : rawGuard w = Ok tt -> rawGuard w' = Ok tt ->
    jcs_transform w = Some c -> jcs_transform w' = Some c ->
    parse w = Some v -> parse w' = Some v' -> jsame v v'.

(** The same statement: every field but the signature. *)
Definition same_statement (e e' : Envelope) : Prop :=
  Schema e = Schema e' /\ ID e = ID e' /\ CaseID e = CaseID e' /\ EmittedAt e = EmittedAt e' /\
  ExpiresAt e = ExpiresAt e' /\ RoutingEpoch e = RoutingEpoch e' /\
  RegistryRevision e = RegistryRevision e' /\ RegistryHash e = RegistryHash e' /\
  AuthorKeyID e = AuthorKeyID e' /\ SignatureAlg e = SignatureAlg e' /\
  exists v v', parse (Body e) = Some v /\ parse (Body e') = Some v' /\ jsame v v'.

Lemma key_unique (l : members) m m' : NoDup (keys_of l) -> In m l -> In m' l -> m.1.1 = m'.1.1 -> m = m'.
Proof.
  unfold keys_of. induction l as [|x l IH]; [done|]. cbn [map]. rewrite list.NoDup_cons, list_elem_of_In, in_map_iff.
  intros [Hx Hl] [->|Hm] [->|Hm'] Heq; [done|exfalso; apply Hx; eauto..|auto].
Qed.

(** Members of equal keys of two objects with the same data. *)
Lemma same_member (l l' : members) k raw raw' v v' :
  jsame (JObject (List.filter signed l)) (JObject (List.filter signed l')) -> NoDup (keys_of l') ->
  k <> "signature" -> In (k, raw, v) l -> In (k, raw', v') l' -> jsame v v'.
Proof.
  intros H Hn Hk Hin Hin'. inversion H as [| | | | |? ? Hfw _]; subst.
  assert (Hs : signed (k, raw, v) = true) by (unfold signed; cbn; by apply negb_true_iff, String.eqb_neq).
  destruct (Hfw (k, raw, v)) as ([[k2 raw2] v2] & Hm' & Hkk & Hsame); [by apply filter_In|]. cbn in Hkk. subst k2.
  apply filter_In in Hm' as [Hm' _]. pose proof (key_unique _ _ _ Hn Hm' Hin' eq_refl) as [= -> ->]. done.
Qed.

Section Identity.
Context (l l' : members) (e e' : Envelope).
Hypothesis Hsame : jsame (JObject (List.filter signed l)) (JObject (List.filter signed l')).
Hypothesis He : decoded_from l e.
Hypothesis He' : decoded_from l' e'.

Lemma same_string_field k raw raw' s s' : k <> "signature" ->
  In (k, raw, JString s) l -> In (k, raw', JString s') l' -> s = s'.
Proof using All.
  intros Hk Hin Hin'. destruct He' as (_ & _ & _ & _ & Hn & _).
  pose proof (same_member _ _ _ _ _ _ _ Hsame Hn Hk Hin Hin') as H. by inversion H.
Qed.

Lemma same_strings k s s' : k <> "signature" ->
  In (k, s) [("schema", Schema e); ("id", ID e); ("emitted_at", EmittedAt e); ("expires_at", ExpiresAt e);
             ("author_key_id", AuthorKeyID e); ("signature_alg", SignatureAlg e); ("signature", Signature e)] ->
  In (k, s') [("schema", Schema e'); ("id", ID e'); ("emitted_at", EmittedAt e'); ("expires_at", ExpiresAt e');
              ("author_key_id", AuthorKeyID e'); ("signature_alg", SignatureAlg e'); ("signature", Signature e')] ->
  s = s'.
Proof using All.
  intros Hk Hin Hin'. destruct He as (H1 & _), He' as (H2 & _).
  destruct (H1 _ _ Hin) as [raw Hr], (H2 _ _ Hin') as [raw' Hr']. by eapply same_string_field.
Qed.

Lemma same_integers k a b : 
  In (k, a) [("routing_epoch", RoutingEpoch e); ("registry_revision", RegistryRevision e)] ->
  In (k, b) [("routing_epoch", RoutingEpoch e'); ("registry_revision", RegistryRevision e')] -> a = b.
Proof using All.
  intros Hin Hin'. destruct He as (_ & H1 & _), He' as (_ & H2 & _ & _ & Hn & _).
  assert (Hk : k <> "signature") by (by destruct Hin as [[= <- _]|[[= <- _]|[]]]).
  destruct (H1 _ _ Hin) as (Ha & raw & t & Hr & Ht), (H2 _ _ Hin') as (Hb & raw' & u & Hr' & Hu).
  pose proof (same_member _ _ _ _ _ _ _ Hsame Hn Hk Hr Hr') as H. inversion H as [| | |? ? Hnum| |]; subst.
  apply Hnum; split; (done || lia).
Qed.

Lemma same_decoded : Forall (fun m => text_of m.1.2 m.2) l -> Forall (fun m => text_of m.1.2 m.2) l' ->
  same_statement e e'.
Proof using All.
  intros Ht Ht'. unfold same_statement.
  assert (Hs : Schema e = Schema e') by (eapply (same_strings "schema"); [done|cbn; tauto..]).
  assert (Hc : CaseID e = CaseID e' /\ RegistryHash e = RegistryHash e').
  { destruct He as (_ & _ & _ & H1 & _), He' as (_ & _ & _ & H2 & _). rewrite Hs in H1.
    destruct (_ =s? SspFamilyRegistry).
    - destruct H1 as (-> & -> & _), H2 as (-> & -> & _). done.
    - destruct H1 as ((? & ?) & (? & ?)), H2 as ((? & ?) & (? & ?)).
      split; [by eapply (same_string_field "case_id")|by eapply (same_string_field "registry_hash")]. }
  destruct Hc as [Hcase Hhash].
  split_and!; try done.
  - eapply (same_strings "id"); [done|cbn; tauto..].
  - eapply (same_strings "emitted_at"); [done|cbn; tauto..].
  - eapply (same_strings "expires_at"); [done|cbn; tauto..].
  - eapply (same_integers "routing_epoch"); cbn; tauto.
  - eapply (same_integers "registry_revision"); cbn; tauto.
  - eapply (same_strings "author_key_id"); [done|cbn; tauto..].
  - eapply (same_strings "signature_alg"); [done|cbn; tauto..].
  - destruct He as (_ & _ & (v & Hv) & _), He' as (_ & _ & (v' & Hv') & _ & Hn & _). exists v, v'.
    split_and!; [exact (parse_text _ _ (text_In _ _ _ _ Ht Hv))|exact (parse_text _ _ (text_In _ _ _ _ Ht' Hv'))|].
    by eapply (same_member l l' "body").
Qed.

End Identity.

Lemma decoded_texts raw l : parse raw = Some (JObject l) -> Forall (fun m => text_of m.1.2 m.2) l.
Proof. intros H. by apply exactObject_spec in H as [_ ?]. Qed.

(** C30: a commitment identifies the statement.  Two envelopes with the same
    commitment, at whatever instants and with whatever framing, agree on every
    field except the signature, and their bodies are the same JSON data; or the
    canonical signing texts of these two wires are different and have the same
    SHA-256. *)
Theorem commitment_identifies `{JcsLaws} raw raw' now now' d e e' :
  EnvelopeCommitment raw now = Ok d -> EnvelopeCommitment raw' now' = Ok d ->
  decodeStrictEnvelope raw = Ok e -> decodeStrictEnvelope raw' = Ok e' ->
  same_statement e e' \/
  (exists c c', signing_bytes raw = Ok c /\ signing_bytes raw' = Ok c' /\ collision c c').
Proof.
  intros (e1 & c & _ & Hc & ->)%EnvelopeCommitment_exact (e2 & c' & _ & Hc' & Heq)%EnvelopeCommitment_exact.
  intros (l & Hl & He)%decodeStrictEnvelope_spec (l' & Hl' & He')%decodeStrictEnvelope_spec.
  destruct (decide (c = c')) as [<-|Hne].
  - left. destruct (signing_bytes_spec _ _ _ Hl Hc) as (w & Hw & Hg & Hj).
    destruct (signing_bytes_spec _ _ _ Hl' Hc') as (w' & Hw' & Hg' & Hj').
    apply (same_decoded l l' e e'); [exact (jcs_same _ _ _ _ _ Hg Hg' Hj Hj' Hw Hw')|done|done|by eapply decoded_texts|by eapply decoded_texts].
  - right. exists c, c'. split; [done|]. split; [done|]. split; [done|]. unfold sha256_text in Heq. apply app_string_cancel in Heq as [_ Heq]; [|done].
    by apply sha256_hex_eq.
Qed.
