(* ===== verification/SspSign.v ===== *)
(** * internal/ssp: a signed envelope verifies

    [Sign] prints an envelope with encoding/json, signs its canonical form and
    prints it again with the signature; [Verify] cuts the signature out of the
    received text and checks it over the canonical form of what is left.  The
    two texts are the same byte for byte, so that what one signs the other
    accepts. *)
From stdpp Require Import gmap pretty.
From S2P Require Import Prelude GoText GoStrconv GoTime GoJson GoJsonRead GoBase64 Sha256 GoUtf8 GoJsonText SspGuard SspBody SspRegistry SspEnvelope SspStrip SspTheorems SspIdentity.
Open Scope string_scope.
Open Scope Z_scope.
Open Scope snag_scope.

(** ** Printed decimals are JSON integers *)
Lemma pretty_leading x : (0 < x)%N -> forall s, exists a d,
  pretty.pretty_N_go x s = String a (d ++ s) /\ in_range 49 57 a = true /\ all_chars is_digit d = true.
Proof.
  induction (N.lt_wf_0 x) as [x _ IH]. intros Hx s. rewrite pretty.pretty_N_go_step by done.
  assert (Hd : exists d, (x `mod` 10)%N = d /\ (d < 10)%N) by (eexists; split; [done|]; apply N.mod_lt; lia).
  destruct Hd as (d & Ed & Hlt). rewrite Ed.
  assert (Hc : is_digit (pretty.pretty_N_char d) = true /\ (d <> 0%N -> in_range 49 57 (pretty.pretty_N_char d) = true)).
  { clear -Hlt. destruct d as [|p]; [done|]. do 4 (try destruct p as [p|p|]); first [done | lia]. }
  destruct Hc as [Hdig Hne]. destruct (N.eq_dec (x `div` 10)%N 0%N) as [E|E].
  - rewrite E, pretty.pretty_N_go_0. exists (pretty.pretty_N_char d), "". split_and!; [done| |done].
    apply Hne. pose proof (N.div_mod x 10 ltac:(lia)) as H. rewrite E, Ed in H. lia.
  - assert (Hpos : (0 < x `div` 10)%N) by (apply N.neq_0_lt_0; done).
    destruct (IH (x `div` 10)%N ltac:(apply N.div_lt; lia) Hpos (String (pretty.pretty_N_char d) s)) as (a & t & Ha & Hr & Ht).
    exists a, (t ++ String (pretty.pretty_N_char d) ""). rewrite Ha, <- app_string_assoc. split_and!; [done|done|].
    rewrite all_chars_app, Ht. cbn. by rewrite Hdig.
Qed.

Lemma dec_digits z : 0 < z -> exists a d, dec z = String a d /\ in_range 49 57 a = true /\ all_chars is_digit d = true.
Proof.
  intros Hz. destruct z as [|p|p]; [lia| |lia]. change (dec (Z.pos p)) with (pretty.pretty_N_go (N.pos p) "").
  destruct (pretty_leading (N.pos p) ltac:(lia) "") as (a & d & -> & ? & ?). exists a, d. by rewrite app_string_nil_r.
Qed.

Lemma digits_scan_all d r : all_chars is_digit d = true -> no_digit r -> digits_scan (d ++ r) = (d, r).
Proof.
  intros Hd Hr. induction d as [|a d IH]; [by apply digits_scan_stop|]. cbn in Hd |- *.
  apply andb_true_iff in Hd as [-> Hd]. by rewrite IH.
Qed.

Lemma number_scan_int i r : int_scan (i ++ r) = Some (i, r) -> i <> "" ->
  (match i with String a _ => code a =? 45 | _ => false end) = false -> delimited r ->
  number_scan (i ++ r) = Some (i, r).
Proof.
  intros Hi Hne Ha Hr. destruct i as [|a i]; [done|]. unfold number_scan. cbn [append] in *. rewrite Ha, Hi.
  cbn [mbind option_bind]. destruct r as [|b r].
  - cbn. by rewrite !app_string_nil_r.
  - destruct (delimited_number _ _ Hr) as (H1 & H2 & H3 & _). cbn [frac_scan]. rewrite H2. cbn [mbind option_bind exp_scan].
    rewrite H3. cbn. by rewrite !app_string_nil_r.
Qed.

Lemma dec_number z r : 0 <= z -> delimited r -> number_scan (dec z ++ r) = Some (dec z, r).
Proof.
  intros Hz Hr. destruct (Z.eq_dec z 0) as [->|Hne].
  - by apply (number_scan_int "0").
  - destruct (dec_digits z) as (a & d & -> & Ha & Hd); [lia|].
    assert (Ha' : (code a =? 48) = false /\ is_digit a = true /\ (code a =? 45) = false).
    { clear -Ha. revert Ha. destruct a as [[] [] [] [] [] [] [] []]; vm_compute; done. }
    destruct Ha' as (H48 & Hda & H45). apply number_scan_int; [|done|done|done].
    cbn [append int_scan]. rewrite H48, Hda, digits_scan_all; [done|done|by apply delimited_no_digit].
Qed.

Lemma dec_pattern z : 0 <= z -> integer_pattern (dec z) = true.
Proof.
  intros Hz. destruct (Z.eq_dec z 0) as [->|Hne]; [done|].
  destruct (dec_digits z) as (a & d & -> & Ha & Hd); [lia|]. unfold integer_pattern. by rewrite Ha, Hd, orb_true_r.
Qed.

Lemma ParseInt_dec0 z : 0 <= z <= maxSafeInteger -> ParseInt (dec z) = Some z.
Proof.
  intros Hz. destruct (Z.eq_dec z 0) as [->|]; [done|]. apply ParseInt_dec. unfold maxSafeInteger in Hz. lia.
Qed.

(** ** Values as they are printed *)
Lemma text_printed print v : (forall c, scalar c -> printed c (print (Some c))) -> utf8_valid v = true ->
  text_of (String quote (print_text print v ++ String quote "")) (JString v).
Proof.
  intros Hp Hv. split; [done|]. exists 1%nat. cbn [parse_value].
  change (quote =c? "{") with false. change (quote =c? "[") with false. rewrite Ascii.eqb_refl. cbn iota.
  rewrite print_text_scan by done. by rewrite print_text_unquote.
Qed.

Lemma text_string v : utf8_valid v = true -> text_of (json_string v) (JString v).
Proof. apply (text_printed json_rune), json_rune_printed. Qed.

Lemma text_dec z : 0 <= z -> text_of (dec z) (JNumber (dec z)).
Proof.
  intros Hz. pose proof (dec_number z "" Hz I) as Hn. rewrite app_string_nil_r in Hn.
  destruct (dec z) as [|a d] eqn:E; [done|]. pose proof (number_scan_start _ _ _ _ Hn) as Hs.
  pose proof (number_byte a Hs) as [Hw _]. split; [done|]. exists 1%nat. cbn [parse_value].
  assert (Ha : (a =c? "{") = false /\ (a =c? "[") = false /\ (a =c? quote) = false /\
    Ascii.eqb "n" a = false /\ Ascii.eqb "t" a = false /\ Ascii.eqb "f" a = false)
    by (clear -Hs; revert Hs; destruct a as [[] [] [] [] [] [] [] []]; vm_compute; done).
  destruct Ha as (-> & -> & -> & H1 & H2 & H3). unfold literal_scan.
  assert (Hp : forall p q, strip_prefix (String p q) (String a d) = if Ascii.eqb p a then strip_prefix q d else None) by done.
  by rewrite !Hp, H1, H2, H3, Hn.
Qed.

(** A member printed as [name:raw] parses back. *)
Lemma member_printed name raw v : utf8_valid name = true -> text_of raw v ->
  member_of (marshal_member name raw) (name, raw, v).
Proof.
  intros Hn [Hs (n & Hv)]. destruct (proj1 (parse_stable n) _ _ _ Hv) as (x & Hx & _ & Hp).
  rewrite app_string_nil_r in Hx. subst x.
  exists n, (json_text name), "", "", raw, v. split_and!; try done.
  - unfold marshal_member. rewrite json_string_text. cbn [append]. by rewrite <- app_string_assoc.
  - intros z. by apply json_text_scan.
  - by rewrite json_text_unquote.
Qed.

(** ** The printed fields are ASCII, or were checked to be UTF-8 *)
Lemma ascii_utf8 s : all_chars is_ascii s = true -> utf8_valid s = true.
Proof.
  unfold utf8_valid. induction s as [|a s IH]; [done|]. cbn [all_chars]. intros [Ha Hs]%andb_true_iff.
  rewrite decode_ascii_cons by done. cbn [forallb]. rewrite IH by done. done.
Qed.

Lemma digit_ascii a : is_digit a = true -> is_ascii a = true.
Proof. unfold is_digit, in_range, is_ascii. intros H. bools. apply Z.ltb_lt. lia. Qed.

Lemma read_digits_ascii n : forall acc s v r, read_digits n acc s = Some (v, r) ->
  all_chars is_ascii s = all_chars is_ascii r.
Proof.
  induction n as [|n IH]; intros acc s v r; cbn [read_digits]; [by intros [= _ ->]|].
  destruct s as [|a s]; [done|]. destruct (is_digit a) eqn:E; [|done]. intros H. cbn [all_chars].
  rewrite (digit_ascii _ E). by eapply IH.
Qed.

Lemma read_char_ascii c s r : is_ascii c = true -> read_char c s = Some r -> all_chars is_ascii s = all_chars is_ascii r.
Proof.
  intros Hc. destruct s as [|a s]; [done|]. cbn [read_char]. destruct (Ascii.eqb_spec a c) as [->|]; [|done].
  intros [= ->]. cbn [all_chars]. by rewrite Hc.
Qed.

Lemma read_frac_ascii s : forall k acc n v m r, read_frac k acc n s = (v, m, r) -> all_chars is_ascii s = all_chars is_ascii r.
Proof.
  induction s as [|a s IH]; intros k acc n v m r; cbn [read_frac]; [by intros [= _ _ <-]|].
  destruct (is_digit a) eqn:E; [|by intros [= _ _ <-]]. intros H. cbn [all_chars]. rewrite (digit_ascii _ E). by eapply IH.
Qed.

Lemma read_tail_ascii s v : read_tail s = Some v -> all_chars is_ascii s = true.
Proof.
  assert (Hz : (if String.eqb s "Z" then Some 0 else None) = Some v -> all_chars is_ascii s = true)
    by (destruct (String.eqb_spec s "Z") as [->|]; done).
  unfold read_tail. destruct s as [|a s]; [done|].
  destruct (Ascii.eqb_spec a ".") as [->|Hne].
  - destruct (read_frac _ _ _ s) as [[ns m] r] eqn:E. destruct (_ && _) eqn:Eb; [|done]. intros _.
    apply andb_true_iff in Eb as [_ ->%String.eqb_eq]. apply read_frac_ascii in E. cbn [all_chars]. by rewrite E.
  - intros H. apply Hz. revert H. by destruct a as [[] [] [] [] [] [] [] []].
Qed.

Lemma timestamp_ascii s t : ParseTimestamp s = Some t -> all_chars is_ascii s = true.
Proof.
  unfold ParseTimestamp, parse_fields.
  repeat match goal with
  | |- context [read_digits ?n ?a ?s] => is_var s;
      let E := fresh "E" in destruct (read_digits n a s) as [[? ?]|] eqn:E;
      [cbn [mbind option_bind]; rewrite (read_digits_ascii _ _ _ _ _ E)|done]
  | |- context [read_char ?c ?s] => is_var s;
      let E := fresh "E" in destruct (read_char c s) as [?|] eqn:E;
      [cbn [mbind option_bind]; rewrite (read_char_ascii c _ _ eq_refl E)|done]
  end.
  destruct (read_tail _) as [ns|] eqn:Et; [|done]. intros _. by eapply read_tail_ascii.
Qed.

Lemma pattern_ascii s : sha256_pattern s = true -> all_chars is_ascii s = true.
Proof.
  unfold sha256_pattern, hex64. destruct (strip_prefix _ s) as [r|] eqn:E; [|done].
  apply strip_prefix_split in E as ->. intros [_ H]%andb_true_iff. rewrite all_chars_app.
  apply andb_true_iff. split; [done|]. revert H. apply all_chars_weaken.
  intros a. unfold is_lower_hex, is_digit, in_range, is_ascii. intros H. apply Z.ltb_lt.
  apply orb_true_iff in H as [H|H]; bools; lia.
Qed.

Lemma b64_ascii s : all_chars is_ascii (b64_encode s) = true.
Proof.
  assert (Hc : forall v, 0 <= v < 64 -> is_ascii (b64_char v) = true).
  { intros v Hv. unfold is_ascii. rewrite code_b64_char by done. apply Z.ltb_lt.
    repeat match goal with |- context [if ?b then _ else _] => destruct b eqn:? end; bools; lia. }
  induction s as [|a|a b|a b c r IH] using string3_ind; [done|..]; cbn [b64_encode all_chars]; b64_bounds;
    rewrite !Hc by zdiv; [done|done|]. by rewrite IH.
Qed.

(** ** Reading the printed members *)
Lemma raw_member_ok (l : members) k raw v : NoDup (keys_of l) -> In (k, raw, v) l -> raw_member l k = Some raw.
Proof.
  intros Hn Hin. destruct (raw_member l k) as [raw'|] eqn:E.
  - apply raw_member_In in E as [v' Hin']. f_equal. by pose proof (key_unique _ _ _ Hn Hin Hin' eq_refl) as [= -> _].
  - apply raw_member_None in E. exfalso. apply E. apply in_map_iff. by exists (k, raw, v).
Qed.

Lemma text_not_null raw v : text_of raw v -> v <> JNull -> (TrimSpace raw =s? "null") = false.
Proof.
  intros [Hs (n & Hv)] Hne. destruct raw as [|a raw]; [done|]. apply parse_value_kind in Hv as [_ Hk].
  assert (Ha : plain_byte a = true /\ a <> "n"%char).
  { assert (first_byte_kind a <> jsonInvalid /\ first_byte_kind a <> jsonNull) as Hx by (rewrite Hk; by destruct v).
    clear -Hx. revert Hx. destruct a as [[] [] [] [] [] [] [] []]; vm_compute; intros [? ?]; done. }
  destruct Ha as [Ha Han]. destruct (TrimSpace_first a raw Ha) as [t ->]. apply String.eqb_neq. by intros [= -> _].
Qed.

Lemma requiredString_ok (l : members) k raw v : NoDup (keys_of l) -> Forall (fun m => text_of m.1.2 m.2) l ->
  In (k, raw, JString v) l -> requiredString l k = Ok v.
Proof.
  intros Hn Ht Hin. unfold requiredString. rewrite (raw_member_ok _ _ _ _ Hn Hin).
  pose proof (text_In _ _ _ _ Ht Hin) as Hv. rewrite (text_not_null _ _ Hv) by done.
  unfold unmarshal_string. by rewrite (parse_text _ _ Hv).
Qed.

Lemma requiredInteger_ok (l : members) k z : NoDup (keys_of l) -> Forall (fun m => text_of m.1.2 m.2) l ->
  0 <= z <= maxSafeInteger -> In (k, dec z, JNumber (dec z)) l -> requiredNonNegativeInteger l k = Ok z.
Proof.
  intros Hn Ht Hz Hin. unfold requiredNonNegativeInteger. rewrite (raw_member_ok _ _ _ _ Hn Hin).
  pose proof (text_In _ _ _ _ Ht Hin) as Hv. rewrite (text_not_null _ _ Hv) by done.
  apply text_number in Hv as [_ Hc]. rewrite TrimSpace_plain by by apply lit_plain.
  rewrite dec_pattern, ParseInt_dec0 by lia. cbn [negb]. by rewrite (proj2 (Z.ltb_ge _ _)) by lia.
Qed.

Lemma requireExact_ok (l : members) names : NoDup (keys_of l) -> Forall (fun m => text_of m.1.2 m.2 /\ m.2 <> JNull) l ->
  (forall k, In k (keys_of l) <-> In k names) -> requireExactMembers l names names = Ok tt.
Proof.
  intros Hn Ht Hk. unfold requireExactMembers.
  assert (He : existsb (fun m => negb (mem m.1.1 names)) l = false).
  { apply not_true_iff_false. rewrite existsb_exists. intros (m & Hm & Hx%negb_true_iff).
    rewrite <- not_true_iff_false in Hx. apply Hx, mem_spec, list_elem_of_In, Hk, in_map_iff. eauto. }
  rewrite He. apply first_err_ok, Forall_forall. intros k Hin%Hk. apply in_map_iff in Hin as (m & <- & Hm).
  destruct m as [[k raw] v]. cbn [fst]. rewrite (raw_member_ok _ _ _ _ Hn Hm).
  rewrite Forall_forall in Ht. destruct (Ht _ Hm) as [Hv Hne]. cbn [fst snd] in *. by rewrite (text_not_null _ _ Hv Hne).
Qed.

(** ** The printed envelope *)
Definition printed_member : Type := string * (string * string * json).
Definition str_member (name v : string) : printed_member :=
  (marshal_member name (json_string v), (name, json_string v, JString v)).
Definition num_member (name : string) (z : Z) : printed_member :=
  (marshal_member name (dec z), (name, dec z, JNumber (dec z))).
Definition omit_member (name v : string) : list printed_member :=
  if v =s? "" then [] else [str_member name v].

Definition printed_members (e : Envelope) (v : json) : list printed_member :=
  ([str_member "schema" (Schema e); str_member "id" (ID e)]
   ++ omit_member "case_id" (CaseID e)
   ++ [str_member "emitted_at" (EmittedAt e); str_member "expires_at" (ExpiresAt e);
       num_member "routing_epoch" (RoutingEpoch e); num_member "registry_revision" (RegistryRevision e)]
   ++ omit_member "registry_hash" (RegistryHash e)
   ++ [str_member "author_key_id" (AuthorKeyID e); str_member "signature_alg" (SignatureAlg e);
       (marshal_member "body" (Body e), ("body", Body e, v))]
   ++ omit_member "signature" (Signature e))%list.

Definition braced (ps : list printed_member) : string := "{" ++ join "," (fst <$> ps) ++ "}".

(** A body without white space and with the HTML characters escaped, as
    [json.Marshal] prints it. *)
Definition compact_body (b : bytes) (v : json) : Prop := text_of b v /\ compact_from false false b = b.

Lemma omit_texts name v : fst <$> omit_member name v = omit_empty name v.
Proof. unfold omit_member, omit_empty. by destruct (v =s? ""). Qed.

Lemma marshal_printed e v : compact_body (Body e) v -> marshal_envelope e = Ok (braced (printed_members e v)).
Proof.
  intros [Ht Hc]. unfold marshal_envelope, marshal_raw. rewrite (parse_text _ _ Ht), Hc.
  unfold braced, printed_members. by rewrite !fmap_app, !omit_texts.
Qed.

(** The strings an envelope prints are UTF-8. *)
Definition utf8_fields (e : Envelope) : Prop :=
  Forall (fun s => utf8_valid s = true)
    [Schema e; ID e; CaseID e; EmittedAt e; ExpiresAt e; RegistryHash e; AuthorKeyID e; SignatureAlg e; Signature e].

Lemma str_member_of name v : utf8_valid name = true -> utf8_valid v = true ->
  member_of (str_member name v).1 (str_member name v).2.
Proof. intros Hn Hv. apply member_printed; [done|by apply text_string]. Qed.

Lemma omit_member_of name v : utf8_valid name = true -> utf8_valid v = true ->
  Forall (fun p => member_of p.1 p.2) (omit_member name v).
Proof. intros Hn Hv. unfold omit_member. destruct (v =s? ""); [constructor|]. constructor; [by apply str_member_of|constructor]. Qed.

Lemma printed_members_of e v : utf8_fields e -> 0 <= RoutingEpoch e -> 0 <= RegistryRevision e -> text_of (Body e) v ->
  Forall (fun p => member_of p.1 p.2) (printed_members e v).
Proof.
  unfold utf8_fields. rewrite !List.Forall_cons_iff. intros (H1 & H2 & H3 & H4 & H5 & H6 & H7 & H8 & H9 & _) Hr Hg Hb.
  unfold printed_members. rewrite !Forall_app, !List.Forall_cons_iff.
  split_and!; try apply Forall_nil; try (by apply str_member_of); try (by apply omit_member_of);
    apply member_printed; (done || by apply text_dec).
Qed.

Lemma valid_fields e now : Validate e now = Ok tt -> utf8_valid (Signature e) = true -> utf8_fields e.
Proof.
  intros ((Hf & Hid & Hau & Halg & _ & Hsh & _ & _ & Hh & _) & em & ex & Hem & Hex & _)%Validate_exact Hs.
  assert (Hop : forall x, validOpaqueID x = true -> utf8_valid x = true) by (unfold validOpaqueID; intros x Hx; by bools).
  assert (Hsch : utf8_valid (Schema e) = true).
  { unfold known_family in Hf. rewrite !orb_true_iff, !String.eqb_eq in Hf. by destruct Hf as [[-> | ->]| ->]. }
  unfold check_shape in Hsh. unfold utf8_fields. rewrite !List.Forall_cons_iff.
  destruct (String.eqb_spec (Schema e) SspFamilyRegistry) as [Hreg|Hreg]; inv_result; bools;
    split_and!; auto; try apply Forall_nil; try (by apply ascii_utf8; eapply timestamp_ascii); try (by rewrite Halg).
  - match goal with H : CaseID e = "" |- _ => by rewrite H end.
  - match goal with H : RegistryHash e = "" |- _ => by rewrite H end.
  - by apply ascii_utf8, pattern_ascii, Hh.
Qed.

(** ** Cutting the signature out of the printed envelope *)
Lemma strip_joined ps : ps <> [] -> Forall (fun p => member_of p.1 p.2) ps ->
  forall k kept r, (String.length (join "," (fst <$> ps) ++ String "}" r) < k)%nat ->
  strip_members k kept (join "," (fst <$> ps) ++ String "}" r) =
    Ok (app kept (fst <$> List.filter (fun p => signed p.2) ps)).
Proof.
  induction ps as [|[text m] ps IH]; [done|]. intros _ Hps [|k] kept r Hk; [lia|].
  apply List.Forall_cons_iff in Hps as [[n Hm] Hps]. cbn [fst snd] in Hm.
  destruct ps as [|p ps].
  - cbn [fmap list_fmap join fst] in *. rewrite (strip_step _ _ _ _ _ _ Hm) by done. cbn zeta.
    rewrite skip_ws_stop by done. change ("}" =c? ",")%char with false. change ("}" =c? "}")%char with true. cbn iota.
    cbn [List.filter snd]. destruct (signed m); [done|]. cbn. by rewrite app_nil_r.
  - assert (Hj : join "," (fst <$> (text, m) :: p :: ps) = text ++ String "," (join "," (fst <$> p :: ps))) by done.
    rewrite Hj in *. rewrite <- app_string_assoc in *. cbn [append] in *.
    rewrite (strip_step _ _ _ _ _ _ Hm) by done. cbn zeta.
    rewrite skip_ws_stop by done. change ("," =c? ",")%char with true. cbn iota.
    rewrite length_app in Hk. cbn [String.length] in Hk. rewrite IH by (done || lia).
    cbn [List.filter snd]. destruct (signed m); [|done]. cbn [fmap list_fmap fst]. by rewrite <- app_assoc.
Qed.

Lemma strip_braced ps : ps <> [] -> Forall (fun p => member_of p.1 p.2) ps ->
  stripUnsignedTopLevel (braced ps) = Ok (braced (List.filter (fun p => signed p.2) ps)).
Proof.
  intros Hne Hps. unfold stripUnsignedTopLevel, braced. rewrite append_cons, skip_ws_stop by done.
  rewrite Ascii.eqb_refl. cbn [negb String.append]. rewrite strip_joined; [done|done|done|]. cbn [String.length]. lia.
Qed.

Lemma filter_omit name v : name <> "signature" ->
  List.filter (fun p => signed p.2) (omit_member name v) = omit_member name v.
Proof.
  intros Hn. unfold omit_member. destruct (v =s? ""); [done|]. cbn [List.filter str_member snd]. unfold signed. cbn [fst].
  by rewrite (proj2 (String.eqb_neq _ _) Hn).
Qed.

Lemma filter_signature v : List.filter (fun p => signed p.2) (omit_member "signature" v) = [].
Proof. unfold omit_member. by destruct (v =s? ""). Qed.

Lemma filter_printed e v s : List.filter (fun p => signed p.2) (printed_members (with_signature e s) v)
  = printed_members (with_signature e "") v.
Proof.
  unfold printed_members. rewrite !filter_app, !filter_omit, filter_signature by done. done.
Qed.

(** ** Decoding the printed envelope *)
Definition members_of (ps : list printed_member) : members := snd <$> ps.

Lemma in_omit name v m : In m (members_of (omit_member name v)) <-> v <> "" /\ m = (name, json_string v, JString v).
Proof.
  unfold omit_member. destruct (String.eqb_spec v "") as [->|]; cbn; naive_solver.
Qed.

Lemma in_printed e v m : In m (members_of (printed_members e v)) <->
  m = (str_member "schema" (Schema e)).2 \/ m = (str_member "id" (ID e)).2 \/
  (CaseID e <> "" /\ m = (str_member "case_id" (CaseID e)).2) \/
  m = (str_member "emitted_at" (EmittedAt e)).2 \/ m = (str_member "expires_at" (ExpiresAt e)).2 \/
  m = (num_member "routing_epoch" (RoutingEpoch e)).2 \/ m = (num_member "registry_revision" (RegistryRevision e)).2 \/
  (RegistryHash e <> "" /\ m = (str_member "registry_hash" (RegistryHash e)).2) \/
  m = (str_member "author_key_id" (AuthorKeyID e)).2 \/ m = (str_member "signature_alg" (SignatureAlg e)).2 \/
  m = ("body", Body e, v) \/ (Signature e <> "" /\ m = (str_member "signature" (Signature e)).2).
Proof.
  unfold printed_members, members_of. rewrite !fmap_app. rewrite !in_app_iff.
  fold (members_of (omit_member "case_id" (CaseID e))) (members_of (omit_member "registry_hash" (RegistryHash e)))
    (members_of (omit_member "signature" (Signature e))).
  rewrite !in_omit. cbn [fmap list_fmap In snd str_member num_member]. naive_solver.
Qed.

Definition omit_key (name v : string) : list string := if v =s? "" then [] else [name].

Lemma keys_printed e v : keys_of (members_of (printed_members e v)) =
  (["schema"; "id"] ++ omit_key "case_id" (CaseID e)
   ++ ["emitted_at"; "expires_at"; "routing_epoch"; "registry_revision"]
   ++ omit_key "registry_hash" (RegistryHash e)
   ++ ["author_key_id"; "signature_alg"; "body"] ++ omit_key "signature" (Signature e))%list.
Proof.
  unfold keys_of, members_of, printed_members, omit_member, omit_key.
  by destruct (CaseID e =s? ""), (RegistryHash e =s? ""), (Signature e =s? "").
Qed.

Lemma validated_body_not_null e now v : Validate e now = Ok tt -> text_of (Body e) v -> v <> JNull.
Proof.
  intros ((Hf & _ & _ & _ & _ & _ & _ & _ & _ & _ & Hb) & _)%Validate_exact Ht ->. apply text_null in Ht.
  unfold validateBody, validateRegistryBody, validateCaseAdviceBody in Hb. rewrite Ht in Hb.
  by repeat case_match.
Qed.

(** The names a family's envelope prints are the ones it requires. *)
Lemma family_printed e v now l : Validate e now = Ok tt -> Signature e <> "" -> l = members_of (printed_members e v) ->
  exists names, family_members l (Schema e) = Ok names /\ forall k, In k (keys_of l) <-> In k names.
Proof.
  intros ((Hf & _ & _ & _ & _ & Hsh & _) & _)%Validate_exact Hs ->.
  pose proof (keys_printed e v) as Hkeys. unfold omit_key in Hkeys. rewrite (proj2 (String.eqb_neq _ _) Hs) in Hkeys.
  unfold check_shape in Hsh. unfold family_members.
  destruct (String.eqb_spec (Schema e) SspFamilyRegistry) as [Hreg|Hreg].
  - rewrite Hreg. change ((SspFamilyRegistry =s? SspFamilyCase) || (SspFamilyRegistry =s? SspFamilyAdvice)) with false.
    inv_result. bools.
    match goal with H : CaseID e = "", H' : RegistryHash e = "" |- _ => rewrite H, H' in Hkeys end. cbn [String.eqb app] in Hkeys.
    assert (Hno : forall k, In k ["case_id"; "registry_hash"] -> raw_member (members_of (printed_members e v)) k = None).
    { intros k Hk. apply raw_member_None. rewrite Hkeys. intros Hin. cbn in Hk, Hin. naive_solver. }
    cbn [first_err]. rewrite !Hno by (cbn; tauto). exists envelopeCommonRequiredMembers. split; [done|].
    intros k. rewrite Hkeys. cbn [In app envelopeCommonRequiredMembers]. tauto.
  - inv_result. bools. unfold known_family in Hf. apply orb_true_iff in Hf as [Hf|Hf]; [|by apply String.eqb_eq in Hf].
    rewrite Hf. eexists. split; [done|]. intros k. rewrite Hkeys.
    assert (Hc : CaseID e <> "").
    { intros Hc. match goal with H : validOpaqueID (CaseID e) = true |- _ => rewrite Hc in H; done end. }
    match goal with H : RegistryHash e <> "" |- _ => rewrite (proj2 (String.eqb_neq _ _) H) end.
    rewrite (proj2 (String.eqb_neq _ _) Hc). cbn [In app envelopeCommonRequiredMembers]. tauto.
Qed.

Lemma decode_printed e v now : Validate e now = Ok tt -> Signature e <> "" -> utf8_valid (Signature e) = true ->
  text_of (Body e) v -> rawGuard (braced (printed_members e v)) = Ok tt ->
  decodeStrictEnvelope (braced (printed_members e v)) = Ok e.
Proof.
  intros Hv Hs Hsu Ht Hg. pose proof (valid_fields _ _ Hv Hsu) as Hu.
  pose proof Hv as ((_ & _ & _ & _ & _ & Hsh & Hr1 & Hr2 & _) & _)%Validate_exact.
  assert (Hp : parse (braced (printed_members e v)) = Some (JObject (members_of (printed_members e v))))
    by (apply parse_braced, printed_members_of; (done || lia)).
  destruct (exactObject_spec _ _ Hp) as [Hx Htx].
  pose proof Hg as (_ & _ & _ & l & Hl & Hgl)%rawGuard_spec. rewrite Hp in Hl. injection Hl as <-.
  assert (Hn : NoDup (keys_of (members_of (printed_members e v)))) by (cbn [guard_ok] in Hgl; by bools).
  pose proof (in_printed e v) as Hin. destruct (family_printed e v now _ Hv Hs eq_refl) as (names & Hfm & Hkn).
  set (l := members_of (printed_members e v)) in *. clearbody l.
  assert (Hstr : forall k s, In (str_member k s).2 l -> requiredString l k = Ok s)
    by (intros k s Hk; exact (requiredString_ok l k _ s Hn Htx Hk)).
  assert (Hnn : Forall (fun m => text_of m.1.2 m.2 /\ m.2 <> JNull) l).
  { rewrite Forall_forall in *. intros m Hm. split; [auto|]. apply Hin in Hm.
    pose proof (validated_body_not_null _ _ _ Hv Ht). naive_solver. }
  unfold decodeStrictEnvelope. rewrite Hg. cbn [mbind result_bind]. rewrite Hx. cbn [mbind result_bind].
  rewrite (Hstr "schema" (Schema e)) by (apply Hin; tauto). cbn [mbind result_bind].
  rewrite Hfm. cbn [mbind result_bind]. rewrite (requireExact_ok _ _ Hn Hnn Hkn). cbn [mbind result_bind].
  rewrite (requiredInteger_ok l "routing_epoch" (RoutingEpoch e)) by (try done; apply Hin; unfold num_member; cbn [snd]; tauto).
  rewrite (requiredInteger_ok l "registry_revision" (RegistryRevision e)) by (try done; apply Hin; unfold num_member; cbn [snd]; tauto).
  cbn [mbind result_bind].
  rewrite (Hstr "id" (ID e)), (Hstr "emitted_at" (EmittedAt e)), (Hstr "expires_at" (ExpiresAt e)),
    (Hstr "author_key_id" (AuthorKeyID e)), (Hstr "signature_alg" (SignatureAlg e)),
    (Hstr "signature" (Signature e)) by (apply Hin; tauto).
  cbn [mbind result_bind]. rewrite (raw_member_ok l "body" (Body e) v) by (try done; apply Hin; tauto).
  assert (Hrest : (if Schema e <>s? SspFamilyRegistry
     then case_id ← requiredString l "case_id"; registry_hash ← requiredString l "registry_hash"; Ok (case_id, registry_hash)
     else Ok ("", "")) = Ok (CaseID e, RegistryHash e)).
  { unfold check_shape in Hsh. destruct (String.eqb_spec (Schema e) SspFamilyRegistry); cbn [negb]; inv_result; bools.
    - congruence.
    - assert (Hc : CaseID e <> "")
        by (intros Hc; match goal with H : validOpaqueID (CaseID e) = true |- _ => rewrite Hc in H; done end).
      rewrite (Hstr "case_id" (CaseID e)), (Hstr "registry_hash" (RegistryHash e)) by (apply Hin; tauto). done. }
  rewrite Hrest. cbn. by destruct e.
Qed.

(** ** The round trip *)
Section RoundTrip.
Context `{Jcs} `{Ed25519Laws}.

Lemma Validate_signature e s now : Validate (with_signature e s) now = Validate e now.
Proof using All. done. Qed.

Lemma b64_not_empty s : s <> "" -> b64_encode s <> "".
Proof using All. by destruct s as [|a [|b [|c s]]]. Qed.

(** What [Sign] has established when it returns. *)
Lemma Sign_spec e v key now wire : compact_body (Body e) v -> Sign e key now = Ok wire ->
  exists c, Validate e now = Ok tt /\ canonical (braced (printed_members (with_signature e "") v)) = Ok c /\
    signing_is_zero key = false /\ rawGuard wire = Ok tt /\
    wire = braced (printed_members (with_signature e (b64_encode (ed25519_sign (privateKey key) c))) v).
Proof using All.
  intros Hb. unfold Sign, key_sign. intros HS. inv_result.
  rewrite (marshal_printed _ v) in E0 by done. rewrite (marshal_printed _ v) in E3 by done. inv_result.
  destruct (signing_is_zero key) eqn:Hz; [done|]. inv_result. destruct a, a4. exists a1. by split_and!.
Qed.

(** A wire signed by a key verifies under its public key. *)
Lemma signed_verifies wire key vk keys now e c : len (privateKey key) = PrivateKeySize -> signing_is_zero key = false ->
  VerifyingKey key = Ok vk -> keys !! AuthorKeyID e = Some vk -> signing_bytes wire = Ok c ->
  decodeAndValidate wire now = Ok (with_signature e (b64_encode (ed25519_sign (privateKey key) c))) ->
  Verify wire keys now = Ok (with_signature e (b64_encode (ed25519_sign (privateKey key) c))).
Proof using All.
  intros Hlen Hz Hvk Hk Hc Hd.
  assert (Hpk : vk = mkVerifyingKey (ed25519_public (privateKey key)) /\ verifying_is_zero vk = false).
  { unfold VerifyingKey, signing_public in Hvk. rewrite Hz in Hvk. cbn [mbind result_bind] in Hvk.
    unfold NewEd25519VerifyingKey in Hvk. inv_result. bools. split; [done|]. unfold verifying_is_zero. cbn.
    by destruct (ed25519_public _). }
  destruct Hpk as [-> Hvz]. apply Verify_exact. split; [done|].
  exists (ed25519_sign (privateKey key) c), c, (mkVerifyingKey (ed25519_public (privateKey key))).
  split_and!; try done; [by apply ed25519_sign_size|by apply ed25519_verify_sign].
Qed.

(** The wire [Sign] returns decodes to the signed envelope, and what it signed
    are the bytes a verifier recomputes. *)
Lemma Sign_decodes e v key now wire : compact_body (Body e) v -> Sign e key now = Ok wire ->
  len (privateKey key) = PrivateKeySize ->
  exists c, signing_is_zero key = false /\ signing_bytes wire = Ok c /\
    decodeAndValidate wire now = Ok (with_signature e (b64_encode (ed25519_sign (privateKey key) c))).
Proof using All.
  intros Hb HS Hlen. destruct (Sign_spec _ _ _ _ _ Hb HS) as (c & Hv & Hc & Hz & Hg & ->). exists c.
  set (sig := ed25519_sign (privateKey key) c) in *.
  assert (Hsl : len sig = SignatureSize) by (by apply ed25519_sign_size).
  assert (Hne : b64_encode sig <> "") by (apply b64_not_empty; intros E; by rewrite E in Hsl).
  pose proof (ascii_utf8 _ (b64_ascii sig)) as Hu. split_and!; [done|..].
  - pose proof Hv as ((_ & _ & _ & _ & _ & _ & Hr1 & Hr2 & _) & _)%Validate_exact.
    unfold signing_bytes. rewrite strip_braced, filter_printed; [cbn [invalidEnvelope mbind result_bind]; by rewrite Hc|done|].
    apply printed_members_of; [|cbn; lia|cbn; lia|by destruct Hb].
    apply (valid_fields _ now); [by rewrite Validate_signature|done].
  - apply decodeAndValidate_spec. split; [|by rewrite Validate_signature].
    apply (decode_printed _ _ now); [by rewrite Validate_signature|done|done|by destruct Hb|done].
Qed.

(** C29: what [Sign] returns, [Verify] accepts.  For an envelope with a compact
    body (as json.Marshal prints it), when [Sign] returns a wire, [Verify] of
    that wire at the same instant, with any key set that binds the author's id
    to the signer's public key, returns the same envelope with its
    signature. *)
Theorem sign_verify e v key vk keys now wire :
  compact_body (Body e) v -> Sign e key now = Ok wire ->
  len (privateKey key) = PrivateKeySize -> VerifyingKey key = Ok vk -> keys !! AuthorKeyID e = Some vk ->
  exists sig, Verify wire keys now = Ok (with_signature e (b64_encode sig)).
Proof using All.
  intros Hb HS Hlen Hvk Hk. destruct (Sign_decodes _ _ _ _ _ Hb HS Hlen) as (c & Hz & Hc & Hd). eexists.
  by apply (signed_verifies wire key vk).
Qed.

End RoundTrip.
