(* ===== verification/SspExample.v ===== *)
(** * internal/ssp: the theorems at concrete inputs

    A stand-in for the canonicalization and for Ed25519 that satisfies their
    laws, and envelopes signed with it. *)
From stdpp Require Import gmap.
From S2P Require Import Prelude GoText GoStrconv GoTime GoJson GoJsonRead GoBase64 Sha256 GoUtf8 GoJsonText SspGuard SspBody SspRegistry SspEnvelope SspStrip SspWire SspTheorems SspIdentity SspSign.
Open Scope string_scope.
Open Scope Z_scope.
Open Scope snag_scope.

(** ** Stand-ins *)
#[local] Instance toy_jcs : Jcs := fun w => Some w.

Fixpoint jsame_refl (v : json) : jsame v v.
Proof.
  destruct v as [|b|t|s|l|l]; try constructor.
  - intros a b [Ha _] [Hb _]. congruence.
  - induction l as [|[raw v] l IH]; constructor; [apply jsame_refl|apply IH].
  - induction l as [|[[k raw] v] l IH]; [done|]. intros m [<-|Hm].
    + exists (k, raw, v). split; [by left|]. split; [done|]. apply jsame_refl.
    + destruct (IH m Hm) as (m' & Hm' & ? & ?). exists m'. split; [by right|done].
  - induction l as [|[[k raw] v] l IH]; [done|]. intros m [<-|Hm].
    + exists (k, raw, v). split; [by left|]. split; [done|]. apply jsame_refl.
    + destruct (IH m Hm) as (m' & Hm' & ? & ?). exists m'. split; [by right|done].
Defined.

#[local] Instance toy_jcs_laws : JcsLaws.
Proof. intros w w' c v v' _ _ [= <-] [= <-] Hv Hv'. rewrite Hv in Hv'. injection Hv' as <-. apply jsame_refl. Qed.

Definition toy_tag (pk m : bytes) : bytes := sha256 (pk ++ m) ++ sha256 (m ++ pk).
#[local] Instance toy_ed25519 : Ed25519 := {
  ed25519_public k := substring 0 32 k;
  ed25519_sign k m := toy_tag (substring 0 32 k) m;
  ed25519_verify pk m s := s =s? toy_tag pk m }.

Lemma length_substring n : forall s, (n <= String.length s)%nat -> String.length (substring 0 n s) = n.
Proof. induction n as [|n IH]; intros [|a s] Hs; cbn in *; try lia. by rewrite IH by lia. Qed.

#[local] Instance toy_ed25519_laws : Ed25519Laws.
Proof.
  split.
  - intros k Hk. cbn [ed25519_public toy_ed25519]. unfold len, PublicKeySize, PrivateKeySize in *.
    rewrite length_substring; lia.
  - intros k m _. cbn [ed25519_sign toy_ed25519]. unfold toy_tag. by rewrite len_app, !len_sha256.
  - intros k m _. apply String.eqb_refl.
Qed.

(** ** A signed case *)
Definition ex_obj (l : list string) : string := "{" ++ join "," l ++ "}".
Definition ex_body : string :=
  ex_obj [marshal_member "domain" (json_string "payments"); marshal_member "issuer_edge_id" (json_string "edge-1");
          marshal_member "issuer_edge_generation" "3"; marshal_member "summary" (json_string "stuck");
          marshal_member "public_summary" (json_string "stuck");
          marshal_member "context_manifest" (json_string (sha256_text "ctx"))].

Definition ex_time (s : string) : Z := default 0 (ParseTimestamp s).
Definition ex_now : Z := ex_time "2026-01-01T00:00:10Z".
Definition ex_later : Z := ex_time "2026-01-01T00:30:00Z".

Definition ex_envelope : Envelope := {|
  Schema := SspFamilyCase; ID := "env-1"; CaseID := "case-1";
  EmittedAt := "2026-01-01T00:00:00Z"; ExpiresAt := "2026-01-01T01:00:00Z";
  RoutingEpoch := 2; RegistryRevision := 7; RegistryHash := sha256_text "registry";
  AuthorKeyID := "key-1"; SignatureAlg := "ed25519"; Body := ex_body; Signature := "" |}.

Definition ex_key : Ed25519SigningKey := mkSigningKey (be 64 12345678901234567890).
Definition ex_vk : Ed25519VerifyingKey := mkVerifyingKey (substring 0 32 (privateKey ex_key)).
Definition ex_keys : gmap string Ed25519VerifyingKey := {["key-1" := ex_vk]}.

Definition ex_wire : bytes := Eval vm_compute in
  match Sign ex_envelope ex_key ex_now with Ok w => w | Err _ => "" end.
Definition ex_value : json := Eval vm_compute in default JNull (parse ex_body).

Lemma ex_compact : compact_body (Body ex_envelope) ex_value.
Proof. split; [split; [done|exists 100%nat]|]; vm_compute; reflexivity. Qed.

Lemma sign_verify_witness : exists sig, Verify ex_wire ex_keys ex_now = Ok (with_signature ex_envelope (b64_encode sig)).
Proof. apply (sign_verify ex_envelope ex_value ex_key ex_vk ex_keys ex_now ex_wire ex_compact); vm_compute; reflexivity. Defined.

Definition ex_signed : Envelope := Eval vm_compute in
  match Verify ex_wire ex_keys ex_now with Ok e => e | Err _ => ex_envelope end.

Lemma verify_authentic_witness : exists l w c sig key,
    parse ex_wire = Some (JObject l) /\ decoded_from l ex_signed /\ well_formed ex_signed /\ live ex_signed ex_now /\
    parse w = Some (JObject (List.filter signed l)) /\ jcs_transform w = Some c /\
    Signature ex_signed = b64_encode sig /\ len sig = SignatureSize /\
    ex_keys !! AuthorKeyID ex_signed = Some key /\ ed25519_verify (publicKey key) c sig = true.
Proof. apply (verify_authentic ex_wire ex_keys ex_now ex_signed). vm_compute. reflexivity. Defined.

(** The same wire with white space between its tokens. *)
Definition ex_spaced : bytes := " " ++ ex_wire ++ " ".

Lemma commitment_identifies_witness :
  same_statement ex_signed ex_signed \/
  (exists c c', signing_bytes ex_wire = Ok c /\ signing_bytes ex_spaced = Ok c' /\ collision c c').
Proof.
  apply (commitment_identifies ex_wire ex_spaced ex_now ex_later
    (match EnvelopeCommitment ex_wire ex_now with Ok d => d | Err _ => "" end)); vm_compute; reflexivity.
Defined.

Lemma strip_keeps_members_witness : exists w, stripUnsignedTopLevel ex_wire = Ok w /\
  parse w = Some (JObject (List.filter signed (match parse ex_wire with Some (JObject l) => l | _ => [] end))).
Proof. apply strip_keeps_members. vm_compute. reflexivity. Defined.

(** ** A signed registry *)
Definition ex_registry_body : string :=
  ex_obj [marshal_member "revision" "7"; marshal_member "routing_epoch" "2"; marshal_member "previous_commitment" "null";
          marshal_member "domains" "[]"; marshal_member "principals" "[]"; marshal_member "edges" "[]"; marshal_member "keys" "[]"].

Definition ex_registry : Envelope := {|
  Schema := SspFamilyRegistry; ID := "reg-7"; CaseID := "";
  EmittedAt := "2026-01-01T00:00:00Z"; ExpiresAt := "2026-01-01T01:00:00Z";
  RoutingEpoch := 2; RegistryRevision := 7; RegistryHash := "";
  AuthorKeyID := "key-1"; SignatureAlg := "ed25519"; Body := ex_registry_body; Signature := "" |}.

Definition ex_registry_wire : bytes := Eval vm_compute in
  match Sign ex_registry ex_key ex_now with Ok w => w | Err _ => "" end.
Definition ex_proof : VerifiedRegistryEnvelope := Eval vm_compute in
  match VerifyRegistry ex_registry_wire "key-1" ex_vk ex_now with
  | Ok v => v | Err _ => mkVerified false "" ex_registry "" "" ex_vk 0 end.

Lemma reverify_exact_witness : AuthorKeyID (vr_envelope ex_proof) = "key-1" /\
  Schema (vr_envelope ex_proof) = SspFamilyRegistry /\
  forall now' v', ReverifyAt ex_proof now' = Ok v' <->
    live (vr_envelope ex_proof) now' /\
    v' = mkVerified true ex_registry_wire (vr_envelope ex_proof) (vr_commitment ex_proof) "key-1" ex_vk now'.
Proof. apply (reverify_exact ex_registry_wire "key-1" ex_vk ex_now ex_proof). vm_compute. reflexivity. Defined.

(** ** Escapes *)
Definition ex_escaped : string := "a\uD83D\uDE00b" ++ String quote ",1".

Lemma escapes_exact_witness : escapes_from true ex_escaped = Ok tt <->
  well_escaped "a\uD83D\uDE00b" /\ escapes_from false ",1" = Ok tt.
Proof. apply escapes_exact. vm_compute. reflexivity. Defined.

Example ex_lone_surrogate : is_ok (validateStringEscapes (String quote ("\uD83Dx" ++ String quote ""))) = false.
Proof. reflexivity. Qed.
