(* ===== verification/EdgeStore.v ===== *)
(** * internal/sspedge/store.go: the edge's projection of the delivery log

    The encrypted SQLite store of one edge: the contiguous delivery counter and
    its halts ([applyVerified], [RequireReconciliation],
    [CompleteReconciliation]), the envelope identities, the accepted cases and
    advices, and the outbox towards the local fronts.  Opening the file, its
    keys and the SQLCipher pragmas are not modelled; the AEAD of the field key
    is a parameter. *)
From S2P Require Import Prelude GoText GoTime GoJson Sha256 DeliveryStream SqliteTx.
From stdpp Require Import sorting.
Open Scope string_scope.
Open Scope Z_scope.
Open Scope snag_scope.

(** ** Vocabulary *)
Definition FamilyCase : string := "case".
Definition FamilyAdvice : string := "advice".
Definition VerdictAccepted : string := "accepted".
Definition VerdictRejected : string := "rejected".
Definition VerdictQuarantined : string := "quarantined".
Definition ApplyAccepted : string := "accepted".
Definition ApplyRejected : string := "rejected".
Definition ApplyQuarantined : string := "quarantined".
Definition ApplyDuplicate : string := "duplicate".
Definition ApplyReconciliationRequired : string := "reconciliation_required".
Definition ApplyIdentityConflict : string := "identity_conflict".
Definition DeliveryModeActive : string := "active".
Definition DeliveryModeReconciliationRequired : string := "reconciliation_required".

Record EdgeIdentity := { ei_TenantID : string; ei_EdgeID : string; ei_Generation : Z }.

Definition identity_valid (i : EdgeIdentity) : bool :=
  negb (is_empty (ei_TenantID i) || is_empty (ei_EdgeID i) || (ei_Generation i <=? 0)).

Record JournalDelivery := {
  jd_Stream : string;
  jd_Sequence : Z;
  jd_DeliverySeq : Z;
  jd_TenantID : string;
  jd_EdgeID : string;
  jd_EdgeGeneration : Z;
  jd_Subject : string;
  jd_Raw : bytes
}.

Record Case := {
  c_CaseID : string;
  c_IssuerEdgeID : string;
  c_Domain : string;
  c_Summary : string;
  c_ContextManifest : string;
  c_IssuerEdgeGeneration : Z;
  c_RouteKind : string;
  c_RouteToken : string;
  c_SourceToken : string;
  c_RoutingEpoch : Z;
  c_RegistryRevision : Z;
  c_RegistryHash : string;
  c_ExpiresAt : Z
}.

Record Advice := {
  a_AdviceID : string;
  a_CaseID : string;
  a_CaseCommitment : string;
  a_Text : string;
  a_IssuerEdgeID : string;
  a_RouteKind : string;
  a_RouteToken : string;
  a_IssuerEdgeGeneration : Z;
  a_RoutingEpoch : Z;
  a_RegistryRevision : Z;
  a_RegistryHash : string;
  a_ExpiresAt : Z
}.

Record VerifiedProjection := {
  p_EnvelopeID : string;
  p_Commitment : string;
  p_Family : string;
  p_Case : option Case;
  p_Advice : option Advice
}.

(** ** Rows and tables *)
Record StateRow := {
  sr_last : Z;
  sr_high : Z;
  sr_mode : string;
  sr_reason : string;
  sr_updated_at : string
}.

Record DeliveryRow := {
  dr_stream : string;
  dr_carrier_sequence : Z;
  dr_subject : string;
  dr_raw_sha256 : string;
  dr_envelope_id : option string;
  dr_family : option string;
  dr_verdict : string;
  dr_reason : string;
  dr_received_at : string;
  dr_committed_at : string
}.

Record IdentityRow := {
  ir_commitment : string;
  ir_state : string;
  ir_first_delivery_seq : Z;
  ir_first_seen_at : string;
  ir_conflicting_commitment : option string;
  ir_conflicting_delivery_seq : option Z;
  ir_quarantined_at : option string
}.

Record CaseRow := {
  er_envelope_id : string;
  er_commitment : string;
  er_issuer_edge_id : string;
  er_issuer_edge_generation : Z;
  er_route_kind : string;
  er_route_token : string;
  er_source_token : string;
  er_domain : string;
  er_routing_epoch : Z;
  er_registry_revision : Z;
  er_registry_hash : string;
  er_payload_ciphertext : bytes;
  er_expires_at : string;
  er_state : string
}.

Record EdgeAdviceRow := {
  ar_envelope_id : string;
  ar_case_id : string;
  ar_case_commitment : string;
  ar_commitment : string;
  ar_issuer_edge_id : string;
  ar_issuer_edge_generation : Z;
  ar_route_kind : string;
  ar_route_token : string;
  ar_routing_epoch : Z;
  ar_registry_revision : Z;
  ar_registry_hash : string;
  ar_text_ciphertext : bytes;
  ar_expires_at : string;
  ar_received_at : string;
  ar_state : string
}.

Record FrontRow := {
  fr_message_id : string;
  fr_state : string;
  fr_created_at : string;
  fr_lease_owner : option string;
  fr_lease_expires_at : option string;
  fr_claim_token : option string;
  fr_delivery_receipt : option string;
  fr_delivered_at : option string
}.

(** The spool rows of edge_case_store.go, edge_advice_spool.go and
    dispatcher_turn_store.go live in the same file. *)
Record PendingCaseRow := {
  pc_envelope_id : string;
  pc_commitment : string;
  pc_raw_ciphertext : bytes;
  pc_created_at : string;
  pc_state : string;
  pc_authority_id : option string;
  pc_authority_revision : option Z;
  pc_accepted_at : option string
}.

Record PendingAdviceRow := {
  pa_advice_id : string;
  pa_case_commitment : string;
  pa_commitment : string;
  pa_raw_ciphertext : bytes;
  pa_created_at : string;
  pa_state : string;
  pa_authority_id : option string;
  pa_authority_revision : option Z;
  pa_accepted_at : option string
}.

Record TurnRow := {
  tr_request_ciphertext : bytes;
  tr_result_ciphertext : option bytes;
  tr_state : string;
  tr_created : Z;
  tr_expires : Z;
  tr_completed : option Z;
  tr_claim_token : option string;
  tr_claim_expires : option Z
}.

Definition edge_key : Type := string * string * Z.

Record EdgeDB := {
  delivery_state : gmap edge_key StateRow;
  deliveries : gmap (edge_key * Z) DeliveryRow;
  identities : gmap string IdentityRow;
  cases : gmap string CaseRow;
  advice : gmap string EdgeAdviceRow;
  front_outbox : gmap (string * string) FrontRow;
  pending_cases : gmap string PendingCaseRow;
  pending_advice : gmap string PendingAdviceRow;
  turns : gmap string TurnRow
}.

Definition empty_edge : EdgeDB :=
  {| delivery_state := ∅; deliveries := ∅; identities := ∅; cases := ∅; advice := ∅;
     front_outbox := ∅; pending_cases := ∅; pending_advice := ∅; turns := ∅ |}.

Definition set_delivery_state x s :=
  {| delivery_state := x; deliveries := deliveries s; identities := identities s;
     cases := cases s; advice := advice s; front_outbox := front_outbox s;
     pending_cases := pending_cases s; pending_advice := pending_advice s; turns := turns s |}.
Definition set_deliveries x s :=
  {| delivery_state := delivery_state s; deliveries := x; identities := identities s;
     cases := cases s; advice := advice s; front_outbox := front_outbox s;
     pending_cases := pending_cases s; pending_advice := pending_advice s; turns := turns s |}.
Definition set_identities x s :=
  {| delivery_state := delivery_state s; deliveries := deliveries s; identities := x;
     cases := cases s; advice := advice s; front_outbox := front_outbox s;
     pending_cases := pending_cases s; pending_advice := pending_advice s; turns := turns s |}.
Definition set_cases x s :=
  {| delivery_state := delivery_state s; deliveries := deliveries s; identities := identities s;
     cases := x; advice := advice s; front_outbox := front_outbox s;
     pending_cases := pending_cases s; pending_advice := pending_advice s; turns := turns s |}.
Definition set_advice x s :=
  {| delivery_state := delivery_state s; deliveries := deliveries s; identities := identities s;
     cases := cases s; advice := x; front_outbox := front_outbox s;
     pending_cases := pending_cases s; pending_advice := pending_advice s; turns := turns s |}.
Definition set_front_outbox x s :=
  {| delivery_state := delivery_state s; deliveries := deliveries s; identities := identities s;
     cases := cases s; advice := advice s; front_outbox := x;
     pending_cases := pending_cases s; pending_advice := pending_advice s; turns := turns s |}.
Definition set_pending_cases x s :=
  {| delivery_state := delivery_state s; deliveries := deliveries s; identities := identities s;
     cases := cases s; advice := advice s; front_outbox := front_outbox s;
     pending_cases := x; pending_advice := pending_advice s; turns := turns s |}.
Definition set_pending_advice x s :=
  {| delivery_state := delivery_state s; deliveries := deliveries s; identities := identities s;
     cases := cases s; advice := advice s; front_outbox := front_outbox s;
     pending_cases := pending_cases s; pending_advice := x; turns := turns s |}.
Definition set_turns x s :=
  {| delivery_state := delivery_state s; deliveries := deliveries s; identities := identities s;
     cases := cases s; advice := advice s; front_outbox := front_outbox s;
     pending_cases := pending_cases s; pending_advice := pending_advice s; turns := x |}.

Definition key_of (i : EdgeIdentity) : edge_key := (ei_TenantID i, ei_EdgeID i, ei_Generation i).

(** [hash]: the commitment text of the raw bytes. *)
Definition hash (raw : bytes) : string := sha256_text raw.

Definition EdgeRoutingToken (edgeID : string) (generation : Z) : string :=
  if generation <=? 0 then "" else EdgeToken edgeID (uint64 generation).

(** ** Validation *)
Definition case_shape (c : Case) : bool :=
  negb (is_empty (c_CaseID c) || (c_IssuerEdgeGeneration c <=? 0)
        || (c_RouteKind c <>s? "domain") || negb (hex64 (c_RouteToken c))
        || negb (hex64 (c_SourceToken c)) || negb (sha256_pattern (c_RegistryHash c))
        || is_zero_time (c_ExpiresAt c)).

Definition advice_shape (a : Advice) : bool :=
  negb (is_empty (a_AdviceID a) || is_empty (a_IssuerEdgeID a)
        || (a_IssuerEdgeGeneration a <=? 0) || (a_RouteKind a <>s? "edge")
        || negb (hex64 (a_RouteToken a)) || negb (sha256_pattern (a_CaseCommitment a))
        || negb (sha256_pattern (a_RegistryHash a)) || is_zero_time (a_ExpiresAt a)).

Definition case_addressed (c : Case) (d : JournalDelivery) : bool :=
  (c_IssuerEdgeID c =s? jd_EdgeID d) && (c_IssuerEdgeGeneration c =? jd_EdgeGeneration d)
  && (c_RouteToken c =s? RoutingToken (c_Domain c))
  && (c_SourceToken c =s? EdgeRoutingToken (jd_EdgeID d) (jd_EdgeGeneration d)).

Definition advice_addressed (a : Advice) (d : JournalDelivery) : bool :=
  (a_IssuerEdgeID a =s? jd_EdgeID d) && (a_IssuerEdgeGeneration a =? jd_EdgeGeneration d)
  && (a_RouteToken a =s? EdgeRoutingToken (jd_EdgeID d) (jd_EdgeGeneration d)).

Definition metadata_ok (p : VerifiedProjection) : bool :=
  negb (is_empty (p_EnvelopeID p)) && sha256_pattern (p_Commitment p)
  && ((p_Family p =s? FamilyCase) || (p_Family p =s? FamilyAdvice)).

Definition validateDelivery (d : JournalDelivery) (v reason : string)
    (p : option VerifiedProjection) (now : Z) : result string unit :=
  if (jd_DeliverySeq d <=? 0) || is_empty (jd_TenantID d) || is_empty (jd_EdgeID d)
     || (jd_EdgeGeneration d <=? 0) || is_empty (jd_Subject d) || (len (jd_Raw d) =? 0)
     || is_zero_time now
  then Err "invalid delivery"
  else if (v <>s? VerdictAccepted) && (v <>s? VerdictRejected) && (v <>s? VerdictQuarantined)
  then Err "invalid verdict"
  else if 256 <? len reason then Err "rejection reason too long"
  else if v =s? VerdictAccepted then
    match p with
    | None => Err "invalid accepted projection"
    | Some p =>
        if negb (metadata_ok p) then Err "invalid accepted projection"
        else if (p_Family p =s? FamilyCase)
                && match p_Case p with Some c => negb (case_shape c) | None => true end
        then Err "invalid case"
        else if (p_Family p =s? FamilyAdvice)
                && match p_Advice p with Some a => negb (advice_shape a) | None => true end
        then Err "invalid advice"
        else if (p_Family p =s? FamilyCase)
                && match p_Case p with Some c => negb (case_addressed c d) | None => true end
        then Err "case delivery identity mismatch"
        else if (p_Family p =s? FamilyAdvice)
                && match p_Advice p with Some a => negb (advice_addressed a d) | None => true end
        then Err "advice delivery identity mismatch"
        else Ok tt
    end
  else match p with
       | Some p => if metadata_ok p then Ok tt else Err "invalid rejected receipt metadata"
       | None => Ok tt
       end.

(** ** The contiguous counter *)
Definition fresh_state : StateRow :=
  {| sr_last := 0; sr_high := 0; sr_mode := DeliveryModeActive; sr_reason := "";
     sr_updated_at := "" |}.

Definition deliveryStateTx (id : EdgeIdentity) : STx EdgeDB (option StateRow) :=
  select (fun s => delivery_state s !! key_of id).

(** INSERT ... ON CONFLICT DO UPDATE: the stored counter is kept. *)
Definition requireReconciliationTx (id : EdgeIdentity) (state : StateRow) (observed : Z)
    (reason : string) (now : Z) : STx EdgeDB unit :=
  exec (fun s =>
    let high := Z.max (sr_high state) observed in
    set_delivery_state (<[key_of id :=
      match delivery_state s !! key_of id with
      | None => {| sr_last := sr_last state; sr_high := high;
                   sr_mode := DeliveryModeReconciliationRequired; sr_reason := reason;
                   sr_updated_at := sqlTime now |}
      | Some r => {| sr_last := sr_last r; sr_high := Z.max (sr_high r) high;
                     sr_mode := DeliveryModeReconciliationRequired; sr_reason := reason;
                     sr_updated_at := sqlTime now |}
      end]> (delivery_state s)) s).

Definition haltAndCommitTx (id : EdgeIdentity) (state : StateRow) (observed : Z)
    (reason : string) (now : Z) (outcome : string) : STx EdgeDB string :=
  requireReconciliationTx id state observed reason now;; mret outcome.

Definition advanceDeliveryStateTx (id : EdgeIdentity) (stateExists : bool) (seq now : Z)
  : STx EdgeDB unit :=
  exec (fun s =>
    if stateExists then
      match delivery_state s !! key_of id with
      | None => s
      | Some r => set_delivery_state (<[key_of id :=
          {| sr_last := seq; sr_high := Z.max (sr_high r) seq; sr_mode := sr_mode r;
             sr_reason := sr_reason r; sr_updated_at := sqlTime now |}]> (delivery_state s)) s
      end
    else set_delivery_state (<[key_of id :=
          {| sr_last := seq; sr_high := seq; sr_mode := DeliveryModeActive; sr_reason := "";
             sr_updated_at := sqlTime now |}]> (delivery_state s)) s).

(** ** Envelope identities *)
Definition mark_case (st : string) (r : CaseRow) : CaseRow :=
  {| er_envelope_id := er_envelope_id r; er_commitment := er_commitment r;
     er_issuer_edge_id := er_issuer_edge_id r;
     er_issuer_edge_generation := er_issuer_edge_generation r;
     er_route_kind := er_route_kind r; er_route_token := er_route_token r;
     er_source_token := er_source_token r; er_domain := er_domain r;
     er_routing_epoch := er_routing_epoch r; er_registry_revision := er_registry_revision r;
     er_registry_hash := er_registry_hash r; er_payload_ciphertext := er_payload_ciphertext r;
     er_expires_at := er_expires_at r; er_state := st |}.

Definition mark_advice (st : string) (r : EdgeAdviceRow) : EdgeAdviceRow :=
  {| ar_envelope_id := ar_envelope_id r; ar_case_id := ar_case_id r;
     ar_case_commitment := ar_case_commitment r; ar_commitment := ar_commitment r;
     ar_issuer_edge_id := ar_issuer_edge_id r;
     ar_issuer_edge_generation := ar_issuer_edge_generation r;
     ar_route_kind := ar_route_kind r; ar_route_token := ar_route_token r;
     ar_routing_epoch := ar_routing_epoch r; ar_registry_revision := ar_registry_revision r;
     ar_registry_hash := ar_registry_hash r; ar_text_ciphertext := ar_text_ciphertext r;
     ar_expires_at := ar_expires_at r; ar_received_at := ar_received_at r; ar_state := st |}.

Definition mark_front (st : string) (r : FrontRow) : FrontRow :=
  {| fr_message_id := fr_message_id r; fr_state := st; fr_created_at := fr_created_at r;
     fr_lease_owner := fr_lease_owner r; fr_lease_expires_at := fr_lease_expires_at r;
     fr_claim_token := fr_claim_token r; fr_delivery_receipt := fr_delivery_receipt r;
     fr_delivered_at := fr_delivered_at r |}.

(** COALESCE(column, value): an evidence column is written once. *)
Definition coalesce {A} (o : option A) (a : A) : option A :=
  match o with Some x => Some x | None => Some a end.

Definition quarantine_identity (commitment : string) (seq now : Z) (r : IdentityRow)
  : IdentityRow :=
  {| ir_commitment := ir_commitment r; ir_state := "quarantined";
     ir_first_delivery_seq := ir_first_delivery_seq r; ir_first_seen_at := ir_first_seen_at r;
     ir_conflicting_commitment := coalesce (ir_conflicting_commitment r) commitment;
     ir_conflicting_delivery_seq := coalesce (ir_conflicting_delivery_seq r) seq;
     ir_quarantined_at := coalesce (ir_quarantined_at r) (sqlTime now) |}.

Definition claimIdentity (id commitment : string) (d : JournalDelivery) (now : Z)
  : STx EdgeDB string :=
  stored ← select (fun s => identities s !! id);
  match stored with
  | None =>
      exec (fun s => set_identities (<[id :=
        {| ir_commitment := commitment; ir_state := "accepted";
           ir_first_delivery_seq := jd_DeliverySeq d; ir_first_seen_at := sqlTime now;
           ir_conflicting_commitment := None; ir_conflicting_delivery_seq := None;
           ir_quarantined_at := None |}]> (identities s)) s);;
      mret ApplyAccepted
  | Some r =>
      if ir_commitment r =s? commitment then mret ApplyDuplicate
      else
        exec (fun s => set_identities
          (alter (quarantine_identity commitment (jd_DeliverySeq d) now) id (identities s)) s);;
        exec (fun s => set_cases
          ((fun r => if er_envelope_id r =s? id then mark_case "quarantined" r else r) <$> cases s) s);;
        exec (fun s => set_advice
          ((fun r => if ar_envelope_id r =s? id then mark_advice "quarantined" r else r)
             <$> advice s) s);;
        exec (fun s => set_front_outbox
          (map_imap (fun k r =>
             Some (match advice s !! k.2 with
                   | Some a => if ar_envelope_id a =s? id then mark_front "quarantined" r else r
                   | None => r
                   end)) (front_outbox s)) s);;
        mret ApplyQuarantined
  end.

Definition encodeCasePayload (summary contextManifest : string) : bytes :=
  "{" ++ json_string "summary" ++ ":" ++ json_string summary ++ "," ++
  json_string "context_manifest" ++ ":" ++ json_string contextManifest ++ "}".

(** INSERT into a table with one more UNIQUE column, as SQLite treats it with
    and without [ON CONFLICT(key) DO NOTHING]. *)
Definition unique_failed : string := "UNIQUE constraint failed".

Definition insert_or_ignore {K V} `{Countable K} (clash : V -> bool) (k : K) (v : V) (m : gmap K V)
  : result string (gmap K V) :=
  match m !! k with
  | Some _ => Ok m
  | None =>
      if existsb (fun kv => clash kv.2) (map_to_list m) then Err unique_failed
      else Ok (<[k := v]> m)
  end.

Definition insert_strict {K V} `{Countable K} (clash : V -> bool) (k : K) (v : V) (m : gmap K V)
  : result string (gmap K V) :=
  match m !! k with
  | Some _ => Err unique_failed
  | None =>
      if existsb (fun kv => clash kv.2) (map_to_list m) then Err unique_failed
      else Ok (<[k := v]> m)
  end.

Definition put {S T} (get : S -> T) (set : T -> S -> S) (f : T -> result string T) : STx S unit :=
  sql (fun s => match f (get s) with Ok t => Ok (tt, set t s) | Err e => Err e end).

(** ** The field AEAD

    AES-GCM under the field key, given as its [Seal] and [Open]; nonces are 12
    random bytes stored in front of the ciphertext, and the associated data
    binds table, key and tenant. *)
Class AEAD := {
  Seal : bytes -> bytes -> bytes -> bytes;
  Open : bytes -> bytes -> bytes -> option bytes
}.

(** What the store relies on: decryption under the same nonce and associated
    data returns the plaintext. *)
Class AEADLaws `{AEAD} : Prop :=
  open_seal : forall nonce plain aad, Open nonce (Seal nonce plain aad) aad = Some plain.

Definition nonceSize : nat := 12.
Definition nul : string := String (of_code 0) "".

Section Store.
Context `{AEAD} (tenant : string).

Definition aad (table key : string) : bytes := table ++ nul ++ key ++ nul ++ tenant.

Definition seal (table key : string) (plain : bytes) : STx EdgeDB bytes :=
  nonce ← rand nonceSize;
  mret (nonce ++ Seal nonce plain (aad table key)).

(** [open]: a pure function of the stored bytes. *)
Definition open_field (table key : string) (ciphertext : bytes) : result string bytes :=
  if len ciphertext <? Z.of_nat nonceSize then Err "ciphertext is truncated"
  else match Open (substring 0 nonceSize ciphertext)
                  (substring nonceSize (String.length ciphertext - nonceSize) ciphertext)
                  (aad table key) with
       | Some plain => Ok plain
       | None => Err "ciphertext failed authentication"
       end.

(** ** Projections *)
Definition case_row_of (p : VerifiedProjection) (c : Case) (body : bytes) : CaseRow :=
  {| er_envelope_id := p_EnvelopeID p; er_commitment := p_Commitment p;
     er_issuer_edge_id := c_IssuerEdgeID c;
     er_issuer_edge_generation := c_IssuerEdgeGeneration c; er_route_kind := c_RouteKind c;
     er_route_token := c_RouteToken c; er_source_token := c_SourceToken c;
     er_domain := c_Domain c; er_routing_epoch := c_RoutingEpoch c;
     er_registry_revision := c_RegistryRevision c; er_registry_hash := c_RegistryHash c;
     er_payload_ciphertext := body; er_expires_at := sqlTime (c_ExpiresAt c);
     er_state := "accepted" |}.

Definition advice_row_of (p : VerifiedProjection) (a : Advice) (body : bytes) (now : Z)
  : EdgeAdviceRow :=
  {| ar_envelope_id := p_EnvelopeID p; ar_case_id := a_CaseID a;
     ar_case_commitment := a_CaseCommitment a; ar_commitment := p_Commitment p;
     ar_issuer_edge_id := a_IssuerEdgeID a;
     ar_issuer_edge_generation := a_IssuerEdgeGeneration a; ar_route_kind := a_RouteKind a;
     ar_route_token := a_RouteToken a; ar_routing_epoch := a_RoutingEpoch a;
     ar_registry_revision := a_RegistryRevision a; ar_registry_hash := a_RegistryHash a;
     ar_text_ciphertext := body; ar_expires_at := sqlTime (a_ExpiresAt a);
     ar_received_at := sqlTime now; ar_state := "accepted" |}.

Definition front_message (front adviceID : string) : string :=
  "snagline." ++ front ++ ".advice.v1/" ++ adviceID.

Definition front_row (front adviceID : string) (now : Z) : FrontRow :=
  {| fr_message_id := front_message front adviceID; fr_state := "pending";
     fr_created_at := sqlTime now; fr_lease_owner := None; fr_lease_expires_at := None;
     fr_claim_token := None; fr_delivery_receipt := None; fr_delivered_at := None |}.

Definition insertFront (front adviceID : string) (now : Z) : STx EdgeDB unit :=
  put front_outbox set_front_outbox (insert_or_ignore
    (fun r => fr_message_id r =s? front_message front adviceID) (front, adviceID)
    (front_row front adviceID now)).

(** The accepted case an advice must bind. *)
Definition adviceBindsCase (r : CaseRow) (a : Advice) : bool :=
  (er_commitment r =s? a_CaseCommitment a) && (er_issuer_edge_id r =s? a_IssuerEdgeID a)
  && (er_issuer_edge_generation r =? a_IssuerEdgeGeneration a)
  && (er_source_token r =s? a_RouteToken a) && (er_routing_epoch r =? a_RoutingEpoch a)
  && (er_registry_revision r =? a_RegistryRevision a)
  && (er_registry_hash r =s? a_RegistryHash a).

Definition persistProjection (p : VerifiedProjection) (now : Z) : STx EdgeDB unit :=
  if p_Family p =s? FamilyCase then
    match p_Case p with
    | None => fail "case projection required"
    | Some c =>
        body ← seal "ssp_edge_cases" (c_CaseID c)
                 (encodeCasePayload (c_Summary c) (c_ContextManifest c));
        put cases set_cases (insert_or_ignore
          (fun r => er_envelope_id r =s? p_EnvelopeID p) (c_CaseID c) (case_row_of p c body))
    end
  else if p_Family p =s? FamilyAdvice then
    match p_Advice p with
    | None => fail "advice projection required"
    | Some a =>
        row ← select (fun s => match cases s !! a_CaseID a with
                               | Some r => if er_state r =s? "accepted" then Some r else None
                               | None => None
                               end);
        match row with
        | None => fail "advice case is absent or quarantined"
        | Some r =>
            check (negb (adviceBindsCase r a)) "advice does not bind exact accepted case";;
            body ← seal "ssp_edge_advice" (a_AdviceID a) (a_Text a);
            put advice set_advice (insert_or_ignore
              (fun r => ar_envelope_id r =s? p_EnvelopeID p) (a_AdviceID a)
              (advice_row_of p a body now));;
            insertFront "cli" (a_AdviceID a) now;;
            insertFront "amq" (a_AdviceID a) now
        end
    end
  else fail "unknown family".

(** ** [applyVerified] *)
Definition delivery_identity (d : JournalDelivery) : EdgeIdentity :=
  {| ei_TenantID := jd_TenantID d; ei_EdgeID := jd_EdgeID d; ei_Generation := jd_EdgeGeneration d |}.

Definition recordedDelivery (id : EdgeIdentity) (seq : Z) : STx EdgeDB (option DeliveryRow) :=
  select (fun s => deliveries s !! (key_of id, seq)).

Definition same_evidence (row : DeliveryRow) (d : JournalDelivery) : bool :=
  (dr_raw_sha256 row =s? hash (jd_Raw d)) && (dr_subject row =s? jd_Subject d).

Definition delivery_row_of (d : JournalDelivery) (verdict reason : string)
    (p : option VerifiedProjection) (now : Z) : DeliveryRow :=
  {| dr_stream := jd_Stream d; dr_carrier_sequence := jd_Sequence d; dr_subject := jd_Subject d;
     dr_raw_sha256 := hash (jd_Raw d); dr_envelope_id := p_EnvelopeID <$> p;
     dr_family := p_Family <$> p; dr_verdict := verdict; dr_reason := reason;
     dr_received_at := sqlTime now; dr_committed_at := sqlTime now |}.

(** The verdict step: an accepted projection claims its envelope identity and
    is persisted, unless the identity is known.  The result is the outcome and
    the verdict and reason that are recorded. *)
Definition applyVerdict (d : JournalDelivery) (verdict reason : string)
    (p : option VerifiedProjection) (now : Z) : STx EdgeDB (string * string * string) :=
  if verdict =s? VerdictAccepted then
    match p with
    | None => fail "invalid accepted projection"
    | Some p =>
        state ← claimIdentity (p_EnvelopeID p) (p_Commitment p) d now;
        if state =s? ApplyQuarantined then
          mret (ApplyQuarantined, VerdictQuarantined, "semantic_commitment_conflict")
        else if state =s? ApplyDuplicate then mret (ApplyDuplicate, verdict, reason)
        else persistProjection p now;; mret (verdict, verdict, reason)
    end
  else mret (verdict, verdict, reason).

Definition applyNew (d : JournalDelivery) (verdict reason : string)
    (p : option VerifiedProjection) (now : Z) (stateExists : bool) : STx EdgeDB string :=
  let id := delivery_identity d in
  r ← applyVerdict d verdict reason p now;
  let '(outcome, verdict, reason) := r in
  put deliveries set_deliveries (insert_strict (fun _ => false) (key_of id, jd_DeliverySeq d)
    (delivery_row_of d verdict reason p now));;
  advanceDeliveryStateTx id stateExists (jd_DeliverySeq d) now;;
  mret outcome.

Definition applyWork (d : JournalDelivery) (verdict reason : string)
    (p : option VerifiedProjection) (now : Z) (allowReconciliation : bool) : STx EdgeDB string :=
  let id := delivery_identity d in
  found ← deliveryStateTx id;
  let stateExists := match found with Some _ => true | None => false end in
  let state := match found with Some r => r | None => fresh_state end in
  if jd_DeliverySeq d <=? sr_last state then
    row ← recordedDelivery id (jd_DeliverySeq d);
    match row with
    | Some row =>
        if negb (same_evidence row d)
        then haltAndCommitTx id state (jd_DeliverySeq d) "delivery_identity_conflict" now
               ApplyIdentityConflict
        else mret ApplyDuplicate
    | None => haltAndCommitTx id state (jd_DeliverySeq d) "missing_committed_delivery" now
                ApplyReconciliationRequired
    end
  else if negb (jd_DeliverySeq d =? sr_last state + 1)
          || (sr_mode state =s? DeliveryModeReconciliationRequired) && negb allowReconciliation
  then haltAndCommitTx id state (jd_DeliverySeq d) "delivery_sequence_gap" now
         ApplyReconciliationRequired
  else
    row ← recordedDelivery id (jd_DeliverySeq d);
    match row with
    | Some row =>
        if negb (same_evidence row d)
        then haltAndCommitTx id state (jd_DeliverySeq d) "delivery_identity_conflict" now
               ApplyIdentityConflict
        else
          (if allowReconciliation
           then advanceDeliveryStateTx id stateExists (jd_DeliverySeq d) now
           else mret tt);;
          mret ApplyDuplicate
    | None => applyNew d verdict reason p now stateExists
    end.

Definition applyVerified (d : JournalDelivery) (verdict reason : string)
    (p : option VerifiedProjection) (now : Z) (allowReconciliation : bool)
    (env : TxEnv) (s : EdgeDB) : EdgeDB * result string string :=
  match validateDelivery d verdict reason p now with
  | Err e => (s, Err e)
  | Ok _ =>
      if jd_TenantID d <>s? tenant then (s, Err "delivery tenant does not own this store")
      else run_tx (applyWork d verdict reason p now allowReconciliation) env s
  end.

(** ** The other writers of the counter *)
Definition RequireReconciliation (id : EdgeIdentity) (observed : Z) (reason : string) (now : Z)
    (env : TxEnv) (s : EdgeDB) : EdgeDB * result string unit :=
  if negb (identity_valid id) then (s, Err "invalid edge identity")
  else if (observed <? 0) || is_empty reason || is_zero_time now
  then (s, Err "invalid reconciliation requirement")
  else run_tx (found ← deliveryStateTx id;
               requireReconciliationTx id (match found with Some r => r | None => fresh_state end)
                 observed reason now) env s.

Definition DeliveryState (id : EdgeIdentity) (fault : option string) (s : EdgeDB)
  : result string StateRow :=
  if negb (identity_valid id) then Err "invalid edge identity"
  else match fault with
       | Some e => Err e
       | None => Ok (match delivery_state s !! key_of id with Some r => r | None => fresh_state end)
       end.

Definition CompleteReconciliation (id : EdgeIdentity) (completeThrough high now : Z)
    (fault : option string) (s : EdgeDB) : EdgeDB * result string unit :=
  if negb (identity_valid id) then (s, Err "invalid edge identity")
  else if (completeThrough <? 0) || negb (completeThrough =? high) || is_zero_time now
  then (s, Err "invalid reconciliation completion")
  else match fault with
  | Some e => (s, Err e)
  | None =>
      match delivery_state s !! key_of id with
      | Some r =>
          if (sr_mode r =s? DeliveryModeReconciliationRequired)
             && (sr_last r =? completeThrough) && (sr_high r =? high)
          then (set_delivery_state (<[key_of id :=
                  {| sr_last := sr_last r; sr_high := sr_high r; sr_mode := DeliveryModeActive;
                     sr_reason := ""; sr_updated_at := sqlTime now |}]> (delivery_state s)) s, Ok tt)
          else (s, Err "reconciliation is not contiguous through high watermark")
      | None => (s, Err "reconciliation is not contiguous through high watermark")
      end
  end.

(** ** The outbox towards the local fronts *)
Definition FrontCLI : string := "cli".
Definition FrontAMQ : string := "amq".
Definition known_front (front : string) : bool := (front =s? FrontCLI) || (front =s? FrontAMQ).

Record FrontDelivery := {
  fd_Front : string;
  fd_CaseID : string;
  fd_AdviceID : string;
  fd_MessageID : string;
  fd_Text : string;
  fd_ClaimToken : string
}.

Record FrontReceipt := {
  fp_Front : string;
  fp_MessageID : string;
  fp_ClaimToken : string;
  fp_ReceiptID : string
}.

(** A lease is compared as the text it is stored as. *)
Definition front_free (now : Z) (r : FrontRow) : bool :=
  (fr_state r =s? "pending")
  || ((fr_state r =s? "delivering")
      && match fr_lease_expires_at r with
         | Some t => str_lt t (sqlTime now)
         | None => false
         end).

Definition front_before (a b : (string * string) * FrontRow) : bool :=
  if str_lt (fr_created_at a.2) (fr_created_at b.2) then true
  else if str_lt (fr_created_at b.2) (fr_created_at a.2) then false
  else str_lt a.1.2 b.1.2.

Definition front_le (a b : (string * string) * FrontRow) : Prop := front_before b a = false.
#[local] Instance front_le_dec : RelDecision front_le.
Proof. intros a b. unfold front_le. apply _. Defined.

Definition accepted_advice (s : EdgeDB) (adviceID : string) : option EdgeAdviceRow :=
  match advice s !! adviceID with
  | Some a => if ar_state a =s? "accepted" then Some a else None
  | None => None
  end.

Definition front_candidates (front : string) (now limit : Z) (s : EdgeDB)
  : list ((string * string) * FrontRow) :=
  take (Z.to_nat limit) (merge_sort front_le
    (filter (fun kv => kv.1.1 = front /\ front_free now kv.2 = true /\
                       is_Some (accepted_advice s kv.1.2))
            (map_to_list (front_outbox s)))).

Definition leased_front (owner : string) (expires : Z) (token : string) (r : FrontRow) : FrontRow :=
  {| fr_message_id := fr_message_id r; fr_state := "delivering"; fr_created_at := fr_created_at r;
     fr_lease_owner := Some owner; fr_lease_expires_at := Some (sqlTime expires);
     fr_claim_token := Some token; fr_delivery_receipt := fr_delivery_receipt r;
     fr_delivered_at := fr_delivered_at r |}.

Definition claimToken : STx EdgeDB string := b ← rand 32; mret (hex b).

Fixpoint claimFronts (front owner : string) (ttl now : Z)
    (rows : list ((string * string) * FrontRow * EdgeAdviceRow)) : STx EdgeDB (list FrontDelivery) :=
  match rows with
  | [] => mret []
  | ((key, row), a) :: rows =>
      token ← claimToken;
      n ← sql (fun s =>
        match front_outbox s !! key with
        | Some r => if front_free now r
                    then Ok (1, set_front_outbox (<[key := leased_front owner (now + ttl) token r]>
                                                    (front_outbox s)) s)
                    else Ok (0, s)
        | None => Ok (0, s)
        end);
      if negb (n =? 1) then claimFronts front owner ttl now rows
      else
        text ← lift (open_field "ssp_edge_advice" key.2 (ar_text_ciphertext a));
        rest ← claimFronts front owner ttl now rows;
        mret ({| fd_Front := front; fd_CaseID := ar_case_id a; fd_AdviceID := key.2;
                 fd_MessageID := fr_message_id row; fd_Text := text; fd_ClaimToken := token |}
              :: rest)
  end.

Definition ClaimFrontDeliveries (front owner : string) (ttl limit now : Z) (env : TxEnv)
    (s : EdgeDB) : EdgeDB * result string (list FrontDelivery) :=
  if negb (known_front front) || is_empty owner || (ttl <=? 0) || (limit <=? 0)
     || is_zero_time now
  then (s, Err "invalid front claim")
  else run_tx (rows ← select (fun s =>
                 omap (fun kv => (fun a => (kv, a)) <$> accepted_advice s kv.1.2)
                      (front_candidates front now limit s));
               claimFronts front owner ttl now rows) env s.

Definition delivered_front (receiptID : string) (now : Z) (r : FrontRow) : FrontRow :=
  {| fr_message_id := fr_message_id r; fr_state := "delivered"; fr_created_at := fr_created_at r;
     fr_lease_owner := None; fr_lease_expires_at := None; fr_claim_token := fr_claim_token r;
     fr_delivery_receipt := Some receiptID; fr_delivered_at := Some (sqlTime now) |}.

Definition DeliveryRecorded : string := "recorded".
Definition DeliveryDuplicate : string := "duplicate".

Definition front_message_row (s : EdgeDB) (front messageID : string)
  : option ((string * string) * FrontRow) :=
  snd <$> list_find (fun kv : (string * string) * FrontRow =>
                       kv.1.1 = front /\ fr_message_id kv.2 = messageID)
                    (map_to_list (front_outbox s)).

Definition MarkFrontDelivered (receipt : FrontReceipt) (now : Z) (env : TxEnv) (s : EdgeDB)
  : EdgeDB * result string string :=
  if negb (known_front (fp_Front receipt)) || is_empty (fp_MessageID receipt)
     || is_empty (fp_ClaimToken receipt) || is_empty (fp_ReceiptID receipt) || is_zero_time now
  then (s, Err "invalid delivery receipt")
  else run_tx (
    found ← select (fun s => front_message_row s (fp_Front receipt) (fp_MessageID receipt));
    match found with
    | None => fail "front message not found"
    | Some (key, r) =>
        if fr_state r =s? "delivered" then
          check (default "" (fr_delivery_receipt r) <>s? fp_ReceiptID receipt)
                "delivered receipt mismatch";;
          mret DeliveryDuplicate
        else
          check ((fr_state r <>s? "delivering")
                 || (default "" (fr_claim_token r) <>s? fp_ClaimToken receipt))
                "lost front delivery claim";;
          exec (fun s => set_front_outbox (<[key := delivered_front (fp_ReceiptID receipt) now r]>
                                             (front_outbox s)) s);;
          mret DeliveryRecorded
    end) env s.
End Store.
