(* ===== verification/EdgeApply.v ===== *)
(** * Correctness of the edge's apply step

    What one application of a delivery does to the store: the delivery log of
    a generation stays dense up to its counter, a delivery is recorded once,
    a halt touches nothing but the counter's mode, and identities, cases and
    advices are only added or quarantined. *)
From S2P Require Import Prelude GoText GoTime GoJson Sha256 DeliveryStream SqliteTx EdgeStore.
Open Scope string_scope.
Open Scope Z_scope.
Open Scope snag_scope.

Ltac edge_simpl :=
  cbn [fst snd set_delivery_state set_deliveries set_identities set_cases set_advice
       set_front_outbox set_pending_cases set_pending_advice set_turns delivery_state deliveries
       identities cases advice front_outbox pending_cases pending_advice turns] in *.

(** ** The invariant of the log *)
Definition last_of (s : EdgeDB) (key : edge_key) : Z :=
  match delivery_state s !! key with Some r => sr_last r | None => 0 end.
Definition high_of (s : EdgeDB) (key : edge_key) : Z :=
  match delivery_state s !! key with Some r => sr_high r | None => 0 end.
Definition mode_of (s : EdgeDB) (key : edge_key) : string :=
  match delivery_state s !! key with Some r => sr_mode r | None => DeliveryModeActive end.

Record edge_log_inv (s : EdgeDB) : Prop := {
  edge_bounds : forall key, 0 <= last_of s key <= high_of s key;
  edge_dense : forall key seq, is_Some (deliveries s !! (key, seq)) <-> 1 <= seq <= last_of s key
}.

(** The tables a projection may touch. *)
Definition same_log (s s' : EdgeDB) : Prop :=
  delivery_state s' = delivery_state s /\ deliveries s' = deliveries s /\
  pending_cases s' = pending_cases s /\ pending_advice s' = pending_advice s /\
  turns s' = turns s.

Lemma same_log_refl s : same_log s s.
Proof. by split_and!. Qed.
Lemma same_log_trans s1 s2 s3 : same_log s1 s2 -> same_log s2 s3 -> same_log s1 s3.
Proof.
  intros (A & B & C & D & E) (A' & B' & C' & D' & E'). unfold same_log.
  rewrite A', B', C', D', E'. by split_and!.
Qed.

Section Apply.
Context `{AEAD} (tenant : string).

Lemma put_ok {T} (get : EdgeDB -> T) set (f : T -> result string T) env st st' u :
  put get set f env st = (st', Ok u) ->
  exists t, f (get st.2) = Ok t /\ st' = (S st.1, set t st.2).
Proof.
  unfold put. intros H0. stx_inv. destruct (f (get st.2)) as [t|]; [|done].
  injection Hsql as _ <-. eauto.
Qed.

Lemma claimIdentity_log id com d now env st st' o :
  claimIdentity id com d now env st = (st', Ok o) -> same_log st.2 st'.2.
Proof.
  unfold claimIdentity. intros H0. stx_inv. destruct (identities st.2 !! id) as [r|].
  - destruct (_ =s? _); stx_inv; by split_and!.
  - stx_inv. by split_and!.
Qed.

Lemma insertFront_log front a now env st st' u :
  insertFront front a now env st = (st', Ok u) -> same_log st.2 st'.2.
Proof. unfold insertFront. intros (t & _ & ->)%put_ok. by split_and!. Qed.

Lemma persistProjection_log p now env st st' u :
  persistProjection tenant p now env st = (st', Ok u) -> same_log st.2 st'.2.
Proof.
  unfold persistProjection, seal. intros H0.
  destruct (p_Family p =s? FamilyCase).
  - destruct (p_Case p); stx_inv. apply put_ok in H0 as (t & _ & ->). by split_and!.
  - destruct (p_Family p =s? FamilyAdvice); [|stx_inv].
    destruct (p_Advice p) as [a|]; stx_inv.
    destruct (cases st.2 !! a_CaseID a) as [c|]; [|stx_inv].
    destruct (er_state c =s? "accepted"); stx_inv.
    match goal with Hp : put _ _ _ _ _ = _ |- _ => apply put_ok in Hp as (t & _ & ->) end.
    apply insertFront_log in H0. edge_simpl.
    match goal with Hp : insertFront _ _ _ _ _ = _ |- _ => apply insertFront_log in Hp end.
    eapply same_log_trans; [|exact H0]. eapply same_log_trans; [|eassumption]. by split_and!.
Qed.

Lemma applyVerdict_log d v reason p now env st st' r :
  applyVerdict tenant d v reason p now env st = (st', Ok r) -> same_log st.2 st'.2.
Proof.
  unfold applyVerdict. intros H0. destruct (v =s? VerdictAccepted); [|stx_inv; by split_and!].
  destruct p as [p|]; [|stx_inv]. stx_inv.
  match goal with Hc : claimIdentity _ _ _ _ _ _ = _ |- _ => apply claimIdentity_log in Hc end.
  destruct (_ =s? ApplyQuarantined); [by stx_inv|]. destruct (_ =s? ApplyDuplicate); [by stx_inv|].
  stx_inv. match goal with Hp : persistProjection _ _ _ _ _ = _ |- _ =>
    apply persistProjection_log in Hp end.
  by eapply same_log_trans.
Qed.

(** ** Writes of the counter *)
Record counter_effect (key : edge_key) (s s' : EdgeDB) (last high : Z) (mode : string) : Prop := {
  ce_frame : s' = set_delivery_state (delivery_state s') s;
  ce_others : forall k, k <> key -> delivery_state s' !! k = delivery_state s !! k;
  ce_last : last_of s' key = last;
  ce_high : high_of s' key = high;
  ce_mode : mode_of s' key = mode
}.

Lemma insert_counter key r s :
  counter_effect key s (set_delivery_state (<[key := r]> (delivery_state s)) s)
    (sr_last r) (sr_high r) (sr_mode r).
Proof.
  constructor; edge_simpl; [done| |unfold last_of|unfold high_of|unfold mode_of]; edge_simpl;
    [|by rewrite lookup_insert_eq..]. intros k Hk. by rewrite lookup_insert_ne by congruence.
Qed.

Lemma requireReconciliationTx_ok id st0 observed reason now env st st' u :
  requireReconciliationTx id st0 observed reason now env st = (st', Ok u) ->
  st0 = match delivery_state st.2 !! key_of id with Some r => r | None => fresh_state end ->
  counter_effect (key_of id) st.2 st'.2 (last_of st.2 (key_of id))
    (Z.max (high_of st.2 (key_of id)) observed) DeliveryModeReconciliationRequired.
Proof.
  unfold requireReconciliationTx. intros H0 ->. stx_inv.
  match goal with |- counter_effect _ _ (set_delivery_state (<[_ := ?row]> _) _) _ _ _ =>
    pose proof (insert_counter (key_of id) row st.2) as Hc end.
  unfold last_of, high_of. destruct (delivery_state st.2 !! key_of id) as [r|]; cbn in *.
  - destruct Hc. constructor; try done. lia.
  - exact Hc.
Qed.

Lemma advanceDeliveryStateTx_ok id e seq now env st st' u :
  advanceDeliveryStateTx id e seq now env st = (st', Ok u) ->
  e = match delivery_state st.2 !! key_of id with Some _ => true | None => false end ->
  last_of st.2 (key_of id) <= high_of st.2 (key_of id) -> 0 <= seq ->
  counter_effect (key_of id) st.2 st'.2 seq (Z.max (high_of st.2 (key_of id)) seq)
    (mode_of st.2 (key_of id)).
Proof.
  unfold advanceDeliveryStateTx. intros H0 -> Hle Hseq. stx_inv.
  unfold high_of, mode_of. destruct (delivery_state st.2 !! key_of id) as [r|] eqn:E.
  - apply (insert_counter (key_of id) {| sr_last := seq; sr_high := Z.max (sr_high r) seq;
      sr_mode := sr_mode r; sr_reason := sr_reason r; sr_updated_at := sqlTime now |}).
  - rewrite Z.max_r by done.
    apply (insert_counter (key_of id) {| sr_last := seq; sr_high := seq;
      sr_mode := DeliveryModeActive; sr_reason := ""; sr_updated_at := sqlTime now |}).
Qed.

(** ** The effect of one apply *)
Inductive apply_effect (d : JournalDelivery) (verdict reason : string)
    (p : option VerifiedProjection) (now : Z) (reconciling : bool) (s s' : EdgeDB) : string -> Prop :=
| AEDuplicate row :
    deliveries s !! (key_of (delivery_identity d), jd_DeliverySeq d) = Some row ->
    same_evidence row d = true -> s' = s ->
    apply_effect d verdict reason p now reconciling s s' ApplyDuplicate
| AEHalt o :
    o = ApplyIdentityConflict \/ o = ApplyReconciliationRequired ->
    counter_effect (key_of (delivery_identity d)) s s' (last_of s (key_of (delivery_identity d)))
      (Z.max (high_of s (key_of (delivery_identity d))) (jd_DeliverySeq d))
      DeliveryModeReconciliationRequired ->
    apply_effect d verdict reason p now reconciling s s' o
| AETorn row :
    reconciling = true -> jd_DeliverySeq d = last_of s (key_of (delivery_identity d)) + 1 ->
    deliveries s !! (key_of (delivery_identity d), jd_DeliverySeq d) = Some row ->
    same_evidence row d = true ->
    counter_effect (key_of (delivery_identity d)) s s' (jd_DeliverySeq d)
      (Z.max (high_of s (key_of (delivery_identity d))) (jd_DeliverySeq d))
      (mode_of s (key_of (delivery_identity d))) ->
    apply_effect d verdict reason p now reconciling s s' ApplyDuplicate
| AENew o v r s1 env st1 st2 :
    jd_DeliverySeq d = last_of s (key_of (delivery_identity d)) + 1 ->
    deliveries s !! (key_of (delivery_identity d), jd_DeliverySeq d) = None ->
    (mode_of s (key_of (delivery_identity d)) = DeliveryModeReconciliationRequired ->
     reconciling = true) ->
    applyVerdict tenant d verdict reason p now env st1 = (st2, Ok (o, v, r)) ->
    st1.2 = s ->
    s1 = set_deliveries (<[(key_of (delivery_identity d), jd_DeliverySeq d) :=
      delivery_row_of d v r p now]> (deliveries s)) st2.2 ->
    counter_effect (key_of (delivery_identity d)) s1 s' (jd_DeliverySeq d)
      (Z.max (high_of s (key_of (delivery_identity d))) (jd_DeliverySeq d))
      (mode_of s (key_of (delivery_identity d))) ->
    apply_effect d verdict reason p now reconciling s s' o.

Lemma haltAndCommitTx_ok id st0 observed reason now o env st st' o' :
  haltAndCommitTx id st0 observed reason now o env st = (st', Ok o') ->
  st0 = match delivery_state st.2 !! key_of id with Some r => r | None => fresh_state end ->
  o' = o /\ counter_effect (key_of id) st.2 st'.2 (last_of st.2 (key_of id))
    (Z.max (high_of st.2 (key_of id)) observed) DeliveryModeReconciliationRequired.
Proof.
  unfold haltAndCommitTx. intros H0 E. stx_inv. split; [done|].
  by eapply requireReconciliationTx_ok.
Qed.

Lemma applyNew_ok d v reason p now e env st st' o :
  let key := key_of (delivery_identity d) in
  edge_log_inv st.2 -> 0 < jd_DeliverySeq d ->
  e = match delivery_state st.2 !! key with Some _ => true | None => false end ->
  applyNew tenant d v reason p now e env st = (st', Ok o) ->
  exists v' r' st2, applyVerdict tenant d v reason p now env st = (st2, Ok (o, v', r')) /\
    counter_effect key (set_deliveries (<[(key, jd_DeliverySeq d) :=
        delivery_row_of d v' r' p now]> (deliveries st.2)) st2.2) st'.2 (jd_DeliverySeq d)
      (Z.max (high_of st.2 key) (jd_DeliverySeq d)) (mode_of st.2 key).
Proof.
  intros key Hinv Hpos He H0. unfold applyNew in H0. stx_inv. destruct a as [[o' v'] r'].
  stx_inv. match goal with Hv : applyVerdict _ _ _ _ _ _ _ _ = _ |- _ =>
    pose proof (applyVerdict_log _ _ _ _ _ _ _ _ _ Hv) as Hlog; exists v', r', st0;
    split; [exact Hv|] end.
  destruct Hlog as (L1 & L2 & _).
  match goal with Hp : put _ _ _ _ _ = _ |- _ => apply put_ok in Hp as (t & Ht & ->) end.
  unfold insert_strict in Ht. rewrite L2 in Ht.
  destruct (deliveries st.2 !! _) eqn:Ed in Ht; [done|]. destruct (existsb _ _); [done|].
  injection Ht as <-. edge_simpl.
  match goal with Ha : advanceDeliveryStateTx _ _ _ _ _ _ = _ |- _ =>
    eapply advanceDeliveryStateTx_ok in Ha as Hce; edge_simpl end.
  - destruct Hce as [C1 C2 C3 C4 C5]. unfold high_of, mode_of in C4, C5. edge_simpl.
    rewrite L1 in C2, C4, C5. constructor; try done. edge_simpl. by rewrite L1.
  - by rewrite L1.
  - unfold last_of, high_of. edge_simpl. rewrite L1. apply Hinv.
  - lia.
Qed.

Lemma applyWork_ok d v reason p now allow env st st' o :
  edge_log_inv st.2 -> 0 < jd_DeliverySeq d ->
  applyWork tenant d v reason p now allow env st = (st', Ok o) ->
  apply_effect d v reason p now allow st.2 st'.2 o.
Proof.
  intros Hinv Hpos H0. unfold applyWork, deliveryStateTx, recordedDelivery in H0. stx_inv.
  set (key := key_of (delivery_identity d)) in *.
  set (state := match delivery_state st.2 !! key with Some r => r | None => fresh_state end) in *.
  assert (Hlast : sr_last state = last_of st.2 key)
    by (unfold state, last_of; by destruct (delivery_state st.2 !! key)).
  assert (Hmode : sr_mode state = mode_of st.2 key)
    by (unfold state, mode_of; by destruct (delivery_state st.2 !! key)).
  rewrite Hlast, Hmode in H0.
  destruct (Z.leb_spec (jd_DeliverySeq d) (last_of st.2 key)).
  { stx_inv. destruct (deliveries st.2 !! (key, jd_DeliverySeq d)) as [row|] eqn:Ed.
    - destruct (same_evidence row d) eqn:Es; cbn [negb] in H0.
      + stx_inv. by eapply AEDuplicate.
      + apply haltAndCommitTx_ok in H0 as [-> Hc]; [|done]. apply AEHalt; [by left|done].
    - apply haltAndCommitTx_ok in H0 as [-> Hc]; [|done]. apply AEHalt; [by right|done]. }
  destruct (_ || _) eqn:Hgap in H0.
  { apply haltAndCommitTx_ok in H0 as [-> Hc]; [|done]. apply AEHalt; [by right|done]. }
  apply orb_false_iff in Hgap as [Hseq Hm]. bools. stx_inv.
  destruct (deliveries st.2 !! (key, jd_DeliverySeq d)) as [row|] eqn:Ed.
  - assert (1 <= jd_DeliverySeq d <= last_of st.2 key) by (apply (edge_dense _ Hinv); eauto). lia.
  - apply applyNew_ok in H0 as (v' & r' & st2 & Hv & Hc); [|done..].
    eapply AENew; [done|done| |exact Hv|done|reflexivity|exact Hc].
    intros E. fold key in E. rewrite E in Hm. by destruct allow.
Qed.
End Apply.

(** ** The log only grows, one delivery at a time *)
Lemma counter_log key s s' last high mode :
  counter_effect key s s' last high mode ->
  deliveries s' = deliveries s /\
  (forall k, last_of s' k = if decide (k = key) then last else last_of s k) /\
  (forall k, high_of s' k = if decide (k = key) then high else high_of s k).
Proof.
  intros [Hf Ho Hl Hh _]. split_and!.
  - by rewrite Hf.
  - intros k. destruct (decide (k = key)) as [->|Hk]; [done|]. unfold last_of. by rewrite Ho.
  - intros k. destruct (decide (k = key)) as [->|Hk]; [done|]. unfold high_of. by rewrite Ho.
Qed.

Lemma counter_inv key s s' high mode :
  edge_log_inv s -> high_of s key <= high ->
  counter_effect key s s' (last_of s key) high mode -> edge_log_inv s'.
Proof.
  intros [Hb Hd] Hle (Ed & El & Eh)%counter_log. split.
  - intros k. rewrite El, Eh. specialize (Hb k) as Hk. case_decide as E; [|done]. subst. lia.
  - intros k q. rewrite Ed, Hd, El. by case_decide as E; [subst|].
Qed.

Lemma append_inv key s s1 s' d row high mode :
  edge_log_inv s -> jd_DeliverySeq d = last_of s key + 1 -> jd_DeliverySeq d <= high ->
  high_of s1 = high_of s -> last_of s1 = last_of s ->
  deliveries s1 = <[(key, jd_DeliverySeq d) := row]> (deliveries s) ->
  counter_effect key s1 s' (jd_DeliverySeq d) high mode -> edge_log_inv s'.
Proof.
  intros [Hb Hd] Hseq Hhigh Hh1 Hl1 Hd1 (Ed & El & Eh)%counter_log. split.
  - intros k. rewrite El, Eh, Hh1, Hl1. specialize (Hb k) as Hk. specialize (Hb key) as Hk'.
    case_decide; [lia|done].
  - intros k q. rewrite Ed, Hd1, El, Hl1. specialize (Hb key) as Hk'.
    destruct (decide ((k, q) = (key, jd_DeliverySeq d))) as [[= -> ->]|Hne].
    + rewrite lookup_insert_eq, decide_True by done. split; [lia|eauto].
    + rewrite lookup_insert_ne by done. rewrite Hd.
      destruct (decide (k = key)) as [->|]; [|done].
      assert (q <> jd_DeliverySeq d) by congruence. lia.
Qed.

(** What one apply may do to the log of its generation. *)
Definition appended (d : JournalDelivery) (s s' : EdgeDB) : Prop :=
  let key := key_of (delivery_identity d) in
  jd_DeliverySeq d = last_of s key + 1 /\ last_of s' key = jd_DeliverySeq d /\
  (forall k, k <> key -> last_of s' k = last_of s k) /\
  exists row, deliveries s !! (key, jd_DeliverySeq d) = None /\
    deliveries s' = <[(key, jd_DeliverySeq d) := row]> (deliveries s) /\
    dr_raw_sha256 row = hash (jd_Raw d) /\ dr_subject row = jd_Subject d.

Section ApplyLog.
Context `{AEAD} (tenant : string).

Lemma apply_effect_inv d v reason p now allow s s' o :
  edge_log_inv s -> 0 < jd_DeliverySeq d ->
  apply_effect tenant d v reason p now allow s s' o ->
  edge_log_inv s' /\
  ((deliveries s' = deliveries s /\ (forall k, last_of s' k = last_of s k)) \/ appended d s s').
Proof.
  intros Hinv Hpos He. set (key := key_of (delivery_identity d)).
  destruct He as [row Hrow Hev ->|o Ho Hc|row -> Hseq Hrow Hev Hc
                 |o v' r' s1 env st1 st2 Hseq Hnone Hmode Hv <- -> Hc].
  - auto.
  - split; [eapply counter_inv; [exact Hinv| |exact Hc]; lia|].
    apply counter_log in Hc as (Ed & El & _). left. split; [done|]. intros k. rewrite El.
    by case_decide as E; [subst|].
  - assert (1 <= jd_DeliverySeq d <= last_of s key) by (apply (edge_dense _ Hinv); eauto).
    fold key in Hseq. lia.
  - pose proof (applyVerdict_log tenant _ _ _ _ _ _ _ _ _ Hv) as (L1 & L2 & _).
    assert (Hh1 : high_of (set_deliveries (<[(key, jd_DeliverySeq d) :=
      delivery_row_of d v' r' p now]> (deliveries st1.2)) st2.2) = high_of st1.2)
      by (unfold high_of; edge_simpl; by rewrite L1).
    assert (Hl1 : last_of (set_deliveries (<[(key, jd_DeliverySeq d) :=
      delivery_row_of d v' r' p now]> (deliveries st1.2)) st2.2) = last_of st1.2)
      by (unfold last_of; edge_simpl; by rewrite L1).
    split.
    + eapply (append_inv key st1.2); [done|done| |exact Hh1|exact Hl1|reflexivity|exact Hc]. lia.
    + right. apply counter_log in Hc as (Ed & El & _). split_and!; [done| | |].
      * rewrite El. by rewrite decide_True.
      * intros k Hk. rewrite El, decide_False by done.
        exact (f_equal (fun f => f k) Hl1).
      * eexists. split_and!; [exact Hnone|exact Ed|done|done].
Qed.

Lemma applyVerified_effect d v reason p now allow env s s' r :
  edge_log_inv s -> applyVerified tenant d v reason p now allow env s = (s', r) ->
  (exists e, r = Err e /\ s' = s) \/
  (exists o, r = Ok o /\ 0 < jd_DeliverySeq d /\ apply_effect tenant d v reason p now allow s s' o).
Proof.
  intros Hinv H0. unfold applyVerified in H0.
  destruct (validateDelivery d v reason p now) eqn:Hv; [|injection H0 as <- <-; eauto].
  destruct (jd_TenantID d <>s? tenant); [injection H0 as <- <-; eauto|].
  assert (Hpos : 0 < jd_DeliverySeq d).
  { unfold validateDelivery in Hv. destruct (_ || _) eqn:E in Hv; [done|]. bools. lia. }
  apply run_tx_cases in H0 as [(e & -> & ->)|(n & o & -> & Hw)]; [eauto|].
  right. exists o. split_and!; [done..|]. by apply (applyWork_ok tenant) in Hw.
Qed.

(** The edge's log is append-only, dense and written once per sequence
    number.  From a store whose log is dense up to its counter, applying any
    delivery (accepted, rejected, duplicate, out of order, conflicting, live or
    during reconciliation, with any driver failure) leaves a dense log; no
    recorded delivery is changed; and either the log is exactly what it was,
    or the delivery was the next one and precisely its evidence (the hash of
    its bytes and its subject) was appended and the counter moved to it.  An
    error changes nothing at all. *)
Theorem apply_appends_once d v reason p now allow env s s' r :
  edge_log_inv s -> applyVerified tenant d v reason p now allow env s = (s', r) ->
  edge_log_inv s' /\ deliveries s ⊆ deliveries s' /\
  ((deliveries s' = deliveries s /\ (forall k, last_of s' k = last_of s k)) \/ appended d s s') /\
  (forall e, r = Err e -> s' = s).
Proof.
  intros Hinv H0. destruct (applyVerified_effect _ _ _ _ _ _ _ _ _ _ Hinv H0)
    as [(e & -> & ->)|(o & -> & Hpos & He)].
  { split_and!; auto. }
  destruct (apply_effect_inv _ _ _ _ _ _ _ _ _ Hinv Hpos He) as [Hi Hcase].
  split_and!; [done| |done|done]. destruct Hcase as [[-> _]|(_ & _ & _ & row & Hn & -> & _)]; [done|].
  by apply insert_subseteq.
Qed.

(** A halted generation fails closed.  While the counter requires
    reconciliation, a live delivery never advances the log nor touches any
    projection: either it is an exact duplicate and nothing changes, or only
    the halt is (re)recorded. *)
Theorem halted_generation_fails_closed d v reason p now env s s' o :
  edge_log_inv s -> mode_of s (key_of (delivery_identity d)) = DeliveryModeReconciliationRequired ->
  applyVerified tenant d v reason p now false env s = (s', Ok o) ->
  s' = set_delivery_state (delivery_state s') s /\ (forall k, last_of s' k = last_of s k) /\
  mode_of s' (key_of (delivery_identity d)) = DeliveryModeReconciliationRequired /\
  (o = ApplyDuplicate \/ o = ApplyIdentityConflict \/ o = ApplyReconciliationRequired).
Proof.
  intros Hinv Hmode H0. destruct (applyVerified_effect _ _ _ _ _ _ _ _ _ _ Hinv H0)
    as [(e & ? & _)|(o' & [= <-] & Hpos & He)]; [done|].
  destruct He as [row Hrow Hev ->|o Ho Hc|row ? _ _ _ _|o v' r' s1 env' st1 st2 Hseq Hnone Hm Hv <- -> Hc];
    [| |done|].
  - split_and!; [by destruct s|done|done|by left].
  - pose proof (counter_log _ _ _ _ _ _ Hc) as (_ & El & _). destruct Hc as [Hf _ _ _ Hm].
    split_and!; [done| |done|tauto]. intros k. rewrite El. by case_decide as E; [subst|].
  - by specialize (Hm Hmode).
Qed.
End ApplyLog.
