(* ===== verification/EdgeConsumer.v ===== *)
(** * internal/sspedge/consumer.go and authority_reconciler.go

    The journal consumer: one delivery from the carrier is verified, applied
    and acknowledged; a halt stops it until a reconciliation pass has replayed
    the authority's log.  The verifier and the carrier are parameters (the Go
    interfaces [Verifier] and [JournalMessage]); the reconciler is the Go
    [AuthorityReconciler] over any source of delivery pages. *)
From S2P Require Import Authority AuthorityStore PgTx.
From S2P Require Import Prelude GoText GoTime GoJson Sha256 DeliveryStream SqliteTx EdgeStore EdgeApply.
From stdpp Require Import list_numbers.
Open Scope string_scope.
Open Scope Z_scope.
Open Scope snag_scope.

Record JournalMetadata := {
  jm_Stream : string;
  jm_Sequence : Z;
  jm_DeliverySeq : Z;
  jm_TenantID : string;
  jm_EdgeID : string;
  jm_EdgeGeneration : Z
}.

(** A message as the consumer sees it, and how the carrier answers. *)
Record JournalMessage := {
  msg_Metadata : result string JournalMetadata;
  msg_Subject : string;
  msg_Data : bytes;
  msg_DoubleAck : option string;
  msg_Nak : option string
}.

Inductive VerificationError : Type :=
| Permanent (reason : string)
| Transient (what : string).

Definition Verifier : Type := JournalDelivery -> result VerificationError (option VerifiedProjection).

Inductive CErr : Type :=
| ErrConsumerHalted
| ErrOther (what : string).

Definition ProcessRetrying : string := "retrying".

(** ** Routes *)
Definition edgeDeliverySubject (id : EdgeIdentity) : string :=
  if negb (identity_valid id) then ""
  else SubjectPrefix ++ "." ++ RoutingToken (ei_TenantID id) ++ "." ++ DestinationEdge ++ "."
       ++ EdgeToken (ei_EdgeID id) (uint64 (ei_Generation id)).

Definition routeMatches (subject : string) (id : EdgeIdentity) (p : option VerifiedProjection)
  : bool :=
  match p with
  | None => false
  | Some p =>
      let edgeToken := EdgeRoutingToken (ei_EdgeID id) (ei_Generation id) in
      if subject <>s? edgeDeliverySubject id then false
      else if p_Family p =s? FamilyCase then
        match p_Case p with
        | None => false
        | Some c => (c_IssuerEdgeID c =s? ei_EdgeID id)
                    && (c_IssuerEdgeGeneration c =? ei_Generation id)
                    && (c_RouteKind c =s? "domain")
                    && (c_RouteToken c =s? RoutingToken (c_Domain c))
                    && (c_SourceToken c =s? edgeToken)
        end
      else if p_Family p =s? FamilyAdvice then
        match p_Advice p with
        | None => false
        | Some a => (a_IssuerEdgeID a =s? ei_EdgeID id)
                    && (a_IssuerEdgeGeneration a =? ei_Generation id)
                    && (a_RouteKind a =s? "edge") && (a_RouteToken a =s? edgeToken)
        end
      else false
  end.

(** ** Reconciliation input *)
Record ReconcileBatch := {
  rb_Deliveries : list JournalDelivery;
  rb_HighWatermark : Z;
  rb_CompleteThrough : Z
}.

Record ReconcileResult := {
  rr_Applied : Z;
  rr_HighWatermark : Z;
  rr_CompleteThrough : Z;
  rr_Resumed : bool
}.

(** The Go interface [Reconciler]. *)
Class Reconciler := FetchAfter : EdgeIdentity -> Z -> result string ReconcileBatch.

(** [NewAuthorityReconciler] accepts a limit of 1..1000; [FetchAfter] turns one
    page of a delivery source into the input of the consumer. *)
Definition newAuthorityReconciler_ok (limit : Z) : bool := (0 <? limit) && (limit <=? 1000).

Definition page_delivery_ok (expected : Z) (d : Authority.EdgeDelivery) : bool :=
  negb (negb (Authority.ed_Sequence d =? expected)
        || ((Authority.ed_Kind d <>s? FamilyCase) && (Authority.ed_Kind d <>s? FamilyAdvice))
        || is_empty (Authority.ed_CaseID d) || is_empty (Authority.ed_EnvelopeID d)
        || is_empty (Authority.ed_Commitment d) || (Authority.ed_AuthorityRevision d <=? 0)
        || (len (Authority.ed_Raw d) =? 0) || (MaxEnvelopeBytes <? len (Authority.ed_Raw d))).

Definition to_journal (id : EdgeIdentity) (d : Authority.EdgeDelivery) : JournalDelivery :=
  {| jd_Stream := ""; jd_Sequence := 0; jd_DeliverySeq := Authority.ed_Sequence d;
     jd_TenantID := ei_TenantID id; jd_EdgeID := ei_EdgeID id;
     jd_EdgeGeneration := ei_Generation id; jd_Subject := edgeDeliverySubject id;
     jd_Raw := Authority.ed_Raw d |}.

Fixpoint convertPage (id : EdgeIdentity) (expected : Z) (l : list Authority.EdgeDelivery)
  : result string (list JournalDelivery) :=
  match l with
  | [] => Ok []
  | d :: l =>
      if negb (page_delivery_ok expected d) then Err "invalid authority delivery"
      else match convertPage id (expected + 1) l with
           | Ok rest => Ok (to_journal id d :: rest)
           | Err e => Err e
           end
  end.

Section AuthorityReconciler.
Context (source : Authority.EdgeDeliveryQuery -> result string Authority.EdgeDeliveryPage)
        (limit : Z).

(** The query carries no principal: the control plane takes it from the
    authenticated connection. *)
Definition reconcile_query (id : EdgeIdentity) (after : Z) : Authority.EdgeDeliveryQuery :=
  {| Authority.dq_TenantID := ei_TenantID id; Authority.dq_EdgeID := ei_EdgeID id;
     Authority.dq_PrincipalID := ""; Authority.dq_EdgeGeneration := ei_Generation id;
     Authority.dq_AfterSequence := after; Authority.dq_Limit := limit |}.

Definition authorityFetchAfter (id : EdgeIdentity) (after : Z) : result string ReconcileBatch :=
  if negb (identity_valid id) then Err "invalid edge identity"
  else if after <? 0 then Err "reconciliation cursor must not be negative"
  else match source (reconcile_query id after) with
  | Err e => Err e
  | Ok page =>
      let n := Z.of_nat (length (Authority.dp_Deliveries page)) in
      if (Authority.dp_HighWatermark page <? after) || (Authority.dp_CompleteThrough page <? after)
         || (Authority.dp_HighWatermark page <? Authority.dp_CompleteThrough page)
         || (limit <? n) || negb (n =? Authority.dp_CompleteThrough page - after)
      then Err "invalid authority reconciliation bounds"
      else match convertPage id (after + 1) (Authority.dp_Deliveries page) with
           | Err e => Err e
           | Ok ds => Ok {| rb_Deliveries := ds;
                            rb_HighWatermark := Authority.dp_HighWatermark page;
                            rb_CompleteThrough := Authority.dp_CompleteThrough page |}
           end
  end.
End AuthorityReconciler.

(** ** The consumer *)
Record Consumer := { co_db : EdgeDB; co_halted : bool }.

Section Consumer.
Context `{AEAD} (tenant : string) (identity : EdgeIdentity).

Definition NewJournalConsumer (fault : option string) (s : EdgeDB) : result string Consumer :=
  if negb (identity_valid identity) then Err "invalid journal consumer"
  else match DeliveryState identity fault s with
  | Err e => Err e
  | Ok st =>
      if (sr_mode st <>s? DeliveryModeActive)
         && (sr_mode st <>s? DeliveryModeReconciliationRequired)
      then Err "invalid persisted delivery mode"
      else Ok {| co_db := s; co_halted := sr_mode st =s? DeliveryModeReconciliationRequired |}
  end.

Definition consumer_apply (verify : Verifier) (d : JournalDelivery) (now : Z)
    (reconciling : bool) (env : TxEnv) (s : EdgeDB) : EdgeDB * result string string :=
  match verify d with
  | Err (Permanent reason) => applyVerified tenant d VerdictRejected reason None now reconciling env s
  | Err (Transient e) => (s, Err e)
  | Ok p =>
      if routeMatches (jd_Subject d) identity p
      then applyVerified tenant d VerdictAccepted "" p now reconciling env s
      else applyVerified tenant d VerdictRejected "route_mismatch" p now reconciling env s
  end.

(** [outcome]: the outcomes that halt the consumer in memory. *)
Definition halting (o : string) : bool :=
  (o =s? ApplyQuarantined) || (o =s? ApplyReconciliationRequired) || (o =s? ApplyIdentityConflict).

Definition known_outcome (o : string) : bool :=
  (o =s? ApplyAccepted) || (o =s? ApplyRejected) || (o =s? ApplyDuplicate) || halting o.

Definition journal_of (m : JournalMetadata) (msg : JournalMessage) : JournalDelivery :=
  {| jd_Stream := jm_Stream m; jd_Sequence := jm_Sequence m; jd_DeliverySeq := jm_DeliverySeq m;
     jd_TenantID := jm_TenantID m; jd_EdgeID := jm_EdgeID m;
     jd_EdgeGeneration := jm_EdgeGeneration m; jd_Subject := msg_Subject msg;
     jd_Raw := msg_Data msg |}.

Definition Handle (verify : Verifier) (msg : JournalMessage) (now : Z) (env : TxEnv)
    (c : Consumer) : Consumer * result CErr string :=
  if co_halted c then (c, Err ErrConsumerHalted)
  else match msg_Metadata msg with
  | Err e => (c, Err (ErrOther e))
  | Ok m =>
      let d := journal_of m msg in
      if jd_DeliverySeq d <=? 0 then (c, Err (ErrOther "delivery sequence must be positive"))
      else if (jd_TenantID d <>s? ei_TenantID identity) || (jd_EdgeID d <>s? ei_EdgeID identity)
              || negb (jd_EdgeGeneration d =? ei_Generation identity)
      then match RequireReconciliation identity 0 "delivery_identity_mismatch" now env (co_db c) with
           | (s, Err e) => ({| co_db := s; co_halted := co_halted c |}, Err (ErrOther e))
           | (s, Ok _) => ({| co_db := s; co_halted := true |}, Ok ApplyReconciliationRequired)
           end
      else match consumer_apply verify d now false env (co_db c) with
           | (s, Err e) => ({| co_db := s; co_halted := co_halted c |}, Err (ErrOther e))
           | (s, Ok o) =>
               if negb (known_outcome o)
               then ({| co_db := s; co_halted := co_halted c |}, Err (ErrOther "unknown apply outcome"))
               else ({| co_db := s; co_halted := co_halted c || halting o |}, Ok o)
           end
  end.

(** Carrier calls of a [Process], in order. *)
Inductive CarrierCall : Type := CallAck | CallNak.

Definition Process (verify : Verifier) (msg : JournalMessage) (now : Z) (env : TxEnv)
    (c : Consumer) : Consumer * result CErr string * list CarrierCall :=
  match Handle verify msg now env c with
  | (c, Err ErrConsumerHalted) => (c, Err ErrConsumerHalted, [])
  | (c, Err (ErrOther _)) =>
      (c, match msg_Nak msg with Some e => Err (ErrOther e) | None => Ok ProcessRetrying end,
       [CallNak])
  | (c, Ok o) =>
      (c, match msg_DoubleAck msg with Some e => Err (ErrOther e) | None => Ok o end, [CallAck])
  end.

(** ** Reconciliation *)
Record ReconcileEnv := {
  rv_state1 : option string;
  rv_verify : nat -> Verifier;
  rv_tx : nat -> TxEnv;
  rv_state2 : option string;
  rv_complete : option string
}.

Definition delivery_expected (d : JournalDelivery) (expected : Z) : bool :=
  (jd_TenantID d =s? ei_TenantID identity) && (jd_EdgeID d =s? ei_EdgeID identity)
  && (jd_EdgeGeneration d =? ei_Generation identity) && (jd_DeliverySeq d =? expected).

Fixpoint contiguous (l : list JournalDelivery) (expected : Z) : bool :=
  match l with
  | [] => true
  | d :: l => delivery_expected d expected && contiguous l (expected + 1)
  end.

(** The apply loop: the number of deliveries applied and the error that ended
    it, if any. *)
Fixpoint applyBatch (rv : ReconcileEnv) (now : Z) (k : nat) (l : list JournalDelivery) (s : EdgeDB)
  : EdgeDB * nat * option string :=
  match l with
  | [] => (s, O, None)
  | d :: l =>
      match consumer_apply (rv_verify rv k) d now true (rv_tx rv k) s with
      | (s, Err e) => (s, O, Some e)
      | (s, Ok o) =>
          if halting o then (s, O, Some "reconciliation delivery halted")
          else let '(s, n, e) := applyBatch rv now (S k) l s in (s, S n, e)
      end
  end.

Definition Reconcile `{Reconciler} (rv : ReconcileEnv) (now : Z) (c : Consumer)
  : Consumer * result string ReconcileResult :=
  if negb (co_halted c) then (c, Err "reconciliation not required")
  else match DeliveryState identity (rv_state1 rv) (co_db c) with
  | Err e => (c, Err e)
  | Ok st =>
      match FetchAfter identity (sr_last st) with
      | Err e => (c, Err e)
      | Ok batch =>
          if (rb_HighWatermark batch <? sr_high st) || (rb_CompleteThrough batch <? sr_last st)
             || (rb_HighWatermark batch <? rb_CompleteThrough batch)
          then (c, Err "invalid reconciliation bounds")
          else if negb (Z.of_nat (length (rb_Deliveries batch)) =? rb_CompleteThrough batch - sr_last st)
          then (c, Err "reconciliation range does not match complete boundary")
          else if negb (contiguous (rb_Deliveries batch) (sr_last st + 1))
          then (c, Err "non-contiguous reconciliation delivery")
          else match applyBatch rv now 0 (rb_Deliveries batch) (co_db c) with
          | (s, _, Some e) => ({| co_db := s; co_halted := true |}, Err e)
          | (s, n, None) =>
              let c := {| co_db := s; co_halted := true |} in
              let result resumed := {| rr_Applied := Z.of_nat n;
                                       rr_HighWatermark := rb_HighWatermark batch;
                                       rr_CompleteThrough := rb_CompleteThrough batch;
                                       rr_Resumed := resumed |} in
              match DeliveryState identity (rv_state2 rv) s with
              | Err e => (c, Err e)
              | Ok st =>
                  if negb (sr_last st =? rb_CompleteThrough batch)
                  then (c, Err "reconciliation incomplete through declared boundary")
                  else if rb_CompleteThrough batch =? rb_HighWatermark batch then
                    match CompleteReconciliation identity (rb_CompleteThrough batch)
                            (rb_HighWatermark batch) now (rv_complete rv) s with
                    | (s, Err e) => ({| co_db := s; co_halted := true |}, Err e)
                    | (s, Ok _) => ({| co_db := s; co_halted := false |}, Ok (result true))
                    end
                  else (c, Ok (result false))
              end
          end
      end
  end.
End Consumer.
