(* ===== verification/EdgeRecovery.v ===== *)
(** * Recovery: the edge follows the authority's log

    A reconciliation pass that resumes has recorded every delivery up to the
    authority's high watermark, and through [AuthorityReconciler] the recorded
    evidence is exactly the authority's log. *)
From S2P Require Import Authority AuthorityStore PgTx AuthoritySpec AuthorityInv AuthorityTheorems AuthorityReads.
From S2P Require Import Prelude GoText GoTime GoJson Sha256 DeliveryStream SqliteTx EdgeStore EdgeApply EdgeConsumer.
From stdpp Require Import list_numbers.
Open Scope string_scope.
Open Scope Z_scope.
Open Scope snag_scope.

Section Recovery.
Context `{AEAD} (tenant : string) (identity : EdgeIdentity).

Lemma consumer_apply_cases verify d now rec env s s' r :
  consumer_apply tenant identity verify d now rec env s = (s', r) ->
  (exists e, r = Err e /\ s' = s) \/
  (exists v reason p, applyVerified tenant d v reason p now rec env s = (s', r)).
Proof.
  unfold consumer_apply. destruct (verify d) as [p|[reason|e]].
  - destruct (routeMatches _ _ _); eauto.
  - eauto.
  - intros H0. injection H0 as <- <-. eauto.
Qed.

(** The delivery is in the log with its evidence. *)
Definition recorded (s : EdgeDB) (d : JournalDelivery) : Prop :=
  exists row, deliveries s !! (key_of (delivery_identity d), jd_DeliverySeq d) = Some row /\
    same_evidence row d = true.

Lemma recorded_mono s s' d : deliveries s ⊆ deliveries s' -> recorded s d -> recorded s' d.
Proof. intros Hs (row & Hr & He). exists row. split; [by eapply lookup_weaken|done]. Qed.

Lemma apply_recorded d v reason p now allow s s' o :
  edge_log_inv s -> apply_effect tenant d v reason p now allow s s' o -> halting o = false ->
  recorded s' d.
Proof.
  intros Hinv He Ho.
  destruct He as [row Hrow Hev ->|o [->| ->] Hc|row -> Hseq Hrow Hev Hc
                 |o v' r' s1 env st1 st2 Hseq Hnone Hmode Hv <- -> Hc]; try done.
  - by exists row.
  - apply counter_log in Hc as (Ed & _). exists row. by rewrite Ed.
  - apply counter_log in Hc as (Ed & _). eexists. rewrite Ed. edge_simpl.
    rewrite lookup_insert_eq. split; [done|]. unfold same_evidence. cbn.
    by rewrite !String.eqb_refl.
Qed.

(** One step of the consumer keeps the log dense and append-only; a step that
    does not halt records its delivery. *)
Lemma consumer_apply_step verify d now rec env s s' r :
  edge_log_inv s -> consumer_apply tenant identity verify d now rec env s = (s', r) ->
  edge_log_inv s' /\ deliveries s ⊆ deliveries s' /\
  ((deliveries s' = deliveries s /\ (forall k, last_of s' k = last_of s k)) \/ appended d s s') /\
  (forall o, r = Ok o -> halting o = false -> recorded s' d).
Proof.
  intros Hinv H0. destruct (consumer_apply_cases _ _ _ _ _ _ _ _ H0)
    as [(e & -> & ->)|(v & reason & p & Ha)]; [split_and!; auto; done|].
  destruct (applyVerified_effect tenant _ _ _ _ _ _ _ _ _ _ Hinv Ha)
    as [(e & -> & ->)|(o & -> & Hpos & He)]; [split_and!; auto; done|].
  destruct (apply_effect_inv tenant _ _ _ _ _ _ _ _ _ Hinv Hpos He) as [Hi Hcase].
  split_and!; [done| |done|].
  - destruct Hcase as [[-> _]|(_ & _ & _ & row & Hn & -> & _)]; [done|]. by apply insert_subseteq.
  - intros o' [= <-] Hh. exact (apply_recorded _ _ _ _ _ _ _ _ _ Hinv He Hh).
Qed.

Lemma applyBatch_ok rv now l : forall k s s' n e,
  edge_log_inv s -> applyBatch tenant identity rv now k l s = (s', n, e) ->
  edge_log_inv s' /\ deliveries s ⊆ deliveries s' /\
  (e = None -> forall d, d ∈ l -> recorded s' d).
Proof.
  induction l as [|d l IH]; intros k s s' n e Hinv H0; cbn in H0.
  { injection H0 as <- <- <-. split_and!; [done..|]. intros _ d Hd. by apply not_elem_of_nil in Hd. }
  destruct (consumer_apply _ _ _ _ _ _ _ _) as [s1 [o|e1]] eqn:Ea.
  - destruct (consumer_apply_step _ _ _ _ _ _ _ _ Hinv Ea) as (Hi1 & Hs1 & _ & Hr1).
    destruct (halting o) eqn:Eh; [injection H0 as <- <- <-; by split_and!|].
    destruct (applyBatch _ _ _ _ _ _ _) as [[s2 n2] e2] eqn:Eb. injection H0 as <- <- <-.
    destruct (IH _ _ _ _ _ Hi1 Eb) as (Hi2 & Hs2 & Hr2).
    split_and!; [done|by etrans|]. intros -> d' Hd. apply elem_of_cons in Hd as [->|Hd]; [|auto].
    eapply recorded_mono; [done|]. by eapply Hr1.
  - destruct (consumer_apply_step _ _ _ _ _ _ _ _ Hinv Ea) as (Hi1 & Hs1 & _ & _).
    injection H0 as <- <- <-. by split_and!.
Qed.

Lemma CompleteReconciliation_ok c h now fault s s' u :
  CompleteReconciliation identity c h now fault s = (s', Ok u) ->
  c = h /\ counter_effect (key_of identity) s s' c h DeliveryModeActive /\
  last_of s (key_of identity) = c /\ high_of s (key_of identity) = h.
Proof.
  unfold CompleteReconciliation. destruct (negb _); [done|]. destruct (_ || _) eqn:E; [done|].
  destruct fault; [done|]. unfold last_of, high_of.
  destruct (delivery_state s !! key_of identity) as [r|] eqn:Er; [|done].
  destruct (_ && _) eqn:Em; [|done]. intros H0. injection H0 as <- _. bools. subst.
  split_and!; [done| |done|done].
  destruct (insert_counter (key_of identity) {| sr_last := sr_last r; sr_high := sr_high r;
    sr_mode := DeliveryModeActive; sr_reason := ""; sr_updated_at := sqlTime now |} s)
    as [F1 F2 F3 F4 F5].
  constructor; [exact F1|exact F2|exact F3|etrans; [exact F4|done]|exact F5].
Qed.

Lemma CompleteReconciliation_err c h now fault s s' e :
  CompleteReconciliation identity c h now fault s = (s', Err e) -> s' = s.
Proof.
  unfold CompleteReconciliation. destruct (negb _); [by intros [= <- _]|].
  destruct (_ || _); [by intros [= <- _]|]. destruct fault; [by intros [= <- _]|].
  destruct (delivery_state s !! _) as [r|]; [|by intros [= <- _]].
  destruct (_ && _); [done|by intros [= <- _]].
Qed.

Section Pass.
Context `{Reconciler}.

Lemma RequireReconciliation_cases observed reason now env s s' r :
  RequireReconciliation identity observed reason now env s = (s', r) ->
  s' = s \/ counter_effect (key_of identity) s s' (last_of s (key_of identity))
    (Z.max (high_of s (key_of identity)) observed) DeliveryModeReconciliationRequired.
Proof.
  unfold RequireReconciliation. destruct (negb _); [intros [= <- _]; by left|].
  destruct (_ || _); [intros [= <- _]; by left|].
  intros [(e & _ & ->)|(n & u & _ & Hw)]%run_tx_cases; [by left|right].
  unfold deliveryStateTx in Hw. stx_inv. by eapply requireReconciliationTx_ok in Hw.
Qed.

(** The ways a pass can end: refused before it applied anything; ended after
    (part of) the batch, still halted; or resumed. *)
Lemma Reconcile_cases rv now c c' r :
  Reconcile tenant identity rv now c = (c', r) ->
  let key := key_of identity in
  (co_db c' = co_db c /\ co_halted c' = co_halted c /\ exists e, r = Err e) \/
  (exists batch s n e,
     FetchAfter identity (last_of (co_db c) key) = Ok batch /\
     contiguous identity (rb_Deliveries batch) (last_of (co_db c) key + 1) = true /\
     Z.of_nat (length (rb_Deliveries batch)) = rb_CompleteThrough batch - last_of (co_db c) key /\
     applyBatch tenant identity rv now 0 (rb_Deliveries batch) (co_db c) = (s, n, e) /\
     ((co_db c' = s /\ co_halted c' = true /\ forall res, r = Ok res -> rr_Resumed res = false) \/
      (e = None /\ co_halted c' = false /\
       counter_effect key s (co_db c') (rb_HighWatermark batch) (rb_HighWatermark batch)
         DeliveryModeActive /\
       last_of s key = rb_HighWatermark batch /\ high_of s key = rb_HighWatermark batch /\
       rb_CompleteThrough batch = rb_HighWatermark batch /\
       r = Ok {| rr_Applied := Z.of_nat n; rr_HighWatermark := rb_HighWatermark batch;
                 rr_CompleteThrough := rb_CompleteThrough batch; rr_Resumed := true |}))).
Proof.
  intros Hrun key. unfold Reconcile in Hrun.
  destruct (co_halted c) eqn:Hhalt; cbn [negb] in Hrun; [|injection Hrun as <- <-; left; eauto].
  unfold DeliveryState in Hrun.
  destruct (identity_valid identity); cbn [negb] in Hrun; [|injection Hrun as <- <-; left; eauto].
  destruct (rv_state1 rv); [injection Hrun as <- <-; left; eauto|].
  set (st := match delivery_state (co_db c) !! key_of identity with
             | Some r => r | None => fresh_state end) in *.
  assert (Hlast : sr_last st = last_of (co_db c) key)
    by (unfold st, last_of, key; by destruct (delivery_state _ !! _)).
  rewrite Hlast in Hrun.
  destruct (FetchAfter identity _) as [batch|e] eqn:Hf; [|injection Hrun as <- <-; left; eauto].
  destruct (_ || _) eqn:Hb; [injection Hrun as <- <-; left; eauto|].
  destruct (negb (Z.of_nat _ =? _)) eqn:Hn; [injection Hrun as <- <-; left; eauto|].
  destruct (negb (contiguous _ _ _)) eqn:Hc; [injection Hrun as <- <-; left; eauto|].
  destruct (applyBatch _ _ _ _ _ _ _) as [[s n] e] eqn:Eb.
  apply negb_false_iff in Hn, Hc. apply Z.eqb_eq in Hn.
  right. exists batch, s, n, e. split_and!; [done..|].
  destruct e as [e|]; [injection Hrun as <- <-; by left|].
  destruct (rv_state2 rv); [injection Hrun as <- <-; by left|].
  destruct (negb (_ =? _)) eqn:Hl in Hrun; [injection Hrun as <- <-; by left|].
  destruct (_ =? _) eqn:Hcomplete in Hrun.
  2:{ injection Hrun as <- <-. left. split_and!; [done..|]. by intros res [= <-]. }
  destruct (CompleteReconciliation _ _ _ _ _ _) as [s2 [u|e]] eqn:Ec.
  2:{ apply CompleteReconciliation_err in Ec as ->. injection Hrun as <- <-. by left. }
  injection Hrun as <- <-. right.
  destruct (CompleteReconciliation_ok _ _ _ _ _ _ _ Ec) as (Hch & Hce & Hsl & Hsh).
  rewrite Hch in Hce, Hsl |- *. by split_and!.
Qed.

(** A pass that resumes has caught up.  From any store with a dense log,
    whatever [Reconcile] returns the log stays dense and append-only and the
    consumer stays halted unless it resumed.  If it resumed, the counter stands
    at the batch's high watermark, the mode is active, every delivery of the
    batch is recorded with its exact evidence, and the batch was exactly the
    sequence numbers between the old counter and that watermark. *)
Theorem reconcile_resumes_caught_up rv now c c' r :
  edge_log_inv (co_db c) ->
  Reconcile tenant identity rv now c = (c', r) ->
  let key := key_of identity in
  edge_log_inv (co_db c') /\ deliveries (co_db c) ⊆ deliveries (co_db c') /\
  (forall res, r = Ok res -> rr_Resumed res = true ->
     co_halted c' = false /\ mode_of (co_db c') key = DeliveryModeActive /\
     last_of (co_db c') key = rr_HighWatermark res /\
     high_of (co_db c') key = rr_HighWatermark res /\
     exists batch, FetchAfter identity (last_of (co_db c) key) = Ok batch /\
       rb_HighWatermark batch = rr_HighWatermark res /\
       contiguous identity (rb_Deliveries batch) (last_of (co_db c) key + 1) = true /\
       Z.of_nat (length (rb_Deliveries batch)) =
         rr_HighWatermark res - last_of (co_db c) key /\
       (forall d, d ∈ rb_Deliveries batch -> recorded (co_db c') d)) /\
  (co_halted c' = false -> co_halted c = true -> exists res, r = Ok res /\ rr_Resumed res = true).
Proof.
  intros Hinv Hrun key. subst key.
  destruct (Reconcile_cases _ _ _ _ _ Hrun) as [(E & Eh & e & ->)|(batch & s & n & e & Hf & Hc & Hl & Hb & Hend)].
  { rewrite E, Eh. split_and!; auto; congruence. }
  destruct (applyBatch_ok _ _ _ _ _ _ _ _ Hinv Hb) as (Hi & Hs & Hrec).
  destruct Hend as [(-> & Eh & Hr)|(-> & Eh & Hce & Hsl & Hsh & Hct & ->)].
  { split_and!; [done..| |congruence]. intros res E1 E2. by rewrite (Hr _ E1) in E2. }
  pose proof (counter_log _ _ _ _ _ _ Hce) as (Ed & El & Ehi).
  split_and!; [|by rewrite Ed| |eauto].
  { eapply counter_inv; [exact Hi| |]; [|rewrite Hsl; exact Hce]. rewrite Hsh. lia. }
  intros res [= <-] _. cbn. destruct Hce as [_ _ C3 C4 C5].
  split_and!; [done..|]. exists batch. split_and!; [done..|lia|].
  intros d Hd. apply (recorded_mono s); [by rewrite Ed|auto].
Qed.
End Pass.
End Recovery.

(** ** The edge follows the authority *)

(** Every recorded delivery is the authority's delivery of that number. *)
Definition follows (db : PgTx.DB) (s : EdgeDB) : Prop :=
  forall key seq row, deliveries s !! (key, seq) = Some row ->
    exists d, PgTx.deliveries db !! (key, seq) = Some d /\
      dr_raw_sha256 row = hash (Authority.ed_Raw d).

(** A delivery that carries the bytes of the authority's log. *)
Definition authentic (db : PgTx.DB) (d : JournalDelivery) : Prop :=
  exists x, PgTx.deliveries db !! (key_of (delivery_identity d), jd_DeliverySeq d) = Some x /\
    jd_Raw d = Authority.ed_Raw x.

Lemma follows_same db s s' : deliveries s' = deliveries s -> follows db s -> follows db s'.
Proof. intros E Hf key seq row. rewrite E. apply Hf. Qed.

Lemma follows_appended db d s s' :
  authentic db d -> follows db s -> appended d s s' -> follows db s'.
Proof.
  intros (x & Hx & Hraw) Hf (_ & _ & _ & row & _ & Ed & Hsha & _) key seq row' Hin.
  rewrite Ed in Hin. apply lookup_insert_Some in Hin as [[[= <- <-] <-]|[_ Hin]]; [|eauto].
  exists x. split; [done|]. by rewrite Hsha, Hraw.
Qed.

(** A growing ledger keeps being followed. *)
Lemma follows_mono db db' s :
  AuthorityInv.ledger_extends db db' -> follows db s -> follows db' s.
Proof.
  intros [_ _ _ Hd _ _] Hf key seq row Hin. destruct (Hf _ _ _ Hin) as (d & Hl & E).
  exists d. split; [by eapply lookup_weaken|done].
Qed.

(** The authority as a source of pages, behind an authenticated principal. *)
Definition with_principal (principal : string) (q : Authority.EdgeDeliveryQuery)
  : Authority.EdgeDeliveryQuery :=
  {| Authority.dq_TenantID := Authority.dq_TenantID q; Authority.dq_EdgeID := Authority.dq_EdgeID q;
     Authority.dq_PrincipalID := principal;
     Authority.dq_EdgeGeneration := Authority.dq_EdgeGeneration q;
     Authority.dq_AfterSequence := Authority.dq_AfterSequence q;
     Authority.dq_Limit := Authority.dq_Limit q |}.

Definition authority_source (principal : string) (db : PgTx.DB) (q : Authority.EdgeDeliveryQuery)
  : result string Authority.EdgeDeliveryPage :=
  match AuthorityStore.ListEdgeDeliveries (with_principal principal q) db with
  | Ok page => Ok page
  | Err _ => Err "authority refused the delivery query"
  end.

Definition authority_reconciler (principal : string) (limit : Z) (db : PgTx.DB) : Reconciler :=
  authorityFetchAfter (authority_source principal db) limit.

Lemma convertPage_ok id l : forall expected ds,
  convertPage id expected l = Ok ds -> ds = map (to_journal id) l.
Proof.
  induction l as [|x l IH]; intros expected ds H; cbn in H; [by injection H as <-|].
  destruct (negb _); [done|]. destruct (convertPage _ _ _) as [rest|] eqn:E; [|done].
  injection H as <-. cbn. by rewrite (IH _ _ E).
Qed.

Lemma authority_fetch_ok principal limit db id after batch :
  AuthorityInv.log_inv db -> authority_reconciler principal limit db id after = Ok batch ->
  rb_HighWatermark batch = AuthoritySpec.next_sequence db (key_of id) - 1 /\
  Forall (authentic db) (rb_Deliveries batch).
Proof.
  intros Hl H. unfold authority_reconciler, authorityFetchAfter, authority_source in H.
  destruct (negb _); [done|]. destruct (after <? 0); [done|].
  destruct (AuthorityStore.ListEdgeDeliveries _ db) as [page|] eqn:Ep; [|done].
  destruct (_ || _); [done|]. destruct (convertPage _ _ _) as [ds|] eqn:Ec; [|done].
  injection H as <-. cbn.
  apply AuthorityReads.ListEdgeDeliveries_page in Ep as (Hh & _ & _ & Hd); [|done].
  split; [exact Hh|]. rewrite (convertPage_ok _ _ _ _ Ec).
  apply List.Forall_forall. intros d Hin. apply in_map_iff in Hin as (x & <- & Hx).
  apply list_elem_of_In, Hd in Hx. by exists x.
Qed.

Section EndToEnd.
Context `{AEAD} (tenant : string) (identity : EdgeIdentity) (db : PgTx.DB).

Lemma follows_apply verify d now rec env s s' r :
  edge_log_inv s -> authentic db d -> follows db s ->
  consumer_apply tenant identity verify d now rec env s = (s', r) -> follows db s'.
Proof.
  intros Hi Ha Hf H0.
  destruct (consumer_apply_step _ _ _ _ _ _ _ _ _ _ Hi H0) as (_ & _ & [[E _]|Happ] & _).
  - by eapply follows_same.
  - by eapply follows_appended.
Qed.

Lemma follows_batch rv now l : forall k s s' n e,
  edge_log_inv s -> Forall (authentic db) l -> follows db s ->
  applyBatch tenant identity rv now k l s = (s', n, e) -> follows db s'.
Proof.
  induction l as [|d l IH]; intros k s s' n e Hi Hl Hf H0; cbn in H0; [by injection H0 as <- _ _|].
  apply List.Forall_cons_iff in Hl as [Hd Hl].
  destruct (consumer_apply _ _ _ _ _ _ _ _) as [s1 [o|e1]] eqn:Ea.
  - pose proof (follows_apply _ _ _ _ _ _ _ _ Hi Hd Hf Ea) as Hf1.
    destruct (halting o); [by injection H0 as <- _ _|].
    destruct (applyBatch _ _ _ _ _ _ _) as [[s2 n2] e2] eqn:Eb. injection H0 as <- _ _.
    eapply IH; [|done|exact Hf1|exact Eb].
    by destruct (consumer_apply_step _ _ _ _ _ _ _ _ _ _ Hi Ea) as (Hi1 & _).
  - injection H0 as <- _ _. by eapply follows_apply.
Qed.

(** A source that serves pages of this authority's log. *)
Definition honest (R : Reconciler) : Prop := forall after batch, R identity after = Ok batch ->
  rb_HighWatermark batch = AuthoritySpec.next_sequence db (key_of identity) - 1 /\ Forall (authentic db) (rb_Deliveries batch).

Lemma store_honest principal limit : AuthorityInv.log_inv db -> honest (authority_reconciler principal limit db).
Proof. intros Hl after batch. by apply authority_fetch_ok. Qed.

Lemma require_follows observed reason now env s s' r : edge_log_inv s -> follows db s ->
  RequireReconciliation identity observed reason now env s = (s', r) ->
  edge_log_inv s' /\ follows db s' /\ deliveries s' = deliveries s /\ last_of s' (key_of identity) = last_of s (key_of identity).
Proof.
  intros Hi Hf [->|Hc]%RequireReconciliation_cases; [done|]. pose proof (counter_log _ _ _ _ _ _ Hc) as (Ed & El & _).
  split_and!; [|by eapply follows_same|done|rewrite El; by rewrite decide_True]. eapply counter_inv; [done| |exact Hc]. lia.
Qed.

Lemma handle_follows verify msg now env c c' r : edge_log_inv (co_db c) -> follows db (co_db c) ->
  (forall m, msg_Metadata msg = Ok m -> authentic db (journal_of m msg)) ->
  Handle tenant identity verify msg now env c = (c', r) -> edge_log_inv (co_db c') /\ follows db (co_db c').
Proof.
  intros Hi Hf Ha H0. unfold Handle in H0. destruct (co_halted c); [by injection H0 as <- _|].
  destruct (msg_Metadata msg) as [m|]; [|by injection H0 as <- _].
  destruct (_ <=? _); [by injection H0 as <- _|]. destruct (_ || _).
  - destruct (RequireReconciliation _ _ _ _ _ _) as [s [u|e]] eqn:Er; injection H0 as <- _;
      destruct (require_follows _ _ _ _ _ _ _ Hi Hf Er) as (? & ? & _); done.
  - destruct (consumer_apply _ _ _ _ _ _ _ _) as [s r'] eqn:Ea.
    pose proof (follows_apply _ _ _ _ _ _ _ _ Hi (Ha _ eq_refl) Hf Ea) as Hf'.
    destruct (consumer_apply_step _ _ _ _ _ _ _ _ _ _ Hi Ea) as (Hi' & _).
    destruct r'; [destruct (negb _)|]; by injection H0 as <- _.
Qed.

(** A pass against an honest source; one that resumes has the whole log. *)
Lemma reconcile_follows (R : Reconciler) rv now c c' r : AuthorityInv.log_inv db -> honest R ->
  edge_log_inv (co_db c) -> follows db (co_db c) -> Reconcile tenant identity rv now c = (c', r) ->
  edge_log_inv (co_db c') /\ follows db (co_db c') /\ deliveries (co_db c) ⊆ deliveries (co_db c') /\
  forall res, r = Ok res -> rr_Resumed res = true ->
    mode_of (co_db c') (key_of identity) = DeliveryModeActive /\
    last_of (co_db c') (key_of identity) = AuthoritySpec.next_sequence db (key_of identity) - 1.
Proof.
  intros Hl Hh Hi Hf H0.
  apply Reconcile_cases in H0 as [(E & _ & e & ->)|(batch & s & n & e & Hfetch & _ & _ & Hb & Hend)].
  { rewrite E. by split_and!. }
  destruct (Hh _ _ Hfetch) as [Hhigh Hauth]. pose proof (follows_batch _ _ _ _ _ _ _ _ Hi Hauth Hf Hb) as Hfs.
  destruct (applyBatch_ok _ _ _ _ _ _ _ _ _ _ Hi Hb) as (His & Hsub & _).
  destruct Hend as [(-> & _ & Hnot)|(_ & _ & Hce & Hsl & Hsh & _ & ->)].
  { split_and!; [done..|]. intros res E1 E2. by rewrite (Hnot _ E1) in E2. }
  pose proof (counter_log _ _ _ _ _ _ Hce) as (Ed & El & _). split_and!.
  - eapply counter_inv; [exact His| |rewrite Hsl; exact Hce]. lia.
  - by eapply follows_same.
  - by rewrite Ed.
  - intros res _ _. split; [apply Hce|]. rewrite El, decide_True by done. lia.
Qed.

(** An edge at the authority's last number has every delivery. *)
Lemma caught_up s : AuthorityInv.log_inv db -> edge_log_inv s -> follows db s ->
  last_of s (key_of identity) = AuthoritySpec.next_sequence db (key_of identity) - 1 ->
  forall seq x, PgTx.deliveries db !! (key_of identity, seq) = Some x ->
    exists row, deliveries s !! (key_of identity, seq) = Some row /\ dr_raw_sha256 row = hash (Authority.ed_Raw x).
Proof.
  intros Hl Hi Hf Hlast seq x Hx. assert (Hin : is_Some (deliveries s !! (key_of identity, seq))).
  { apply (edge_dense _ Hi). rewrite Hlast.
    assert (1 <= seq < AuthoritySpec.next_sequence db (key_of identity)) by (apply (AuthorityInv.log_dense _ Hl); eauto). lia. }
  destruct Hin as [row Hrow]. exists row. split; [done|].
  destruct (Hf _ _ _ Hrow) as (x' & Hx' & E). rewrite Hx in Hx'. by injection Hx' as <-.
Qed.

(** C9: the edge's log is the authority's log, end to end.  Let the edge
    follow a reachable authority store: every delivery it recorded is the authority's
    delivery of that number.  Then it still does after any live delivery that
    carries bytes of the authority's log, whatever the verdict, and after any
    reconciliation pass against that authority, complete or not, with any
    failure.  If the pass resumes, the edge has recorded every delivery of the
    authority's log for its generation. *)
Theorem edge_follows_authority principal limit c :
  AuthorityTheorems.store_reachable db -> edge_log_inv (co_db c) -> follows db (co_db c) ->
  (forall verify m msg now env c' r, msg_Metadata msg = Ok m -> authentic db (journal_of m msg) ->
     Handle tenant identity verify msg now env c = (c', r) -> follows db (co_db c')) /\
  (forall rv now c' r,
     Reconcile (H0 := authority_reconciler principal limit db) tenant identity rv now c = (c', r) ->
     follows db (co_db c') /\
     (forall res, r = Ok res -> rr_Resumed res = true ->
        forall seq x, PgTx.deliveries db !! (key_of identity, seq) = Some x ->
          exists row, deliveries (co_db c') !! (key_of identity, seq) = Some row /\
            dr_raw_sha256 row = hash (Authority.ed_Raw x))).
Proof.
  intros Hr Hi Hf. apply AuthorityTheorems.store_reachable_inv in Hr as [Hl _ _ _ _]. split.
  - intros verify m msg now env c' r Hm Ha H0. eapply (handle_follows verify msg now env c); [done..| |exact H0].
    intros m' Hm'. rewrite Hm in Hm'. by injection Hm' as <-.
  - intros rv now c' r H0.
    destruct (reconcile_follows _ _ _ _ _ _ Hl (store_honest principal limit Hl) Hi Hf H0) as (Hi' & Hf' & _ & Hres).
    split; [done|]. intros res E1 E2. destruct (Hres _ E1 E2) as [_ Hlast]. by apply caught_up.
Qed.
End EndToEnd.

(** ** Acknowledgement and halting *)
Section Carrier.
Context `{AEAD} (tenant : string) (identity : EdgeIdentity).

Lemma applyVerdict_outcome d v reason p now env st st' o v' r' :
  applyVerdict tenant d v reason p now env st = (st', Ok (o, v', r')) ->
  o = v \/ o = ApplyQuarantined \/ o = ApplyDuplicate.
Proof.
  unfold applyVerdict. intros H0. destruct (v =s? VerdictAccepted); [|stx_inv; simplify_eq; by left].
  destruct p; [|stx_inv]. stx_inv.
  destruct (_ =s? ApplyQuarantined); [stx_inv; simplify_eq; auto|].
  destruct (_ =s? ApplyDuplicate); stx_inv; simplify_eq; auto.
Qed.

(** Every outcome of an apply is recorded in the log or as a durable halt. *)
Lemma apply_durable d v reason p now s s' o :
  edge_log_inv s -> apply_effect tenant d v reason p now false s s' o ->
  recorded s' d \/
  mode_of s' (key_of (delivery_identity d)) = DeliveryModeReconciliationRequired.
Proof.
  intros Hinv He.
  destruct He as [row Hrow Hev ->|o Ho Hc|row ? _ _ _ _
                 |o v' r' s1 env st1 st2 Hseq Hnone Hmode Hv <- -> Hc]; [| |done|].
  - left. by exists row.
  - right. apply Hc.
  - left. apply counter_log in Hc as (Ed & _). eexists. rewrite Ed. edge_simpl.
    rewrite lookup_insert_eq. split; [done|]. unfold same_evidence. cbn.
    by rewrite !String.eqb_refl.
Qed.

Lemma apply_known d v reason p now s s' o :
  v = VerdictAccepted \/ v = VerdictRejected ->
  apply_effect tenant d v reason p now false s s' o -> known_outcome o = true.
Proof.
  intros Hv He. destruct He as [|o [->| ->] _| |o v' r' s1 env st1 st2 _ _ _ Ha _ _ _]; try done.
  apply applyVerdict_outcome in Ha as [->|[->| ->]]; [|done|done]. by destruct Hv as [->| ->].
Qed.

Lemma consumer_apply_live verify d now env s s' r :
  edge_log_inv s -> consumer_apply tenant identity verify d now false env s = (s', r) ->
  (exists e, r = Err e /\ s' = s) \/
  (exists o, r = Ok o /\ known_outcome o = true /\
     (recorded s' d \/
      mode_of s' (key_of (delivery_identity d)) = DeliveryModeReconciliationRequired)).
Proof.
  intros Hinv H0.
  assert (Hgen : forall v reason p, v = VerdictAccepted \/ v = VerdictRejected ->
    applyVerified tenant d v reason p now false env s = (s', r) ->
    (exists e, r = Err e /\ s' = s) \/
    (exists o, r = Ok o /\ known_outcome o = true /\ (recorded s' d \/
      mode_of s' (key_of (delivery_identity d)) = DeliveryModeReconciliationRequired))).
  { intros v reason p Hv [?|(o & -> & _ & He)]%applyVerified_effect; [by left| |done].
    right. exists o. split_and!; [done|by eapply apply_known|by eapply apply_durable]. }
  unfold consumer_apply in H0. destruct (verify d) as [p|[reason|e]].
  - destruct (routeMatches _ _ _); eapply Hgen in H0; eauto.
  - eapply Hgen in H0; eauto.
  - injection H0 as <- <-. eauto.
Qed.

Lemma RequireReconciliation_ok observed reason now env s s' u :
  RequireReconciliation identity observed reason now env s = (s', Ok u) ->
  mode_of s' (key_of identity) = DeliveryModeReconciliationRequired.
Proof.
  unfold RequireReconciliation. destruct (negb _); [done|]. destruct (_ || _); [done|].
  intros [n Hw]%run_tx_ok. unfold deliveryStateTx in Hw. stx_inv.
  eapply requireReconciliationTx_ok in Hw; [apply Hw|done].
Qed.

Lemma RequireReconciliation_err observed reason now env s s' e :
  RequireReconciliation identity observed reason now env s = (s', Err e) -> s' = s.
Proof.
  unfold RequireReconciliation. destruct (negb _); [by intros [= <- _]|].
  destruct (_ || _); [by intros [= <- _]|]. apply run_tx_err.
Qed.

(** A handled message is durable; a failed one changed nothing. *)
Lemma Handle_cases verify m msg now env c c' r :
  edge_log_inv (co_db c) -> msg_Metadata msg = Ok m ->
  Handle tenant identity verify msg now env c = (c', r) ->
  (exists e, r = Err e /\ co_db c' = co_db c) \/
  (exists o, r = Ok o /\ co_halted c = false /\
    (recorded (co_db c') (journal_of m msg) \/
     mode_of (co_db c') (key_of identity) = DeliveryModeReconciliationRequired)).
Proof.
  intros Hinv Hm Eh. unfold Handle in Eh. rewrite Hm in Eh.
  destruct c as [s h]. cbn in Eh, Hinv. destruct h; [injection Eh as <- <-; eauto|].
  destruct (_ <=? _); [injection Eh as <- <-; eauto|]. destruct (_ || _) eqn:Hid.
  - destruct (RequireReconciliation _ _ _ _ _ _) as [s1 [u|e]] eqn:Er; injection Eh as <- <-.
    + right. apply RequireReconciliation_ok in Er. eauto.
    + apply RequireReconciliation_err in Er as ->. eauto.
  - destruct (consumer_apply _ _ _ _ _ _ _ _) as [s1 r2] eqn:Ea.
    destruct (consumer_apply_live _ _ _ _ _ _ _ Hinv Ea) as [(e & -> & ->)|(o & -> & Hk & Hd)].
    + injection Eh as <- <-. eauto.
    + rewrite Hk in Eh. cbn [negb] in Eh. injection Eh as <- <-. right. exists o. split_and!; [done..|].
      destruct Hd as [?|Hd]; [by left|right]. bools. cbn.
      replace (key_of identity) with (key_of (delivery_identity (journal_of m msg))); [done|].
      unfold key_of, delivery_identity. cbn. congruence.
Qed.

(** The carrier is acknowledged only after the delivery is durable.  If
    [Process] acknowledges a message, then the delivery is recorded in the
    store, or the store durably requires reconciliation; a message it negatively
    acknowledges left the store exactly as it was; and a halted consumer makes
    no carrier call at all. *)
Theorem acknowledged_means_durable verify m msg now env c c' r calls :
  edge_log_inv (co_db c) -> msg_Metadata msg = Ok m ->
  Process tenant identity verify msg now env c = (c', r, calls) ->
  (CallAck ∈ calls ->
     recorded (co_db c') (journal_of m msg) \/
     mode_of (co_db c') (key_of identity) = DeliveryModeReconciliationRequired) /\
  (CallNak ∈ calls -> co_db c' = co_db c) /\
  (co_halted c = true -> calls = [] /\ co_db c' = co_db c).
Proof.
  intros Hinv Hm H0. unfold Process in H0.
  destruct (Handle tenant identity verify msg now env c) as [c1 r1] eqn:Eh.
  assert (Hh : co_halted c = true -> r1 = Err ErrConsumerHalted).
  { intros E. unfold Handle in Eh. rewrite E in Eh. by injection Eh as _ <-. }
  destruct (Handle_cases _ _ _ _ _ _ _ _ Hinv Hm Eh) as [(e & -> & Hdb)|(o & -> & Hnh & Hd)].
  - destruct e as [|e]; injection H0 as <- <- <-.
    + split_and!; [by intros ?%not_elem_of_nil|by intros _|by intros _].
    + split_and!; [by intros ?%list_elem_of_singleton|by intros _|by intros [=]%Hh].
  - injection H0 as <- <- <-.
    split_and!; [by intros _|by intros ?%list_elem_of_singleton|by intros [=]%Hh].
Qed.

(** ** A halt that is only in memory *)
Lemma effect_mode d v reason p now allow s s' o :
  apply_effect tenant d v reason p now allow s s' o ->
  (o = ApplyQuarantined \/ halting o = false) ->
  forall k, mode_of s' k = mode_of s k.
Proof.
  intros He Ho k.
  assert (Hce : forall s1 l h, mode_of s1 = mode_of s ->
    counter_effect (key_of (delivery_identity d)) s1 s' l h (mode_of s (key_of (delivery_identity d))) ->
    mode_of s' k = mode_of s k).
  { intros s1 l h E [_ Hoth _ _ Hm]. destruct (decide (k = key_of (delivery_identity d))) as [->|Hk]; [done|].
    rewrite <- E. unfold mode_of. by rewrite Hoth. }
  destruct He as [row _ _ ->|o [->| ->] Hc|row _ _ _ _ Hc|o v' r' s1 env st1 st2 _ _ _ Hv <- -> Hc];
    [done|by destruct Ho..|by eapply Hce|].
  eapply Hce; [|exact Hc]. unfold mode_of. edge_simpl.
  by apply applyVerdict_log in Hv as [-> _].
Qed.

Lemma consumer_apply_mode verify d now rec env s s' o :
  edge_log_inv s -> consumer_apply tenant identity verify d now rec env s = (s', Ok o) ->
  (o = ApplyQuarantined \/ halting o = false) -> forall k, mode_of s' k = mode_of s k.
Proof.
  intros Hinv H0 Ho k. apply consumer_apply_cases in H0 as [(e & ? & _)|(v & reason & p & Ha)]; [done|].
  apply applyVerified_effect in Ha as [(e & ? & _)|(o' & [= <-] & _ & He)]; [done| |done].
  by eapply effect_mode.
Qed.

Lemma applyBatch_mode rv now l : forall k s s' n,
  edge_log_inv s -> applyBatch tenant identity rv now k l s = (s', n, None) ->
  forall key, mode_of s' key = mode_of s key.
Proof.
  induction l as [|d l IH]; intros k s s' n Hinv H0 key; cbn in H0; [by injection H0 as <- _|].
  destruct (consumer_apply _ _ _ _ _ _ _ _) as [s1 [o|e1]] eqn:Ea; [|done].
  destruct (halting o) eqn:Eh; [done|].
  destruct (applyBatch _ _ _ _ _ _ _) as [[s2 n2] e2] eqn:Eb. injection H0 as <- _ ->.
  destruct (consumer_apply_step _ _ _ _ _ _ _ _ _ _ Hinv Ea) as (Hi1 & _).
  rewrite (IH _ _ _ _ Hi1 Eb). eapply consumer_apply_mode; [done|exact Ea|by right].
Qed.

Lemma CompleteReconciliation_mode c h now fault s s' u :
  CompleteReconciliation identity c h now fault s = (s', Ok u) ->
  mode_of s (key_of identity) = DeliveryModeReconciliationRequired.
Proof.
  unfold CompleteReconciliation, mode_of. destruct (negb _); [done|]. destruct (_ || _); [done|].
  destruct fault; [done|]. destruct (delivery_state s !! _); [|done].
  destruct (_ && _) eqn:E; [|done]. by bools.
Qed.

(** No pass completes while the stored mode is active. *)
Lemma Reconcile_active `{Reconciler} rv now c c' r :
  edge_log_inv (co_db c) -> co_halted c = true ->
  mode_of (co_db c) (key_of identity) = DeliveryModeActive ->
  Reconcile tenant identity rv now c = (c', r) -> co_halted c' = true.
Proof.
  intros Hinv Hhalt Hmode Hrun. unfold Reconcile in Hrun. rewrite Hhalt in Hrun. cbn [negb] in Hrun.
  destruct (DeliveryState _ _ (co_db c)); [|by injection Hrun as <- _].
  destruct (FetchAfter _ _) as [batch|]; [|by injection Hrun as <- _].
  destruct (_ || _); [by injection Hrun as <- _|].
  destruct (negb (_ =? _)); [by injection Hrun as <- _|].
  destruct (negb (contiguous _ _ _)); [by injection Hrun as <- _|].
  destruct (applyBatch _ _ _ _ _ _ _) as [[s n] [e|]] eqn:Eb; [by injection Hrun as <- _|].
  destruct (DeliveryState _ _ s); [|by injection Hrun as <- _].
  destruct (negb (_ =? _)); [by injection Hrun as <- _|].
  destruct (_ =? _); [|by injection Hrun as <- _].
  destruct (CompleteReconciliation _ _ _ _ _ s) as [s2 [u|e]] eqn:Ec; [|by injection Hrun as <- _].
  apply CompleteReconciliation_mode in Ec. rewrite (applyBatch_mode _ _ _ _ _ _ _ Hinv Eb) in Ec.
  by rewrite Hmode in Ec.
Qed.

(** C39: a live quarantine halts the consumer in memory only.  When [Handle]
    reports a quarantine on a store whose mode is active, the consumer is
    halted but the stored mode stays active.  No reconciliation pass can then
    resume this consumer, whatever the authority answers; a consumer newly
    opened on the same store starts unhalted. *)
Theorem quarantine_halts_only_in_memory verify msg now env c c' :
  edge_log_inv (co_db c) -> identity_valid identity = true ->
  mode_of (co_db c) (key_of identity) = DeliveryModeActive ->
  Handle tenant identity verify msg now env c = (c', Ok ApplyQuarantined) ->
  co_halted c' = true /\ mode_of (co_db c') (key_of identity) = DeliveryModeActive /\
  (forall (R : Reconciler) rv now2 c2 r,
     Reconcile tenant identity rv now2 c' = (c2, r) -> co_halted c2 = true) /\
  NewJournalConsumer identity None (co_db c') = Ok {| co_db := co_db c'; co_halted := false |}.
Proof.
  intros Hinv Hid Hmode Hh. unfold Handle in Hh. destruct (co_halted c); [done|].
  destruct (msg_Metadata msg) as [m|]; [|done]. destruct (_ <=? _); [done|].
  destruct (_ || _); [by destruct (RequireReconciliation _ _ _ _ _ _) as [? []]|].
  destruct (consumer_apply _ _ _ _ _ _ _ _) as [s1 [o|e]] eqn:Ea; [|done].
  destruct (negb _); [done|]. injection Hh as <- ->. cbn [co_db co_halted].
  assert (Hm1 : mode_of s1 (key_of identity) = DeliveryModeActive).
  { rewrite (consumer_apply_mode _ _ _ _ _ _ _ _ Hinv Ea); [done|by left]. }
  destruct (consumer_apply_step _ _ _ _ _ _ _ _ _ _ Hinv Ea) as (Hi1 & _).
  split_and!; [done|done| |].
  - intros R rv now2 c2 r Hrun. by eapply (Reconcile_active _ _ {| co_db := s1; co_halted := _ |}); [..|exact Hrun].
  - unfold NewJournalConsumer, DeliveryState. rewrite Hid. cbn [negb].
    unfold mode_of in Hm1. destruct (delivery_state s1 !! key_of identity); [|done].
    by rewrite Hm1.
Qed.
End Carrier.
