(* ===== verification/EdgeJetStream.v ===== *)
(** * internal/sspedge/jetstream_consumer.go: the edge's JetStream carrier

    One wake at a time is fetched, read strictly (its stream, subject, size and
    canonical decimal headers) and given to the journal consumer.  The client
    library is a parameter: what a fetch returns and how acknowledgements
    answer.  The last section ties this reader to the publisher of
    internal/deliverystream. *)
From S2P Require Import OutboxWorker.
From S2P Require Import Prelude GoText GoStrconv GoTime GoJson Sha256 DeliveryStream SqliteTx.
From S2P Require Import EdgeStore EdgeApply EdgeConsumer EdgeRecovery.
Open Scope string_scope.
Open Scope Z_scope.
Open Scope snag_scope.

Definition defaultJetStreamFetchWait : Z := 5 * second.
Definition maxJetStreamFetchWait : Z := 30 * second.

(** ** Headers *)
Definition header_values (headers : list (string * string)) (name : string) : list string :=
  (filter (fun kv => kv.1 = name) headers).*2.

Definition positive_header (parse : string -> option Z) (headers : list (string * string))
    (name : string) : result string Z :=
  match header_values headers name with
  | [v] =>
      match parse v with
      | Some z => if (z <=? 0) || (dec z <>s? v) then Err "must be a canonical positive integer"
                  else Ok z
      | None => Err "must be a canonical positive integer"
      end
  | _ => Err "must appear exactly once"
  end.

Definition positiveIntHeader := positive_header ParseInt.
Definition positiveUintHeader := positive_header ParseUint.

(** ** Messages *)
Record JetStreamMsg := {
  js_metadata : result string (option (string * Z));
  js_subject : string;
  js_data : bytes;
  js_headers : list (string * string);
  js_DoubleAck : option string;
  js_Nak : option string
}.

Definition Metadata (identity : EdgeIdentity) (m : JetStreamMsg) : result string JournalMetadata :=
  meta ← js_metadata m;
  match meta with
  | None => Err "invalid JetStream delivery metadata"
  | Some (stream, sequence) =>
      if (stream <>s? StreamName) || (sequence =? 0)
         || (js_subject m <>s? edgeDeliverySubject identity)
         || (len (js_data m) =? 0) || (MaxEnvelopeBytes <? len (js_data m))
      then Err "invalid JetStream delivery metadata"
      else match header_values (js_headers m) HeaderOutboxID with
      | [v] =>
          if is_empty v then Err "invalid outbox header"
          else
            _ ← positiveUintHeader (js_headers m) HeaderFactSequence;
            deliverySequence ← positiveIntHeader (js_headers m) HeaderDeliverySequence;
            edgeGeneration ← positiveIntHeader (js_headers m) HeaderEdgeGeneration;
            mret {| jm_Stream := stream; jm_Sequence := sequence;
                    jm_DeliverySeq := deliverySequence; jm_TenantID := ei_TenantID identity;
                    jm_EdgeID := ei_EdgeID identity; jm_EdgeGeneration := edgeGeneration |}
      | _ => Err "invalid outbox header"
      end
  end.

(** [jetStreamJournalMessage]. *)
Definition journal_message (identity : EdgeIdentity) (m : JetStreamMsg) : JournalMessage :=
  {| msg_Metadata := Metadata identity m; msg_Subject := js_subject m; msg_Data := js_data m;
     msg_DoubleAck := js_DoubleAck m; msg_Nak := js_Nak m |}.

(** ** The pull consumer *)
Record PullConsumer := {
  pc_identity : EdgeIdentity;
  pc_spec : ConsumerConfig;
  pc_fetchWait : Z
}.

(** [ensured] and [opened]: the answers of [CreateOrUpdateConsumer] and
    [Consumer]. *)
Definition NewJetStreamPullConsumer (id : EdgeIdentity) (request : ConsumerRequest) (fetchWait : Z)
    (ensured opened : option string) : result string PullConsumer :=
  if negb (identity_valid id) then Err "invalid edge identity"
  else if (cr_Destination request <>s? DestinationEdge)
          || (int64_max <? cr_EdgeGeneration request)
          || (cr_TenantID request <>s? ei_TenantID id) || (cr_EdgeID request <>s? ei_EdgeID id)
          || negb (int64 (cr_EdgeGeneration request) =? ei_Generation id)
  then Err "JetStream consumer identity does not match journal handler"
  else
    let wait := if fetchWait =? 0 then defaultJetStreamFetchWait else fetchWait in
    if (wait <? 0) || (maxJetStreamFetchWait <? wait)
    then Err "JetStream fetch wait must be at most 30 seconds"
    else match EnsureConsumer request, ensured with
    | Err e, _ => Err e
    | Ok _, Some e => Err e
    | Ok spec, None =>
        if (cc_stream spec <>s? StreamName) || (cc_filter spec <>s? edgeDeliverySubject id)
        then Err "ensured JetStream consumer does not match edge delivery route"
        else match opened with
             | Some e => Err e
             | None => Ok {| pc_identity := id; pc_spec := spec; pc_fetchWait := wait |}
             end
    end.

(** What [Fetch(1)] and the batch give: [timeout] marks [nats.ErrTimeout]. *)
Inductive Fetched : Type :=
| FetchError (timeout : bool) (e : string)
| BatchEmpty (err : option (bool * string))
| FetchedMsg (m : JetStreamMsg).

Inductive HErr : Type :=
| HHalted
| HNoMessage
| HOther (e : string).

Section HandleNext.
Context `{AEAD} (tenant : string).

Definition HandleNext (pc : PullConsumer) (verify : Verifier) (fetched : Fetched) (now : Z)
    (env : TxEnv) (c : Consumer) : Consumer * result HErr string * list CarrierCall :=
  if co_halted c then (c, Err HHalted, [])
  else match fetched with
  | FetchError true _ => (c, Err HNoMessage, [])
  | FetchError false e => (c, Err (HOther e), [])
  | BatchEmpty (Some (false, e)) => (c, Err (HOther e), [])
  | BatchEmpty _ => (c, Err HNoMessage, [])
  | FetchedMsg m =>
      let wrapped := journal_message (pc_identity pc) m in
      match Handle tenant (pc_identity pc) verify wrapped now env c with
      | (c, Err e) =>
          (c, match js_Nak m with
              | Some _ => Err (HOther "NAK failed")
              | None => match e with
                        | ErrConsumerHalted => Err HHalted
                        | ErrOther _ => Ok ProcessRetrying
                        end
              end, [CallNak])
      | (c, Ok o) =>
          (c, match js_DoubleAck m with
              | Some _ => Err (HOther "DoubleAck committed delivery")
              | None => Ok o
              end, [CallAck])
      end
  end.
End HandleNext.

(** ** The published wake *)

(** The message as the carrier delivers it at position [seq] of the stream. *)
Definition delivered_wake (m : NatsMsg) (seq : Z) : JetStreamMsg :=
  {| js_metadata := Ok (Some (msg_expect_stream m, seq)); js_subject := msg_subject m;
     js_data := msg_data m; js_headers := msg_headers m; js_DoubleAck := None; js_Nak := None |}.

Definition item_edge (i : OutboxWorker.Item) : EdgeIdentity :=
  {| ei_TenantID := OutboxWorker.it_TenantID i; ei_EdgeID := OutboxWorker.it_EdgeID i;
     ei_Generation := OutboxWorker.it_EdgeGeneration i |}.

(** The fields of an edge request. *)
Lemma edge_request_fields i r :
  OutboxWorker.publishRequest i = Ok r -> Destination r = DestinationEdge ->
  OutboxWorker.bigint (OutboxWorker.it_AuthorityRevision i) ->
  OutboxWorker.bigint (OutboxWorker.it_EdgeGeneration i) ->
  OutboxWorker.bigint (OutboxWorker.it_DeliverySequence i) ->
  r = {| OutboxID := OutboxWorker.it_ID i; Destination := DestinationEdge;
         pr_TenantID := OutboxWorker.it_TenantID i; pr_DomainID := "";
         pr_EdgeID := OutboxWorker.it_EdgeID i; pr_EdgeGeneration := OutboxWorker.it_EdgeGeneration i;
         RawSSP := OutboxWorker.it_Raw i; FactSequence := OutboxWorker.it_AuthorityRevision i;
         pr_DeliverySequence := OutboxWorker.it_DeliverySequence i |} /\
  is_empty (OutboxWorker.it_ID i) = false /\ identity_valid (item_edge i) = true /\
  0 < OutboxWorker.it_AuthorityRevision i /\ 0 < OutboxWorker.it_EdgeGeneration i /\
  0 < OutboxWorker.it_DeliverySequence i /\
  exists s, SubjectFor r = Ok s.
Proof.
  intros H Hd Hrev Hgen Hseq. unfold OutboxWorker.publishRequest in H.
  destruct (OutboxWorker.validateCommonItem i) eqn:Hv; [|done]. cbn [mbind result_bind] in H.
  unfold OutboxWorker.validateCommonItem in Hv. repeat case_match; try done; bools; inv_result.
  all: cbn [Destination] in Hd; try done.
  all: split_and!; try done; try lia; try (by eexists).
  all: rewrite ?OutboxWorker.uint64_bigint by (done || lia); try done.
  all: unfold identity_valid, item_edge; cbn.
  all: repeat match goal with E : is_empty _ = false |- _ => rewrite E end; cbn.
  all: destruct (Z.leb_spec (OutboxWorker.it_EdgeGeneration i) 0); [lia|done].
Qed.

Definition bigint_generation (r : PublishRequest) : Prop :=
  0 < pr_EdgeGeneration r /\ OutboxWorker.bigint (pr_EdgeGeneration r).

(** The subject of an edge request is the subject that edge listens on. *)
Lemma edge_subject r s :
  Destination r = DestinationEdge -> bigint_generation r -> SubjectFor r = Ok s ->
  let id := {| ei_TenantID := pr_TenantID r; ei_EdgeID := pr_EdgeID r;
               ei_Generation := pr_EdgeGeneration r |} in
  s = edgeDeliverySubject id /\ (len (RawSSP r) =? 0) = false /\
  (MaxEnvelopeBytes <? len (RawSSP r)) = false.
Proof.
  intros Hd [Hpos Hgen] Hs id. unfold SubjectFor in Hs.
  destruct (validatePublishRequest r) eqn:Hv; [|done].
  assert (Hlen : (len (RawSSP r) =? 0) || (MaxEnvelopeBytes <? len (RawSSP r)) = false).
  { unfold validatePublishRequest in Hv. repeat (case_match; [done|]). done. }
  apply orb_false_iff in Hlen as [Hl1 Hl2]. split_and!; [|done|done].
  unfold destinationSubject in Hs. rewrite Hd in Hs.
  destruct (is_empty (pr_TenantID r)) eqn:Ht; [done|].
  change (DestinationEdge =s? DestinationDomain) with false in Hs.
  change (DestinationEdge =s? DestinationEdge) with true in Hs. cbn iota in Hs.
  destruct (_ || _) eqn:He in Hs; [done|]. apply orb_false_iff in He as [He _].
  assert (Hval : identity_valid id = true).
  { unfold identity_valid, id. cbn. rewrite Ht, He. destruct (Z.leb_spec (pr_EdgeGeneration r) 0); [lia|done]. }
  unfold edgeDeliverySubject. rewrite Hval. cbn [negb id ei_TenantID ei_EdgeID ei_Generation].
  rewrite OutboxWorker.uint64_bigint by (done || lia). by injection Hs as <-.
Qed.

Lemma positive_header_dec parse headers name z : 0 < z -> parse (dec z) = Some z ->
  header_values headers name = [dec z] -> positive_header parse headers name = Ok z.
Proof.
  intros Hz Hp Hh. unfold positive_header. rewrite Hh, Hp. destruct (Z.leb_spec z 0); [lia|].
  by rewrite String.eqb_refl.
Qed.

(** A wake carries exactly the log entry it was published for.  The
    message [Publish] hands to the stream for an edge item is accepted by the
    strict reader of that edge generation, and by it only as what it is: the
    item's tenant, edge, generation and delivery sequence, with the exact SSP
    bytes of the row. *)
Theorem wake_carries_the_log_entry i r seq :
  OutboxWorker.publishRequest i = Ok r -> Destination r = DestinationEdge ->
  OutboxWorker.bigint (OutboxWorker.it_AuthorityRevision i) ->
  OutboxWorker.bigint (OutboxWorker.it_EdgeGeneration i) ->
  OutboxWorker.bigint (OutboxWorker.it_DeliverySequence i) -> 0 < seq ->
  exists subject, SubjectFor r = Ok subject /\
    let wake := delivered_wake (message_for subject r) seq in
    js_data wake = OutboxWorker.it_Raw i /\
    Metadata (item_edge i) wake =
      Ok {| jm_Stream := StreamName; jm_Sequence := seq;
            jm_DeliverySeq := OutboxWorker.it_DeliverySequence i;
            jm_TenantID := OutboxWorker.it_TenantID i; jm_EdgeID := OutboxWorker.it_EdgeID i;
            jm_EdgeGeneration := OutboxWorker.it_EdgeGeneration i |}.
Proof.
  intros Hp Hd Hrev Hgen Hsq Hseq.
  destruct (edge_request_fields i r Hp Hd Hrev Hgen Hsq)
    as (-> & Hid & Hval & Prev & Pgen & Pseq & s & Hs).
  exists s. split; [done|]. split; [done|].
  destruct (edge_subject _ _ Hd (conj Pgen Hgen) Hs) as (-> & Hl1 & Hl2). clear Hs.
  cbn [RawSSP] in Hl1, Hl2. fold (item_edge i). unfold Metadata. cbn [delivered_wake message_for js_metadata js_subject js_data js_headers
    msg_expect_stream msg_subject msg_data msg_headers mbind result_bind RawSSP].
  rewrite !String.eqb_refl, Hl1, Hl2. destruct (Z.eqb_spec seq 0); [lia|]. cbn [negb orb].
  change (header_values _ HeaderOutboxID) with [OutboxWorker.it_ID i]. cbn iota. rewrite Hid.
  unfold positiveUintHeader, positiveIntHeader, OutboxWorker.bigint, int64_max in *.
  rewrite (positive_header_dec ParseUint _ HeaderFactSequence (OutboxWorker.it_AuthorityRevision i));
    [|lia|apply ParseUint_dec; lia|done].
  cbn [mbind result_bind].
  rewrite (positive_header_dec ParseInt _ HeaderDeliverySequence (OutboxWorker.it_DeliverySequence i));
    [|lia|apply ParseInt_dec; lia|done].
  cbn [mbind result_bind].
  rewrite (positive_header_dec ParseInt _ HeaderEdgeGeneration (OutboxWorker.it_EdgeGeneration i));
    [|lia|apply ParseInt_dec; lia|done].
  done.
Qed.

(** ** Acknowledgement *)
Section Acks.
Context `{AEAD} (tenant : string).

(** The pull loop acknowledges only what is durable.  When [HandleNext]
    double-acks, a message was fetched whose metadata read strictly, and its
    delivery is in the journal or the store durably requires reconciliation; in
    every other case (no message, a negative acknowledgement, a halted
    consumer) the store is exactly what it was, and a halted consumer does not
    touch the carrier. *)
Theorem handle_next_acks_durable pc verify fetched now env c c' r calls :
  edge_log_inv (co_db c) ->
  HandleNext tenant pc verify fetched now env c = (c', r, calls) ->
  (CallAck ∈ calls -> exists msg m, fetched = FetchedMsg msg /\
     Metadata (pc_identity pc) msg = Ok m /\
     (recorded (co_db c') (journal_of m (journal_message (pc_identity pc) msg)) \/
      mode_of (co_db c') (key_of (pc_identity pc)) = DeliveryModeReconciliationRequired)) /\
  (CallAck ∉ calls -> co_db c' = co_db c) /\
  (co_halted c = true -> c' = c /\ r = Err HHalted /\ calls = []).
Proof.
  intros Hinv Hn. unfold HandleNext in Hn.
  assert (Hquiet : forall x, (c, Err x, []) = (c', r, calls) -> co_halted c = false \/ x = HHalted ->
    (CallAck ∈ calls -> exists msg m, fetched = FetchedMsg msg /\
       Metadata (pc_identity pc) msg = Ok m /\
       (recorded (co_db c') (journal_of m (journal_message (pc_identity pc) msg)) \/
        mode_of (co_db c') (key_of (pc_identity pc)) = DeliveryModeReconciliationRequired)) /\
    (CallAck ∉ calls -> co_db c' = co_db c) /\
    (co_halted c = true -> c' = c /\ r = Err HHalted /\ calls = [])).
  { intros x [= <- <- <-] Hx. split_and!; [by intros ?%not_elem_of_nil|done|].
    intros E. destruct Hx as [Hx| ->]; [congruence|done]. }
  destruct (co_halted c) eqn:Hh; [by eapply Hquiet; eauto|].
  destruct fetched as [[] e|[[[] e]|]|msg]; try (by eapply Hquiet; eauto). clear Hquiet.
  destruct (Handle _ _ _ _ _ _ _) as [c1 r1] eqn:Eh.
  destruct (Metadata (pc_identity pc) msg) as [m|e] eqn:Em.
  - destruct (Handle_cases _ _ _ m (journal_message _ msg) _ _ _ _ _ Hinv Em Eh) as [(e & -> & Hdb)|(o & -> & _ & Hd)];
      injection Hn as <- <- <-; split_and!; try done.
    + by intros ?%list_elem_of_singleton.
    + by exists msg, m.
    + intros []. by left.
  - unfold Handle in Eh. rewrite Hh in Eh. cbn [journal_message msg_Metadata] in Eh.
    rewrite Em in Eh. injection Eh as <- <-.
    injection Hn as <- <- <-. split_and!; try done. by intros ?%list_elem_of_singleton.
Qed.
End Acks.

(** A pull consumer is scoped to its edge generation.  Once constructed it
    listens on exactly the delivery subject of the handler's identity in the
    shared stream, acknowledges explicitly, and waits at most thirty seconds
    for a fetch ([EdgeGeneration] of the request is a [uint64]). *)
Theorem pull_consumer_is_scoped id request fetchWait ensured opened pc :
  0 <= cr_EdgeGeneration request ->
  NewJetStreamPullConsumer id request fetchWait ensured opened = Ok pc ->
  pc_identity pc = id /\ identity_valid id = true /\
  cc_stream (pc_spec pc) = StreamName /\ cc_filter (pc_spec pc) = edgeDeliverySubject id /\
  cc_ack_policy (pc_spec pc) = "explicit" /\
  ei_Generation id = cr_EdgeGeneration request /\
  0 < pc_fetchWait pc <= maxJetStreamFetchWait.
Proof.
  intros Hg Hn. unfold NewJetStreamPullConsumer in Hn.
  destruct (negb _) eqn:Hv; [done|]. destruct (_ || negb _) eqn:Hid; [done|].
  destruct ((_ <? 0) || _) eqn:Hw; [done|].
  destruct (EnsureConsumer request) as [spec|] eqn:He; [|by destruct ensured].
  destruct ensured; [done|]. destruct ((cc_stream spec <>s? _) || _) eqn:Hs; [done|]. destruct opened; [done|].
  injection Hn as <-. cbn. bools. rewrite int64_id in * by (unfold int64_min; lia).
  assert (Hack : cc_ack_policy spec = "explicit").
  { unfold EnsureConsumer in He. repeat case_match; by try injection He as <-. }
  split_and!; try done. destruct (Z.eqb_spec fetchWait 0); [done|lia].
Qed.
