(* ===== verification/EdgeSpool.v ===== *)
(** * The spools of the edge store

    internal/sspedge/edge_case_store.go, edge_advice_spool.go and
    dispatcher_turn_store.go: the exact signed wires an edge still has to get
    admitted, the durable receipts, the reads of the accepted advices, and the
    replay guard of the dispatcher turns.  ([GetCase], whose payload needs the
    JSON decoder, is in EdgeOpen.v.) *)
From stdpp Require Import sorting.
From S2P Require Import Prelude GoText GoTime GoJson Sha256 DeliveryStream SqliteTx EdgeStore.
Open Scope string_scope.
Open Scope Z_scope.
Open Scope snag_scope.

Definition blank (s : string) : bool := negb (non_blank s).

Definition parseSQLTime (raw : string) : result string Z :=
  of_option "invalid stored timestamp" (parse_nano raw).

(** ** The values of internal/edge *)
Record PendingCase := {
  ep_EnvelopeID : string;
  ep_CaseID : string;
  ep_Commitment : string;
  ep_Raw : bytes;
  ep_CreatedAt : Z
}.

Record EdgeReceipt := {
  rc_AuthorityID : string;
  rc_Revision : Z;
  rc_EnvelopeID : string;
  rc_Commitment : string
}.

Record AcceptedRemoteCase := {
  ac_EnvelopeID : string;
  ac_CaseID : string;
  ac_Commitment : string;
  ac_Receipt : EdgeReceipt;
  ac_AcceptedAt : Z
}.

Record PendingAdvice := {
  ea_AdviceID : string;
  ea_CaseID : string;
  ea_CaseCommitment : string;
  ea_Commitment : string;
  ea_Raw : bytes;
  ea_CreatedAt : Z
}.

Record AcceptedRemoteAdvice := {
  aa_AdviceID : string;
  aa_CaseID : string;
  aa_Commitment : string;
  aa_Receipt : EdgeReceipt;
  aa_AcceptedAt : Z
}.

Record AdviceView := {
  av_AdviceID : string;
  av_CaseID : string;
  av_Text : string;
  av_ReceivedAt : Z
}.

#[export] Instance PendingCase_eq : EqDecision PendingCase.
Proof. solve_decision. Defined.
#[export] Instance PendingAdvice_eq : EqDecision PendingAdvice.
Proof. solve_decision. Defined.

Section Spool.
Context `{AEAD} (tenant : string).

(** ** Pending cases *)
Definition validatePendingCase (p : PendingCase) : bool :=
  negb (blank (ep_EnvelopeID p) || blank (ep_CaseID p) || negb (sha256_pattern (ep_Commitment p))
        || (len (ep_Raw p) =? 0) || (MaxEnvelopeBytes <? len (ep_Raw p))
        || is_zero_time (ep_CreatedAt p)).

Definition scanPendingCase (row : option PendingCaseRow) (caseID : string)
  : result string (option PendingCase) :=
  match row with
  | None => Ok None
  | Some r =>
      createdAt ← parseSQLTime (pc_created_at r);
      raw ← open_field tenant "ssp_edge_pending_cases" caseID (pc_raw_ciphertext r);
      mret (Some {| ep_EnvelopeID := pc_envelope_id r; ep_CaseID := caseID;
                    ep_Commitment := pc_commitment r; ep_Raw := raw; ep_CreatedAt := createdAt |})
  end.

Definition loadPendingCaseTx (caseID : string) : STx EdgeDB (option PendingCase) :=
  row ← select (fun s => pending_cases s !! caseID);
  lift (scanPendingCase row caseID).

Definition same_pending_case (a b : PendingCase) : bool :=
  (ep_EnvelopeID a =s? ep_EnvelopeID b) && (ep_Commitment a =s? ep_Commitment b)
  && (ep_CreatedAt a =? ep_CreatedAt b) && (ep_Raw a =s? ep_Raw b).

Definition pending_case_row (p : PendingCase) (body : bytes) : PendingCaseRow :=
  {| pc_envelope_id := ep_EnvelopeID p; pc_commitment := ep_Commitment p;
     pc_raw_ciphertext := body; pc_created_at := sqlTime (ep_CreatedAt p); pc_state := "pending";
     pc_authority_id := None; pc_authority_revision := None; pc_accepted_at := None |}.

Definition savePendingCaseWork (p : PendingCase) : STx EdgeDB unit :=
  existing ← loadPendingCaseTx (ep_CaseID p);
  match existing with
  | Some e => check (negb (same_pending_case e p)) "pending case conflicts with stored exact wire"
  | None =>
      body ← seal tenant "ssp_edge_pending_cases" (ep_CaseID p) (ep_Raw p);
      put pending_cases set_pending_cases (insert_strict
        (fun r => pc_envelope_id r =s? ep_EnvelopeID p) (ep_CaseID p) (pending_case_row p body))
  end.

Definition SavePendingCase (p : PendingCase) (env : TxEnv) (s : EdgeDB)
  : EdgeDB * result string unit :=
  if negb (validatePendingCase p) then (s, Err "invalid pending case")
  else run_tx (savePendingCaseWork p) env s.

Definition LoadPendingCase (caseID : string) (fault : option string) (s : EdgeDB)
  : result string (option PendingCase) :=
  if blank caseID then Err "case ID is required"
  else match fault with
       | Some e => Err e
       | None => scanPendingCase (pending_cases s !! caseID) caseID
       end.

Definition validateAcceptedRemote (a : AcceptedRemoteCase) : bool :=
  negb (blank (ac_EnvelopeID a) || blank (ac_CaseID a) || negb (sha256_pattern (ac_Commitment a))
        || blank (rc_AuthorityID (ac_Receipt a)) || (rc_Revision (ac_Receipt a) <=? 0)
        || (rc_EnvelopeID (ac_Receipt a) <>s? ac_EnvelopeID a)
        || (rc_Commitment (ac_Receipt a) <>s? ac_Commitment a) || is_zero_time (ac_AcceptedAt a)).

Definition accepted_case_row (a : AcceptedRemoteCase) (r : PendingCaseRow) : PendingCaseRow :=
  {| pc_envelope_id := pc_envelope_id r; pc_commitment := pc_commitment r;
     pc_raw_ciphertext := pc_raw_ciphertext r; pc_created_at := pc_created_at r;
     pc_state := "accepted_remote"; pc_authority_id := Some (rc_AuthorityID (ac_Receipt a));
     pc_authority_revision := Some (rc_Revision (ac_Receipt a));
     pc_accepted_at := Some (sqlTime (ac_AcceptedAt a)) |}.

(** UPDATE ... WHERE case_id=? AND state='pending'. *)
Definition update_pending {R} (state : R -> string) (f : R -> R) (key : string)
    (m : gmap string R) : gmap string R :=
  match m !! key with
  | Some r => if state r =s? "pending" then <[key := f r]> m else m
  | None => m
  end.

Definition markCaseWork (a : AcceptedRemoteCase) : STx EdgeDB unit :=
  row ← select (fun s => pending_cases s !! ac_CaseID a);
  match row with
  | None => fail "pending case not found"
  | Some r =>
      check ((pc_envelope_id r <>s? ac_EnvelopeID a) || (pc_commitment r <>s? ac_Commitment a))
            "authority receipt does not bind stored pending case";;
      if pc_state r =s? "accepted_remote" then
        check (negb ((default "" (pc_authority_id r) =s? rc_AuthorityID (ac_Receipt a))
                     && (default 0 (pc_authority_revision r) =? rc_Revision (ac_Receipt a))
                     && (default "" (pc_accepted_at r) =s? sqlTime (ac_AcceptedAt a))))
              "accepted_remote receipt conflicts with stored evidence"
      else
        check (pc_state r <>s? "pending") "pending case has invalid state";;
        exec (fun s => set_pending_cases
          (update_pending pc_state (accepted_case_row a) (ac_CaseID a) (pending_cases s)) s)
  end.

Definition MarkCaseAcceptedRemote (a : AcceptedRemoteCase) (env : TxEnv) (s : EdgeDB)
  : EdgeDB * result string unit :=
  if negb (validateAcceptedRemote a) then (s, Err "invalid accepted_remote receipt")
  else run_tx (markCaseWork a) env s.

(** ** Reading accepted advices *)
Definition advice_view (adviceID : string) (r : EdgeAdviceRow) : result string AdviceView :=
  text ← open_field tenant "ssp_edge_advice" adviceID (ar_text_ciphertext r);
  receivedAt ← parseSQLTime (ar_received_at r);
  mret {| av_AdviceID := adviceID; av_CaseID := ar_case_id r; av_Text := text;
          av_ReceivedAt := receivedAt |}.

(** ORDER BY received_at, advice_id: both are compared as texts. *)
Definition advice_before (a b : string * EdgeAdviceRow) : bool :=
  if str_lt (ar_received_at a.2) (ar_received_at b.2) then true
  else if str_lt (ar_received_at b.2) (ar_received_at a.2) then false
  else str_lt a.1 b.1.
Definition advice_le (a b : string * EdgeAdviceRow) : Prop := advice_before b a = false.
#[local] Instance advice_le_dec : RelDecision advice_le.
Proof. intros a b. unfold advice_le. apply _. Defined.

Definition advice_rows (caseID : string) (s : EdgeDB) : list (string * EdgeAdviceRow) :=
  merge_sort advice_le
    (filter (fun kv => ar_case_id kv.2 = caseID /\ ar_state kv.2 = "accepted")
            (map_to_list (advice s))).

Fixpoint view_all (l : list (string * EdgeAdviceRow)) : result string (list AdviceView) :=
  match l with
  | [] => Ok []
  | (k, r) :: l => v ← advice_view k r; rest ← view_all l; mret (v :: rest)
  end.

Definition ListAdvice (caseID : string) (fault : option string) (s : EdgeDB)
  : result string (list AdviceView) :=
  if blank caseID then Err "case ID is required"
  else match fault with
       | Some e => Err e
       | None => view_all (advice_rows caseID s)
       end.

Definition PresentAdvice (adviceID : string) (fault : option string) (s : EdgeDB)
  : result string (option AdviceView) :=
  if blank adviceID then Err "advice ID is required"
  else match fault with
       | Some e => Err e
       | None =>
           match accepted_advice s adviceID with
           | None => Ok None
           | Some r => Some <$> advice_view adviceID r
           end
       end.

(** ** Pending advices *)
Definition validatePendingAdvice (p : PendingAdvice) : bool :=
  negb (blank (ea_AdviceID p) || blank (ea_CaseID p) || negb (sha256_pattern (ea_CaseCommitment p))
        || negb (sha256_pattern (ea_Commitment p)) || (len (ea_Raw p) =? 0)
        || (MaxEnvelopeBytes <? len (ea_Raw p)) || is_zero_time (ea_CreatedAt p)).

Definition scanPendingAdvice (row : option PendingAdviceRow) (caseID : string)
  : result string (option PendingAdvice) :=
  match row with
  | None => Ok None
  | Some r =>
      createdAt ← parseSQLTime (pa_created_at r);
      raw ← open_field tenant "ssp_edge_pending_advice" caseID (pa_raw_ciphertext r);
      mret (Some {| ea_AdviceID := pa_advice_id r; ea_CaseID := caseID;
                    ea_CaseCommitment := pa_case_commitment r; ea_Commitment := pa_commitment r;
                    ea_Raw := raw; ea_CreatedAt := createdAt |})
  end.

Definition loadPendingAdviceTx (caseID : string) : STx EdgeDB (option PendingAdvice) :=
  row ← select (fun s => pending_advice s !! caseID);
  lift (scanPendingAdvice row caseID).

Definition same_pending_advice (a b : PendingAdvice) : bool :=
  (ea_AdviceID a =s? ea_AdviceID b) && (ea_CaseCommitment a =s? ea_CaseCommitment b)
  && (ea_Commitment a =s? ea_Commitment b) && (ea_CreatedAt a =? ea_CreatedAt b)
  && (ea_Raw a =s? ea_Raw b).

Definition pending_advice_row (p : PendingAdvice) (body : bytes) : PendingAdviceRow :=
  {| pa_advice_id := ea_AdviceID p; pa_case_commitment := ea_CaseCommitment p;
     pa_commitment := ea_Commitment p; pa_raw_ciphertext := body;
     pa_created_at := sqlTime (ea_CreatedAt p); pa_state := "pending"; pa_authority_id := None;
     pa_authority_revision := None; pa_accepted_at := None |}.

Definition savePendingAdviceWork (p : PendingAdvice) : STx EdgeDB unit :=
  existing ← loadPendingAdviceTx (ea_CaseID p);
  match existing with
  | Some e => check (negb (same_pending_advice e p)) "pending advice conflicts with stored exact wire"
  | None =>
      body ← seal tenant "ssp_edge_pending_advice" (ea_CaseID p) (ea_Raw p);
      put pending_advice set_pending_advice (insert_strict
        (fun r => pa_advice_id r =s? ea_AdviceID p) (ea_CaseID p) (pending_advice_row p body))
  end.

Definition SavePendingAdvice (p : PendingAdvice) (env : TxEnv) (s : EdgeDB)
  : EdgeDB * result string unit :=
  if negb (validatePendingAdvice p) then (s, Err "invalid pending advice")
  else run_tx (savePendingAdviceWork p) env s.

Definition LoadPendingAdvice (caseID : string) (fault : option string) (s : EdgeDB)
  : result string (option PendingAdvice) :=
  if blank caseID then Err "case ID is required"
  else match fault with
       | Some e => Err e
       | None => scanPendingAdvice (pending_advice s !! caseID) caseID
       end.

Definition validateAcceptedRemoteAdvice (a : AcceptedRemoteAdvice) : bool :=
  negb (blank (aa_AdviceID a) || blank (aa_CaseID a) || negb (sha256_pattern (aa_Commitment a))
        || blank (rc_AuthorityID (aa_Receipt a)) || (rc_Revision (aa_Receipt a) <=? 0)
        || (rc_EnvelopeID (aa_Receipt a) <>s? aa_AdviceID a)
        || (rc_Commitment (aa_Receipt a) <>s? aa_Commitment a) || is_zero_time (aa_AcceptedAt a)).

Definition accepted_advice_row (a : AcceptedRemoteAdvice) (r : PendingAdviceRow)
  : PendingAdviceRow :=
  {| pa_advice_id := pa_advice_id r; pa_case_commitment := pa_case_commitment r;
     pa_commitment := pa_commitment r; pa_raw_ciphertext := pa_raw_ciphertext r;
     pa_created_at := pa_created_at r; pa_state := "accepted_remote";
     pa_authority_id := Some (rc_AuthorityID (aa_Receipt a));
     pa_authority_revision := Some (rc_Revision (aa_Receipt a));
     pa_accepted_at := Some (sqlTime (aa_AcceptedAt a)) |}.

(** A replayed receipt need not repeat the time of acceptance. *)
Definition markAdviceWork (a : AcceptedRemoteAdvice) : STx EdgeDB unit :=
  row ← select (fun s => pending_advice s !! aa_CaseID a);
  match row with
  | None => fail "pending advice not found"
  | Some r =>
      check ((pa_advice_id r <>s? aa_AdviceID a) || (pa_commitment r <>s? aa_Commitment a))
            "authority receipt does not bind stored pending advice";;
      if pa_state r =s? "accepted_remote" then
        check (negb ((default "" (pa_authority_id r) =s? rc_AuthorityID (aa_Receipt a))
                     && (default 0 (pa_authority_revision r) =? rc_Revision (aa_Receipt a))))
              "accepted_remote advice receipt conflicts with stored evidence"
      else
        check (pa_state r <>s? "pending") "pending advice has invalid state";;
        exec (fun s => set_pending_advice
          (update_pending pa_state (accepted_advice_row a) (aa_CaseID a) (pending_advice s)) s)
  end.

Definition MarkAdviceAcceptedRemote (a : AcceptedRemoteAdvice) (env : TxEnv) (s : EdgeDB)
  : EdgeDB * result string unit :=
  if negb (validateAcceptedRemoteAdvice a) then (s, Err "invalid accepted_remote advice receipt")
  else run_tx (markAdviceWork a) env s.

(** ** Dispatcher turns *)
Definition maxDispatcherTurnRequestBytes : Z := Z.shiftl 64 10.
Definition maxDispatcherTurnResultBytes : Z := Z.shiftl 16 10.
Definition maxDispatcherTurnRetention : Z := 30 * day.
Definition maxDispatcherTurnCapacity : Z := Z.shiftl 1 20.
Definition maxDispatcherTurnClaimTTL : Z := 10 * minute.
Definition dispatcherTurnRequestAAD : string := "ssp_edge_dispatcher_turn_request".
Definition dispatcherTurnResultAAD : string := "ssp_edge_dispatcher_turn_result".
Definition ErrDispatcherTurnMismatch : string :=
  "dispatcher turn request conflicts with stored binding".
Definition ErrDispatcherTurnCapacity : string := "dispatcher turn replay guard is full".

(** [UnixNano]: 64-bit, wrapping. *)
Definition UnixNano (t : Z) : Z := int64 t.

Record DispatcherTurnBinding := {
  tb_Completed : bool;
  tb_InFlight : bool;
  tb_ClaimToken : string;
  tb_Result : bytes
}.

Definition claimed_binding (token : string) : DispatcherTurnBinding :=
  {| tb_Completed := false; tb_InFlight := false; tb_ClaimToken := token; tb_Result := "" |}.
Definition in_flight : DispatcherTurnBinding :=
  {| tb_Completed := false; tb_InFlight := true; tb_ClaimToken := ""; tb_Result := "" |}.
Definition completed_binding (result : bytes) : DispatcherTurnBinding :=
  {| tb_Completed := true; tb_InFlight := false; tb_ClaimToken := ""; tb_Result := result |}.

Definition request_ok (request : bytes) : bool :=
  negb ((len request =? 0) || (maxDispatcherTurnRequestBytes <? len request)).

Definition bind_valid (eventID : string) (request : bytes) (now retention claimTTL capacity : Z)
  : bool :=
  hex64 eventID && request_ok request && negb (is_zero_time now)
  && negb ((retention <=? 0) || (maxDispatcherTurnRetention <? retention)
           || (claimTTL <=? 0) || (maxDispatcherTurnClaimTTL <? claimTTL)
           || (capacity <=? 0) || (maxDispatcherTurnCapacity <? capacity)).

Definition with_claim (token : option string) (expires : option Z) (r : TurnRow) : TurnRow :=
  {| tr_request_ciphertext := tr_request_ciphertext r; tr_result_ciphertext := tr_result_ciphertext r;
     tr_state := tr_state r; tr_created := tr_created r; tr_expires := tr_expires r;
     tr_completed := tr_completed r; tr_claim_token := token; tr_claim_expires := expires |}.

Definition completed_turn (result : bytes) (completedAt : Z) (r : TurnRow) : TurnRow :=
  {| tr_request_ciphertext := tr_request_ciphertext r; tr_result_ciphertext := Some result;
     tr_state := "completed"; tr_created := tr_created r; tr_expires := tr_expires r;
     tr_completed := Some (UnixNano completedAt); tr_claim_token := None;
     tr_claim_expires := None |}.

(** The statement that touches one row: how many rows matched. *)
Definition update_turn (eventID : string) (guard : TurnRow -> bool) (f : TurnRow -> option TurnRow)
  : STx EdgeDB Z :=
  sql (fun s =>
    match turns s !! eventID with
    | Some r => if guard r
                then Ok (1, set_turns (partial_alter (fun _ => f r) eventID (turns s)) s)
                else Ok (0, s)
    | None => Ok (0, s)
    end).

Definition turn_pending (r : TurnRow) : bool := tr_state r =s? "pending".
Definition turn_owned (claim : string) (r : TurnRow) : bool :=
  turn_pending r && match tr_claim_token r with Some t => t =s? claim | None => false end.
Definition has_result (r : TurnRow) : bool :=
  negb (len (default "" (tr_result_ciphertext r)) =? 0).

Definition open_turn (eventID : string) (request : bytes) (r : TurnRow) : STx EdgeDB unit :=
  stored ← lift (open_field tenant dispatcherTurnRequestAAD eventID (tr_request_ciphertext r));
  check (stored <>s? request) ErrDispatcherTurnMismatch.

Definition bindExisting (eventID : string) (request : bytes) (now claimTTL : Z) (r : TurnRow)
  : STx EdgeDB DispatcherTurnBinding :=
  open_turn eventID request r;;
  let storedClaim := default "" (tr_claim_token r) in
  let claimExpires := default 0 (tr_claim_expires r) in
  if tr_state r =s? "pending" then
    check (has_result r) "pending dispatcher turn has a result";;
    check (negb (Bool.eqb (is_empty storedClaim) (claimExpires =? 0)))
          "pending dispatcher turn has an invalid claim";;
    if negb (is_empty storedClaim) && (UnixNano now <? claimExpires) then mret in_flight
    else
      token ← claimToken;
      n ← update_turn eventID turn_pending
            (fun r => Some (with_claim (Some token) (Some (UnixNano (now + claimTTL))) r));
      check (negb (n =? 1)) "dispatcher turn claim lost its binding";;
      mret (claimed_binding token)
  else if tr_state r =s? "completed" then
    check (negb (has_result r) || negb (is_empty storedClaim) || negb (claimExpires =? 0))
          "completed dispatcher turn state is invalid";;
    result ← lift (open_field tenant dispatcherTurnResultAAD eventID
                     (default "" (tr_result_ciphertext r)));
    check ((len result =? 0) || (maxDispatcherTurnResultBytes <? len result))
          "invalid stored dispatcher turn result";;
    mret (completed_binding result)
  else fail "invalid dispatcher turn state".

Definition new_turn (body : bytes) (now retention claimTTL : Z) (token : string) : TurnRow :=
  {| tr_request_ciphertext := body; tr_result_ciphertext := None; tr_state := "pending";
     tr_created := UnixNano now; tr_expires := UnixNano (now + retention); tr_completed := None;
     tr_claim_token := Some token; tr_claim_expires := Some (UnixNano (now + claimTTL)) |}.

Definition bindNew (eventID : string) (request : bytes) (now retention claimTTL capacity : Z)
  : STx EdgeDB DispatcherTurnBinding :=
  used ← select (fun s => Z.of_nat (size (turns s)));
  check (capacity <=? used) ErrDispatcherTurnCapacity;;
  body ← seal tenant dispatcherTurnRequestAAD eventID request;
  token ← claimToken;
  put turns set_turns (insert_strict (fun _ => false) eventID
    (new_turn body now retention claimTTL token));;
  mret (claimed_binding token).

Definition pruneTurns (now : Z) : STx EdgeDB unit :=
  exec (fun s => set_turns (filter (fun kv => UnixNano now < tr_expires kv.2) (turns s)) s).

Definition bindWork (eventID : string) (request : bytes) (now retention claimTTL capacity : Z)
  : STx EdgeDB DispatcherTurnBinding :=
  pruneTurns now;;
  row ← select (fun s => turns s !! eventID);
  match row with
  | Some r => bindExisting eventID request now claimTTL r
  | None => bindNew eventID request now retention claimTTL capacity
  end.

Definition BindDispatcherTurn (eventID : string) (request : bytes)
    (now retention claimTTL capacity : Z) (env : TxEnv) (s : EdgeDB)
  : EdgeDB * result string DispatcherTurnBinding :=
  if negb (bind_valid eventID request now retention claimTTL capacity)
  then (s, Err "invalid dispatcher turn binding")
  else run_tx (bindWork eventID request now retention claimTTL capacity) env s.

Definition completeWork (eventID : string) (request result : bytes) (completedAt : Z)
    (claim : string) : STx EdgeDB unit :=
  row ← select (fun s => turns s !! eventID);
  match row with
  | None => fail "dispatcher turn binding not found"
  | Some r =>
      open_turn eventID request r;;
      let storedClaim := default "" (tr_claim_token r) in
      if tr_state r =s? "completed" then
        check (negb (is_empty storedClaim)) "completed dispatcher turn retained a claim";;
        stored ← lift (open_field tenant dispatcherTurnResultAAD eventID
                         (default "" (tr_result_ciphertext r)));
        check (stored <>s? result) "dispatcher turn result conflicts with stored binding"
      else
        check ((tr_state r <>s? "pending") || has_result r || (storedClaim <>s? claim))
              "invalid dispatcher turn state";;
        body ← seal tenant dispatcherTurnResultAAD eventID result;
        n ← update_turn eventID (turn_owned claim) (fun r => Some (completed_turn body completedAt r));
        check (negb (n =? 1)) "dispatcher turn completion lost its binding"
  end.

Definition CompleteDispatcherTurn (eventID : string) (request result : bytes) (completedAt : Z)
    (claim : string) (env : TxEnv) (s : EdgeDB) : EdgeDB * Prelude.result string unit :=
  if negb (hex64 eventID && hex64 claim && request_ok request
           && negb ((len result =? 0) || (maxDispatcherTurnResultBytes <? len result))
           && negb (is_zero_time completedAt))
  then (s, Err "invalid dispatcher turn completion")
  else run_tx (completeWork eventID request result completedAt claim) env s.

Definition updatePendingDispatcherTurnClaim (eventID : string) (request : bytes) (claim : string)
    (abandon : bool) : STx EdgeDB unit :=
  row ← select (fun s => turns s !! eventID);
  match row with
  | None => fail "dispatcher turn binding not found"
  | Some r =>
      open_turn eventID request r;;
      check ((tr_state r <>s? "pending") || has_result r
             || (default "" (tr_claim_token r) <>s? claim))
            "dispatcher turn claim is not owned by this execution";;
      n ← update_turn eventID (turn_owned claim)
            (fun r => if abandon then None else Some (with_claim None None r));
      check (negb (n =? 1)) "dispatcher turn claim update lost its binding"
  end.

Definition claim_valid (eventID : string) (request : bytes) (claim : string) : bool :=
  hex64 eventID && hex64 claim && request_ok request.

Definition ReleaseDispatcherTurnClaim (eventID : string) (request : bytes) (claim : string)
    (env : TxEnv) (s : EdgeDB) : EdgeDB * result string unit :=
  if negb (claim_valid eventID request claim) then (s, Err "invalid dispatcher turn claim release")
  else run_tx (updatePendingDispatcherTurnClaim eventID request claim false) env s.

Definition AbandonDispatcherTurn (eventID : string) (request : bytes) (claim : string)
    (env : TxEnv) (s : EdgeDB) : EdgeDB * result string unit :=
  if negb (claim_valid eventID request claim) then (s, Err "invalid dispatcher turn abandonment")
  else run_tx (updatePendingDispatcherTurnClaim eventID request claim true) env s.
End Spool.
