(* ===== verification/EdgeInv.v ===== *)
(** * Invariants of the edge's projection

    What the tables of envelope identities, cases, advices and front messages
    of one edge store mean together, over every operation of the store: the
    identity of an envelope is fixed by its first commitment, a conflicting
    commitment quarantines everything of that envelope for good, an advice
    binds the exact case row it was stored for, and each advice has its two
    front messages. *)
From stdpp Require Import sorting relations.
From S2P Require Import Prelude GoText GoTime GoJson Sha256 DeliveryStream SqliteTx.
From S2P Require Import EdgeStore EdgeApply EdgeSpool.
Open Scope string_scope.
Open Scope Z_scope.
Open Scope snag_scope.

(** The binding of [adviceBindsCase], between stored rows. *)
Definition row_binds (c : CaseRow) (a : EdgeAdviceRow) : Prop :=
  er_commitment c = ar_case_commitment a /\ er_issuer_edge_id c = ar_issuer_edge_id a /\
  er_issuer_edge_generation c = ar_issuer_edge_generation a /\
  er_source_token c = ar_route_token a /\ er_routing_epoch c = ar_routing_epoch a /\
  er_registry_revision c = ar_registry_revision a /\ er_registry_hash c = ar_registry_hash a.

Definition identity_ok (i : IdentityRow) : Prop :=
  (ir_state i = "accepted" /\ ir_conflicting_commitment i = None) \/
  (ir_state i = "quarantined" /\
   exists c, ir_conflicting_commitment i = Some c /\ c <> ir_commitment i).

(** The identity row an accepted or quarantined projection row stands under. *)
Definition identified (s : EdgeDB) (envelope commitment state : string) : Prop :=
  exists i, identities s !! envelope = Some i /\ ir_commitment i = commitment /\ ir_state i = state.

(** The states of a message, in the order it goes through them. *)
Definition front_rank (state : string) : Z :=
  if state =s? "pending" then 0 else if state =s? "delivering" then 1
  else if state =s? "delivered" then 2 else if state =s? "quarantined" then 3 else -1.

Record proj_inv (s : EdgeDB) : Prop := {
  pi_identity : forall id i, identities s !! id = Some i -> identity_ok i;
  pi_case : forall k c, cases s !! k = Some c ->
    identified s (er_envelope_id c) (er_commitment c) (er_state c);
  pi_advice : forall k a, advice s !! k = Some a ->
    identified s (ar_envelope_id a) (ar_commitment a) (ar_state a);
  pi_bind : forall k a, advice s !! k = Some a ->
    exists c, cases s !! ar_case_id a = Some c /\ row_binds c a;
  pi_front : forall f k r, front_outbox s !! (f, k) = Some r ->
    fr_message_id r = front_message f k /\ 0 <= front_rank (fr_state r) /\
    exists a, advice s !! k = Some a /\
      (ar_state a = "quarantined" -> fr_state r = "quarantined");
  pi_fronts : forall k a, advice s !! k = Some a ->
    is_Some (front_outbox s !! ("cli", k)) /\ is_Some (front_outbox s !! ("amq", k))
}.

(** How an identity may change: never its commitment nor its first delivery,
    and a quarantine, with its evidence, is final. *)
Definition identity_le (i j : IdentityRow) : Prop :=
  ir_commitment j = ir_commitment i /\ ir_first_delivery_seq j = ir_first_delivery_seq i /\
  ir_first_seen_at j = ir_first_seen_at i /\
  (ir_state i = "quarantined" -> ir_state j = "quarantined" /\
   ir_conflicting_commitment j = ir_conflicting_commitment i) /\
  (ir_state j = ir_state i \/ ir_state j = "quarantined").

(** A message that was delivered or quarantined is settled: it keeps its
    receipt, and a quarantine is final. *)
Definition settled (r : FrontRow) : Prop := fr_state r = "delivered" \/ fr_state r = "quarantined".

(** A message only moves forward; while it is not settled its lease may change;
    its receipt is written once, when it is settled. *)
Definition front_row_le (r r' : FrontRow) : Prop :=
  fr_message_id r' = fr_message_id r /\ fr_created_at r' = fr_created_at r /\
  (settled r -> settled r' /\ fr_delivery_receipt r' = fr_delivery_receipt r /\
                fr_delivered_at r' = fr_delivered_at r) /\
  (fr_state r = "quarantined" -> fr_state r' = "quarantined") /\
  front_rank (fr_state r) <= front_rank (fr_state r') /\
  ((fr_delivery_receipt r' = fr_delivery_receipt r /\ fr_delivered_at r' = fr_delivered_at r) \/
   (~ settled r /\ settled r' /\ is_Some (fr_delivery_receipt r') /\ is_Some (fr_delivered_at r'))).

(** A case or advice row keeps every column but its state, which may become
    quarantined. *)
Definition case_content (c : CaseRow) :=
  (er_envelope_id c, er_commitment c, er_issuer_edge_id c, er_issuer_edge_generation c, er_route_kind c, er_route_token c,
   er_source_token c, er_domain c, er_routing_epoch c, er_registry_revision c, er_registry_hash c,
   er_payload_ciphertext c, er_expires_at c).
Definition case_row_le (c c' : CaseRow) : Prop :=
  case_content c' = case_content c /\ (er_state c' = er_state c \/ er_state c' = "quarantined").
Definition advice_content (a : EdgeAdviceRow) :=
  (ar_envelope_id a, ar_case_id a, ar_case_commitment a, ar_commitment a, ar_issuer_edge_id a, ar_issuer_edge_generation a,
   ar_route_kind a, ar_route_token a, ar_routing_epoch a, ar_registry_revision a, ar_registry_hash a,
   ar_text_ciphertext a, ar_expires_at a, ar_received_at a).
Definition advice_row_le (a a' : EdgeAdviceRow) : Prop :=
  advice_content a' = advice_content a /\ (ar_state a' = ar_state a \/ ar_state a' = "quarantined").

Record proj_grows (s s' : EdgeDB) : Prop := {
  pg_identity : forall id i, identities s !! id = Some i ->
    exists j, identities s' !! id = Some j /\ identity_le i j;
  pg_case : forall k c, cases s !! k = Some c ->
    exists c', cases s' !! k = Some c' /\ case_row_le c c';
  pg_advice : forall k a, advice s !! k = Some a ->
    exists a', advice s' !! k = Some a' /\ advice_row_le a a';
  pg_front : forall k r, front_outbox s !! k = Some r ->
    exists r', front_outbox s' !! k = Some r' /\ front_row_le r r'
}.

#[export] Instance front_row_le_preorder : PreOrder front_row_le.
Proof.
  split; [intros r; split_and!; try done; by left|].
  intros r1 r2 r3 (A & B & C & D & E & F) (A' & B' & C' & D' & E' & F'). unfold front_row_le.
  rewrite A', B'. split_and!; [done..| |auto|lia|].
  - intros Hs. destruct (C Hs) as (Hs2 & E1 & E2). destruct (C' Hs2) as (Hs3 & E3 & E4). rewrite E3, E4. done.
  - destruct F as [[F1 F2]|(F1 & F2 & F3 & F4)], F' as [[G1 G2]|(G1 & G2 & G3 & G4)]; [left|right|right|by destruct G1].
    + by rewrite G1, G2.
    + split_and!; try done. intros Hs. by destruct G1, (C Hs).
    + rewrite G1, G2. split_and!; try done. by apply C'.
Qed.

#[export] Instance identity_le_preorder : PreOrder identity_le.
Proof.
  split; [intros i; split_and!; try done; by left|].
  intros i j k (A & B & C & D & E) (A' & B' & C' & D' & E'). unfold identity_le.
  rewrite A', B', C'. split_and!; [done..| |].
  - intros Hq. destruct (D Hq) as [Hj Ej]. destruct (D' Hj) as [Hk Ek]. by rewrite Ek.
  - destruct E' as [->| ->]; [done|by right].
Qed.

#[export] Instance case_row_le_preorder : PreOrder case_row_le.
Proof.
  split; [intros c; split; [done|by left]|]. intros c1 c2 c3 [A B] [A' B']. split; [congruence|].
  destruct B' as [->| ->]; [done|by right].
Qed.
#[export] Instance advice_row_le_preorder : PreOrder advice_row_le.
Proof.
  split; [intros a; split; [done|by left]|]. intros a1 a2 a3 [A B] [A' B']. split; [congruence|].
  destruct B' as [->| ->]; [done|by right].
Qed.

#[export] Instance proj_grows_preorder : PreOrder proj_grows.
Proof.
  split; [intros s; split; intros; eexists; by split|].
  intros s1 s2 s3 [A B C D] [A' B' C' D']. split.
  - intros id i Hi. destruct (A _ _ Hi) as (j & Hj & Hij). destruct (A' _ _ Hj) as (k & Hk & Hjk).
    exists k. split; [done|]. by etrans.
  - intros k c Hc. destruct (B _ _ Hc) as (c2 & Hc2 & L). destruct (B' _ _ Hc2) as (c3 & Hc3 & L').
    exists c3. split; [done|]. by etrans.
  - intros k a Ha. destruct (C _ _ Ha) as (a2 & Ha2 & L). destruct (C' _ _ Ha2) as (a3 & Ha3 & L').
    exists a3. split; [done|]. by etrans.
  - intros k r Hr. destruct (D _ _ Hr) as (r2 & Hr2 & L). destruct (D' _ _ Hr2) as (r3 & Hr3 & L').
    exists r3. split; [done|]. by etrans.
Qed.

Lemma proj_inv_empty : proj_inv empty_edge.
Proof. split; intros *; cbn; rewrite ?lookup_empty; done. Qed.

(** Both only read the projection tables. *)
Definition same_proj (s s' : EdgeDB) : Prop :=
  identities s' = identities s /\ cases s' = cases s /\ advice s' = advice s /\
  front_outbox s' = front_outbox s.

Lemma same_proj_inv s s' : same_proj s s' -> proj_inv s -> proj_inv s'.
Proof.
  intros (E1 & E2 & E3 & E4) [A B C D E F].
  split; unfold identified in *; rewrite ?E1, ?E2, ?E3, ?E4; done.
Qed.

Lemma same_proj_grows s s' : same_proj s s' -> proj_grows s s'.
Proof.
  intros (E1 & E2 & E3 & E4). split; rewrite ?E1, ?E2, ?E3, ?E4; intros ? ? Hi; eexists; by split.
Qed.

Lemma same_proj_ok s s' : proj_inv s -> same_proj s s' -> proj_inv s' /\ proj_grows s s'.
Proof. intros Hi Hs. split; [by eapply same_proj_inv|by eapply same_proj_grows]. Qed.

(** ** Identities *)
Lemma identified_insert s id i e c st : identities s !! id = None -> identified s e c st ->
  identified (set_identities (<[id := i]> (identities s)) s) e c st.
Proof.
  intros Hn (j & Hj & Hc & Hs). exists j. cbn. rewrite lookup_insert_ne by congruence. done.
Qed.

Lemma proj_inv_claim s id i : proj_inv s -> identities s !! id = None -> identity_ok i ->
  let s' := set_identities (<[id := i]> (identities s)) s in proj_inv s' /\ proj_grows s s'.
Proof.
  intros [A B C D E F] Hn Hi s'. split; split.
  - intros id' j. subst s'. cbn. rewrite lookup_insert_Some. intros [[<- <-]|[_ Hj]]; eauto.
  - intros k c Hc. apply identified_insert; [done|]. exact (B _ _ Hc).
  - intros k a Ha. apply identified_insert; [done|]. exact (C _ _ Ha).
  - exact D.
  - exact E.
  - exact F.
  - intros id' j Hj. subst s'. cbn. rewrite lookup_insert_ne by congruence. eexists. by split.
  - intros ? ? Hx. eexists. by split.
  - intros ? ? Hx. eexists. by split.
  - intros k r Hr. eexists. by split.
Qed.

(** The store after [claimIdentity] found a conflicting commitment. *)
Definition quarantined_store (id commitment : string) (seq now : Z) (s : EdgeDB) : EdgeDB :=
  let s1 := set_identities (alter (quarantine_identity commitment seq now) id (identities s)) s in
  let s2 := set_cases
    ((fun r => if er_envelope_id r =s? id then mark_case "quarantined" r else r) <$> cases s1) s1 in
  let s3 := set_advice
    ((fun r => if ar_envelope_id r =s? id then mark_advice "quarantined" r else r) <$> advice s2) s2 in
  set_front_outbox
    (map_imap (fun k r =>
       Some (match advice s3 !! k.2 with
             | Some a => if ar_envelope_id a =s? id then mark_front "quarantined" r else r
             | None => r
             end)) (front_outbox s3)) s3.

Section Quarantine.
Context (s : EdgeDB) (id commitment : string) (seq now : Z) (old : IdentityRow)
        (Hinv : proj_inv s) (Hold : identities s !! id = Some old)
        (Hconflict : ir_commitment old <> commitment).
Local Abbreviation s' := (quarantined_store id commitment seq now s).

Lemma quarantine_identity_ok : identity_ok old ->
  identity_ok (quarantine_identity commitment seq now old) /\
  identity_le old (quarantine_identity commitment seq now old).
Proof using Hconflict.
  intros [[E1 E2]|[E1 (c & E2 & Hc)]]; unfold identity_ok, identity_le; cbn; rewrite E1, E2; cbn.
  - split; [right; eauto|]. split_and!; try done. by right.
  - split; [right; eauto|]. split_and!; try done. by right.
Qed.

Lemma identities_quarantined k i' : identities s' !! k = Some i' ->
  exists i, identities s !! k = Some i /\
    i' = if k =s? id then quarantine_identity commitment seq now i else i.
Proof.
  cbn. destruct (String.eqb_spec k id) as [->|Hne].
  - rewrite lookup_alter_eq, fmap_Some. intros (i & Hi & ->). eauto.
  - rewrite lookup_alter_ne by congruence. eauto.
Qed.

Lemma identified_quarantined e c st : identified s e c st ->
  identified s' e c (if e =s? id then "quarantined" else st).
Proof.
  intros (i & Hi & Hc & Hs). unfold identified. cbn. destruct (String.eqb_spec e id) as [->|Hne].
  - rewrite lookup_alter_eq, Hi. cbn. eexists. by split_and!.
  - rewrite lookup_alter_ne by congruence. eauto.
Qed.

Lemma case_quarantined k c' : cases s' !! k = Some c' ->
  exists c, cases s !! k = Some c /\
    c' = if er_envelope_id c =s? id then mark_case "quarantined" c else c.
Proof. cbn. rewrite lookup_fmap, fmap_Some. intros (c & Hc & ->). eauto. Qed.

Lemma advice_quarantined k a' : advice s' !! k = Some a' ->
  exists a, advice s !! k = Some a /\
    a' = if ar_envelope_id a =s? id then mark_advice "quarantined" a else a.
Proof. cbn. rewrite lookup_fmap, fmap_Some. intros (a & Ha & ->). eauto. Qed.

Lemma front_quarantined k r' : front_outbox s' !! k = Some r' ->
  exists r, front_outbox s !! k = Some r /\
    r' = match advice s' !! k.2 with
         | Some a => if ar_envelope_id a =s? id then mark_front "quarantined" r else r
         | None => r
         end.
Proof.
  cbn. rewrite map_lookup_imap. destruct (front_outbox s !! k) as [r|]; [|done].
  cbn. intros [= <-]. eauto.
Qed.

Lemma proj_grows_quarantine : proj_grows s s'.
Proof using Hold Hinv Hconflict.
  split.
  - intros k i Hi. cbn. destruct (decide (k = id)) as [->|Hne].
    + rewrite Hi in Hold. injection Hold as ->. rewrite lookup_alter_eq, Hi. eexists. split; [done|].
      apply quarantine_identity_ok. by eapply Hinv.
    + rewrite lookup_alter_ne by congruence. eexists. by split.
  - intros k c Hc. cbn. rewrite lookup_fmap, Hc. cbn. eexists. split; [done|]. destruct (_ =s? _); [split; [done|by right]|done].
  - intros k a Ha. cbn. rewrite lookup_fmap, Ha. cbn. eexists. split; [done|]. destruct (_ =s? _); [split; [done|by right]|done].
  - intros k r Hr. cbn. rewrite map_lookup_imap, Hr. cbn. eexists. split; [done|].
    repeat case_match; try done. split_and!; try done; [|unfold front_rank; repeat case_match; done|by left].
    intros _. split_and!; [by right|done..].
Qed.

Lemma proj_inv_quarantine : proj_inv s'.
Proof using Hold Hinv Hconflict.
  destruct Hinv as [A B C D E F]. split.
  - intros k i' (i & Hi & ->)%identities_quarantined. destruct (String.eqb_spec k id) as [->|]; [|eauto].
    rewrite Hold in Hi. injection Hi as <-. apply quarantine_identity_ok; eauto.
  - intros k c' (c & Hc & ->)%case_quarantined. apply B, identified_quarantined in Hc.
    by destruct (_ =s? _) eqn:Ei in Hc |- *; cbn; rewrite ?Ei.
  - intros k a' (a & Ha & ->)%advice_quarantined. apply C, identified_quarantined in Ha.
    by destruct (_ =s? _) eqn:Ei in Ha |- *; cbn; rewrite ?Ei.
  - intros k a' (a & Ha & ->)%advice_quarantined. destruct (D _ _ Ha) as (c & Hc & Hb).
    exists (if er_envelope_id c =s? id then mark_case "quarantined" c else c). split.
    + cbn. rewrite lookup_fmap. destruct (_ =s? id) in |- *; cbn; by rewrite Hc.
    + by destruct (ar_envelope_id a =s? id), (er_envelope_id c =s? id).
  - intros f k r' (r & Hr & ->)%front_quarantined. destruct (E _ _ _ Hr) as (Hm & Hrk & a & Ha & Hq).
    cbn [snd]. assert (Ha' : advice s' !! k =
      Some (if ar_envelope_id a =s? id then mark_advice "quarantined" a else a))
      by (cbn; by rewrite lookup_fmap, Ha).
    rewrite Ha'. destruct (ar_envelope_id a =s? id) eqn:Ei; cbn [mark_advice ar_envelope_id];
      rewrite Ei; (split; [done|]); (split; [done|]); eexists; (split; [done|]); [done|exact Hq].
  - intros k a' (a & Ha & _)%advice_quarantined. destruct (F _ _ Ha) as [[r1 H1] [r2 H2]].
    cbn. rewrite !map_lookup_imap, H1, H2. cbn. eauto.
Qed.
End Quarantine.

(** ** New rows *)
Lemma insert_or_ignore_ok {K V} `{Countable K} (clash : V -> bool) (k : K) (v : V) m m' :
  insert_or_ignore clash k v m = Ok m' ->
  (is_Some (m !! k) /\ m' = m) \/ (m !! k = None /\ m' = <[k := v]> m).
Proof.
  unfold insert_or_ignore. destruct (m !! k) eqn:E; [intros [= <-]; eauto|].
  destruct (existsb _ _); [done|]. intros [= <-]. by right.
Qed.

Lemma proj_inv_new_case s k c : proj_inv s -> cases s !! k = None ->
  identified s (er_envelope_id c) (er_commitment c) (er_state c) ->
  let s' := set_cases (<[k := c]> (cases s)) s in proj_inv s' /\ proj_grows s s'.
Proof.
  intros [A B C D E F] Hn Hi s'. split; split; try done.
  - intros k' c'. subst s'. cbn. rewrite lookup_insert_Some. intros [[<- <-]|[_ Hc]]; [done|].
    exact (B _ _ Hc).
  - intros k' a Ha. destruct (D _ _ Ha) as (c0 & Hc0 & Hb). exists c0. split; [|done].
    subst s'. cbn. rewrite lookup_insert_ne by congruence. done.
  - intros id i Hx. eexists. by split.
  - intros k' c' Hc. exists c'. split; [|done]. subst s'. cbn. rewrite lookup_insert_ne by congruence. done.
  - intros ? ? Hx. eexists. by split.
  - intros k' r Hr. eexists. by split.
Qed.

(** An advice row and its front messages are stored together. *)
Lemma proj_inv_new_advice s k a r1 r2 c : proj_inv s -> advice s !! k = None ->
  identified s (ar_envelope_id a) (ar_commitment a) (ar_state a) -> ar_state a = "accepted" ->
  cases s !! ar_case_id a = Some c -> row_binds c a ->
  fr_message_id r1 = front_message "cli" k -> fr_message_id r2 = front_message "amq" k ->
  0 <= front_rank (fr_state r1) -> 0 <= front_rank (fr_state r2) ->
  let s' := set_front_outbox (<[("amq", k) := r2]> (<[("cli", k) := r1]> (front_outbox s)))
              (set_advice (<[k := a]> (advice s)) s) in proj_inv s' /\ proj_grows s s'.
Proof.
  intros [A B C D E F] Hn Hi Hst Hc Hb Hm1 Hm2 Hk1 Hk2 s'. split; split; try done.
  - intros k' a'. subst s'. cbn. rewrite lookup_insert_Some. intros [[<- <-]|[_ Ha]]; [done|].
    exact (C _ _ Ha).
  - intros k' a'. subst s'. cbn. rewrite lookup_insert_Some. intros [[<- <-]|[_ Ha]]; eauto.
  - intros f k' r. subst s'. cbn. rewrite !lookup_insert_Some.
    intros [[[= <- <-] <-]|[_ [[[= <- <-] <-]|[_ Hr]]]].
    + rewrite lookup_insert_eq. split; [done|]. split; [done|]. eexists. split; [done|]. by rewrite Hst.
    + rewrite lookup_insert_eq. split; [done|]. split; [done|]. eexists. split; [done|]. by rewrite Hst.
    + destruct (E _ _ _ Hr) as (Hm & Hrk & a' & Ha & Hq). split; [done|]. split; [done|].
      rewrite lookup_insert_ne by congruence. eauto.
  - intros k' a'. subst s'. cbn. rewrite lookup_insert_Some. intros [[<- <-]|[Hne Ha]].
    + rewrite lookup_insert_ne, !lookup_insert_eq by congruence. eauto.
    + rewrite !lookup_insert_ne by congruence. exact (F _ _ Ha).
  - intros id i Hx. eexists. by split.
  - intros ? ? Hx. eexists. by split.
  - intros k' a' Ha. exists a'. split; [|done]. subst s'. cbn. rewrite lookup_insert_ne by congruence. done.
  - intros [f k'] r Hr. exists r. split; [|done]. destruct (E _ _ _ Hr) as (_ & _ & a' & Ha' & _).
    subst s'. cbn. rewrite !lookup_insert_ne by congruence. done.
Qed.

Lemma adviceBindsCase_row p a body now r : adviceBindsCase r a = true ->
  row_binds r (advice_row_of p a body now).
Proof. unfold adviceBindsCase, row_binds. intros Hb. bools. by split_and!. Qed.

Definition fresh_identity (commitment : string) (seq now : Z) : IdentityRow :=
  {| ir_commitment := commitment; ir_state := "accepted"; ir_first_delivery_seq := seq;
     ir_first_seen_at := sqlTime now; ir_conflicting_commitment := None;
     ir_conflicting_delivery_seq := None; ir_quarantined_at := None |}.

(** The three outcomes of an identity claim. *)
Lemma claimIdentity_cases id com d now env st st' o :
  claimIdentity id com d now env st = (st', Ok o) ->
  (o = ApplyAccepted /\ identities st.2 !! id = None /\
   st'.2 = set_identities (<[id := fresh_identity com (jd_DeliverySeq d) now]>
                             (identities st.2)) st.2) \/
  (o = ApplyDuplicate /\ st'.2 = st.2 /\
   exists old, identities st.2 !! id = Some old /\ ir_commitment old = com) \/
  (o = ApplyQuarantined /\
   st'.2 = quarantined_store id com (jd_DeliverySeq d) now st.2 /\
   exists old, identities st.2 !! id = Some old /\ ir_commitment old <> com).
Proof.
  unfold claimIdentity. intros H0. stx_inv. destruct (identities st.2 !! id) as [r|] eqn:Er.
  - destruct (String.eqb_spec (ir_commitment r) com); stx_inv; [right; left|right; right]; eauto.
  - stx_inv. by left.
Qed.

Section Projection.
Context `{AEAD} (tenant : string).

Lemma insertFront_ok front k now env st st' u :
  insertFront front k now env st = (st', Ok u) ->
  (is_Some (front_outbox st.2 !! (front, k)) /\ st'.2 = st.2) \/
  (front_outbox st.2 !! (front, k) = None /\
   st'.2 = set_front_outbox (<[(front, k) := front_row front k now]> (front_outbox st.2)) st.2).
Proof.
  unfold insertFront. intros (t & Ht & ->)%put_ok. apply insert_or_ignore_ok in Ht as [[? ->]|[? ->]].
  - left. split; [done|]. by destruct st as [? []].
  - by right.
Qed.

(** Both messages, for an advice that is stored. *)
Lemma insertFronts_ok k now env st st1 st2 u1 u2 :
  insertFront "cli" k now env st = (st1, Ok u1) -> insertFront "amq" k now env st1 = (st2, Ok u2) ->
  (is_Some (front_outbox st.2 !! ("cli", k)) -> is_Some (front_outbox st.2 !! ("amq", k)) ->
   st2.2 = st.2) /\
  (front_outbox st.2 !! ("cli", k) = None -> front_outbox st.2 !! ("amq", k) = None ->
   st2.2 = set_front_outbox (<[("amq", k) := front_row "amq" k now]>
             (<[("cli", k) := front_row "cli" k now]> (front_outbox st.2))) st.2).
Proof.
  intros Hc%insertFront_ok Ha%insertFront_ok.
  assert (Hamq : front_outbox st1.2 !! ("amq", k) = front_outbox st.2 !! ("amq", k)).
  { destruct Hc as [[_ ->]|[_ ->]]; cbn; [done|]. by rewrite lookup_insert_ne. }
  rewrite Hamq in Ha. split; intros Hx Hy.
  - destruct Hx as [r1 Hx], Hy as [r2 Hy].
    destruct Hc as [[_ E1]|[Hc _]]; [|congruence]. destruct Ha as [[_ E2]|[Ha _]]; congruence.
  - destruct Hc as [[[r1 Hc] _]|[_ E1]]; [congruence|].
    destruct Ha as [[[r2 Ha] _]|[_ E2]]; [congruence|]. by rewrite E2, E1.
Qed.

Lemma no_front_without_advice s f k : proj_inv s -> advice s !! k = None ->
  front_outbox s !! (f, k) = None.
Proof.
  intros Hinv Hn. destruct (front_outbox s !! (f, k)) as [r|] eqn:E; [|done].
  apply Hinv in E as (_ & _ & a & Ha & _). congruence.
Qed.

Lemma proj_inv_persist p now env st st' u :
  proj_inv st.2 -> identified st.2 (p_EnvelopeID p) (p_Commitment p) "accepted" ->
  persistProjection tenant p now env st = (st', Ok u) -> proj_inv st'.2 /\ proj_grows st.2 st'.2.
Proof.
  intros Hinv Hid H0. unfold persistProjection, seal in H0.
  destruct (p_Family p =s? FamilyCase).
  { destruct (p_Case p) as [c|]; [|stx_inv]. stx_inv. apply put_ok in H0 as (t & Ht & ->).
    apply insert_or_ignore_ok in Ht as [[_ ->]|[Hn ->]]; edge_simpl.
    - apply same_proj_ok; [done|by split_and!].
    - by apply proj_inv_new_case. }
  destruct (p_Family p =s? FamilyAdvice); [|stx_inv].
  destruct (p_Advice p) as [a|]; [|stx_inv]. stx_inv.
  destruct (cases st.2 !! a_CaseID a) as [c|] eqn:Ec; [|stx_inv].
  destruct (er_state c =s? "accepted"); stx_inv. bools.
  match goal with Hp : put _ _ _ _ _ = _ |- _ => apply put_ok in Hp as (t & Ht & ->) end.
  match goal with Hp : insertFront "cli" _ _ _ _ = _ |- _ =>
    destruct (insertFronts_ok _ _ _ _ _ _ _ _ Hp H0) as [Hold Hnew] end.
  apply insert_or_ignore_ok in Ht as [[[row0 Ha0] ->]|[Hn ->]]; edge_simpl.
  - destruct (pi_fronts _ Hinv _ _ Ha0) as [F1 F2]. rewrite (Hold F1 F2).
    apply same_proj_ok; [done|by split_and!].
  - rewrite Hnew by by apply no_front_without_advice.
    eapply (proj_inv_new_advice st.2); [done|done|exact Hid|done|exact Ec| |done..].
    by apply adviceBindsCase_row.
Qed.

Lemma proj_inv_verdict d v reason p now env st st' r :
  proj_inv st.2 -> applyVerdict tenant d v reason p now env st = (st', Ok r) ->
  proj_inv st'.2 /\ proj_grows st.2 st'.2.
Proof.
  intros Hinv H0. unfold applyVerdict in H0. destruct (v =s? VerdictAccepted); [|by stx_inv].
  destruct p as [p|]; [|stx_inv]. stx_inv.
  match goal with Hc : claimIdentity _ _ _ _ _ _ = _ |- _ => apply claimIdentity_cases in Hc
    as [(-> & Hn & E)|[(-> & E & _)|(-> & E & old & Hold & Hne)]] end; cbn in H0.
  - destruct (proj_inv_claim st.2 (p_EnvelopeID p)
      (fresh_identity (p_Commitment p) (jd_DeliverySeq d) now)) as [Hi Hg]; [done|done|by left|].
    rewrite <- E in Hi, Hg. stx_inv.
    match goal with Hp : persistProjection _ _ _ _ _ = _ |- _ => apply proj_inv_persist in Hp
      as [Hi2 Hg2] end; [|done|].
    + split; [done|]. by etrans.
    + rewrite E. eexists. cbn. by rewrite lookup_insert_eq.
  - stx_inv. by rewrite E.
  - stx_inv. rewrite E. split; [by eapply proj_inv_quarantine|by eapply proj_grows_quarantine].
Qed.

Lemma counter_same_proj key s s' last high mode :
  counter_effect key s s' last high mode -> same_proj s s'.
Proof. intros [E _ _ _ _]. by rewrite E. Qed.

Lemma proj_inv_effect d v reason p now allow s s' o :
  proj_inv s -> apply_effect tenant d v reason p now allow s s' o ->
  proj_inv s' /\ proj_grows s s'.
Proof.
  intros Hinv He. destruct He as [row _ _ ->|o _ Hc|row _ _ _ _ Hc
                                 |o v' r' s1 env st1 st2 _ _ _ Ha <- -> Hc]; [done| | |].
  1-2: apply counter_same_proj in Hc; by apply same_proj_ok.
  apply proj_inv_verdict in Ha as [Hi Hg]; [|done]. apply counter_same_proj in Hc.
  assert (Hsp : same_proj st2.2 s') by exact Hc.
  split; [by eapply same_proj_inv|]. etrans; [exact Hg|by eapply same_proj_grows].
Qed.
End Projection.
