(* ===== verification/EdgeFront.v ===== *)
(** * Handing advices to the local fronts

    [ClaimFrontDeliveries] and [MarkFrontDelivered] of
    internal/sspedge/store.go: which messages a claim returns, what it writes,
    and what a delivery receipt can change. *)
From stdpp Require Import sorting.
From S2P Require Import Prelude GoText GoTime GoJson Sha256 DeliveryStream SqliteTx.
From S2P Require Import EdgeStore EdgeApply EdgeSpool EdgeInv.
Open Scope string_scope.
Open Scope Z_scope.
Open Scope snag_scope.

Lemma app_string_inj (a b c : string) : a ++ b = a ++ c -> b = c.
Proof. induction a as [|x a IH]; cbn; [done|]. intros [= ?]. auto. Qed.

Lemma front_message_inj f k k' : front_message f k = front_message f k' -> k = k'.
Proof. unfold front_message. intros E. by apply app_string_inj, app_string_inj, app_string_inj in E. Qed.

(** ** The frame of the front operations *)
Record front_step (s s' : EdgeDB) : Prop := {
  fs_frame : s' = set_front_outbox (front_outbox s') s;
  fs_rows : forall k, option_Forall2 front_row_le (front_outbox s !! k) (front_outbox s' !! k)
}.

Lemma front_step_refl s : front_step s s.
Proof. split; [by destruct s|]. intros k. destruct (front_outbox s !! k); by constructor. Qed.

Lemma front_step_trans s1 s2 s3 : front_step s1 s2 -> front_step s2 s3 -> front_step s1 s3.
Proof.
  intros [F1 R1] [F2 R2]. split; [by rewrite F2, F1|]. intros k. specialize (R1 k). specialize (R2 k).
  destruct R1; inversion R2; constructor. by etrans.
Qed.

Lemma front_step_insert s k r r' : front_outbox s !! k = Some r -> front_row_le r r' ->
  front_step s (set_front_outbox (<[k := r']> (front_outbox s)) s).
Proof.
  intros Hr Hle. split; [done|]. intros k'. cbn. destruct (decide (k' = k)) as [->|].
  - rewrite Hr, lookup_insert_eq. by constructor.
  - rewrite lookup_insert_ne by congruence. destruct (front_outbox s !! k'); by constructor.
Qed.

Lemma front_step_proj s s' : proj_inv s -> front_step s s' -> proj_inv s' /\ proj_grows s s'.
Proof.
  intros [A B C D E F] [Hf Hr]. rewrite Hf in Hr |- *. cbn in Hr. split; split; try done.
  - intros f k r' Hr'. cbn in Hr'. specialize (Hr (f, k)) as Hx. rewrite Hr' in Hx.
    inversion Hx as [r ? (Hm & _ & _ & Hq & Hk & _) Er|]; subst. symmetry in Er.
    destruct (E _ _ _ Er) as (Hm0 & Hk0 & a & Ha & Hqa). rewrite Hm. split; [done|]. split; [lia|].
    exists a. split; [done|]. auto.
  - intros k a Ha. destruct (F _ _ Ha) as [[r1 H1] [r2 H2]]. cbn.
    pose proof (Hr ("cli", k)) as X1. pose proof (Hr ("amq", k)) as X2.
    rewrite H1 in X1. rewrite H2 in X2. inversion X1; inversion X2; eauto.
  - intros id i Hi. eexists. by split.
  - intros ? ? Hx. eexists. by split.
  - intros ? ? Hx. eexists. by split.
  - intros k r Hk. cbn. specialize (Hr k). rewrite Hk in Hr. inversion Hr; eauto.
Qed.

Lemma lease_le owner expires token now r : front_free now r = true ->
  front_row_le r (leased_front owner expires token r).
Proof.
  intros Hf. unfold front_free in Hf. assert (Hn : ~ settled r).
  { intros [E|E]; rewrite E in Hf; done. }
  split_and!; [done..|by intros ?| | |by left].
  - intros E. destruct Hn. by right.
  - apply orb_true_iff in Hf as [E|E]; [|apply andb_true_iff in E as [E _]]; apply String.eqb_eq in E; by rewrite E.
Qed.

(** ** Claims *)
Lemma claimToken_ok env st st' t : claimToken env st = (st', Ok t) -> st'.2 = st.2.
Proof. unfold claimToken. intros H. by stx_inv. Qed.

Section Claim.
Context `{AEAD} (tenant : string).
Context (front owner : string) (ttl now : Z).

(** What a returned message says about the store it was claimed from. *)
Definition claimed (s s' : EdgeDB) (d : FrontDelivery) : Prop :=
  let key := (front, fd_AdviceID d) in
  exists r a, front_outbox s !! key = Some r /\ front_free now r = true /\
    accepted_advice s (fd_AdviceID d) = Some a /\ fd_Front d = front /\
    fd_CaseID d = ar_case_id a /\ fd_MessageID d = fr_message_id r /\
    open_field tenant "ssp_edge_advice" (fd_AdviceID d) (ar_text_ciphertext a) = Ok (fd_Text d) /\
    front_outbox s' !! key = Some (leased_front owner (now + ttl) (fd_ClaimToken d) r).

Definition row_key (x : (string * string) * FrontRow * EdgeAdviceRow) : string * string := x.1.1.

Lemma claimFronts_ok rows : forall env st st' ds,
  NoDup (row_key <$> rows) ->
  (forall key row a, (key, row, a) ∈ rows -> key.1 = front /\
     front_outbox st.2 !! key = Some row /\ front_free now row = true /\
     accepted_advice st.2 key.2 = Some a) ->
  claimFronts tenant front owner ttl now rows env st = (st', Ok ds) ->
  front_step st.2 st'.2 /\ (fun d => (front, fd_AdviceID d)) <$> ds = row_key <$> rows /\
  (forall d, d ∈ ds -> claimed st.2 st'.2 d) /\
  (forall k, k ∉ (row_key <$> rows) -> front_outbox st'.2 !! k = front_outbox st.2 !! k).
Proof.
  induction rows as [|[[key row] a] rows IH]; intros env st st' ds Hnd Hrows H0; cbn [claimFronts] in H0.
  { stx_inv. split_and!; [apply front_step_refl|done| |done]. by intros d ?%not_elem_of_nil. }
  destruct (Hrows key row a) as (Hk1 & Hrow & Hfree & Hacc); [by left|].
  rewrite fmap_cons in Hnd. inversion Hnd as [|? ? Hnew Hnd2]; subst. clear Hnd; rename Hnd2 into Hnd.
  change (row_key (key, row, a)) with key in Hnew. stx_inv.
  match goal with Ht : claimToken _ _ = (_, Ok ?t) |- _ =>
    rename t into token; apply claimToken_ok in Ht; rewrite Ht in Hsql end.
  rewrite Hrow, Hfree in Hsql. injection Hsql as <- <-. cbn [negb Z.eqb Pos.eqb] in H0. stx_inv.
  set (s1 := set_front_outbox _ _) in *.
  match goal with Hc : claimFronts _ _ _ _ _ _ _ _ = (_, Ok ?rest) |- _ =>
    rename rest into ds'; apply IH in Hc as (Hstep & Hkeys & Hds & Hsame); [|done|] end; edge_simpl.
  2:{ intros key' row' a' Hin. destruct (Hrows key' row' a') as (X1 & X2 & X3 & X4); [by right|].
      split_and!; [done| |done|done]. subst s1. edge_simpl. rewrite lookup_insert_ne; [done|].
      intros <-. apply Hnew. by apply (list_elem_of_fmap_2 row_key _ _ Hin). }
  assert (Hs01 : front_step st.2 s1) by (by eapply front_step_insert, lease_le).
  destruct key as [f k]. cbn in Hk1. subst f. cbn [row_key fst snd] in *.
  match type of Hstep with front_step _ ?x.2 => rename x into st9 end.
  assert (Hlast : front_outbox st9.2 !! (front, k) = Some (leased_front owner (now + ttl) token row)).
  { rewrite Hsame by done. subst s1. cbn. by rewrite lookup_insert_eq. }
  split_and!.
  - by eapply front_step_trans.
  - cbn. rewrite <- Hkeys. done.
  - intros d Hd. apply elem_of_cons in Hd as [->|Hd].
    + exists row, a. cbn. by split_and!.
    + destruct (Hds d Hd) as (r & x & X1 & X2 & X3 & X4 & X5 & X6 & X7 & X8).
      exists r, x. split_and!; try done. subst s1. cbn in X1. rewrite lookup_insert_ne in X1; [done|].
      intros [= E]. apply Hnew. rewrite E, <- Hkeys.
      by apply (list_elem_of_fmap_2 (fun d => (front, fd_AdviceID d)) _ _ Hd).
  - intros k' Hk'. rewrite fmap_cons in Hk'. apply not_elem_of_cons in Hk' as [Hne Hk'].
    rewrite Hsame by done. subst s1. cbn. by rewrite lookup_insert_ne.
Qed.
End Claim.

(** ** The two operations *)
Section Front.
Context `{AEAD} (tenant : string).

Definition claim_rows (front : string) (now limit : Z) (s : EdgeDB)
  : list ((string * string) * FrontRow * EdgeAdviceRow) :=
  omap (fun kv => (fun a => (kv, a)) <$> accepted_advice s kv.1.2) (front_candidates front now limit s).

Lemma candidate_ok front now limit s kv : kv ∈ front_candidates front now limit s ->
  kv.1.1 = front /\ front_outbox s !! kv.1 = Some kv.2 /\ front_free now kv.2 = true /\
  is_Some (accepted_advice s kv.1.2).
Proof.
  unfold front_candidates. intros Hin%subseteq_take.
  rewrite merge_sort_Permutation in Hin. apply list_elem_of_filter in Hin as [(? & ? & ?) Hin].
  destruct kv as [k r]. apply elem_of_map_to_list in Hin. done.
Qed.

Lemma claim_rows_ok front now limit s key row a : (key, row, a) ∈ claim_rows front now limit s ->
  key.1 = front /\ front_outbox s !! key = Some row /\ front_free now row = true /\
  accepted_advice s key.2 = Some a.
Proof.
  unfold claim_rows. rewrite list_elem_of_omap. intros ([k0 r0] & Hkv & E).
  apply candidate_ok in Hkv as (H1 & H2 & H3 & _). cbn in *. destruct (accepted_advice s k0.2) eqn:Ea; [|done].
  injection E as <- <- <-. by split_and!.
Qed.

Lemma claim_rows_keys front now limit s :
  row_key <$> claim_rows front now limit s = fst <$> front_candidates front now limit s.
Proof.
  unfold claim_rows. pose proof (candidate_ok front now limit s) as Hc. revert Hc.
  induction (front_candidates front now limit s) as [|kv l IH]; intros Hc; [done|]. cbn.
  destruct (Hc kv) as (_ & _ & _ & [a Ha]); [by left|]. rewrite Ha. cbn. f_equal.
  apply IH. intros. apply Hc. by right.
Qed.

Lemma candidates_nodup front now limit s : NoDup (fst <$> front_candidates front now limit s).
Proof.
  unfold front_candidates. eapply sublist_NoDup; [|apply fmap_sublist, sublist_take].
  rewrite merge_sort_Permutation. eapply sublist_NoDup; [|apply fmap_sublist, sublist_filter].
  apply NoDup_fst_map_to_list.
Qed.

Lemma ClaimFrontDeliveries_cases front owner ttl limit now env s s' r :
  ClaimFrontDeliveries tenant front owner ttl limit now env s = (s', r) ->
  (exists e, r = Err e /\ s' = s) \/
  (exists ds, r = Ok ds /\ front_step s s' /\
     (fun d => (front, fd_AdviceID d)) <$> ds = fst <$> front_candidates front now limit s /\
     (forall d, d ∈ ds -> claimed tenant front owner ttl now s s' d) /\
     (forall k, k ∉ (fst <$> front_candidates front now limit s) ->
        front_outbox s' !! k = front_outbox s !! k)).
Proof.
  unfold ClaimFrontDeliveries. destruct (_ || _); [intros [= <- <-]; eauto|].
  intros [(e & -> & ->)|(n & ds & -> & Hw)]%run_tx_cases; [eauto|right]. exists ds. stx_inv.
  apply claimFronts_ok in Hw as (H1 & H2 & H3 & H4); cbn [fst snd] in *.
  - rewrite <- (claim_rows_keys front now limit s). done.
  - fold (claim_rows front now limit s). rewrite claim_rows_keys. apply candidates_nodup.
  - apply claim_rows_ok.
Qed.

Lemma front_message_row_ok s front m key r : front_message_row s front m = Some (key, r) ->
  key.1 = front /\ fr_message_id r = m /\ front_outbox s !! key = Some r.
Proof.
  unfold front_message_row. rewrite fmap_Some. intros ([i [k x]] & Hf & [= -> ->]).
  apply list_find_Some in Hf as (Hl & [H1 H2] & _). split_and!; [done..|].
  apply list_elem_of_lookup_2 in Hl. by apply elem_of_map_to_list in Hl.
Qed.

Lemma default_some (o : option string) x : default "" o = x -> is_empty x = false -> o = Some x.
Proof. destruct o; cbn; [congruence|]. by intros <-. Qed.

Lemma MarkFrontDelivered_cases receipt now env s s' r :
  MarkFrontDelivered receipt now env s = (s', r) ->
  (exists e, r = Err e /\ s' = s) \/
  (exists k row, front_outbox s !! (fp_Front receipt, k) = Some row /\
     fr_message_id row = fp_MessageID receipt /\
     ((r = Ok DeliveryDuplicate /\ s' = s /\ fr_state row = "delivered" /\
       fr_delivery_receipt row = Some (fp_ReceiptID receipt)) \/
      (r = Ok DeliveryRecorded /\ fr_state row = "delivering" /\
       fr_claim_token row = Some (fp_ClaimToken receipt) /\
       s' = set_front_outbox (<[(fp_Front receipt, k) :=
              delivered_front (fp_ReceiptID receipt) now row]> (front_outbox s)) s))).
Proof.
  unfold MarkFrontDelivered. destruct (_ || _) eqn:Hv; [intros [= <- <-]; eauto|].
  repeat apply orb_false_iff in Hv as [Hv ?].
  intros [(e & -> & ->)|(n & o & -> & Hw)]%run_tx_cases; [eauto|right]. stx_inv.
  destruct (front_message_row s _ _) as [[[f k] row]|] eqn:Em; [|stx_inv].
  apply front_message_row_ok in Em as (Hf & Hm & Hl). cbn in Hf. subst f.
  exists k, row. split_and!; [done..|].
  destruct (String.eqb_spec (fr_state row) "delivered") as [Ed|Ed].
  - left. stx_inv. bools. injection Hst as _ ->. split_and!; [done..|]. by apply default_some.
  - right. stx_inv. bools. simplify_eq. split_and!; [done..| |done]. by apply default_some.
Qed.

Lemma delivered_le receipt now r : fr_state r = "delivering" ->
  front_row_le r (delivered_front receipt now r).
Proof.
  intros E. assert (Hn : ~ settled r) by (intros [E'|E']; by rewrite E in E').
  split_and!; [done..|by intros ?|by rewrite E|by rewrite E|]. right. split_and!; [done|by left|by eexists..].
Qed.

Lemma MarkFrontDelivered_step receipt now env s s' r :
  MarkFrontDelivered receipt now env s = (s', r) -> front_step s s'.
Proof.
  intros [(e & _ & ->)|(k & row & Hrow & _ & [(_ & -> & _)|(_ & Hs & _ & ->)])]%MarkFrontDelivered_cases;
    [apply front_step_refl..|]. by eapply front_step_insert, delivered_le.
Qed.

(** A claim hands out exactly the free messages of accepted advices, once
    each.  [ClaimFrontDeliveries] either fails and changes nothing, or returns
    one message per candidate (a pending or expired message of the front whose
    advice is accepted, the oldest first, at most [limit]), each with the
    decrypted text of its advice, and leaves exactly those rows leased under
    the returned claim tokens; all other tables and rows stay as they were. *)
Theorem front_claims_exclusive front owner ttl limit now env s s' ds :
  ClaimFrontDeliveries tenant front owner ttl limit now env s = (s', Ok ds) ->
  Z.of_nat (length ds) <= limit /\ NoDup (fd_AdviceID <$> ds) /\
  s' = set_front_outbox (front_outbox s') s /\
  (forall d, d ∈ ds -> claimed tenant front owner ttl now s s' d) /\
  (forall k, (forall d, d ∈ ds -> k <> (front, fd_AdviceID d)) ->
     front_outbox s' !! k = front_outbox s !! k).
Proof.
  intros Hrun. assert (Hlim : 0 < limit).
  { unfold ClaimFrontDeliveries in Hrun. destruct (_ || _) eqn:E; [done|]. bools. lia. }
  apply ClaimFrontDeliveries_cases in Hrun as [(e & ? & _)|(ds' & [= <-] & Hstep & Hkeys & Hds & Hsame)];
    [done|]. split_and!.
  - assert (Hl : length ds = length (front_candidates front now limit s))
      by (by rewrite <- (length_fmap (fun d => (front, fd_AdviceID d)) ds), Hkeys, length_fmap).
    rewrite Hl. unfold front_candidates. rewrite length_take. lia.
  - assert (Hn : NoDup (pair front <$> (fd_AdviceID <$> ds))).
    { rewrite <- list_fmap_compose. unfold compose. rewrite Hkeys. apply candidates_nodup. }
    by apply NoDup_fmap_1 in Hn.
  - apply Hstep.
  - exact Hds.
  - intros k Hk. apply Hsame. rewrite <- Hkeys. intros (d & -> & Hd)%list_elem_of_fmap.
    by eapply Hk.
Qed.

(** A delivery receipt is recorded once, by the holder of the claim.
    [MarkFrontDelivered] either fails and changes nothing; or finds the message
    delivered with that same receipt, and changes nothing; or the message was
    leased under exactly the presented claim token, and becomes delivered with
    the receipt, its lease cleared and nothing else touched.  A second receipt
    for the message is then refused, and the same one is a duplicate. *)
Theorem front_receipt_recorded_once receipt now env s s' o :
  proj_inv s -> MarkFrontDelivered receipt now env s = (s', Ok o) ->
  exists k row, front_outbox s !! (fp_Front receipt, k) = Some row /\
    fr_message_id row = fp_MessageID receipt /\
    ((o = DeliveryDuplicate /\ s' = s /\ fr_state row = "delivered") \/
     (o = DeliveryRecorded /\ fr_state row = "delivering" /\
      fr_claim_token row = Some (fp_ClaimToken receipt) /\
      s' = set_front_outbox (<[(fp_Front receipt, k) :=
             delivered_front (fp_ReceiptID receipt) now row]> (front_outbox s)) s)) /\
    (forall receipt2 now2 env2 s2 o2,
       fp_Front receipt2 = fp_Front receipt -> fp_MessageID receipt2 = fp_MessageID receipt ->
       MarkFrontDelivered receipt2 now2 env2 s' = (s2, Ok o2) ->
       fp_ReceiptID receipt2 = fp_ReceiptID receipt /\ o2 = DeliveryDuplicate /\ s2 = s').
Proof.
  intros Hinv Hrun.
  assert (Hinv' : proj_inv s') by (eapply front_step_proj, MarkFrontDelivered_step; [|exact Hrun]; done).
  apply MarkFrontDelivered_cases in Hrun as [(e & ? & _)|(k & row & Hrow & Hm & Hr)]; [done|].
  exists k, row. split_and!; [done..| |].
  { destruct Hr as [([= ->] & -> & Hs & _)|([= ->] & Hs & Ht & ->)]; [left|right]; done. }
  intros receipt2 now2 env2 s2 o2 Ef Em Hrun2.
  apply MarkFrontDelivered_cases in Hrun2 as [(e & ? & _)|(k2 & row2 & Hrow2 & Hm2 & Hr2)]; [done|].
  assert (Hd : exists row', front_outbox s' !! (fp_Front receipt, k) = Some row' /\
    fr_message_id row' = fp_MessageID receipt /\ fr_state row' = "delivered" /\
    fr_delivery_receipt row' = Some (fp_ReceiptID receipt)).
  { destruct Hr as [(_ & -> & Hs & Hrec)|(_ & _ & _ & ->)]; [by exists row|].
    eexists. cbn. rewrite lookup_insert_eq. by split_and!. }
  destruct Hd as (row' & Hrow' & Hm' & Hs' & Hrec').
  rewrite Ef in Hrow2. destruct (pi_front _ Hinv' _ _ _ Hrow') as [M1 _].
  destruct (pi_front _ Hinv' _ _ _ Hrow2) as [M2 _].
  assert (k2 = k) as -> by (eapply front_message_inj; rewrite <- M1, <- M2; congruence).
  rewrite Hrow' in Hrow2. injection Hrow2 as <-.
  destruct Hr2 as [([= ->] & -> & _ & Hrec2)|(_ & Hs2 & _)]; [|congruence].
  split_and!; [congruence|done..].
Qed.
End Front.

(** ** Lease times are compared as texts *)
Lemma str_lt_prefix p a b : str_lt (p ++ a) (p ++ b) = str_lt a b.
Proof.
  induction p as [|x p IH]; cbn; [done|]. unfold str_lt; fold str_lt.
  rewrite Z.ltb_irrefl, Z.eqb_refl. exact IH.
Qed.

Lemma div_frac q ns k : 0 <= ns < second -> 0 < k -> (second * q + ns) / (second * k) = q / k.
Proof.
  intros Hns Hk. assert (Hs : 0 < second) by done. rewrite <- Z.div_div by lia.
  f_equal. symmetry. apply Z.div_unique with ns; lia.
Qed.

Lemma mod_frac q ns k : 0 <= ns < second -> 0 < k ->
  (second * q + ns) mod (second * k) = second * (q mod k) + ns.
Proof.
  intros Hns Hk. assert (Hs : 0 < second) by done. rewrite Z.rem_mul_r by lia.
  replace ((second * q + ns) / second) with q by (apply Z.div_unique with ns; lia).
  replace ((second * q + ns) mod second) with ns by (apply Z.mod_unique with q; lia). lia.
Qed.

(** The text of an instant [ns] nanoseconds after the whole second [q] differs
    from that of the whole second only in its fraction. *)
Lemma format_split q : exists p, forall ns, 0 <= ns < second ->
  format_nano (second * q + ns) = p ++ fraction ns ++ "Z".
Proof.
  destruct (civil_of_days (q / 86400)) as [[y m] d] eqn:Hc. set (r := q mod 86400).
  exists (pad 4 y ++ "-" ++ pad 2 m ++ "-" ++ pad 2 d ++ "T" ++ pad 2 (r / 3600) ++ ":" ++
          pad 2 (r mod 3600 / 60) ++ ":" ++ pad 2 (r mod 60)).
  intros ns Hns. unfold format_nano, format_with.
  change day with (second * 86400). change hour with (second * 3600). change minute with (second * 60).
  rewrite div_frac, Hc, mod_frac by (done || lia). fold r.
  rewrite div_frac, !mod_frac, div_frac by (done || lia).
  replace ((second * (r mod 60) + ns) / second) with (r mod 60).
  2:{ rewrite <- (Z.mul_1_r second) at 2. rewrite div_frac by (done || lia). by rewrite Z.div_1_r. }
  replace ((second * r + ns) mod second) with ns.
  2:{ rewrite <- (Z.mul_1_r second) at 2. rewrite mod_frac by (done || lia). rewrite Z.mod_1_r. lia. }
  by rewrite <- !app_string_assoc.
Qed.

(** C40: a lease time is compared as text, and text order is not time order.
    The stored text drops the trailing zeros of the fraction, and "." sorts
    before "Z": at a whole second [now], a lease that still has a fraction of a
    second to run is already treated as expired, and its message is free for
    another claim. *)
Theorem live_lease_treated_as_expired now ns r :
  now mod second = 0 -> 0 < ns < second -> fr_state r = "delivering" ->
  fr_lease_expires_at r = Some (sqlTime (now + ns)) ->
  now < now + ns /\ front_free now r = true.
Proof.
  intros Hmod Hns Hs Hl. split; [lia|]. unfold front_free. rewrite Hs, Hl. cbn [String.eqb orb andb].
  apply Z.div_exact in Hmod; [|done]. rewrite Hmod. unfold sqlTime.
  destruct (format_split (now / second)) as [p Hp].
  rewrite <- (Z.add_0_r (second * (now / second))) at 2. rewrite !Hp by (unfold second in *; lia).
  rewrite str_lt_prefix. unfold fraction. destruct (Z.eqb_spec ns 0); [lia|]. done.
Qed.
