(* ===== verification/EdgeTurns.v ===== *)
(** * The replay guard of the dispatcher turns

    What each operation of internal/sspedge/dispatcher_turn_store.go does to
    the table of turns, on every branch. *)
From S2P Require Import Prelude GoText GoTime GoJson Sha256 DeliveryStream SqliteTx.
From S2P Require Import EdgeStore EdgeApply EdgeSpool EdgeInv EdgeFront.
Open Scope string_scope.
Open Scope Z_scope.
Open Scope snag_scope.

Lemma update_turn_ok ev guard f env st st' n : update_turn ev guard f env st = (st', Ok n) ->
  (n = 0 /\ st'.2 = st.2) \/
  (n = 1 /\ exists r, turns st.2 !! ev = Some r /\ guard r = true /\
     st'.2 = set_turns (partial_alter (fun _ => f r) ev (turns st.2)) st.2).
Proof.
  unfold update_turn. intros H. stx_inv. destruct (turns st.2 !! ev) as [r|].
  - destruct (guard r) eqn:G; injection Hsql as <- <-; [right|by left].
    split; [done|]. by exists r.
  - injection Hsql as <- <-. by left.
Qed.

Section Turns.
Context `{AEAD} (tenant : string).

Lemma seal_field table key plain env st st' body :
  seal tenant table key plain env st = (st', Ok body) ->
  st'.2 = st.2 /\ exists nonce, len nonce = Z.of_nat nonceSize /\
    body = nonce ++ Seal nonce plain (aad tenant table key).
Proof.
  unfold seal. intros H0. stx_inv. split; [done|]. eexists. split; [|done]. apply len_random_bytes.
Qed.

(** What a sealed field opens to. *)
Lemma open_sealed `{!AEADLaws} table key plain nonce : len nonce = Z.of_nat nonceSize ->
  open_field tenant table key (nonce ++ Seal nonce plain (aad tenant table key)) = Ok plain.
Proof.
  intros Hn. unfold open_field. rewrite len_app. pose proof (len_nonneg (Seal nonce plain (aad tenant table key))).
  destruct (Z.ltb_spec (len nonce + len (Seal nonce plain (aad tenant table key))) (Z.of_nat nonceSize)); [lia|].
  assert (El : String.length nonce = nonceSize) by (unfold len in Hn; lia).
  rewrite <- El, substring_prefix, substring_suffix. by rewrite open_seal.
Qed.

Definition request_is (ev : string) (request : bytes) (r : TurnRow) : Prop :=
  open_field tenant dispatcherTurnRequestAAD ev (tr_request_ciphertext r) = Ok request.
Definition result_is (ev : string) (result : bytes) (r : TurnRow) : Prop :=
  open_field tenant dispatcherTurnResultAAD ev (default "" (tr_result_ciphertext r)) = Ok result.

(** The claim of a pending turn that is still running. *)
Definition live_claim (now : Z) (r : TurnRow) : Prop :=
  turn_pending r = true /\ is_empty (default "" (tr_claim_token r)) = false /\
  UnixNano now < default 0 (tr_claim_expires r).

Definition unexpired (now : Z) (m : gmap string TurnRow) : gmap string TurnRow :=
  filter (fun kv => UnixNano now < tr_expires kv.2) m.

Lemma open_turn_ok ev request r env st st' u : open_turn tenant ev request r env st = (st', Ok u) ->
  st' = st /\ request_is ev request r.
Proof. unfold open_turn, request_is. intros H0. stx_inv. bools. by subst. Qed.

Lemma bindExisting_ok ev request now ttl r env st st' b :
  turns st.2 !! ev = Some r ->
  bindExisting tenant ev request now ttl r env st = (st', Ok b) ->
  request_is ev request r /\
  ((b = in_flight /\ live_claim now r /\ st'.2 = st.2) \/
   (exists token, b = claimed_binding token /\ turn_pending r = true /\ ~ live_claim now r /\
      st'.2 = set_turns (<[ev := with_claim (Some token) (Some (UnixNano (now + ttl))) r]>
                           (turns st.2)) st.2) \/
   (exists result, b = completed_binding result /\ tr_state r = "completed" /\
      result_is ev result r /\ st'.2 = st.2)).
Proof.
  intros Hrow H0. unfold bindExisting in H0. stx_inv.
  match goal with Ho : open_turn _ _ _ _ _ _ = _ |- _ => apply open_turn_ok in Ho as [-> Hreq] end.
  split; [done|]. destruct (String.eqb_spec (tr_state r) "pending") as [Hp|Hp].
  - stx_inv. destruct (negb (is_empty _) && _) eqn:Elive.
    + left. stx_inv. bools. unfold live_claim, turn_pending. rewrite Hp.
      split_and!; (done || lia).
    + right; left. stx_inv.
      match goal with Ht : claimToken _ _ = (_, Ok ?t) |- _ =>
        rename t into token; apply claimToken_ok in Ht end.
      match goal with Hu : update_turn _ _ _ _ _ = _ |- _ => apply update_turn_ok in Hu
        as [(-> & _)|(-> & r' & Hr' & _ & E)] end; [done|].
      rewrite Hm in Hr', E. rewrite Hrow in Hr'. injection Hr' as <-.
      exists token. split_and!; [done|unfold turn_pending; by rewrite Hp| |exact E].
      intros (_ & L1 & L2). rewrite L1 in Elive. cbn in Elive. apply Z.ltb_ge in Elive. lia.
  - right; right. destruct (String.eqb_spec (tr_state r) "completed") as [Hc|Hc]; [|stx_inv].
    stx_inv. by eexists.
Qed.

Lemma bindNew_ok ev request now retention ttl capacity env st st' b :
  bindNew tenant ev request now retention ttl capacity env st = (st', Ok b) ->
  Z.of_nat (size (turns st.2)) < capacity /\
  exists token nonce, b = claimed_binding token /\ len nonce = Z.of_nat nonceSize /\
    st'.2 = set_turns (<[ev := new_turn
      (nonce ++ Seal nonce request (aad tenant dispatcherTurnRequestAAD ev)) now retention ttl token]>
      (turns st.2)) st.2.
Proof.
  intros H0. unfold bindNew in H0. stx_inv. bools. split; [lia|].
  match goal with Hs : seal _ _ _ _ _ _ = _ |- _ => apply seal_field in Hs as (Es & nonce & Hn & ->) end.
  match goal with Ht : claimToken _ _ = (_, Ok ?t) |- _ =>
    rename t into token; apply claimToken_ok in Ht as Et end.
  match goal with Hp : put _ _ _ _ _ = _ |- _ => apply put_ok in Hp as (t & Ht & ->) end.
  rewrite Et, Es in *. cbn in *. unfold insert_strict in Ht.
  destruct (turns st.2 !! ev); [done|]. destruct (existsb _ _); [done|]. injection Ht as <-.
  by exists token, nonce.
Qed.

(** Every outcome of a binding. *)
Lemma BindDispatcherTurn_cases ev request now retention ttl capacity env s s' res :
  BindDispatcherTurn tenant ev request now retention ttl capacity env s = (s', res) ->
  (exists e, res = Err e /\ s' = s) \/
  (exists b, res = Ok b /\ s' = set_turns (turns s') s /\
   ((exists r, unexpired now (turns s) !! ev = Some r /\ request_is ev request r /\
       ((b = in_flight /\ live_claim now r /\ turns s' = unexpired now (turns s)) \/
        (exists token, b = claimed_binding token /\ turn_pending r = true /\ ~ live_claim now r /\
           turns s' = <[ev := with_claim (Some token) (Some (UnixNano (now + ttl))) r]>
                        (unexpired now (turns s))) \/
        (exists result, b = completed_binding result /\ tr_state r = "completed" /\
           result_is ev result r /\ turns s' = unexpired now (turns s)))) \/
    (unexpired now (turns s) !! ev = None /\
     Z.of_nat (size (unexpired now (turns s))) < capacity /\
     exists token nonce, b = claimed_binding token /\ len nonce = Z.of_nat nonceSize /\
       turns s' = <[ev := new_turn
         (nonce ++ Seal nonce request (aad tenant dispatcherTurnRequestAAD ev))
         now retention ttl token]> (unexpired now (turns s))))).
Proof.
  unfold BindDispatcherTurn. destruct (negb _); [intros [= <- <-]; eauto|].
  intros [(e & -> & ->)|(n & b & -> & Hw)]%run_tx_cases; [eauto|right]. exists b. split; [done|].
  unfold bindWork, pruneTurns in Hw. stx_inv. fold (unexpired now (turns s)) in Hw. edge_simpl.
  destruct (unexpired now (turns s) !! ev) as [r|] eqn:Er.
  - apply bindExisting_ok in Hw as [Hreq Hc]; [|done].
    destruct Hc as [(-> & L & E)|[(token & -> & P & L & E)|(result & -> & P & R & E)]];
      edge_simpl; rewrite E; edge_simpl; (split; [done|left]); exists r; split_and!; eauto 10.
  - apply bindNew_ok in Hw as (Hcap & token & nonce & -> & Hn & E). edge_simpl. rewrite E. edge_simpl.
    split; [done|right]. split_and!; [done..|]. by exists token, nonce.
Qed.

Lemma CompleteDispatcherTurn_cases ev request result at_ claim env s s' res :
  CompleteDispatcherTurn tenant ev request result at_ claim env s = (s', res) ->
  (exists e, res = Err e /\ s' = s) \/
  (res = Ok tt /\ exists r, turns s !! ev = Some r /\ request_is ev request r /\
   ((tr_state r = "completed" /\ result_is ev result r /\ s' = s) \/
    (turn_owned claim r = true /\ exists nonce, len nonce = Z.of_nat nonceSize /\
       s' = set_turns (<[ev := completed_turn
              (nonce ++ Seal nonce result (aad tenant dispatcherTurnResultAAD ev)) at_ r]> (turns s)) s))).
Proof.
  unfold CompleteDispatcherTurn. destruct (negb _); [intros [= <- <-]; eauto|].
  intros [(e & -> & ->)|(n & [] & -> & Hw)]%run_tx_cases; [eauto|right]. split; [done|].
  unfold completeWork in Hw. stx_inv. destruct (turns s !! ev) as [r|] eqn:Er; [|stx_inv]. stx_inv.
  match goal with Ho : open_turn _ _ _ _ _ _ = _ |- _ => apply open_turn_ok in Ho as [-> Hreq] end.
  exists r. split_and!; [done..|]. destruct (String.eqb_spec (tr_state r) "completed") as [Hc|Hc].
  - left. stx_inv. bools. simplify_eq. done.
  - right. stx_inv.
    match goal with Hs : seal _ _ _ _ _ _ = _ |- _ => apply seal_field in Hs as (Es & nonce & Hn & ->) end.
    match goal with Hu : update_turn _ _ _ _ _ = _ |- _ => apply update_turn_ok in Hu
      as [(-> & _)|(-> & r' & Hr' & Hg & E')] end; [done|].
    rewrite Es in Hr', E'. edge_simpl. rewrite Er in Hr'. injection Hr' as <-.
    split; [done|]. by exists nonce.
Qed.

Lemma updatePending_ok ev request claim abandon env s n s' u :
  updatePendingDispatcherTurnClaim tenant ev request claim abandon env (1%nat, s) = ((n, s'), Ok u) ->
  exists r, turns s !! ev = Some r /\ request_is ev request r /\ turn_owned claim r = true /\
    s' = set_turns (partial_alter (fun _ => if abandon then None else Some (with_claim None None r))
                      ev (turns s)) s.
Proof.
  intros Hw. unfold updatePendingDispatcherTurnClaim in Hw. stx_inv.
  destruct (turns s !! ev) as [r|] eqn:Er; [|stx_inv]. stx_inv.
  match goal with Ho : open_turn _ _ _ _ _ _ = _ |- _ => apply open_turn_ok in Ho as [-> Hreq] end.
  match goal with Hu : update_turn _ _ _ _ _ = _ |- _ => apply update_turn_ok in Hu
    as [(-> & _)|(-> & r' & Hr' & Hg & E')] end; [done|].
  edge_simpl. rewrite Er in Hr'. injection Hr' as <-. exists r. by split_and!.
Qed.

Lemma ReleaseDispatcherTurnClaim_cases ev request claim env s s' res :
  ReleaseDispatcherTurnClaim tenant ev request claim env s = (s', res) ->
  (exists e, res = Err e /\ s' = s) \/
  (res = Ok tt /\ exists r, turns s !! ev = Some r /\ request_is ev request r /\
     turn_owned claim r = true /\ s' = set_turns (<[ev := with_claim None None r]> (turns s)) s).
Proof.
  unfold ReleaseDispatcherTurnClaim. destruct (negb _); [intros [= <- <-]; eauto|].
  intros [(e & -> & ->)|(n & [] & -> & Hw)]%run_tx_cases; [eauto|right]. split; [done|].
  by apply updatePending_ok in Hw.
Qed.

Lemma AbandonDispatcherTurn_cases ev request claim env s s' res :
  AbandonDispatcherTurn tenant ev request claim env s = (s', res) ->
  (exists e, res = Err e /\ s' = s) \/
  (res = Ok tt /\ exists r, turns s !! ev = Some r /\ request_is ev request r /\
     turn_owned claim r = true /\ s' = set_turns (delete ev (turns s)) s).
Proof.
  unfold AbandonDispatcherTurn. destruct (negb _); [intros [= <- <-]; eauto|].
  intros [(e & -> & ->)|(n & [] & -> & Hw)]%run_tx_cases; [eauto|right]. split; [done|].
  by apply updatePending_ok in Hw.
Qed.

Lemma unexpired_some now m ev r : unexpired now m !! ev = Some r -> m !! ev = Some r.
Proof. unfold unexpired. by intros [? _]%map_lookup_filter_Some. Qed.

Lemma unexpired_keep now m ev r : m !! ev = Some r -> UnixNano now < tr_expires r ->
  unexpired now m !! ev = Some r.
Proof. intros Hr Hn. apply map_lookup_filter_Some. done. Qed.

Lemma size_unexpired now m : (size (unexpired now m) <= size m)%nat.
Proof. apply map_subseteq_size, map_filter_subseteq. Qed.

(** A turn binding runs a request at most once at a time.  When
    [BindDispatcherTurn] succeeds, the event's row holds exactly the presented
    request, and: it is in flight, the stored claim being unexpired and the row
    untouched; or it was completed, and the returned bytes are the stored
    result; or the caller got a fresh claim, recorded in the row with its
    expiry, and no claim of the event was running.  The table never grows past
    the capacity because of the call. *)
Theorem turn_binding_exact `{!AEADLaws} ev request now retention ttl capacity env s s' b :
  BindDispatcherTurn tenant ev request now retention ttl capacity env s = (s', Ok b) ->
  exists r, turns s' !! ev = Some r /\ request_is ev request r /\
    Z.of_nat (size (turns s')) <= Z.max capacity (Z.of_nat (size (turns s))) /\
    ((b = in_flight /\ turns s !! ev = Some r /\ live_claim now r) \/
     (exists result, b = completed_binding result /\ turns s !! ev = Some r /\
        tr_state r = "completed" /\ result_is ev result r) \/
     (exists token, b = claimed_binding token /\ turn_pending r = true /\
        tr_claim_token r = Some token /\ tr_claim_expires r = Some (UnixNano (now + ttl)) /\
        forall r0, turns s !! ev = Some r0 -> UnixNano now < tr_expires r0 -> ~ live_claim now r0)).
Proof.
  pose proof (size_unexpired now (turns s)) as Hsz.
  intros [(e & ? & _)|(b' & [= <-] & _ & [(r & Hr & Hreq & Hc)|(Hn & Hcap & token & nonce & -> & Hl & E)])]
    %BindDispatcherTurn_cases; [done| |].
  - apply unexpired_some in Hr as Hr0.
    destruct Hc as [(-> & L & E)|[(token & -> & P & L & E)|(result & -> & P & R & E)]]; rewrite E.
    + exists r. split_and!; [done|done|lia|]. by left.
    + eexists. rewrite lookup_insert_eq. split_and!; [done|done| |].
      { rewrite map_size_insert_Some by eauto. lia. }
      right; right. exists token. split_and!; try done. intros r0 Hr1 _. by simplify_eq.
    + exists r. split_and!; [done|done|lia|]. right; left. eauto.
  - rewrite E. eexists. rewrite lookup_insert_eq. split_and!; [done| | |].
    + unfold request_is. cbn. by apply open_sealed.
    + rewrite map_size_insert_None by done. lia.
    + right; right. exists token. split_and!; try done. intros r0 Hr0 Hlt.
      by rewrite (unexpired_keep _ _ _ _ Hr0 Hlt) in Hn.
Qed.
End Turns.
