(* ===== verification/EdgeSystem.v ===== *)
(** * The edge store as a whole

    Every writing operation of the edge store as one type of calls, and what
    holds of a store after any sequence of calls, with any arguments, clock
    readings, driver failures and random bytes: the log is dense, the
    projection is coherent, quarantines and receipts are final, and the exact
    wire of a pending submission stays readable. *)
From stdpp Require Import sorting relations.
From S2P Require Import Prelude GoText GoTime GoJson Sha256 DeliveryStream SqliteTx.
From S2P Require Import EdgeStore EdgeApply EdgeSpool EdgeInv EdgeFront EdgeTurns.
Open Scope string_scope.
Open Scope Z_scope.
Open Scope snag_scope.

Inductive EdgeOp : Type :=
| OpApply (d : JournalDelivery) (verdict reason : string) (p : option VerifiedProjection) (now : Z)
    (allow : bool) (env : TxEnv)
| OpRequire (id : EdgeIdentity) (observed : Z) (reason : string) (now : Z) (env : TxEnv)
| OpComplete (id : EdgeIdentity) (through high now : Z) (fault : option string)
| OpClaimFronts (front owner : string) (ttl limit now : Z) (env : TxEnv)
| OpMarkFront (receipt : FrontReceipt) (now : Z) (env : TxEnv)
| OpSaveCase (p : PendingCase) (env : TxEnv)
| OpMarkCase (a : AcceptedRemoteCase) (env : TxEnv)
| OpSaveAdvice (p : PendingAdvice) (env : TxEnv)
| OpMarkAdvice (a : AcceptedRemoteAdvice) (env : TxEnv)
| OpBindTurn (eventID : string) (request : bytes) (now retention claimTTL capacity : Z) (env : TxEnv)
| OpCompleteTurn (eventID : string) (request result : bytes) (completedAt : Z) (claim : string)
    (env : TxEnv)
| OpReleaseTurn (eventID : string) (request : bytes) (claim : string) (env : TxEnv)
| OpAbandonTurn (eventID : string) (request : bytes) (claim : string) (env : TxEnv).

(** ** What a pending row may become

    A spooled submission keeps its identity, its wire and its time; it only
    moves from pending to accepted_remote, with the whole receipt, and then
    never changes. *)
Definition pending_case_le (r r' : PendingCaseRow) : Prop :=
  pc_envelope_id r' = pc_envelope_id r /\ pc_commitment r' = pc_commitment r /\
  pc_raw_ciphertext r' = pc_raw_ciphertext r /\ pc_created_at r' = pc_created_at r /\
  (r' = r \/
   (pc_state r = "pending" /\ pc_state r' = "accepted_remote" /\ is_Some (pc_authority_id r') /\
    is_Some (pc_authority_revision r') /\ is_Some (pc_accepted_at r'))).

Definition pending_advice_le (r r' : PendingAdviceRow) : Prop :=
  pa_advice_id r' = pa_advice_id r /\ pa_case_commitment r' = pa_case_commitment r /\
  pa_commitment r' = pa_commitment r /\ pa_raw_ciphertext r' = pa_raw_ciphertext r /\
  pa_created_at r' = pa_created_at r /\
  (r' = r \/
   (pa_state r = "pending" /\ pa_state r' = "accepted_remote" /\ is_Some (pa_authority_id r') /\
    is_Some (pa_authority_revision r') /\ is_Some (pa_accepted_at r'))).

Record pending_grows (s s' : EdgeDB) : Prop := {
  pq_case : forall k r, pending_cases s !! k = Some r ->
    exists r', pending_cases s' !! k = Some r' /\ pending_case_le r r';
  pq_advice : forall k r, pending_advice s !! k = Some r ->
    exists r', pending_advice s' !! k = Some r' /\ pending_advice_le r r'
}.

#[export] Instance pending_case_le_preorder : PreOrder pending_case_le.
Proof.
  split; [intros r; split_and!; try done; by left|]. intros r1 r2 r3 (A & B & C & D & E) (A' & B' & C' & D' & E').
  unfold pending_case_le. rewrite A', B', C', D'. split_and!; [done..|].
  destruct E as [->|(E1 & E2 & E3)], E' as [->|(F1 & F2 & F3)]; auto; congruence.
Qed.

#[export] Instance pending_advice_le_preorder : PreOrder pending_advice_le.
Proof.
  split; [intros r; split_and!; try done; by left|]. intros r1 r2 r3 (A & B & C & D & E & F) (A' & B' & C' & D' & E' & F').
  unfold pending_advice_le. rewrite A', B', C', D', E'. split_and!; [done..|].
  destruct F as [->|(F1 & F2 & F3)], F' as [->|(G1 & G2 & G3)]; auto; congruence.
Qed.

#[export] Instance pending_grows_preorder : PreOrder pending_grows.
Proof.
  split; [intros s; split; intros k r Hr; eexists; by split|].
  intros s1 s2 s3 [A B] [A' B']. split; intros k r Hr.
  - destruct (A _ _ Hr) as (r2 & H2 & L2). destruct (A' _ _ H2) as (r3 & H3 & L3).
    exists r3. split; [done|]. by etrans.
  - destruct (B _ _ Hr) as (r2 & H2 & L2). destruct (B' _ _ H2) as (r3 & H3 & L3).
    exists r3. split; [done|]. by etrans.
Qed.

Lemma same_pending s s' : pending_cases s' = pending_cases s -> pending_advice s' = pending_advice s ->
  pending_grows s s'.
Proof. intros E1 E2. split; rewrite ?E1, ?E2; intros k r Hr; eexists; by split. Qed.

Lemma insert_strict_ok {K V} `{Countable K} (clash : V -> bool) (k : K) (v : V) m m' :
  insert_strict clash k v m = Ok m' -> m !! k = None /\ m' = <[k := v]> m.
Proof.
  unfold insert_strict. destruct (m !! k) eqn:E; [done|]. destruct (existsb _ _); [done|].
  by intros [= <-].
Qed.

Section System.
Context `{AEAD} (tenant : string).

(** The store after one call, whatever the call returns. *)
Definition run_op (op : EdgeOp) (s : EdgeDB) : EdgeDB :=
  match op with
  | OpApply d v reason p now allow env => (applyVerified tenant d v reason p now allow env s).1
  | OpRequire id observed reason now env => (RequireReconciliation id observed reason now env s).1
  | OpComplete id through high now fault => (CompleteReconciliation id through high now fault s).1
  | OpClaimFronts front owner ttl limit now env =>
      (ClaimFrontDeliveries tenant front owner ttl limit now env s).1
  | OpMarkFront receipt now env => (MarkFrontDelivered receipt now env s).1
  | OpSaveCase p env => (SavePendingCase tenant p env s).1
  | OpMarkCase a env => (MarkCaseAcceptedRemote a env s).1
  | OpSaveAdvice p env => (SavePendingAdvice tenant p env s).1
  | OpMarkAdvice a env => (MarkAdviceAcceptedRemote a env s).1
  | OpBindTurn ev request now retention claimTTL capacity env =>
      (BindDispatcherTurn tenant ev request now retention claimTTL capacity env s).1
  | OpCompleteTurn ev request result completedAt claim env =>
      (CompleteDispatcherTurn tenant ev request result completedAt claim env s).1
  | OpReleaseTurn ev request claim env =>
      (ReleaseDispatcherTurnClaim tenant ev request claim env s).1
  | OpAbandonTurn ev request claim env => (AbandonDispatcherTurn tenant ev request claim env s).1
  end.

Definition run_ops (ops : list EdgeOp) (s : EdgeDB) : EdgeDB := foldl (fun s op => run_op op s) s ops.

Lemma run_ops_cons op ops s : run_ops (op :: ops) s = run_ops ops (run_op op s).
Proof. done. Qed.

Lemma run_ops_snoc op ops s : run_ops (ops ++ [op])%list s = run_op op (run_ops ops s).
Proof. unfold run_ops. by rewrite foldl_app. Qed.

Definition edge_reachable (s : EdgeDB) : Prop := exists ops, s = run_ops ops empty_edge.

(** A property of stores that every call preserves. *)
Lemma run_ops_ind (P : EdgeDB -> Prop) : (forall op s, P s -> P (run_op op s)) ->
  forall ops s, P s -> P (run_ops ops s).
Proof. intros Hstep ops. induction ops as [|op ops IH]; intros s Hs; [done|]. apply IH, Hstep, Hs. Qed.

(** ** The frame of each spool call *)
Lemma SavePendingCase_cases p env s s' r : SavePendingCase tenant p env s = (s', r) ->
  (s' = s /\ (r = Ok tt -> exists row, pending_cases s !! ep_CaseID p = Some row /\
     exists e, scanPendingCase tenant (Some row) (ep_CaseID p) = Ok (Some e) /\
               same_pending_case e p = true)) \/
  (r = Ok tt /\ pending_cases s !! ep_CaseID p = None /\
   exists nonce, len nonce = Z.of_nat nonceSize /\
     s' = set_pending_cases (<[ep_CaseID p := pending_case_row p
            (nonce ++ Seal nonce (ep_Raw p) (aad tenant "ssp_edge_pending_cases" (ep_CaseID p)))]>
            (pending_cases s)) s).
Proof.
  unfold SavePendingCase. destruct (negb _); [intros [= <- <-]; by left|].
  intros [(e & -> & ->)|(n & [] & -> & Hw)]%run_tx_cases; [by left|].
  unfold savePendingCaseWork, loadPendingCaseTx in Hw. stx_inv.
  destruct (pending_cases s !! ep_CaseID p) as [row|] eqn:Er.
  - match goal with Hx : scanPendingCase _ _ _ = Ok ?x |- _ => destruct x as [stored|] end.
    + apply check_ok in Hw as [Hc E]. injection E as _ ->. left. split; [done|].
      intros _. exists row. split; [done|]. exists stored. split; [done|]. by apply negb_false_iff in Hc.
    + cbn in Hl. by destruct (parseSQLTime _); [destruct (open_field _ _ _ _)|].
  - injection Hl as <-. right. stx_inv. apply put_ok in Hw as (t & Ht & E). simplify_eq.
    match goal with Hs : seal _ _ _ _ _ _ = _ |- _ => apply seal_field in Hs as (Es & nonce & Hn & ->) end.
    cbn in Es. rewrite Es in *. apply insert_strict_ok in Ht as [_ ->].
    split_and!; [done..|]. by exists nonce.
Qed.

Lemma SavePendingAdvice_cases p env s s' r : SavePendingAdvice tenant p env s = (s', r) ->
  (s' = s /\ (r = Ok tt -> exists row, pending_advice s !! ea_CaseID p = Some row /\
     exists e, scanPendingAdvice tenant (Some row) (ea_CaseID p) = Ok (Some e) /\
               same_pending_advice e p = true)) \/
  (r = Ok tt /\ pending_advice s !! ea_CaseID p = None /\
   exists nonce, len nonce = Z.of_nat nonceSize /\
     s' = set_pending_advice (<[ea_CaseID p := pending_advice_row p
            (nonce ++ Seal nonce (ea_Raw p) (aad tenant "ssp_edge_pending_advice" (ea_CaseID p)))]>
            (pending_advice s)) s).
Proof.
  unfold SavePendingAdvice. destruct (negb _); [intros [= <- <-]; by left|].
  intros [(e & -> & ->)|(n & [] & -> & Hw)]%run_tx_cases; [by left|].
  unfold savePendingAdviceWork, loadPendingAdviceTx in Hw. stx_inv.
  destruct (pending_advice s !! ea_CaseID p) as [row|] eqn:Er.
  - match goal with Hx : scanPendingAdvice _ _ _ = Ok ?x |- _ => destruct x as [stored|] end.
    + apply check_ok in Hw as [Hc E]. injection E as _ ->. left. split; [done|].
      intros _. exists row. split; [done|]. exists stored. split; [done|]. by apply negb_false_iff in Hc.
    + cbn in Hl. by destruct (parseSQLTime _); [destruct (open_field _ _ _ _)|].
  - injection Hl as <-. right. stx_inv. apply put_ok in Hw as (t & Ht & E). simplify_eq.
    match goal with Hs : seal _ _ _ _ _ _ = _ |- _ => apply seal_field in Hs as (Es & nonce & Hn & ->) end.
    cbn in Es. rewrite Es in *. apply insert_strict_ok in Ht as [_ ->].
    split_and!; [done..|]. by exists nonce.
Qed.

(** A receipt is written over a pending row it binds, or was already there. *)
Lemma MarkCaseAcceptedRemote_cases a env s s' r : MarkCaseAcceptedRemote a env s = (s', r) ->
  (exists e, r = Err e /\ s' = s) \/
  (exists row, r = Ok tt /\ pending_cases s !! ac_CaseID a = Some row /\
     pc_envelope_id row = ac_EnvelopeID a /\ pc_commitment row = ac_Commitment a /\
     ((pc_state row = "pending" /\
       s' = set_pending_cases (<[ac_CaseID a := accepted_case_row a row]> (pending_cases s)) s) \/
      (pc_state row = "accepted_remote" /\ s' = s /\
       default "" (pc_authority_id row) = rc_AuthorityID (ac_Receipt a) /\
       default 0 (pc_authority_revision row) = rc_Revision (ac_Receipt a)))).
Proof.
  unfold MarkCaseAcceptedRemote. destruct (negb _); [intros [= <- <-]; eauto|].
  intros [(e & -> & ->)|(n & [] & -> & Hw)]%run_tx_cases; [eauto|right].
  unfold markCaseWork in Hw. stx_inv. destruct (pending_cases s !! ac_CaseID a) as [row|] eqn:Er; [|stx_inv].
  stx_inv. destruct (pc_state row =s? "accepted_remote") eqn:Es.
  - apply check_ok in Hw as [Hc2 E]. injection E as _ ->. bools. exists row. split_and!; try done. by right.
  - stx_inv. bools. exists row. split_and!; [done..|]. left. split; [done|].
    simplify_eq. edge_simpl. unfold update_pending. rewrite Er. by destruct (String.eqb_spec (pc_state row) "pending").
Qed.

Lemma MarkAdviceAcceptedRemote_cases a env s s' r : MarkAdviceAcceptedRemote a env s = (s', r) ->
  (exists e, r = Err e /\ s' = s) \/
  (exists row, r = Ok tt /\ pending_advice s !! aa_CaseID a = Some row /\
     pa_advice_id row = aa_AdviceID a /\ pa_commitment row = aa_Commitment a /\
     ((pa_state row = "pending" /\
       s' = set_pending_advice (<[aa_CaseID a := accepted_advice_row a row]> (pending_advice s)) s) \/
      (pa_state row = "accepted_remote" /\ s' = s /\
       default "" (pa_authority_id row) = rc_AuthorityID (aa_Receipt a) /\
       default 0 (pa_authority_revision row) = rc_Revision (aa_Receipt a)))).
Proof.
  unfold MarkAdviceAcceptedRemote. destruct (negb _); [intros [= <- <-]; eauto|].
  intros [(e & -> & ->)|(n & [] & -> & Hw)]%run_tx_cases; [eauto|right].
  unfold markAdviceWork in Hw. stx_inv. destruct (pending_advice s !! aa_CaseID a) as [row|] eqn:Er; [|stx_inv].
  stx_inv. destruct (pa_state row =s? "accepted_remote") eqn:Es.
  - apply check_ok in Hw as [Hc2 E]. injection E as _ ->. bools. exists row. split_and!; try done. by right.
  - stx_inv. bools. exists row. split_and!; [done..|]. left. split; [done|].
    simplify_eq. edge_simpl. unfold update_pending. rewrite Er. by destruct (String.eqb_spec (pa_state row) "pending").
Qed.
End System.
