(* ===== verification/EdgeTheorems.v ===== *)
(** * Correctness of the edge store over its whole history

    The theorems about an edge store after any sequence of calls. *)
From stdpp Require Import sorting relations.
From S2P Require Import Prelude GoText GoTime GoJson Sha256 DeliveryStream SqliteTx.
From S2P Require Import EdgeStore EdgeApply EdgeConsumer EdgeRecovery EdgeSpool EdgeInv.
From S2P Require Import EdgeFront EdgeTurns EdgeSystem.
Open Scope string_scope.
Open Scope Z_scope.
Open Scope snag_scope.

Record edge_inv (s : EdgeDB) : Prop := {
  ei_log : edge_log_inv s;
  ei_proj : proj_inv s
}.

Record edge_grows (s s' : EdgeDB) : Prop := {
  eg_log : deliveries s ⊆ deliveries s';
  eg_proj : proj_grows s s';
  eg_pending : pending_grows s s'
}.

#[export] Instance edge_grows_preorder : PreOrder edge_grows.
Proof.
  split; [intros s; by split|]. intros s1 s2 s3 [A B C] [A' B' C']. split; by etrans.
Qed.

Lemma edge_inv_empty : edge_inv empty_edge.
Proof.
  split; [|apply proj_inv_empty]. split.
  - intros key. unfold last_of, high_of. cbn. rewrite lookup_empty. lia.
  - intros key seq. unfold last_of. cbn. rewrite !lookup_empty. split; [by intros []|lia].
Qed.

(** Calls that only write one table. *)
Lemma counter_call key s s' high mode : edge_inv s -> high_of s key <= high ->
  counter_effect key s s' (last_of s key) high mode -> edge_inv s' /\ edge_grows s s'.
Proof.
  intros [Hl Hp] Hle Hc. pose proof (counter_same_proj _ _ _ _ _ _ Hc) as Hs.
  destruct (same_proj_ok _ _ Hp Hs) as [Hp' Hg].
  split; split; [by eapply counter_inv|done| |done|].
  - destruct (counter_log _ _ _ _ _ _ Hc) as [-> _]. done.
  - destruct Hc as [Hf _ _ _ _]. by apply same_pending; rewrite Hf.
Qed.

Lemma front_call s s' : edge_inv s -> front_step s s' -> edge_inv s' /\ edge_grows s s'.
Proof.
  intros [Hl Hp] Hs. destruct (front_step_proj _ _ Hp Hs) as [Hp' Hg]. destruct Hs as [Hf _].
  split; split; try done; rewrite Hf; [|done|by apply same_pending].
  destruct Hl as [Hb Hd]. split; [exact Hb|exact Hd].
Qed.

Lemma turn_call s s' : edge_inv s -> s' = set_turns (turns s') s -> edge_inv s' /\ edge_grows s s'.
Proof.
  intros [[Hb Hd] Hp] Hf. destruct (same_proj_ok s s') as [Hp' Hg]; [done|by rewrite Hf|].
  split; split; try done; rewrite Hf; [split; done|done|by apply same_pending].
Qed.

Lemma pending_call s s' : edge_inv s -> pending_grows s s' ->
  s' = set_pending_cases (pending_cases s') (set_pending_advice (pending_advice s') s) ->
  edge_inv s' /\ edge_grows s s'.
Proof.
  intros [[Hb Hd] Hp] Hq Hf. destruct (same_proj_ok s s') as [Hp' Hg]; [done|by rewrite Hf|].
  split; split; try done; rewrite Hf; [split; done|done].
Qed.

Lemma insert_pending_case s k r : pending_cases s !! k = None ->
  pending_grows s (set_pending_cases (<[k := r]> (pending_cases s)) s).
Proof.
  intros Hn. split; intros k' r' Hr; cbn.
  - rewrite lookup_insert_ne by congruence. eexists. by split.
  - eexists. by split.
Qed.

Lemma accept_pending_case s k a r : pending_cases s !! k = Some r -> pc_state r = "pending" ->
  pending_grows s (set_pending_cases (<[k := accepted_case_row a r]> (pending_cases s)) s).
Proof.
  intros Hk Hs. split; intros k' r' Hr; cbn.
  - destruct (decide (k' = k)) as [->|]; [|rewrite lookup_insert_ne by congruence; eexists; by split].
    rewrite lookup_insert_eq. rewrite Hk in Hr. injection Hr as <-. eexists. split; [done|].
    split_and!; try done. right. split_and!; try done; by eexists.
  - eexists. by split.
Qed.

Lemma insert_pending_advice s k r : pending_advice s !! k = None ->
  pending_grows s (set_pending_advice (<[k := r]> (pending_advice s)) s).
Proof.
  intros Hn. split; intros k' r' Hr; cbn.
  - eexists. by split.
  - rewrite lookup_insert_ne by congruence. eexists. by split.
Qed.

Lemma accept_pending_advice s k a r : pending_advice s !! k = Some r -> pa_state r = "pending" ->
  pending_grows s (set_pending_advice (<[k := accepted_advice_row a r]> (pending_advice s)) s).
Proof.
  intros Hk Hs. split; intros k' r' Hr; cbn.
  - eexists. by split.
  - destruct (decide (k' = k)) as [->|]; [|rewrite lookup_insert_ne by congruence; eexists; by split].
    rewrite lookup_insert_eq. rewrite Hk in Hr. injection Hr as <-. eexists. split; [done|].
    split_and!; try done. right. split_and!; try done; by eexists.
Qed.

Section History.
Context `{AEAD} (tenant : string).

Lemma apply_call d v reason p now allow env s : edge_inv s ->
  let s' := (applyVerified tenant d v reason p now allow env s).1 in edge_inv s' /\ edge_grows s s'.
Proof.
  intros [Hl Hp]. destruct (applyVerified _ _ _ _ _ _ _ _ _) as [s' r] eqn:E. cbn.
  destruct (applyVerified_effect tenant _ _ _ _ _ _ _ _ _ _ Hl E) as [(e & _ & ->)|(o & _ & Hpos & He)];
    [split; [by split|done]|].
  destruct (apply_effect_inv tenant _ _ _ _ _ _ _ _ _ Hl Hpos He) as [Hl' Hc].
  destruct (proj_inv_effect tenant _ _ _ _ _ _ _ _ _ Hp He) as [Hp' Hg].
  split; split; try done.
  - destruct Hc as [[-> _]|(_ & _ & _ & row & Hn & -> & _)]; [done|]. by apply insert_subseteq.
  - destruct He as [row _ _ ->|o0 _ Hc0|row _ _ _ _ Hc0|o0 v' r' s1 env' st1 st2 _ _ _ Ha <- -> Hc0];
      [done|by destruct Hc0 as [Hf _ _ _ _]; apply same_pending; rewrite Hf..|].
    apply applyVerdict_log in Ha as (_ & _ & E1 & E2 & _).
    destruct Hc0 as [Hf _ _ _ _]. by apply same_pending; rewrite Hf.
Qed.

Lemma run_op_ok op s : edge_inv s -> edge_inv (run_op tenant op s) /\ edge_grows s (run_op tenant op s).
Proof.
  intros Hi. destruct op as [d v reason p now allow env|id observed reason now env|id c h now f
    |front owner ttl limit now env|receipt now env|p env|a env|p env|a env
    |ev request now ret ttl cap env|ev request result at_ claim env|ev request claim env
    |ev request claim env]; cbn [run_op].
  - by apply apply_call.
  - destruct (RequireReconciliation _ _ _ _ _ _) as [s' r] eqn:E.
    apply RequireReconciliation_cases in E as [->|Hc]; [done|].
    eapply counter_call; [done| |exact Hc]. lia.
  - destruct (CompleteReconciliation _ _ _ _ _ _) as [s' [u|e]] eqn:E.
    + apply CompleteReconciliation_ok in E as (_ & Hc & <- & <-).
      eapply counter_call; [done| |exact Hc]. done.
    + by apply CompleteReconciliation_err in E as ->.
  - destruct (ClaimFrontDeliveries _ _ _ _ _ _ _ _) as [s' r] eqn:E.
    apply ClaimFrontDeliveries_cases in E as [(e & _ & ->)|(ds & _ & Hs & _)]; [done|].
    by apply front_call.
  - destruct (MarkFrontDelivered _ _ _ _) as [s' r] eqn:E. apply MarkFrontDelivered_step in E.
    by apply front_call.
  - destruct (SavePendingCase _ _ _ _) as [s' r] eqn:E.
    apply SavePendingCase_cases in E as [[-> _]|(_ & Hn & nonce & _ & ->)]; [done|].
    apply pending_call; [done|by apply insert_pending_case|done].
  - destruct (MarkCaseAcceptedRemote _ _ _) as [s' r] eqn:E.
    apply MarkCaseAcceptedRemote_cases in E
      as [(e & _ & ->)|(row & _ & Hr & _ & _ & [(Hs & ->)|(_ & -> & _)])]; [done| |done].
    apply pending_call; [done|by apply accept_pending_case|done].
  - destruct (SavePendingAdvice _ _ _ _) as [s' r] eqn:E.
    apply SavePendingAdvice_cases in E as [[-> _]|(_ & Hn & nonce & _ & ->)]; [done|].
    apply pending_call; [done|by apply insert_pending_advice|done].
  - destruct (MarkAdviceAcceptedRemote _ _ _) as [s' r] eqn:E.
    apply MarkAdviceAcceptedRemote_cases in E
      as [(e & _ & ->)|(row & _ & Hr & _ & _ & [(Hs & ->)|(_ & -> & _)])]; [done| |done].
    apply pending_call; [done|by apply accept_pending_advice|done].
  - destruct (BindDispatcherTurn _ _ _ _ _ _ _ _ _) as [s' r] eqn:E.
    apply BindDispatcherTurn_cases in E as [(e & _ & ->)|(b & _ & Hf & _)]; [done|].
    by apply turn_call.
  - destruct (CompleteDispatcherTurn _ _ _ _ _ _ _ _) as [s' r] eqn:E.
    apply CompleteDispatcherTurn_cases in E
      as [(e & _ & ->)|(_ & r0 & _ & _ & [(_ & _ & ->)|(_ & nonce & _ & ->)])]; [done|done|].
    by apply turn_call.
  - destruct (ReleaseDispatcherTurnClaim _ _ _ _ _ _) as [s' r] eqn:E.
    apply ReleaseDispatcherTurnClaim_cases in E as [(e & _ & ->)|(_ & r0 & _ & _ & _ & ->)]; [done|].
    by apply turn_call.
  - destruct (AbandonDispatcherTurn _ _ _ _ _ _) as [s' r] eqn:E.
    apply AbandonDispatcherTurn_cases in E as [(e & _ & ->)|(_ & r0 & _ & _ & _ & ->)]; [done|].
    by apply turn_call.
Qed.

Lemma run_ops_ok ops : forall s, edge_inv s ->
  edge_inv (run_ops tenant ops s) /\ edge_grows s (run_ops tenant ops s).
Proof.
  induction ops as [|op ops IH]; intros s Hi; [done|]. rewrite run_ops_cons.
  destruct (run_op_ok op s Hi) as [Hi1 Hg1]. destruct (IH _ Hi1) as [Hi2 Hg2].
  split; [done|]. by etrans.
Qed.

Lemma reachable_inv s : edge_reachable tenant s -> edge_inv s.
Proof. intros [ops ->]. apply run_ops_ok, edge_inv_empty. Qed.

(** C10: the history of an edge store is coherent and append-only.  After any
    sequence of calls the log is dense up to its counters; every case and
    advice row stands under the identity row of its envelope, with its
    commitment and state; every advice binds the exact stored case; every
    advice has its two front messages.  Whatever is called next, no recorded
    delivery is lost or changed, and no identity, case, advice, front message
    or pending submission is lost: an identity keeps its commitment and first
    delivery, and its state changes to quarantined only; a case or advice row
    keeps every column, and its state changes to quarantined only; a front
    message keeps its identity and creation time, moves only forward from
    pending over delivering and delivered to quarantined (a claim may renew the
    lease of a message that is not settled), and its receipt is written once,
    when it is settled; a pending submission keeps its identity, sealed wire and
    time, and changes only once, from pending to accepted_remote with a
    receipt. *)
Theorem edge_history_append_only s :
  edge_reachable tenant s -> edge_inv s /\ forall ops, edge_grows s (run_ops tenant ops s).
Proof.
  intros Hr%reachable_inv. split; [done|]. intros ops. by apply run_ops_ok.
Qed.

Lemma accepted_identity s k a : proj_inv s -> accepted_advice s k = Some a ->
  identified s (ar_envelope_id a) (ar_commitment a) "accepted".
Proof.
  intros Hp. unfold accepted_advice. destruct (advice s !! k) as [a0|] eqn:Ea; [|done].
  destruct (String.eqb_spec (ar_state a0) "accepted") as [E|]; [|done]. intros [= <-].
  rewrite <- E. by eapply Hp.
Qed.

Lemma view_all_in l : forall vs v, view_all tenant l = Ok vs -> v ∈ vs ->
  exists r, (av_AdviceID v, r) ∈ l.
Proof.
  induction l as [|[k r] l IH]; intros vs v Hv Hin; cbn in Hv; [injection Hv as <-; by apply not_elem_of_nil in Hin|].
  destruct (advice_view tenant k r) as [w|] eqn:Ew; [|done]. cbn in Hv.
  destruct (view_all tenant l) as [ws|] eqn:El; [|done]. injection Hv as <-.
  apply elem_of_cons in Hin as [->|Hin].
  - exists r. unfold advice_view in Ew. destruct (open_field _ _ _ _); [|done]. cbn in Ew.
    destruct (parseSQLTime _); [|done]. injection Ew as <-. by left.
  - destruct (IH _ _ eq_refl Hin) as [r' Hr']. exists r'. by right.
Qed.

(** The advice a reader or a front is shown. *)
Definition shown (s : EdgeDB) (adviceID : string) : Prop :=
  (exists fault v, PresentAdvice tenant adviceID fault s = Ok (Some v)) \/
  (exists caseID fault vs v, ListAdvice tenant caseID fault s = Ok vs /\ v ∈ vs /\
     av_AdviceID v = adviceID) \/
  (exists front owner ttl limit now env s' ds d,
     ClaimFrontDeliveries tenant front owner ttl limit now env s = (s', Ok ds) /\ d ∈ ds /\
     fd_AdviceID d = adviceID).

Lemma shown_accepted s k : shown s k -> is_Some (accepted_advice s k).
Proof.
  intros [(fault & v & Hv)|[(c & fault & vs & v & Hl & Hin & <-)|(front & owner & ttl & limit & now & env
    & s' & ds & d & Hc & Hd & <-)]].
  - unfold PresentAdvice in Hv. destruct (blank _); [done|]. destruct fault; [done|].
    destruct (accepted_advice s k); [eauto|done].
  - unfold ListAdvice in Hl. destruct (blank c); [done|]. destruct fault; [done|].
    destruct (view_all_in _ _ _ Hl Hin) as [r Hr]. unfold advice_rows in Hr.
    rewrite merge_sort_Permutation in Hr. apply list_elem_of_filter in Hr as [[_ Ha] Hr].
    apply elem_of_map_to_list in Hr. unfold accepted_advice. rewrite Hr. cbn in Ha. rewrite Ha. eauto.
  - apply ClaimFrontDeliveries_cases in Hc as [(e & ? & _)|(ds' & [= <-] & _ & _ & Hcl & _)]; [done|].
    destruct (Hcl d Hd) as (r & a & _ & _ & Ha & _). eauto.
Qed.

(** Quarantine is final, and nothing of a quarantined envelope is shown.
    Once an envelope's identity is quarantined, then after any further calls it
    is still quarantined with the same commitment and evidence, and no advice
    stored for that envelope is presented, listed or claimed by a front. *)
Theorem quarantine_is_final s id i ops :
  edge_reachable tenant s -> identities s !! id = Some i -> ir_state i = "quarantined" ->
  let s' := run_ops tenant ops s in
  (exists j, identities s' !! id = Some j /\ ir_state j = "quarantined" /\
     ir_commitment j = ir_commitment i /\
     ir_conflicting_commitment j = ir_conflicting_commitment i /\
     ir_conflicting_commitment i <> Some (ir_commitment i)) /\
  (forall k a, advice s' !! k = Some a -> ar_envelope_id a = id -> ~ shown s' k).
Proof.
  intros Hr%reachable_inv Hi Hq s'. destruct (run_ops_ok ops s Hr) as [[_ Hp] [_ [Hg _ _ _] _]].
  fold s' in Hp, Hg. destruct (Hg _ _ Hi) as (j & Hj & Hc & _ & _ & Hfin & _).
  destruct (Hfin Hq) as [Hjq Hjc]. split.
  - exists j. split_and!; try done. destruct (pi_identity _ (ei_proj _ Hr) _ _ Hi) as [[E _]|[_ (c & -> & Hne)]];
      congruence.
  - intros k a Ha <- Hs. apply shown_accepted in Hs as [a' Ha'].
    destruct (accepted_identity _ _ _ Hp Ha') as (i' & Hi' & _ & Hst).
    unfold accepted_advice in Ha'. rewrite Ha in Ha'. destruct (_ =s? _); [|done]. injection Ha' as <-.
    rewrite Hj in Hi'. injection Hi' as <-. congruence.
Qed.

(** ** Pending submissions *)
Lemma scan_case_le r r' k : pending_case_le r r' ->
  scanPendingCase tenant (Some r') k = scanPendingCase tenant (Some r) k.
Proof. intros (E1 & E2 & E3 & E4 & _). cbn. by rewrite E1, E2, E3, E4. Qed.

Lemma scan_advice_le r r' k : pending_advice_le r r' ->
  scanPendingAdvice tenant (Some r') k = scanPendingAdvice tenant (Some r) k.
Proof. intros (E1 & E2 & E3 & E4 & E5 & _). cbn. by rewrite E1, E2, E3, E4, E5. Qed.

Lemma scan_case_same r k e p : scanPendingCase tenant (Some r) k = Ok (Some e) ->
  k = ep_CaseID p -> same_pending_case e p = true -> e = p.
Proof.
  cbn. destruct (parseSQLTime _); [|done]. cbn. destruct (open_field _ _ _ _); [|done].
  intros [= <-] -> Hs. unfold same_pending_case in Hs. cbn in Hs. bools. destruct p. cbn in *. by subst.
Qed.

Lemma scan_advice_same r k e p : scanPendingAdvice tenant (Some r) k = Ok (Some e) ->
  k = ea_CaseID p -> same_pending_advice e p = true -> e = p.
Proof.
  cbn. destruct (parseSQLTime _); [|done]. cbn. destruct (open_field _ _ _ _); [|done].
  intros [= <-] -> Hs. unfold same_pending_advice in Hs. cbn in Hs. bools. destruct p. cbn in *. by subst.
Qed.

Lemma scan_saved_case `{!AEADLaws} p nonce : four_digit_year (ep_CreatedAt p) = true ->
  len nonce = Z.of_nat nonceSize ->
  scanPendingCase tenant (Some (pending_case_row p (nonce ++ Seal nonce (ep_Raw p)
    (aad tenant "ssp_edge_pending_cases" (ep_CaseID p))))) (ep_CaseID p) = Ok (Some p).
Proof.
  intros Hy Hn. cbn [scanPendingCase pending_case_row pc_created_at pc_raw_ciphertext pc_envelope_id pc_commitment].
  unfold parseSQLTime. rewrite parse_sqlTime by done. cbn [of_option mbind result_bind].
  rewrite open_sealed by done. by destruct p.
Qed.

Lemma scan_saved_advice `{!AEADLaws} p nonce : four_digit_year (ea_CreatedAt p) = true ->
  len nonce = Z.of_nat nonceSize ->
  scanPendingAdvice tenant (Some (pending_advice_row p (nonce ++ Seal nonce (ea_Raw p)
    (aad tenant "ssp_edge_pending_advice" (ea_CaseID p))))) (ea_CaseID p) = Ok (Some p).
Proof.
  intros Hy Hn. cbn [scanPendingAdvice pending_advice_row pa_created_at pa_raw_ciphertext pa_advice_id
    pa_case_commitment pa_commitment].
  unfold parseSQLTime. rewrite parse_sqlTime by done. cbn [of_option mbind result_bind].
  rewrite open_sealed by done. by destruct p.
Qed.

Lemma saved_case `{!AEADLaws} p env s s' : four_digit_year (ep_CreatedAt p) = true ->
  SavePendingCase tenant p env s = (s', Ok tt) ->
  exists row, pending_cases s' !! ep_CaseID p = Some row /\
    scanPendingCase tenant (Some row) (ep_CaseID p) = Ok (Some p).
Proof.
  intros Hy [[-> Hrow]|(_ & _ & nonce & Hn & ->)]%SavePendingCase_cases.
  - destruct (Hrow eq_refl) as (row & Hr & e & Hs & Heq). exists row. split; [done|].
    by rewrite <- (scan_case_same _ _ _ _ Hs eq_refl Heq) at 2.
  - eexists. cbn. rewrite lookup_insert_eq. split; [done|]. by apply scan_saved_case.
Qed.

Lemma saved_advice `{!AEADLaws} p env s s' : four_digit_year (ea_CreatedAt p) = true ->
  SavePendingAdvice tenant p env s = (s', Ok tt) ->
  exists row, pending_advice s' !! ea_CaseID p = Some row /\
    scanPendingAdvice tenant (Some row) (ea_CaseID p) = Ok (Some p).
Proof.
  intros Hy [[-> Hrow]|(_ & _ & nonce & Hn & ->)]%SavePendingAdvice_cases.
  - destruct (Hrow eq_refl) as (row & Hr & e & Hs & Heq). exists row. split; [done|].
    by rewrite <- (scan_advice_same _ _ _ _ Hs eq_refl Heq) at 2.
  - eexists. cbn. rewrite lookup_insert_eq. split; [done|]. by apply scan_saved_advice.
Qed.

Lemma save_inv {S A} (b : bool) (e : string) (s s' : S) (x : S * result string A) a :
  (if b then (s, Err e) else x) = (s', Ok a) -> b = false.
Proof. by destruct b. Qed.

Lemma case_id_ok p : validatePendingCase p = true -> blank (ep_CaseID p) = false.
Proof. unfold validatePendingCase. destruct (blank (ep_CaseID p)); [|done]. by rewrite orb_true_r. Qed.

Lemma advice_case_id_ok p : validatePendingAdvice p = true -> blank (ea_CaseID p) = false.
Proof. unfold validatePendingAdvice. destruct (blank (ea_CaseID p)); [|done]. by rewrite orb_true_r. Qed.

Lemma SavePendingCase_inv p env s : edge_inv s -> edge_inv (SavePendingCase tenant p env s).1.
Proof. intros Hi. apply (run_op_ok (OpSaveCase p env) s Hi). Qed.

Lemma SavePendingAdvice_inv p env s : edge_inv s -> edge_inv (SavePendingAdvice tenant p env s).1.
Proof. intros Hi. apply (run_op_ok (OpSaveAdvice p env) s Hi). Qed.

(** The saved case, still readable after any further calls. *)
Lemma kept_case `{!AEADLaws} p env s s' ops :
  edge_reachable tenant s -> four_digit_year (ep_CreatedAt p) = true ->
  SavePendingCase tenant p env s = (s', Ok tt) ->
  exists row, pending_cases (run_ops tenant ops s') !! ep_CaseID p = Some row /\
    scanPendingCase tenant (Some row) (ep_CaseID p) = Ok (Some p) /\
    LoadPendingCase tenant (ep_CaseID p) None (run_ops tenant ops s') = Ok (Some p).
Proof.
  intros Hr%reachable_inv Hy Hsave. pose proof (SavePendingCase_inv p env s Hr) as Hi.
  rewrite Hsave in Hi. cbn in Hi. destruct (run_ops_ok ops s' Hi) as [_ [_ _ [Hq _]]].
  destruct (saved_case _ _ _ _ Hy Hsave) as (row & Hrow & Hscan).
  destruct (Hq _ _ Hrow) as (row' & Hrow' & Hle). exists row'.
  rewrite (scan_case_le _ _ _ Hle). split_and!; [done..|].
  unfold LoadPendingCase. unfold SavePendingCase in Hsave.
  apply save_inv, negb_false_iff, case_id_ok in Hsave.
  by rewrite Hsave, Hrow', (scan_case_le _ _ _ Hle).
Qed.

(** The spool keeps the exact wire of a case.  Once [SavePendingCase]
    returned without error, [LoadPendingCase] returns exactly the saved
    submission, byte for byte, after any further calls (receipts, deliveries,
    quarantines, failures); and another save under the same case ID succeeds
    only for the identical submission, and changes nothing. *)
Theorem pending_case_wire_kept `{!AEADLaws} p env s s' ops :
  edge_reachable tenant s -> four_digit_year (ep_CreatedAt p) = true ->
  SavePendingCase tenant p env s = (s', Ok tt) ->
  let s2 := run_ops tenant ops s' in
  LoadPendingCase tenant (ep_CaseID p) None s2 = Ok (Some p) /\
  (forall p' env' s3, ep_CaseID p' = ep_CaseID p ->
     SavePendingCase tenant p' env' s2 = (s3, Ok tt) -> p' = p /\ s3 = s2).
Proof.
  intros Hr Hy Hsave s2.
  destruct (kept_case p env s s' ops Hr Hy Hsave) as (row' & Hrow' & Hscan' & Hload). fold s2 in Hrow', Hload.
  split; [done|].
  intros p' env' s3 Ek [[-> Hx]|(_ & Hn & _)]%SavePendingCase_cases; [|congruence].
  destruct (Hx eq_refl) as (row2 & Hrow2 & e & Hs & Heq). rewrite Ek, Hrow' in Hrow2.
  injection Hrow2 as <-. rewrite <- (scan_case_same _ _ _ p' Hs eq_refl Heq).
  rewrite Ek, Hscan' in Hs. by injection Hs as ->.
Qed.

(** The saved advice, still readable after any further calls. *)
Lemma kept_advice `{!AEADLaws} p env s s' ops :
  edge_reachable tenant s -> four_digit_year (ea_CreatedAt p) = true ->
  SavePendingAdvice tenant p env s = (s', Ok tt) ->
  exists row, pending_advice (run_ops tenant ops s') !! ea_CaseID p = Some row /\
    scanPendingAdvice tenant (Some row) (ea_CaseID p) = Ok (Some p) /\
    LoadPendingAdvice tenant (ea_CaseID p) None (run_ops tenant ops s') = Ok (Some p).
Proof.
  intros Hr%reachable_inv Hy Hsave. pose proof (SavePendingAdvice_inv p env s Hr) as Hi.
  rewrite Hsave in Hi. cbn in Hi. destruct (run_ops_ok ops s' Hi) as [_ [_ _ [_ Hq]]].
  destruct (saved_advice _ _ _ _ Hy Hsave) as (row & Hrow & Hscan).
  destruct (Hq _ _ Hrow) as (row' & Hrow' & Hle). exists row'.
  rewrite (scan_advice_le _ _ _ Hle). split_and!; [done..|].
  unfold LoadPendingAdvice. unfold SavePendingAdvice in Hsave.
  apply save_inv, negb_false_iff, advice_case_id_ok in Hsave.
  by rewrite Hsave, Hrow', (scan_advice_le _ _ _ Hle).
Qed.

(** The same of the final advice of a case, which is spooled under its
    case ID: an edge never replaces the advice it finalised. *)
Theorem pending_advice_wire_kept `{!AEADLaws} p env s s' ops :
  edge_reachable tenant s -> four_digit_year (ea_CreatedAt p) = true ->
  SavePendingAdvice tenant p env s = (s', Ok tt) ->
  let s2 := run_ops tenant ops s' in
  LoadPendingAdvice tenant (ea_CaseID p) None s2 = Ok (Some p) /\
  (forall p' env' s3, ea_CaseID p' = ea_CaseID p ->
     SavePendingAdvice tenant p' env' s2 = (s3, Ok tt) -> p' = p /\ s3 = s2).
Proof.
  intros Hr Hy Hsave s2.
  destruct (kept_advice p env s s' ops Hr Hy Hsave) as (row' & Hrow' & Hscan' & Hload). fold s2 in Hrow', Hload.
  split; [done|].
  intros p' env' s3 Ek [[-> Hx]|(_ & Hn & _)]%SavePendingAdvice_cases; [|congruence].
  destruct (Hx eq_refl) as (row2 & Hrow2 & e & Hs & Heq). rewrite Ek, Hrow' in Hrow2.
  injection Hrow2 as <-. rewrite <- (scan_advice_same _ _ _ p' Hs eq_refl Heq).
  rewrite Ek, Hscan' in Hs. by injection Hs as ->.
Qed.

(** The receipt columns of a row. *)
Definition case_receipted (a : AcceptedRemoteCase) (row : PendingCaseRow) : Prop :=
  pc_envelope_id row = ac_EnvelopeID a /\ pc_commitment row = ac_Commitment a /\
  pc_state row = "accepted_remote" /\
  default "" (pc_authority_id row) = rc_AuthorityID (ac_Receipt a) /\
  default 0 (pc_authority_revision row) = rc_Revision (ac_Receipt a).

Lemma marked_case a env s s' : MarkCaseAcceptedRemote a env s = (s', Ok tt) ->
  exists row, pending_cases s' !! ac_CaseID a = Some row /\ case_receipted a row.
Proof.
  intros [(e & ? & _)|(row & _ & Hr & He & Hc & [(_ & ->)|(Hs & -> & H1 & H2)])]
    %MarkCaseAcceptedRemote_cases; [done| |].
  - eexists. cbn. rewrite lookup_insert_eq. split; [done|]. by split_and!.
  - exists row. split; [done|]. by split_and!.
Qed.

(** A receipt is final.  Once [MarkCaseAcceptedRemote] recorded the
    authority's receipt for a case, then after any further calls the row is
    accepted_remote with that same authority and revision, bound to the same
    envelope and commitment; marking the case again succeeds only with the same
    authority, revision, envelope and commitment, and changes nothing. *)
Theorem accepted_remote_is_final a env s s' ops :
  edge_reachable tenant s -> MarkCaseAcceptedRemote a env s = (s', Ok tt) ->
  let s2 := run_ops tenant ops s' in
  (exists row, pending_cases s2 !! ac_CaseID a = Some row /\ case_receipted a row) /\
  (forall a' env' s3, ac_CaseID a' = ac_CaseID a ->
     MarkCaseAcceptedRemote a' env' s2 = (s3, Ok tt) ->
     s3 = s2 /\ ac_EnvelopeID a' = ac_EnvelopeID a /\ ac_Commitment a' = ac_Commitment a /\
     rc_AuthorityID (ac_Receipt a') = rc_AuthorityID (ac_Receipt a) /\
     rc_Revision (ac_Receipt a') = rc_Revision (ac_Receipt a)).
Proof.
  intros Hr%reachable_inv Hmark s2.
  pose proof (proj1 (run_op_ok (OpMarkCase a env) s Hr)) as Hi. cbn [run_op] in Hi.
  rewrite Hmark in Hi. cbn in Hi.
  destruct (run_ops_ok ops s' Hi) as [_ [_ _ [Hq _]]]. fold s2 in Hq.
  destruct (marked_case _ _ _ _ Hmark) as (row & Hrow & Hrec).
  destruct (Hq _ _ Hrow) as (row' & Hrow' & _ & _ & _ & _ & Heq).
  destruct Hrec as (E1 & E2 & E3 & E4 & E5). assert (row' = row) as -> by (destruct Heq as [|(E & _)]; congruence).
  split; [exists row; by split_and!|]. intros a' env' s3 Ek.
  intros [(e & ? & _)|(row2 & _ & Hr2 & He & Hc & [(Hp & _)|(_ & -> & H1 & H2)])]
    %MarkCaseAcceptedRemote_cases; [done| |];
    rewrite Ek, Hrow' in Hr2; injection Hr2 as <-; [congruence|].
  split_and!; congruence.
Qed.

(** ** Dispatcher turns *)

(** When a call may change a turn: its claim holder completes, releases or
    abandons it; a later binding takes over a claim that is not running; or
    the turn expired. *)
Definition may_change (ev : string) (r : TurnRow) (op : EdgeOp) : Prop :=
  match op with
  | OpBindTurn ev' _ now _ _ _ _ =>
      tr_expires r <= UnixNano now \/ (ev' = ev /\ turn_pending r = true /\ ~ live_claim now r)
  | OpCompleteTurn ev' _ _ _ claim _ | OpReleaseTurn ev' _ claim _ | OpAbandonTurn ev' _ claim _ =>
      ev' = ev /\ turn_owned claim r = true
  | _ => False
  end.

Lemma other_calls_keep_turns op s : edge_inv s ->
  match op with
  | OpBindTurn _ _ _ _ _ _ _ | OpCompleteTurn _ _ _ _ _ _ | OpReleaseTurn _ _ _ _
  | OpAbandonTurn _ _ _ _ => True
  | _ => turns (run_op tenant op s) = turns s
  end.
Proof.
  intros [Hl _]. destruct op as [d v reason p now allow env|id observed reason now env|id c h now f
    |front owner ttl limit now env|receipt now env|p env|a env|p env|a env| | | |]; cbn [run_op]; try done.
  - destruct (applyVerified _ _ _ _ _ _ _ _ _) as [s' r] eqn:E. cbn.
    destruct (applyVerified_effect tenant _ _ _ _ _ _ _ _ _ _ Hl E) as [(e & _ & ->)|(o & _ & _ & He)]; [done|].
    destruct He as [row _ _ ->|o0 _ Hc0|row _ _ _ _ Hc0|o0 v' r' s1 env' st1 st2 _ _ _ Ha <- -> Hc0];
      [done|by destruct Hc0 as [-> _ _ _ _]..|].
    apply applyVerdict_log in Ha as (_ & _ & _ & _ & E1). by destruct Hc0 as [-> _ _ _ _].
  - destruct (RequireReconciliation _ _ _ _ _ _) as [s' r] eqn:E.
    apply RequireReconciliation_cases in E as [->|[Hf _ _ _ _]]; [done|]. cbn. by rewrite Hf.
  - destruct (CompleteReconciliation _ _ _ _ _ _) as [s' [u|e]] eqn:E.
    + apply CompleteReconciliation_ok in E as (_ & [Hf _ _ _ _] & _). cbn. by rewrite Hf.
    + by apply CompleteReconciliation_err in E as ->.
  - destruct (ClaimFrontDeliveries _ _ _ _ _ _ _ _) as [s' r] eqn:E.
    apply ClaimFrontDeliveries_cases in E as [(e & _ & ->)|(ds & _ & [Hf _] & _)]; [done|].
    cbn. by rewrite Hf.
  - destruct (MarkFrontDelivered _ _ _ _) as [s' r] eqn:E.
    apply MarkFrontDelivered_step in E as [Hf _]. cbn. by rewrite Hf.
  - destruct (SavePendingCase _ _ _ _) as [s' r] eqn:E.
    by apply SavePendingCase_cases in E as [[-> _]|(_ & _ & nonce & _ & ->)].
  - destruct (MarkCaseAcceptedRemote _ _ _) as [s' r] eqn:E.
    by apply MarkCaseAcceptedRemote_cases in E
      as [(e & _ & ->)|(row & _ & Hr & _ & _ & [(Hs & ->)|(_ & -> & _)])].
  - destruct (SavePendingAdvice _ _ _ _) as [s' r] eqn:E.
    by apply SavePendingAdvice_cases in E as [[-> _]|(_ & Hn & nonce & _ & ->)].
  - destruct (MarkAdviceAcceptedRemote _ _ _) as [s' r] eqn:E.
    by apply MarkAdviceAcceptedRemote_cases in E
      as [(e & _ & ->)|(row & _ & Hr & _ & _ & [(Hs & ->)|(_ & -> & _)])].
Qed.

Lemma bind_keeps ev r ev' request now ret ttl cap env s :
  turns s !! ev = Some r -> ~ may_change ev r (OpBindTurn ev' request now ret ttl cap env) ->
  turns (BindDispatcherTurn tenant ev' request now ret ttl cap env s).1 !! ev = Some r.
Proof.
  intros Hr Hno. cbn in Hno. destruct (BindDispatcherTurn _ _ _ _ _ _ _ _ _) as [s' res] eqn:E.
  assert (Hx : unexpired now (turns s) !! ev = Some r) by (apply unexpired_keep; [done|lia]).
  apply BindDispatcherTurn_cases in E
    as [(e & _ & ->)|(b & _ & _ & [(r0 & Hr0 & _ & Hc)|(Hn & _ & token & nonce & _ & _ & E)])]; cbn.
  - done.
  - destruct Hc as [(_ & _ & E)|[(token & _ & P & L & E)|(result & _ & _ & _ & E)]]; rewrite E; try done.
    destruct (decide (ev' = ev)) as [->|]; [|by rewrite lookup_insert_ne].
    destruct Hno. right. rewrite Hx in Hr0. by injection Hr0 as <-.
  - rewrite E. rewrite lookup_insert_ne; [done|]. intros ->. congruence.
Qed.

(** C37: dispatcher turns are fenced.  Over any sequence of calls, a bound turn
    keeps its row (its request, its claim and, once completed, its result)
    until a call that is entitled to change it: the holder of its claim
    completing, releasing or abandoning it, a binding of the same event when no
    claim is running, or a binding at a time past the turn's retention.  A
    completed turn is only ever removed by expiry. *)
Theorem turn_changes_are_fenced ev r s ops :
  edge_reachable tenant s -> turns s !! ev = Some r ->
  (forall op, op ∈ ops -> ~ may_change ev r op) ->
  turns (run_ops tenant ops s) !! ev = Some r.
Proof.
  intros Hi%reachable_inv. revert s Hi. induction ops as [|op ops IH]; intros s Hi Hr Hops; [done|].
  rewrite run_ops_cons. apply IH; [by apply run_op_ok| |intros; apply Hops; by right].
  assert (Hop : ~ may_change ev r op) by (apply Hops; by left).
  pose proof (other_calls_keep_turns op s Hi) as Hother.
  destruct op as [| | | | | | | | |ev' request now ret ttl cap env|ev' request result at_ claim env
    |ev' request claim env|ev' request claim env]; try (by rewrite Hother); cbn [run_op].
  - by apply bind_keeps.
  - destruct (CompleteDispatcherTurn _ _ _ _ _ _ _ _) as [s' res] eqn:E.
    apply CompleteDispatcherTurn_cases in E
      as [(e & _ & ->)|(_ & r0 & Hr0 & _ & [(_ & _ & ->)|(Ho & nonce & _ & ->)])]; [done|done|]. cbn.
    destruct (decide (ev' = ev)) as [->|]; [|by rewrite lookup_insert_ne].
    destruct Hop. cbn. rewrite Hr in Hr0. by injection Hr0 as <-.
  - destruct (ReleaseDispatcherTurnClaim _ _ _ _ _ _) as [s' res] eqn:E.
    apply ReleaseDispatcherTurnClaim_cases in E as [(e & _ & ->)|(_ & r0 & Hr0 & _ & Ho & ->)]; [done|]. cbn.
    destruct (decide (ev' = ev)) as [->|]; [|by rewrite lookup_insert_ne].
    destruct Hop. cbn. rewrite Hr in Hr0. by injection Hr0 as <-.
  - destruct (AbandonDispatcherTurn _ _ _ _ _ _) as [s' res] eqn:E.
    apply AbandonDispatcherTurn_cases in E as [(e & _ & ->)|(_ & r0 & Hr0 & _ & Ho & ->)]; [done|]. cbn.
    destruct (decide (ev' = ev)) as [->|]; [|by rewrite lookup_delete_ne].
    destruct Hop. cbn. rewrite Hr in Hr0. by injection Hr0 as <-.
Qed.
End History.
