(* ===== verification/EdgeService.v ===== *)
(** * internal/edge/service.go: getting a spooled submission admitted

    [submitPending], [RetryCase], [submitPendingAdvice] and [RetryAdvice]: the
    stored wire is handed to the gateway and its receipt, checked against the
    stored row, is the only thing that makes a submission accepted_remote.
    The gateway is the Go interface [GatewayClient]: a parameter that answers
    any submission with any receipt or error. *)
From stdpp Require Import sorting relations.
From S2P Require Import Prelude GoText GoTime GoJson Sha256 DeliveryStream SqliteTx.
From S2P Require Import SspGuard SspEnvelope EdgeStore EdgeApply EdgeSpool EdgeInv EdgeFront EdgeTurns.
From S2P Require Import EdgeSystem EdgeTheorems.
Open Scope string_scope.
Open Scope Z_scope.
Open Scope snag_scope.

Record WorkloadIdentity := {
  wi_PrincipalID : string;
  wi_EdgeID : string;
  wi_EdgeGeneration : Z
}.

(** One call of the Go interface [GatewayClient]. *)
Class GatewayClient := Submit : WorkloadIdentity -> bytes -> result string EdgeReceipt.

Inductive ServiceError : Type :=
| ErrNotFound
| ErrNotCommitted
| ErrAlreadyPending
| ErrPendingAdviceConflict
| ErrService (what : string).

(** The identity, the author key and the envelope lifetime a [Service] and a
    [Finalizer] were configured with. *)
Record Service := {
  sv_edgeID : string;
  sv_edgeGeneration : Z;
  sv_principalID : string;
  sv_authorKeyID : string;
  sv_signer : Ed25519SigningKey;
  sv_ttl : Z
}.
Record Finalizer := {
  fz_principalID : string;
  fz_authorKeyID : string;
  fz_signer : Ed25519SigningKey;
  fz_ttl : Z
}.

Definition service_identity (sv : Service) : WorkloadIdentity :=
  {| wi_PrincipalID := sv_principalID sv; wi_EdgeID := sv_edgeID sv;
     wi_EdgeGeneration := sv_edgeGeneration sv |}.
Definition finalizer_identity (fz : Finalizer) : WorkloadIdentity :=
  {| wi_PrincipalID := fz_principalID fz; wi_EdgeID := ""; wi_EdgeGeneration := 0 |}.

(** [CaseSubmission] and [AdviceSubmission]: the same fields; the receipt is
    there exactly when the submission is accepted. *)
Record Submission := {
  sb_EnvelopeID : string;
  sb_CaseID : string;
  sb_Commitment : string;
  sb_AcceptedRemote : bool;
  sb_Receipt : option EdgeReceipt
}.

Definition no_submission : Submission :=
  {| sb_EnvelopeID := ""; sb_CaseID := ""; sb_Commitment := ""; sb_AcceptedRemote := false;
     sb_Receipt := None |}.
Definition accepted (r : EdgeReceipt) (b : Submission) : Submission :=
  {| sb_EnvelopeID := sb_EnvelopeID b; sb_CaseID := sb_CaseID b; sb_Commitment := sb_Commitment b;
     sb_AcceptedRemote := true; sb_Receipt := Some r |}.

Section Service.
Context `{AEAD} `{GatewayClient} (tenant : string).

Definition pending_submission (p : PendingCase) : Submission :=
  {| sb_EnvelopeID := ep_EnvelopeID p; sb_CaseID := ep_CaseID p; sb_Commitment := ep_Commitment p;
     sb_AcceptedRemote := false; sb_Receipt := None |}.

(** The store, the Go pair of a submission and an error, and what was handed
    to the gateway.  [now] is the clock reading after the gateway answered. *)
Definition submitPending (sv : Service) (p : PendingCase) (now : Z) (env : TxEnv) (s : EdgeDB)
  : EdgeDB * (Submission * option ServiceError) * list (WorkloadIdentity * bytes) :=
  let result := pending_submission p in
  let call := [(service_identity sv, ep_Raw p)] in
  match Submit (service_identity sv) (ep_Raw p) with
  | Err e => (s, (result, Some (ErrService "submit pending case")), call)
  | Ok receipt =>
      if rc_EnvelopeID receipt <>s? ep_EnvelopeID p
      then (s, (result, Some (ErrService "authority accepted different envelope")), call)
      else if rc_Commitment receipt <>s? ep_Commitment p
      then (s, (result, Some (ErrService "authority accepted different commitment")), call)
      else if is_empty (rc_AuthorityID receipt) || (rc_Revision receipt <=? 0)
      then (s, (result, Some (ErrService "gateway returned incomplete commit receipt")), call)
      else
        match MarkCaseAcceptedRemote
                {| ac_EnvelopeID := ep_EnvelopeID p; ac_CaseID := ep_CaseID p;
                   ac_Commitment := ep_Commitment p; ac_Receipt := receipt; ac_AcceptedAt := now |}
                env s with
        | (s', Err e) => (s', (result, Some (ErrService "mark accepted remote case")), call)
        | (s', Ok _) => (s', (accepted receipt result, None), call)
        end
  end.

Definition RetryCase (sv : Service) (caseID : string) (fault : option string) (now : Z) (env : TxEnv)
    (s : EdgeDB) : EdgeDB * (Submission * option ServiceError) * list (WorkloadIdentity * bytes) :=
  match LoadPendingCase tenant caseID fault s with
  | Err e => (s, (no_submission, Some (ErrService "load pending case")), [])
  | Ok None => (s, (no_submission, Some ErrNotFound), [])
  | Ok (Some p) => submitPending sv p now env s
  end.

Definition pending_advice_submission (p : PendingAdvice) : Submission :=
  {| sb_EnvelopeID := ea_AdviceID p; sb_CaseID := ea_CaseID p; sb_Commitment := ea_Commitment p;
     sb_AcceptedRemote := false; sb_Receipt := None |}.

Definition submitPendingAdvice (fz : Finalizer) (p : PendingAdvice) (now : Z) (env : TxEnv) (s : EdgeDB)
  : EdgeDB * (Submission * option ServiceError) * list (WorkloadIdentity * bytes) :=
  let result := pending_advice_submission p in
  let call := [(finalizer_identity fz, ea_Raw p)] in
  match Submit (finalizer_identity fz) (ea_Raw p) with
  | Err e => (s, (result, Some (ErrService "submit pending advice")), call)
  | Ok receipt =>
      if (rc_EnvelopeID receipt <>s? ea_AdviceID p) || (rc_Commitment receipt <>s? ea_Commitment p)
         || is_empty (rc_AuthorityID receipt) || (rc_Revision receipt <=? 0)
      then (s, (result, Some (ErrService "gateway returned mismatched or incomplete commit receipt")), call)
      else
        match MarkAdviceAcceptedRemote
                {| aa_AdviceID := ea_AdviceID p; aa_CaseID := ea_CaseID p;
                   aa_Commitment := ea_Commitment p; aa_Receipt := receipt; aa_AcceptedAt := now |}
                env s with
        | (s', Err e) => (s', (result, Some (ErrService "mark accepted remote advice")), call)
        | (s', Ok _) => (s', (accepted receipt result, None), call)
        end
  end.

Definition RetryAdvice (fz : Finalizer) (caseID : string) (fault : option string) (now : Z) (env : TxEnv)
    (s : EdgeDB) : EdgeDB * (Submission * option ServiceError) * list (WorkloadIdentity * bytes) :=
  match LoadPendingAdvice tenant caseID fault s with
  | Err e => (s, (no_submission, Some (ErrService "load pending advice")), [])
  | Ok None => (s, (no_submission, Some ErrNotFound), [])
  | Ok (Some p) => submitPendingAdvice fz p now env s
  end.

(** ** What a submission leaves *)

(** A stored row that carries the receipt [rc] of [p]. *)
Definition case_admitted (p : PendingCase) (rc : EdgeReceipt) (s : EdgeDB) : Prop :=
  rc_EnvelopeID rc = ep_EnvelopeID p /\ rc_Commitment rc = ep_Commitment p /\ 0 < rc_Revision rc /\
  exists row, pending_cases s !! ep_CaseID p = Some row /\ pc_state row = "accepted_remote" /\
    pc_envelope_id row = ep_EnvelopeID p /\ pc_commitment row = ep_Commitment p /\
    default "" (pc_authority_id row) = rc_AuthorityID rc /\
    default 0 (pc_authority_revision row) = rc_Revision rc.

Definition advice_admitted (p : PendingAdvice) (rc : EdgeReceipt) (s : EdgeDB) : Prop :=
  rc_EnvelopeID rc = ea_AdviceID p /\ rc_Commitment rc = ea_Commitment p /\ 0 < rc_Revision rc /\
  exists row, pending_advice s !! ea_CaseID p = Some row /\ pa_state row = "accepted_remote" /\
    pa_advice_id row = ea_AdviceID p /\ pa_commitment row = ea_Commitment p /\
    default "" (pa_authority_id row) = rc_AuthorityID rc /\
    default 0 (pa_authority_revision row) = rc_Revision rc.

Lemma submitPending_cases sv p now env s s' b err calls :
  submitPending sv p now env s = (s', (b, err), calls) ->
  calls = [(service_identity sv, ep_Raw p)] /\
  ((exists e, err = Some e /\ b = pending_submission p /\ s' = s) \/
   (exists rc, Submit (service_identity sv) (ep_Raw p) = Ok rc /\ err = None /\
      b = accepted rc (pending_submission p) /\ case_admitted p rc s')).
Proof.
  unfold submitPending. intros Hs. destruct (Submit _ _) as [rc|e]; [|injection Hs as <- <- <- <-; eauto 10].
  destruct (rc_EnvelopeID rc <>s? _) eqn:H1; [injection Hs as <- <- <- <-; eauto 10|].
  destruct (rc_Commitment rc <>s? _) eqn:H2; [injection Hs as <- <- <- <-; eauto 10|].
  destruct (_ || _) eqn:H3; [injection Hs as <- <- <- <-; eauto 10|].
  destruct (MarkCaseAcceptedRemote _ env s) as [s1 [[]|e]] eqn:Hm.
  - injection Hs as <- <- <- <-. split; [done|right]. exists rc. bools.
    apply marked_case in Hm as (row & Hr & E1 & E2 & E3 & E4 & E5). cbn in *.
    split_and!; [done..|]. unfold case_admitted. split_and!; [done..|lia|]. exists row. by split_and!.
  - apply MarkCaseAcceptedRemote_cases in Hm as [(? & _ & ->)|(? & ? & _)]; [|done].
    injection Hs as <- <- <- <-. eauto 10.
Qed.

Lemma submitPendingAdvice_cases fz p now env s s' b err calls :
  submitPendingAdvice fz p now env s = (s', (b, err), calls) ->
  calls = [(finalizer_identity fz, ea_Raw p)] /\
  ((exists e, err = Some e /\ b = pending_advice_submission p /\ s' = s) \/
   (exists rc, Submit (finalizer_identity fz) (ea_Raw p) = Ok rc /\ err = None /\
      b = accepted rc (pending_advice_submission p) /\ advice_admitted p rc s')).
Proof.
  unfold submitPendingAdvice. intros Hs.
  destruct (Submit _ _) as [rc|e]; [|injection Hs as <- <- <- <-; eauto 10].
  destruct (_ || _) eqn:H3; [injection Hs as <- <- <- <-; eauto 10|].
  destruct (MarkAdviceAcceptedRemote _ env s) as [s1 [[]|e]] eqn:Hm.
  - injection Hs as <- <- <- <-. split; [done|right]. exists rc. bools. split_and!; [done..|].
    unfold advice_admitted. split_and!; [done..|lia|].
    apply MarkAdviceAcceptedRemote_cases in Hm
      as [(? & ? & _)|(row & _ & Hr & E1 & E2 & [(_ & ->)|(E3 & -> & E4 & E5)])]; [done| |]; cbn in *.
    + eexists. rewrite lookup_insert_eq. split; [done|]. by split_and!.
    + exists row. by split_and!.
  - apply MarkAdviceAcceptedRemote_cases in Hm as [(? & _ & ->)|(? & ? & _)]; [|done].
    injection Hs as <- <- <- <-. eauto 10.
Qed.

(** A retry resubmits the saved bytes.  Once [SavePendingCase] returned
    without error, then after any further store calls (and whatever became of
    earlier submissions) [RetryCase] hands the gateway exactly one submission,
    under the service's identity and with the saved wire byte for byte.  It
    reports success exactly when the gateway's receipt names that envelope and
    commitment and the row durably carries it as accepted_remote; on any error
    the store is unchanged. *)
Theorem retry_resubmits_saved_case `{!AEADLaws} sv p env s s1 ops now env' s3 b err calls :
  edge_reachable tenant s -> four_digit_year (ep_CreatedAt p) = true ->
  SavePendingCase tenant p env s = (s1, Ok tt) ->
  RetryCase sv (ep_CaseID p) None now env' (run_ops tenant ops s1) = (s3, (b, err), calls) ->
  calls = [(service_identity sv, ep_Raw p)] /\
  ((exists e, err = Some e /\ b = pending_submission p /\ s3 = run_ops tenant ops s1) \/
   (exists rc, Submit (service_identity sv) (ep_Raw p) = Ok rc /\ err = None /\
      b = accepted rc (pending_submission p) /\ case_admitted p rc s3)).
Proof.
  intros Hr Hy Hsave Hretry.
  destruct (kept_case tenant p env s s1 ops Hr Hy Hsave) as (_ & _ & _ & Hload).
  unfold RetryCase in Hretry. rewrite Hload in Hretry. by apply submitPending_cases in Hretry.
Qed.

(** The same of the final advice of a case: a retry after a lost response
    resubmits the advice that was saved, under the dispatcher's identity, and
    never a second one. *)
Theorem retry_resubmits_saved_advice `{!AEADLaws} fz p env s s1 ops now env' s3 b err calls :
  edge_reachable tenant s -> four_digit_year (ea_CreatedAt p) = true ->
  SavePendingAdvice tenant p env s = (s1, Ok tt) ->
  RetryAdvice fz (ea_CaseID p) None now env' (run_ops tenant ops s1) = (s3, (b, err), calls) ->
  calls = [(finalizer_identity fz, ea_Raw p)] /\
  ((exists e, err = Some e /\ b = pending_advice_submission p /\ s3 = run_ops tenant ops s1) \/
   (exists rc, Submit (finalizer_identity fz) (ea_Raw p) = Ok rc /\ err = None /\
      b = accepted rc (pending_advice_submission p) /\ advice_admitted p rc s3)).
Proof.
  intros Hr Hy Hsave Hretry.
  destruct (kept_advice tenant p env s s1 ops Hr Hy Hsave) as (_ & _ & _ & Hload).
  unfold RetryAdvice in Hretry. rewrite Hload in Hretry. by apply submitPendingAdvice_cases in Hretry.
Qed.

(** C38: retrying an accepted case fails.  When the row of a case is
    accepted_remote since [t], every later [RetryCase] of it returns an error,
    whatever receipt the gateway answers: the replay check of
    [MarkCaseAcceptedRemote] compares the stored time of acceptance with the
    current clock reading.  A caller that lost the response of an accepted
    submission therefore never learns of it by retrying. *)
Theorem retry_of_accepted_case_fails sv caseID row t fault now env s s' b err calls :
  pending_cases s !! caseID = Some row -> pc_state row = "accepted_remote" ->
  pc_accepted_at row = Some (sqlTime t) ->
  four_digit_year t = true -> four_digit_year now = true -> now <> t ->
  RetryCase sv caseID fault now env s = (s', (b, err), calls) ->
  is_Some err /\ sb_AcceptedRemote b = false /\ s' = s.
Proof.
  intros Hrow Hst Hat Ht Hn Hne Hretry. unfold RetryCase in Hretry.
  destruct (LoadPendingCase _ _ _ _) as [[p|]|e] eqn:Hl; [|injection Hretry as <- <- <- _; eauto..].
  assert (Hid : ep_CaseID p = caseID).
  { unfold LoadPendingCase in Hl. destruct (blank _), fault; try done. rewrite Hrow in Hl. cbn in Hl.
    destruct (parseSQLTime _); [|done]. cbn in Hl. destruct (open_field _ _ _ _); [|done].
    by injection Hl as <-. }
  assert (Hmark : forall a, ac_CaseID a = caseID -> four_digit_year (ac_AcceptedAt a) = true ->
    ac_AcceptedAt a <> t -> exists e, MarkCaseAcceptedRemote a env s = (s, Err e)).
  { clear Hn Hne. intros a Ea Hn Hne. unfold MarkCaseAcceptedRemote. destruct (negb _); [eauto|].
    destruct (run_tx _ env s) as [s1 r1] eqn:Hm.
    pose proof (run_tx_cases _ _ _ _ _ Hm) as [(e & -> & ->)|(n & [] & -> & Hw)]; [eauto|exfalso].
    unfold markCaseWork in Hw. stx_inv. rewrite Ea, Hrow in Hw. stx_inv. rewrite Hst, String.eqb_refl in Hw.
    apply check_ok in Hw as [Hcmp _]. rewrite Hat in Hcmp. cbn [from_option id] in Hcmp. bools.
    match goal with E : sqlTime t = sqlTime _ |- _ =>
      pose proof (parse_sqlTime t Ht) as P1; pose proof (parse_sqlTime _ Hn) as P2;
      rewrite E, P2 in P1; congruence end. }
  unfold submitPending in Hretry. destruct (Submit _ _) as [rc|e]; [|injection Hretry as <- <- <- _; eauto].
  repeat (destruct (_ <>s? _); [injection Hretry as <- <- <- _; eauto|]).
  destruct (_ || _); [injection Hretry as <- <- <- _; eauto|].
  match type of Hretry with context [MarkCaseAcceptedRemote ?a _ _] =>
    destruct (Hmark a Hid Hn Hne) as [e He]; rewrite He in Hretry end.
  injection Hretry as <- <- <- _. eauto.
Qed.
End Service.
