(* ===== verification/EdgeExample.v ===== *)
(** * A worked edge store

    The concrete store the theorems about the edge are evaluated on: a case, its
    advice, a conflicting copy of the case, a pending submission and a
    dispatcher turn, with a toy AEAD that only frames its plaintext. *)
From stdpp Require Import sorting relations.
From S2P Require Import Authority AuthorityExample AuthoritySpec OutboxWorker.
From S2P Require Import Prelude GoText GoTime GoJson Sha256 DeliveryStream SqliteTx.
From S2P Require Import EdgeStore EdgeApply EdgeConsumer EdgeRecovery EdgeJetStream.
From S2P Require Import SspEnvelope EdgeSpool EdgeInv EdgeFront EdgeTurns EdgeSystem EdgeTheorems.
From S2P Require Import EdgeService.
Open Scope string_scope.
Open Scope Z_scope.
Open Scope snag_scope.

#[local] Instance toy_aead : AEAD := {| Seal := fun _ plain _ => "#" ++ plain;
  Open := fun _ c _ => strip_prefix "#" c |}.
#[local] Instance toy_aead_laws : AEADLaws.
Proof. intros nonce plain a. apply strip_prefix_app. Qed.

Definition quiet : TxEnv := {| io := fun _ => None; random := fun _ _ => "x"%char |}.
Definition ex_now : Z := 1785240000 * second.
Definition ex_id : EdgeIdentity := {| ei_TenantID := "acme"; ei_EdgeID := "edge-1"; ei_Generation := 2 |}.
Definition ex_sha (c : string) : string :=
  "sha256:" ++ c ++ "bcdef0123456789abcdef0123456789abcdef0123456789abcdef0123456789".

Definition ex_delivery (seq : Z) (raw : string) : JournalDelivery :=
  {| jd_Stream := "SNAGLINE"; jd_Sequence := seq; jd_DeliverySeq := seq; jd_TenantID := "acme";
     jd_EdgeID := "edge-1"; jd_EdgeGeneration := 2; jd_Subject := edgeDeliverySubject ex_id;
     jd_Raw := raw |}.

Definition ex_case : Case :=
  {| c_CaseID := "case-1"; c_IssuerEdgeID := "edge-1"; c_Domain := "payments"; c_Summary := "stuck";
     c_ContextManifest := "none"; c_IssuerEdgeGeneration := 2; c_RouteKind := "domain";
     c_RouteToken := RoutingToken "payments"; c_SourceToken := EdgeRoutingToken "edge-1" 2;
     c_RoutingEpoch := 4; c_RegistryRevision := 1; c_RegistryHash := ex_sha "a";
     c_ExpiresAt := ex_now + hour |}.

Definition ex_case_projection (commitment : string) : VerifiedProjection :=
  {| p_EnvelopeID := "env-1"; p_Commitment := commitment; p_Family := FamilyCase;
     p_Case := Some ex_case; p_Advice := None |}.

Definition ex_advice_projection : VerifiedProjection :=
  {| p_EnvelopeID := "env-2"; p_Commitment := ex_sha "c"; p_Family := FamilyAdvice; p_Case := None;
     p_Advice := Some {| a_AdviceID := "advice-1"; a_CaseID := "case-1";
       a_CaseCommitment := ex_sha "b"; a_Text := "restart it"; a_IssuerEdgeID := "edge-1";
       a_RouteKind := "edge"; a_RouteToken := EdgeRoutingToken "edge-1" 2;
       a_IssuerEdgeGeneration := 2; a_RoutingEpoch := 4; a_RegistryRevision := 1;
       a_RegistryHash := ex_sha "a"; a_ExpiresAt := ex_now + hour |} |}.

Definition accept (seq : Z) (raw : string) (p : VerifiedProjection) : EdgeOp :=
  OpApply (ex_delivery seq raw) VerdictAccepted "" (Some p) ex_now false quiet.

(** The case and its advice; then a second envelope body under the case's
    identity. *)
Definition ex_ops : list EdgeOp :=
  [accept 1 "{case}" (ex_case_projection (ex_sha "b")); accept 2 "{advice}" ex_advice_projection].
Definition ex_conflict : EdgeOp := accept 3 "{other}" (ex_case_projection (ex_sha "d")).

Definition ex_store : EdgeDB := run_ops "acme" ex_ops empty_edge.
Definition ex_quarantined : EdgeDB := run_ops "acme" (ex_ops ++ [ex_conflict])%list empty_edge.

Lemma ex_store_reachable : edge_reachable "acme" ex_store.
Proof. by exists ex_ops. Qed.
Lemma ex_store_inv : edge_inv ex_store.
Proof. apply (reachable_inv "acme"), ex_store_reachable. Qed.
Lemma ex_quarantined_reachable : edge_reachable "acme" ex_quarantined.
Proof. by exists (ex_ops ++ [ex_conflict])%list. Qed.

Example ex_store_log : last_of ex_store (key_of ex_id) = 2 /\ size (front_outbox ex_store) = 2%nat.
Proof. by vm_compute. Qed.

(** A call whose result is known by evaluation. *)
Lemma run_pair {S R} (x : S * R) r : x.2 = r -> x = (x.1, r).
Proof. by destruct x; cbn; intros ->. Qed.

(** A call equals its recorded outcome. *)
Ltac by_run x := unfold x; first [apply surjective_pairing | apply run_pair; vm_compute; reflexivity].

(** ** Applying deliveries *)
Definition ex_reject : EdgeDB * result string string :=
  applyVerified "acme" (ex_delivery 3 "{junk}") VerdictRejected "bad" None ex_now false quiet ex_store.

Lemma apply_appends_once_witness :
  edge_log_inv ex_reject.1 /\ last_of ex_reject.1 (key_of ex_id) = 3.
Proof.
  split; [|by vm_compute].
  refine (proj1 (apply_appends_once "acme" (ex_delivery 3 "{junk}") VerdictRejected "bad" None ex_now
    false quiet ex_store ex_reject.1 ex_reject.2 (ei_log _ ex_store_inv) _)). by_run ex_reject.
Defined.

Definition ex_halted : EdgeDB :=
  run_op "acme" (OpRequire ex_id 5 "operator" ex_now quiet) ex_store.

Lemma ex_halted_inv : edge_inv ex_halted.
Proof. exact (proj1 (run_op_ok "acme" (OpRequire ex_id 5 "operator" ex_now quiet) _ ex_store_inv)). Qed.

Definition ex_refused : EdgeDB * result string string :=
  applyVerified "acme" (ex_delivery 3 "{junk}") VerdictRejected "bad" None ex_now false quiet ex_halted.

Lemma halted_generation_fails_closed_witness :
  ex_refused.2 = Ok ApplyReconciliationRequired /\ ex_refused.1 = set_delivery_state
    (delivery_state ex_refused.1) ex_halted.
Proof.
  split; [by vm_compute|].
  refine (proj1 (halted_generation_fails_closed "acme" (ex_delivery 3 "{junk}") VerdictRejected "bad"
    None ex_now quiet ex_halted ex_refused.1 ApplyReconciliationRequired (ei_log _ ex_halted_inv) _ _));
    [by vm_compute|by_run ex_refused].
Defined.

(** ** The consumer *)
Definition ex_verify : Verifier := fun d => Err (Permanent "bad").
Definition ex_meta (seq : Z) : JournalMetadata :=
  {| jm_Stream := "SNAGLINE"; jm_Sequence := seq; jm_DeliverySeq := seq; jm_TenantID := "acme";
     jm_EdgeID := "edge-1"; jm_EdgeGeneration := 2 |}.
Definition ex_msg (seq : Z) (raw : string) : JournalMessage :=
  {| msg_Metadata := Ok (ex_meta seq); msg_Subject := edgeDeliverySubject ex_id; msg_Data := raw;
     msg_DoubleAck := None; msg_Nak := None |}.
Definition ex_rv : ReconcileEnv :=
  {| rv_state1 := None; rv_verify := fun _ => ex_verify; rv_tx := fun _ => quiet; rv_state2 := None;
     rv_complete := None |}.
Definition ex_batch : Reconciler := fun _ after =>
  Ok {| rb_Deliveries := map (fun q => ex_delivery q "{junk}") [3; 4; 5]; rb_HighWatermark := 5;
        rb_CompleteThrough := 5 |}.
Definition ex_consumer : Consumer := {| co_db := ex_halted; co_halted := true |}.
Definition ex_resumed : Consumer * result string ReconcileResult :=
  Reconcile (H0 := ex_batch) "acme" ex_id ex_rv ex_now ex_consumer.

Lemma reconcile_resumes_caught_up_witness :
  ex_resumed.2 = Ok {| rr_Applied := 3; rr_HighWatermark := 5; rr_CompleteThrough := 5;
                       rr_Resumed := true |} /\
  edge_log_inv (co_db ex_resumed.1).
Proof.
  split; [by vm_compute|].
  refine (proj1 (reconcile_resumes_caught_up (H0 := ex_batch) "acme" ex_id ex_rv ex_now ex_consumer
    ex_resumed.1 ex_resumed.2 (ei_log _ ex_halted_inv) _)). by_run ex_resumed.
Defined.

Definition ex_processed : Consumer * result CErr string * list CarrierCall :=
  Process "acme" ex_id ex_verify (ex_msg 3 "{junk}") ex_now quiet
    {| co_db := ex_store; co_halted := false |}.

Lemma acknowledged_means_durable_witness :
  CallAck ∈ ex_processed.2 /\
  (recorded (co_db ex_processed.1.1) (journal_of (ex_meta 3) (ex_msg 3 "{junk}")) \/
   mode_of (co_db ex_processed.1.1) (key_of ex_id) = DeliveryModeReconciliationRequired).
Proof.
  assert (Hack : CallAck ∈ ex_processed.2) by (vm_compute; left).
  split; [exact Hack|].
  refine (proj1 (acknowledged_means_durable "acme" ex_id ex_verify (ex_meta 3) (ex_msg 3 "{junk}")
    ex_now quiet {| co_db := ex_store; co_halted := false |} ex_processed.1.1 ex_processed.1.2
    ex_processed.2 (ei_log _ ex_store_inv) eq_refl _) Hack).
  unfold ex_processed. by destruct (Process _ _ _ _ _ _ _) as [[]].
Defined.

(** The verifier of the conflicting copy. *)
Definition ex_conflict_verify : Verifier := fun d => Ok (Some (ex_case_projection (ex_sha "d"))).
Definition ex_quarantine : Consumer * result CErr string :=
  Handle "acme" ex_id ex_conflict_verify (ex_msg 3 "{other}") ex_now quiet
    {| co_db := ex_store; co_halted := false |}.

Lemma quarantine_halts_only_in_memory_witness :
  co_halted ex_quarantine.1 = true /\
  NewJournalConsumer ex_id None (co_db ex_quarantine.1)
  = Ok {| co_db := co_db ex_quarantine.1; co_halted := false |}.
Proof.
  refine (let p := quarantine_halts_only_in_memory "acme" ex_id ex_conflict_verify (ex_msg 3 "{other}")
    ex_now quiet {| co_db := ex_store; co_halted := false |} ex_quarantine.1 (ei_log _ ex_store_inv) _ _ _
    in conj (proj1 p) (proj2 (proj2 (proj2 p)))); [by vm_compute|by vm_compute|].
  by_run ex_quarantine.
Defined.

(** The worked ledger of the authority, followed from nothing. *)
Definition ex_new : EdgeDB := run_op "acme" (OpRequire ex_id 0 "new" ex_now quiet) empty_edge.
Definition ex_new_consumer : Consumer := {| co_db := ex_new; co_halted := true |}.
Definition ex_caught_up : Consumer * result string ReconcileResult :=
  Reconcile (H0 := authority_reconciler "spiffe-1" 10 AuthorityExample.ex_db3) "acme" ex_id ex_rv ex_now
    ex_new_consumer.

Lemma ex_new_inv : edge_inv ex_new.
Proof. exact (proj1 (run_op_ok "acme" (OpRequire ex_id 0 "new" ex_now quiet) _ edge_inv_empty)). Qed.

Lemma ex_new_follows : follows AuthorityExample.ex_db3 ex_new.
Proof. intros key seq row Hrow. by vm_compute in Hrow. Qed.

Lemma edge_follows_authority_witness :
  ex_caught_up.2 = Ok {| rr_Applied := 2; rr_HighWatermark := 2; rr_CompleteThrough := 2;
                         rr_Resumed := true |} /\
  follows AuthorityExample.ex_db3 (co_db ex_caught_up.1).
Proof.
  split; [by vm_compute|].
  refine (proj1 (proj2 (edge_follows_authority "acme" ex_id AuthorityExample.ex_db3 "spiffe-1" 10
    ex_new_consumer AuthorityExample.ex_run (ei_log _ ex_new_inv) ex_new_follows) ex_rv ex_now
    ex_caught_up.1 ex_caught_up.2 _)).
  by_run ex_caught_up.
Defined.

(** ** Fronts *)
Definition ex_claim : EdgeDB * result string (list FrontDelivery) :=
  ClaimFrontDeliveries "acme" "cli" "terminal" minute 10 ex_now quiet ex_store.
Definition ex_claimed : list FrontDelivery :=
  match ex_claim.2 with Ok ds => ds | Err _ => [] end.

Lemma front_claims_exclusive_witness :
  map fd_Text ex_claimed = ["restart it"] /\ NoDup (fd_AdviceID <$> ex_claimed).
Proof.
  split; [by vm_compute|].
  refine (proj1 (proj2 (front_claims_exclusive "acme" "cli" "terminal" minute 10 ex_now quiet ex_store
    ex_claim.1 ex_claimed _))).
  unfold ex_claimed, ex_claim. apply run_pair. by vm_compute.
Defined.

Definition ex_receipt : FrontReceipt :=
  {| fp_Front := "cli"; fp_MessageID := front_message "cli" "advice-1";
     fp_ClaimToken := hex (random_bytes (fun _ => "x"%char) 32); fp_ReceiptID := "shown-1" |}.
Definition ex_leased : EdgeDB :=
  run_op "acme" (OpClaimFronts "cli" "terminal" minute 10 ex_now quiet) ex_store.
Definition ex_marked : EdgeDB * result string string :=
  MarkFrontDelivered ex_receipt ex_now quiet ex_leased.

Lemma ex_leased_inv : edge_inv ex_leased.
Proof.
  exact (proj1 (run_op_ok "acme" (OpClaimFronts "cli" "terminal" minute 10 ex_now quiet) _ ex_store_inv)).
Qed.

Lemma front_receipt_recorded_once_witness :
  exists k row, front_outbox ex_leased !! ("cli", k) = Some row /\
    fr_message_id row = front_message "cli" "advice-1".
Proof.
  refine (let 'ex_intro _ k (ex_intro _ row (conj H1 (conj H2 _))) :=
    front_receipt_recorded_once ex_receipt ex_now quiet ex_leased ex_marked.1 DeliveryRecorded
      (ei_proj _ ex_leased_inv) _ in ex_intro _ k (ex_intro _ row (conj H1 H2))).
  by_run ex_marked.
Defined.

Definition ex_front_row : FrontRow :=
  leased_front "terminal" (ex_now + 500000000) "token" (front_row "cli" "advice-1" ex_now).

Lemma live_lease_treated_as_expired_witness :
  ex_now < ex_now + 500000000 /\ front_free ex_now ex_front_row = true.
Proof. apply (live_lease_treated_as_expired ex_now 500000000 ex_front_row); by vm_compute. Defined.

(** ** History *)
Lemma edge_history_append_only_witness :
  edge_inv ex_store /\ edge_grows ex_store (run_ops "acme" [ex_conflict] ex_store).
Proof.
  pose proof (edge_history_append_only "acme" ex_store ex_store_reachable) as Hh.
  exact (conj (proj1 Hh) (proj2 Hh [ex_conflict])).
Defined.

Definition ex_identity : IdentityRow :=
  quarantine_identity (ex_sha "d") 3 ex_now (fresh_identity (ex_sha "b") 1 ex_now).

Lemma quarantine_is_final_witness :
  exists j, identities (run_ops "acme" ex_ops ex_quarantined) !! "env-1" = Some j /\
    ir_state j = "quarantined".
Proof.
  refine (let 'ex_intro _ j (conj H1 (conj H2 _)) :=
    proj1 (quarantine_is_final "acme" ex_quarantined "env-1" ex_identity ex_ops
      ex_quarantined_reachable _ _) in ex_intro _ j (conj H1 H2)); by vm_compute.
Defined.

(** ** Spools *)
Definition ex_pending : PendingCase :=
  {| ep_EnvelopeID := "env-9"; ep_CaseID := "case-9"; ep_Commitment := ex_sha "e"; ep_Raw := "{wire}";
     ep_CreatedAt := ex_now |}.
Definition ex_saved : EdgeDB * result string unit := SavePendingCase "acme" ex_pending quiet ex_store.

Lemma pending_case_wire_kept_witness :
  LoadPendingCase "acme" "case-9" None (run_ops "acme" [ex_conflict] ex_saved.1) = Ok (Some ex_pending).
Proof.
  refine (proj1 (pending_case_wire_kept "acme" ex_pending quiet ex_store ex_saved.1 [ex_conflict]
    ex_store_reachable _ _)); [by vm_compute|by_run ex_saved].
Defined.

Definition ex_pending_advice : PendingAdvice :=
  {| ea_AdviceID := "advice-9"; ea_CaseID := "case-9"; ea_CaseCommitment := ex_sha "e";
     ea_Commitment := ex_sha "f"; ea_Raw := "{wire}"; ea_CreatedAt := ex_now |}.
Definition ex_saved_advice : EdgeDB * result string unit :=
  SavePendingAdvice "acme" ex_pending_advice quiet ex_store.

Lemma pending_advice_wire_kept_witness :
  LoadPendingAdvice "acme" "case-9" None (run_ops "acme" [ex_conflict] ex_saved_advice.1)
  = Ok (Some ex_pending_advice).
Proof.
  refine (proj1 (pending_advice_wire_kept "acme" ex_pending_advice quiet ex_store ex_saved_advice.1
    [ex_conflict] ex_store_reachable _ _)); [by vm_compute|by_run ex_saved_advice].
Defined.

Definition ex_receipt9 : AcceptedRemoteCase :=
  {| ac_EnvelopeID := "env-9"; ac_CaseID := "case-9"; ac_Commitment := ex_sha "e";
     ac_Receipt := {| rc_AuthorityID := "authority"; rc_Revision := 7; rc_EnvelopeID := "env-9";
                      rc_Commitment := ex_sha "e" |}; ac_AcceptedAt := ex_now |}.
Definition ex_spooled : EdgeDB := run_ops "acme" (ex_ops ++ [OpSaveCase ex_pending quiet])%list empty_edge.
Definition ex_accepted : EdgeDB * result string unit := MarkCaseAcceptedRemote ex_receipt9 quiet ex_spooled.

Lemma accepted_remote_is_final_witness :
  exists row, pending_cases (run_ops "acme" [ex_conflict] ex_accepted.1) !! "case-9" = Some row /\
    case_receipted ex_receipt9 row.
Proof.
  refine (proj1 (accepted_remote_is_final "acme" ex_receipt9 quiet ex_spooled ex_accepted.1 [ex_conflict]
    _ _)); [by exists (ex_ops ++ [OpSaveCase ex_pending quiet])%list|by_run ex_accepted].
Defined.

(** ** Dispatcher turns *)
Definition ex_event : string := "abcdef0123456789abcdef0123456789abcdef0123456789abcdef0123456789".
Definition ex_event' : string := "0bcdef0123456789abcdef0123456789abcdef0123456789abcdef0123456789".
Definition ex_bound : EdgeDB * result string DispatcherTurnBinding :=
  BindDispatcherTurn "acme" ex_event "{turn}" ex_now hour minute 4 quiet empty_edge.

Lemma turn_binding_exact_witness :
  exists r, turns ex_bound.1 !! ex_event = Some r /\ request_is "acme" ex_event "{turn}" r.
Proof.
  refine (let 'ex_intro _ r (conj H1 (conj H2 _)) :=
    turn_binding_exact "acme" ex_event "{turn}" ex_now hour minute 4 quiet empty_edge ex_bound.1
      (claimed_binding (hex (random_bytes (fun _ => "x"%char) 32))) _ in ex_intro _ r (conj H1 H2)).
  by_run ex_bound.
Defined.

Definition ex_turns : EdgeDB :=
  run_ops "acme" [OpBindTurn ex_event "{turn}" ex_now hour minute 4 quiet] empty_edge.
Definition ex_turn : TurnRow :=
  new_turn (random_bytes (fun _ => "x"%char) 12 ++ "#{turn}") ex_now hour minute
    (hex (random_bytes (fun _ => "x"%char) 32)).

Lemma turn_changes_are_fenced_witness :
  turns (run_ops "acme" [OpBindTurn ex_event "{turn}" (ex_now + second) hour minute 4 quiet;
                         OpAbandonTurn ex_event "{turn}" ex_event' quiet] ex_turns) !! ex_event
  = Some ex_turn.
Proof.
  apply (turn_changes_are_fenced "acme" ex_event ex_turn ex_turns); [by eexists|by vm_compute|].
  intros op [->|[->|[]%not_elem_of_nil]%elem_of_cons]%elem_of_cons.
  - intros [Hx|(_ & _ & Hx)]; [by vm_compute in Hx|]. apply Hx. by vm_compute.
  - intros [_ Hx]. by vm_compute in Hx.
Defined.

(** ** The carrier *)
Definition ex_pull_request : ConsumerRequest :=
  {| cr_Durable := "edge-1-2"; cr_Destination := DestinationEdge; cr_TenantID := "acme";
     cr_DomainID := ""; cr_EdgeID := "edge-1"; cr_EdgeGeneration := 2; cr_AckWait := 0;
     cr_MaxDeliver := 0 |}.
Definition ex_pull_spec : ConsumerConfig :=
  Eval vm_compute in match EnsureConsumer ex_pull_request with
                     | Ok spec => spec
                     | Err _ => {| cc_stream := ""; cc_name := ""; cc_durable := "";
                                   cc_deliver_policy := ""; cc_ack_policy := "";
                                   cc_replay_policy := ""; cc_filter := ""; cc_ack_wait := 0;
                                   cc_max_deliver := 0 |}
                     end.
Definition ex_pull : PullConsumer :=
  {| pc_identity := ex_id; pc_spec := ex_pull_spec; pc_fetchWait := defaultJetStreamFetchWait |}.

Lemma pull_consumer_is_scoped_witness :
  NewJetStreamPullConsumer ex_id ex_pull_request 0 None None = Ok ex_pull /\
  cc_filter ex_pull_spec = edgeDeliverySubject ex_id.
Proof.
  assert (Hn : NewJetStreamPullConsumer ex_id ex_pull_request 0 None None = Ok ex_pull)
    by (vm_compute; reflexivity).
  split; [exact Hn|].
  refine (proj1 (proj2 (proj2 (proj2 (pull_consumer_is_scoped ex_id ex_pull_request 0 None None ex_pull _ Hn))))).
  by cbn.
Defined.

Lemma wake_carries_the_log_entry_witness :
  exists r subject, OutboxWorker.publishRequest OutboxWorker.sample_item = Ok r /\
    SubjectFor r = Ok subject /\
    js_data (delivered_wake (message_for subject r) 9) = "{}".
Proof.
  destruct (OutboxWorker.publishRequest OutboxWorker.sample_item) as [r|e] eqn:Hr;
    [|exfalso; revert Hr; vm_compute; discriminate].
  assert (Hd : Destination r = DestinationEdge) by (revert Hr; vm_compute; by intros [= <-]).
  destruct (wake_carries_the_log_entry OutboxWorker.sample_item r 9 Hr Hd) as (subject & Hs & Hdata & _).
  1-4: by vm_compute.
  by exists r, subject.
Defined.

(** The third delivery of the log as a wake. *)
Definition ex_wake : JetStreamMsg :=
  {| js_metadata := Ok (Some (StreamName, 9)); js_subject := edgeDeliverySubject ex_id;
     js_data := "{junk}"; js_DoubleAck := None; js_Nak := None;
     js_headers := [(HeaderOutboxID, "ob-3"); (HeaderFactSequence, "7");
                    (HeaderDeliverySequence, "3"); (HeaderEdgeGeneration, "2")] |}.
Definition ex_handled : Consumer * result HErr string * list CarrierCall :=
  HandleNext "acme" ex_pull ex_verify (FetchedMsg ex_wake) ex_now quiet
    {| co_db := ex_store; co_halted := false |}.

Lemma handle_next_acks_durable_witness :
  CallAck ∈ ex_handled.2 /\ exists msg m, FetchedMsg ex_wake = FetchedMsg msg /\
    Metadata ex_id msg = Ok m /\
    (recorded (co_db ex_handled.1.1) (journal_of m (journal_message ex_id msg)) \/
     mode_of (co_db ex_handled.1.1) (key_of ex_id) = DeliveryModeReconciliationRequired).
Proof.
  assert (Hack : CallAck ∈ ex_handled.2) by (vm_compute; left).
  split; [exact Hack|].
  refine (proj1 (handle_next_acks_durable "acme" ex_pull ex_verify (FetchedMsg ex_wake) ex_now quiet
    {| co_db := ex_store; co_halted := false |} ex_handled.1.1 ex_handled.1.2 ex_handled.2
    (ei_log _ ex_store_inv) _) Hack).
  unfold ex_handled. by destruct (HandleNext _ _ _ _ _ _ _) as [[]].
Defined.

(** ** Submissions *)
Definition ex_service : Service :=
  {| sv_edgeID := "edge-1"; sv_edgeGeneration := 2; sv_principalID := "edge-principal";
     sv_authorKeyID := "edge-key"; sv_signer := mkSigningKey "key"; sv_ttl := hour |}.
Definition ex_finalizer : Finalizer := 
  {| fz_principalID := "dispatcher"; fz_authorKeyID := "advice-key"; fz_signer := mkSigningKey "key"; fz_ttl := hour |}.

(** A gateway that admits every submission of the two pending envelopes. *)
#[local] Instance toy_gateway : GatewayClient := fun id raw =>
  if wi_PrincipalID id =s? "dispatcher" then
    Ok {| rc_AuthorityID := "authority"; rc_Revision := 8; rc_EnvelopeID := "advice-9";
          rc_Commitment := ex_sha "f" |}
  else
    Ok {| rc_AuthorityID := "authority"; rc_Revision := 7; rc_EnvelopeID := "env-9";
          rc_Commitment := ex_sha "e" |}.

Definition ex_retried := RetryCase "acme" ex_service "case-9" None ex_now quiet
  (run_ops "acme" [ex_conflict] ex_saved.1).

Lemma retry_resubmits_saved_case_witness :
  ex_retried.2 = [(service_identity ex_service, "{wire}")] /\ ex_retried.1.2.2 = None.
Proof.
  split; [|by vm_compute].
  refine (proj1 (retry_resubmits_saved_case "acme" ex_service ex_pending quiet ex_store ex_saved.1
    [ex_conflict] ex_now quiet ex_retried.1.1 ex_retried.1.2.1 ex_retried.1.2.2 ex_retried.2
    ex_store_reachable _ _ _)); [by vm_compute|by_run ex_saved|].
  change (ep_CaseID ex_pending) with "case-9". unfold ex_retried. by destruct (RetryCase _ _ _ _ _ _ _) as [[? []]].
Defined.

Definition ex_retried_advice := RetryAdvice "acme" ex_finalizer "case-9" None ex_now quiet
  (run_ops "acme" [ex_conflict] ex_saved_advice.1).

Lemma retry_resubmits_saved_advice_witness :
  ex_retried_advice.2 = [(finalizer_identity ex_finalizer, "{wire}")] /\
  ex_retried_advice.1.2.2 = None.
Proof.
  split; [|by vm_compute].
  refine (proj1 (retry_resubmits_saved_advice "acme" ex_finalizer ex_pending_advice quiet ex_store
    ex_saved_advice.1 [ex_conflict] ex_now quiet ex_retried_advice.1.1 ex_retried_advice.1.2.1
    ex_retried_advice.1.2.2 ex_retried_advice.2
    ex_store_reachable _ _ _)); [by vm_compute|by_run ex_saved_advice|].
  change (ea_CaseID ex_pending_advice) with "case-9". unfold ex_retried_advice.
  by destruct (RetryAdvice _ _ _ _ _ _ _) as [[? []]].
Defined.

(** A second later the accepted case is retried. *)
Definition ex_again := RetryCase "acme" ex_service "case-9" None (ex_now + second) quiet ex_accepted.1.
Definition ex_accepted_row : PendingCaseRow :=
  Eval vm_compute in match pending_cases ex_accepted.1 !! "case-9" with
                     | Some r => r
                     | None => pending_case_row ex_pending ""
                     end.

Lemma retry_of_accepted_case_fails_witness :
  is_Some ex_again.1.2.2 /\ sb_AcceptedRemote ex_again.1.2.1 = false /\ ex_again.1.1 = ex_accepted.1.
Proof.
  refine (retry_of_accepted_case_fails "acme" ex_service "case-9" ex_accepted_row ex_now None
    (ex_now + second) quiet ex_accepted.1 ex_again.1.1 ex_again.1.2.1 ex_again.1.2.2 ex_again.2
    _ _ _ _ _ _ _); by vm_compute.
Defined.
