(* ===== verification/GoJsonWire.v ===== *)
(** * encoding/json on the wire: structs, bytes and instants of a response

    The server of control writes a struct with [json.Encoder]; the client reads
    one value from a bounded reader with [DisallowUnknownFields] and refuses
    anything after it.  This file has the texts of the field types, the strict
    decoding of an object into a struct, and the facts that what is printed
    reads back and that a cut text reads as nothing. *)
From stdpp Require Import gmap.
From S2P Require Import Prelude GoText GoStrconv GoTime GoJson GoJsonRead GoBase64 GoUtf8 GoJsonText SspGuard SspBody SspRegistry SspEnvelope SspStrip SspTheorems SspSign.
Open Scope string_scope.
Open Scope Z_scope.
Open Scope snag_scope.

(** ** Member names: encoding/json matches up to simple case folding: U+017F
    folds to S and U+212A to K *)
Definition fold_rune (r : option Z) : option Z :=
  match r with
  | Some c => if (97 <=? c) && (c <=? 122) then Some (c - 32) else if c =? 0x17F then Some 83
              else if c =? 0x212A then Some 75 else Some c
  | None => None
  end.
Definition folds (key name : string) : bool :=
  bool_decide (map fold_rune (decode key) = map fold_rune (decode name)).

(** ** base64.StdEncoding *)
Definition std_char (v : Z) : ascii :=
  of_code (if v <? 26 then 65 + v else if v <? 52 then 71 + v else if v <? 62 then v - 4
           else if v =? 62 then 43 else 47).
Definition std_value (a : ascii) : option Z :=
  let c := code a in
  if (65 <=? c) && (c <=? 90) then Some (c - 65)
  else if (97 <=? c) && (c <=? 122) then Some (c - 71)
  else if (48 <=? c) && (c <=? 57) then Some (c + 4)
  else if c =? 43 then Some 62
  else if c =? 47 then Some 63
  else None.

Fixpoint std_encode (s : string) : string :=
  match s with
  | String a (String b (String c r)) =>
      let v := 65536 * code a + 256 * code b + code c in
      String (std_char (v / 262144)) (String (std_char (v / 4096 mod 64))
        (String (std_char (v / 64 mod 64)) (String (std_char (v mod 64)) (std_encode r))))
  | String a (String b EmptyString) =>
      let v := 1024 * code a + 4 * code b in
      String (std_char (v / 4096)) (String (std_char (v / 64 mod 64)) (String (std_char (v mod 64)) "="))
  | String a EmptyString =>
      let v := 16 * code a in
      String (std_char (v / 64)) (String (std_char (v mod 64)) "==")
  | EmptyString => ""
  end.

Fixpoint std_quanta (s : string) : option string :=
  match s with
  | EmptyString => Some ""
  | String a (String b (String c (String d r))) =>
      x ← std_value a;
      y ← std_value b;
      let v := 262144 * x + 4096 * y in
      if d =c? "=" then
        if negb (is_empty r) then None
        else if c =c? "=" then Some (String (of_code (v / 65536)) "")
        else z ← std_value c;
             let v := v + 64 * z in
             Some (String (of_code (v / 65536)) (String (of_code (v / 256 mod 256)) ""))
      else
        z ← std_value c;
        w ← std_value d;
        let v := v + 64 * z + w in
        t ← std_quanta r;
        Some (String (of_code (v / 65536)) (String (of_code (v / 256 mod 256)) (String (of_code (v mod 256)) t)))
  | _ => None
  end.
Definition std_decode (s : string) : option string := std_quanta (drop_line_ends s).

Example std_example : std_encode "foob" = "Zm9vYg==" /\ std_decode "Zm9vYg==" = Some "foob" /\ std_decode "Zm9vYg" = None.
Proof. done. Qed.

(** ** Texts of the fields of a response struct *)
Definition json_object (l : list (string * string)) : string :=
  "{" ++ join "," (map (fun p => marshal_member p.1 p.2) l) ++ "}".
Definition json_array (l : list string) : string := "[" ++ join "," l ++ "]".
Definition json_bytes (b : bytes) : string := json_string (std_encode b).
Definition json_time (off t : Z) : string := json_string (format_zone off t).
(** [json.Encoder.Encode]. *)
Definition encoded (text : string) : bytes := text ++ String (of_code 10) "".

(** ** Decoding into a struct

    A member is an element [(raw, value)] here; unknown names are refused; the
    later of two values of a field wins, and null leaves it as it is. *)
Definition decode_raw {A} (decode : A -> json -> option A) (cur : A) (m : string * json) : option A := decode cur m.2.

Definition wire_field {A} (decode : A -> string * json -> option A) (zero : A) (l : members) (name : string) : option A :=
  foldl (fun acc m => cur ← acc; if folds m.1.1 name then decode cur (m.1.2, m.2) else Some cur) (Some zero) l.

Definition known_names (names : list string) (l : members) : bool :=
  forallb (fun m => existsb (folds m.1.1) names) l.

Definition wire_struct {R} (names : list string) (decode : members -> option R) (v : json) : option R :=
  match v with
  | JObject l => if known_names names l then decode l else None
  | JNull => decode []
  | _ => None
  end.

Definition wire_structs {R} (decode : json -> option R) (_ : list R) (v : json) : option (list R) :=
  match v with
  | JArray l => mapM (fun m => decode m.2) l
  | JNull => Some []
  | _ => None
  end.

Definition decode_byte (v : json) : option ascii :=
  match v with
  | JNumber t => n ← ParseInt t; if (0 <=? n) && (n <? 256) then Some (of_code n) else None
  | JNull => Some (of_code 0)
  | _ => None
  end.
Definition string_of_list (l : list ascii) : string := fold_right String "" l.

Definition decode_bytes (_ : bytes) (v : json) : option bytes :=
  match v with
  | JString s => std_decode s
  | JNull => Some ""
  | JArray l => string_of_list <$> mapM (fun m => decode_byte m.2) l
  | _ => None
  end.

(** [Time.UnmarshalJSON] reads the text between the quotes as it is. *)
Definition decode_time (cur : Z) (m : string * json) : option Z :=
  match m.2 with
  | JNull => Some cur
  | JString _ => parse_zone (substring 1 (String.length m.1 - 2) m.1)
  | _ => None
  end.

(** ** One value from a bounded reader *)
Definition limit_reader (n : Z) (s : string) : string :=
  if len s <=? n then s else substring 0 (Z.to_nat n) s.

Definition decode_single {R} (decode : json -> option R) (text : string) : option R :=
  '(v, r) ← read_value text;
  x ← decode v;
  if is_empty (skip_ws r) then Some x else None.

(** ** Facts: base64 *)
Lemma code_std_char v : 0 <= v < 64 ->
  code (std_char v) = if v <? 26 then 65 + v else if v <? 52 then 71 + v else if v <? 62 then v - 4
                      else if v =? 62 then 43 else 47.
Proof.
  intros Hv. unfold std_char. apply code_of_code.
  repeat match goal with |- context [if ?b then _ else _] => destruct b eqn:? end; bools; lia.
Qed.

Lemma std_char_range v : 0 <= v < 64 -> exists w, code (std_char v) = w /\ 43 <= w < 123 /\ w <> 61 /\ w <> 60 /\ w <> 62 /\ w <> 92.
Proof.
  intros Hv. eexists. split; [done|]. rewrite code_std_char by done.
  destruct (Z.ltb_spec v 26); [lia|]. destruct (Z.ltb_spec v 52); [lia|]. destruct (Z.ltb_spec v 62); [lia|].
  destruct (v =? 62); lia.
Qed.

Lemma std_value_char v : 0 <= v < 64 -> std_value (std_char v) = Some v.
Proof.
  intros Hv. unfold std_value. rewrite code_std_char by done.
  destruct (Z.ltb_spec v 26); [|destruct (Z.ltb_spec v 52); [|destruct (Z.ltb_spec v 62);
    [|destruct (Z.eqb_spec v 62)]]];
    repeat (rewrite ?(proj2 (Z.leb_le _ _)) by lia; rewrite ?(proj2 (Z.leb_gt _ _)) by lia;
            rewrite ?(proj2 (Z.eqb_neq _ _)) by lia; cbn [andb]); try (f_equal; lia).
Qed.

Lemma std_char_not_pad v : 0 <= v < 64 -> (std_char v =c? "=") = false.
Proof.
  intros Hv. apply Ascii.eqb_neq. intros E. apply (f_equal code) in E.
  destruct (std_char_range v Hv) as (w & Hw & _ & H61 & _). rewrite E in Hw. by rewrite <- Hw in H61.
Qed.

Lemma std_char_no_line_end v : 0 <= v < 64 -> (code (std_char v) =? 10) || (code (std_char v) =? 13) = false.
Proof.
  intros Hv. destruct (std_char_range v Hv) as (w & -> & Hr & _). apply orb_false_iff. rewrite !Z.eqb_neq. lia.
Qed.

Lemma drop_line_ends_std s : drop_line_ends (std_encode s) = std_encode s.
Proof.
  induction s as [|a|a b|a b c r IH] using string3_ind; [done|..];
    cbn [std_encode drop_line_ends]; b64_bounds;
    rewrite !std_char_no_line_end by zdiv; [done|done|]. by rewrite IH.
Qed.

Lemma std_decode_encode s : std_decode (std_encode s) = Some s.
Proof.
  unfold std_decode. rewrite drop_line_ends_std.
  induction s as [|a|a b|a b c r IH] using string3_ind; [done|..]; cbn [std_encode std_quanta]; b64_bounds.
  - rewrite !std_value_char by zdiv. cbn [mbind option_bind is_empty negb]. rewrite !Ascii.eqb_refl. cbn iota.
    repeat f_equal. apply of_code_eq. zdiv.
  - rewrite !std_value_char by zdiv. cbn [mbind option_bind is_empty negb].
    rewrite Ascii.eqb_refl, std_char_not_pad by zdiv. cbn iota.
    repeat f_equal; apply of_code_eq; zdiv.
  - rewrite !std_value_char by zdiv. cbn [mbind option_bind]. rewrite std_char_not_pad by zdiv.
    rewrite IH. cbn [mbind option_bind]. repeat f_equal; apply of_code_eq; zdiv.
Qed.

Lemma std_length s : Z.of_nat (String.length (std_encode s)) = 4 * ((len s + 2) / 3).
Proof.
  unfold len. induction s as [|a|a b|a b c r IH] using string3_ind; [done|done|done|].
  cbn [std_encode String.length]. zdiv.
Qed.

(** ** Facts: plain texts need no escapes *)
Definition plain_json (a : ascii) : bool :=
  (32 <=? code a) && (code a <? 127) && negb (code a =? 34) && negb (code a =? 92)
  && negb (code a =? 38) && negb (code a =? 60) && negb (code a =? 62).

Lemma plain_rune a : plain_json a = true -> is_ascii a = true /\ json_rune (Some (code a)) = String a "".
Proof. destruct a as [[] [] [] [] [] [] [] []]; vm_compute; done. Qed.

Lemma json_text_plain s : all_chars plain_json s = true -> json_text s = s.
Proof.
  unfold json_text. induction s as [|a s IH]; [done|]. cbn [all_chars]. intros [Ha Hs]%andb_true_iff.
  apply plain_rune in Ha as [Ha Hr]. rewrite decode_ascii_cons by done. cbn [map]. by rewrite concat_cons, Hr, IH.
Qed.

Lemma plain_utf8 s : all_chars plain_json s = true -> utf8_valid s = true.
Proof. intros H. apply ascii_utf8. revert H. apply all_chars_weaken. intros a Ha. by apply plain_rune. Qed.

Lemma std_plain s : all_chars plain_json (std_encode s) = true.
Proof.
  assert (Hc : forall v, 0 <= v < 64 -> plain_json (std_char v) = true).
  { intros v Hv. unfold plain_json. destruct (std_char_range v Hv) as (w & -> & Hr).
    rewrite !andb_true_iff, !negb_true_iff, Z.leb_le, Z.ltb_lt, !Z.eqb_neq. lia. }
  induction s as [|a|a b|a b c r IH] using string3_ind; [done|..]; cbn [std_encode all_chars]; b64_bounds;
    rewrite !Hc by zdiv; [done|done|]. by rewrite IH.
Qed.

Lemma digits_plain n : forall z, 0 <= z < 10 ^ Z.of_nat n -> all_chars plain_json (digits n z) = true.
Proof.
  induction n as [|n IH]; intros z Hz; [done|]. cbn [digits all_chars].
  pose proof (lead_digit n z Hz) as Hd. pose proof (pow10_pos n).
  rewrite IH by (apply Z.mod_pos_bound; lia). rewrite andb_true_r. unfold plain_json. rewrite code_of_code by lia.
  rewrite !andb_true_iff, !negb_true_iff, Z.leb_le, Z.ltb_lt, !Z.eqb_neq. lia.
Qed.

Lemma pad_plain n z : all_chars plain_json (pad n z) = true.
Proof.
  unfold pad. rewrite all_chars_app. apply andb_true_iff. split; [by destruct (z <? 0)|].
  destruct (Z.ltb_spec (Z.abs z) (10 ^ Z.of_nat n)); [apply digits_plain; lia|].
  generalize (dec_chars (Z.abs z)). apply all_chars_weaken. intros a.
  destruct a as [[] [] [] [] [] [] [] []]; vm_compute; done.
Qed.

Lemma trim_plain s : all_chars plain_json s = true -> all_chars plain_json (trim_zeros s) = true.
Proof.
  induction s as [|a s IH]; [done|]. cbn [all_chars trim_zeros]. intros [Ha Hs]%andb_true_iff.
  destruct (_ && _); [done|]. cbn [all_chars]. by rewrite Ha, IH.
Qed.

Lemma zone_plain off : all_chars plain_json (zone_text off) = true.
Proof.
  unfold zone_text. destruct (off =? 0); [done|]. rewrite !all_chars_app, !pad_plain. by destruct (off <? 0).
Qed.

Lemma fraction_plain ns : 0 <= ns < second -> all_chars plain_json (fraction ns) = true.
Proof.
  rewrite <- pow10_9. intros Hns%digits_plain. unfold fraction. revert Hns. generalize (digits 9 ns). intros d Hd.
  destruct (ns =? 0); [done|]. apply trim_plain in Hd. cbn [all_chars]. by rewrite Hd.
Qed.

Lemma format_plain zone u : all_chars plain_json zone = true -> all_chars plain_json (format_with zone u) = true.
Proof.
  intros Hz. unfold format_with. destruct (civil_of_days (u / day)) as [[y m] d].
  assert (Hs : 0 < second) by (unfold second; lia).
  repeat (rewrite all_chars_app; apply andb_true_iff; split; [by rewrite ?pad_plain|]).
  rewrite all_chars_app, Hz, andb_true_r. apply fraction_plain, Z.mod_pos_bound, Hs.
Qed.

Lemma time_plain off t : all_chars plain_json (format_zone off t) = true.
Proof. apply format_plain, zone_plain. Qed.

(** ** Facts: printed values parse *)
Lemma text_stable raw v r : text_of raw v -> delimited r -> exists n, parse_value n (raw ++ r) = Some (v, r).
Proof.
  intros [_ (n & Hn)] Hr. destruct (proj1 (parse_stable n) _ _ _ Hn) as (x & Hx & _ & Hp).
  rewrite app_string_nil_r in Hx. subst x. exists n. by apply Hp.
Qed.

Lemma braced_text ps : Forall (fun p => member_of p.1 p.2) ps ->
  text_of ("{" ++ join "," (fst <$> ps) ++ "}") (JObject (snd <$> ps)).
Proof.
  intros Hps. split; [done|]. destruct ps as [|p ps]; [by exists 1%nat|].
  exists (S (S (2 * String.length (join "," (fst <$> p :: ps) ++ "}")))). cbn [String.append parse_value].
  rewrite Ascii.eqb_refl.
  assert (Hs : exists y, join "," (fst <$> p :: ps) ++ "}" = String quote y).
  { apply List.Forall_cons_iff in Hps as [Hp _]. apply starts_member in Hp as [y Hy].
    destruct ps; cbn [fmap list_fmap join]; rewrite Hy; eauto. }
  pose proof (parse_joined (p :: ps) ltac:(done) Hps (S (2 * String.length (join "," (fst <$> p :: ps) ++ "}"))) "" ltac:(lia)) as Hj.
  destruct Hs as [y Hy]. rewrite Hy in *. rewrite skip_ws_stop by done.
  change (quote =c? "}") with false. cbn iota. by rewrite Hj.
Qed.

Lemma text_object l vs : Forall2 (fun p v => utf8_valid p.1 = true /\ text_of p.2 v) l vs ->
  text_of (json_object l) (JObject (zip_with (fun p v => (p.1, p.2, v)) l vs)).
Proof.
  intros Hl. set (ps := zip_with (fun p v => (marshal_member p.1 p.2, (p.1, p.2, v))) l vs).
  assert (Hps : Forall (fun p => member_of p.1 p.2) ps).
  { unfold ps. clear ps. induction Hl as [|p v l vs [Hn Ht] _ IH]; constructor; [|done]. by apply member_printed. }
  assert (H1 : map (fun p => marshal_member p.1 p.2) l = fst <$> ps)
    by (unfold ps; clear Hps ps; induction Hl as [|p v l vs _ _ IH]; [done|]; exact (f_equal (cons _) IH)).
  assert (H2 : zip_with (fun p v => (p.1, p.2, v)) l vs = snd <$> ps)
    by (unfold ps; clear Hps ps H1; induction Hl as [|p v l vs _ _ IH]; [done|]; exact (f_equal (cons _) IH)).
  unfold json_object. rewrite H1, H2. by apply braced_text.
Qed.

(** An array of printed values. *)
Lemma parse_elems_joined l vs : l <> [] -> Forall2 text_of l vs ->
  forall n r, (S (2 * String.length (join "," l ++ String "]" r)) < n)%nat ->
  parse_elems n (join "," l ++ String "]" r) = Some (zip l vs, r).
Proof.
  intros Hne Hl. induction Hl as [|x v l vs Hx Hl IH]; [done|]. intros [|n] r Hn; [lia|]. clear Hne.
  destruct l as [|y l].
  - inversion Hl; subst. cbn [join] in *. destruct (text_stable x v (String "]" r) Hx ltac:(done)) as [m Hm].
    cbn [parse_elems]. rewrite (parse_value_enough m n _ _ _ Hm) by lia.
    rewrite skip_ws_stop by done. change ("]" =c? "]")%char with true. cbn iota. by rewrite before_app.
  - assert (Hj : join "," (x :: y :: l) = x ++ String "," (join "," (y :: l))) by done.
    rewrite Hj in *. rewrite <- app_string_assoc in *. cbn [append] in *.
    destruct (text_stable x v (String "," (join "," (y :: l) ++ String "]" r)) Hx ltac:(done)) as [m Hm].
    cbn [parse_elems]. rewrite (parse_value_enough m n _ _ _ Hm) by lia.
    rewrite skip_ws_stop by done. change ("," =c? "]")%char with false. change ("," =c? ",")%char with true. cbn iota.
    assert (Hs : skip_ws (join "," (y :: l) ++ String "]" r) = join "," (y :: l) ++ String "]" r).
    { inversion Hl as [|? ? ? ? [Hy _] _]; subst. destruct y as [|a y]; [done|]. destruct l; apply skip_ws_stop, Hy. }
    rewrite Hs, before_app. rewrite IH; [done|done|]. rewrite length_app in Hn. cbn [String.length] in Hn. lia.
Qed.

Lemma text_array l vs : Forall2 text_of l vs -> text_of (json_array l) (JArray (zip l vs)).
Proof.
  intros Hl. split; [done|]. destruct l as [|x l]; [exists 1%nat; by inversion Hl|].
  exists (S (S (S (2 * String.length (join "," (x :: l) ++ "]"))))). unfold json_array. cbn [String.append parse_value].
  change ("[" =c? "{")%char with false. rewrite Ascii.eqb_refl. cbn iota.
  pose proof (parse_elems_joined (x :: l) vs ltac:(done) Hl (S (S (2 * String.length (join "," (x :: l) ++ "]")))) "" ltac:(lia)) as Hj.
  assert (Hs : exists a y, join "," (x :: l) ++ "]" = String a y /\ is_ws a = false /\ (a =c? "]") = false).
  { inversion Hl as [|? v ? ? [Hx (n & Hv)] _]; subst. destruct x as [|a x]; [done|]. exists a.
    destruct l; eexists; (split; [reflexivity|]); (split; [exact Hx|]); destruct (Ascii.eqb_spec a "]") as [->|]; try done;
      by destruct n. }
  destruct Hs as (a & y & Hy & Hw & Ha). rewrite Hy in *. rewrite skip_ws_stop, Ha by done. by rewrite Hj.
Qed.

Lemma text_plain s : all_chars plain_json s = true -> text_of (json_string s) (JString s).
Proof. intros Hs. by apply text_string, plain_utf8. Qed.
Lemma text_bytes b : text_of (json_bytes b) (JString (std_encode b)).
Proof. apply text_plain, std_plain. Qed.
Lemma text_time off t : text_of (json_time off t) (JString (format_zone off t)).
Proof. apply text_plain, time_plain. Qed.

Lemma decode_bytes_printed cur b : decode_bytes cur (JString (std_encode b)) = Some b.
Proof. apply std_decode_encode. Qed.

Lemma quoted_inside s : substring 1 (String.length (String quote (s ++ String quote "")) - 2) (String quote (s ++ String quote "")) = s.
Proof.
  cbn [String.length substring]. rewrite length_app. cbn [String.length].
  replace (S (String.length s + 1) - 2)%nat with (String.length s) by lia. apply substring_prefix.
Qed.

Lemma decode_time_printed cur off t : -1440 < off < 1440 -> four_digit_year (t + off * minute) = true ->
  decode_time cur (json_time off t, JString (format_zone off t)) = Some t.
Proof.
  intros Hoff Hy. unfold decode_time, json_time. cbn [fst snd].
  rewrite json_string_text, json_text_plain, quoted_inside by apply time_plain. by apply parse_format_zone.
Qed.

Lemma length_json_bytes b : len (json_bytes b) = 4 * ((len b + 2) / 3) + 2.
Proof.
  unfold json_bytes. rewrite json_string_text, json_text_plain by apply std_plain.
  unfold len at 1. cbn [String.length]. rewrite length_app. cbn [String.length]. rewrite <- std_length. lia.
Qed.

(** ** Facts: one value, cut or complete *)
Lemma decode_single_encoded {R} (decode : json -> option R) text v :
  text_of text v -> decode_single decode (encoded text) = decode v.
Proof.
  intros Ht. pose proof Ht as [Hs _]. destruct (text_stable text v (String (of_code 10) "") Ht ltac:(done)) as [n Hn].
  unfold decode_single, encoded, read_value. destruct text as [|a text]; [done|].
  rewrite append_cons, skip_ws_stop by done. rewrite append_cons in Hn.
  rewrite (parse_value_enough n _ _ _ _ Hn) by lia. cbn [mbind option_bind]. by destruct (decode v).
Qed.

(** A value that starts with a brace ends where its last brace is, whatever
    follows. *)
Lemma object_stable n s v r : parse_value n (String "{" s) = Some (v, r) ->
  exists x, String "{" s = String "{" x ++ r /\ forall r', parse_value n (String "{" x ++ r') = Some (v, r').
Proof.
  destruct n as [|n]; [done|]. cbn [parse_value]. rewrite Ascii.eqb_refl.
  destruct (skip_ws s) as [|b s1] eqn:E; [done|]. open_ws E. subst s. destruct (b =c? "}") eqn:Eb.
  - intros [= <- <-]. exists (w ++ String b ""). cbn [append]. rewrite <- app_string_assoc. split; [done|].
    intros r'. cbn [append parse_value]. rewrite Ascii.eqb_refl, <- app_string_assoc. cbn [append].
    by rewrite skip_ws_prefix, skip_ws_stop, Eb.
  - destruct (parse_members n _) as [[l r2]|] eqn:Em; [|done]. intros [= <- <-].
    apply (proj2 (proj2 (parse_stable n))) in Em as (x & Hx & Hst & Hm). rewrite Hx.
    exists (w ++ x). cbn [append]. rewrite <- app_string_assoc. split; [done|].
    intros r'. cbn [append parse_value]. rewrite Ascii.eqb_refl, <- app_string_assoc, skip_ws_starts by done.
    destruct x as [|b' x]; [done|]. cbn [append] in *. simplify_eq. by rewrite Eb, Hm.
Qed.

Lemma cut_object_fails p q v : q <> "" -> text_of (String "{" (p ++ q)) v -> read_value (String "{" p) = None.
Proof.
  intros Hq [_ (n & Hn)]. unfold read_value. rewrite skip_ws_stop by done.
  destruct (parse_value _ (String "{" p)) as [[v' r]|] eqn:E; [|done]. exfalso.
  apply object_stable in E as (x & Hx & Hp). specialize (Hp (r ++ q)).
  assert (Htext : String "{" x ++ r ++ q = String "{" (p ++ q))
    by (cbn [append] in Hx |- *; injection Hx as ->; by rewrite app_string_assoc).
  rewrite Htext in Hp. apply (parse_value_enough _ (S (2 * String.length (String "{" (p ++ q)))) ) in Hp; [|lia].
  apply (parse_value_enough _ (S (2 * String.length (String "{" (p ++ q)))) ) in Hn; [|lia].
  rewrite Hn in Hp. injection Hp as _ Hr. destruct r; [by destruct q|done].
Qed.

Lemma length_len s : Z.of_nat (String.length s) = len s. Proof. done. Qed.

Lemma substring_split n s : (n <= String.length s)%nat -> exists p q,
  s = p ++ q /\ substring 0 n s = p /\ String.length p = n.
Proof.
  revert s. induction n as [|n IH]; intros s Hn; [exists "", s; by destruct s|]. destruct s as [|a s]; [cbn in Hn; lia|].
  cbn in Hn. destruct (IH s ltac:(lia)) as (p & q & -> & Hp & Hl). exists (String a p), q. cbn [substring String.length append].
  by rewrite Hp, Hl.
Qed.

(** The bounded reader: a response within the limit is decoded, one whose
    value does not fit is refused. *)
Lemma limited_decode {R} limit (decode : json -> option R) text v : 0 < limit ->
  text_of (String "{" text) v ->
  decode_single decode (limit_reader limit (encoded (String "{" text))) =
    if len (String "{" text) <=? limit then decode v else None.
Proof.
  intros Hlim Ht. set (T := String "{" text). assert (Hlen : len (encoded T) = len T + 1)
    by (unfold encoded; rewrite len_app; done). unfold limit_reader. rewrite Hlen.
  destruct (Z.leb_spec (len T + 1) limit) as [H|H].
  - rewrite decode_single_encoded with (v := v) by done. by rewrite (proj2 (Z.leb_le _ _)) by lia.
  - unfold encoded. destruct (Z.leb_spec (len T) limit) as [H2|H2].
    + replace (Z.to_nat limit) with (String.length T) by (rewrite <- length_len in *; lia). rewrite substring_prefix.
      destruct Ht as [Hs (n & Hn)]. unfold decode_single, read_value. subst T. rewrite skip_ws_stop by done.
      rewrite (parse_value_enough n _ _ _ _ Hn) by lia. cbn [mbind option_bind]. by destruct (decode v).
    + destruct (substring_split (Z.to_nat limit) T) as (p & q & Hpq & _ & Hp); [rewrite <- length_len in *; lia|].
      rewrite Hpq, <- app_string_assoc, <- Hp, substring_prefix.
      assert (Hq : q <> "") by (intros ->; rewrite app_string_nil_r in Hpq; subst p; rewrite <- length_len in *; lia).
      destruct p as [|a p]; [cbn in Hp; lia|]. unfold T in Hpq. cbn [append] in Hpq. injection Hpq as <- ->.
      unfold decode_single. by rewrite (cut_object_fails p q v).
Qed.
