(* ===== verification/GoJsonPrint.v ===== *)
(** * encoding/json: what a printed value costs and survives

    A value that [json.Marshal] printed has no white space outside strings and
    no HTML character, so marshalling it again inside a raw message returns it
    as it is; its surrogate escapes are well formed; it is valid UTF-8; and a
    string of [n] runes takes at most [6 n + 2] bytes.  Together these say that
    a printed SSP envelope of bounded fields passes the raw guard. *)
From S2P Require Import Prelude GoText GoStrconv GoTime GoJson GoJsonRead GoBase64 GoUtf8 GoJsonText DeliveryStream.
From S2P Require Import SspGuard SspBody SspRegistry SspEnvelope SspStrip SspTheorems SspSign GoJsonWire.
Open Scope string_scope.
Open Scope Z_scope.
Open Scope snag_scope.

(** ** Concatenation of valid UTF-8 *)
Lemma decode_runes l y : Forall scalar l ->
  decode (String.concat "" (map encode_rune l) ++ y) = app (map Some l) (decode y).
Proof.
  induction 1 as [|c l Hc _ IH]; [done|]. cbn [map app]. by rewrite concat_cons, <- app_string_assoc, decode_rune, IH.
Qed.

Lemma utf8_append x y : utf8_valid x = true -> utf8_valid y = true -> utf8_valid (x ++ y) = true.
Proof.
  intros (l & Hd & Hl & ->)%utf8_runes Hy. unfold utf8_valid. rewrite decode_runes, forallb_app by done.
  fold (utf8_valid y). rewrite Hy, andb_true_r. clear. induction l; [done|]. by cbn.
Qed.

Lemma utf8_encode_rune c : scalar c -> utf8_valid (encode_rune c) = true.
Proof.
  intros Hc. pose proof (decode_rune c "" Hc) as Hd. rewrite app_string_nil_r in Hd.
  unfold utf8_valid. rewrite Hd. by cbn.
Qed.

(** ** One printed rune *)
Definition html_rune (c : Z) : bool := (c =? 38) || (c =? 60) || (c =? 62) || (c =? 0x2028) || (c =? 0x2029).

(** A property of the printed runes holds when it holds of the escapes and of
    the runes printed as they are. *)
Lemma json_rune_cases (P : string -> Prop) c : scalar c ->
  (forall e, In e [34; 92; 98; 102; 110; 114; 116] -> P (escape e)) ->
  (forall u, 0 <= u < 32 \/ u ∈ [38; 60; 62; 0x2028; 0x2029] -> P (escape_u u)) ->
  (32 <= c -> c <> 34 -> c <> 92 -> html_rune c = false -> P (encode_rune c)) -> P (json_rune (Some c)).
Proof.
  intros Hc He Hu Hr. destruct (html_rune c) eqn:Hh.
  - unfold html_rune in Hh. rewrite !orb_true_iff, !Z.eqb_eq in Hh.
    destruct Hh as [[[[-> | ->]| ->]| ->]| ->]; apply Hu; right; set_solver.
  - destruct (json_rune_printed c Hc) as [[-> | ->]|e Hin|Hin|]; auto.
    + apply He. by left.
    + apply He. by right; left.
    + apply He. repeat (apply elem_of_cons in Hin as [[= -> ->]|Hin]; [cbn; tauto|]). by apply elem_of_nil in Hin.
Qed.

Ltac enum_escapes :=
  repeat match goal with H : In _ (_ :: _) |- _ => destruct H as [<-|H] | H : In _ [] |- _ => destruct H end.
Ltac enum_units H :=
  destruct H as [H|H];
  [revert H; match goal with |- 0 <= ?u < 32 -> _ => revert u end; apply small_rune; enum_small
  |repeat (apply elem_of_cons in H as [->|H]; [|]); try (by apply elem_of_nil in H)].

Lemma json_rune_length c : scalar c -> len (json_rune (Some c)) <= 6.
Proof.
  intros Hc. apply json_rune_cases; [done|intros e H; enum_escapes; done|intros u H; done|].
  intros _ _ _ _. rewrite encode_rune_eq by (unfold scalar in Hc; lia).
  repeat destruct (_ <? _); vm_compute; done.
Qed.

Lemma json_rune_utf8 c : scalar c -> utf8_valid (json_rune (Some c)) = true.
Proof.
  intros Hc. apply (json_rune_cases (fun x => utf8_valid x = true));
    [done|intros e H; enum_escapes; done|intros u H; enum_units H; done|by intros; apply utf8_encode_rune].
Qed.

Lemma escapes_bytes x s : all_chars text_byte x = true -> escapes_from true (x ++ s) = escapes_from true s.
Proof.
  induction x as [|a x IH]; [done|]. cbn [all_chars append]. unfold text_byte at 1. intros H. bools.
  cbn [escapes_from negb]. match goal with H1 : (a =c? quote) = false, H2 : (a =c? backslash) = false |- _ => rewrite H1, H2 end.
  by apply IH.
Qed.

Lemma escapes_rune c : scalar c -> forall s, escapes_from true (json_rune (Some c) ++ s) = escapes_from true s.
Proof.
  intros Hc. apply (json_rune_cases (fun x => forall s, escapes_from true (x ++ s) = escapes_from true s));
    [done|intros e H s; enum_escapes; done|intros u H s; enum_units H; done|].
  intros H1 H2 H3 _ s. by apply escapes_bytes, rune_text.
Qed.

(** A byte of a string that [compact_from] copies. *)
Definition copied (a : ascii) : bool :=
  text_byte a && negb ((code a =? 60) || (code a =? 62) || (code a =? 38)) && negb (code a =? 0xE2).

Lemma compact_copied x s : all_chars copied x = true -> compact_from true false (x ++ s) = x ++ compact_from true false s.
Proof.
  induction x as [|a x IH]; [done|]. cbn [all_chars append]. unfold copied at 1, text_byte. intros H.
  apply andb_true_iff in H as [H Hx]. rewrite !andb_true_iff, !negb_true_iff, !orb_false_iff in H.
  destruct H as [[[[Hq Hb] _] [[H1 H2] H3]] H4].
  cbn [compact_from negb andb orb]. rewrite Hq, Hb, H1, H2, H3, H4.
  cbn [negb andb orb]. rewrite IH by done. by destruct (x ++ s) as [|b [|d r]].
Qed.

Lemma copied_high z : 128 <= z < 256 -> z <> 0xE2 -> copied (of_code z) = true.
Proof.
  intros Hz Hne. unfold copied. rewrite high_text, code_of_code by lia.
  rewrite !(proj2 (Z.eqb_neq _ _)) by lia. done.
Qed.

(** A byte 0xE2 that does not start U+2028 or U+2029. *)
Lemma compact_lead b d s : (code b =? 0x80) && ((code d =? 0xA8) || (code d =? 0xA9)) = false ->
  compact_from true false (String (of_code 0xE2) (String b (String d s)))
  = String (of_code 0xE2) (compact_from true false (String b (String d s))).
Proof.
  intros Hbd. remember (String b (String d s)) as t eqn:Et. cbn [compact_from negb andb orb].
  change (of_code 0xE2 =c? quote) with false. change (of_code 0xE2 =c? backslash) with false.
  change (code (of_code 0xE2)) with 0xE2. cbn [Z.eqb Pos.eqb orb negb andb].
  rewrite Et at 1. cbv beta iota. by rewrite Hbd.
Qed.

Lemma compact_encode_rune c s : scalar c -> 32 <= c -> c <> 34 -> c <> 92 -> html_rune c = false ->
  compact_from true false (encode_rune c ++ s) = encode_rune c ++ compact_from true false s.
Proof.
  unfold scalar. intros Hc H32 H34 H92 Hh. unfold html_rune in Hh. rewrite !orb_false_iff, !Z.eqb_neq in Hh.
  destruct Hh as [[[[H38 H60] H62] H8] H9].
  pose proof (rune_text c Hc H32 H34 H92) as Ht. rewrite encode_rune_eq in Ht |- * by lia.
  destruct (Z.ltb_spec c 0x80).
  - apply compact_copied. cbn [all_chars] in Ht |- *. rewrite andb_true_r in *. unfold copied. rewrite Ht, code_of_code by lia.
    rewrite !(proj2 (Z.eqb_neq _ _)) by lia. done.
  - destruct (Z.ltb_spec c 0x800); [|destruct (Z.ltb_spec c 0x10000)].
    + apply compact_copied. cbn [all_chars]. by rewrite !copied_high by zdiv.
    + destruct (Z.eq_dec (224 + c / 4096) 0xE2) as [E|].
      * rewrite E. cbn [append]. rewrite compact_lead.
        -- f_equal. apply (compact_copied (String (of_code (128 + c / 64 mod 64)) (String (of_code (128 + c mod 64)) ""))).
           cbn [all_chars]. by rewrite !copied_high by zdiv.
        -- rewrite !code_of_code by zdiv. apply andb_false_iff. rewrite orb_false_iff, !Z.eqb_neq. zdiv.
      * apply compact_copied. cbn [all_chars]. by rewrite !copied_high by zdiv.
    + apply compact_copied. cbn [all_chars]. by rewrite !copied_high by zdiv.
Qed.

Lemma compact_rune c : scalar c -> forall s,
  compact_from true false (json_rune (Some c) ++ s) = json_rune (Some c) ++ compact_from true false s.
Proof.
  intros Hc. apply (json_rune_cases (fun x => forall s, compact_from true false (x ++ s) = x ++ compact_from true false s)); [done|..].
  - intros e H s. enum_escapes; by destruct s as [|? [|? ?]].
  - intros u H s. enum_units H; by destruct s as [|? [|? ?]].
  - intros H1 H2 H3 H4 s. by apply compact_encode_rune.
Qed.

(** ** Printed values *)

(** A printed text: copied by [compact_from], skipped by the check of the
    escapes, and valid UTF-8. *)
Record printed_text (x : string) : Prop := {
  pt_compact : forall r, compact_from false false (x ++ r) = x ++ compact_from false false r;
  pt_escapes : forall r, escapes_from false (x ++ r) = escapes_from false r;
  pt_utf8 : utf8_valid x = true
}.

Lemma printed_app x y : printed_text x -> printed_text y -> printed_text (x ++ y).
Proof.
  intros [Hc He Hu] [Hc' He' Hu']. split.
  - intros r. by rewrite <- !app_string_assoc, Hc, Hc'.
  - intros r. by rewrite <- !app_string_assoc, He, He'.
  - by apply utf8_append.
Qed.

Lemma printed_nil : printed_text "".
Proof. done. Qed.

(** An ASCII byte that is no quote, no white space and no HTML character. *)
Definition bare (a : ascii) : bool :=
  is_ascii a && negb (is_ws a) && negb (a =c? quote) && negb ((code a =? 60) || (code a =? 62) || (code a =? 38)).

Lemma printed_bare x : all_chars bare x = true -> printed_text x.
Proof.
  intros Hx. assert (Ha : all_chars is_ascii x = true).
  { revert Hx. apply all_chars_weaken. intros a Ha. unfold bare in Ha. by bools. }
  split; [| |by apply ascii_utf8].
  - intros r. induction x as [|a x IH]; [done|]. cbn [all_chars append] in *. apply andb_true_iff in Hx as [Hb Hx], Ha as [Ha1 Ha].
    unfold bare in Hb. rewrite !andb_true_iff, !negb_true_iff, !orb_false_iff in Hb. destruct Hb as [[[_ Hw] Hq] [[H1 H2] H3]].
    assert (H4 : (code a =? 0xE2) = false) by (unfold is_ascii in Ha1; apply Z.ltb_lt in Ha1; apply Z.eqb_neq; lia).
    cbn [compact_from negb andb]. rewrite Hw, Hq, H1, H2, H3, H4. cbn [orb andb]. rewrite IH by done.
    by destruct (x ++ r) as [|b [|d r2]].
  - intros r. induction x as [|a x IH]; [done|]. cbn [all_chars append] in *. apply andb_true_iff in Hx as [Hb Hx], Ha as [_ Ha].
    unfold bare in Hb. rewrite !andb_true_iff, !negb_true_iff in Hb. destruct Hb as [[_ Hq] _].
    cbn [escapes_from negb]. rewrite Hq. by apply IH.
Qed.

Lemma printed_string v : utf8_valid v = true -> printed_text (json_string v).
Proof.
  intros (l & Hl & Hs & _)%utf8_runes. rewrite json_string_text. unfold json_text. rewrite Hl. clear Hl v. split.
  - intros r. cbn [append]. rewrite <- !app_string_assoc. cbn [append].
    transitivity (String quote (compact_from true false (String.concat "" (map json_rune (map Some l)) ++ String quote r))).
    { generalize (String.concat "" (map json_rune (map Some l)) ++ String quote r). intros t. by destruct t as [|? [|? ?]]. }
    f_equal. induction Hs as [|c l Hc _ IH].
    + cbn. by destruct r as [|? [|? ?]].
    + cbn [map]. by rewrite concat_cons, <- !app_string_assoc, compact_rune, IH.
  - intros r. cbn [append]. rewrite <- app_string_assoc. cbn [append].
    transitivity (escapes_from true (String.concat "" (map json_rune (map Some l)) ++ String quote r)); [done|].
    induction Hs as [|c l Hc _ IH]; [done|]. cbn [map]. by rewrite concat_cons, <- app_string_assoc, escapes_rune.
  - apply (utf8_append (String quote "")); [done|]. apply utf8_append; [|done].
    induction Hs as [|c l Hc _ IH]; [done|]. cbn [map]. rewrite concat_cons. apply utf8_append; [by apply json_rune_utf8|done].
Qed.

Lemma printed_dec z : 0 <= z -> printed_text (dec z).
Proof.
  intros Hz. apply printed_bare. destruct (Z.eq_dec z 0) as [->|]; [done|].
  destruct (dec_digits z) as (a & d & -> & Ha & Hd); [lia|]. cbn [all_chars]. apply andb_true_iff. split.
  - revert Ha. clear. destruct a as [[] [] [] [] [] [] [] []]; vm_compute; done.
  - revert Hd. apply all_chars_weaken. clear. intros b. destruct b as [[] [] [] [] [] [] [] []]; vm_compute; done.
Qed.

Lemma printed_member_text name x : utf8_valid name = true -> printed_text x -> printed_text (marshal_member name x).
Proof.
  intros Hn Hx. unfold marshal_member. apply printed_app; [by apply printed_string|].
  apply printed_app; [by apply printed_bare|done].
Qed.

Lemma printed_join l : Forall printed_text l -> printed_text (join "," l).
Proof.
  induction 1 as [|x l Hx Hl IH]; [apply printed_nil|]. destruct l as [|y l]; [done|].
  change (join "," (x :: y :: l)) with (x ++ "," ++ join "," (y :: l)).
  apply printed_app; [done|]. apply printed_app; [by apply printed_bare|done].
Qed.

Lemma printed_braces l : Forall printed_text l -> printed_text ("{" ++ join "," l ++ "}").
Proof.
  intros Hl. apply printed_app; [by apply printed_bare|]. apply printed_app; [by apply printed_join|by apply printed_bare].
Qed.

Lemma printed_object l : Forall (fun p => utf8_valid p.1 = true /\ printed_text p.2) l -> printed_text (json_object l).
Proof.
  intros Hl. apply printed_braces. induction Hl as [|p l [Hn Hx] _ IH]; constructor; [by apply printed_member_text|done].
Qed.

Lemma printed_compact x : printed_text x -> compact_from false false x = x.
Proof. intros Hx. pose proof (pt_compact x Hx "") as Hc. by rewrite !app_string_nil_r in Hc. Qed.

Lemma printed_escapes x : printed_text x -> validateStringEscapes x = Ok tt.
Proof. intros Hx. unfold validateStringEscapes. pose proof (pt_escapes x Hx "") as Hc. by rewrite app_string_nil_r in Hc. Qed.

#[export] Hint Resolve printed_string printed_dec : snag.

(** ** Lengths *)
Lemma len_json_string v : utf8_valid v = true -> len (json_string v) <= 6 * rune_count v + 2.
Proof.
  intros (l & Hl & Hs & _)%utf8_runes. rewrite json_string_text. unfold json_text, rune_count. rewrite Hl. clear Hl v.
  change (String quote ?t) with (String quote "" ++ t). rewrite !len_app. change (len (String quote "")) with 1.
  enough (len (String.concat "" (map json_rune (map Some l))) <= 6 * Z.of_nat (length (map Some l))) by lia.
  induction Hs as [|c l Hc _ IH]; [done|]. cbn [map length] in *. rewrite concat_cons, len_app.
  pose proof (json_rune_length c Hc). lia.
Qed.

Definition short (s : string) : Prop := utf8_valid s = true /\ rune_count s <= 512.

Lemma opaque_short s : validOpaqueID s = true -> short s.
Proof. unfold validOpaqueID, short. intros H. bools. split; [done|lia]. Qed.

Lemma ascii_count s : all_chars is_ascii s = true -> rune_count s = len s.
Proof.
  unfold rune_count, len. intros H. f_equal. induction s as [|a s IH]; [done|]. cbn [all_chars] in H.
  apply andb_true_iff in H as [Ha Hs]. rewrite decode_ascii_cons by done. cbn. by rewrite IH.
Qed.

Lemma pattern_short s : sha256_pattern s = true -> short s.
Proof.
  intros H. pose proof (pattern_ascii _ H) as Ha. split; [by apply ascii_utf8|]. rewrite ascii_count by done.
  unfold sha256_pattern, hex64 in H. destruct (strip_prefix _ s) as [r|] eqn:E; [|done]. apply strip_prefix_split in E as ->.
  rewrite len_app. bools. change (len "sha256:") with 7. lia.
Qed.

Lemma empty_short : short "".
Proof. by split. Qed.

Lemma len_short s : short s -> len (json_string s) <= 3074.
Proof. intros [Hu Hr]. pose proof (len_json_string s Hu). lia. Qed.

Lemma digits_value_ge d : all_chars is_digit d = true -> forall acc v, 0 <= acc -> digits_value acc d = Some v ->
  acc * 10 ^ len d <= v.
Proof.
  induction d as [|a d IH]; intros Hd acc v Hacc Hv; [injection Hv as ->; change (len "") with 0; rewrite Z.pow_0_r; lia|].
  cbn [all_chars digits_value] in *. apply andb_true_iff in Hd as [Ha Hd]. rewrite Ha in Hv.
  assert (48 <= code a <= 57) by (unfold is_digit, in_range in Ha; bools; lia). apply (IH Hd) in Hv; [|lia].
  replace (len (String a d)) with (1 + len d) by (unfold len; cbn; lia). rewrite Z.pow_add_r by (unfold len; lia). nia.
Qed.

(** A number below [10 ^ k] has at most [k] digits. *)
Lemma len_dec_pow k z : 1 <= k -> 0 <= z < 10 ^ k -> len (dec z) <= k.
Proof.
  intros Hk Hz. destruct (Z.eq_dec z 0) as [->|Hne]; [done|].
  destruct (dec_digits z ltac:(lia)) as (a & d & E & Ha & Hd). destruct (dec_pos z ltac:(lia)) as (Hv & _). rewrite E in *.
  assert (Ha' : 49 <= code a <= 57) by (unfold in_range in Ha; bools; lia).
  cbn [digits_value] in Hv. assert (Hda : is_digit a = true) by (unfold is_digit, in_range; by rewrite !(proj2 (Z.leb_le _ _)) by lia).
  rewrite Hda in Hv. apply digits_value_ge in Hv; [|done|lia].
  replace (len (String a d)) with (1 + len d) by (unfold len; cbn; lia).
  destruct (Z.le_gt_cases (len d) (k - 1)) as [|Hgt]; [lia|]. exfalso.
  assert (10 ^ k <= 10 ^ len d) by (apply Z.pow_le_mono_r; lia). nia.
Qed.

Lemma len_digits n : forall z, len (digits n z) = Z.of_nat n.
Proof. induction n as [|n IH]; intros z; [done|]. cbn [digits]. unfold len in *. cbn [String.length]. rewrite Nat2Z.inj_succ, IH. lia. Qed.

Lemma len_trim s : len (trim_zeros s) <= len s.
Proof.
  unfold len. induction s as [|a s IH]; [done|]. cbn [trim_zeros]. destruct (_ && _); cbn [String.length]; lia.
Qed.

Lemma len_pad n z : 0 <= z < 10 ^ Z.of_nat n -> len (pad n z) = Z.of_nat n.
Proof. intros Hz. rewrite pad_small by done. apply len_digits. Qed.

Lemma len_fraction ns : len (fraction ns) <= 10.
Proof.
  unfold fraction. destruct (ns =? 0); [by unfold len|]. pose proof (len_trim (digits 9 ns)) as H. rewrite len_digits in H.
  change (String "." ?x) with ("." ++ x). rewrite len_app. change (len ".") with 1. lia.
Qed.

Lemma len_join l : len (join "," l) = foldr (fun x n => len x + n) 0 l + Z.max 0 (Z.of_nat (length l) - 1).
Proof.
  induction l as [|x [|y l] IH]; [done|cbn; lia|]. change (join "," (x :: y :: l)) with (x ++ "," ++ join "," (y :: l)).
  rewrite !len_app, IH. change (len ",") with 1. cbn [foldr length]. lia.
Qed.

Lemma len_plain s : all_chars plain_json s = true -> len (json_string s) = len s + 2.
Proof.
  intros Hs. rewrite json_string_text, json_text_plain by done.
  change (String quote (?x ++ String quote "")) with (String quote "" ++ x ++ String quote "").
  rewrite !len_app. change (len (String quote "")) with 1. lia.
Qed.

Lemma len_member name x : len (marshal_member name x) = len (json_string name) + 1 + len x.
Proof. unfold marshal_member. rewrite !len_app. change (len ":") with 1. lia. Qed.

Lemma pattern_plain s : sha256_pattern s = true -> all_chars plain_json s = true /\ len s = 71.
Proof.
  unfold sha256_pattern, hex64. destruct (strip_prefix _ s) as [r|] eqn:E; [|done].
  apply strip_prefix_split in E as ->. intros [Hl H]%andb_true_iff. rewrite all_chars_app, len_app. split.
  - apply andb_true_iff. split; [done|]. revert H. apply all_chars_weaken. clear.
    intros a. destruct a as [[] [] [] [] [] [] [] []]; vm_compute; done.
  - change (len "sha256:") with 7. bools. lia.
Qed.

Lemma b64_plain s : all_chars plain_json (b64_encode s) = true.
Proof.
  assert (Hc : forall v, 0 <= v < 64 -> plain_json (b64_char v) = true).
  { intros v Hv. unfold plain_json. rewrite code_b64_char by done.
    repeat match goal with |- context [if ?b then _ else _] => destruct b eqn:? end; bools;
      repeat match goal with |- context [?x =? ?y] => rewrite (proj2 (Z.eqb_neq x y)) by lia end;
      decide_bounds; done. }
  induction s as [|a|a b|a b c r IH] using string3_ind; [done|..]; cbn [b64_encode all_chars]; b64_bounds;
    rewrite !Hc by zdiv; [done|done|]. by rewrite IH.
Qed.

Lemma b64_length s : len (b64_encode s) = (4 * len s + 2) / 3.
Proof.
  induction s as [|a|a b|a b c r IH] using string3_ind; [done..|]. cbn [b64_encode].
  unfold len in *. cbn [String.length]. rewrite !Nat2Z.inj_succ. zdiv.
Qed.

(** ** The raw guard of a printed envelope *)
Lemma float_ok_dec z : 0 <= z <= maxSafeInteger -> float_ok (dec z) = true.
Proof.
  intros Hz. destruct (Z.eq_dec z 0) as [->|Hne]; [done|].
  destruct (dec_digits z ltac:(lia)) as (a & d & E & Ha & Hd). destruct (dec_pos z ltac:(lia)) as (Hv & _). rewrite E in *.
  assert (Ha' : (code a =? 45) = false /\ is_digit a = true)
    by (clear -Ha; revert Ha; destruct a as [[] [] [] [] [] [] [] []]; vm_compute; done).
  destruct Ha' as [H45 Hda]. unfold float_ok, unsigned. rewrite H45.
  pose proof (digits_scan_all (String a d) "") as Hs. rewrite app_string_nil_r in Hs.
  rewrite Hs; [|cbn; by rewrite Hda|done]. rewrite app_string_nil_r, Hv. cbn [default from_option id].
  change (len "") with 0. destruct (z =? 0); [done|]. cbn [Z.sub Z.add Z.leb Z.compare]. rewrite Z.mul_1_r.
  apply Z.ltb_lt. unfold maxSafeInteger, float_bound in *. lia.
Qed.

Lemma nodup_printed e v : NoDup (keys_of (members_of (printed_members e v))).
Proof.
  rewrite keys_printed. unfold omit_key. destruct (CaseID e =s? ""), (RegistryHash e =s? ""), (Signature e =s? "");
    apply (bool_decide_unpack _); vm_compute; exact I.
Qed.

Lemma printed_wire e v : utf8_fields e -> 0 <= RoutingEpoch e -> 0 <= RegistryRevision e -> printed_text (Body e) ->
  printed_text (braced (printed_members e v)).
Proof.
  unfold utf8_fields. rewrite !List.Forall_cons_iff. intros (H1 & H2 & H3 & H4 & H5 & H6 & H7 & H8 & H9 & _) Hr Hg Hb.
  assert (Ho : forall name x, utf8_valid name = true -> utf8_valid x = true -> Forall printed_text (fst <$> omit_member name x)).
  { intros name x Hn Hx. rewrite omit_texts. unfold omit_empty. destruct (x =s? ""); constructor; [|constructor].
    apply printed_member_text; [done|by apply printed_string]. }
  apply printed_braces. unfold printed_members. rewrite !fmap_app, !Forall_app. cbn [fmap list_fmap].
  rewrite !List.Forall_cons_iff.
  split_and!; try apply Forall_nil; try (by apply Ho); cbn [fst str_member num_member];
    (apply printed_member_text; [done|]); (done || (by apply printed_string) || (by apply printed_dec)).
Qed.

Lemma guard_printed e v : utf8_fields e -> 0 <= RoutingEpoch e <= maxSafeInteger -> 0 <= RegistryRevision e <= maxSafeInteger ->
  printed_text (Body e) -> text_of (Body e) v -> guard_ok 1 v = true ->
  len (braced (printed_members e v)) <= MaxEnvelopeBytes -> rawGuard (braced (printed_members e v)) = Ok tt.
Proof.
  intros Hu Hr Hg Hb Ht Hv Hlen. pose proof (printed_wire e v Hu ltac:(lia) ltac:(lia) Hb) as Hp. apply rawGuard_spec.
  split_and!; [done|by apply pt_utf8|by apply printed_escapes|]. exists (members_of (printed_members e v)).
  split; [apply parse_braced, printed_members_of; (done || lia)|].
  cbn [guard_ok]. rewrite (bool_decide_true _ (nodup_printed e v)). cbn [andb]. apply forallb_forall.
  intros m Hm. apply in_printed in Hm. cbn [Z.add].
  repeat match type of Hm with _ \/ _ => destruct Hm as [Hm|Hm] | _ /\ _ => destruct Hm as [_ Hm] end;
    subst m; cbn [snd str_member num_member guard_ok]; (done || by apply float_ok_dec).
Qed.

(** ** Reading the fields of a printed object back *)

(** Names no two of which fold to one another. *)
Definition distinct_folds (names : list string) : bool :=
  forallb (fun k => forallb (fun n => Bool.eqb (folds k n) (k =s? n)) names) names.

Lemma wire_skip {A} (d : A -> string * json -> option A) zero (l : members) name :
  (forall k, In k (keys_of l) -> folds k name = false) -> wire_field d zero l name = Some zero.
Proof.
  unfold wire_field. induction l as [|m l IH]; intros Hk; [done|]. cbn [foldl mbind option_bind].
  rewrite (Hk m.1.1) by (by left). apply IH. intros k Hin. apply Hk. by right.
Qed.

Lemma wire_one {A} (d : A -> string * json -> option A) zero (l : members) names name raw v :
  distinct_folds names = true -> (forall k, In k (keys_of l) -> In k names) -> NoDup (keys_of l) ->
  In (name, raw, v) l -> wire_field d zero l name = d zero (raw, v).
Proof.
  intros Hf Hnames Hn Hin.
  assert (Hex : forall k, In k (keys_of l) -> folds k name = (k =s? name)).
  { intros k Hk%Hnames. pose proof (Hnames name (in_map (fun m => m.1.1) _ _ Hin)) as Hm.
    unfold distinct_folds in Hf. rewrite forallb_forall in Hf. specialize (Hf _ Hk). rewrite forallb_forall in Hf.
    by apply eqb_prop, Hf. }
  clear Hnames Hf names. revert zero Hn Hin Hex. unfold wire_field. induction l as [|m l IH]; intros zero Hn Hin Hex; [done|].
  cbn [keys_of map] in Hn. apply list.NoDup_cons in Hn as [Hm Hn]. cbn [foldl mbind option_bind].
  rewrite (Hex m.1.1) by (by left). destruct Hin as [->|Hin].
  - cbn [fst snd]. rewrite String.eqb_refl. cbn [fst] in Hm. rewrite list_elem_of_In in Hm.
    destruct (d zero (raw, v)) as [a|].
    + apply (wire_skip d a l name). intros k Hk. rewrite (Hex k) by (by right). apply String.eqb_neq. by intros ->.
    + clear. induction l as [|m l IH]; [done|]. cbn [foldl mbind option_bind]. apply IH.
  - destruct (String.eqb_spec m.1.1 name) as [He|]; [|apply IH; try done; intros k Hk; apply Hex; by right].
    exfalso. apply Hm. rewrite He. apply list_elem_of_In. by apply (in_map (fun m => m.1.1) _ _ Hin).
Qed.

