(* ===== verification/Registry.v ===== *)
(** * internal/registrygraph and internal/registry

    The semantic graph of a registry snapshot, its decoding into the
    authorization model, and the root-pinned verifier.  Both packages read the
    body of an envelope that [ssp.VerifyRegistry] has accepted, so that the
    member names are the schema's own and exact names decide the decoding. *)
From stdpp Require Import gmap.
From S2P Require Import Prelude GoText GoStrconv GoTime GoJson GoJsonRead GoBase64 Sha256 SspGuard SspBody SspRegistry SspEnvelope.
Open Scope string_scope.
Open Scope Z_scope.
Open Scope snag_scope.

Inductive RegErr : Type :=
| ErrRegistry (what : string)
| ErrRegistrySsp (e : SspErr)
| ErrUnverified
| ErrUnknownDomain.

(** ** Decoding nested structs *)
Definition decode_struct {R} (decode : members -> option R) (v : json) : option R :=
  match v with
  | JObject l => decode l
  | JNull => decode []
  | _ => None
  end.

Definition decode_structs {R} (decode : members -> option R) (_ : list R) (v : json) : option (list R) :=
  match v with
  | JArray l => mapM (fun m => decode_struct decode m.2) l
  | JNull => Some []
  | _ => None
  end.

(** ** registrygraph *)
Record graph_domain := mkGraphDomain {
  gd_domain : string;
  gd_dispatcher : string;
  gd_issuers : list string;
  gd_specialists : list string }.
Record graph_edge := mkGraphEdge { ge_id : string; ge_generation : Z; ge_principal : string }.
Record graph_key := mkGraphKey { gk_id : string; gk_principal : string; gk_usage : string }.

Record graph_body := mkGraphBody {
  gb_domains : list graph_domain;
  gb_principals : list PrincipalRecord;
  gb_edges : list graph_edge;
  gb_keys : list graph_key }.

Definition decode_graph_domain (l : members) : option graph_domain :=
  d ← field decode_string "" l "domain";
  p ← field decode_string "" l "dispatcher_principal_id";
  i ← field decode_strings [] l "issuer_edge_ids";
  s ← field decode_strings [] l "specialist_principal_ids";
  Some (mkGraphDomain d p i s).

Definition decode_graph_edge (l : members) : option graph_edge :=
  e ← field decode_string "" l "edge_id";
  g ← field decode_int64 0 l "generation";
  p ← field decode_string "" l "principal_id";
  Some (mkGraphEdge e g p).

Definition decode_graph_key (l : members) : option graph_key :=
  k ← field decode_string "" l "key_id";
  p ← field decode_string "" l "principal_id";
  u ← field decode_string "" l "usage";
  Some (mkGraphKey k p u).

Definition decode_graph (v : json) : option graph_body :=
  decode_struct (fun l =>
    d ← field (decode_structs decode_graph_domain) [] l "domains";
    p ← field (decode_structs decode_principal) [] l "principals";
    e ← field (decode_structs decode_graph_edge) [] l "edges";
    k ← field (decode_structs decode_graph_key) [] l "keys";
    Some (mkGraphBody d p e k)) v.

(** The maps built from the lists; a repeated identifier is refused. *)
Fixpoint index_unique {A} (id : A -> string) (m : gmap string A) (l : list A) : result RegErr (gmap string A) :=
  match l with
  | [] => Ok m
  | x :: l =>
      match m !! id x with
      | Some _ => Err (ErrRegistry "duplicate identifier")
      | None => index_unique id (<[id x := x]> m) l
      end
  end.

Definition zero_principal : PrincipalRecord := mkPrincipal "" [] [] [].

Definition principalHasUsage (owner : PrincipalRecord) (keys : gmap string graph_key) (usage : string) : bool :=
  existsb (fun id => match keys !! id with
                     | Some registered => (gk_principal registered =s? pr_id owner) && (gk_usage registered =s? usage)
                     | None => false
                     end) (pr_keys owner).

Section Graph.
Context (principals : gmap string PrincipalRecord) (edges : gmap string graph_edge) (keys : gmap string graph_key).

Definition graph_specialist (id : string) : result RegErr unit :=
  match principals !! id with
  | None => Err (ErrRegistry "specialist does not resolve")
  | Some specialist => reject (negb (mem "specialist" (pr_roles specialist))) (ErrRegistry "specialist lacks specialist role")
  end.

Definition graph_issuer (id : string) : result RegErr unit :=
  match edges !! id with
  | None => Err (ErrRegistry "issuer edge does not resolve")
  | Some registered =>
      let owner := default zero_principal (principals !! ge_principal registered) in
      reject (negb (principalHasUsage owner keys "edge")) (ErrRegistry "issuer edge owner has no edge key")
  end.

Definition graph_route (route : graph_domain) : result RegErr unit :=
  match principals !! gd_dispatcher route with
  | None => Err (ErrRegistry "dispatcher does not resolve")
  | Some dispatcher =>
      reject (negb (mem "dispatcher" (pr_roles dispatcher))) (ErrRegistry "dispatcher lacks dispatcher role");;
      reject (negb (principalHasUsage dispatcher keys "advice")) (ErrRegistry "dispatcher has no advice key");;
      first_err graph_specialist (gd_specialists route);;
      first_err graph_issuer (gd_issuers route)
  end.

Definition claims_key (entry : PrincipalRecord) (id : string) : result RegErr unit :=
  match keys !! id with
  | None => Err (ErrRegistry "key does not resolve")
  | Some registered => reject (gk_principal registered <>s? pr_id entry) (ErrRegistry "claims key of another principal")
  end.

Definition claims_edge (entry : PrincipalRecord) (id : string) : result RegErr unit :=
  match edges !! id with
  | None => Err (ErrRegistry "edge does not resolve")
  | Some registered => reject (ge_principal registered <>s? pr_id entry) (ErrRegistry "claims edge of another principal")
  end.

Definition graph_principal (entry : PrincipalRecord) : result RegErr unit :=
  first_err (claims_key entry) (pr_keys entry);;
  first_err (claims_edge entry) (pr_edges entry).

Definition graph_edge_owner (entry : graph_edge) : result RegErr unit :=
  match principals !! ge_principal entry with
  | None => Err (ErrRegistry "edge principal does not resolve")
  | Some owner =>
      reject (negb (mem "edge" (pr_roles owner))) (ErrRegistry "edge principal lacks edge role");;
      reject (negb (mem (ge_id entry) (pr_edges owner))) (ErrRegistry "edge is not claimed")
  end.

Definition graph_key_owner (entry : graph_key) : result RegErr unit :=
  match principals !! gk_principal entry with
  | None => Err (ErrRegistry "key principal does not resolve")
  | Some owner =>
      reject (negb (mem (gk_id entry) (pr_keys owner))) (ErrRegistry "key is not claimed");;
      reject ((gk_usage entry =s? "registry") && negb (mem "registry-authority" (pr_roles owner)))
             (ErrRegistry "registry key owner lacks registry-authority role")
  end.

Definition graph_checks (b : graph_body) : result RegErr unit :=
  first_err graph_route (gb_domains b);;
  first_err graph_principal (gb_principals b);;
  first_err graph_edge_owner (gb_edges b);;
  first_err graph_key_owner (gb_keys b).
End Graph.

Definition validate_graph (b : graph_body) : result RegErr unit :=
  index_unique gd_domain ∅ (gb_domains b);;
  principals ← index_unique pr_id ∅ (gb_principals b);
  edges ← index_unique ge_id ∅ (gb_edges b);
  keys ← index_unique gk_id ∅ (gb_keys b);
  graph_checks principals edges keys b.

(** [registrygraph.Validate]. *)
Definition ValidateGraph (e : Envelope) : result RegErr unit :=
  match parse (Body e) ≫= decode_graph with
  | None => Err (ErrRegistry "decode body")
  | Some b => validate_graph b
  end.

(** ** The authorization model *)
Definition UsageAdvice : string := "advice".
Definition UsageEdge : string := "edge".
Definition UsageRegistry : string := "registry".

Record RegisteredKey := mkRegisteredKey {
  rk_id : string;
  rk_public : bytes;
  rk_principal : string;
  rk_usage : string;
  rk_not_before : Z;
  rk_expires : Z;
  rk_revoked : option Z }.

Definition Usable (k : RegisteredKey) (at_ : Z) : bool :=
  match rk_revoked k with
  | Some r => if negb (at_ <? r) then false else negb (at_ <? rk_not_before k) && (at_ <? rk_expires k)
  | None => negb (at_ <? rk_not_before k) && (at_ <? rk_expires k)
  end.

Record Registry := mkRegistry {
  rg_revision : Z;
  rg_epoch : Z;
  rg_previous : string;
  rg_commitment : string;
  rg_author : string;
  rg_expires : Z;
  rg_domainsList : list DomainRoute;
  rg_principalsList : list PrincipalRecord;
  rg_edgesList : list EdgeRecord;
  rg_keysList : list RegisteredKey;
  rg_domains : gmap string DomainRoute;
  rg_principals : gmap string PrincipalRecord;
  rg_edges : gmap string EdgeRecord;
  rg_keys : gmap string RegisteredKey }.

(** [index]: the last record of an identifier. *)
Definition index_by {A} (id : A -> string) (l : list A) : gmap string A :=
  foldl (fun m x => <[id x := x]> m) ∅ l.

Definition decodePublicKey (encoded : string) : result RegErr bytes :=
  match b64_decode encoded with
  | Some raw => if negb (len raw =? PublicKeySize) || (b64_encode raw <>s? encoded)
                then Err (ErrRegistry "public key must be canonical base64url") else Ok raw
  | None => Err (ErrRegistry "public key must be canonical base64url")
  end.

Definition timestamp (what value : string) : result RegErr Z :=
  of_option (ErrRegistry what) (ParseTimestamp value).

Definition decode_registered_key (k : KeyRecord) : result RegErr RegisteredKey :=
  pk ← decodePublicKey (ky_public k);
  nb ← timestamp "key not_before" (ky_not_before k);
  ex ← timestamp "key expires_at" (ky_expires k);
  rv ← match ky_revoked k with
       | Some t => r ← timestamp "key revoked_at" t; Ok (Some r)
       | None => Ok None
       end;
  Ok (mkRegisteredKey (ky_id k) pk (ky_principal k) (ky_usage k) nb ex rv).

Fixpoint decode_all {A B} (f : A -> result RegErr B) (l : list A) : result RegErr (list B) :=
  match l with
  | [] => Ok []
  | x :: l => y ← f x; ys ← decode_all f l; Ok (y :: ys)
  end.

Record registryBody := mkBody {
  bd_revision : Z;
  bd_epoch : Z;
  bd_previous : option string;
  bd_domains : list DomainRoute;
  bd_principals : list PrincipalRecord;
  bd_edges : list EdgeRecord;
  bd_keys : list KeyRecord }.

Definition decode_body (v : json) : option registryBody :=
  decode_struct (fun l =>
    r ← field decode_int64 0 l "revision";
    n ← field decode_int64 0 l "routing_epoch";
    p ← field decode_string_ptr None l "previous_commitment";
    d ← field (decode_structs decode_route) [] l "domains";
    ps ← field (decode_structs decode_principal) [] l "principals";
    es ← field (decode_structs decode_edge) [] l "edges";
    ks ← field (decode_structs decode_key) [] l "keys";
    Some (mkBody r n p d ps es ks)) v.

Definition decodeRegistry (e : Envelope) (commitment : string) : result RegErr Registry :=
  ValidateGraph e;;
  body ← of_option (ErrRegistry "decode body") (parse (Body e) ≫= decode_body);
  expiresAt ← timestamp "envelope expires_at" (ExpiresAt e);
  keys ← decode_all decode_registered_key (bd_keys body);
  Ok {| rg_revision := bd_revision body; rg_epoch := bd_epoch body;
        rg_previous := default "" (bd_previous body);
        rg_commitment := commitment; rg_author := AuthorKeyID e; rg_expires := expiresAt;
        rg_domainsList := bd_domains body; rg_principalsList := bd_principals body;
        rg_edgesList := bd_edges body; rg_keysList := keys;
        rg_domains := index_by rt_domain (bd_domains body);
        rg_principals := index_by pr_id (bd_principals body);
        rg_edges := index_by ed_id (bd_edges body);
        rg_keys := index_by rk_id keys |}.

Section Queries.
Context (r : Registry).

Definition AuthorizesCaseIssuer (domain edgeID : string) : bool :=
  match rg_domains r !! domain with
  | None => false
  | Some route => if edgeID =s? "" then false else mem edgeID (rt_issuers route)
  end.

Definition AuthorizesCaseIssuerGeneration (domain edgeID : string) (generation : Z) : bool :=
  if (generation <=? 0) || negb (AuthorizesCaseIssuer domain edgeID) then false
  else match rg_edges r !! edgeID with
       | Some e => ed_generation e =? generation
       | None => false
       end.

Definition SigningKeyFor (principalID usage : string) (at_ : Z) : option RegisteredKey :=
  match rg_principals r !! principalID with
  | None => None
  | Some p =>
      (fix first ids := match ids with
                        | [] => None
                        | id :: ids =>
                            match rg_keys r !! id with
                            | Some k => if (rk_principal k =s? principalID) && (rk_usage k =s? usage) && Usable k at_
                                        then Some k else first ids
                            | None => first ids
                            end
                        end) (pr_keys p)
  end.

Inductive EpochVerdict := EpochCurrent | EpochHistorical | EpochFuture.

Definition EvaluateEpoch (domain : string) (epoch : Z) : result RegErr EpochVerdict :=
  match rg_domains r !! domain with
  | None => Err ErrUnknownDomain
  | Some route => if epoch =? rt_epoch route then Ok EpochCurrent
                  else if epoch <? rt_epoch route then Ok EpochHistorical
                  else Ok EpochFuture
  end.

Definition MachineAcceptableEpoch (domain : string) (epoch : Z) : bool :=
  match EvaluateEpoch domain epoch with Ok EpochCurrent => true | _ => false end.

Definition CheckBinding (revision : Z) (commitment : string) : result RegErr unit :=
  reject (negb (revision =? rg_revision r)) (ErrRegistry "envelope binds another revision");;
  reject (commitment <>s? rg_commitment r) (ErrRegistry "envelope binds a different snapshot").

Definition Expired (at_ : Z) : bool := negb (is_zero_time (rg_expires r)) && negb (at_ <? rg_expires r).
End Queries.

(** ** The root-pinned verifier *)
Record Trust := mkTrust { tr_author : string; tr_public : bytes }.

Definition NewTrust (authorKeyID : string) (pk : bytes) : result RegErr Trust :=
  if authorKeyID =s? "" then Err (ErrRegistry "trust author key id is required")
  else match NewEd25519VerifyingKey pk with
       | Err e => Err (ErrRegistrySsp e)
       | Ok verifying =>
           match verifying_public verifying with
           | Err e => Err (ErrRegistrySsp e)
           | Ok cloned => Ok (mkTrust authorKeyID cloned)
           end
       end.

Definition NewVerifier (t : Trust) : result RegErr Trust :=
  if (tr_author t =s? "") || negb (len (tr_public t) =? PublicKeySize)
  then Err (ErrRegistry "configured trust root is required") else Ok t.

Record Verified := mkVerifiedRegistry { ve_snapshot : Registry; ve_raw : bytes; ve_commitment : string }.

Definition lift_ssp {A} (r : result SspErr A) : result RegErr A :=
  match r with Ok a => Ok a | Err e => Err (ErrRegistrySsp e) end.

(** [Verifier.Verify] at the instant its clock returns. *)
Definition VerifyRoot `{Jcs} `{Ed25519} (t : Trust) (now : Z) (raw : bytes) : result RegErr Verified :=
  verifying ← lift_ssp (NewEd25519VerifyingKey (tr_public t));
  proof ← lift_ssp (VerifyRegistry raw (tr_author t) verifying now);
  envelope ← lift_ssp (vr_Envelope proof);
  commitment ← lift_ssp (vr_Commitment proof);
  snapshot ← decodeRegistry envelope commitment;
  Ok (mkVerifiedRegistry snapshot raw commitment).

Definition verified_commitment (v : Verified) : result RegErr string :=
  if ve_commitment v =s? "" then Err ErrUnverified else Ok (ve_commitment v).
