(* ===== verification/RegistryTheorems.v ===== *)
(** * internal/registrygraph and internal/registry: what an accepted graph is *)
From stdpp Require Import gmap.
From S2P Require Import Prelude GoText GoStrconv GoTime GoJson GoJsonRead GoBase64 Sha256 SspGuard SspBody SspRegistry SspEnvelope SspTheorems Registry.
Open Scope string_scope.
Open Scope Z_scope.
Open Scope snag_scope.

(** ** The declarative graph *)
Definition has_usage (b : graph_body) (p : PrincipalRecord) (usage : string) : Prop :=
  exists k, k ∈ gb_keys b /\ gk_id k ∈ pr_keys p /\ gk_principal k = pr_id p /\ gk_usage k = usage.

Definition route_resolves (b : graph_body) (r : graph_domain) : Prop :=
  (exists p, p ∈ gb_principals b /\ pr_id p = gd_dispatcher r /\ "dispatcher" ∈ pr_roles p /\ has_usage b p "advice") /\
  (forall id, id ∈ gd_specialists r -> exists p, p ∈ gb_principals b /\ pr_id p = id /\ "specialist" ∈ pr_roles p) /\
  (forall id, id ∈ gd_issuers r -> exists e p, e ∈ gb_edges b /\ ge_id e = id /\
     p ∈ gb_principals b /\ pr_id p = ge_principal e /\ has_usage b p "edge").

Definition graph_ok (b : graph_body) : Prop :=
  NoDup (gd_domain <$> gb_domains b) /\ NoDup (pr_id <$> gb_principals b) /\
  NoDup (ge_id <$> gb_edges b) /\ NoDup (gk_id <$> gb_keys b) /\
  (forall r, r ∈ gb_domains b -> route_resolves b r) /\
  (forall p, p ∈ gb_principals b ->
     (forall id, id ∈ pr_keys p -> exists k, k ∈ gb_keys b /\ gk_id k = id /\ gk_principal k = pr_id p) /\
     (forall id, id ∈ pr_edges p -> exists e, e ∈ gb_edges b /\ ge_id e = id /\ ge_principal e = pr_id p)) /\
  (forall e, e ∈ gb_edges b -> exists p, p ∈ gb_principals b /\ pr_id p = ge_principal e /\
     "edge" ∈ pr_roles p /\ ge_id e ∈ pr_edges p) /\
  (forall k, k ∈ gb_keys b -> exists p, p ∈ gb_principals b /\ pr_id p = gk_principal k /\
     gk_id k ∈ pr_keys p /\ (gk_usage k = "registry" -> "registry-authority" ∈ pr_roles p)).

(** ** Maps over lists without repeated identifiers *)
Lemma index_unique_ok {A} (id : A -> string) l : forall m,
  (is_ok (index_unique id m l) = true <-> NoDup (id <$> l) /\ forall x, x ∈ l -> m !! id x = None) /\
  forall m', index_unique id m l = Ok m' ->
    forall k x, m' !! k = Some x <-> m !! k = Some x \/ (x ∈ l /\ id x = k).
Proof.
  induction l as [|y l IH]; intros m; cbn [index_unique fmap list_fmap].
  { split; [split; [intros _; split; [constructor|set_solver]|done]|]. intros m' [= <-] k x. set_solver. }
  rewrite list.NoDup_cons. destruct (m !! id y) as [z|] eqn:E.
  { split; [|done]. split; [done|]. intros (_ & H). rewrite (H y) in E; [done|set_solver]. }
  destruct (IH (<[id y := y]> m)) as [IH1 IH2]. split.
  - rewrite IH1. split.
    + intros (Hn & Hm). split_and!; [|done|].
      * intros (x & Hx & Hin)%list_elem_of_fmap. specialize (Hm x Hin). rewrite <- Hx, lookup_insert_eq in Hm. done.
      * intros x [->|Hx]%elem_of_cons; [done|]. specialize (Hm x Hx).
        destruct (decide (id y = id x)) as [He|He]; [by rewrite He, lookup_insert_eq in Hm|].
        by rewrite lookup_insert_ne in Hm.
    + intros ((Hy & Hn) & Hm). split; [done|]. intros x Hx. rewrite lookup_insert_ne; [apply Hm; set_solver|].
      intros He. apply Hy. rewrite He. by apply list_elem_of_fmap_2.
  - intros m' Hm' k x. rewrite (IH2 _ Hm' k x), elem_of_cons.
    destruct (decide (id y = k)) as [<-|He].
    + rewrite lookup_insert_eq. split; [intros [[= <-]|[? ?]]; auto|]. intros [H|[[->|Hx] Hi]]; [congruence|by left|by right].
    + rewrite lookup_insert_ne by done. naive_solver.
Qed.

Lemma index_unique_exact {A} (id : A -> string) l :
  (NoDup (id <$> l) <-> exists m, index_unique id ∅ l = Ok m) /\
  forall m, index_unique id ∅ l = Ok m -> forall k x, m !! k = Some x <-> x ∈ l /\ id x = k.
Proof.
  destruct (index_unique_ok id l ∅) as [H1 H2]. split.
  - transitivity (is_ok (index_unique id ∅ l) = true).
    + rewrite H1. split; [intros; split; [done|]; intros; apply lookup_empty|by intros [? _]].
    + destruct (index_unique id ∅ l); cbn; naive_solver.
  - intros m Hm k x. rewrite (H2 m Hm), lookup_empty. naive_solver.
Qed.

(** A lookup that must succeed with a property. *)
Lemma lookup_check {A} (m : gmap string A) id (l : list A) (f : A -> result RegErr unit) err (P : A -> Prop) k :
  (forall k x, m !! k = Some x <-> x ∈ l /\ id x = k) -> (forall x, f x = Ok tt <-> P x) ->
  match m !! k with None => Err err | Some x => f x end = Ok tt <-> exists x, x ∈ l /\ id x = k /\ P x.
Proof.
  intros Hm Hf. destruct (m !! k) as [x|] eqn:E.
  - apply Hm in E as [Hx Hid]. rewrite Hf. split; [eauto|]. intros (y & Hy & Hidy & HP).
    assert (Hyx : m !! k = Some y) by by apply Hm. assert (Hxx : m !! k = Some x) by by apply Hm. congruence.
  - split; [done|]. intros (y & Hy & Hid & _). rewrite (proj2 (Hm k y)) in E; done.
Qed.

Lemma first_err_all {A} (f : A -> result RegErr unit) (P : A -> Prop) l : (forall x, f x = Ok tt <-> P x) ->
  first_err f l = Ok tt <-> forall x, x ∈ l -> P x.
Proof.
  intros Hf. rewrite first_err_ok, (Forall_iff _ _ _ Hf), Forall_forall. setoid_rewrite list_elem_of_In. done.
Qed.

Lemma reg_reject c (e : RegErr) : reject c e = Ok tt <-> c = false.
Proof. by destruct c. Qed.

Lemma reg_then (m k : result RegErr unit) : (m;; k) = Ok tt <-> m = Ok tt /\ k = Ok tt.
Proof. destruct m as [[]|]; cbn; naive_solver. Qed.

Section GraphExact.
Context (b : graph_body).
Context (principals : gmap string PrincipalRecord) (edges : gmap string graph_edge) (keys : gmap string graph_key).
Hypothesis Hp : forall k x, principals !! k = Some x <-> x ∈ gb_principals b /\ pr_id x = k.
Hypothesis He : forall k x, edges !! k = Some x <-> x ∈ gb_edges b /\ ge_id x = k.
Hypothesis Hk : forall k x, keys !! k = Some x <-> x ∈ gb_keys b /\ gk_id x = k.

Lemma usage_exact p u : principalHasUsage p keys u = true <-> has_usage b p u.
Proof using Hk.
  unfold principalHasUsage, has_usage. rewrite existsb_exists. split.
  - intros (id & Hid%list_elem_of_In & H). destruct (keys !! id) as [k|] eqn:E; [|done]. bools.
    apply Hk in E as [Hin <-]. eauto 10.
  - intros (k & Hin & Hc & <- & <-). exists (gk_id k). split; [by apply list_elem_of_In|].
    rewrite (proj2 (Hk (gk_id k) k)) by done. by rewrite !String.eqb_refl.
Qed.

Lemma issuer_exact id : graph_issuer principals edges keys id = Ok tt <->
  exists e p, e ∈ gb_edges b /\ ge_id e = id /\ p ∈ gb_principals b /\ pr_id p = ge_principal e /\ has_usage b p "edge".
Proof using Hp He Hk.
  unfold graph_issuer. rewrite (lookup_check _ ge_id _ _ _ (fun e => exists p, p ∈ gb_principals b /\
    pr_id p = ge_principal e /\ has_usage b p "edge") _ He); [naive_solver|].
  intros e. cbn zeta. rewrite reg_reject, negb_false_iff. destruct (principals !! ge_principal e) as [p|] eqn:E; cbn [default].
  - apply Hp in E as [Hin Hid]. rewrite usage_exact. split; [eauto|]. intros (q & Hq & Hqid & Hu).
    assert (H1 : principals !! ge_principal e = Some q) by by apply Hp.
    assert (H2 : principals !! ge_principal e = Some p) by by apply Hp. rewrite H1 in H2. by injection H2 as <-.
  - split; [done|]. intros (p & Hin & Hid & _). rewrite (proj2 (Hp _ p)) in E; done.
Qed.

Lemma route_exact r : graph_route principals edges keys r = Ok tt <-> route_resolves b r.
Proof using Hp He Hk.
  unfold graph_route, route_resolves.
  rewrite (lookup_check _ pr_id _ _ _ (fun p => ("dispatcher" ∈ pr_roles p /\ has_usage b p "advice") /\
    (forall id, id ∈ gd_specialists r -> exists p, p ∈ gb_principals b /\ pr_id p = id /\ "specialist" ∈ pr_roles p) /\
    (forall id, id ∈ gd_issuers r -> exists e p, e ∈ gb_edges b /\ ge_id e = id /\
       p ∈ gb_principals b /\ pr_id p = ge_principal e /\ has_usage b p "edge")) _ Hp); [naive_solver|].
  intros p. rewrite !reg_then, !reg_reject, !negb_false_iff, mem_spec, usage_exact.
  rewrite (first_err_all _ _ _ issuer_exact).
  rewrite (first_err_all _ (fun id => exists p, p ∈ gb_principals b /\ pr_id p = id /\ "specialist" ∈ pr_roles p)); [naive_solver|].
  intros id. unfold graph_specialist.
  rewrite (lookup_check _ pr_id _ _ _ (fun p => "specialist" ∈ pr_roles p) _ Hp); [done|].
  intros q. by rewrite reg_reject, negb_false_iff, mem_spec.
Qed.

Lemma owner_exact p : graph_principal edges keys p = Ok tt <->
  (forall id, id ∈ pr_keys p -> exists k, k ∈ gb_keys b /\ gk_id k = id /\ gk_principal k = pr_id p) /\
  (forall id, id ∈ pr_edges p -> exists e, e ∈ gb_edges b /\ ge_id e = id /\ ge_principal e = pr_id p).
Proof using He Hk.
  unfold graph_principal. rewrite reg_then. f_equiv; apply first_err_all; intros id.
  - unfold claims_key. apply (lookup_check _ gk_id); [done|]. intros k. by rewrite reg_reject, negb_false_iff, String.eqb_eq.
  - unfold claims_edge. apply (lookup_check _ ge_id); [done|]. intros k. by rewrite reg_reject, negb_false_iff, String.eqb_eq.
Qed.

Lemma checks_exact : graph_checks principals edges keys b = Ok tt <->
  (forall r, r ∈ gb_domains b -> route_resolves b r) /\
  (forall p, p ∈ gb_principals b ->
     (forall id, id ∈ pr_keys p -> exists k, k ∈ gb_keys b /\ gk_id k = id /\ gk_principal k = pr_id p) /\
     (forall id, id ∈ pr_edges p -> exists e, e ∈ gb_edges b /\ ge_id e = id /\ ge_principal e = pr_id p)) /\
  (forall e, e ∈ gb_edges b -> exists p, p ∈ gb_principals b /\ pr_id p = ge_principal e /\
     "edge" ∈ pr_roles p /\ ge_id e ∈ pr_edges p) /\
  (forall k, k ∈ gb_keys b -> exists p, p ∈ gb_principals b /\ pr_id p = gk_principal k /\
     gk_id k ∈ pr_keys p /\ (gk_usage k = "registry" -> "registry-authority" ∈ pr_roles p)).
Proof using Hp He Hk.
  unfold graph_checks. rewrite !reg_then. f_equiv; [by apply first_err_all, route_exact|].
  f_equiv; [by apply first_err_all, owner_exact|]. f_equiv; apply first_err_all; intros x.
  - unfold graph_edge_owner. apply (lookup_check _ pr_id); [done|].
    intros p. by rewrite reg_then, !reg_reject, !negb_false_iff, !mem_spec.
  - unfold graph_key_owner. apply (lookup_check _ pr_id); [done|].
    intros p. rewrite reg_then, !reg_reject, andb_false_iff, !negb_false_iff, !mem_spec, String.eqb_neq.
    destruct (decide (gk_usage x = "registry")); naive_solver.
Qed.
End GraphExact.

Lemma graph_spec b : validate_graph b = Ok tt <-> graph_ok b.
Proof.
  unfold validate_graph, graph_ok.
  destruct (index_unique_exact gd_domain (gb_domains b)) as [Nd _].
  destruct (index_unique_exact pr_id (gb_principals b)) as [Np Hp].
  destruct (index_unique_exact ge_id (gb_edges b)) as [Ne He].
  destruct (index_unique_exact gk_id (gb_keys b)) as [Nk Hk].
  rewrite Nd, Np, Ne, Nk. clear Nd Np Ne Nk.
  destruct (index_unique gd_domain _ _) as [m0|]; cbn [mbind result_bind]; [|naive_solver].
  destruct (index_unique pr_id _ _) as [m1|]; cbn [mbind result_bind]; [|naive_solver].
  destruct (index_unique ge_id _ _) as [m2|]; cbn [mbind result_bind]; [|naive_solver].
  destruct (index_unique gk_id _ _) as [m3|]; cbn [mbind result_bind]; [|naive_solver].
  rewrite (checks_exact b m1 m2 m3); [|by apply Hp|by apply He|by apply Hk].
  split; [intros H; split_and!; (eauto || apply H)|tauto].
Qed.

(** C33: a registry graph is accepted exactly when it is consistent.  No
    identifier is used twice; every route's dispatcher, specialists and issuer
    edges resolve to principals with the right roles and keys; and ownership is
    two-way: a principal claims exactly the keys and edges that name it, an
    edge's owner has the edge role, and a registry key's owner is a registry
    authority. *)
Theorem graph_exact b : validate_graph b = Ok tt <-> graph_ok b.
Proof. apply graph_spec. Qed.

(** ** The snapshot has the graph that was validated

    [registrygraph] and [registry] decode the same members, so a snapshot
    inherits what the graph check established. *)
Lemma field_pair {A B} (f : A -> json -> option A) (g : B -> json -> option B) (R : A -> B -> Prop) za zb l name :
  (forall a b v a' b', R a b -> f a v = Some a' -> g b v = Some b' -> R a' b') -> R za zb ->
  forall a b, field f za l name = Some a -> field g zb l name = Some b -> R a b.
Proof.
  unfold field. intros Hfg. revert za zb. induction l as [|m l IH] using rev_ind; intros za zb Hz a b.
  { cbn. by intros [= <-] [= <-]. }
  rewrite !foldl_app. cbn [foldl]. destruct (foldl _ (Some za) l) as [x|] eqn:Ex; [|done].
  destruct (foldl _ (Some zb) l) as [y|] eqn:Ey; [|done]. cbn. specialize (IH za zb Hz x y Ex Ey).
  destruct (m.1.1 =s? name); [eauto|]. by intros [= <-] [= <-].
Qed.

Lemma structs_pair {A B} (f : members -> option A) (g : members -> option B) (R : A -> B -> Prop) xs ys v xs' ys' :
  (forall l a b, f l = Some a -> g l = Some b -> R a b) ->
  decode_structs f xs v = Some xs' -> decode_structs g ys v = Some ys' -> Forall2 R xs' ys'.
Proof.
  intros Hfg. destruct v; try done; cbn [decode_structs].
  { intros [= <-] [= <-]. constructor. }
  intros H1%mapM_Some H2%mapM_Some. revert ys' H2.
  induction H1 as [|m x l xs0 Hx H1 IH]; intros ys' H2; inversion H2 as [|m' y l' ys0 Hy H2']; subst; constructor; [|auto].
  destruct m.2 eqn:Em; try done; cbn in Hx, Hy; eauto.
Qed.

Definition same_edge (g : graph_edge) (e : EdgeRecord) : Prop :=
  ge_id g = ed_id e /\ ge_principal g = ed_principal e /\ ge_generation g = ed_generation e.

Lemma edge_decoders l g e : decode_graph_edge l = Some g -> decode_edge l = Some e -> same_edge g e.
Proof.
  unfold decode_graph_edge, decode_edge. destruct (field _ _ _ "edge_id"); [|done].
  destruct (field _ _ _ "generation"), (field _ _ _ "principal_id"); cbn; [|done..]. by intros [= <-] [= <-].
Qed.

Lemma graph_of_body v b bd : decode_graph v = Some b -> decode_body v = Some bd ->
  gb_principals b = bd_principals bd /\ Forall2 same_edge (gb_edges b) (bd_edges bd).
Proof.
  assert (Hl : forall l b bd,
    decode_graph (JObject l) = Some b -> decode_body (JObject l) = Some bd ->
    gb_principals b = bd_principals bd /\ Forall2 same_edge (gb_edges b) (bd_edges bd)).
  { clear. intros l b bd. unfold decode_graph, decode_body, decode_struct. intros H1 H2.
    repeat match type of H1 with (_ ≫= _) = Some _ => apply bind_Some in H1 as (? & ? & H1) end.
    repeat match type of H2 with (_ ≫= _) = Some _ => apply bind_Some in H2 as (? & ? & H2) end.
    injection H1 as <-. injection H2 as <-. cbn. split; [congruence|].
    refine (field_pair _ _ (Forall2 same_edge) _ _ l "edges" _ _ _ _ _ _); [|constructor|eassumption..].
    intros xs ys w xs' ys' _. apply structs_pair, edge_decoders. }
  destruct v; try done; [apply (Hl [])|apply Hl].
Qed.

Lemma index_by_lookup {A} (id : A -> string) l k x : index_by id l !! k = Some x -> x ∈ l /\ id x = k.
Proof.
  unfold index_by. induction l as [|y l IH] using rev_ind; [cbn [foldl]; by rewrite lookup_empty|]. rewrite foldl_app. cbn [foldl].
  rewrite lookup_insert_Some. set_solver.
Qed.

(** An edge of the snapshot is claimed by its registered owner. *)
Lemma snapshot_claims e c snapshot id edge p :
  decodeRegistry e c = Ok snapshot -> rg_edges snapshot !! id = Some edge ->
  rg_principals snapshot !! ed_principal edge = Some p -> mem id (pr_edges p) = true.
Proof.
  unfold decodeRegistry, ValidateGraph. intros H He Hp.
  destruct (parse (Body e)) as [v|]; cbn [mbind option_bind] in H; [|done].
  destruct (decode_graph v) as [b|] eqn:Eb; [|done].
  destruct (validate_graph b) as [[]|] eqn:Ev; [|done]. cbn [mbind result_bind] in H.
  destruct (decode_body v) as [bd|] eqn:Ed; [|done]. cbn [of_option mbind result_bind] in H.
  inv_result. cbn [rg_edges rg_principals] in He, Hp. apply graph_spec in Ev as (_ & Hn & _ & _ & _ & _ & Ho & _).
  destruct (graph_of_body _ _ _ Eb Ed) as [Hps Hes].
  apply index_by_lookup in He as [He <-]. apply index_by_lookup in Hp as [Hp Hid].
  apply list_elem_of_lookup in He as [n He]. destruct (Forall2_lookup_r _ _ _ _ _ Hes He) as (g & Hg & Hgi & Hgp & _).
  destruct (Ho g) as (q & Hq & Hqi & _ & Hc); [by apply list_elem_of_lookup_2 in Hg|].
  assert (p = q) as ->; [|apply mem_spec; congruence].
  rewrite <- Hps in Hp. apply list_elem_of_lookup in Hp as [i Hi]. apply list_elem_of_lookup in Hq as [j Hj].
  assert (i = j); [|congruence]. eapply (NoDup_lookup _ i j (ed_principal edge) Hn);
    rewrite list_lookup_fmap; [rewrite Hi|rewrite Hj]; cbn; congruence.
Qed.
