(* ===== verification/ControlApi.v ===== *)
(** * internal/controlapi/service.go: admission into the authority

    The control plane admits an envelope only after verifying it against the
    exact registry snapshot it names, and hands the exact bytes to the store.
    [clock n] is the n-th reading of the service's clock in a call, [dbs n] the
    database as its n-th read sees it; the commit itself is the store's.

    The bodies decoded with encoding/json after verification have exactly the
    members of their family, so exact names decide; the binding hint of a
    still unverified advice is read with encoding/json's case folding. *)
From stdpp Require Import gmap.
From S2P Require Import Prelude GoText GoStrconv GoTime GoJson GoJsonRead GoBase64 Sha256 Authority PgTx AuthorityStore.
From S2P Require Import SspGuard SspBody SspRegistry SspEnvelope GoJsonWire Registry.
Open Scope string_scope.
Open Scope Z_scope.
Open Scope snag_scope.

Inductive CtlErr : Type :=
| CtlUnauthorized
| CtlRejected (operation : string)
| CtlExpiredInput
| CtlInvalidCaseBinding
| CtlAuthority (e : AErr)
| CtlRegistry (e : RegErr).

Record Workload := mkWorkload { wl_principal : string; wl_edge : string; wl_generation : Z }.

(** [ct_authority] is the authority identifier the store was opened with. *)
Record ControlService := mkControl {
  ct_tenant : string;
  ct_authority : string;
  ct_trust : Trust;
  ct_publisher : string }.

Definition NewControl (tenant authority : string) (trust : Trust) (publisher : string) : result CtlErr ControlService :=
  if is_empty (TrimSpace tenant) || is_empty (TrimSpace publisher) then Err (CtlRejected "configuration")
  else match NewVerifier trust with
       | Err e => Err (CtlRegistry e)
       | Ok trust => Ok (mkControl tenant authority trust publisher)
       end.

(** ** Errors: [errors.Is] and [classifySSPError] *)
Fixpoint ssp_is_expired (e : SspErr) : bool :=
  match e with ErrExpiredEnvelope => true | ErrInvalidEnvelope e => ssp_is_expired e | _ => false end.
Definition ssp_is_invalid (e : SspErr) : bool :=
  match e with ErrInvalidEnvelope _ => true | _ => false end.
Definition reg_is_expired (e : RegErr) : bool :=
  match e with ErrRegistrySsp e => ssp_is_expired e | _ => false end.
Definition reg_is_invalid (e : RegErr) : bool :=
  match e with ErrRegistrySsp e => ssp_is_invalid e | _ => false end.

Definition classifySSPError (operation : string) (e : RegErr) : CtlErr :=
  if reg_is_expired e then CtlExpiredInput
  else if reg_is_invalid e then CtlRejected operation
  else CtlUnauthorized.

(** ** Bodies *)
Record caseBody := mkCaseBody { cb_domain : string; cb_edge : string; cb_generation : Z }.

Definition decode_case_body (raw : bytes) : option caseBody :=
  parse raw ≫= decode_struct (fun l =>
    d ← field decode_string "" l "domain";
    e ← field decode_string "" l "issuer_edge_id";
    g ← field decode_int64 0 l "issuer_edge_generation";
    Some (mkCaseBody d e g)).

Definition decode_advice_body (raw : bytes) : option string :=
  parse raw ≫= decode_struct (fun l => field decode_string "" l "case_commitment").

(** The hint is read with the case folding of encoding/json. *)
Definition decode_hint (raw : bytes) : option string :=
  parse raw ≫= decode_struct (fun l =>
    foldl (fun acc m => cur ← acc; if folds m.1.1 "case_commitment" then decode_string cur m.2 else Some cur) (Some "") l).

Section Service.
Context `{Jcs} `{Ed25519} (s : ControlService).

(** ** Verification against a snapshot; an error that is none of ssp's is
    [CtlUnauthorized] in the end. *)
Definition verifyRegisteredEnvelope (raw : bytes) (header : EnvelopeHeader) (snapshot : Registry)
  (usage : string) (now : Z) : result RegErr (RegisteredKey * Envelope) :=
  match rg_keys snapshot !! hd_author header with
  | None => Err (ErrRegistry "unauthorized")
  | Some key =>
      if (rk_usage key <>s? usage) || negb (Usable key now) then Err (ErrRegistry "unauthorized")
      else
        verifying ← lift_ssp (NewEd25519VerifyingKey (rk_public key));
        verified ← lift_ssp (Verify raw {[ hd_author header := verifying ]} now);
        match ParseTimestamp (EmittedAt verified) with
        | Some emittedAt => if negb (Usable key emittedAt) then Err (ErrRegistry "unauthorized") else Ok (key, verified)
        | None => Err (ErrRegistry "unauthorized")
        end
  end.

Definition resolveRegistry (clock : nat -> Z) (db : DB) (header : EnvelopeHeader) : result CtlErr Registry :=
  match ResolveRegistry (ct_tenant s) (hd_revision header) (hd_registry_hash header) db with
  | Err e => Err (CtlAuthority e)
  | Ok record =>
      match VerifyRoot (ct_trust s) (clock 0%nat) (rr_Raw record) with
      | Err e => if reg_is_expired e then Err CtlExpiredInput else Err (CtlRegistry e)
      | Ok verified =>
          match verified_commitment verified with
          | Err e => Err (CtlRegistry e)
          | Ok commitment =>
              let snapshot := ve_snapshot verified in
              if negb (rr_Revision record =? hd_revision header) || (rr_Commitment record <>s? hd_registry_hash header)
                 || (commitment <>s? rr_Commitment record) || negb (rg_revision snapshot =? rr_Revision record)
                 || negb (rg_epoch snapshot =? rr_RoutingEpoch record) || Expired snapshot (clock 1%nat)
                 || negb (is_ok (CheckBinding snapshot (hd_revision header) (hd_registry_hash header)))
              then Err CtlExpiredInput
              else Ok snapshot
          end
      end
  end.

Definition later (n : nat) (clock : nat -> Z) : nat -> Z := fun k => clock (n + k)%nat.

Definition zero_edge : EdgeRecord := mkEdge "" "" 0.
Definition zero_route : DomainRoute := mkRoute "" "" [] [] [] 0.

(** ** Submitting a case *)
Definition case_unauthorized (w : Workload) (header : EnvelopeHeader) (snapshot : Registry)
  (key : RegisteredKey) (verified : Envelope) (body : caseBody) : bool :=
  let edge := default zero_edge (rg_edges snapshot !! cb_edge body) in
  let principal := default zero_principal (rg_principals snapshot !! ed_principal edge) in
  let route := default zero_route (rg_domains snapshot !! cb_domain body) in
  (wl_principal w =s? "") || (wl_edge w =s? "") || (wl_generation w <=? 0)
  || negb (bool_decide (is_Some (rg_edges snapshot !! cb_edge body)))
  || negb (bool_decide (is_Some (rg_principals snapshot !! ed_principal edge)))
  || negb (bool_decide (is_Some (rg_domains snapshot !! cb_domain body)))
  || (wl_edge w <>s? cb_edge body)
  || negb (wl_generation w =? cb_generation body) || negb (ed_generation edge =? cb_generation body)
  || (wl_principal w <>s? ed_principal edge) || (rk_principal key <>s? ed_principal edge)
  || negb (mem (hd_author header) (pr_keys principal))
  || negb (AuthorizesCaseIssuerGeneration snapshot (cb_domain body) (cb_edge body) (cb_generation body))
  || negb (mem SspFamilyCase (rt_families route))
  || negb (MachineAcceptableEpoch snapshot (cb_domain body) (RoutingEpoch verified)).

Definition submitCase (clock : nat -> Z) (w : Workload) (raw : bytes) (header : EnvelopeHeader) (snapshot : Registry)
  : result CtlErr CommitCaseRequest :=
  match verifyRegisteredEnvelope raw header snapshot UsageEdge (clock 0%nat) with
  | Err e => Err (classifySSPError "verify case" e)
  | Ok (key, verified) =>
      if Schema verified <>s? SspFamilyCase then Err (CtlRejected "verify case family")
      else if rk_principal key =s? "" then Err CtlUnauthorized
      else match decode_case_body (Body verified) with
      | None => Err (CtlRejected "decode verified case")
      | Some body =>
          if case_unauthorized w header snapshot key verified body then Err CtlUnauthorized
          else match EnvelopeCommitment raw (clock 1%nat), ParseTimestamp (ExpiresAt verified) with
          | Err _, _ => Err (CtlRejected "calculate case commitment")
          | Ok _, None => Err (CtlRejected "parse case expiry")
          | Ok commitment, Some expiresAt =>
              Ok {| cc_TenantID := ct_tenant s; cc_CaseID := CaseID verified; cc_EnvelopeID := ID verified;
                    cc_Commitment := commitment; cc_Raw := raw; cc_Domain := cb_domain body;
                    cc_IssuerEdgeID := cb_edge body; cc_IssuerEdgeGeneration := cb_generation body;
                    cc_RoutingEpoch := RoutingEpoch verified; cc_RegistryRevision := RegistryRevision verified;
                    cc_RegistryHash := RegistryHash verified; cc_ExpiresAt := expiresAt;
                    cc_PrincipalID := wl_principal w; cc_EdgeID := wl_edge w;
                    cc_Decision := "verified_case_admission" |}
          end
      end
  end.

(** ** Submitting an advice *)
Record committedCase := mkCommitted { cm_commitment : string; cm_domain : string; cm_record : CaseRecord }.

Definition findCommittedCase (clock : nat -> Z) (db : DB) (caseID commitment : string)
  (header : EnvelopeHeader) (snapshot : Registry) : result CtlErr committedCase :=
  match ResolveCase (ct_tenant s) caseID commitment db with
  | Err e => Err (CtlAuthority e)
  | Ok fact =>
      match ReadHeader (cs_Raw fact) with
      | Err _ => Err CtlInvalidCaseBinding
      | Ok caseHeader =>
          if negb (hd_revision caseHeader =? hd_revision header)
             || (hd_registry_hash caseHeader <>s? hd_registry_hash header)
             || negb (hd_epoch caseHeader =? hd_epoch header) then Err CtlInvalidCaseBinding
          else match verifyRegisteredEnvelope (cs_Raw fact) caseHeader snapshot UsageEdge (clock 0%nat) with
          | Err e => if reg_is_expired e then Err CtlExpiredInput else Err CtlInvalidCaseBinding
          | Ok (key, verified) =>
              if (Schema verified <>s? SspFamilyCase) || (rk_principal key =s? "") then Err CtlInvalidCaseBinding
              else match EnvelopeCommitment (cs_Raw fact) (clock 1%nat) with
              | Err _ => Err CtlInvalidCaseBinding
              | Ok actual =>
                  if actual <>s? cs_Commitment fact then Err CtlInvalidCaseBinding
                  else match decode_case_body (Body verified) with
                  | None => Err CtlInvalidCaseBinding
                  | Some body =>
                      if (CaseID verified <>s? caseID) || (cb_domain body =s? "") || (cb_domain body <>s? cs_Domain fact)
                      then Err CtlInvalidCaseBinding
                      else Ok (mkCommitted (cs_Commitment fact) (cb_domain body) fact)
                  end
              end
          end
      end
  end.

Definition advice_unauthorized (w : Workload) (header : EnvelopeHeader) (snapshot : Registry)
  (key : RegisteredKey) (domain : string) : bool :=
  let route := default zero_route (rg_domains snapshot !! domain) in
  let principal := default zero_principal (rg_principals snapshot !! rt_dispatcher route) in
  (wl_principal w =s? "") || (wl_principal w <>s? rt_dispatcher route) || (wl_edge w <>s? "") || negb (wl_generation w =? 0)
  || negb (bool_decide (is_Some (rg_domains snapshot !! domain))) || (rt_dispatcher route =s? "")
  || (rk_principal key <>s? rt_dispatcher route)
  || negb (bool_decide (is_Some (rg_principals snapshot !! rt_dispatcher route)))
  || negb (mem (hd_author header) (pr_keys principal))
  || negb (mem SspFamilyAdvice (rt_families route))
  || negb (MachineAcceptableEpoch snapshot domain (hd_epoch header)).

(** The untrusted body of an advice: the wire passed [ReadHeader]. *)
Definition advice_hint (raw : bytes) : result CtlErr string :=
  match decodeStrictEnvelope raw with
  | Err _ => Err (CtlRejected "decode advice binding hint")
  | Ok untrusted => of_option (CtlRejected "decode advice binding hint body") (decode_hint (Body untrusted))
  end.

Definition submitAdvice (clock : nat -> Z) (db : DB) (w : Workload) (raw : bytes) (header : EnvelopeHeader)
  (snapshot : Registry) : result CtlErr CommitAdviceRequest :=
  hint ← advice_hint raw;
  committed ← findCommittedCase clock db (hd_case header) hint header snapshot;
  match verifyRegisteredEnvelope raw header snapshot UsageAdvice (clock 2%nat) with
  | Err e => Err (classifySSPError "verify advice" e)
  | Ok (key, verified) =>
      if Schema verified <>s? SspFamilyAdvice then Err (CtlRejected "verify advice family")
      else if rk_principal key =s? "" then Err CtlUnauthorized
      else if advice_unauthorized w header snapshot key (cm_domain committed) then Err CtlUnauthorized
      else match decode_advice_body (Body verified) with
      | None => Err (CtlRejected "decode verified advice")
      | Some caseCommitment =>
          if caseCommitment <>s? cm_commitment committed then Err CtlInvalidCaseBinding
          else match EnvelopeCommitment raw (clock 3%nat) with
          | Err _ => Err (CtlRejected "calculate advice commitment")
          | Ok commitment =>
              Ok {| ca_TenantID := ct_tenant s; ca_CaseID := CaseID verified; ca_EnvelopeID := ID verified;
                    ca_CaseCommitment := cm_commitment committed; ca_Commitment := commitment; ca_Raw := raw;
                    ca_RoutingEpoch := RoutingEpoch verified; ca_RegistryRevision := RegistryRevision verified;
                    ca_RegistryHash := RegistryHash verified; ca_PrincipalID := wl_principal w; ca_EdgeID := "";
                    ca_Decision := "verified_advice_admission" |}
          end
      end
  end.

(** ** Submit: what is handed to the store *)
Inductive Admission : Type :=
| AdmitCase (r : CommitCaseRequest)
| AdmitAdvice (r : CommitAdviceRequest).

Definition admitWire (clock : nat -> Z) (dbs : nat -> DB) (w : Workload) (raw : bytes) : result CtlErr Admission :=
  match ReadHeader raw with
  | Err _ => Err (CtlRejected "read envelope header")
  | Ok header =>
      if (hd_schema header <>s? SspFamilyCase) && (hd_schema header <>s? SspFamilyAdvice)
      then Err (CtlRejected "envelope family")
      else
        snapshot ← resolveRegistry clock (dbs 0%nat) header;
        if hd_schema header =s? SspFamilyCase
        then r ← submitCase (later 2 clock) w raw header snapshot; Ok (AdmitCase r)
        else r ← submitAdvice (later 2 clock) (dbs 1%nat) w raw header snapshot; Ok (AdmitAdvice r)
  end.

Definition lift_store {A} (x : DB * result AErr A) : DB * result CtlErr A :=
  (x.1, match x.2 with Ok a => Ok a | Err e => Err (CtlAuthority e) end).

Definition Submit (clock : nat -> Z) (dbs : nat -> DB) (w : Workload) (raw : bytes)
  (envs : nat -> AttemptEnv) (others : nat -> DB -> DB) (db : DB) : DB * result CtlErr CommitReceipt :=
  match admitWire clock dbs w raw with
  | Err e => (db, Err e)
  | Ok (AdmitCase r) => lift_store (CommitCase (ct_authority s) r envs others db)
  | Ok (AdmitAdvice r) => lift_store (CommitAdvice (ct_authority s) r envs others db)
  end.

(** ** Submitting a registry *)
Definition edges_of (snapshot : Registry) : gmap string RegistryEdge :=
  foldl (fun m e => <[ed_id e := {| re_PrincipalID := ed_principal e; re_Generation := ed_generation e |}]> m)
        ∅ (rg_edgesList snapshot).

Definition admit_registry (clock : nat -> Z) (w : Workload) (raw : bytes) : result CtlErr CommitRegistryRequest :=
  if (wl_principal w <>s? ct_publisher s) || (wl_edge w <>s? "") || negb (wl_generation w =? 0) then Err CtlUnauthorized
  else match ReadHeader raw with
  | Err _ => Err (CtlRejected "read registry header")
  | Ok header =>
      if hd_schema header <>s? SspFamilyRegistry then Err (CtlRejected "registry family")
      else match VerifyRoot (ct_trust s) (clock 0%nat) raw with
      | Err e => Err (classifySSPError "verify registry" e)
      | Ok verified =>
          let snapshot := ve_snapshot verified in
          match verified_commitment verified with
          | Err _ => Err (CtlRejected "calculate registry commitment")
          | Ok commitment =>
              if negb (rg_revision snapshot =? hd_revision header) || negb (rg_epoch snapshot =? hd_epoch header)
                 || Expired snapshot (clock 1%nat) then Err CtlExpiredInput
              else Ok {| cr_TenantID := ct_tenant s; cr_Revision := rg_revision snapshot; cr_EnvelopeID := hd_id header;
                         cr_Commitment := commitment; cr_Raw := raw; cr_RoutingEpoch := rg_epoch snapshot;
                         cr_PreviousCommitment := rg_previous snapshot; cr_Edges := Some (edges_of snapshot);
                         cr_PrincipalID := wl_principal w; cr_EdgeID := "";
                         cr_Decision := "verified_registry_admission" |}
          end
      end
  end.

Definition SubmitRegistry (clock : nat -> Z) (w : Workload) (raw : bytes)
  (envs : nat -> AttemptEnv) (others : nat -> DB -> DB) (db : DB) : DB * result CtlErr CommitReceipt :=
  match admit_registry clock w raw with
  | Err e => (db, Err e)
  | Ok r => lift_store (CommitRegistry (ct_authority s) r envs others db)
  end.

(** ** Evidence reads *)
Definition ControlResolveCase (clock : nat -> Z) (dbs : nat -> DB) (w : Workload) (caseID commitment : string)
  : result CtlErr CaseRecord :=
  match ResolveCase (ct_tenant s) caseID commitment (dbs 0%nat) with
  | Err e => Err (CtlAuthority e)
  | Ok record =>
      match ReadHeader (cs_Raw record) with
      | Err _ => Err CtlInvalidCaseBinding
      | Ok header =>
          if hd_schema header <>s? SspFamilyCase then Err CtlInvalidCaseBinding
          else
            snapshot ← resolveRegistry clock (dbs 1%nat) header;
            committed ← findCommittedCase (later 2 clock) (dbs 2%nat) caseID commitment header snapshot;
            let record := cm_record committed in
            let dispatcherAuthorized :=
              match rg_domains snapshot !! cm_domain committed with
              | Some route => (wl_principal w <>s? "") && (wl_principal w =s? rt_dispatcher route)
                              && (wl_edge w =s? "") && (wl_generation w =? 0)
              | None => false
              end in
            let edgeAuthorized :=
              match rg_edges snapshot !! cs_IssuerEdgeID record with
              | Some target => (wl_principal w <>s? "") && (wl_principal w =s? ed_principal target)
                               && (wl_edge w =s? cs_IssuerEdgeID record)
                               && (wl_generation w =? cs_IssuerEdgeGeneration record)
                               && (ed_generation target =? cs_IssuerEdgeGeneration record)
              | None => false
              end in
            if negb dispatcherAuthorized && negb edgeAuthorized then Err CtlUnauthorized else Ok record
      end
  end.

Definition ControlResolveRegistry (db : DB) (w : Workload) (revision : Z) (commitment : string)
  : result CtlErr RegistryRecord :=
  if (wl_principal w =s? "") || (wl_edge w =s? "") || (wl_generation w <=? 0) then Err CtlUnauthorized
  else match ResolveRegistry (ct_tenant s) revision commitment db with
  | Err e => Err (CtlAuthority e)
  | Ok record =>
      match ReadHeader (rr_Raw record) with
      | Err _ => Err CtlInvalidCaseBinding
      | Ok header =>
          if hd_schema header <>s? SspFamilyRegistry then Err CtlInvalidCaseBinding
          else match ParseTimestamp (hd_emitted header) with
          | None => Err CtlInvalidCaseBinding
          | Some emittedAt =>
              match NewVerifier (ct_trust s) with
              | Err e => Err (CtlRegistry e)
              | Ok trust =>
                  match VerifyRoot trust emittedAt (rr_Raw record) with
                  | Err e => Err (CtlRegistry e)
                  | Ok verified =>
                      let snapshot := ve_snapshot verified in
                      match verified_commitment verified with
                      | Err e => Err (CtlRegistry e)
                      | Ok actual =>
                          match rg_edges snapshot !! wl_edge w with
                          | None => Err CtlUnauthorized
                          | Some edge =>
                              if (ed_principal edge <>s? wl_principal w) || negb (ed_generation edge =? wl_generation w)
                                 || (rr_TenantID record <>s? ct_tenant s) || negb (rr_Revision record =? revision)
                                 || negb (rr_Revision record =? rg_revision snapshot)
                                 || negb (rr_RoutingEpoch record =? rg_epoch snapshot)
                                 || (rr_Commitment record <>s? commitment) || (actual <>s? commitment)
                              then Err CtlUnauthorized else Ok record
                          end
                      end
                  end
              end
          end
      end
  end.
End Service.
