(* ===== verification/EdgeVerifier.v ===== *)
(** * internal/sspedge/authority_verifier.go: the edge verifies on its own

    The edge reconstructs a projection from the exact facts of the authority
    and a pinned registry root.  Everything is checked at the emission of the
    envelope, so that a verdict does not depend on when the edge reads.  The
    Go interface [ProjectionAuthority] is a record of three reads. *)
From stdpp Require Import gmap.
From S2P Require Import Prelude GoText GoStrconv GoTime GoJson GoJsonRead GoBase64 Sha256 DeliveryStream Authority.
From S2P Require Import SspGuard SspBody SspRegistry SspEnvelope Registry SqliteTx EdgeStore EdgeConsumer.
Open Scope string_scope.
Open Scope Z_scope.
Open Scope snag_scope.

Record ProjectionAuthority := mkAuthority {
  pa_ListEdgeDeliveries : EdgeDeliveryQuery -> result AErr EdgeDeliveryPage;
  pa_ResolveCase : string -> string -> result AErr CaseRecord;
  pa_ResolveRegistry : string -> Z -> string -> result AErr RegistryRecord }.

Record AuthorityVerifier := mkAuthorityVerifier {
  av_tenant : string;
  av_authority : ProjectionAuthority;
  av_trust : Trust }.

Definition NewAuthorityVerifier (tenant : string) (authority : ProjectionAuthority) (trust : Trust)
  : result RegErr AuthorityVerifier :=
  if is_empty (TrimSpace tenant) then Err (ErrRegistry "tenant and projection authority are required")
  else NewVerifier trust;; Ok (mkAuthorityVerifier tenant authority trust).

Record verifiedCaseBody := mkVerifiedCase {
  vc_domain : string;
  vc_edge : string;
  vc_generation : Z;
  vc_summary : string;
  vc_public : string;
  vc_manifest : string }.

Definition decode_verified_case (raw : bytes) : option verifiedCaseBody :=
  parse raw ≫= decode_struct (fun l =>
    d ← field decode_string "" l "domain";
    e ← field decode_string "" l "issuer_edge_id";
    g ← field decode_int64 0 l "issuer_edge_generation";
    s ← field decode_string "" l "summary";
    p ← field decode_string "" l "public_summary";
    m ← field decode_string "" l "context_manifest";
    Some (mkVerifiedCase d e g s p m)).

Record verifiedAdviceBody := mkVerifiedAdvice { va_case : string; va_text : string; va_public : string }.

Definition decode_verified_advice (raw : bytes) : option verifiedAdviceBody :=
  parse raw ≫= decode_struct (fun l =>
    c ← field decode_string "" l "case_commitment";
    t ← field decode_string "" l "text";
    p ← field decode_string "" l "public_summary";
    Some (mkVerifiedAdvice c t p)).

Notation permanent reason := (Err (Permanent reason)).
Definition else_permanent {E A} (reason : string) (r : result E A) : result VerificationError A :=
  match r with Ok a => Ok a | Err _ => permanent reason end.
Definition must {A} (reason : string) (o : option A) : result VerificationError A :=
  match o with Some a => Ok a | None => permanent reason end.

Section Verifier.
Context `{Jcs} `{Ed25519} (v : AuthorityVerifier).

(** ** The exact delivery *)
Definition resolveExactDelivery (d : JournalDelivery) : result VerificationError EdgeDelivery :=
  match pa_ListEdgeDeliveries (av_authority v)
          {| dq_TenantID := av_tenant v; dq_EdgeID := jd_EdgeID d; dq_PrincipalID := "";
             dq_EdgeGeneration := jd_EdgeGeneration d; dq_AfterSequence := jd_DeliverySeq d - 1; dq_Limit := 1 |} with
  | Err _ => Err (Transient "resolve exact authority delivery")
  | Ok page =>
      match dp_Deliveries page with
      | [found] => if negb (ed_Sequence found =? jd_DeliverySeq d) || (ed_Raw found <>s? jd_Raw d)
                   then Err (Transient "carrier delivery is not the exact PostgreSQL delivery")
                   else Ok found
      | _ => Err (Transient "carrier delivery is not the exact PostgreSQL delivery")
      end
  end.

(** ** The registry *)
Definition registry_record_mismatch (record : RegistryRecord) (revision : Z) (commitment : string) (epoch : Z) : bool :=
  (rr_TenantID record <>s? av_tenant v) || negb (rr_Revision record =? revision)
  || (rr_Commitment record <>s? commitment) || negb (rr_RoutingEpoch record =? epoch)
  || (rr_EnvelopeID record =s? "") || (len (rr_Raw record) =? 0) || (rr_AuthorityRevision record <=? 0).

Definition snapshot_mismatch (record : RegistryRecord) (header : EnvelopeHeader) (snapshot : Registry)
  (actual : string) (revision : Z) (commitment : string) (at_ : Z) : bool :=
  (hd_schema header <>s? SspFamilyRegistry) || (hd_id header <>s? rr_EnvelopeID record)
  || negb (hd_revision header =? rr_Revision record) || negb (hd_epoch header =? rr_RoutingEpoch record)
  || (actual <>s? rr_Commitment record) || negb (rg_revision snapshot =? rr_Revision record)
  || negb (rg_epoch snapshot =? rr_RoutingEpoch record) || Expired snapshot at_
  || negb (is_ok (CheckBinding snapshot revision commitment)).

Definition verifyRegistryRecord (record : RegistryRecord) (revision : Z) (commitment : string) (epoch at_ : Z)
  : result VerificationError Registry :=
  if registry_record_mismatch record revision commitment epoch then permanent "registry_authority_mismatch"
  else match NewVerifier (av_trust v) with
  | Err _ => Err (Transient "construct registry verifier")
  | Ok trust =>
      verified ← else_permanent "invalid_registry_proof" (VerifyRoot trust at_ (rr_Raw record));
      let snapshot := ve_snapshot verified in
      actual ← else_permanent "invalid_registry_proof" (verified_commitment verified);
      match ReadHeader (rr_Raw record) with
      | Err _ => permanent "registry_authority_mismatch"
      | Ok header => if snapshot_mismatch record header snapshot actual revision commitment at_
                     then permanent "registry_authority_mismatch" else Ok snapshot
      end
  end.

Definition resolveRegistry (header : EnvelopeHeader) (at_ : Z) : result VerificationError (RegistryRecord * Registry) :=
  match pa_ResolveRegistry (av_authority v) (av_tenant v) (hd_revision header) (hd_registry_hash header) with
  | Err ErrRegistryNotFound => permanent "registry_not_found"
  | Err _ => Err (Transient "resolve authority registry")
  | Ok record =>
      snapshot ← verifyRegistryRecord record (hd_revision header) (hd_registry_hash header) (hd_epoch header) at_;
      Ok (record, snapshot)
  end.

(** ** The signature *)
Definition verifyRegisteredEnvelope (raw : bytes) (header : EnvelopeHeader) (snapshot : Registry)
  (usage : string) (emittedAt : Z) : result VerificationError (RegisteredKey * Envelope) :=
  match rg_keys snapshot !! hd_author header with
  | None => permanent "unauthorized_signing_key"
  | Some key =>
      if (rk_usage key <>s? usage) || negb (Usable key emittedAt) then permanent "unauthorized_signing_key"
      else
        verifying ← else_permanent "invalid_signing_key" (NewEd25519VerifyingKey (rk_public key));
        envelope ← else_permanent "invalid_signature" (Verify raw {[ hd_author header := verifying ]} emittedAt);
        match ParseTimestamp (EmittedAt envelope) with
        | Some actual => if negb (actual =? emittedAt) || negb (Usable key actual)
                         then permanent "unauthorized_signing_key" else Ok (key, envelope)
        | None => permanent "unauthorized_signing_key"
        end
  end.

(** ** Cases *)
Definition issuer_unauthorized (snapshot : Registry) (header : EnvelopeHeader) (key : RegisteredKey)
  (envelope : Envelope) (body : verifiedCaseBody) : bool :=
  let edge := default (mkEdge "" "" 0) (rg_edges snapshot !! vc_edge body) in
  let principal := default zero_principal (rg_principals snapshot !! ed_principal edge) in
  let route := default (mkRoute "" "" [] [] [] 0) (rg_domains snapshot !! vc_domain body) in
  negb (bool_decide (is_Some (rg_edges snapshot !! vc_edge body)))
  || negb (bool_decide (is_Some (rg_principals snapshot !! ed_principal edge)))
  || negb (bool_decide (is_Some (rg_domains snapshot !! vc_domain body)))
  || negb (ed_generation edge =? vc_generation body) || (rk_principal key <>s? ed_principal edge)
  || negb (mem (hd_author header) (pr_keys principal)) || negb (mem (vc_edge body) (pr_edges principal))
  || negb (AuthorizesCaseIssuerGeneration snapshot (vc_domain body) (vc_edge body) (vc_generation body))
  || negb (mem SspFamilyCase (rt_families route))
  || negb (MachineAcceptableEpoch snapshot (vc_domain body) (RoutingEpoch envelope)).

Definition authorizeCase (snapshot : Registry) (header : EnvelopeHeader) (key : RegisteredKey) (envelope : Envelope)
  : result VerificationError verifiedCaseBody :=
  body ← must "invalid_case_body" (decode_verified_case (Body envelope));
  if issuer_unauthorized snapshot header key envelope body then permanent "unauthorized_case" else Ok body.

Definition validateAuthorityCaseRecord (record : CaseRecord) (tenant : string) (envelope : Envelope)
  (body : verifiedCaseBody) (commitment : string) (raw : bytes) (expiresAt : Z) : result VerificationError unit :=
  reject ((cs_TenantID record <>s? tenant) || (cs_CaseID record <>s? CaseID envelope)
          || (cs_EnvelopeID record <>s? ID envelope) || (cs_Commitment record <>s? commitment)
          || (cs_Raw record <>s? raw) || (cs_Domain record <>s? vc_domain body)
          || (cs_IssuerEdgeID record <>s? vc_edge body)
          || negb (cs_IssuerEdgeGeneration record =? vc_generation body)
          || negb (cs_RoutingEpoch record =? RoutingEpoch envelope)
          || negb (cs_RegistryRevision record =? RegistryRevision envelope)
          || (cs_RegistryHash record <>s? RegistryHash envelope)
          || negb (cs_ExpiresAt record =? expiresAt) || (cs_AuthorityRevision record <=? 0))
         (Permanent "case_authority_mismatch").

Definition resolveAuthorityCase (what caseID commitment : string) : result VerificationError CaseRecord :=
  match pa_ResolveCase (av_authority v) caseID commitment with
  | Err ErrCaseNotFound => permanent "case_not_found"
  | Err _ => Err (Transient what)
  | Ok record => Ok record
  end.

Definition case_projection (envelope : Envelope) (body : verifiedCaseBody) (commitment : string) (expiresAt : Z)
  : VerifiedProjection :=
  {| p_EnvelopeID := ID envelope; p_Commitment := commitment; p_Family := FamilyCase;
     p_Case := Some {| c_CaseID := CaseID envelope; c_IssuerEdgeID := vc_edge body; c_Domain := vc_domain body;
       c_Summary := vc_summary body; c_ContextManifest := vc_manifest body;
       c_IssuerEdgeGeneration := vc_generation body; c_RouteKind := "domain";
       c_RouteToken := RoutingToken (vc_domain body);
       c_SourceToken := EdgeRoutingToken (vc_edge body) (vc_generation body);
       c_RoutingEpoch := RoutingEpoch envelope; c_RegistryRevision := RegistryRevision envelope;
       c_RegistryHash := RegistryHash envelope; c_ExpiresAt := expiresAt |};
     p_Advice := None |}.

Definition verifyCaseDelivery (d : JournalDelivery) (header : EnvelopeHeader) (commitment : string)
  (snapshot : Registry) (emittedAt : Z) : result VerificationError (option VerifiedProjection) :=
  '(key, envelope) ← verifyRegisteredEnvelope (jd_Raw d) header snapshot UsageEdge emittedAt;
  body ← authorizeCase snapshot header key envelope;
  reject ((Schema envelope <>s? SspFamilyCase) || (vc_edge body <>s? jd_EdgeID d)
          || negb (vc_generation body =? jd_EdgeGeneration d)) (Permanent "delivery_identity_mismatch");;
  record ← resolveAuthorityCase "resolve authority case" (CaseID envelope) commitment;
  expiresAt ← must "invalid_case_expiry" (ParseTimestamp (ExpiresAt envelope));
  validateAuthorityCaseRecord record (av_tenant v) envelope body commitment (jd_Raw d) expiresAt;;
  Ok (Some (case_projection envelope body commitment expiresAt)).

(** ** Advices *)
Definition verifyCommittedCase (record : CaseRecord) (registryRecord : RegistryRecord)
  : result VerificationError (Envelope * verifiedCaseBody) :=
  header ← else_permanent "invalid_committed_case" (ReadHeader (cs_Raw record));
  reject (hd_schema header <>s? SspFamilyCase) (Permanent "invalid_committed_case");;
  emittedAt ← must "invalid_committed_case" (ParseTimestamp (hd_emitted header));
  snapshot ← verifyRegistryRecord registryRecord (hd_revision header) (hd_registry_hash header) (hd_epoch header) emittedAt;
  '(key, envelope) ← verifyRegisteredEnvelope (cs_Raw record) header snapshot UsageEdge emittedAt;
  body ← authorizeCase snapshot header key envelope;
  actual ← else_permanent "invalid_committed_case" (EnvelopeCommitment (cs_Raw record) emittedAt);
  expiresAt ← must "invalid_committed_case" (ParseTimestamp (ExpiresAt envelope));
  validateAuthorityCaseRecord record (av_tenant v) envelope body actual (cs_Raw record) expiresAt;;
  Ok (envelope, body).

Definition dispatcher_unauthorized (snapshot : Registry) (header : EnvelopeHeader) (key : RegisteredKey)
  (envelope : Envelope) (domain : string) : bool :=
  let route := default (mkRoute "" "" [] [] [] 0) (rg_domains snapshot !! domain) in
  let principal := default zero_principal (rg_principals snapshot !! rt_dispatcher route) in
  negb (bool_decide (is_Some (rg_domains snapshot !! domain)))
  || negb (bool_decide (is_Some (rg_principals snapshot !! rt_dispatcher route)))
  || (rk_principal key <>s? rt_dispatcher route) || negb (mem (hd_author header) (pr_keys principal))
  || negb (mem SspFamilyAdvice (rt_families route))
  || negb (MachineAcceptableEpoch snapshot domain (RoutingEpoch envelope)).

Definition advice_misbound (record : CaseRecord) (envelope caseEnvelope : Envelope) (body : verifiedAdviceBody)
  (d : JournalDelivery) : bool :=
  (va_case body <>s? cs_Commitment record) || (CaseID envelope <>s? cs_CaseID record)
  || negb (RoutingEpoch envelope =? cs_RoutingEpoch record)
  || negb (RegistryRevision envelope =? cs_RegistryRevision record)
  || (RegistryHash envelope <>s? cs_RegistryHash record) || (CaseID caseEnvelope <>s? CaseID envelope)
  || (cs_IssuerEdgeID record <>s? jd_EdgeID d)
  || negb (cs_IssuerEdgeGeneration record =? jd_EdgeGeneration d).

Definition advice_projection (envelope : Envelope) (body : verifiedAdviceBody) (record : CaseRecord)
  (commitment : string) (expiresAt : Z) : VerifiedProjection :=
  {| p_EnvelopeID := ID envelope; p_Commitment := commitment; p_Family := FamilyAdvice; p_Case := None;
     p_Advice := Some {| a_AdviceID := ID envelope; a_CaseID := CaseID envelope;
       a_CaseCommitment := cs_Commitment record; a_Text := va_text body; a_IssuerEdgeID := cs_IssuerEdgeID record;
       a_RouteKind := "edge"; a_RouteToken := EdgeRoutingToken (cs_IssuerEdgeID record) (cs_IssuerEdgeGeneration record);
       a_IssuerEdgeGeneration := cs_IssuerEdgeGeneration record; a_RoutingEpoch := cs_RoutingEpoch record;
       a_RegistryRevision := cs_RegistryRevision record; a_RegistryHash := cs_RegistryHash record;
       a_ExpiresAt := expiresAt |} |}.

Definition verifyAdviceDelivery (d : JournalDelivery) (header : EnvelopeHeader) (commitment : string)
  (registryRecord : RegistryRecord) (snapshot : Registry) (emittedAt : Z)
  : result VerificationError (option VerifiedProjection) :=
  '(key, envelope) ← verifyRegisteredEnvelope (jd_Raw d) header snapshot UsageAdvice emittedAt;
  reject (Schema envelope <>s? SspFamilyAdvice) (Permanent "unsupported_family");;
  body ← must "invalid_advice_body" (decode_verified_advice (Body envelope));
  record ← resolveAuthorityCase "resolve advice case" (CaseID envelope) (va_case body);
  '(caseEnvelope, caseBody) ← verifyCommittedCase record registryRecord;
  reject (dispatcher_unauthorized snapshot header key envelope (vc_domain caseBody)) (Permanent "unauthorized_advice");;
  reject (advice_misbound record envelope caseEnvelope body d) (Permanent "advice_case_binding_mismatch");;
  expiresAt ← must "invalid_advice_expiry" (ParseTimestamp (ExpiresAt envelope));
  Ok (Some (advice_projection envelope body record commitment expiresAt)).

(** ** Verify *)
Definition VerifyDelivery (d : JournalDelivery) : result VerificationError (option VerifiedProjection) :=
  reject ((jd_TenantID d <>s? av_tenant v) || (jd_EdgeID d =s? "") || (jd_EdgeGeneration d <=? 0)
          || (jd_DeliverySeq d <=? 0) || (len (jd_Raw d) =? 0)) (Permanent "delivery_identity_mismatch");;
  found ← resolveExactDelivery d;
  header ← else_permanent "malformed_envelope" (ReadHeader (jd_Raw d));
  reject ((hd_schema header <>s? SspFamilyCase) && (hd_schema header <>s? SspFamilyAdvice)) (Permanent "unsupported_family");;
  emittedAt ← must "invalid_emission_time" (ParseTimestamp (hd_emitted header));
  commitment ← else_permanent "invalid_envelope" (EnvelopeCommitment (jd_Raw d) emittedAt);
  let kind := if hd_schema header =s? SspFamilyAdvice then "advice" else "case" in
  reject ((ed_Kind found <>s? kind) || (ed_CaseID found <>s? hd_case header) || (ed_EnvelopeID found <>s? hd_id header)
          || (ed_Commitment found <>s? commitment) || (ed_AuthorityRevision found <=? 0))
         (Permanent "authority_delivery_mismatch");;
  '(registryRecord, snapshot) ← resolveRegistry header emittedAt;
  if hd_schema header =s? SspFamilyCase
  then verifyCaseDelivery d header commitment snapshot emittedAt
  else verifyAdviceDelivery d header commitment registryRecord snapshot emittedAt.
End Verifier.

(** The verifier as the consumer sees it. *)
Definition authority_verifier `{Jcs} `{Ed25519} (v : AuthorityVerifier) : Verifier := VerifyDelivery v.
