(* ===== verification/ControlTheorems.v ===== *)
(** * What control admits, and what the edge then accepts

    Control verifies an envelope when it arrives, the edge when it was emitted.
    The lemmas here carry a verification from one instant to the other. *)
From stdpp Require Import gmap.
From S2P Require Import Prelude GoText GoStrconv GoTime GoJson GoJsonRead GoBase64 Sha256 Authority PgTx AuthorityStore.
From S2P Require Import GoUtf8 GoJsonText SspGuard SspBody SspRegistry SspEnvelope SspStrip SspTheorems Registry RegistryTheorems ControlApi.
From S2P Require Import DeliveryStream SqliteTx EdgeStore EdgeConsumer EdgeVerifier.
Open Scope string_scope.
Open Scope Z_scope.
Open Scope snag_scope.

(** ** Instants *)
Lemma live_unique e now em ex : live e now -> ParseTimestamp (EmittedAt e) = Some em ->
  ParseTimestamp (ExpiresAt e) = Some ex -> em <= now < ex.
Proof. intros (a & b & Ha & Hb & H) Hem Hex. rewrite Ha in Hem. rewrite Hb in Hex. by simplify_eq. Qed.

Lemma live_emission e now em : live e now -> ParseTimestamp (EmittedAt e) = Some em -> live e em.
Proof. intros (a & b & Ha & Hb & H) Hem. exists a, b. rewrite Ha in Hem. simplify_eq. split_and!; (done || lia). Qed.

(** A later or earlier instant inside the window. *)
Lemma live_between e now now' em : live e now -> ParseTimestamp (EmittedAt e) = Some em -> em <= now' <= now -> live e now'.
Proof. intros (a & b & Ha & Hb & H) Hem Hn. exists a, b. rewrite Ha in Hem. simplify_eq. split_and!; (done || lia). Qed.

(** ** Struct fields of a strict body *)
Lemma field_skip {A} (decode : A -> json -> option A) zero l name :
  ~ In name (keys_of l) -> field decode zero l name = Some zero.
Proof.
  unfold field. revert zero. induction l as [|m l IH]; intros zero Hn; [done|]. cbn [foldl].
  cbn [keys_of map In] in Hn. cbn [mbind option_bind]. destruct (String.eqb_spec m.1.1 name) as [Hm|]; [tauto|]. apply IH. tauto.
Qed.

Lemma field_one {A} (decode : A -> json -> option A) zero l name raw v :
  NoDup (keys_of l) -> In (name, raw, v) l -> field decode zero l name = decode zero v.
Proof.
  unfold field. revert zero. induction l as [|m l IH]; intros zero Hn Hin; [done|].
  cbn [keys_of map] in Hn. apply list.NoDup_cons in Hn as [Hm Hn]. cbn [foldl mbind option_bind].
  destruct Hin as [->|Hin].
  - cbn [fst snd]. rewrite String.eqb_refl. cbn [fst] in Hm. rewrite list_elem_of_In in Hm.
    destruct (decode zero v) as [a|].
    + fold (field decode a l name). by apply field_skip.
    + clear. induction l as [|m l IH]; [done|]. cbn [foldl mbind option_bind]. apply IH.
  - destruct (String.eqb_spec m.1.1 name) as [He|]; [|by apply IH].
    exfalso. apply Hm. rewrite He. apply list_elem_of_In. by apply (in_map (fun m => m.1.1) _ _ Hin).
Qed.

(** The body of a strictly decoded envelope is one object without repeated
    members. *)
Lemma body_object raw e l : decodeStrictEnvelope raw = Ok e -> exactObject (Body e) = Ok l ->
  parse (Body e) = Some (JObject l) /\ NoDup (keys_of l) /\ Forall (fun m => text_of m.1.2 m.2) l.
Proof.
  intros Hd Hx. pose proof Hd as (lw & Hlw & Hdf)%decodeStrictEnvelope_spec.
  destruct Hdf as (_ & _ & (v & Hv) & _). destruct (exactObject_spec _ _ Hlw) as [_ Ht].
  pose proof (text_In _ _ _ _ Ht Hv) as Htv. pose proof (parse_text _ _ Htv) as Hp.
  assert (Hg : guard_ok 1 v = true).
  { unfold decodeStrictEnvelope in Hd. destruct (rawGuard raw) as [[]|] eqn:Hg; [|done].
    apply rawGuard_spec in Hg as (_ & _ & _ & l' & Hl' & Hg). rewrite Hlw in Hl'. injection Hl' as <-.
    cbn [guard_ok] in Hg. bools. by apply (proj1 (forallb_forall _ _) H0 _ Hv). }
  assert (exists l', v = JObject l') as [l' ->].
  { destruct Htv as [Hs (n & Hn)]. destruct (Body e) as [|a s]; [done|].
    apply (parse_value_object _ _ _ _ _ Hn). apply parse_value_kind in Hn as [_ Hk].
    assert (Ha : plain_byte a = true) by (apply value_byte_plain; rewrite Hk; by destruct v).
    destruct (TrimSpace_first a s Ha) as [t Et]. unfold exactObject in Hx. rewrite Et in Hx.
    by destruct (a =c? "{") eqn:E. }
  destruct (exactObject_spec _ _ Hp) as [Hx' Ht']. rewrite Hx in Hx'. injection Hx' as <-.
  cbn [guard_ok] in Hg. by bools.
Qed.

Section Members.
Context (l : list (string * string * json)).
Hypothesis Hnodup : NoDup (keys_of l).
Hypothesis Htexts : Forall (fun m => text_of m.1.2 m.2) l.

Lemma field_string k v : requiredString l k = Ok v -> field decode_string "" l k = Some v.
Proof using All. intros (raw & Hin)%requiredString_In; [|done]. by rewrite (field_one _ _ _ _ _ _ Hnodup Hin). Qed.

Lemma field_integer k v : requiredNonNegativeInteger l k = Ok v ->
  0 <= v <= maxSafeInteger /\ field decode_int64 0 l k = Some v.
Proof using All.
  intros [Hv (raw & t & Hin & Ht)]%requiredInteger_In; [|done]. split; [done|].
  by rewrite (field_one _ _ _ _ _ _ Hnodup Hin).
Qed.
End Members.

Lemma opaque_nonempty s : validOpaqueID s = true -> s <> "".
Proof. by intros H ->. Qed.

(** Control and the edge read the same case and the same advice. *)
Lemma case_body_ids raw e : decodeStrictEnvelope raw = Ok e -> well_formed e -> Schema e = SspFamilyCase ->
  exists b, decode_verified_case (Body e) = Some b /\
    decode_case_body (Body e) = Some (mkCaseBody (vc_domain b) (vc_edge b) (vc_generation b)) /\
    0 < vc_generation b <= maxSafeInteger /\ validOpaqueID (vc_domain b) = true /\ validOpaqueID (vc_edge b) = true.
Proof.
  intros Hd (_ & _ & _ & _ & _ & _ & _ & _ & _ & _ & Hb) Hs. unfold validateBody in Hb. rewrite Hs in Hb.
  cbn in Hb. unfold validateCaseAdviceBody in Hb. inv_result. cbn in Hb.
  destruct (body_object _ _ _ Hd E0) as (Hp & Hn & Ht). inv_result.
  destruct (requiredNonNegativeInteger _ _) as [g|] eqn:Eg; [|done]. inv_result. bools.
  destruct (field_integer _ Hn Ht _ _ Eg) as [Hg Hfg].
  unfold decode_verified_case, decode_case_body. rewrite Hp. cbn [mbind option_bind decode_struct].
  repeat match goal with E : requiredString _ _ = Ok _ |- _ => apply (field_string _ Hn Ht) in E; rewrite E; clear E end.
  rewrite Hfg. cbn. eexists. split_and!; [reflexivity|reflexivity|cbn; lia|cbn; lia|done..].
Qed.

Lemma case_bodies raw e : decodeStrictEnvelope raw = Ok e -> well_formed e -> Schema e = SspFamilyCase ->
  exists b, decode_verified_case (Body e) = Some b /\
    decode_case_body (Body e) = Some (mkCaseBody (vc_domain b) (vc_edge b) (vc_generation b)) /\
    0 < vc_generation b <= maxSafeInteger /\ vc_domain b <> "" /\ vc_edge b <> "".
Proof.
  intros Hd Hw Hs. destruct (case_body_ids _ _ Hd Hw Hs) as (b & H1 & H2 & H3 & H4%opaque_nonempty & H5%opaque_nonempty). eauto 10.
Qed.

Lemma advice_bodies raw e : decodeStrictEnvelope raw = Ok e -> well_formed e -> Schema e = SspFamilyAdvice ->
  exists b, decode_verified_advice (Body e) = Some b /\ decode_advice_body (Body e) = Some (va_case b).
Proof.
  intros Hd (_ & _ & _ & _ & _ & _ & _ & _ & _ & _ & Hb) Hs. unfold validateBody in Hb. rewrite Hs in Hb.
  cbn in Hb. unfold validateCaseAdviceBody in Hb. inv_result. cbn in Hb.
  destruct (body_object _ _ _ Hd E0) as (Hp & Hn & Ht). inv_result.
  unfold decode_verified_advice, decode_advice_body. rewrite Hp. cbn [mbind option_bind decode_struct].
  repeat match goal with E : requiredString _ _ = Ok _ |- _ => apply (field_string _ Hn Ht) in E; rewrite E; clear E end.
  cbn. eexists. split; reflexivity.
Qed.

Definition header_of (e : Envelope) : EnvelopeHeader :=
  mkHeader (Schema e) (ID e) (CaseID e) (EmittedAt e) (ExpiresAt e) (RoutingEpoch e)
    (RegistryRevision e) (RegistryHash e) (AuthorKeyID e).

Lemma ReadHeader_exact raw header : ReadHeader raw = Ok header <->
  exists e, decodeStrictEnvelope raw = Ok e /\ header = header_of e.
Proof. unfold ReadHeader. destruct (decodeStrictEnvelope raw); cbn; naive_solver. Qed.

Section Instants.
Context {JC : Jcs} {ED : Ed25519}.

(** ** A verification holds in the whole window *)
Lemma Verify_time raw keys now e : Verify raw keys now = Ok e ->
  decodeStrictEnvelope raw = Ok e /\ well_formed e /\ live e now /\
  forall now', live e now' -> Verify raw keys now' = Ok e.
Proof.
  intros [Hd Hs]%Verify_exact. pose proof Hd as [Hdec [Hw Hl]%Validate_exact]%decodeAndValidate_spec.
  split_and!; try done. intros now' Hl'. apply Verify_exact. split; [|done].
  by apply (decode_later _ _ _ _ Hd).
Qed.

Lemma Commitment_time raw now d e : decodeStrictEnvelope raw = Ok e -> EnvelopeCommitment raw now = Ok d ->
  forall now', live e now' -> EnvelopeCommitment raw now' = Ok d.
Proof.
  intros Hdec (e' & c & Hd & Hc & ->)%EnvelopeCommitment_exact now' Hl.
  pose proof Hd as [Hdec' _]%decodeAndValidate_spec. rewrite Hdec in Hdec'. injection Hdec' as <-.
  apply EnvelopeCommitment_exact. exists e, c. split_and!; [|done..]. by apply (decode_later _ _ _ _ Hd).
Qed.

Lemma VerifyRoot_time t now raw v : VerifyRoot t now raw = Ok v ->
  exists e, decodeStrictEnvelope raw = Ok e /\ well_formed e /\ Schema e = SspFamilyRegistry /\ live e now /\
    EnvelopeCommitment raw now = Ok (ve_commitment v) /\ decodeRegistry e (ve_commitment v) = Ok (ve_snapshot v) /\
    forall now', live e now' -> VerifyRoot t now' raw = Ok v.
Proof.
  unfold VerifyRoot. destruct (NewEd25519VerifyingKey (tr_public t)) as [vk|]; cbn [lift_ssp mbind result_bind]; [|done].
  intros Hv. destruct (VerifyRegistry raw (tr_author t) vk now) as [p|] eqn:Ep; [|done]. cbn [lift_ssp mbind result_bind] in Hv.
  apply VerifyRegistry_exact in Ep as (e & d & Ha & Hver & Hs & Hd & ->).
  unfold vr_Envelope, vr_Commitment, proven in Hv. cbn in Hv.
  destruct (decodeRegistry e d) as [snap|] eqn:Er; [|done]. cbn in Hv. injection Hv as <-. cbn [ve_commitment ve_snapshot].
  destruct (Verify_time _ _ _ _ Hver) as (Hdec & Hw & Hl & Hver'). exists e. split_and!; try done.
  intros now' Hl'. assert (Hp : VerifyRegistry raw (tr_author t) vk now' = Ok (mkVerified true raw e d (tr_author t) vk now')).
  { apply VerifyRegistry_exact. exists e, d. split_and!; try done; [by apply Hver'|by eapply Commitment_time]. }
  rewrite Hp. cbn. unfold vr_Envelope, vr_Commitment, proven. cbn. by rewrite Er.
Qed.

(** What control accepts under a registered key, the edge accepts at the
    emission. *)
Lemma registered_emission raw header snapshot usage now key e em :
  ReadHeader raw = Ok header -> ParseTimestamp (hd_emitted header) = Some em ->
  ControlApi.verifyRegisteredEnvelope raw header snapshot usage now = Ok (key, e) ->
  decodeStrictEnvelope raw = Ok e /\ well_formed e /\ live e now /\ header = header_of e /\
  rg_keys snapshot !! AuthorKeyID e = Some key /\ rk_usage key = usage /\ Usable key em = true /\
  Verify raw {[AuthorKeyID e := mkVerifyingKey (rk_public key)]} now = Ok e /\
  verifyRegisteredEnvelope raw header snapshot usage em = Ok (key, e).
Proof.
  intros (e' & Hdec & ->)%ReadHeader_exact Hem. unfold ControlApi.verifyRegisteredEnvelope. cbn [header_of hd_author].
  destruct (rg_keys snapshot !! AuthorKeyID e') as [k|] eqn:Ek; [|done]. intros Hc. inv_result. bools.
  unfold NewEd25519VerifyingKey in E0. destruct (negb _) eqn:Elen in E0; [done|]. cbn in E0. injection E0 as <-.
  unfold lift_ssp in E1. destruct (Verify raw _ now) as [e1|] eqn:Ev; [|done]. injection E1 as ->.
  destruct (Verify_time _ _ _ _ Ev) as (Hdec' & Hw & Hl & Hv). rewrite Hdec in Hdec'. injection Hdec' as ->.
  cbn [header_of hd_emitted] in Hem. rewrite Hem in Hc. destruct (Usable k em) eqn:Eu in Hc; [|done]. injection Hc as -> ->.
  split_and!; try done. unfold verifyRegisteredEnvelope. cbn [header_of hd_author]. rewrite Ek.
  rewrite (proj2 (String.eqb_eq _ usage)) by done. rewrite Eu. cbn [negb orb]. unfold NewEd25519VerifyingKey. rewrite Elen. cbn [else_permanent mbind result_bind].
  rewrite (Hv em) by by eapply live_emission. cbn [else_permanent mbind result_bind].
  by rewrite Hem, Z.eqb_refl, Eu.
Qed.
End Instants.

(** ** Admission *)
Section Admission.
Context {JC : Jcs} {ED : Ed25519} (s : ControlService).

(** The snapshot an envelope is judged by: the record of exactly the revision
    and commitment it names, signed by the pinned root. *)
Definition judged_by (clock : nat -> Z) (db : DB) (e : Envelope) (record : RegistryRecord) (v : Verified) : Prop :=
  ResolveRegistry (ct_tenant s) (RegistryRevision e) (RegistryHash e) db = Ok record /\
  VerifyRoot (ct_trust s) (clock 0%nat) (rr_Raw record) = Ok v /\
  ve_commitment v = RegistryHash e /\ rg_revision (ve_snapshot v) = RegistryRevision e /\
  rg_epoch (ve_snapshot v) = rr_RoutingEpoch record /\ Expired (ve_snapshot v) (clock 1%nat) = false.

Lemma CheckBinding_ok r revision commitment :
  is_ok (CheckBinding r revision commitment) = true <-> revision = rg_revision r /\ commitment = rg_commitment r.
Proof.
  unfold CheckBinding. destruct (Z.eqb_spec revision (rg_revision r)) as [->|]; cbn; [|naive_solver].
  destruct (String.eqb_spec commitment (rg_commitment r)) as [->|]; cbn; naive_solver.
Qed.

Lemma resolved_registry clock db e snapshot :
  ControlApi.resolveRegistry s clock db (header_of e) = Ok snapshot ->
  exists record v, judged_by clock db e record v /\ snapshot = ve_snapshot v.
Proof.
  unfold ControlApi.resolveRegistry, judged_by. cbn [header_of hd_revision hd_registry_hash].
  destruct (ResolveRegistry _ _ _ _) as [record|]; [|done].
  destruct (VerifyRoot _ _ _) as [v|] eqn:Ev; [|by destruct (reg_is_expired _)].
  unfold verified_commitment. destruct (ve_commitment v =s? "") eqn:Ec; [done|]. intros Hs. inv_result. bools.
  exists record, v. split_and!; try done; congruence.
Qed.

(** The whole of what the admission of a case establishes. *)
Record case_evidence (clock : nat -> Z) (db : DB) (w : Workload) (raw : bytes) (r : CommitCaseRequest)
    (e : Envelope) (record : RegistryRecord) (v : Verified) (key : RegisteredKey) (b : verifiedCaseBody) (em ex : Z)
  : Prop := {
  ce_wire : decodeStrictEnvelope raw = Ok e /\ well_formed e /\ Schema e = SspFamilyCase /\ live e (clock 2%nat);
  ce_times : ParseTimestamp (EmittedAt e) = Some em /\ ParseTimestamp (ExpiresAt e) = Some ex;
  ce_judged : judged_by clock db e record v;
  ce_key : rg_keys (ve_snapshot v) !! AuthorKeyID e = Some key /\ rk_usage key = UsageEdge /\ Usable key em = true;
  ce_signed : Verify raw {[AuthorKeyID e := mkVerifyingKey (rk_public key)]} (clock 2%nat) = Ok e;
  ce_emission : verifyRegisteredEnvelope raw (header_of e) (ve_snapshot v) UsageEdge em = Ok (key, e);
  ce_body : decode_verified_case (Body e) = Some b /\ 0 < vc_generation b <= maxSafeInteger /\
            vc_domain b <> "" /\ vc_edge b <> "";
  ce_authorized : case_unauthorized w (header_of e) (ve_snapshot v) key e
                    (mkCaseBody (vc_domain b) (vc_edge b) (vc_generation b)) = false;
  ce_commitment : EnvelopeCommitment raw (clock 3%nat) = Ok (cc_Commitment r);
  ce_request : r = {| cc_TenantID := ct_tenant s; cc_CaseID := CaseID e; cc_EnvelopeID := ID e;
      cc_Commitment := cc_Commitment r; cc_Raw := raw; cc_Domain := vc_domain b; cc_IssuerEdgeID := vc_edge b;
      cc_IssuerEdgeGeneration := vc_generation b; cc_RoutingEpoch := RoutingEpoch e;
      cc_RegistryRevision := RegistryRevision e; cc_RegistryHash := RegistryHash e; cc_ExpiresAt := ex;
      cc_PrincipalID := wl_principal w; cc_EdgeID := wl_edge w; cc_Decision := "verified_case_admission" |} }.

Lemma registered_live raw e snapshot usage now key e' :
  decodeStrictEnvelope raw = Ok e ->
  ControlApi.verifyRegisteredEnvelope raw (header_of e) snapshot usage now = Ok (key, e') -> e' = e /\ live e now.
Proof.
  intros Hdec. unfold ControlApi.verifyRegisteredEnvelope. destruct (rg_keys snapshot !! _) as [k|]; [|done]. intros Hc. inv_result.
  unfold lift_ssp in E1. destruct (Verify raw _ now) as [e1|] eqn:Ev; [|done]. injection E1 as ->.
  destruct (Verify_time _ _ _ _ Ev) as (Hdec' & _ & Hl & _). rewrite Hdec in Hdec'. injection Hdec' as ->.
  by repeat case_match; simplify_eq.
Qed.

Lemma case_admission clock dbs w raw r : admitWire s clock dbs w raw = Ok (AdmitCase r) ->
  exists e record v key b em ex, case_evidence clock (dbs 0%nat) w raw r e record v key b em ex.
Proof.
  unfold admitWire. destruct (ReadHeader raw) as [h|] eqn:Eh; [|done]. pose proof Eh as (e & Hdec & ->)%ReadHeader_exact.
  destruct (_ && _); [done|]. intros Ha.
  destruct (ControlApi.resolveRegistry _ _ _ _) as [snap|] eqn:Er; [|done]. cbn [mbind result_bind] in Ha.
  apply resolved_registry in Er as (record & v & Hj & ->).
  destruct (hd_schema _ =s? SspFamilyCase) eqn:Es in Ha; [|by inv_result].
  destruct (submitCase _ _ _ _ _ _) as [r'|] eqn:Ec; [|done]. cbn in Ha. injection Ha as ->.
  unfold submitCase in Ec. destruct (ControlApi.verifyRegisteredEnvelope _ _ _ _ _) as [[key e']|] eqn:Ev; [|done].
  destruct (registered_live _ _ _ _ _ _ _ Hdec Ev) as [-> (em & ex & Hem & Hex & _)].
  destruct (registered_emission _ _ _ _ _ _ _ em Eh Hem Ev) as (_ & Hw & Hl & _ & Hk & Hu & Hem' & Hv & He).
  destruct (Schema e <>s? SspFamilyCase) eqn:Esc; [done|]. bools.
  destruct (rk_principal key =s? "") eqn:Ep; [done|].
  destruct (case_bodies _ _ Hdec Hw) as (b & Hb & Hcb & Hg); [done|]. rewrite Hcb in Ec.
  destruct (case_unauthorized _ _ _ _ _ _) eqn:Ea; [done|].
  destruct (EnvelopeCommitment _ _) as [d|] eqn:Ed; [|done]. rewrite Hex in Ec. injection Ec as <-.
  exists e, record, v, key, b, em, ex. constructor; done.
Qed.

(** *** What authorizes a case *)
Definition issuer_authorized (snapshot : Registry) (author : string) (key : RegisteredKey) (epoch : Z)
  (b : verifiedCaseBody) (edge : EdgeRecord) : Prop :=
  exists p route, rg_edges snapshot !! vc_edge b = Some edge /\ rg_principals snapshot !! ed_principal edge = Some p /\
    rg_domains snapshot !! vc_domain b = Some route /\ ed_generation edge = vc_generation b /\
    rk_principal key = ed_principal edge /\ author ∈ pr_keys p /\ vc_edge b ∈ rt_issuers route /\
    SspFamilyCase ∈ rt_families route /\ rt_epoch route = epoch.

Lemma MachineAcceptableEpoch_ok r domain epoch : MachineAcceptableEpoch r domain epoch = true <->
  exists route, rg_domains r !! domain = Some route /\ rt_epoch route = epoch.
Proof.
  unfold MachineAcceptableEpoch, EvaluateEpoch. destruct (rg_domains r !! domain) as [route|]; [|naive_solver].
  destruct (Z.eqb_spec epoch (rt_epoch route)) as [->|]; [naive_solver|]. destruct (epoch <? _); naive_solver.
Qed.

Lemma AuthorizesCaseIssuer_ok r domain edge : edge <> "" -> AuthorizesCaseIssuer r domain edge = true <->
  exists route, rg_domains r !! domain = Some route /\ edge ∈ rt_issuers route.
Proof.
  intros He. unfold AuthorizesCaseIssuer. destruct (rg_domains r !! domain) as [route|]; [|naive_solver].
  rewrite (proj2 (String.eqb_neq _ _) He), mem_spec. naive_solver.
Qed.

Lemma some_decide {A} (o : option A) : bool_decide (is_Some o) = true -> is_Some o.
Proof. by intros H%bool_decide_eq_true. Qed.

Lemma case_authorized w e snapshot key b :
  vc_edge b <> "" -> case_unauthorized w (header_of e) snapshot key e
    (mkCaseBody (vc_domain b) (vc_edge b) (vc_generation b)) = false ->
  exists edge, issuer_authorized snapshot (AuthorKeyID e) key (RoutingEpoch e) b edge /\
    wl_principal w = ed_principal edge /\ wl_edge w = vc_edge b /\ wl_generation w = vc_generation b.
Proof.
  intros Hne. unfold case_unauthorized. cbn [cb_domain cb_edge cb_generation header_of hd_author].
  rewrite !orb_false_iff, !negb_false_iff, !String.eqb_eq, !Z.eqb_eq, !mem_spec.
  intros ((((((((((((((_ & _) & _) & He%some_decide) & Hp%some_decide) & Hd%some_decide) & Hwe) & Hwg) & Hg) & Hwp) & Hkp)
    & Hauth) & Hi) & Hf) & (r1 & Hr1 & Hepoch)%MachineAcceptableEpoch_ok).
  destruct He as [edge He]. rewrite He in Hp, Hg, Hwp, Hkp, Hauth. cbn [default id] in Hp, Hg, Hwp, Hkp, Hauth.
  destruct Hp as [p Hp]. rewrite Hp in Hauth. rewrite Hr1 in Hf. cbn [default id] in Hauth, Hf.
  unfold AuthorizesCaseIssuerGeneration in Hi. destruct (_ || _) eqn:Eo in Hi; [done|].
  apply orb_false_iff in Eo as [_ Eo%negb_false_iff]. apply AuthorizesCaseIssuer_ok in Eo as (r2 & Hr2 & Hiss); [|done].
  rewrite Hr1 in Hr2. injection Hr2 as <-. exists edge. split_and!; try congruence. exists p, r1. by split_and!.
Qed.

(** The edge asks one thing more, that the owner claims the edge, and the graph
    of the registry guarantees it. *)
Lemma issuer_accepts er d snapshot e key b edge :
  decodeRegistry er d = Ok snapshot -> decode_verified_case (Body e) = Some b -> 0 < vc_generation b -> vc_edge b <> "" ->
  issuer_authorized snapshot (AuthorKeyID e) key (RoutingEpoch e) b edge ->
  authorizeCase snapshot (header_of e) key e = Ok b.
Proof.
  intros Hreg Hb Hg Hne (p & route & He & Hp & Hr & Hgen & Hk & Ha & Hi & Hf & Hep).
  unfold authorizeCase. rewrite Hb. cbn [must mbind result_bind].
  assert (issuer_unauthorized snapshot (header_of e) key e b = false) as ->; [|done].
  unfold issuer_unauthorized. rewrite He, Hr. cbn [default id header_of hd_author]. rewrite Hp. cbn [default id].
  pose proof (snapshot_claims _ _ _ _ _ _ Hreg He Hp) as Hc.
  rewrite !orb_false_iff, !negb_false_iff, !bool_decide_eq_true, String.eqb_eq, Z.eqb_eq, Hc, !mem_spec.
  split_and!; eauto.
  - unfold AuthorizesCaseIssuerGeneration. rewrite (proj2 (Z.leb_gt _ _) Hg). cbn [orb].
    rewrite (proj2 (AuthorizesCaseIssuer_ok _ _ _ Hne)) by eauto. cbn [negb]. by rewrite He, Z.eqb_eq.
  - apply MachineAcceptableEpoch_ok. eauto.
Qed.

(** *** Advices *)
Definition dispatcher_authorized (snapshot : Registry) (author : string) (key : RegisteredKey) (epoch : Z)
  (domain : string) (route : DomainRoute) : Prop :=
  exists p, rg_domains snapshot !! domain = Some route /\ rg_principals snapshot !! rt_dispatcher route = Some p /\
    rk_principal key = rt_dispatcher route /\ author ∈ pr_keys p /\ SspFamilyAdvice ∈ rt_families route /\
    rt_epoch route = epoch.

Lemma advice_authorized w e snapshot key domain :
  advice_unauthorized w (header_of e) snapshot key domain = false ->
  exists route, dispatcher_authorized snapshot (AuthorKeyID e) key (RoutingEpoch e) domain route /\
    wl_principal w = rt_dispatcher route /\ wl_edge w = "" /\ wl_generation w = 0.
Proof.
  unfold advice_unauthorized. cbn [header_of hd_author hd_epoch].
  rewrite !orb_false_iff, !negb_false_iff, !String.eqb_eq, !Z.eqb_eq, !mem_spec.
  intros ((((((((((_ & Hwp) & Hwe) & Hwg) & Hd%some_decide) & _) & Hkp) & Hp%some_decide) & Ha) & Hf)
    & (r1 & Hr1 & Hepoch)%MachineAcceptableEpoch_ok).
  rewrite Hr1 in Hwp, Hkp, Hp, Ha, Hf. cbn [default id] in Hwp, Hkp, Hp, Ha, Hf. destruct Hp as [p Hp].
  rewrite Hp in Ha. cbn [default id] in Ha. exists r1. split_and!; try done. exists p. by split_and!.
Qed.

Lemma dispatcher_accepts snapshot e key domain route :
  dispatcher_authorized snapshot (AuthorKeyID e) key (RoutingEpoch e) domain route ->
  dispatcher_unauthorized snapshot (header_of e) key e domain = false.
Proof.
  intros (p & Hr & Hp & Hk & Ha & Hf & Hep). unfold dispatcher_unauthorized. rewrite Hr. cbn [default id header_of hd_author].
  rewrite Hp. cbn [default id]. rewrite !orb_false_iff, !negb_false_iff, !bool_decide_eq_true, String.eqb_eq, !mem_spec.
  split_and!; eauto. apply MachineAcceptableEpoch_ok. eauto.
Qed.

(** The whole of what the admission of an advice establishes. *)
Record advice_evidence (clock : nat -> Z) (dbs : nat -> DB) (w : Workload) (raw : bytes) (r : CommitAdviceRequest)
    (e : Envelope) (record : RegistryRecord) (v : Verified) (key : RegisteredKey) (b : verifiedAdviceBody)
    (c : CaseRecord) (em ex : Z) : Prop := {
  ae_wire : decodeStrictEnvelope raw = Ok e /\ well_formed e /\ Schema e = SspFamilyAdvice /\ live e (clock 4%nat);
  ae_times : ParseTimestamp (EmittedAt e) = Some em /\ ParseTimestamp (ExpiresAt e) = Some ex;
  ae_judged : judged_by clock (dbs 0%nat) e record v;
  ae_key : rg_keys (ve_snapshot v) !! AuthorKeyID e = Some key /\ rk_usage key = UsageAdvice /\ Usable key em = true;
  ae_signed : Verify raw {[AuthorKeyID e := mkVerifyingKey (rk_public key)]} (clock 4%nat) = Ok e;
  ae_emission : verifyRegisteredEnvelope raw (header_of e) (ve_snapshot v) UsageAdvice em = Ok (key, e);
  ae_body : decode_verified_advice (Body e) = Some b;
  ae_case : ResolveCase (ct_tenant s) (CaseID e) (va_case b) (dbs 1%nat) = Ok c /\ cs_Commitment c = va_case b;
  ae_authorized : exists route,
    dispatcher_authorized (ve_snapshot v) (AuthorKeyID e) key (RoutingEpoch e) (cs_Domain c) route /\
    wl_principal w = rt_dispatcher route /\ wl_edge w = "" /\ wl_generation w = 0;
  ae_commitment : EnvelopeCommitment raw (clock 5%nat) = Ok (ca_Commitment r);
  ae_request : r = {| ca_TenantID := ct_tenant s; ca_CaseID := CaseID e; ca_EnvelopeID := ID e;
      ca_CaseCommitment := cs_Commitment c; ca_Commitment := ca_Commitment r; ca_Raw := raw;
      ca_RoutingEpoch := RoutingEpoch e; ca_RegistryRevision := RegistryRevision e;
      ca_RegistryHash := RegistryHash e; ca_PrincipalID := wl_principal w; ca_EdgeID := "";
      ca_Decision := "verified_advice_admission" |} }.

Lemma resolved_case t id commitment db c : ResolveCase t id commitment db = Ok c ->
  PgTx.cases db !! (t, id) = Some c /\ cs_Commitment c = commitment.
Proof.
  unfold ResolveCase. destruct (_ || _); [done|]. destruct (PgTx.cases db !! _) as [c'|]; [|done].
  destruct (String.eqb_spec (cs_Commitment c') commitment); [|done]. by intros [= <-].
Qed.

Lemma found_case clock db id commitment header snapshot m :
  findCommittedCase s clock db id commitment header snapshot = Ok m ->
  ResolveCase (ct_tenant s) id commitment db = Ok (cm_record m) /\ cm_domain m = cs_Domain (cm_record m) /\
  cm_commitment m = cs_Commitment (cm_record m).
Proof.
  unfold findCommittedCase. destruct (ResolveCase _ _ _ _) as [fact|]; [|done].
  destruct (ReadHeader _) as [h|]; [|done]. destruct (_ || _); [done|].
  destruct (ControlApi.verifyRegisteredEnvelope _ _ _ _ _) as [[key e]|]; [|by destruct (reg_is_expired _)].
  destruct (_ || _); [done|]. destruct (EnvelopeCommitment _ _); [|done]. destruct (_ <>s? _); [done|].
  destruct (decode_case_body _) as [b|]; [|done]. destruct (_ || _) eqn:E; [done|]. intros [= <-]. by bools.
Qed.

Lemma advice_admission clock dbs w raw r : admitWire s clock dbs w raw = Ok (AdmitAdvice r) ->
  exists e record v key b c em ex, advice_evidence clock dbs w raw r e record v key b c em ex.
Proof.
  unfold admitWire. destruct (ReadHeader raw) as [h|] eqn:Eh; [|done]. pose proof Eh as (e & Hdec & ->)%ReadHeader_exact.
  destruct (_ && _); [done|]. intros Ha.
  destruct (ControlApi.resolveRegistry _ _ _ _) as [snap|] eqn:Er; [|done]. cbn [mbind result_bind] in Ha.
  apply resolved_registry in Er as (record & v & Hj & ->).
  destruct (hd_schema _ =s? SspFamilyCase) eqn:Es in Ha; [by inv_result|].
  destruct (submitAdvice _ _ _ _ _ _ _) as [r'|] eqn:Ec; [|done]. cbn in Ha. injection Ha as ->.
  unfold submitAdvice in Ec. destruct (advice_hint raw) as [hint|]; [|done]. cbn [mbind result_bind] in Ec.
  destruct (findCommittedCase _ _ _ _ _ _ _) as [m|] eqn:Em; [|done]. cbn [mbind result_bind] in Ec.
  apply found_case in Em as (Hres & Hdom & Hcom).
  destruct (ControlApi.verifyRegisteredEnvelope _ _ _ _ _) as [[key e']|] eqn:Ev; [|done].
  destruct (registered_live _ _ _ _ _ _ _ Hdec Ev) as [-> (em & ex & Hem & Hex & _)].
  destruct (registered_emission _ _ _ _ _ _ _ em Eh Hem Ev) as (_ & Hw & Hl & _ & Hk & Hu & Hem' & Hv & He).
  destruct (Schema e <>s? SspFamilyAdvice) eqn:Esc; [done|]. bools.
  destruct (rk_principal key =s? "") eqn:Ep; [done|].
  destruct (advice_unauthorized _ _ _ _ _) eqn:Ea; [done|]. apply advice_authorized in Ea. rewrite Hdom in Ea.
  destruct (advice_bodies _ _ Hdec Hw) as (b & Hb & Hcb); [done|]. rewrite Hcb in Ec.
  destruct (va_case b <>s? cm_commitment m) eqn:Ebc; [done|]. bools.
  destruct (EnvelopeCommitment _ _) as [d|] eqn:Ed; [|done]. injection Ec as <-.
  pose proof (resolved_case _ _ _ _ _ Hres) as [_ Hh]. rewrite Hcom in Ebc.
  exists e, record, v, key, b, (cm_record m), em, ex. constructor; try done.
  - split; [|done]. by rewrite Ebc, Hh.
  - cbn. by rewrite Hcom.
Qed.

(** C26: control hands a case to the authority only on evidence.  The wire is a
    live, well-formed case envelope; it is judged by the registry record of
    exactly the revision and commitment it names, proved by the pinned root and
    unexpired; its signature verifies under the key that registry holds for its
    author, an edge key usable at the emission; the authenticated workload is
    the registered principal, edge and generation of the case, whose edge may
    open cases in that domain at that epoch; and the request carries the exact
    bytes, the commitment of those bytes and the signed fields, nothing else. *)
Theorem case_admission_sound clock dbs w raw r :
  admitWire s clock dbs w raw = Ok (AdmitCase r) ->
  exists e record v key b em ex edge,
    decodeStrictEnvelope raw = Ok e /\ well_formed e /\ Schema e = SspFamilyCase /\ live e (clock 2%nat) /\
    judged_by clock (dbs 0%nat) e record v /\
    Verify raw {[AuthorKeyID e := mkVerifyingKey (rk_public key)]} (clock 2%nat) = Ok e /\
    rg_keys (ve_snapshot v) !! AuthorKeyID e = Some key /\ rk_usage key = UsageEdge /\
    ParseTimestamp (EmittedAt e) = Some em /\ Usable key em = true /\
    decode_verified_case (Body e) = Some b /\
    issuer_authorized (ve_snapshot v) (AuthorKeyID e) key (RoutingEpoch e) b edge /\
    wl_principal w = ed_principal edge /\ wl_edge w = vc_edge b /\ wl_generation w = vc_generation b /\
    EnvelopeCommitment raw (clock 3%nat) = Ok (cc_Commitment r) /\ ParseTimestamp (ExpiresAt e) = Some ex /\
    r = {| cc_TenantID := ct_tenant s; cc_CaseID := CaseID e; cc_EnvelopeID := ID e;
      cc_Commitment := cc_Commitment r; cc_Raw := raw; cc_Domain := vc_domain b; cc_IssuerEdgeID := vc_edge b;
      cc_IssuerEdgeGeneration := vc_generation b; cc_RoutingEpoch := RoutingEpoch e;
      cc_RegistryRevision := RegistryRevision e; cc_RegistryHash := RegistryHash e; cc_ExpiresAt := ex;
      cc_PrincipalID := wl_principal w; cc_EdgeID := wl_edge w; cc_Decision := "verified_case_admission" |}.
Proof.
  intros (e & record & v & key & b & em & ex & [(Hd & Hw & Hs & Hl) [Hm Hx] Hj (Hk & Hu & Hus) Hv _ (Hb & _ & _ & Hne) Ha Hc Hr])%case_admission.
  destruct (case_authorized _ _ _ _ _ Hne Ha) as (edge & Hi & Hwp & Hwe & Hwg).
  exists e, record, v, key, b, em, ex, edge. by split_and!.
Qed.

(** C27: control hands a final advice to the authority only on evidence.  The
    wire is a live, well-formed advice envelope, judged by exactly the registry
    it names; it names the commitment of a case the authority has committed; it
    verifies under the advice key the registry holds for its author, usable at
    the emission; and the authenticated workload is the dispatcher principal
    the registry gives the domain of that case at that epoch, with no edge
    identity.  The request carries the exact bytes and their commitment. *)
Theorem advice_admission_sound clock dbs w raw r :
  admitWire s clock dbs w raw = Ok (AdmitAdvice r) ->
  exists e record v key b c em route,
    decodeStrictEnvelope raw = Ok e /\ well_formed e /\ Schema e = SspFamilyAdvice /\ live e (clock 4%nat) /\
    judged_by clock (dbs 0%nat) e record v /\
    Verify raw {[AuthorKeyID e := mkVerifyingKey (rk_public key)]} (clock 4%nat) = Ok e /\
    rg_keys (ve_snapshot v) !! AuthorKeyID e = Some key /\ rk_usage key = UsageAdvice /\
    ParseTimestamp (EmittedAt e) = Some em /\ Usable key em = true /\
    decode_verified_advice (Body e) = Some b /\
    PgTx.cases (dbs 1%nat) !! (ct_tenant s, CaseID e) = Some c /\ cs_Commitment c = va_case b /\
    dispatcher_authorized (ve_snapshot v) (AuthorKeyID e) key (RoutingEpoch e) (cs_Domain c) route /\
    wl_principal w = rt_dispatcher route /\ wl_edge w = "" /\ wl_generation w = 0 /\
    EnvelopeCommitment raw (clock 5%nat) = Ok (ca_Commitment r) /\
    ca_Raw r = raw /\ ca_TenantID r = ct_tenant s /\ ca_CaseID r = CaseID e /\ ca_EnvelopeID r = ID e /\
    ca_CaseCommitment r = va_case b /\ ca_PrincipalID r = wl_principal w.
Proof.
  intros (e & record & v & key & b & c & em & ex & [(Hd & Hw & Hs & Hl) [Hm _] Hj (Hk & Hu & Hus) Hv _ Hb [Hres Hcc] (route & Ha & Hwp & Hwe & Hwg) Hc Hr])%advice_admission.
  apply resolved_case in Hres as [Hcase _]. exists e, record, v, key, b, c, em, route. rewrite Hr. cbn. by split_and!.
Qed.
End Admission.
