(* ===== verification/ControlSystem.v ===== *)
(** * The control plane as a system

    Runs of the authority in which every commit went through admission
    ([control_step]); [control_inv] says that every row has its evidence. *)
From stdpp Require Import gmap.
From S2P Require Import Prelude GoText GoStrconv GoTime GoJson GoJsonRead GoBase64 Sha256 DeliveryStream Authority PgTx AuthorityStore.
From S2P Require Import OutboxWorker AuthorityOutbox AuthoritySpec AuthorityInv AuthorityTheorems.
From S2P Require Import SspGuard SspBody SspRegistry SspEnvelope SspTheorems Registry RegistryTheorems ControlApi.
Open Scope string_scope.
Open Scope Z_scope.
Open Scope snag_scope.

Section System.
Context {JC : Jcs} {ED : Ed25519} (s : ControlService).

(** One attempt of a commit that was admitted against earlier states of the
    ledger, or one call of the outbox. *)
Inductive control_step : DB -> DB -> Prop :=
| KCase clock dbs w raw r ae db :
    ledger_extends (dbs 0%nat) db -> admitWire s clock dbs w raw = Ok (AdmitCase r) -> validate_case r = Ok tt ->
    control_step db (attempt "case" (commitCaseWork (ct_authority s) r) ae db).1
| KAdvice clock dbs w raw r ae db :
    ledger_extends (dbs 0%nat) db -> ledger_extends (dbs 1%nat) db ->
    admitWire s clock dbs w raw = Ok (AdmitAdvice r) -> validate_advice r = Ok tt ->
    control_step db (attempt "advice" (commitAdviceWork (ct_authority s) r) ae db).1
| KRegistry clock w raw r ae db :
    admit_registry s clock w raw = Ok r -> validate_registry r = Ok tt ->
    control_step db (attempt "registry" (commitRegistryWork (ct_authority s) r) ae db).1
| KClaim owner limit lease ce db : control_step db (StoreClaim owner limit lease ce db).1
| KMarkPublished id token ex db : control_step db (StoreMarkPublished id token ex db).1
| KRelease id token retryAt reason ex db :
    control_step db (StoreRelease id token retryAt reason ex db).1.

Definition control_reachable : DB -> Prop := rtc control_step empty_db.

Lemma control_step_store db db' : control_step db db' -> store_step db db'.
Proof. destruct 1; econstructor; eauto. Qed.

Lemma control_run_store db db' : rtc control_step db db' -> rtc store_step db db'.
Proof. intros Hr. eapply rtc_subrel; [|exact Hr]. apply control_step_store. Qed.

Lemma control_reachable_store db : control_reachable db -> store_reachable db.
Proof. apply control_run_store. Qed.

Lemma control_step_extends db db' : ledger_inv db -> control_step db db' -> ledger_inv db' /\ ledger_extends db db'.
Proof.
  intros Hi Hs%control_step_store%store_step_ledger. split; [by eapply ledger_inv_step|].
  apply step_extends; [done|]. by apply inv_log.
Qed.

(** ** Every row has its evidence *)
Definition registry_source (db : DB) (t : string) (n : Z) (g : RegistryRecord) : Prop :=
  exists clock w raw r, admit_registry s clock w raw = Ok r /\ validate_registry r = Ok tt /\ g = registry_row r (rr_AuthorityRevision g) /\
    t = cr_TenantID r /\ n = cr_Revision r.

Definition case_source (db : DB) (t id : string) (c : CaseRecord) : Prop :=
  (exists clock dbs w raw r, admitWire s clock dbs w raw = Ok (AdmitCase r) /\ registries (dbs 0%nat) ⊆ registries db /\
     validate_case r = Ok tt /\ c = case_row r (cs_AuthorityRevision c) /\ t = cc_TenantID r /\ id = cc_CaseID r) /\
  exists g, registries db !! (t, cs_RegistryRevision c) = Some g /\ rr_Commitment g = cs_RegistryHash c /\
    rr_RoutingEpoch g = cs_RoutingEpoch c.

Definition advice_source (db : DB) (t id : string) (a : AdviceRow) : Prop :=
  exists clock dbs w raw r, admitWire s clock dbs w raw = Ok (AdmitAdvice r) /\
    registries (dbs 0%nat) ⊆ registries db /\ cases (dbs 1%nat) ⊆ cases db /\
    validate_advice r = Ok tt /\ a = advice_row r (av_TargetEdgeID a) (av_TargetEdgeGeneration a) (av_DeliverySequence a) (av_CommitRevision a) /\
    t = ca_TenantID r /\ id = ca_CaseID r.

Record control_inv (db : DB) : Prop := {
  ci_ledger : ledger_inv db;
  ci_registry : forall t n g, registries db !! (t, n) = Some g -> registry_source db t n g;
  ci_case : forall t id c, cases db !! (t, id) = Some c -> case_source db t id c;
  ci_advice : forall t id a, advice db !! (t, id) = Some a -> advice_source db t id a }.

Lemma case_source_mono db db' t id c : registries db ⊆ registries db' -> case_source db t id c -> case_source db' t id c.
Proof.
  intros Hr [(clock & dbs & w & raw & r & Ha & Hd & Hrow) (g & Hg & Hc)]. split.
  - exists clock, dbs, w, raw, r. split_and!; try apply Hrow; [done|by etrans].
  - exists g. split; [by eapply lookup_weaken|done].
Qed.

Lemma advice_source_mono db db' t id a : registries db ⊆ registries db' -> cases db ⊆ cases db' ->
  advice_source db t id a -> advice_source db' t id a.
Proof.
  intros Hr Hcs (clock & dbs & w & raw & r & Ha & Hd1 & Hd2 & Hrow).
  exists clock, dbs, w, raw, r. split_and!; try apply Hrow; [done|by etrans..].
Qed.

(** Rows that were there before keep their evidence. *)
Lemma control_inv_frame db db' : control_inv db -> ledger_inv db' -> ledger_extends db db' ->
  (forall t n g, registries db' !! (t, n) = Some g -> registries db !! (t, n) = Some g \/ registry_source db' t n g) ->
  (forall t id c, cases db' !! (t, id) = Some c -> cases db !! (t, id) = Some c \/ case_source db' t id c) ->
  (forall t id a, advice db' !! (t, id) = Some a -> advice db !! (t, id) = Some a \/ advice_source db' t id a) ->
  control_inv db'.
Proof.
  intros [_ Hr Hc Ha] Hl He Hr' Hc' Ha'. split; [done|..].
  - intros t n g [H1%Hr|H1]%Hr'; done.
  - intros t id c [H1%Hc|H1]%Hc'; [|done]. eapply case_source_mono; [apply He|done].
  - intros t id a [H1%Ha|H1]%Ha'; [|done]. eapply advice_source_mono; [apply He..|done].
Qed.

Lemma control_inv_same db db' : control_inv db -> ledger_inv db' -> ledger_extends db db' ->
  registries db' = registries db -> cases db' = cases db -> advice db' = advice db -> control_inv db'.
Proof. intros Hi Hl He Hr Hc Ha. apply (control_inv_frame db); [done..| | | ]; rewrite ?Hr, ?Hc, ?Ha; auto. Qed.

Lemma control_inv_step db db' : control_step db db' -> control_inv db -> control_inv db'.
Proof.
  intros Hs Hi. pose proof (control_step_extends _ _ (ci_ledger _ Hi) Hs) as [Hl He].
  destruct Hs as [clock dbs w raw r ae db Hx Ha Hv|clock dbs w raw r ae db Hx Hx2 Ha Hv|clock w raw r ae db Ha Hv
                 |o l le ce db|i t e db|i t rt re e db].
  - destruct (attempt _ _ _ _) as [d v] eqn:E. cbn [fst] in *. apply attempt_db in E; [|apply grows_case].
    destruct E as [(n & _ & ->)|(n & [rc we] & E)]; [by apply (control_inv_same db)|].
    apply commitCaseWork_ok in E as [_ [[-> _]|(Hadm & t1 & t2 & -> & _)]]; [done| |done].
    apply (control_inv_frame db); [done..|by left| |by left].
    cbn [add_case cases]. intros t id c [[[= <- <-] <-]|[_ Hc]]%lookup_insert_Some; [right|by left]. split.
    + exists clock, dbs, w, raw, r. split_and!; try done. cbn. apply Hx.
    + destruct Hadm as (_ & _ & (h & Hh & _ & Hrev & Hcom & Hep) & _).
      destruct (chain_head _ (inv_chain _ (ci_ledger _ Hi)) _ _ Hh) as (g & Hg & Hgc & Hge).
      exists g. cbn. rewrite <- Hrev, <- Hcom, <- Hep. done.
  - destruct (attempt _ _ _ _) as [d v] eqn:E. cbn [fst] in *. apply attempt_db in E; [|apply grows_advice].
    destruct E as [(n & _ & ->)|(n & [rc we] & E)]; [by apply (control_inv_same db)|].
    apply commitAdviceWork_ok in E as [_ [[-> _]|(c & Hadm & t & -> & _)]]; [done| |done].
    apply (control_inv_frame db); [done..|by left|by left|].
    cbn [add_advice advice]. intros t' id a [[[= <- <-] <-]|[_ Hc]]%lookup_insert_Some; [right|by left].
    exists clock, dbs, w, raw, r. split_and!; try done; [apply Hx|apply Hx2].
  - destruct (attempt _ _ _ _) as [d v] eqn:E. cbn [fst] in *. apply attempt_db in E; [|apply grows_registry].
    destruct E as [(n & _ & ->)|(n & [rc we] & E)]; [by apply (control_inv_same db)|].
    apply commitRegistryWork_ok in E as [(_ & -> & _)|[(_ & reason & Hh & ->)|(_ & Hadm & -> & _)]]; [done|..|done].
    + by apply (control_inv_same db).
    + apply (control_inv_frame db); [done..| |by left|by left].
      cbn [add_registry registries]. intros t n' g [[[= <- <-] <-]|[_ Hg]]%lookup_insert_Some; [right|by left].
      exists clock, w, raw, r. by split_and!.
  - destruct (StoreClaim_only o l le ce db) as [Ho _]. apply (control_inv_same db); [done..|by rewrite Ho|by rewrite Ho|by rewrite Ho].
  - destruct (StoreMarkPublished_only i t e db) as [Ho _]. apply (control_inv_same db); [done..|by rewrite Ho|by rewrite Ho|by rewrite Ho].
  - destruct (StoreRelease_only i t rt re e db) as [Ho _]. apply (control_inv_same db); [done..|by rewrite Ho|by rewrite Ho|by rewrite Ho].
Qed.

Lemma control_inv_empty : control_inv empty_db.
Proof. split; [apply ledger_inv_empty|intros t n g; cbn; by rewrite lookup_empty..]. Qed.

Lemma control_reachable_inv db : control_reachable db -> control_inv db.
Proof.
  intros Hr. cut (forall d, rtc control_step d db -> control_inv d -> control_inv db);
    [intros Hk; apply (Hk _ Hr), control_inv_empty|].
  clear. induction 1; eauto using control_inv_step.
Qed.

(** ** The principal of an edge generation

    Every registry that names an edge at the generation of its mark names it
    with the principal of the mark; a higher mark supersedes it. *)
Definition edges_marked (db : DB) (r : CommitRegistryRequest) : Prop :=
  forall e edge, request_edges r !! e = Some edge -> exists w, highwater db !! (cr_TenantID r, e) = Some w /\
    (re_Generation edge < hw_HighestGeneration w \/
     (re_Generation edge = hw_HighestGeneration w /\ re_PrincipalID edge = hw_PrincipalID w)).

Definition marks_inv (db : DB) : Prop := forall t n g, registries db !! (t, n) = Some g ->
  exists clock w raw r, admit_registry s clock w raw = Ok r /\ g = registry_row r (rr_AuthorityRevision g) /\
    t = cr_TenantID r /\ n = cr_Revision r /\ edges_marked db r.

Lemma edges_marked_step db db' r : ledger_step db db' -> edges_marked db r -> edges_marked db' r.
Proof.
  intros Hs Hm e edge He. destruct (Hm e edge He) as (w & Hw & Hg).
  destruct (marks_step _ _ _ _ _ Hs Hw) as (w' & Hw' & Hcase). exists w'. split; [done|].
  destruct Hcase as [->|[Hlt|(Heq & Hp & _)]].
  - done.
  - left. lia.
  - destruct Hg as [|[? ?]]; [left; lia|right; split; [lia|congruence]].
Qed.

Lemma control_step_registries db db' : control_step db db' ->
  registries db' = registries db \/ exists clock w raw r, admit_registry s clock w raw = Ok r /\ db' = add_registry r db.
Proof.
  intros Hs. destruct Hs as [clock dbs w raw r ae db Hx Ha Hv|clock dbs w raw r ae db Hx Hx2 Ha Hv|clock w raw r ae db Ha Hv
                 |o l le ce db|i t e db|i t rt re e db].
  - left. destruct (attempt _ _ _ _) as [d v] eqn:E. cbn [fst] in *. apply attempt_db in E; [|apply grows_case].
    destruct E as [(n & _ & ->)|(n & [rc we] & E)]; [done|].
    by apply commitCaseWork_ok in E as [_ [[-> _]|(Hadm & t1 & t2 & -> & _)]].
  - left. destruct (attempt _ _ _ _) as [d v] eqn:E. cbn [fst] in *. apply attempt_db in E; [|apply grows_advice].
    destruct E as [(n & _ & ->)|(n & [rc we] & E)]; [done|].
    by apply commitAdviceWork_ok in E as [_ [[-> _]|(c & Hadm & t & -> & _)]].
  - destruct (attempt _ _ _ _) as [d v] eqn:E. cbn [fst] in *. apply attempt_db in E; [|apply grows_registry].
    destruct E as [(n & _ & ->)|(n & [rc we] & E)]; [by left|].
    apply commitRegistryWork_ok in E as [(_ & -> & _)|[(_ & reason & Hh & ->)|(_ & Hadm & -> & _)]]; [by left..|right|done].
    by exists clock, w, raw, r.
  - left. by destruct (StoreClaim_only o l le ce db) as [-> _].
  - left. by destruct (StoreMarkPublished_only i t e db) as [-> _].
  - left. by destruct (StoreRelease_only i t rt re e db) as [-> _].
Qed.

Lemma marks_inv_step db db' : control_step db db' -> marks_inv db -> marks_inv db'.
Proof.
  intros Hs Hm. pose proof (store_step_ledger _ _ (control_step_store _ _ Hs)) as Hl.
  assert (Hold : forall t n g, registries db !! (t, n) = Some g -> exists clock w raw r, admit_registry s clock w raw = Ok r /\
    g = registry_row r (rr_AuthorityRevision g) /\ t = cr_TenantID r /\ n = cr_Revision r /\ edges_marked db' r).
  { intros t n g (clock & w & raw & r & Ha & Hg & Ht & Hn & He)%Hm. exists clock, w, raw, r. split_and!; try done.
    by eapply edges_marked_step. }
  destruct (control_step_registries _ _ Hs) as [Hr|(clock & w & raw & r & Ha & ->)]; intros t n g; [rewrite Hr; apply Hold|].
  cbn [add_registry registries]. intros [[[= <- <-] <-]|[_ Hg]]%lookup_insert_Some; [|by apply Hold].
  exists clock, w, raw, r. split_and!; try done. intros e edge He. rewrite add_registry_marks, decide_True, He by done.
  eexists. split; [done|]. by right.
Qed.

Lemma control_reachable_marks db : control_reachable db -> marks_inv db.
Proof.
  intros Hr. cut (forall d, rtc control_step d db -> marks_inv d -> marks_inv db).
  { intros Hk. apply (Hk _ Hr). intros t n g. cbn. by rewrite lookup_empty. }
  clear. induction 1; eauto using marks_inv_step.
Qed.

(** ** The handlers are runs of the system *)
Lemma attempts_run_inv (I : DB -> Prop) label work envs others :
  (forall d d', I d -> control_step d d' -> I d') ->
  (forall k d, rtc control_step d (others k d)) ->
  (forall ae d, I d -> control_step d (attempt label work ae d).1) ->
  forall n k d, I d -> rtc control_step d (attempts n k label work envs others d).1.
Proof.
  intros Hkeep Ho Hw n. assert (Hrun : forall d d', rtc control_step d d' -> I d -> I d') by (induction 1; eauto).
  induction n as [|n IH]; intros k d Hi; cbn [attempts]; [done|].
  assert (Hi' : I (others k d)) by (eapply Hrun; [apply Ho|done]). pose proof (Hw (envs k) _ Hi') as Hstep.
  destruct (attempt label work (envs k) (others k d)) as [d' [r|]]; cbn [fst] in *.
  - etrans; [apply Ho|]. by apply rtc_once.
  - etrans; [apply Ho|]. eapply rtc_l; [done|]. eauto.
Qed.

Section Handlers.
Context (envs : nat -> AttemptEnv) (others : nat -> DB -> DB).
Hypothesis Hothers : forall k d, rtc control_step d (others k d).

(** The ledger extends the states the admission read. *)
Definition read_before (dbs : nat -> DB) (db : DB) : Prop := ledger_inv db /\ forall n, ledger_extends (dbs n) db.

Lemma read_before_step dbs d d' : read_before dbs d -> control_step d d' -> read_before dbs d'.
Proof.
  intros [Hl Hd] Hs. destruct (control_step_extends _ _ Hl Hs) as [Hl' He]. split; [done|]. intros n. etrans; [apply Hd|done].
Qed.

Lemma Submit_run clock dbs w raw db : read_before dbs db ->
  rtc control_step db (Submit s clock dbs w raw envs others db).1.
Proof using Hothers.
  intros Hb. unfold Submit. destruct (admitWire s clock dbs w raw) as [[r|r]|] eqn:Ea; [| |done].
  - unfold lift_store, CommitCase. cbn [fst]. destruct (validate_case r) as [[]|] eqn:Hv; [|done].
    apply (attempts_run_inv (read_before dbs)); [apply read_before_step|done| |done].
    intros ae d [_ Hd]. eapply KCase; [apply Hd|done|done].
  - unfold lift_store, CommitAdvice. cbn [fst]. destruct (validate_advice r) as [[]|] eqn:Hv; [|done].
    apply (attempts_run_inv (read_before dbs)); [apply read_before_step|done| |done].
    intros ae d [_ Hd]. eapply KAdvice; [apply Hd|apply Hd|done|done].
Qed.

Lemma SubmitRegistry_run clock w raw db : rtc control_step db (SubmitRegistry s clock w raw envs others db).1.
Proof using Hothers.
  unfold SubmitRegistry. destruct (admit_registry s clock w raw) as [r|] eqn:Ea; [|done].
  unfold lift_store, CommitRegistry. cbn [fst]. destruct (validate_registry r) as [[]|] eqn:Hv; [|done].
  apply (attempts_run_inv (fun _ => True)); [done|done| |done]. intros ae d _. by eapply KRegistry.
Qed.
End Handlers.
End System.
