(* ===== verification/ControlEdge.v ===== *)
(** * From admission to the edge's own verification

    The composition of the control service, the store and the edge's verifier:
    what the edge decides about a delivery of a run of the control plane. *)
From stdpp Require Import gmap.
From S2P Require Import Prelude GoText GoStrconv GoTime GoJson GoJsonRead GoBase64 Sha256 DeliveryStream Authority PgTx AuthorityStore.
From S2P Require Import OutboxWorker AuthorityOutbox AuthoritySpec AuthorityInv AuthorityTheorems AuthorityReads.
From S2P Require Import SspGuard SspBody SspRegistry SspEnvelope SspTheorems Registry RegistryTheorems ControlApi.
From S2P Require Import SqliteTx EdgeStore EdgeConsumer EdgeVerifier ControlTheorems ControlSystem.
Open Scope string_scope.
Open Scope Z_scope.
Open Scope snag_scope.

Section Edge.
Context {JC : Jcs} {ED : Ed25519} (s : ControlService).

(** ** Registry rows *)

(** A committed registry: its envelope, and the proof the pinned root gives in
    the envelope's whole window. *)
Record registry_evidence (g : RegistryRecord) (e : Envelope) (v : Verified) : Prop := {
  re_wire : decodeStrictEnvelope (rr_Raw g) = Ok e /\ well_formed e /\ Schema e = SspFamilyRegistry;
  re_row : rr_TenantID g = ct_tenant s /\ rr_EnvelopeID g = ID e /\ rr_Revision g = RegistryRevision e /\
    rr_RoutingEpoch g = RoutingEpoch e /\ rr_Commitment g = ve_commitment v;
  re_snapshot : decodeRegistry e (ve_commitment v) = Ok (ve_snapshot v) /\ ve_commitment v <> "" /\
    rg_revision (ve_snapshot v) = rr_Revision g /\ rg_epoch (ve_snapshot v) = rr_RoutingEpoch g;
  re_proof : forall now, (VerifyRoot (ct_trust s) now (rr_Raw g) = Ok v <-> live e now) /\
    (VerifyRoot (ct_trust s) now (rr_Raw g) = Ok v \/ exists err, VerifyRoot (ct_trust s) now (rr_Raw g) = Err err) }.

Lemma root_proof t now raw v : VerifyRoot t now raw = Ok v -> forall e, decodeStrictEnvelope raw = Ok e ->
  forall now', (VerifyRoot t now' raw = Ok v <-> live e now') /\
    (VerifyRoot t now' raw = Ok v \/ exists err, VerifyRoot t now' raw = Err err).
Proof.
  intros Hv e Hdec now'. apply VerifyRoot_time in Hv as (e1 & Hd1 & _ & _ & _ & _ & _ & Hall).
  rewrite Hdec in Hd1. injection Hd1 as <-.
  destruct (VerifyRoot t now' raw) as [v'|err] eqn:E'.
  - pose proof E' as (e2 & Hd2 & _ & _ & Hl2 & _)%VerifyRoot_time. rewrite Hdec in Hd2. injection Hd2 as <-.
    rewrite (Hall _ Hl2) in E'. injection E' as <-. split; [done|by left].
  - split; [|eauto]. split; [done|]. intros Hl. by rewrite (Hall _ Hl) in E'.
Qed.

Lemma registry_has_evidence db t n g : registry_source s db t n g -> t = ct_tenant s /\ n = rr_Revision g /\
  exists e v, registry_evidence g e v.
Proof.
  intros (clock & w & raw & r & Ha & _ & Hg & -> & ->). unfold admit_registry in Ha.
  destruct (_ || _); [done|]. destruct (ReadHeader raw) as [h|] eqn:Eh; [|done].
  apply ReadHeader_exact in Eh as (e & Hdec & ->). destruct (_ <>s? _) eqn:Es; [done|].
  destruct (VerifyRoot _ _ _) as [v|] eqn:Ev; [|done]. unfold verified_commitment in Ha.
  destruct (ve_commitment v =s? "") eqn:Ec; [done|]. destruct (_ || _) eqn:Eb in Ha; [done|]. injection Ha as <-.
  pose proof Ev as (e' & Hdec' & Hw & Hs & _ & _ & Hr & _)%VerifyRoot_time. rewrite Hdec in Hdec'. injection Hdec' as <-.
  bools. cbn in *. rewrite Hg. cbn. split_and!; [done|done|]. exists e, v.
  constructor; cbn; [done|split_and!; congruence|done|]. by apply (root_proof _ (clock 0%nat)).
Qed.

Lemma registry_expiry e d snapshot : decodeRegistry e d = Ok snapshot ->
  rg_commitment snapshot = d /\ ParseTimestamp (ExpiresAt e) = Some (rg_expires snapshot).
Proof.
  unfold decodeRegistry. intros Hd. inv_result. cbn [rg_commitment rg_expires]. split; [done|].
  unfold timestamp in E1. destruct (ParseTimestamp (ExpiresAt e)); [by injection E1 as ->|done].
Qed.

Section RegistryRecord.
Context (v : AuthorityVerifier) (g : RegistryRecord) (e : Envelope) (vv : Verified).
Hypothesis Htenant : av_tenant v = ct_tenant s.
Hypothesis Htrust : av_trust v = ct_trust s.
Hypothesis Hev : registry_evidence g e vv.
Hypothesis Hrev : 0 < rr_AuthorityRevision g.

Lemma record_matches : registry_record_mismatch v g (rr_Revision g) (rr_Commitment g) (rr_RoutingEpoch g) = false.
Proof using All.
  destruct Hev as [[Hdec [Hw _]] (Ht & Hid & _) _ _]. unfold registry_record_mismatch.
  rewrite !orb_false_iff, !negb_false_iff, !String.eqb_eq, !Z.eqb_eq, Z.eqb_neq, Z.leb_gt.
  split_and!; try done; [congruence| |].
  - apply String.eqb_neq. rewrite Hid. apply opaque_nonempty, Hw.
  - intros Hl. destruct (rr_Raw g); [done|]. unfold len in Hl. cbn in Hl. lia.
Qed.

Lemma trust_configured now : VerifyRoot (ct_trust s) now (rr_Raw g) = Ok vv -> NewVerifier (av_trust v) = Ok (ct_trust s).
Proof using All.
  rewrite Htrust. unfold VerifyRoot, NewVerifier, NewEd25519VerifyingKey.
  destruct (negb (len (tr_public (ct_trust s)) =? PublicKeySize)) eqn:El; cbn [lift_ssp mbind result_bind]; [done|].
  intros Hv. unfold VerifyRegistry in Hv. by destruct (tr_author (ct_trust s) =s? "") eqn:Ea.
Qed.

Lemma record_verified at_ : live e at_ ->
  verifyRegistryRecord v g (rr_Revision g) (rr_Commitment g) (rr_RoutingEpoch g) at_ = Ok (ve_snapshot vv).
Proof using All.
  intros Hl. pose proof (proj2 (proj1 (re_proof _ _ _ Hev at_)) Hl) as Hproof.
  unfold verifyRegistryRecord. rewrite record_matches, (trust_configured _ Hproof), Hproof. cbn [else_permanent mbind result_bind].
  destruct Hev as [[Hdec [Hw Hs]] (Ht & Hid & Hr & Hep & Hc) (Hreg & Hne & Hsr & Hse) _].
  unfold verified_commitment. rewrite (proj2 (String.eqb_neq _ _) Hne). cbn [else_permanent mbind result_bind].
  rewrite (proj2 (ReadHeader_exact _ (header_of e))) by eauto.
  destruct (registry_expiry _ _ _ Hreg) as [Hrc Hex]. destruct Hl as (em & ex & _ & Hex' & Hlt). rewrite Hex in Hex'. injection Hex' as <-.
  assert (snapshot_mismatch g (header_of e) (ve_snapshot vv) (ve_commitment vv) (rr_Revision g) (rr_Commitment g) at_ = false) as ->; [|done].
  unfold snapshot_mismatch. cbn [header_of hd_schema hd_id hd_revision hd_epoch].
  rewrite !orb_false_iff, !negb_false_iff, !String.eqb_eq, !Z.eqb_eq, CheckBinding_ok. split_and!; try congruence.
  unfold Expired. rewrite (proj2 (Z.ltb_lt _ _)) by lia. by rewrite andb_false_r.
Qed.

Lemma record_refused at_ now : live e now -> ~ live e at_ ->
  verifyRegistryRecord v g (rr_Revision g) (rr_Commitment g) (rr_RoutingEpoch g) at_ = permanent "invalid_registry_proof".
Proof using All.
  intros Hn Hl. pose proof (proj2 (proj1 (re_proof _ _ _ Hev now)) Hn) as Hproof.
  unfold verifyRegistryRecord. rewrite record_matches, (trust_configured _ Hproof).
  destruct (re_proof _ _ _ Hev at_) as [Hiff [Hok|(err & ->)]]; [|done]. by apply Hiff in Hok.
Qed.
End RegistryRecord.

(** ** What an authority answers about a ledger

    The interface between the edge's verifier and the authority it reads: the
    exact committed rows of one edge generation.  Every authority answers the
    evidence; whether it answers the case itself is a separate matter. *)
Record answers_evidence (a : ProjectionAuthority) (db : DB) (edge : string) (generation : Z) : Prop := {
  an_registry : forall id c g, PgTx.cases db !! (ct_tenant s, id) = Some c ->
    cs_IssuerEdgeID c = edge -> cs_IssuerEdgeGeneration c = generation ->
    registries db !! (ct_tenant s, cs_RegistryRevision c) = Some g ->
    pa_ResolveRegistry a (ct_tenant s) (cs_RegistryRevision c) (rr_Commitment g) = Ok g;
  an_delivery : forall q d, PgTx.deliveries db !! (ct_tenant s, edge, generation, q) = Some d ->
    exists page, dp_Deliveries page = [d] /\
      pa_ListEdgeDeliveries a {| dq_TenantID := ct_tenant s; dq_EdgeID := edge; dq_PrincipalID := "";
        dq_EdgeGeneration := generation; dq_AfterSequence := q - 1; dq_Limit := 1 |} = Ok page }.

Definition answers_case (a : ProjectionAuthority) (id : string) (c : CaseRecord) : Prop :=
  pa_ResolveCase a id (cs_Commitment c) = Ok c.
(** A read that fails, with anything but the authority's own not-found. *)
Definition no_answer (a : ProjectionAuthority) (id : string) (c : CaseRecord) : Prop :=
  exists e, pa_ResolveCase a id (cs_Commitment c) = Err e /\ e <> ErrCaseNotFound.

(** The delivery of sequence [q] as the edge receives it. *)
Record delivers (d : JournalDelivery) (edge : string) (generation q : Z) (raw : bytes) : Prop := {
  dl_tenant : jd_TenantID d = ct_tenant s;
  dl_edge : jd_EdgeID d = edge;
  dl_generation : jd_EdgeGeneration d = generation;
  dl_sequence : jd_DeliverySeq d = q;
  dl_raw : jd_Raw d = raw }.

Lemma exact_delivery v d edge generation q found :
  av_tenant v = ct_tenant s -> delivers d edge generation q (ed_Raw found) -> ed_Sequence found = q ->
  (exists page, dp_Deliveries page = [found] /\
      pa_ListEdgeDeliveries (av_authority v) {| dq_TenantID := ct_tenant s; dq_EdgeID := edge; dq_PrincipalID := "";
        dq_EdgeGeneration := generation; dq_AfterSequence := q - 1; dq_Limit := 1 |} = Ok page) ->
  resolveExactDelivery v d = Ok found.
Proof.
  intros Ht [_ He Hg Hq Hr] Hs (page & Hp & Hl). unfold resolveExactDelivery. rewrite Ht, He, Hg, Hq, Hl, Hp.
  by rewrite Hs, Hr, Z.eqb_refl, String.eqb_refl.
Qed.

Lemma logged_positive db key q found : control_inv s db -> PgTx.deliveries db !! (key, q) = Some found -> 0 < q.
Proof.
  intros Hi Hd. assert (1 <= q < next_sequence db key); [|lia].
  apply (log_dense _ (inv_log _ (ci_ledger _ _ Hi))). eauto.
Qed.

(** Up to the registry, both families are checked alike. *)
Lemma delivery_prefix v d found e em commitment :
  av_tenant v = ct_tenant s -> delivers d (jd_EdgeID d) (jd_EdgeGeneration d) (jd_DeliverySeq d) (ed_Raw found) ->
  jd_EdgeID d <> "" -> 0 < jd_EdgeGeneration d -> 0 < jd_DeliverySeq d ->
  resolveExactDelivery v d = Ok found -> decodeStrictEnvelope (ed_Raw found) = Ok e ->
  Schema e = SspFamilyCase \/ Schema e = SspFamilyAdvice -> ParseTimestamp (EmittedAt e) = Some em ->
  EnvelopeCommitment (ed_Raw found) em = Ok commitment ->
  ed_Kind found = (if Schema e =s? SspFamilyAdvice then "advice" else "case") -> ed_CaseID found = CaseID e ->
  ed_EnvelopeID found = ID e -> ed_Commitment found = commitment -> 0 < ed_AuthorityRevision found ->
  VerifyDelivery v d =
    ('(registryRecord, snapshot) ← EdgeVerifier.resolveRegistry v (header_of e) em;
     if Schema e =s? SspFamilyCase then verifyCaseDelivery v d (header_of e) commitment snapshot em
     else verifyAdviceDelivery v d (header_of e) commitment registryRecord snapshot em).
Proof.
  intros Ht [Hdt _ _ _ Hraw] He Hg Hq Hx Hdec Hsc Hem Hcm Hk Hci Hid Hc Hr. unfold VerifyDelivery.
  rewrite Hraw, Ht, Hdt, String.eqb_refl, (proj2 (String.eqb_neq _ _) He), !(proj2 (Z.leb_gt _ _)) by done. cbn [negb orb].
  assert (Hl : (len (ed_Raw found) =? 0) = false).
  { apply Z.eqb_neq. intros Hl. destruct (ed_Raw found); [done|]. unfold len in Hl. cbn in Hl. lia. }
  rewrite Hl. cbn [reject mbind result_bind]. rewrite Hx. cbn [mbind result_bind].
  rewrite (proj2 (ReadHeader_exact _ (header_of e))) by eauto. cbn [else_permanent mbind result_bind header_of hd_schema hd_emitted hd_case hd_id].
  assert (Hfam : (Schema e <>s? SspFamilyCase) && (Schema e <>s? SspFamilyAdvice) = false) by (destruct Hsc as [-> | ->]; done).
  rewrite Hfam. cbn [reject mbind result_bind]. rewrite Hem. cbn [must mbind result_bind]. rewrite Hcm. cbn [else_permanent mbind result_bind].
  rewrite Hk, Hci, Hid, Hc, !String.eqb_refl, (proj2 (Z.leb_gt _ _) Hr). done.
Qed.

(** ** Cases *)

(** A committed case together with its registry, as the admission saw them. *)
Record case_row_evidence (db : DB) (c : CaseRecord) (e er : Envelope) (g : RegistryRecord) (vv : Verified)
    (key : RegisteredKey) (b : verifiedCaseBody) (em ex : Z) : Prop := {
  cre_wire : decodeStrictEnvelope (cs_Raw c) = Ok e /\ well_formed e /\ Schema e = SspFamilyCase;
  cre_times : ParseTimestamp (EmittedAt e) = Some em /\ ParseTimestamp (ExpiresAt e) = Some ex /\ em < ex;
  cre_registry : registries db !! (ct_tenant s, rr_Revision g) = Some g /\ registry_evidence g er vv /\
    0 < rr_AuthorityRevision g /\ (exists now, live er now);
  cre_binding : rr_Revision g = RegistryRevision e /\ rr_Commitment g = RegistryHash e /\ rr_RoutingEpoch g = RoutingEpoch e;
  cre_key : verifyRegisteredEnvelope (cs_Raw c) (header_of e) (ve_snapshot vv) UsageEdge em = Ok (key, e);
  cre_body : authorizeCase (ve_snapshot vv) (header_of e) key e = Ok b;
  cre_commitment : EnvelopeCommitment (cs_Raw c) em = Ok (cs_Commitment c);
  cre_row : cs_TenantID c = ct_tenant s /\ cs_CaseID c = CaseID e /\ cs_EnvelopeID c = ID e /\
    cs_Domain c = vc_domain b /\ cs_IssuerEdgeID c = vc_edge b /\ cs_IssuerEdgeGeneration c = vc_generation b /\
    cs_RoutingEpoch c = RoutingEpoch e /\ cs_RegistryRevision c = RegistryRevision e /\
    cs_RegistryHash c = RegistryHash e /\ cs_ExpiresAt c = ex /\ 0 < cs_AuthorityRevision c }.

Lemma resolved_row t n commitment db g : ResolveRegistry t n commitment db = Ok g ->
  registries db !! (t, n) = Some g /\ rr_Commitment g = commitment.
Proof.
  unfold ResolveRegistry. destruct (_ || _); [done|]. destruct (registries db !! _) as [g'|]; [|done].
  destruct (String.eqb_spec (rr_Commitment g') commitment); [|done]. by intros [= <-].
Qed.

(** The evidence of the snapshot an admission judged by is the evidence of the
    committed registry row. *)
Lemma judged_registry db clock db0 e record v : control_inv s db -> registries db0 ⊆ registries db ->
  judged_by s clock db0 e record v ->
  registries db !! (ct_tenant s, rr_Revision record) = Some record /\ rr_Revision record = RegistryRevision e /\
  rr_Commitment record = RegistryHash e /\ exists er, registry_evidence record er v /\ live er (clock 0%nat).
Proof.
  intros Hi Hsub ([Hrow Hcom]%resolved_row & Hv & _). eapply lookup_weaken in Hrow; [|done].
  pose proof (ci_registry _ _ Hi _ _ _ Hrow) as (_ & Hn & er & v0 & Hev)%registry_has_evidence.
  pose proof Hv as (e1 & Hd1 & _ & _ & Hl & _)%VerifyRoot_time.
  destruct (re_wire _ _ _ Hev) as [Hd _]. rewrite Hd in Hd1. injection Hd1 as <-.
  pose proof (proj2 (proj1 (re_proof _ _ _ Hev _)) Hl) as Hv0. rewrite Hv0 in Hv. injection Hv as <-.
  rewrite <- Hn. split_and!; [done|congruence|done|]. eauto.
Qed.

Lemma case_has_evidence db id c : control_inv s db -> PgTx.cases db !! (ct_tenant s, id) = Some c ->
  exists e er g vv key b em ex, case_row_evidence db c e er g vv key b em ex.
Proof.
  intros Hi Hc. destruct (ci_case _ _ Hi _ _ _ Hc) as [(clock & dbs & w & raw & r & Ha & Hsub & _ & Hrow & _) (g & Hg & _ & Hge)].
  apply case_admission in Ha as (e & record & v & key & b & em & ex & [Hw Ht Hj Hk Hsig Hem Hb Hau Hcm Hreq]).
  destruct (judged_registry _ _ _ _ _ _ Hi Hsub Hj) as (Hrr & Hrn & Hrc & er & Hev & Hl).
  assert (Hfields : cs_Raw c = raw /\ cs_RegistryRevision c = RegistryRevision e /\ cs_RoutingEpoch c = RoutingEpoch e)
    by (rewrite Hrow, Hreq; done). destruct Hfields as (Hraw & Hcr & Hce).
  rewrite Hcr, <- Hrn, Hrr in Hg. injection Hg as <-. rewrite Hce in Hge.
  destruct Hw as (Hdec & Hwf & Hsc & Hlive). destruct Ht as [Htm Htx]. destruct Hb as (Hb & Hgen & _ & Hne).
  destruct (case_authorized _ _ _ _ _ Hne Hau) as (edge & Hiss & _).
  destruct (re_snapshot _ _ _ Hev) as [Hreg _].
  exists e, er, record, v, key, b, em, ex. constructor; rewrite ?Hraw; try done.
  - destruct Hlive as (a & z & Ha & Hz & Hlt). split_and!; try done. rewrite Htm in Ha. rewrite Htx in Hz. simplify_eq. lia.
  - split_and!; try done; [|by exists (clock 0%nat)].
    apply (rev_registries _ (inv_revision _ (ci_ledger _ _ Hi))) in Hrr. lia.
  - eapply issuer_accepts; (done || lia).
  - replace (cs_Commitment c) with (cc_Commitment r) by by rewrite Hrow. eapply Commitment_time; [done|done|].
    by eapply live_emission.
  - rewrite Hrow, Hreq. cbn. split_and!; try done; [by eapply ParseTimestamp_micro|].
    apply (rev_cases _ (inv_revision _ (ci_ledger _ _ Hi))) in Hc. lia.
Qed.

Section CaseDelivery.
Context (db : DB) (v : AuthorityVerifier) (c : CaseRecord) (d : JournalDelivery) (q : Z).
Context (e er : Envelope) (g : RegistryRecord) (vv : Verified) (key : RegisteredKey) (b : verifiedCaseBody) (em ex : Z).
Hypothesis Hinv : control_inv s db.
Hypothesis Htenant : av_tenant v = ct_tenant s.
Hypothesis Htrust : av_trust v = ct_trust s.
Hypothesis Hrow : case_row_evidence db c e er g vv key b em ex.

Lemma case_record_valid : validateAuthorityCaseRecord c (av_tenant v) e b (cs_Commitment c) (cs_Raw c) ex = Ok tt.
Proof using Htenant Htrust Hrow.
  unfold validateAuthorityCaseRecord.
  destruct (cre_row _ _ _ _ _ _ _ _ _ _ Hrow) as (-> & -> & -> & -> & -> & -> & -> & -> & -> & -> & Hr).
  rewrite Htenant, !String.eqb_refl, !Z.eqb_refl. cbn [negb orb].
  by rewrite (proj2 (Z.leb_gt _ _) Hr).
Qed.

(** The registry of the case, read at another envelope's emission. *)
Lemma case_registry_at at_ : verifyRegistryRecord v g (RegistryRevision e) (RegistryHash e) (RoutingEpoch e) at_ =
  Ok (ve_snapshot vv) <-> live er at_.
Proof using Htenant Htrust Hrow.
  destruct (cre_registry _ _ _ _ _ _ _ _ _ _ Hrow) as (_ & Hev & Hp & now & Hn).
  destruct (cre_binding _ _ _ _ _ _ _ _ _ _ Hrow) as (<- & <- & <-). split; [|by apply record_verified].
  intros Hok. destruct (re_proof _ _ _ Hev at_) as [Hiff [Hv|(err & Hv)]]; [by apply Hiff|].
  rewrite (record_refused v g er vv Htenant Htrust Hev Hp at_ now Hn) in Hok; [done|].
  intros Hl%Hiff. by rewrite Hv in Hl.
Qed.

Lemma case_registry_refused at_ : ~ live er at_ ->
  verifyRegistryRecord v g (RegistryRevision e) (RegistryHash e) (RoutingEpoch e) at_ = permanent "invalid_registry_proof".
Proof using Htenant Htrust Hrow.
  destruct (cre_registry _ _ _ _ _ _ _ _ _ _ Hrow) as (_ & Hev & Hp & now & Hn).
  destruct (cre_binding _ _ _ _ _ _ _ _ _ _ Hrow) as (<- & <- & <-). by eapply record_refused.
Qed.

(** The committed case behind an advice, verified again at its own emission. *)
Lemma committed_case_verdict :
  (live er em -> verifyCommittedCase v c g = Ok (e, b)) /\
  (~ live er em -> verifyCommittedCase v c g = permanent "invalid_registry_proof").
Proof using Htenant Htrust Hrow.
  destruct (cre_wire _ _ _ _ _ _ _ _ _ _ Hrow) as (Hdec & _ & Hsc).
  destruct (cre_times _ _ _ _ _ _ _ _ _ _ Hrow) as (Hem & Hex & _).
  unfold verifyCommittedCase. rewrite (proj2 (ReadHeader_exact _ (header_of e))) by eauto.
  cbn [else_permanent mbind result_bind header_of hd_schema hd_emitted hd_revision hd_registry_hash hd_epoch].
  rewrite Hsc, String.eqb_refl. cbn [negb reject mbind result_bind]. rewrite Hem. cbn [must mbind result_bind]. split.
  - intros Hl%case_registry_at. rewrite Hl. cbn [mbind result_bind].
    fold (header_of e). rewrite (cre_key _ _ _ _ _ _ _ _ _ _ Hrow). cbn [mbind result_bind].
    rewrite (cre_body _ _ _ _ _ _ _ _ _ _ Hrow). cbn [mbind result_bind].
    rewrite (cre_commitment _ _ _ _ _ _ _ _ _ _ Hrow). cbn [else_permanent mbind result_bind].
    rewrite Hex. cbn [must mbind result_bind]. by rewrite case_record_valid.
  - intros Hl. by rewrite (case_registry_refused _ Hl).
Qed.

Hypothesis Hcase : PgTx.cases db !! (ct_tenant s, CaseID e) = Some c.
Hypothesis Hdelivery : PgTx.deliveries db !! (row_edge_key (ct_tenant s) c, q) = Some (delivery_of_case c q).
Hypothesis Hanswers : answers_evidence (av_authority v) db (cs_IssuerEdgeID c) (cs_IssuerEdgeGeneration c).
Hypothesis Hdelivers : delivers d (cs_IssuerEdgeID c) (cs_IssuerEdgeGeneration c) q (cs_Raw c).

Lemma case_resolves_registry at_ : EdgeVerifier.resolveRegistry v (header_of e) at_ =
  (snapshot ← verifyRegistryRecord v g (RegistryRevision e) (RegistryHash e) (RoutingEpoch e) at_; Ok (g, snapshot)).
Proof using All.
  destruct (cre_registry _ _ _ _ _ _ _ _ _ _ Hrow) as (Hg & _).
  destruct (cre_binding _ _ _ _ _ _ _ _ _ _ Hrow) as (Hn & Hc & _).
  pose proof (cre_row _ _ _ _ _ _ _ _ _ _ Hrow) as (_ & _ & _ & _ & _ & _ & _ & Hcr & _).
  unfold EdgeVerifier.resolveRegistry. cbn [header_of hd_revision hd_registry_hash hd_epoch].
  rewrite Hn, <- Hcr in Hg. rewrite Htenant, <- Hcr, <- Hc, (an_registry _ _ _ _ Hanswers _ _ _ Hcase eq_refl eq_refl Hg).
  by rewrite Hc, Hcr.
Qed.

Lemma case_prefix : VerifyDelivery v d =
  ('(_, snapshot) ← EdgeVerifier.resolveRegistry v (header_of e) em;
   verifyCaseDelivery v d (header_of e) (cs_Commitment c) snapshot em).
Proof using All.
  destruct (cre_wire _ _ _ _ _ _ _ _ _ _ Hrow) as (Hdec & Hwf & Hsc).
  destruct (cre_times _ _ _ _ _ _ _ _ _ _ Hrow) as (Hem & _).
  pose proof (cre_row _ _ _ _ _ _ _ _ _ _ Hrow) as (_ & Hcid & Hid & _ & _ & _ & _ & _ & _ & _ & Hr).
  destruct (facts_case _ (inv_facts _ (ci_ledger _ _ Hinv)) _ _ _ Hcase) as (_ & _ & (Hg0 & _ & _ & _ & Hne & _) & _).
  pose proof Hdelivers as [Hdt Hde Hdg Hdq Hdr].
  pose proof (logged_positive _ _ _ _ Hinv Hdelivery) as Hq.
  rewrite (delivery_prefix v d (delivery_of_case c q) e em (cs_Commitment c)); try done; try congruence.
  - by rewrite Hsc.
  - apply (exact_delivery v d (cs_IssuerEdgeID c) (cs_IssuerEdgeGeneration c) q); try done.
    by apply (an_delivery _ _ _ _ Hanswers).
  - by left.
  - apply (cre_commitment _ _ _ _ _ _ _ _ _ _ Hrow).
  - by rewrite Hsc.
Qed.

Lemma case_verdict :
  (live er em -> answers_case (av_authority v) (CaseID e) c ->
     VerifyDelivery v d = Ok (Some (case_projection e b (cs_Commitment c) ex))) /\
  (live er em -> no_answer (av_authority v) (CaseID e) c -> VerifyDelivery v d = Err (Transient "resolve authority case")) /\
  (~ live er em -> VerifyDelivery v d = permanent "invalid_registry_proof").
Proof using All.
  rewrite case_prefix, case_resolves_registry.
  cut ((answers_case (av_authority v) (CaseID e) c ->
     verifyCaseDelivery v d (header_of e) (cs_Commitment c) (ve_snapshot vv) em = Ok (Some (case_projection e b (cs_Commitment c) ex))) /\
    (no_answer (av_authority v) (CaseID e) c ->
     verifyCaseDelivery v d (header_of e) (cs_Commitment c) (ve_snapshot vv) em = Err (Transient "resolve authority case"))).
  { intros [Hk1 Hk2]. split_and!; [..|intros Hl; by rewrite (case_registry_refused _ Hl)];
      intros Hl%case_registry_at Ha; rewrite Hl; cbn [mbind result_bind]; auto. }
  unfold verifyCaseDelivery.
  pose proof Hdelivers as [_ Hde Hdg _ Hdr]. rewrite Hdr, (cre_key _ _ _ _ _ _ _ _ _ _ Hrow). cbn [mbind result_bind].
  rewrite (cre_body _ _ _ _ _ _ _ _ _ _ Hrow). cbn [mbind result_bind].
  destruct (cre_wire _ _ _ _ _ _ _ _ _ _ Hrow) as (_ & _ & Hsc).
  destruct (cre_times _ _ _ _ _ _ _ _ _ _ Hrow) as (_ & Hex & _).
  pose proof (cre_row _ _ _ _ _ _ _ _ _ _ Hrow) as (_ & _ & _ & _ & Hed & Hgn & _).
  rewrite Hsc, Hde, Hdg, Hed, Hgn, !String.eqb_refl, Z.eqb_refl. cbn [negb orb reject mbind result_bind].
  unfold resolveAuthorityCase. split.
  - intros ->. cbn [mbind result_bind]. rewrite Hex. cbn [must mbind result_bind]. by rewrite case_record_valid.
  - intros (err & -> & Hne). by destruct err.
Qed.
End CaseDelivery.

(** ** Advices *)
Record advice_row_evidence (db : DB) (id : string) (a : AdviceRow) (c : CaseRecord) (g : RegistryRecord) (vv : Verified)
    (e : Envelope) (key : RegisteredKey) (b : verifiedAdviceBody) (em ex : Z) : Prop := {
  are_wire : decodeStrictEnvelope (av_Raw a) = Ok e /\ well_formed e /\ Schema e = SspFamilyAdvice;
  are_times : ParseTimestamp (EmittedAt e) = Some em /\ ParseTimestamp (ExpiresAt e) = Some ex;
  are_registry : registries db !! (ct_tenant s, RegistryRevision e) = Some g /\ rr_Commitment g = RegistryHash e;
  are_case : id = CaseID e /\ va_case b = cs_Commitment c /\ RoutingEpoch e = cs_RoutingEpoch c /\
    RegistryRevision e = cs_RegistryRevision c /\ RegistryHash e = cs_RegistryHash c;
  are_key : verifyRegisteredEnvelope (av_Raw a) (header_of e) (ve_snapshot vv) UsageAdvice em = Ok (key, e);
  are_body : decode_verified_advice (Body e) = Some b;
  are_authorized : dispatcher_unauthorized (ve_snapshot vv) (header_of e) key e (cs_Domain c) = false;
  are_commitment : EnvelopeCommitment (av_Raw a) em = Ok (av_Commitment a);
  are_row : av_EnvelopeID a = ID e /\ 0 < av_CommitRevision a }.

Lemma evidence_unique g er er' v v' now :
  registry_evidence g er v -> registry_evidence g er' v' -> live er now -> er' = er /\ v' = v.
Proof.
  intros H1 H2 Hl. destruct (re_wire _ _ _ H1) as [Hd1 _]. destruct (re_wire _ _ _ H2) as [Hd2 _].
  rewrite Hd1 in Hd2. injection Hd2 as <-. split; [done|].
  pose proof (proj2 (proj1 (re_proof _ _ _ H1 _)) Hl) as P1. pose proof (proj2 (proj1 (re_proof _ _ _ H2 _)) Hl) as P2. congruence.
Qed.

Lemma advice_has_evidence db id a : control_inv s db -> PgTx.advice db !! (ct_tenant s, id) = Some a ->
  exists c ec er g vv keyc bc emc exc e key b em ex,
    PgTx.cases db !! (ct_tenant s, id) = Some c /\ case_row_evidence db c ec er g vv keyc bc emc exc /\
    advice_row_evidence db id a c g vv e key b em ex.
Proof.
  intros Hi Ha. destruct (facts_advice _ (inv_facts _ (ci_ledger _ _ Hi)) _ _ _ Ha) as (c & Hc & (_ & Hbe & Hbr & Hbh & _) & _).
  destruct (ci_advice _ _ Hi _ _ _ Ha) as (clock & dbs & w & raw & r & Had & Hsub & Hsubc & _ & Hrow & _ & Hid).
  apply advice_admission in Had as (e & record & v & key & b & c0 & em & ex & [Hw Ht Hj Hk Hsig Hem Hb [Hcr Hcc] Hau Hcm Hreq]).
  destruct (judged_registry _ _ _ _ _ _ Hi Hsub Hj) as (Hrr & Hrn & Hrc & er & Hev & Hl).
  apply resolved_case in Hcr as [Hc0 _]. eapply lookup_weaken in Hc0; [|done].
  assert (Hf : av_Raw a = raw /\ av_RegistryRevision a = RegistryRevision e /\ av_RoutingEpoch a = RoutingEpoch e /\
    av_RegistryHash a = RegistryHash e /\ id = CaseID e /\ av_EnvelopeID a = ID e)
    by (rewrite Hid, Hrow, Hreq; done). destruct Hf as (Hraw & Har & Hae & Hah & Hid' & Hen).
  rewrite <- Hid', Hc in Hc0. injection Hc0 as <-.
  destruct (case_has_evidence _ _ _ Hi Hc) as (ec & er' & g & vv & keyc & bc & emc & exc & Hce).
  assert (g = record /\ er' = er /\ vv = v) as (-> & -> & ->).
  { destruct (cre_registry _ _ _ _ _ _ _ _ _ _ Hce) as (Hg & Hev' & _). destruct (cre_binding _ _ _ _ _ _ _ _ _ _ Hce) as (Hgn & _).
    pose proof (cre_row _ _ _ _ _ _ _ _ _ _ Hce) as (_ & _ & _ & _ & _ & _ & _ & Hcn & _).
    assert (rr_Revision g = rr_Revision record) as Hsame by congruence. rewrite Hsame, Hrr in Hg. injection Hg as <-.
    split; [done|]. by eapply evidence_unique. }
  exists c, ec, er, record, v, keyc, bc, emc, exc, e, key, b, em, ex. split_and!; [done|done|].
  destruct Hw as (Hdec & Hwf & Hsc & Hlive). destruct Hau as (route & Hda & _).
  constructor; rewrite ?Hraw; try done.
  - split; congruence.
  - split_and!; congruence.
  - by eapply dispatcher_accepts.
  - replace (av_Commitment a) with (ca_Commitment r) by by rewrite Hrow. eapply Commitment_time; [done|done|].
    eapply live_emission; [done|apply Ht].
  - split; [done|]. apply (rev_advice _ (inv_revision _ (ci_ledger _ _ Hi))) in Ha. lia.
Qed.

Section AdviceDelivery.
Context (db : DB) (v : AuthorityVerifier) (id : string) (a : AdviceRow) (c : CaseRecord) (d : JournalDelivery).
Context (ec er : Envelope) (g : RegistryRecord) (vv : Verified) (keyc : RegisteredKey) (bc : verifiedCaseBody) (emc exc : Z).
Context (e : Envelope) (key : RegisteredKey) (b : verifiedAdviceBody) (em ex : Z).
Hypothesis Hinv : control_inv s db.
Hypothesis Htenant : av_tenant v = ct_tenant s.
Hypothesis Htrust : av_trust v = ct_trust s.
Hypothesis Hcase : PgTx.cases db !! (ct_tenant s, id) = Some c.
Hypothesis Hadvice : PgTx.advice db !! (ct_tenant s, id) = Some a.
Hypothesis Hrow : case_row_evidence db c ec er g vv keyc bc emc exc.
Hypothesis Harow : advice_row_evidence db id a c g vv e key b em ex.
Hypothesis Hanswers : answers_evidence (av_authority v) db (cs_IssuerEdgeID c) (cs_IssuerEdgeGeneration c).
Hypothesis Hdelivers :
  delivers d (cs_IssuerEdgeID c) (cs_IssuerEdgeGeneration c) (av_DeliverySequence a) (av_Raw a).

Lemma advice_prefix : VerifyDelivery v d =
  ('(registryRecord, snapshot) ← EdgeVerifier.resolveRegistry v (header_of e) em;
   verifyAdviceDelivery v d (header_of e) (av_Commitment a) registryRecord snapshot em).
Proof using All.
  destruct (are_wire _ _ _ _ _ _ _ _ _ _ _ Harow) as (Hdec & _ & Hsc).
  destruct (are_times _ _ _ _ _ _ _ _ _ _ _ Harow) as (Hem & _).
  destruct (are_row _ _ _ _ _ _ _ _ _ _ _ Harow) as (Hen & Hr).
  destruct (are_case _ _ _ _ _ _ _ _ _ _ _ Harow) as (Hid & _).
  destruct (facts_case _ (inv_facts _ (ci_ledger _ _ Hinv)) _ _ _ Hcase) as (_ & _ & (Hg0 & _ & _ & _ & Hne & _) & _).
  destruct (facts_advice _ (inv_facts _ (ci_ledger _ _ Hinv)) _ _ _ Hadvice) as (c' & Hc' & _ & Hdel & _).
  rewrite Hcase in Hc'. injection Hc' as <-. pose proof Hdelivers as [Hdt Hde Hdg Hdq Hdr].
  pose proof (logged_positive _ _ _ _ Hinv Hdel) as Hq.
  rewrite (delivery_prefix v d (delivery_of_advice id a) e em (av_Commitment a)); try done; try congruence.
  - by rewrite Hsc.
  - apply (exact_delivery v d (cs_IssuerEdgeID c) (cs_IssuerEdgeGeneration c) (av_DeliverySequence a)); try done.
    by apply (an_delivery _ _ _ _ Hanswers).
  - by right.
  - apply (are_commitment _ _ _ _ _ _ _ _ _ _ _ Harow).
  - by rewrite Hsc.
Qed.

Lemma advice_resolves_registry : EdgeVerifier.resolveRegistry v (header_of e) em =
  (snapshot ← verifyRegistryRecord v g (RegistryRevision ec) (RegistryHash ec) (RoutingEpoch ec) em; Ok (g, snapshot)).
Proof using All.
  destruct (are_registry _ _ _ _ _ _ _ _ _ _ _ Harow) as (Hg & Hc).
  destruct (are_case _ _ _ _ _ _ _ _ _ _ _ Harow) as (_ & _ & Hae & Har & Hah).
  pose proof (cre_row _ _ _ _ _ _ _ _ _ _ Hrow) as (_ & _ & _ & _ & _ & _ & Hce & Hcr & Hch & _).
  unfold EdgeVerifier.resolveRegistry. cbn [header_of hd_revision hd_registry_hash hd_epoch].
  rewrite Har in Hg. rewrite Htenant, Har, <- Hc, (an_registry _ _ _ _ Hanswers _ _ _ Hcase eq_refl eq_refl Hg), Hc.
  cbn [mbind result_bind]. by rewrite Hah, Hae, Hcr, Hch, Hce.
Qed.

Lemma advice_bound : advice_misbound c e ec b d = false.
Proof using All.
  destruct (are_case _ _ _ _ _ _ _ _ _ _ _ Harow) as (Hid & Hb & Hae & Har & Hah).
  pose proof (cre_row _ _ _ _ _ _ _ _ _ _ Hrow) as (_ & Hcid & _).
  destruct (facts_case _ (inv_facts _ (ci_ledger _ _ Hinv)) _ _ _ Hcase) as (_ & Hcc & _).
  pose proof Hdelivers as [_ Hde Hdg _ _]. unfold advice_misbound.
  rewrite !orb_false_iff, !negb_false_iff, !String.eqb_eq, !Z.eqb_eq. split_and!; congruence.
Qed.

Lemma advice_verdict :
  (live er em /\ live er emc -> answers_case (av_authority v) id c ->
     VerifyDelivery v d = Ok (Some (advice_projection e b c (av_Commitment a) ex))) /\
  (live er em -> no_answer (av_authority v) id c -> VerifyDelivery v d = Err (Transient "resolve advice case")) /\
  (~ (live er em /\ live er emc) -> answers_case (av_authority v) id c ->
     VerifyDelivery v d = permanent "invalid_registry_proof") /\
  (~ live er em -> VerifyDelivery v d = permanent "invalid_registry_proof").
Proof using All.
  rewrite advice_prefix, advice_resolves_registry.
  destruct (case_registry_at db v c ec er g vv keyc bc emc exc Htenant Htrust Hrow em) as [_ Hat].
  pose proof (case_registry_refused db v c ec er g vv keyc bc emc exc Htenant Htrust Hrow em) as Hno.
  destruct (re_proof _ _ _ (proj1 (proj2 (cre_registry _ _ _ _ _ _ _ _ _ _ Hrow))) em) as [Hiff Hdec].
  assert (Hcases : live er em \/ ~ live er em).
  { rewrite <- Hiff. destruct Hdec as [->|(err & ->)]; [by left|by right]. }
  destruct Hcases as [Hl|Hl]; [|split_and!; [tauto..|intros _ _|intros _]; by rewrite Hno].
  rewrite (Hat Hl). cbn [mbind result_bind]. unfold verifyAdviceDelivery.
  pose proof Hdelivers as [_ _ _ _ ->]. rewrite (are_key _ _ _ _ _ _ _ _ _ _ _ Harow). cbn [mbind result_bind].
  destruct (are_wire _ _ _ _ _ _ _ _ _ _ _ Harow) as (_ & _ & ->). rewrite String.eqb_refl. cbn [negb reject mbind result_bind].
  rewrite (are_body _ _ _ _ _ _ _ _ _ _ _ Harow). cbn [must mbind result_bind].
  destruct (are_case _ _ _ _ _ _ _ _ _ _ _ Harow) as (Hid & Hb & _).
  unfold resolveAuthorityCase. rewrite Hb, <- Hid.
  destruct (committed_case_verdict db v c ec er g vv keyc bc emc exc Htenant Htrust Hrow) as [Hyes Hnot]. split_and!.
  - intros [_ Hlc] ->. cbn [mbind result_bind]. rewrite (Hyes Hlc). cbn [mbind result_bind].
    pose proof (cre_row _ _ _ _ _ _ _ _ _ _ Hrow) as (_ & _ & _ & <- & _).
    rewrite (are_authorized _ _ _ _ _ _ _ _ _ _ _ Harow), advice_bound. cbn [reject mbind result_bind].
    destruct (are_times _ _ _ _ _ _ _ _ _ _ _ Harow) as (_ & ->). done.
  - intros _ (err & -> & Hne). by destruct err.
  - intros Hlc ->. cbn [mbind result_bind]. by rewrite Hnot by tauto.
  - tauto.
Qed.
End AdviceDelivery.

(** ** Reading the store

    The authority that answers from the ledger itself, for an edge that the
    current registry names. *)
Definition store_authority (principal : string) (db : DB) : ProjectionAuthority :=
  mkAuthority (fun q => ListEdgeDeliveries {| dq_TenantID := dq_TenantID q; dq_EdgeID := dq_EdgeID q;
                 dq_PrincipalID := principal; dq_EdgeGeneration := dq_EdgeGeneration q;
                 dq_AfterSequence := dq_AfterSequence q; dq_Limit := dq_Limit q |} db)
              (fun id commitment => ResolveCase (ct_tenant s) id commitment db)
              (fun tenant revision commitment => ResolveRegistry tenant revision commitment db).

Definition edge_active (db : DB) (edge : string) (generation : Z) (principal : string) : Prop :=
  non_blank principal = true /\ exists h w,
    heads db !! ct_tenant s = Some h /\ rh_Halted h = false /\ highwater db !! (ct_tenant s, edge) = Some w /\
    hw_PrincipalID w = principal /\ hw_HighestGeneration w = generation /\ hw_LastSeenRevision w = rh_Revision h.

Lemma case_identifiers db t id c : control_inv s db -> PgTx.cases db !! (t, id) = Some c ->
  non_blank t = true /\ non_blank id = true /\ non_blank (cs_IssuerEdgeID c) = true /\
  0 < cs_IssuerEdgeGeneration c /\ validCommitment (cs_Commitment c) = true /\ validCommitment (cs_RegistryHash c) = true /\
  non_blank (cs_EnvelopeID c) = true /\ exists ex, cs_ExpiresAt c = pg_time ex /\ is_zero_time ex = false.
Proof.
  intros Hi Hc. destruct (ci_case _ _ Hi _ _ _ Hc) as [(clock & dbs & w & raw & r & _ & _ & Hv & Hrow & -> & ->) _].
  rewrite Hrow. unfold validate_case, validText in Hv. inv_result. bools. cbn. split_and!; try done. eauto.
Qed.

Lemma registry_identifiers db t n g : control_inv s db -> registries db !! (t, n) = Some g ->
  non_blank t = true /\ 0 < n /\ validCommitment (rr_Commitment g) = true.
Proof.
  intros Hi Hg. destruct (ci_registry _ _ Hi _ _ _ Hg) as (clock & w & raw & r & _ & Hv & Hrow & -> & ->).
  rewrite Hrow. unfold validate_registry, validText in Hv. inv_result. bools. by cbn.
Qed.

Lemma store_answers db edge generation principal : control_inv s db -> edge_active db edge generation principal ->
  answers_evidence (store_authority principal db) db edge generation.
Proof.
  intros Hi (Hp & h & w & Hh & Hhalt & Hw & Hwp & Hwg & Hwl). constructor; cbn.
  - intros _ c g _ _ _ Hg. destruct (registry_identifiers _ _ _ _ Hi Hg) as (Ht & Hn & Hcm).
    unfold ResolveRegistry. by rewrite Ht, Hcm, (proj2 (Z.leb_gt _ _) Hn), Hg, String.eqb_refl.
  - intros q d Hd. pose proof (inv_log _ (ci_ledger _ _ Hi)) as Hlog.
    destruct (facts_delivery _ (inv_facts _ (ci_ledger _ _ Hi)) _ _ _ _ _ Hd) as (c & Hc & Hkey & _).
    destruct (case_identifiers _ _ _ _ Hi Hc) as (Ht & _ & He & Hg & _).
    unfold row_edge_key in Hkey. injection Hkey as Hke Hkg. rewrite Hke in He. rewrite Hkg in Hg.
    set (Q := {| dq_TenantID := _ |}). assert (Hq : 1 <= q < next_sequence db (ct_tenant s, edge, generation))
      by (apply (log_dense _ Hlog); eauto).
    assert (exists page, ListEdgeDeliveries Q db = Ok page) as (page & Hpage).
    { unfold ListEdgeDeliveries, validate_delivery_query, Q, validText.
      cbn [dq_TenantID dq_EdgeID dq_PrincipalID dq_EdgeGeneration dq_AfterSequence dq_Limit].
      rewrite Ht, He, Hp, (proj2 (Z.leb_gt _ _) Hg), (proj2 (Z.ltb_ge (q - 1) 0)) by lia. cbn [negb orb reject Z.leb Z.ltb Z.compare].
      rewrite Hh, Hw, Hhalt, Hwp, Hwg, Hwl, String.eqb_refl, !Z.eqb_refl. cbn [negb orb]. eauto. }
    exists page. split; [|done]. destruct (ListEdgeDeliveries_page _ _ _ Hlog Hpage) as (Hhw & Hseq & _ & Hall).
    cbn in Hhw, Hseq, Hall. rewrite Hhw in Hseq. replace (q - 1 + 1) with q in Hseq by lia.
    replace (Z.min _ _) with 1 in Hseq by lia.
    destruct (dp_Deliveries page) as [|x [|y l]] eqn:Ep; [done| |done]. cbn in Hseq. injection Hseq as Hx.
    assert (Hx' : PgTx.deliveries db !! (ct_tenant s, edge, generation, ed_Sequence x) = Some x) by (apply Hall; set_solver).
    replace (ed_Sequence x) with q in Hx' by lia. congruence.
Qed.

Lemma store_answers_case db principal id c : control_inv s db -> PgTx.cases db !! (ct_tenant s, id) = Some c ->
  answers_case (store_authority principal db) id c.
Proof.
  intros Hi Hc. destruct (case_identifiers _ _ _ _ Hi Hc) as (Ht & Hid & _ & _ & Hcm & _).
  unfold answers_case, store_authority, ResolveCase. cbn. by rewrite Ht, Hid, Hcm, Hc, String.eqb_refl.
Qed.

(** ** What the edge shows of a committed row *)
Definition projects_case (p : VerifiedProjection) (c : CaseRecord) : Prop :=
  p_EnvelopeID p = cs_EnvelopeID c /\ p_Commitment p = cs_Commitment c /\ p_Family p = FamilyCase /\
  exists pc, p_Case p = Some pc /\ c_CaseID pc = cs_CaseID c /\ c_Domain pc = cs_Domain c /\
    c_IssuerEdgeID pc = cs_IssuerEdgeID c /\ c_IssuerEdgeGeneration pc = cs_IssuerEdgeGeneration c /\
    c_RoutingEpoch pc = cs_RoutingEpoch c /\ c_RegistryRevision pc = cs_RegistryRevision c /\
    c_RegistryHash pc = cs_RegistryHash c /\ c_ExpiresAt pc = cs_ExpiresAt c.

Definition projects_advice (p : VerifiedProjection) (a : AdviceRow) (c : CaseRecord) : Prop :=
  p_EnvelopeID p = av_EnvelopeID a /\ p_Commitment p = av_Commitment a /\ p_Family p = FamilyAdvice /\
  exists pa, p_Advice p = Some pa /\ a_CaseID pa = cs_CaseID c /\ a_CaseCommitment pa = cs_Commitment c /\
    a_IssuerEdgeID pa = cs_IssuerEdgeID c /\ a_IssuerEdgeGeneration pa = cs_IssuerEdgeGeneration c /\
    a_RegistryRevision pa = cs_RegistryRevision c /\ a_RegistryHash pa = cs_RegistryHash c.

(** The consumer takes the projection as accepted, and the store admits it. *)
Definition storable (d : JournalDelivery) (p : VerifiedProjection) : Prop :=
  let id := {| ei_TenantID := jd_TenantID d; ei_EdgeID := jd_EdgeID d; ei_Generation := jd_EdgeGeneration d |} in
  jd_Subject d = edgeDeliverySubject id ->
  routeMatches (jd_Subject d) id (Some p) = true /\
  forall now, is_zero_time now = false -> validateDelivery d VerdictAccepted "" (Some p) now = Ok tt.

Lemma token_hex64 e n : 0 < n -> hex64 (EdgeRoutingToken e n) = true.
Proof.
  intros Hn. unfold EdgeRoutingToken. rewrite (proj2 (Z.leb_gt _ _) Hn). apply sha256_hex64.
Qed.

Lemma subject_nonempty id : identity_valid id = true -> is_empty (edgeDeliverySubject id) = false.
Proof. intros Hv. unfold edgeDeliverySubject. by rewrite Hv. Qed.

Lemma delivery_valid d edge generation q raw :
  delivers d edge generation q raw -> ct_tenant s <> "" -> edge <> "" -> 0 < generation -> 0 < q -> len raw <> 0 ->
  jd_Subject d = edgeDeliverySubject {| ei_TenantID := jd_TenantID d; ei_EdgeID := jd_EdgeID d; ei_Generation := jd_EdgeGeneration d |} ->
  (jd_DeliverySeq d <=? 0) || is_empty (jd_TenantID d) || is_empty (jd_EdgeID d)
     || (jd_EdgeGeneration d <=? 0) || is_empty (jd_Subject d) || (len (jd_Raw d) =? 0) = false.
Proof.
  intros [-> -> -> -> ->] Ht He Hg Hq Hl ->.
  rewrite subject_nonempty; rewrite ?is_empty_false, ?(proj2 (Z.leb_gt _ _)), ?(proj2 (Z.eqb_neq _ _)) by done; [done|].
  unfold identity_valid. cbn [ei_TenantID ei_EdgeID ei_Generation]. by rewrite !is_empty_false, (proj2 (Z.leb_gt _ _) Hg).
Qed.

Lemma case_storable db c e er g vv key b em ex d q id :
  control_inv s db -> PgTx.cases db !! (ct_tenant s, id) = Some c -> case_row_evidence db c e er g vv key b em ex ->
  0 < q -> delivers d (cs_IssuerEdgeID c) (cs_IssuerEdgeGeneration c) q (cs_Raw c) ->
  projects_case (case_projection e b (cs_Commitment c) ex) c /\ storable d (case_projection e b (cs_Commitment c) ex).
Proof.
  intros Hi Hc Hrow Hq Hd.
  destruct (facts_case _ (inv_facts _ (ci_ledger _ _ Hi)) _ _ _ Hc) as (Htc & _ & (_ & Htn & Hcn & _ & Hen & Hln) & _).
  destruct (case_identifiers _ _ _ _ Hi Hc) as (_ & _ & _ & Hg & Hcm & Hrh & Hei & ex' & Hex & Hz).
  rewrite validCommitment_is_pattern in Hcm, Hrh. pose proof (non_blank_nonempty _ Hei) as Hei'.
  destruct (cre_times _ _ _ _ _ _ _ _ _ _ Hrow) as (Hem & Hext & Hlt).
  pose proof (cre_row _ _ _ _ _ _ _ _ _ _ Hrow) as (_ & Hr1 & Hr2 & Hr3 & Hr4 & Hr5 & Hr6 & Hr7 & Hr8 & Hr9 & _).
  split.
  { unfold projects_case, case_projection. cbn. split_and!; try congruence. eexists. split; [reflexivity|]. cbn. by split_and!. }
  unfold storable. cbv zeta. intros Hs. pose proof (delivery_valid _ _ _ _ _ Hd) as Hdv.
  pose proof Hd as [Hdt Hde Hdg _ _]. split.
  - unfold routeMatches. rewrite Hs, String.eqb_refl. cbn. rewrite Hde, Hdg, Hr4, Hr5. by rewrite !String.eqb_refl, Z.eqb_refl.
  - intros now Hnow. unfold validateDelivery. rewrite Hdv, Hnow by (done || congruence). cbn [orb].
    cbn -[metadata_ok case_shape case_addressed]. unfold metadata_ok. cbn -[sha256_pattern case_shape case_addressed is_empty].
    rewrite is_empty_false, Hcm by congruence. cbn -[case_shape case_addressed].
    assert (Hsh : case_shape {| c_CaseID := CaseID e; c_IssuerEdgeID := vc_edge b; c_Domain := vc_domain b;
       c_Summary := vc_summary b; c_ContextManifest := vc_manifest b; c_IssuerEdgeGeneration := vc_generation b;
       c_RouteKind := "domain"; c_RouteToken := RoutingToken (vc_domain b);
       c_SourceToken := EdgeRoutingToken (vc_edge b) (vc_generation b); c_RoutingEpoch := RoutingEpoch e;
       c_RegistryRevision := RegistryRevision e; c_RegistryHash := RegistryHash e; c_ExpiresAt := ex |} = true).
    { unfold case_shape. cbn [c_CaseID c_IssuerEdgeGeneration c_RouteKind c_RouteToken c_SourceToken c_RegistryHash c_ExpiresAt].
      rewrite <- Hr1, <- Hr5, <- Hr8, is_empty_false, (proj2 (Z.leb_gt _ _) Hg), token_hex64, Hrh by done.
      unfold RoutingToken, hashLengthPrefixed. rewrite sha256_hex64. cbn [negb orb String.eqb Ascii.eqb Bool.eqb].
      apply negb_true_iff, Z.eqb_neq. apply ParseTimestamp_after_zero in Hem. lia. }
    rewrite Hsh. cbn -[case_addressed]. unfold case_addressed. cbn. rewrite Hde, Hdg, Hr4, Hr5. by rewrite !String.eqb_refl, Z.eqb_refl.
Qed.

Lemma advice_identifiers db t id a : control_inv s db -> PgTx.advice db !! (t, id) = Some a ->
  non_blank (av_EnvelopeID a) = true /\ validCommitment (av_Commitment a) = true /\ len (av_Raw a) <> 0.
Proof.
  intros Hi Ha. destruct (ci_advice _ _ Hi _ _ _ Ha) as (clock & dbs & w & raw & r & _ & _ & _ & Hv & Hrow & _).
  rewrite Hrow. unfold validate_advice, validText in Hv. inv_result. bools. by cbn.
Qed.

Lemma advice_storable db id a c ec er g vv keyc bc emc exc e key b em ex d :
  control_inv s db -> PgTx.cases db !! (ct_tenant s, id) = Some c -> PgTx.advice db !! (ct_tenant s, id) = Some a ->
  case_row_evidence db c ec er g vv keyc bc emc exc -> advice_row_evidence db id a c g vv e key b em ex ->
  0 < av_DeliverySequence a ->
  delivers d (cs_IssuerEdgeID c) (cs_IssuerEdgeGeneration c) (av_DeliverySequence a) (av_Raw a) ->
  projects_advice (advice_projection e b c (av_Commitment a) ex) a c /\
  storable d (advice_projection e b c (av_Commitment a) ex).
Proof.
  intros Hi Hc Ha Hrow Har Hq Hd.
  destruct (facts_case _ (inv_facts _ (ci_ledger _ _ Hi)) _ _ _ Hc) as (Htc & Hcid & (_ & Htn & _ & _ & Hen & _) & _).
  destruct (case_identifiers _ _ _ _ Hi Hc) as (_ & _ & _ & Hg & Hcm & Hrh & _).
  destruct (advice_identifiers _ _ _ _ Hi Ha) as (Hai & Hac & Hal).
  rewrite validCommitment_is_pattern in Hcm, Hrh, Hac. pose proof (non_blank_nonempty _ Hai) as Hai'.
  destruct (are_case _ _ _ _ _ _ _ _ _ _ _ Har) as (Hid & _). destruct (are_row _ _ _ _ _ _ _ _ _ _ _ Har) as (Hae & _).
  destruct (are_times _ _ _ _ _ _ _ _ _ _ _ Har) as (Hem & Hext).
  assert (Hlt : em < ex).
  { pose proof (are_commitment _ _ _ _ _ _ _ _ _ _ _ Har) as (e' & x & Hdv & _)%EnvelopeCommitment_exact.
    destruct (are_wire _ _ _ _ _ _ _ _ _ _ _ Har) as (Hdec & _).
    apply decodeAndValidate_spec in Hdv as [Hdec' [_ Hl]%Validate_exact]. rewrite Hdec in Hdec'. injection Hdec' as <-.
    pose proof (live_unique _ _ _ _ Hl Hem Hext). lia. }
  split.
  { unfold projects_advice, advice_projection. cbn. split_and!; try congruence. eexists. split; [reflexivity|]. cbn. split_and!; congruence. }
  unfold storable. cbv zeta. intros Hs. pose proof (delivery_valid _ _ _ _ _ Hd) as Hdv.
  pose proof Hd as [Hdt Hde Hdg _ _]. split.
  - unfold routeMatches. rewrite Hs, String.eqb_refl. cbn. rewrite Hde, Hdg. by rewrite !String.eqb_refl, Z.eqb_refl.
  - intros now Hnow. unfold validateDelivery. rewrite Hdv, Hnow by (done || congruence). cbn [orb].
    unfold metadata_ok. cbn -[sha256_pattern advice_shape advice_addressed is_empty].
    rewrite <- Hae, is_empty_false, Hac by congruence. cbn -[advice_shape advice_addressed].
    assert (Hsh : forall pa, p_Advice (advice_projection e b c (av_Commitment a) ex) = Some pa -> advice_shape pa = true).
    { intros pa [= <-]. unfold advice_shape.
      cbn [a_AdviceID a_IssuerEdgeID a_IssuerEdgeGeneration a_RouteKind a_RouteToken a_CaseCommitment a_RegistryHash a_ExpiresAt].
      rewrite <- Hae, !is_empty_false, (proj2 (Z.leb_gt _ _) Hg), token_hex64, Hcm, Hrh by done.
      apply negb_true_iff, Z.eqb_neq. apply ParseTimestamp_after_zero in Hem. lia. }
    unfold advice_projection in Hsh. cbn [p_Advice] in Hsh. rewrite Hae. rewrite (Hsh _ eq_refl). cbn -[advice_addressed].
    unfold advice_addressed. cbn. rewrite Hde, Hdg. by rewrite !String.eqb_refl, Z.eqb_refl.
Qed.

(** ** Verdicts over any authority that answers the evidence *)
Section Verdicts.
Context (db : DB) (v : AuthorityVerifier) (id : string) (c : CaseRecord) (d : JournalDelivery).
Hypothesis Hinv : control_inv s db.
Hypothesis Hcase : PgTx.cases db !! (ct_tenant s, id) = Some c.
Hypothesis Htenant : av_tenant v = ct_tenant s.
Hypothesis Htrust : av_trust v = ct_trust s.
Hypothesis Hanswers : answers_evidence (av_authority v) db (cs_IssuerEdgeID c) (cs_IssuerEdgeGeneration c).

Lemma case_at_edge q :
  PgTx.deliveries db !! (row_edge_key (ct_tenant s) c, q) = Some (delivery_of_case c q) ->
  delivers d (cs_IssuerEdgeID c) (cs_IssuerEdgeGeneration c) q (cs_Raw c) ->
  exists g e er em p,
    registries db !! (ct_tenant s, cs_RegistryRevision c) = Some g /\
    decodeStrictEnvelope (cs_Raw c) = Ok e /\ decodeStrictEnvelope (rr_Raw g) = Ok er /\
    ParseTimestamp (EmittedAt e) = Some em /\ projects_case p c /\ storable d p /\
    (live er em -> answers_case (av_authority v) id c -> VerifyDelivery v d = Ok (Some p)) /\
    (live er em -> no_answer (av_authority v) id c -> VerifyDelivery v d = Err (Transient "resolve authority case")) /\
    (~ live er em -> VerifyDelivery v d = Err (Permanent "invalid_registry_proof")).
Proof using All.
  intros Hdel Hd. destruct (case_has_evidence _ _ _ Hinv Hcase) as (e & er & g & vv & key & b & em & ex & Hrow).
  destruct (cre_registry _ _ _ _ _ _ _ _ _ _ Hrow) as (Hg & Hev & _). destruct (cre_binding _ _ _ _ _ _ _ _ _ _ Hrow) as (Hgn & _).
  pose proof (cre_row _ _ _ _ _ _ _ _ _ _ Hrow) as (_ & Hcid & _ & _ & _ & _ & _ & Hcr & _).
  destruct (facts_case _ (inv_facts _ (ci_ledger _ _ Hinv)) _ _ _ Hcase) as (_ & Hcid' & _).
  pose proof (logged_positive _ _ _ _ Hinv Hdel) as Hq.
  destruct (case_storable _ _ _ _ _ _ _ _ _ _ _ _ _ Hinv Hcase Hrow Hq Hd) as [Hp Hst].
  exists g, e, er, em, (case_projection e b (cs_Commitment c) ex).
  split; [congruence|]. split; [apply Hrow|]. split; [apply Hev|]. split; [apply Hrow|]. split; [done|]. split; [done|].
  assert (Hidc : id = CaseID e) by congruence. rewrite Hidc in *.
  eapply (case_verdict db v c d q e er g vv key b em ex); done.
Qed.

Lemma advice_at_edge a : PgTx.advice db !! (ct_tenant s, id) = Some a ->
  delivers d (cs_IssuerEdgeID c) (cs_IssuerEdgeGeneration c) (av_DeliverySequence a) (av_Raw a) ->
  exists g e ec er em emc p,
    registries db !! (ct_tenant s, cs_RegistryRevision c) = Some g /\
    decodeStrictEnvelope (av_Raw a) = Ok e /\ decodeStrictEnvelope (cs_Raw c) = Ok ec /\
    decodeStrictEnvelope (rr_Raw g) = Ok er /\
    ParseTimestamp (EmittedAt e) = Some em /\ ParseTimestamp (EmittedAt ec) = Some emc /\
    projects_advice p a c /\ storable d p /\
    (live er em /\ live er emc -> answers_case (av_authority v) id c -> VerifyDelivery v d = Ok (Some p)) /\
    (live er em -> no_answer (av_authority v) id c -> VerifyDelivery v d = Err (Transient "resolve advice case")) /\
    (~ (live er em /\ live er emc) -> answers_case (av_authority v) id c ->
       VerifyDelivery v d = Err (Permanent "invalid_registry_proof")) /\
    (~ live er em -> VerifyDelivery v d = Err (Permanent "invalid_registry_proof")).
Proof using All.
  intros Ha Hd.
  destruct (advice_has_evidence _ _ _ Hinv Ha) as (c' & ec & er & g & vv & keyc & bc & emc & exc & e & key & b & em & ex & Hc' & Hrow & Har).
  rewrite Hcase in Hc'. injection Hc' as <-.
  destruct (cre_registry _ _ _ _ _ _ _ _ _ _ Hrow) as (Hg & Hev & _). destruct (cre_binding _ _ _ _ _ _ _ _ _ _ Hrow) as (Hgn & _).
  pose proof (cre_row _ _ _ _ _ _ _ _ _ _ Hrow) as (_ & _ & _ & _ & _ & _ & _ & Hcr & _).
  destruct (facts_advice _ (inv_facts _ (ci_ledger _ _ Hinv)) _ _ _ Ha) as (c'' & Hc'' & _ & Hdel & _).
  rewrite Hcase in Hc''. injection Hc'' as <-.
  pose proof (logged_positive _ _ _ _ Hinv Hdel) as Hq.
  destruct (advice_storable _ _ _ _ _ _ _ _ _ _ _ _ _ _ _ _ _ _ Hinv Hcase Ha Hrow Har Hq Hd) as [Hp Hst].
  exists g, e, ec, er, em, emc, (advice_projection e b c (av_Commitment a) ex).
  split; [congruence|]. split; [apply Har|]. split; [apply Hrow|]. split; [apply Hev|]. split; [apply Har|]. split; [apply Hrow|].
  split; [done|]. split; [done|].
  eapply (advice_verdict db v id a c d ec er g vv keyc bc emc exc e key b em ex); done.
Qed.
End Verdicts.

(** C14: a committed case verifies at its own edge exactly when its registry was
    live at its emission.  In every state of the control plane, reached by any
    admissions, retries, faults and interleavings, for the delivery of a
    committed case in the log of the edge that issued it, read from the store
    by that edge: if the registry the case names was within its window when the
    case was emitted, the edge's verifier accepts it, with exactly the committed
    identity, binding and expiry, and the projection passes the consumer's
    route check and the store's validation.  Otherwise it refuses the case for
    good (invalid_registry_proof), although control has committed it. *)
Theorem committed_case_at_edge db principal id c q d :
  control_reachable s db -> PgTx.cases db !! (ct_tenant s, id) = Some c ->
  edge_active db (cs_IssuerEdgeID c) (cs_IssuerEdgeGeneration c) principal ->
  PgTx.deliveries db !! (row_edge_key (ct_tenant s) c, q) = Some (delivery_of_case c q) ->
  delivers d (cs_IssuerEdgeID c) (cs_IssuerEdgeGeneration c) q (cs_Raw c) ->
  let v := mkAuthorityVerifier (ct_tenant s) (store_authority principal db) (ct_trust s) in
  exists g e er em p,
    registries db !! (ct_tenant s, cs_RegistryRevision c) = Some g /\
    decodeStrictEnvelope (cs_Raw c) = Ok e /\ decodeStrictEnvelope (rr_Raw g) = Ok er /\
    ParseTimestamp (EmittedAt e) = Some em /\ projects_case p c /\ storable d p /\
    (live er em -> VerifyDelivery v d = Ok (Some p)) /\
    (~ live er em -> VerifyDelivery v d = Err (Permanent "invalid_registry_proof")).
Proof.
  intros Hi%control_reachable_inv Hc Hact Hdel Hd v. pose proof (store_answers _ _ _ _ Hi Hact) as Hans.
  destruct (case_at_edge db v id c d Hi Hc eq_refl eq_refl Hans q Hdel Hd) as (g & e & er & em & p & H1 & H2 & H3 & H4 & H5 & H6 & Hok & _ & Hno).
  exists g, e, er, em, p. split_and!; try done. intros Hl. apply (Hok Hl). by apply store_answers_case.
Qed.

(** C15: a committed advice verifies at the edge of its case exactly when the
    registry was live at both emissions.  As for cases: for the delivery of a
    final advice in the log of the edge that issued its case, the verifier
    re-establishes the advice and the committed case behind it, each at its own
    emission, and accepts if the registry was within its window at both
    instants, with the committed identity and binding, storable by the
    consumer; otherwise it refuses with invalid_registry_proof. *)
Theorem committed_advice_at_edge db principal id a c d :
  control_reachable s db -> PgTx.cases db !! (ct_tenant s, id) = Some c -> PgTx.advice db !! (ct_tenant s, id) = Some a ->
  edge_active db (cs_IssuerEdgeID c) (cs_IssuerEdgeGeneration c) principal ->
  delivers d (cs_IssuerEdgeID c) (cs_IssuerEdgeGeneration c) (av_DeliverySequence a) (av_Raw a) ->
  let v := mkAuthorityVerifier (ct_tenant s) (store_authority principal db) (ct_trust s) in
  exists g e ec er em emc p,
    registries db !! (ct_tenant s, cs_RegistryRevision c) = Some g /\
    decodeStrictEnvelope (av_Raw a) = Ok e /\ decodeStrictEnvelope (cs_Raw c) = Ok ec /\
    decodeStrictEnvelope (rr_Raw g) = Ok er /\
    ParseTimestamp (EmittedAt e) = Some em /\ ParseTimestamp (EmittedAt ec) = Some emc /\
    projects_advice p a c /\ storable d p /\
    (live er em /\ live er emc -> VerifyDelivery v d = Ok (Some p)) /\
    (~ (live er em /\ live er emc) -> VerifyDelivery v d = Err (Permanent "invalid_registry_proof")).
Proof.
  intros Hi%control_reachable_inv Hc Ha Hact Hd v. pose proof (store_answers _ _ _ _ Hi Hact) as Hans.
  destruct (advice_at_edge db v id c d Hi Hc eq_refl eq_refl Hans a Ha Hd)
    as (g & e & ec & er & em & emc & p & H1 & H2 & H3 & H4 & H5 & H6 & H7 & H8 & Hok & _ & Hno & _).
  pose proof (store_answers_case db principal id c Hi Hc) as Hcase.
  exists g, e, ec, er, em, emc, p. split_and!; try done; [intros Hl; by apply (Hok Hl)|intros Hl; by apply (Hno Hl)].
Qed.
End Edge.
