(* ===== verification/ControlExample.v ===== *)
(** * The control plane at a concrete deployment

    One registry, one case and its advice, signed with the stand-ins of
    SspExample.v, submitted, committed and delivered. *)
From stdpp Require Import gmap.
From S2P Require Import Prelude GoText GoStrconv GoTime GoJson GoJsonRead GoBase64 Sha256 DeliveryStream Authority PgTx AuthorityStore.
From S2P Require Import OutboxWorker AuthorityOutbox AuthoritySpec AuthorityInv AuthorityTheorems AuthorityReads.
From S2P Require Import SspGuard SspBody SspRegistry SspEnvelope SspTheorems SspSign SspExample Registry RegistryTheorems ControlApi.
From S2P Require Import SqliteTx EdgeStore EdgeConsumer EdgeVerifier ControlTheorems ControlSystem ControlEdge.
Open Scope string_scope.
Open Scope Z_scope.
Open Scope snag_scope.

#[local] Existing Instance toy_jcs.
#[local] Existing Instance toy_ed25519.

(** ** The registry *)
Definition ctl_array (l : list string) : string := "[" ++ join "," l ++ "]".
Definition ctl_text (name value : string) : string := marshal_member name (json_string value).
Definition ctl_texts (name : string) (l : list string) : string := marshal_member name (ctl_array (json_string <$> l)).

Definition ctl_key (n : Z) : Ed25519SigningKey := mkSigningKey (be 32 n ++ be 32 0).
Definition ctl_public (n : Z) : bytes := be 32 n.

Definition ctl_key_record (id principal usage : string) (n : Z) : string :=
  ex_obj [ctl_text "key_id" id; ctl_text "public_key" (b64_encode (ctl_public n)); ctl_text "principal_id" principal;
          ctl_text "usage" usage; ctl_text "not_before" "2025-01-01T00:00:00Z"; ctl_text "expires_at" "2027-01-01T00:00:00Z"].
Definition ctl_principal (id : string) (roles keys edges : list string) : string :=
  ex_obj [ctl_text "principal_id" id; ctl_texts "roles" roles; ctl_texts "ssp_key_ids" keys; ctl_texts "edge_ids" edges].

Definition ctl_registry_body : string :=
  ex_obj [marshal_member "revision" "1"; marshal_member "routing_epoch" "2"; marshal_member "previous_commitment" "null";
    marshal_member "domains" (ctl_array [ex_obj [ctl_text "domain" "payments"; ctl_text "dispatcher_principal_id" "dispatch";
      ctl_texts "issuer_edge_ids" ["edge-1"]; ctl_texts "specialist_principal_ids" [];
      ctl_texts "families" [SspFamilyCase; SspFamilyAdvice]; marshal_member "routing_epoch" "2"]]);
    marshal_member "principals" (ctl_array [ctl_principal "dispatch" ["dispatcher"] ["key-d"] [];
      ctl_principal "owner" ["edge"] ["key-e"] ["edge-1"]]);
    marshal_member "edges" (ctl_array [ex_obj [ctl_text "edge_id" "edge-1"; ctl_text "principal_id" "owner"; marshal_member "generation" "3"]]);
    marshal_member "keys" (ctl_array [ctl_key_record "key-d" "dispatch" "advice" 11; ctl_key_record "key-e" "owner" "edge" 12])].

Definition ctl_registry (emitted : string) : Envelope := {|
  Schema := SspFamilyRegistry; ID := "reg-1"; CaseID := "";
  EmittedAt := emitted; ExpiresAt := "2026-01-02T00:00:00Z";
  RoutingEpoch := 2; RegistryRevision := 1; RegistryHash := "";
  AuthorKeyID := "root"; SignatureAlg := "ed25519"; Body := ctl_registry_body; Signature := "" |}.

Definition ctl_sign (e : Envelope) (n : Z) : bytes :=
  match Sign e (ctl_key n) ex_later with Ok w => w | Err _ => "" end.

Definition ctl_registry_wire : bytes := Eval vm_compute in ctl_sign (ctl_registry "2026-01-01T00:00:00Z") 10.

Definition ctl_service : ControlService := mkControl "acme" "authority" (mkTrust "root" (ctl_public 10)) "publisher".
Definition ctl_clock : nat -> Z := fun n => ex_later + Z.of_nat n.

Definition ctl_registry_request : CommitRegistryRequest := Eval vm_compute in
  match admit_registry ctl_service ctl_clock (mkWorkload "publisher" "" 0) ctl_registry_wire with
  | Ok r => r
  | Err _ => {| cr_TenantID := ""; cr_Revision := 0; cr_EnvelopeID := ""; cr_Commitment := ""; cr_Raw := "";
                cr_RoutingEpoch := 0; cr_PreviousCommitment := ""; cr_Edges := None; cr_PrincipalID := "";
                cr_EdgeID := ""; cr_Decision := "" |}
  end.

Lemma ctl_registry_admitted :
  admit_registry ctl_service ctl_clock (mkWorkload "publisher" "" 0) ctl_registry_wire = Ok ctl_registry_request.
Proof. vm_compute. reflexivity. Qed.

Definition ctl_db1 : DB := (attempt "registry" (commitRegistryWork "authority" ctl_registry_request) (calm ex_later) empty_db).1.

Lemma ctl_step1 : control_step ctl_service empty_db ctl_db1.
Proof. apply (KRegistry ctl_service _ _ _ _ _ _ ctl_registry_admitted). vm_compute. reflexivity. Qed.

(** ** The case *)
Definition ctl_envelope (schema id emitted author body : string) : Envelope := {|
  Schema := schema; ID := id; CaseID := "case-1";
  EmittedAt := emitted; ExpiresAt := "2026-01-01T01:00:00Z"; RoutingEpoch := 2; RegistryRevision := 1;
  RegistryHash := cr_Commitment ctl_registry_request; AuthorKeyID := author; SignatureAlg := "ed25519";
  Body := body; Signature := "" |}.

Definition ctl_case_wire : bytes := Eval vm_compute in
  ctl_sign (ctl_envelope SspFamilyCase "env-1" "2026-01-01T00:00:10Z" "key-e" ex_body) 12.
Definition ctl_edge_workload : Workload := mkWorkload "owner" "edge-1" 3.

Definition ctl_case_request : CommitCaseRequest := Eval vm_compute in
  match admitWire ctl_service ctl_clock (fun _ => ctl_db1) ctl_edge_workload ctl_case_wire with
  | Ok (AdmitCase r) => r
  | _ => {| cc_TenantID := ""; cc_CaseID := ""; cc_EnvelopeID := ""; cc_Commitment := ""; cc_Raw := ""; cc_Domain := "";
            cc_IssuerEdgeID := ""; cc_IssuerEdgeGeneration := 0; cc_RoutingEpoch := 0; cc_RegistryRevision := 0;
            cc_RegistryHash := ""; cc_ExpiresAt := 0; cc_PrincipalID := ""; cc_EdgeID := ""; cc_Decision := "" |}
  end.

Lemma ctl_case_admitted :
  admitWire ctl_service ctl_clock (fun _ => ctl_db1) ctl_edge_workload ctl_case_wire = Ok (AdmitCase ctl_case_request).
Proof. vm_compute. reflexivity. Qed.

Definition ctl_db2 : DB := (attempt "case" (commitCaseWork "authority" ctl_case_request) (calm ex_later) ctl_db1).1.

Lemma ctl_step2 : control_step ctl_service ctl_db1 ctl_db2.
Proof.
  apply (KCase ctl_service ctl_clock (fun _ => ctl_db1) ctl_edge_workload ctl_case_wire); [done|apply ctl_case_admitted|].
  vm_compute. reflexivity.
Qed.

(** ** The advice *)
Definition ctl_advice_body : string :=
  ex_obj [ctl_text "case_commitment" (cc_Commitment ctl_case_request); ctl_text "text" "restart it"; ctl_text "public_summary" "advice"].
Definition ctl_advice_wire : bytes := Eval vm_compute in
  ctl_sign (ctl_envelope SspFamilyAdvice "env-2" "2026-01-01T00:20:00Z" "key-d" ctl_advice_body) 11.
Definition ctl_dispatch_workload : Workload := mkWorkload "dispatch" "" 0.

Definition ctl_advice_request : CommitAdviceRequest := Eval vm_compute in
  match admitWire ctl_service ctl_clock (fun _ => ctl_db2) ctl_dispatch_workload ctl_advice_wire with
  | Ok (AdmitAdvice r) => r
  | _ => {| ca_TenantID := ""; ca_CaseID := ""; ca_EnvelopeID := ""; ca_CaseCommitment := ""; ca_Commitment := ""; ca_Raw := "";
            ca_RoutingEpoch := 0; ca_RegistryRevision := 0; ca_RegistryHash := ""; ca_PrincipalID := ""; ca_EdgeID := "";
            ca_Decision := "" |}
  end.

Lemma ctl_advice_admitted :
  admitWire ctl_service ctl_clock (fun _ => ctl_db2) ctl_dispatch_workload ctl_advice_wire = Ok (AdmitAdvice ctl_advice_request).
Proof. vm_compute. reflexivity. Qed.

Definition ctl_db3 : DB := (attempt "advice" (commitAdviceWork "authority" ctl_advice_request) (calm ex_later) ctl_db2).1.

Lemma ctl_step3 : control_step ctl_service ctl_db2 ctl_db3.
Proof.
  apply (KAdvice ctl_service ctl_clock (fun _ => ctl_db2) ctl_dispatch_workload ctl_advice_wire); [done|done|apply ctl_advice_admitted|].
  vm_compute. reflexivity.
Qed.

Lemma ctl_reachable3 : control_reachable ctl_service ctl_db3.
Proof.
  eapply rtc_l; [apply ctl_step1|]. eapply rtc_l; [apply ctl_step2|]. eapply rtc_l; [apply ctl_step3|]. apply rtc_refl.
Qed.

(** ** The edge's deliveries *)
Definition ctl_case_row : CaseRecord := case_row ctl_case_request 2.
Definition ctl_advice_row : AdviceRow := advice_row ctl_advice_request "edge-1" 3 2 3.

Definition ctl_delivery (q : Z) (raw : bytes) : JournalDelivery :=
  to_journal {| ei_TenantID := "acme"; ei_EdgeID := "edge-1"; ei_Generation := 3 |}
    {| ed_Sequence := q; ed_Kind := ""; ed_CaseID := ""; ed_EnvelopeID := ""; ed_Commitment := ""; ed_Raw := raw;
       ed_AuthorityRevision := 0 |}.

Lemma ctl_rows : PgTx.cases ctl_db3 !! ("acme", "case-1") = Some ctl_case_row /\
  PgTx.advice ctl_db3 !! ("acme", "case-1") = Some ctl_advice_row /\
  PgTx.deliveries ctl_db3 !! (row_edge_key "acme" ctl_case_row, 1) = Some (delivery_of_case ctl_case_row 1).
Proof. split_and!; vm_compute; reflexivity. Qed.

Lemma ctl_active : edge_active ctl_service ctl_db3 "edge-1" 3 "owner".
Proof.
  split; [reflexivity|]. eexists _, _. split_and!; [vm_compute; reflexivity|reflexivity|vm_compute; reflexivity|reflexivity..].
Qed.

Lemma case_admission_sound_witness : exists e record v key b em ex edge,
    decodeStrictEnvelope ctl_case_wire = Ok e /\ well_formed e /\ Schema e = SspFamilyCase /\ live e (ctl_clock 2%nat) /\
    judged_by ctl_service ctl_clock ctl_db1 e record v /\
    Verify ctl_case_wire {[AuthorKeyID e := mkVerifyingKey (rk_public key)]} (ctl_clock 2%nat) = Ok e /\
    rg_keys (ve_snapshot v) !! AuthorKeyID e = Some key /\ rk_usage key = UsageEdge /\
    ParseTimestamp (EmittedAt e) = Some em /\ Usable key em = true /\
    decode_verified_case (Body e) = Some b /\
    issuer_authorized (ve_snapshot v) (AuthorKeyID e) key (RoutingEpoch e) b edge /\
    "owner" = ed_principal edge /\ "edge-1" = vc_edge b /\ 3 = vc_generation b /\
    EnvelopeCommitment ctl_case_wire (ctl_clock 3%nat) = Ok (cc_Commitment ctl_case_request) /\
    ParseTimestamp (ExpiresAt e) = Some ex /\ ctl_case_request =
    {| cc_TenantID := "acme"; cc_CaseID := CaseID e; cc_EnvelopeID := ID e;
      cc_Commitment := cc_Commitment ctl_case_request; cc_Raw := ctl_case_wire; cc_Domain := vc_domain b; cc_IssuerEdgeID := vc_edge b;
      cc_IssuerEdgeGeneration := vc_generation b; cc_RoutingEpoch := RoutingEpoch e;
      cc_RegistryRevision := RegistryRevision e; cc_RegistryHash := RegistryHash e; cc_ExpiresAt := ex;
      cc_PrincipalID := "owner"; cc_EdgeID := "edge-1"; cc_Decision := "verified_case_admission" |}.
Proof. apply (case_admission_sound ctl_service ctl_clock (fun _ => ctl_db1) ctl_edge_workload), ctl_case_admitted. Defined.

Lemma advice_admission_sound_witness : exists e record v key b c em route,
    decodeStrictEnvelope ctl_advice_wire = Ok e /\ well_formed e /\ Schema e = SspFamilyAdvice /\ live e (ctl_clock 4%nat) /\
    judged_by ctl_service ctl_clock ctl_db2 e record v /\
    Verify ctl_advice_wire {[AuthorKeyID e := mkVerifyingKey (rk_public key)]} (ctl_clock 4%nat) = Ok e /\
    rg_keys (ve_snapshot v) !! AuthorKeyID e = Some key /\ rk_usage key = UsageAdvice /\
    ParseTimestamp (EmittedAt e) = Some em /\ Usable key em = true /\
    decode_verified_advice (Body e) = Some b /\
    PgTx.cases ctl_db2 !! ("acme", CaseID e) = Some c /\ cs_Commitment c = va_case b /\
    dispatcher_authorized (ve_snapshot v) (AuthorKeyID e) key (RoutingEpoch e) (cs_Domain c) route /\
    "dispatch" = rt_dispatcher route /\ "" = "" /\ 0 = 0 /\
    EnvelopeCommitment ctl_advice_wire (ctl_clock 5%nat) = Ok (ca_Commitment ctl_advice_request) /\
    ca_Raw ctl_advice_request = ctl_advice_wire /\ ca_TenantID ctl_advice_request = "acme" /\
    ca_CaseID ctl_advice_request = CaseID e /\ ca_EnvelopeID ctl_advice_request = ID e /\
    ca_CaseCommitment ctl_advice_request = va_case b /\ ca_PrincipalID ctl_advice_request = "dispatch".
Proof. apply (advice_admission_sound ctl_service ctl_clock (fun _ => ctl_db2) ctl_dispatch_workload), ctl_advice_admitted. Defined.

Definition ctl_verifier : AuthorityVerifier :=
  mkAuthorityVerifier "acme" (store_authority ctl_service "owner" ctl_db3) (ct_trust ctl_service).

Lemma committed_case_at_edge_witness : exists g e er em p,
  registries ctl_db3 !! ("acme", 1) = Some g /\
  decodeStrictEnvelope ctl_case_wire = Ok e /\ decodeStrictEnvelope (rr_Raw g) = Ok er /\
  ParseTimestamp (EmittedAt e) = Some em /\ projects_case p ctl_case_row /\ storable (ctl_delivery 1 ctl_case_wire) p /\
  (live er em -> VerifyDelivery ctl_verifier (ctl_delivery 1 ctl_case_wire) = Ok (Some p)) /\
  (~ live er em -> VerifyDelivery ctl_verifier (ctl_delivery 1 ctl_case_wire) = Err (Permanent "invalid_registry_proof")).
Proof.
  apply (committed_case_at_edge ctl_service ctl_db3 "owner" "case-1" ctl_case_row 1 (ctl_delivery 1 ctl_case_wire)).
  - apply ctl_reachable3.
  - apply ctl_rows.
  - apply ctl_active.
  - apply ctl_rows.
  - by constructor.
Defined.

Lemma committed_advice_at_edge_witness : exists g e ec er em emc p,
    registries ctl_db3 !! ("acme", 1) = Some g /\
    decodeStrictEnvelope ctl_advice_wire = Ok e /\ decodeStrictEnvelope ctl_case_wire = Ok ec /\
    decodeStrictEnvelope (rr_Raw g) = Ok er /\
    ParseTimestamp (EmittedAt e) = Some em /\ ParseTimestamp (EmittedAt ec) = Some emc /\
    projects_advice p ctl_advice_row ctl_case_row /\ storable (ctl_delivery 2 ctl_advice_wire) p /\
    (live er em /\ live er emc -> VerifyDelivery ctl_verifier (ctl_delivery 2 ctl_advice_wire) = Ok (Some p)) /\
    (~ (live er em /\ live er emc) ->
       VerifyDelivery ctl_verifier (ctl_delivery 2 ctl_advice_wire) = Err (Permanent "invalid_registry_proof")).
Proof.
  apply (committed_advice_at_edge ctl_service ctl_db3 "owner" "case-1" ctl_advice_row ctl_case_row (ctl_delivery 2 ctl_advice_wire)).
  - apply ctl_reachable3.
  - apply ctl_rows.
  - apply ctl_rows.
  - apply ctl_active.
  - by constructor.
Defined.

(** The edge accepts both deliveries of this run. *)
Example ctl_accepted :
  match VerifyDelivery ctl_verifier (ctl_delivery 1 ctl_case_wire), VerifyDelivery ctl_verifier (ctl_delivery 2 ctl_advice_wire) with
  | Ok (Some p), Ok (Some p') => p_EnvelopeID p = "env-1" /\ p_EnvelopeID p' = "env-2"
  | _, _ => False
  end.
Proof. vm_compute. done. Qed.

(** ** A registry emitted after the case

    The publisher stamped the registry ten minutes ahead of the edge's clock.
    Control admits the case, the authority commits it, and the edge that opened
    it refuses it for good. *)
Definition late_registry_wire : bytes := Eval vm_compute in ctl_sign (ctl_registry "2026-01-01T00:10:00Z") 10.

Definition late_db1 : DB :=
  match admit_registry ctl_service ctl_clock (mkWorkload "publisher" "" 0) late_registry_wire with
  | Ok r => (attempt "registry" (commitRegistryWork "authority" r) (calm ex_later) empty_db).1
  | Err _ => empty_db
  end.

Definition late_case_wire : bytes := Eval vm_compute in
  let hash := match registries late_db1 !! ("acme", 1) with Some g => rr_Commitment g | None => "" end in
  let e := ctl_envelope SspFamilyCase "env-1" "2026-01-01T00:00:10Z" "key-e" ex_body in
  ctl_sign {| Schema := Schema e; ID := ID e; CaseID := CaseID e; EmittedAt := EmittedAt e; ExpiresAt := ExpiresAt e;
    RoutingEpoch := RoutingEpoch e; RegistryRevision := RegistryRevision e; RegistryHash := hash;
    AuthorKeyID := AuthorKeyID e; SignatureAlg := SignatureAlg e; Body := Body e; Signature := "" |} 12.

Definition late_run : DB * result CtlErr CommitReceipt :=
  Submit ctl_service ctl_clock (fun _ => late_db1) ctl_edge_workload late_case_wire
    (fun _ => calm ex_later) (fun _ db => db) late_db1.

Theorem late_registry_rejects_committed_case :
  is_ok late_run.2 = true /\
  VerifyDelivery (mkAuthorityVerifier "acme" (store_authority ctl_service "owner" late_run.1) (ct_trust ctl_service))
    (ctl_delivery 1 late_case_wire) = Err (Permanent "invalid_registry_proof").
Proof. split; vm_compute; reflexivity. Qed.
