(* ===== verification/GoUrl.v ===== *)
(** * net/url: the texts a request path goes through

    The control client builds a path with [PathEscape] and [QueryEscape],
    parses it, resolves it against its endpoint and prints it; the transport
    sends [RequestURI]; the server parses what it received.  This file is that
    chain and the facts on it: a plain path segment and a query value arrive as
    they were. *)
From stdpp Require Import gmap.
From S2P Require Import Prelude GoText GoJsonRead GoUtf8.
Open Scope string_scope.
Open Scope Z_scope.
Open Scope snag_scope.

(** ** Escaping *)
Inductive encoding : Type := encodePath | encodePathSegment | encodeQueryComponent.

Definition unreserved (a : ascii) : bool :=
  is_digit a || in_range 97 122 a || in_range 65 90 a
  || (a =c? "-") || (a =c? "_") || (a =c? ".") || (a =c? "~").
Definition reserved (a : ascii) : bool :=
  (a =c? "$") || (a =c? "&") || (a =c? "+") || (a =c? ",") || (a =c? "/")
  || (a =c? ":") || (a =c? ";") || (a =c? "=") || (a =c? "?") || (a =c? "@").

Definition shouldEscape (a : ascii) (mode : encoding) : bool :=
  if unreserved a then false
  else if reserved a then
    match mode with
    | encodePath => a =c? "?"
    | encodePathSegment => (a =c? "/") || (a =c? ";") || (a =c? ",") || (a =c? "?")
    | encodeQueryComponent => true
    end
  else true.

Definition upper_hex (z : Z) : ascii := of_code (if z <? 10 then 48 + z else 55 + z).
Definition percent (a : ascii) : string :=
  String "%" (String (upper_hex (code a / 16)) (String (upper_hex (code a mod 16)) "")).

Definition escape_byte (mode : encoding) (a : ascii) : string :=
  if shouldEscape a mode then
    match mode with
    | encodeQueryComponent => if a =c? " " then "+" else percent a
    | _ => percent a
    end
  else String a "".

Fixpoint url_escape (mode : encoding) (s : string) : string :=
  match s with
  | EmptyString => ""
  | String a s => escape_byte mode a ++ url_escape mode s
  end.
Definition PathEscape : string -> string := url_escape encodePathSegment.
Definition QueryEscape : string -> string := url_escape encodeQueryComponent.

Definition hex_digit (a : ascii) : option Z := hex_value (code a).

Fixpoint url_unescape (mode : encoding) (s : string) : option string :=
  match s with
  | EmptyString => Some ""
  | String a r =>
      if a =c? "%" then
        match r with
        | String x (String y r) =>
            match hex_digit x, hex_digit y with
            | Some h, Some l => String (of_code (16 * h + l)) <$> url_unescape mode r
            | _, _ => None
            end
        | _ => None
        end
      else
        let b := match mode with
                 | encodeQueryComponent => if a =c? "+" then " "%char else a
                 | _ => a
                 end in
        String b <$> url_unescape mode r
  end.

(** ** Cutting *)
Fixpoint cut_at (c : ascii) (s : string) : string * option string :=
  match s with
  | EmptyString => ("", None)
  | String a r =>
      if a =c? c then ("", Some r)
      else let '(x, y) := cut_at c r in (String a x, y)
  end.
Fixpoint has_char (c : ascii) (s : string) : bool :=
  match s with EmptyString => false | String a r => (a =c? c) || has_char c r end.
(** [strings.Split] on one byte. *)
Fixpoint split_on (c : ascii) (s : string) : list string :=
  match s with
  | EmptyString => [""]
  | String a r =>
      if a =c? c then "" :: split_on c r
      else match split_on c r with
           | x :: l => String a x :: l
           | [] => [String a ""]
           end
  end.

(** ** The parsed request: its path, the path as it was written when that is
    not the default escaping, and the raw query *)
Record URL := mkURL { url_Path : string; url_RawPath : string; url_RawQuery : string }.

Definition setPath (rest query : string) : option URL :=
  path ← url_unescape encodePath rest;
  Some (mkURL path (if url_escape encodePath path =s? rest then "" else rest) query).

Definition valid_encoded_byte (a : ascii) : bool :=
  (a =c? "!") || (a =c? "$") || (a =c? "&") || (a =c? "'") || (a =c? "(") || (a =c? ")")
  || (a =c? "*") || (a =c? "+") || (a =c? ",") || (a =c? ";") || (a =c? "=") || (a =c? ":")
  || (a =c? "@") || (a =c? "[") || (a =c? "]") || (a =c? "%") || negb (shouldEscape a encodePath).

Definition EscapedPath (u : URL) : string :=
  if negb (is_empty (url_RawPath u)) && all_chars valid_encoded_byte (url_RawPath u)
     && bool_decide (url_unescape encodePath (url_RawPath u) = Some (url_Path u))
  then url_RawPath u
  else if url_Path u =s? "*" then "%2A" else url_escape encodePath (url_Path u).

Definition ctl_byte (a : ascii) : bool := (code a <? 32) || (code a =? 127).

Definition parse_path (rest : string) : option URL :=
  let '(path, query) := cut_at "?" rest in setPath path (default "" query).

(** [url.Parse] of a reference that has to be a rooted path: everything else
    the client refuses. *)
Definition parse_reference (s : string) : option URL :=
  if negb (all_chars (fun a => negb (ctl_byte a)) s) then None
  else
    let rest := (cut_at "#" s).1 in
    match strip_prefix "/" rest, strip_prefix "//" rest, strip_prefix "///" rest with
    | None, _, _ => None
    | Some _, Some _, None => None
    | _, _, _ => parse_path rest
    end.

(** [url.ParseRequestURI] of a rooted request target. *)
Definition parse_request (s : string) : option URL :=
  if negb (all_chars (fun a => negb (ctl_byte a)) s) then None
  else match strip_prefix "/" s with None => None | Some _ => parse_path s end.

(** ** [resolvePath]: dot segments are removed *)
Definition last_slash (s : string) : option nat :=
  foldl (fun acc n => if default false ((fun a => a =c? "/") <$> String.get n s) then Some n else acc)
        None (List.seq 0 (String.length s)).

Definition drop1 (s : string) : string := match s with EmptyString => "" | String _ r => r end.

Definition resolve_elem (acc : string * bool) (elem : string) : string * bool :=
  let '(dst, first) := acc in
  if elem =s? "." then (dst, false)
  else if elem =s? ".." then
    let str := drop1 dst in
    match last_slash str with
    | None => ("/", true)
    | Some i => ("/" ++ substring 0 i str, first)
    end
  else ((if first then dst else dst ++ "/") ++ elem, false).

Definition resolvePath (base ref : string) : string :=
  let full := match ref with
              | EmptyString => base
              | String a _ =>
                  if a =c? "/" then ref
                  else match last_slash base with Some i => substring 0 (S i) base ++ ref | None => ref end
              end in
  if is_empty full then ""
  else
    let elems := split_on "/" full in
    let dst := (foldl resolve_elem ("/", true) elems).1 in
    let elem := List.last elems "" in
    let dst := if (elem =s? ".") || (elem =s? "..") then dst ++ "/" else dst in
    match strip_prefix "//" dst with Some _ => drop1 dst | None => dst end.

(** [u.RequestURI()]. *)
Definition RequestURI (u : URL) : string :=
  let path := match EscapedPath u with EmptyString => "/" | p => p end in
  if is_empty (url_RawQuery u) then path else path ++ "?" ++ url_RawQuery u.

(** ** Queries: the first value of a key *)
Definition query_pair (s : string) : option (string * string) :=
  if has_char ";" s || is_empty s then None
  else
    let '(key, value) := cut_at "=" s in
    key ← url_unescape encodeQueryComponent key;
    value ← url_unescape encodeQueryComponent (default "" value);
    Some (key, value).

Definition query_get (raw key : string) : string :=
  match List.filter (fun p => p.1 =s? key) (omap query_pair (split_on "&" raw)) with
  | (_, value) :: _ => value
  | [] => ""
  end.

Example escape_example : PathEscape "a/b c%é" = "a%2Fb%20c%25%C3%A9" /\ QueryEscape "sha256:a b" = "sha256%3Aa+b".
Proof. done. Qed.
Example resolve_example : resolvePath "/" "/v1/cases/.." = "/v1/" /\ resolvePath "/" "/v1/cases/." = "/v1/cases/"
  /\ resolvePath "" "/v1/cases/a" = "/v1/cases/a" /\ resolvePath "/" "/a/../../b" = "/b".
Proof. done. Qed.
Example query_example : query_get "after_sequence=12&limit=100" "limit" = "100" /\ query_get "a=1;b=2" "a" = "".
Proof. done. Qed.

(** ** Facts: escapes read back *)
Ltac every_byte a := destruct a as [[] [] [] [] [] [] [] []].

Lemma unescape_byte mode a s :
  url_unescape mode (escape_byte mode a ++ s) = String a <$> url_unescape mode s.
Proof. destruct mode; every_byte a; reflexivity. Qed.

Lemma unescape_escape mode s : url_unescape mode (url_escape mode s) = Some s.
Proof. induction s as [|a s IH]; [done|]. cbn [url_escape]. by rewrite unescape_byte, IH. Qed.

Lemma unescape_segment_byte a s :
  url_unescape encodePath (escape_byte encodePathSegment a ++ s) = String a <$> url_unescape encodePath s.
Proof. every_byte a; reflexivity. Qed.

Lemma unescape_segment id s :
  url_unescape encodePath (PathEscape id ++ s) = String.append id <$> url_unescape encodePath s.
Proof.
  unfold PathEscape. induction id as [|a id IH]; cbn [url_escape].
  - cbn. by destruct (url_unescape encodePath s).
  - rewrite <- app_string_assoc, unescape_segment_byte, IH. by destruct (url_unescape encodePath s).
Qed.

(** What [PathEscape] leaves and [QueryEscape] writes. *)
Definition segment_byte (a : ascii) : bool :=
  valid_encoded_byte a && negb (ctl_byte a) && negb (a =c? "/") && negb (a =c? "?") && negb (a =c? "#").
Definition path_byte (a : ascii) : bool := segment_byte a || (a =c? "/").
Definition value_byte (a : ascii) : bool :=
  negb (ctl_byte a) && negb (a =c? "&") && negb (a =c? "=") && negb (a =c? ";") && negb (a =c? "#").

Lemma escaped_chars (p : ascii -> bool) mode s :
  (forall a, all_chars p (escape_byte mode a) = true) -> all_chars p (url_escape mode s) = true.
Proof. intros Hp. induction s as [|a s IH]; [done|]. cbn [url_escape]. by rewrite all_chars_app, Hp, IH. Qed.

Lemma segment_chars s : all_chars segment_byte (PathEscape s) = true.
Proof. apply escaped_chars. intros a. every_byte a; reflexivity. Qed.

Lemma value_chars s : all_chars value_byte (QueryEscape s) = true.
Proof. apply escaped_chars. intros a. every_byte a; reflexivity. Qed.

(** A segment that is no dot segment stays none. *)
Lemma escape_dots s : (PathEscape s =s? ".") || (PathEscape s =s? "..") = (s =s? ".") || (s =s? "..").
Proof.
  assert (H : forall t, PathEscape t = t -> (PathEscape s =s? t) = (s =s? t)).
  { intros t Ht. apply eq_true_iff_eq. rewrite !String.eqb_eq. split; [|by intros ->].
    intros E. unfold PathEscape in *. pose proof (unescape_escape encodePathSegment s) as H1.
    rewrite E, <- Ht, unescape_escape in H1. by injection H1. }
  by rewrite !H.
Qed.

(** ** Facts: cutting *)
Lemma cut_none c s : has_char c s = false -> cut_at c s = (s, None).
Proof. induction s as [|a s IH]; [done|]. cbn. intros [Ha Hs]%orb_false_iff. by rewrite Ha, IH. Qed.

Lemma cut_some c x r : has_char c x = false -> cut_at c (x ++ String c r) = (x, Some r).
Proof.
  induction x as [|a x IH]; cbn; [by rewrite Ascii.eqb_refl|]. intros [Ha Hs]%orb_false_iff. by rewrite Ha, IH.
Qed.

Lemma has_char_app c x y : has_char c (x ++ y) = has_char c x || has_char c y.
Proof. induction x as [|a x IH]; [done|]. cbn. by rewrite IH, orb_assoc. Qed.

Lemma chars_without c p s : p c = false -> all_chars p s = true -> has_char c s = false.
Proof.
  intros Hc. induction s as [|a s IH]; [done|]. cbn. intros [Ha Hs]%andb_true_iff. rewrite IH by done.
  destruct (Ascii.eqb_spec a c) as [->|]; [congruence|done].
Qed.

Lemma split_none c s : has_char c s = false -> split_on c s = [s].
Proof. induction s as [|a s IH]; [done|]. cbn. intros [Ha Hs]%orb_false_iff. by rewrite Ha, IH. Qed.

Lemma split_some c x r : has_char c x = false -> split_on c (x ++ String c r) = x :: split_on c r.
Proof.
  induction x as [|a x IH]; cbn; [by rewrite Ascii.eqb_refl|]. intros [Ha Hs]%orb_false_iff. by rewrite Ha, IH.
Qed.

Lemma split_join_on c l : l <> [] -> Forall (fun x => has_char c x = false) l ->
  split_on c (join (String c "") l) = l.
Proof.
  induction l as [|x l IH]; [done|]. intros _ [Hx Hl]%List.Forall_cons_iff. destruct l as [|y l]; [by apply split_none|].
  change (join (String c "") (x :: y :: l)) with (x ++ String c "" ++ join (String c "") (y :: l)).
  cbn [String.append]. rewrite split_some by done. by rewrite IH.
Qed.

Lemma split_nonempty c s : split_on c s <> [].
Proof. destruct s as [|a s]; [done|]. cbn. by destruct (a =c? c), (split_on c s). Qed.

(** A split text has one element exactly when the separator does not occur. *)
Lemma split_one c s : length (split_on c s) = 1%nat <-> has_char c s = false.
Proof.
  induction s as [|a s IH]; [done|]. cbn. destruct (a =c? c) eqn:E; cbn.
  - pose proof (split_nonempty c s). split; [|done]. by destruct (split_on c s).
  - pose proof (split_nonempty c s). rewrite <- IH. by destruct (split_on c s).
Qed.

(** ** Facts: paths without dot segments resolve to themselves *)
Definition dot_segment (s : string) : bool := (s =s? ".") || (s =s? "..").

Lemma resolve_elems l : Forall (fun x => dot_segment x = false) l -> forall dst,
  foldl resolve_elem (dst, false) l = (dst ++ String.concat "" (map (String "/") l), false).
Proof.
  induction 1 as [|x l Hx _ IH]; intros dst; cbn [foldl map].
  - by rewrite app_string_nil_r.
  - unfold dot_segment in Hx. apply orb_false_iff in Hx as [H1 H2].
    rewrite concat_cons. unfold resolve_elem at 2. rewrite H1, H2, IH. f_equal.
    by rewrite <- !app_string_assoc.
Qed.

Lemma join_slash x l : join "/" (x :: l) = x ++ String.concat "" (map (String "/") l).
Proof.
  revert x. induction l as [|y l IH]; intros x; [by rewrite app_string_nil_r|].
  change (join "/" (x :: y :: l)) with (x ++ "/" ++ join "/" (y :: l)). cbn [map]. by rewrite IH, concat_cons.
Qed.

Lemma last_in {A} (d : A) l x : List.last (x :: l) d = x \/ In (List.last (x :: l) d) l.
Proof.
  revert x. induction l as [|y l IH]; intros x; [by left|]. right. change (List.last (x :: y :: l) d) with (List.last (y :: l) d).
  destruct (IH y) as [->|H]; [by left|by right].
Qed.

Lemma resolve_plain base l : l <> [] ->
  Forall (fun x => dot_segment x = false /\ has_char "/" x = false) l ->
  resolvePath base ("/" ++ join "/" l) = "/" ++ join "/" l.
Proof.
  intros Hne Hl. destruct l as [|x l]; [done|]. unfold resolvePath. cbn [String.append].
  rewrite Ascii.eqb_refl. cbn [is_empty split_on]. rewrite Ascii.eqb_refl.
  assert (Hd : Forall (fun x => dot_segment x = false) (x :: l)) by (eapply Forall_impl; [|exact Hl]; naive_solver).
  rewrite split_join_on by (done || (eapply Forall_impl; [|exact Hl]; naive_solver)).
  cbn [foldl]. change (foldl resolve_elem (resolve_elem (resolve_elem ("/", true) "") x) l)
    with (foldl resolve_elem ("/" : string, false) (x :: l)).
  rewrite resolve_elems by done. cbn [fst].
  assert (Hlast : dot_segment (List.last ("" :: x :: l) "") = false).
  { destruct (last_in "" (x :: l) "") as [->|Hin]; [done|].
    by eapply (proj1 (List.Forall_forall _ _)) in Hin; [|exact Hd]. }
  unfold dot_segment in Hlast. rewrite Hlast. cbn [map]. rewrite concat_cons, join_slash. cbn [String.append strip_prefix].
  by rewrite !Ascii.eqb_refl.
Qed.

(** ** Facts: what is sent is what is received *)
Lemma escaped_path rest query path : url_unescape encodePath rest = Some path -> path <> "*" ->
  all_chars valid_encoded_byte rest = true ->
  setPath rest query = Some (mkURL path (if url_escape encodePath path =s? rest then "" else rest) query) /\
  EscapedPath (mkURL path (if url_escape encodePath path =s? rest then "" else rest) query) = rest.
Proof.
  intros Hu Hstar Hv. unfold setPath. rewrite Hu. split; [done|].
  apply String.eqb_neq in Hstar. unfold EscapedPath. cbn [url_Path url_RawPath].
  destruct (String.eqb_spec (url_escape encodePath path) rest) as [E|E].
  - cbn [is_empty negb andb]. by rewrite Hstar.
  - assert (Hne : is_empty rest = false) by (destruct rest; [by injection Hu as <-|done]).
    by rewrite Hne, Hv, bool_decide_eq_true_2.
Qed.

(** A rooted path of safe bytes with no dot segment, and a raw query. *)
Record good_target (path rest query : string) : Prop := {
  gt_unescape : url_unescape encodePath rest = Some path;
  gt_star : path <> "*";
  gt_bytes : all_chars path_byte rest = true;
  gt_query : all_chars (fun a => negb (ctl_byte a) && negb (a =c? "#")) query = true;
  gt_root : exists r, rest = String "/" r /\ strip_prefix "/" r = None }.

Definition target (rest query : string) : string := rest ++ "?" ++ query.

Lemma byte_question a : path_byte a = true ->
  negb (a =c? "?") = true /\ negb (a =c? "#") = true /\ negb (ctl_byte a) = true.
Proof. every_byte a; by vm_compute. Qed.

Lemma path_without c rest : (forall a, path_byte a = true -> negb (a =c? c) = true) ->
  all_chars path_byte rest = true -> has_char c rest = false.
Proof.
  intros Hc H. apply (chars_without c (fun a => negb (a =c? c))); [by rewrite Ascii.eqb_refl|].
  revert H. by apply all_chars_weaken.
Qed.

Lemma target_parses path rest query : good_target path rest query ->
  parse_path (target rest query) = setPath rest query /\
  parse_reference (target rest query) = setPath rest query /\
  parse_request (target rest query) = setPath rest query.
Proof.
  intros [Hu Hstar Hb Hq (r & Hr & Hr2)].
  assert (Hq1 : has_char "?" rest = false) by (apply path_without; [|done]; by intros a (? & ? & ?)%byte_question).
  assert (Hq2 : has_char "#" rest = false) by (apply path_without; [|done]; by intros a (? & ? & ?)%byte_question).
  assert (Hp : parse_path (target rest query) = setPath rest query).
  { unfold parse_path, target. cbn [String.append]. by rewrite cut_some. }
  assert (Hc : all_chars (fun a => negb (ctl_byte a)) (target rest query) = true).
  { unfold target. rewrite !all_chars_app. apply andb_true_iff. split.
    - revert Hb. apply all_chars_weaken. by intros a (? & ? & ?)%byte_question.
    - apply andb_true_iff. split; [done|]. revert Hq. apply all_chars_weaken. by intros a [? ?]%andb_true_iff. }
  assert (Hh : cut_at "#" (target rest query) = (target rest query, None)).
  { apply cut_none. unfold target. rewrite !has_char_app, Hq2.
    apply (chars_without "#" (fun a => negb (ctl_byte a) && negb (a =c? "#"))) in Hq; [|done]. by rewrite Hq. }
  split_and!; [done|..].
  - unfold parse_reference. rewrite Hc, Hh. cbn [negb fst]. rewrite <- Hp.
    assert (E : target rest query = String "/" (r ++ "?" ++ query)) by (unfold target; by rewrite Hr). rewrite E.
    cbn [strip_prefix]. rewrite Ascii.eqb_refl.
    destruct r as [|a r]; [done|]. cbn [String.append strip_prefix] in *. by destruct (Ascii.eqb "/" a).
  - unfold parse_request. rewrite Hc. cbn [negb]. rewrite <- Hp.
    assert (E : target rest query = String "/" (r ++ "?" ++ query)) by (unfold target; by rewrite Hr). rewrite E.
    cbn [strip_prefix]. by rewrite Ascii.eqb_refl.
Qed.

(** ** From the client's path text to the server's URL

    [base] is the path of the client's endpoint.  The reference is parsed,
    resolved and printed behind the host, parsed again by [http.NewRequest],
    written on the request line and parsed by the server. *)
Definition received (base text : string) : option URL :=
  u ← parse_reference text;
  u ← setPath (resolvePath base (EscapedPath u)) (url_RawQuery u);
  u ← parse_path (RequestURI u);
  parse_request (RequestURI u).

Lemma target_resolved base path rest path' rest' query : good_target path rest query -> query <> "" ->
  resolvePath base rest = rest' -> good_target path' rest' query ->
  exists raw, received base (target rest query) = Some (mkURL path' raw query).
Proof.
  intros Hg Hne Hr Hg'. destruct (target_parses _ _ _ Hg) as (_ & H2 & _). destruct Hg as [Hu Hstar Hb _ _].
  destruct (target_parses _ _ _ Hg') as (H1 & _ & H3). destruct Hg' as [Hu' Hstar' Hb' _ (r & Hrest & _)].
  assert (Hv : forall x, all_chars path_byte x = true -> all_chars valid_encoded_byte x = true).
  { intros x. apply all_chars_weaken. intros a. every_byte a; by vm_compute. }
  destruct (escaped_path _ query _ Hu Hstar (Hv _ Hb)) as [Hset Hesc].
  destruct (escaped_path _ query _ Hu' Hstar' (Hv _ Hb')) as [Hset' Hesc'].
  unfold received. rewrite H2, Hset. cbn [mbind option_bind].
  rewrite Hesc, Hr. cbn [url_RawQuery]. rewrite Hset'. cbn [mbind option_bind].
  assert (Ht : RequestURI (mkURL path' (if url_escape encodePath path' =s? rest' then "" else rest') query) = target rest' query).
  { unfold RequestURI. rewrite Hesc'. cbn [url_RawQuery]. rewrite Hrest. by destruct query. }
  rewrite Ht, H1, Hset'. cbn [mbind option_bind]. rewrite Ht, H3, Hset'. eauto.
Qed.

Lemma target_received base path rest query : good_target path rest query -> query <> "" ->
  resolvePath base rest = rest ->
  exists raw, received base (target rest query) = Some (mkURL path raw query).
Proof. intros Hg Hne Hr. by apply (target_resolved base path rest path rest). Qed.

(** A path of fixed segments around one escaped identifier. *)
Definition plain_id (s : string) : bool := negb (has_char "/" s) && negb (dot_segment s).

Lemma append_inj (x y z : string) : x ++ y = x ++ z -> y = z.
Proof. induction x as [|a x IH]; [done|]. intros [= H]. auto. Qed.
