(* ===== verification/ControlHttp.v ===== *)
(** * internal/controlhttp/server.go: the HTTP boundary of control

    A verified client certificate decides the workload; the path and the query
    decide the operation; every outcome is a status and a JSON text.  The Go
    interfaces [Admission] and [authority.Store] are a record of operations on
    the state behind the server, so that the theorems on the server hold for
    any service; [control_admission] is the one of [ControlApi]. *)
From stdpp Require Import gmap.
From S2P Require Import Prelude GoText GoStrconv GoTime GoJson GoJsonRead GoJsonWire GoUrl DeliveryStream Authority PgTx AuthorityStore.
From S2P Require Import SspGuard SspBody SspRegistry SspEnvelope Registry ControlApi.
Open Scope string_scope.
Open Scope Z_scope.
Open Scope snag_scope.

Record Admission_ (St : Type) := mkAdmission {
  ad_SubmitRegistry : Workload -> bytes -> St -> St * result CtlErr CommitReceipt;
  ad_Submit : Workload -> bytes -> St -> St * result CtlErr CommitReceipt;
  ad_ResolveCase : Workload -> string -> string -> St -> result CtlErr CaseRecord;
  ad_ResolveRegistry : Workload -> Z -> string -> St -> result CtlErr RegistryRecord;
  ad_ListEdgeDeliveries : EdgeDeliveryQuery -> St -> result AErr EdgeDeliveryPage }.
Arguments mkAdmission {St}.
Arguments ad_SubmitRegistry {St}.
Arguments ad_Submit {St}.
Arguments ad_ResolveCase {St}.
Arguments ad_ResolveRegistry {St}.
Arguments ad_ListEdgeDeliveries {St}.

(** The texts of the names of the certificate a request was made with. *)
Record Certificate := mkCertificate {
  crt_dns : list string;
  crt_emails : list string;
  crt_ips : list string;
  crt_uris : list string }.
Record ConnectionState := mkConnection { tls_peers : list Certificate; tls_verified : bool }.

(** [rq_body] is [None] when reading the body fails. *)
Record Request := mkRequest {
  rq_Method : string;
  rq_URL : URL;
  rq_body : option bytes;
  rq_TLS : option ConnectionState }.
Record Response := mkResponse { rs_status : Z; rs_body : bytes }.

(** [sv_zone t] is the offset of the server's local zone at [t], in minutes. *)
Record Server := mkServer {
  sv_tenant : string;
  sv_identities : gmap string Workload;
  sv_maxBodyBytes : Z;
  sv_timeout : Z;
  sv_zone : Z -> Z }.

(** ** New *)
Definition has_prefix (p s : string) : bool := bool_decide (is_Some (strip_prefix p s)).

Definition validSAN (san : string) : bool :=
  existsb (fun prefix => has_prefix prefix san && (len prefix <? len san)) ["dns:"; "email:"; "ip:"; "uri:"].

Definition valid_identity (san : string) (w : Workload) : bool :=
  validSAN san && negb (is_empty (TrimSpace (wl_principal w))) && negb (wl_generation w <? 0)
  && negb ((wl_edge w =s? "") && negb (wl_generation w =? 0))
  && negb ((wl_edge w <>s? "") && (wl_generation w =? 0)).

Definition NewServer (tenant : string) (identities : gmap string Workload) (maxBodyBytes timeout : Z) (zone : Z -> Z)
  : option Server :=
  if is_empty (TrimSpace tenant) || bool_decide (identities = ∅) then None
  else if negb (forallb (fun p => valid_identity p.1 p.2) (map_to_list identities)) then None
  else
    let maxBody := if maxBodyBytes =? 0 then MaxEnvelopeBytes else maxBodyBytes in
    if maxBody <=? 0 then None
    else
      let timeout := if timeout =? 0 then 10 * second else timeout in
      if timeout <=? 0 then None else Some (mkServer tenant identities maxBody timeout zone).

(** ** The workload of a connection *)
Definition lower (a : ascii) : ascii := if in_range 65 90 a then of_code (code a + 32) else a.
Fixpoint ToLower (s : string) : string :=
  match s with EmptyString => "" | String a r => String (lower a) (ToLower r) end.

Definition certificateSANs (c : Certificate) : list string :=
  concat [map (fun n => "dns:" ++ ToLower n) (crt_dns c); map (fun n => "email:" ++ ToLower n) (crt_emails c);
          map (fun n => "ip:" ++ n) (crt_ips c); map (fun n => "uri:" ++ n) (crt_uris c)].

#[export] Instance Workload_eq_decision : EqDecision Workload.
Proof. solve_decision. Defined.

(** The loop over the names: [found] is the identity so far. *)
Fixpoint match_sans (identities : gmap string Workload) (found : option Workload) (sans : list string)
  : option Workload :=
  match sans with
  | [] => found
  | san :: sans =>
      match identities !! san with
      | None => match_sans identities found sans
      | Some identity =>
          match found with
          | Some result => if bool_decide (identity = result) then match_sans identities (Some identity) sans else None
          | None => match_sans identities (Some identity) sans
          end
      end
  end.

Definition workload (s : Server) (state : option ConnectionState) : option Workload :=
  match state with
  | Some c =>
      match tls_peers c with
      | cert :: _ => if tls_verified c then match_sans (sv_identities s) None (certificateSANs cert) else None
      | [] => None
      end
  | None => None
  end.

(** ** Responses *)
Definition writeJSON (status : Z) (text : string) : Response := mkResponse status (encoded text).
Definition writeError (status : Z) (code : string) : Response :=
  writeJSON status (json_object [("code", json_string code)]).

Definition receiptResponse (r : CommitReceipt) : string := json_object
  [("authority_id", json_string (r_AuthorityID r)); ("revision", dec (r_Revision r));
   ("envelope_id", json_string (r_EnvelopeID r)); ("commitment", json_string (r_Commitment r))].

Definition caseResponse (zone : Z -> Z) (c : CaseRecord) : string := json_object
  [("tenant_id", json_string (cs_TenantID c)); ("case_id", json_string (cs_CaseID c));
   ("envelope_id", json_string (cs_EnvelopeID c)); ("commitment", json_string (cs_Commitment c));
   ("raw", json_bytes (cs_Raw c)); ("domain", json_string (cs_Domain c));
   ("issuer_edge_id", json_string (cs_IssuerEdgeID c)); ("issuer_edge_generation", dec (cs_IssuerEdgeGeneration c));
   ("routing_epoch", dec (cs_RoutingEpoch c)); ("registry_revision", dec (cs_RegistryRevision c));
   ("registry_hash", json_string (cs_RegistryHash c)); ("expires_at", json_time (zone (cs_ExpiresAt c)) (cs_ExpiresAt c));
   ("authority_revision", dec (cs_AuthorityRevision c))].

Definition registryResponse (g : RegistryRecord) : string := json_object
  [("tenant_id", json_string (rr_TenantID g)); ("revision", dec (rr_Revision g));
   ("envelope_id", json_string (rr_EnvelopeID g)); ("commitment", json_string (rr_Commitment g));
   ("raw", json_bytes (rr_Raw g)); ("routing_epoch", dec (rr_RoutingEpoch g));
   ("previous_commitment", json_string (rr_PreviousCommitment g));
   ("authority_revision", dec (rr_AuthorityRevision g))].

Definition deliveryResponse (d : EdgeDelivery) : string := json_object
  [("sequence", dec (ed_Sequence d)); ("kind", json_string (ed_Kind d)); ("case_id", json_string (ed_CaseID d));
   ("envelope_id", json_string (ed_EnvelopeID d)); ("commitment", json_string (ed_Commitment d));
   ("raw", json_bytes (ed_Raw d)); ("authority_revision", dec (ed_AuthorityRevision d))].

Definition edgePageResponse (p : EdgeDeliveryPage) : string := json_object
  [("deliveries", json_array (map deliveryResponse (dp_Deliveries p)));
   ("high_watermark", dec (dp_HighWatermark p)); ("complete_through", dec (dp_CompleteThrough p))].

(** [MarshalJSON] refuses an instant whose year has not four digits; the
    encoder then writes nothing. *)
Definition writeCase (zone : Z -> Z) (c : CaseRecord) : Response :=
  if four_digit_year (cs_ExpiresAt c + zone (cs_ExpiresAt c) * minute) then writeJSON 200 (caseResponse zone c)
  else mkResponse 200 "".

(** ** Errors: [errors.Is] over the wrapped values *)
Definition is_deadline (e : CtlErr) : bool :=
  match e with CtlAuthority (ErrPg _ (PgOther "context deadline exceeded")) => true | _ => false end.

Definition typedControlOutcome (e : CtlErr) : option (Z * string) :=
  match e with
  | CtlUnauthorized | CtlAuthority ErrEdgeNotActive => Some (403, "forbidden")
  | CtlExpiredInput | CtlAuthority ErrRegistryHalted => Some (410, "gone")
  | CtlAuthority ErrConflictingCase | CtlAuthority ErrFinalAdviceAlreadySet | CtlAuthority ErrConflictingRegistry
  | CtlAuthority ErrRegistryRevisionSequence | CtlAuthority ErrRegistryEquivocation
  | CtlAuthority ErrRegistryRollback | CtlAuthority ErrEdgeGenerationRollback => Some (409, "conflict")
  | CtlAuthority ErrInvalidRequest | CtlAuthority ErrCaseBinding | CtlAuthority ErrRegistryBinding
  | CtlInvalidCaseBinding => Some (422, "unprocessable")
  | e => if is_deadline e then Some (504, "deadline_exceeded") else None
  end.

Definition writeAdmissionError (e : CtlErr) : Response :=
  match typedControlOutcome e with
  | Some (status, code) => writeError status code
  | None =>
      match e with
      | CtlAuthority ErrCaseNotFound | CtlAuthority ErrRegistryNotFound => writeError 422 "unprocessable"
      | CtlRejected _ => writeError 400 "rejected"
      | _ => writeError 503 "unavailable"
      end
  end.

Definition writeStoreError (e : CtlErr) : Response :=
  match typedControlOutcome e with
  | Some (status, code) => writeError status code
  | None =>
      match e with
      | CtlAuthority ErrCaseNotFound | CtlAuthority ErrRegistryNotFound | CtlAuthority ErrRegistryHeadNotFound =>
          writeError 404 "not_found"
      | _ => writeError 503 "unavailable"
      end
  end.

(** ** Handlers *)
Definition readRaw (body : option bytes) (limit : Z) : option bytes :=
  raw ← body;
  let raw := limit_reader (int64 (limit + 1)) raw in
  if (len raw =? 0) || (limit <? len raw) then None else Some raw.

Definition TrimPrefix (p s : string) : string := default s (strip_prefix p s).

Definition edgePage (query : string) : option (Z * Z) :=
  after ← match query_get query "after_sequence" with
          | EmptyString => Some 0
          | text => match ParseInt text with
                    | Some n => if n <? 0 then None else Some n
                    | None => None
                    end
          end;
  limit ← match query_get query "limit" with
          | EmptyString => Some 100
          | text => match ParseInt text with
                    | Some n => if (n <? 1) || (1000 <? n) then None else Some n
                    | None => None
                    end
          end;
  Some (after, limit).

Section Handlers.
Context {St : Type} (api : Admission_ St) (s : Server).

Definition submit (r : Request) (w : Workload) (registry : bool) (st : St) : St * Response :=
  match readRaw (rq_body r) (sv_maxBodyBytes s) with
  | None => (st, writeError 413 "body_too_large")
  | Some raw =>
      let '(st, receipt) := if registry then ad_SubmitRegistry api w raw st else ad_Submit api w raw st in
      (st, match receipt with
           | Err e => writeAdmissionError e
           | Ok receipt => writeJSON 200 (receiptResponse receipt)
           end)
  end.

Definition handleResolveCase (r : Request) (w : Workload) (st : St) : Response :=
  let caseID := TrimPrefix "/v1/cases/" (url_Path (rq_URL r)) in
  if is_empty caseID || has_char "/" caseID then writeError 400 "invalid_case_query"
  else
    let commitment := query_get (url_RawQuery (rq_URL r)) "commitment" in
    if is_empty commitment then writeError 400 "invalid_case_query"
    else match ad_ResolveCase api w caseID commitment st with
         | Err e => writeStoreError e
         | Ok record => writeCase (sv_zone s) record
         end.

Definition handleResolveRegistry (r : Request) (w : Workload) (st : St) : Response :=
  let revisionText := TrimPrefix "/v1/registries/" (url_Path (rq_URL r)) in
  if is_empty revisionText || has_char "/" revisionText then writeError 400 "invalid_registry_query"
  else
    let commitment := query_get (url_RawQuery (rq_URL r)) "commitment" in
    match ParseInt revisionText with
    | None => writeError 400 "invalid_registry_query"
    | Some revision =>
        if (revision <=? 0) || is_empty commitment then writeError 400 "invalid_registry_query"
        else match ad_ResolveRegistry api w revision commitment st with
             | Err e => writeStoreError e
             | Ok record => writeJSON 200 (registryResponse record)
             end
    end.

Definition reconcile (r : Request) (w : Workload) (st : St) : Response :=
  match split_on "/" (TrimPrefix "/v1/edges/" (url_Path (rq_URL r))) with
  | [edge; generations; generationText; deliveries] =>
      if is_empty edge || (generations <>s? "generations") || (deliveries <>s? "deliveries")
      then writeError 404 "not_found"
      else match ParseInt generationText with
           | None => writeError 403 "forbidden"
           | Some generation =>
               if (generation <=? 0) || (wl_edge w <>s? edge) || negb (wl_generation w =? generation)
               then writeError 403 "forbidden"
               else match edgePage (url_RawQuery (rq_URL r)) with
                    | None => writeError 400 "invalid_edge_query"
                    | Some (after, limit) =>
                        match ad_ListEdgeDeliveries api
                                {| dq_TenantID := sv_tenant s; dq_EdgeID := edge; dq_PrincipalID := wl_principal w;
                                   dq_EdgeGeneration := generation; dq_AfterSequence := after; dq_Limit := limit |} st with
                        | Err e => writeStoreError (CtlAuthority e)
                        | Ok page => writeJSON 200 (edgePageResponse page)
                        end
                    end
           end
  | _ => writeError 404 "not_found"
  end.

Definition ServeHTTP (r : Request) (st : St) : St * Response :=
  match workload s (rq_TLS r) with
  | None => (st, writeError 401 "unauthenticated")
  | Some w =>
      let path := url_Path (rq_URL r) in
      if (rq_Method r =s? "POST") && (path =s? "/v1/registries") then submit r w true st
      else if (rq_Method r =s? "POST") && (path =s? "/v1/cases") then submit r w false st
      else if (rq_Method r =s? "POST") && (path =s? "/v1/advice") then submit r w false st
      else if (rq_Method r =s? "GET") && has_prefix "/v1/cases/" path then (st, handleResolveCase r w st)
      else if (rq_Method r =s? "GET") && has_prefix "/v1/registries/" path then (st, handleResolveRegistry r w st)
      else if (rq_Method r =s? "GET") && has_prefix "/v1/edges/" path then (st, reconcile r w st)
      else (st, writeError 404 "not_found")
  end.
End Handlers.

(** ** The service of [ControlApi] behind the server: one call reads one state
    of the ledger *)
Definition control_admission `{Jcs} `{Ed25519} (s : ControlService) (clock : nat -> Z)
  (envs : nat -> AttemptEnv) (others : nat -> DB -> DB) : Admission_ DB :=
  mkAdmission (fun w raw db => SubmitRegistry s clock w raw envs others db)
              (fun w raw db => Submit s clock (fun _ => db) w raw envs others db)
              (fun w caseID commitment db => ControlResolveCase s clock (fun _ => db) w caseID commitment)
              (fun w revision commitment db => ControlResolveRegistry s db w revision commitment)
              ListEdgeDeliveries.
