(* ===== verification/ControlClient.v ===== *)
(** * internal/controlclient/client.go: the client of control

    A request is a method, a path text and a body; the transport answers or
    fails.  The reply is read through a bounded reader and decoded strictly.
    The adapter [projectionAuthorityClient] of cmd/snagline-edge/runtime.go
    turns the client into the authority of the edge's verifier. *)
From stdpp Require Import gmap.
From S2P Require Import Prelude GoText GoStrconv GoTime GoJson GoJsonRead GoJsonWire GoUrl DeliveryStream Authority.
From S2P Require Import SspGuard SspBody SspRegistry SspEnvelope Registry ControlApi ControlHttp EdgeVerifier.
Open Scope string_scope.
Open Scope Z_scope.
Open Scope snag_scope.

Inductive CliErr : Type :=
| CliRejected (status : Z) (code : string)
| CliError (what : string).

(** ** New: the parsed endpoint and the facts of the TLS configuration *)
Record Endpoint := mkEndpoint {
  ep_Scheme : string;
  ep_Opaque : string;
  ep_Host : string;
  ep_hasUser : bool;
  ep_Path : string;
  ep_RawPath : string;
  ep_RawQuery : string;
  ep_ForceQuery : bool;
  ep_Fragment : string }.
Record TLSConfig := mkTLS {
  tc_MinVersion : Z;
  tc_InsecureSkipVerify : bool;
  tc_hasRoots : bool;
  tc_certificates : Z }.
Definition VersionTLS13 : Z := 0x0304.

Record Client := mkClient {
  cl_base : string;
  cl_workload : Workload;
  cl_timeout : Z }.

Definition NewClient (endpoint : option Endpoint) (tls : option TLSConfig) (w : Workload) (requestTimeout : Z)
  : option Client :=
  e ← endpoint;
  if (ep_Scheme e <>s? "https") || (ep_Opaque e <>s? "") || (ep_Host e =s? "") || ep_hasUser e
     || ((ep_Path e <>s? "") && (ep_Path e <>s? "/")) || (ep_RawPath e <>s? "") || (ep_RawQuery e <>s? "")
     || ep_ForceQuery e || (ep_Fragment e <>s? "") then None
  else if (wl_principal w =s? "") || negb (Bool.eqb (wl_edge w =s? "") (wl_generation w =? 0)) || (wl_generation w <? 0)
  then None
  else
    t ← tls;
    if (tc_MinVersion t <? VersionTLS13) || tc_InsecureSkipVerify t || negb (tc_hasRoots t) || negb (tc_certificates t =? 1)
    then None
    else
      let timeout := if requestTimeout =? 0 then 10 * second else requestTimeout in
      if (timeout <=? 0) || (minute <? timeout) then None else Some (mkClient (ep_Path e) w timeout).

(** ** Decoded responses *)
Definition decode_commit : json -> option CommitReceipt :=
  wire_struct ["authority_id"; "revision"; "envelope_id"; "commitment"] (fun l =>
    a ← wire_field (decode_raw decode_string) "" l "authority_id";
    r ← wire_field (decode_raw decode_int64) 0 l "revision";
    e ← wire_field (decode_raw decode_string) "" l "envelope_id";
    c ← wire_field (decode_raw decode_string) "" l "commitment";
    Some {| r_AuthorityID := a; r_Revision := r; r_EnvelopeID := e; r_Commitment := c |}).

Definition decode_case : json -> option CaseRecord :=
  wire_struct ["tenant_id"; "case_id"; "envelope_id"; "commitment"; "raw"; "domain"; "issuer_edge_id";
               "issuer_edge_generation"; "routing_epoch"; "registry_revision"; "registry_hash"; "expires_at";
               "authority_revision"] (fun l =>
    t ← wire_field (decode_raw decode_string) "" l "tenant_id";
    i ← wire_field (decode_raw decode_string) "" l "case_id";
    e ← wire_field (decode_raw decode_string) "" l "envelope_id";
    c ← wire_field (decode_raw decode_string) "" l "commitment";
    r ← wire_field (decode_raw decode_bytes) "" l "raw";
    d ← wire_field (decode_raw decode_string) "" l "domain";
    x ← wire_field (decode_raw decode_string) "" l "issuer_edge_id";
    g ← wire_field (decode_raw decode_int64) 0 l "issuer_edge_generation";
    p ← wire_field (decode_raw decode_int64) 0 l "routing_epoch";
    n ← wire_field (decode_raw decode_int64) 0 l "registry_revision";
    h ← wire_field (decode_raw decode_string) "" l "registry_hash";
    s ← wire_field decode_time zero_time l "expires_at";
    v ← wire_field (decode_raw decode_int64) 0 l "authority_revision";
    Some {| cs_TenantID := t; cs_CaseID := i; cs_EnvelopeID := e; cs_Commitment := c; cs_Raw := r; cs_Domain := d;
            cs_IssuerEdgeID := x; cs_IssuerEdgeGeneration := g; cs_RoutingEpoch := p; cs_RegistryRevision := n;
            cs_RegistryHash := h; cs_ExpiresAt := s; cs_AuthorityRevision := v |}).

Definition decode_registry_record : json -> option RegistryRecord :=
  wire_struct ["tenant_id"; "revision"; "envelope_id"; "commitment"; "raw"; "routing_epoch"; "previous_commitment";
               "authority_revision"] (fun l =>
    t ← wire_field (decode_raw decode_string) "" l "tenant_id";
    n ← wire_field (decode_raw decode_int64) 0 l "revision";
    e ← wire_field (decode_raw decode_string) "" l "envelope_id";
    c ← wire_field (decode_raw decode_string) "" l "commitment";
    r ← wire_field (decode_raw decode_bytes) "" l "raw";
    p ← wire_field (decode_raw decode_int64) 0 l "routing_epoch";
    q ← wire_field (decode_raw decode_string) "" l "previous_commitment";
    v ← wire_field (decode_raw decode_int64) 0 l "authority_revision";
    Some {| rr_TenantID := t; rr_Revision := n; rr_EnvelopeID := e; rr_Commitment := c; rr_Raw := r;
            rr_RoutingEpoch := p; rr_PreviousCommitment := q; rr_AuthorityRevision := v |}).

Definition decode_delivery : json -> option EdgeDelivery :=
  wire_struct ["sequence"; "kind"; "case_id"; "envelope_id"; "commitment"; "raw"; "authority_revision"] (fun l =>
    q ← wire_field (decode_raw decode_int64) 0 l "sequence";
    k ← wire_field (decode_raw decode_string) "" l "kind";
    i ← wire_field (decode_raw decode_string) "" l "case_id";
    e ← wire_field (decode_raw decode_string) "" l "envelope_id";
    c ← wire_field (decode_raw decode_string) "" l "commitment";
    r ← wire_field (decode_raw decode_bytes) "" l "raw";
    v ← wire_field (decode_raw decode_int64) 0 l "authority_revision";
    Some {| ed_Sequence := q; ed_Kind := k; ed_CaseID := i; ed_EnvelopeID := e; ed_Commitment := c; ed_Raw := r;
            ed_AuthorityRevision := v |}).

Definition decode_page : json -> option EdgeDeliveryPage :=
  wire_struct ["deliveries"; "high_watermark"; "complete_through"] (fun l =>
    d ← wire_field (decode_raw (wire_structs decode_delivery)) [] l "deliveries";
    h ← wire_field (decode_raw decode_int64) 0 l "high_watermark";
    c ← wire_field (decode_raw decode_int64) 0 l "complete_through";
    Some {| dp_Deliveries := d; dp_HighWatermark := h; dp_CompleteThrough := c |}).

(** The code of a failure: what cannot be decoded is ignored. *)
Definition failure_code (body : bytes) : string :=
  match read_value (limit_reader (Z.shiftl 8 10) body) with
  | Some (JObject l, _) =>
      foldl (fun cur m => if folds m.1.1 "code" then default cur (decode_string cur m.2) else cur) "" l
  | _ => ""
  end.

Definition maxResponseBytes : Z := Z.shiftl 1 20.

Definition validCommitment_client (value : string) : bool :=
  if negb (len value =? 71) then false
  else match strip_prefix "sha256:" value with
       | None => false
       | Some rest => forallb (fun r => match r with
           | Some c => negb ((c <? 48) || (57 <? c) && ((c <? 97) || (102 <? c)))
           | None => false
           end) (decode rest)
       end.

Section Client.
Context {St : Type} (send : string -> URL -> bytes -> St -> St * option Response) (c : Client).

Definition call {R} (method path : string) (body : bytes) (decode : json -> option R) (st : St) : St * result CliErr R :=
  match received (cl_base c) path with
  | None => (st, Err (CliError "invalid fixed request path"))
  | Some u =>
      match send method u body st with
      | (st, None) => (st, Err (CliError "request"))
      | (st, Some reply) =>
          (st, if (rs_status reply <? 200) || (300 <=? rs_status reply)
               then Err (CliRejected (rs_status reply) (failure_code (rs_body reply)))
               else of_option (CliError "decode response")
                      (decode_single decode (limit_reader maxResponseBytes (rs_body reply))))
      end
  end.

Definition check {A B} (x : St * result CliErr A) (f : A -> result CliErr B) : St * result CliErr B :=
  (x.1, a ← x.2; f a).

Definition check_case (caseID commitment : string) (r : CaseRecord) : result CliErr CaseRecord :=
  if (cs_CaseID r <>s? caseID) || (cs_Commitment r <>s? commitment) || (len (cs_Raw r) =? 0)
     || (cs_EnvelopeID r =s? "") || (cs_Domain r =s? "") || (cs_IssuerEdgeID r =s? "")
     || (cs_IssuerEdgeGeneration r <=? 0) || (cs_AuthorityRevision r <=? 0) || is_zero_time (cs_ExpiresAt r)
  then Err (CliError "invalid resolved case") else Ok r.

Definition check_resolved_registry (tenant : string) (revision : Z) (commitment : string) (r : RegistryRecord)
  : result CliErr RegistryRecord :=
  if (rr_TenantID r <>s? tenant) || negb (rr_Revision r =? revision) || (rr_Commitment r <>s? commitment)
     || (rr_EnvelopeID r =s? "") || (len (rr_Raw r) =? 0) || (rr_AuthorityRevision r <=? 0)
  then Err (CliError "invalid resolved registry") else Ok r.

Definition check_receipt (envelopeID : string) (r : CommitReceipt) : result CliErr CommitReceipt :=
  if (r_AuthorityID r =s? "") || (r_Revision r <=? 0) || (r_EnvelopeID r <>s? envelopeID) || (r_Commitment r =s? "")
  then Err (CliError "incomplete or mismatched commit receipt") else Ok r.

Definition ClientSubmit (w : Workload) (raw : bytes) (st : St) : St * result CliErr CommitReceipt :=
  if negb (bool_decide (w = cl_workload c)) then (st, Err (CliError "workload does not match"))
  else match ReadHeader raw with
  | Err _ => (st, Err (CliError "read SSP header"))
  | Ok header =>
      match (if hd_schema header =s? SspFamilyCase then Some "/v1/cases"
             else if hd_schema header =s? SspFamilyAdvice then Some "/v1/advice" else None) with
      | None => (st, Err (CliError "only case and advice submission are supported"))
      | Some path =>
          check (call "POST" path raw decode_commit st) (check_receipt (hd_id header))
      end
  end.

(** The loop over the deliveries of a page. *)
Fixpoint check_deliveries (expected : Z) (l : list EdgeDelivery) : bool :=
  match l with
  | [] => true
  | d :: l =>
      negb (negb (ed_Sequence d =? expected) || (ed_Kind d =s? "") || (ed_CaseID d =s? "") || (ed_EnvelopeID d =s? "")
            || (ed_Commitment d =s? "") || (len (ed_Raw d) =? 0) || (ed_AuthorityRevision d <=? 0))
      && check_deliveries (expected + 1) l
  end.

Definition delivery_path (q : EdgeDeliveryQuery) : string :=
  "/v1/edges/" ++ PathEscape (dq_EdgeID q) ++ "/generations/" ++ dec (dq_EdgeGeneration q)
  ++ "/deliveries?after_sequence=" ++ dec (dq_AfterSequence q) ++ "&limit=" ++ dec (dq_Limit q).

Definition check_page (q : EdgeDeliveryQuery) (p : EdgeDeliveryPage) : result CliErr EdgeDeliveryPage :=
  if (dp_HighWatermark p <? dq_AfterSequence q) || (dp_CompleteThrough p <? dq_AfterSequence q)
     || (dp_HighWatermark p <? dp_CompleteThrough p)
     || negb (Z.of_nat (length (dp_Deliveries p)) =? dp_CompleteThrough p - dq_AfterSequence q)
  then Err (CliError "invalid authority delivery page")
  else if negb (check_deliveries (dq_AfterSequence q + 1) (dp_Deliveries p))
  then Err (CliError "invalid authority delivery") else Ok p.

Definition with_principal (q : EdgeDeliveryQuery) (principal : string) : EdgeDeliveryQuery :=
  {| dq_TenantID := dq_TenantID q; dq_EdgeID := dq_EdgeID q; dq_PrincipalID := principal;
     dq_EdgeGeneration := dq_EdgeGeneration q; dq_AfterSequence := dq_AfterSequence q; dq_Limit := dq_Limit q |}.

Definition ClientListEdgeDeliveries (q : EdgeDeliveryQuery) (st : St) : St * result CliErr EdgeDeliveryPage :=
  if (wl_edge (cl_workload c) =s? "") || (dq_EdgeID q <>s? wl_edge (cl_workload c))
     || negb (dq_EdgeGeneration q =? wl_generation (cl_workload c)) || (dq_TenantID q =s? "")
  then (st, Err (CliError "invalid certificate-bound edge delivery query"))
  else
    let q := with_principal q (wl_principal (cl_workload c)) in
    if negb (is_ok (validate_delivery_query q)) then (st, Err (CliError "invalid certificate-bound edge delivery query"))
    else check (call "GET" (delivery_path q) "" decode_page st) (check_page q).

Definition ClientResolveCase (caseID commitment : string) (st : St) : St * result CliErr CaseRecord :=
  if (caseID =s? "") || negb (validCommitment_client commitment) then (st, Err (CliError "invalid case query"))
  else
    check (call "GET" ("/v1/cases/" ++ PathEscape caseID ++ "?commitment=" ++ QueryEscape commitment) "" decode_case st)
      (check_case caseID commitment).

Definition ClientResolveRegistry (tenant : string) (revision : Z) (commitment : string) (st : St)
  : St * result CliErr RegistryRecord :=
  if (tenant =s? "") || (revision <=? 0) || negb (validCommitment_client commitment)
  then (st, Err (CliError "invalid registry query"))
  else
    check (call "GET" ("/v1/registries/" ++ dec revision ++ "?commitment=" ++ QueryEscape commitment) "" decode_registry_record st)
      (check_resolved_registry tenant revision commitment).

(** ** The authority of the edge's verifier: none of the client's errors is a
    sentinel of the authority *)
Definition as_authority {A} (r : result CliErr A) : result AErr A :=
  match r with
  | Ok a => Ok a
  | Err _ => Err (ErrPlain "controlclient")
  end.

Definition projectionAuthorityClient (tenant : string) (st : St) : ProjectionAuthority :=
  mkAuthority (fun q => if dq_TenantID q <>s? tenant then Err (ErrPlain "control authority tenant mismatch")
                        else as_authority (ClientListEdgeDeliveries q st).2)
              (fun caseID commitment => as_authority (ClientResolveCase caseID commitment st).2)
              (fun t revision commitment => if t <>s? tenant then Err (ErrPlain "control authority tenant mismatch")
                        else as_authority (ClientResolveRegistry t revision commitment st).2).
End Client.

(** The transport between a client that presents [tls] and a server. *)
Definition over_http {St} (api : Admission_ St) (s : Server) (tls : option ConnectionState)
  (method : string) (u : URL) (body : bytes) (st : St) : St * option Response :=
  let '(st, reply) := ServeHTTP api s (mkRequest method u (Some body) tls) st in (st, Some reply).
