(* ===== verification/HttpTheorems.v ===== *)
(** * The control client against the control server

    What the server prints the client reads back; an identifier travels as one
    path segment; and so each read of the client answers exactly what the
    service behind the server answered, when the response fits its limit. *)
From stdpp Require Import gmap.
From S2P Require Import Prelude GoText GoStrconv GoTime GoJson GoJsonRead GoUtf8 GoJsonText GoJsonWire GoUrl DeliveryStream Authority PgTx AuthorityStore.
From S2P Require Import SspGuard SspBody SspRegistry SspEnvelope SspStrip SspTheorems SspSign Registry ControlApi ControlHttp EdgeVerifier ControlClient.
Open Scope string_scope.
Open Scope Z_scope.
Open Scope snag_scope.

(** ** Records a response can carry: UTF-8 texts, natural numbers of 64 bits *)
Definition text_ok (s : string) : Prop := utf8_valid s = true.
Definition nat64 (z : Z) : Prop := 0 <= z < 2 ^ 63.

Record printable_registry (g : RegistryRecord) : Prop := {
  pg_texts : Forall text_ok [rr_TenantID g; rr_EnvelopeID g; rr_Commitment g; rr_PreviousCommitment g];
  pg_numbers : Forall nat64 [rr_Revision g; rr_RoutingEpoch g; rr_AuthorityRevision g] }.

Record printable_delivery (d : EdgeDelivery) : Prop := {
  pd_texts : Forall text_ok [ed_Kind d; ed_CaseID d; ed_EnvelopeID d; ed_Commitment d];
  pd_numbers : Forall nat64 [ed_Sequence d; ed_AuthorityRevision d] }.

Record printable_page (p : EdgeDeliveryPage) : Prop := {
  pp_deliveries : Forall printable_delivery (dp_Deliveries p);
  pp_numbers : Forall nat64 [dp_HighWatermark p; dp_CompleteThrough p] }.

Record printable_case (zone : Z -> Z) (c : CaseRecord) : Prop := {
  pc_texts : Forall text_ok [cs_TenantID c; cs_CaseID c; cs_EnvelopeID c; cs_Commitment c; cs_Domain c;
                             cs_IssuerEdgeID c; cs_RegistryHash c];
  pc_numbers : Forall nat64 [cs_IssuerEdgeGeneration c; cs_RoutingEpoch c; cs_RegistryRevision c; cs_AuthorityRevision c];
  pc_zone : -1440 < zone (cs_ExpiresAt c) < 1440;
  pc_year : four_digit_year (cs_ExpiresAt c + zone (cs_ExpiresAt c) * minute) = true }.

Record printable_receipt (r : CommitReceipt) : Prop := {
  pr_texts : Forall text_ok [r_AuthorityID r; r_EnvelopeID r; r_Commitment r];
  pr_number : nat64 (r_Revision r) }.

Lemma ParseInt_nat z : nat64 z -> ParseInt (dec z) = Some z.
Proof. intros Hz. destruct (Z.eq_dec z 0) as [->|]; [done|]. apply ParseInt_dec. unfold nat64 in Hz. lia. Qed.
Lemma text_nat z : nat64 z -> text_of (dec z) (JNumber (dec z)).
Proof. intros [Hz _]. by apply text_dec. Qed.
Lemma decode_nat cur z : nat64 z -> decode_int64 cur (JNumber (dec z)) = Some z.
Proof. apply ParseInt_nat. Qed.

Ltac texts := repeat match goal with
  | H : Forall _ (_ :: _) |- _ => apply List.Forall_cons_iff in H as [? H]
  | H : Forall _ [] |- _ => clear H
  end.
Ltac text_fields := repeat (apply Forall2_cons; [split; [reflexivity|]|]); [..|apply Forall2_nil].
Ltac text_field := first [apply text_bytes | apply text_time | by apply text_string | by apply text_nat].
Ltac eval_folds := repeat match goal with
  | |- context [folds ?a ?b] => let x := eval vm_compute in (folds a b) in change (folds a b) with x
  end.
Ltac read_fields :=
  unfold wire_struct, known_names, wire_field, decode_raw; cbn [zip_with forallb existsb foldl fst snd];
  eval_folds; cbn [orb andb mbind option_bind decode_string];
  repeat (first [rewrite decode_bytes_printed | rewrite decode_nat by done | rewrite decode_time_printed by done];
          cbn [mbind option_bind]).

(** ** What is printed reads back *)
Lemma receipt_reads r : printable_receipt r -> exists v, text_of (receiptResponse r) v /\ decode_commit v = Some r.
Proof.
  intros [Ht Hn]. texts. eexists. split.
  - apply text_object. text_fields; text_field.
  - unfold decode_commit. read_fields. by destruct r.
Qed.

Lemma registry_reads g : printable_registry g -> exists v, text_of (registryResponse g) v /\ decode_registry_record v = Some g.
Proof.
  intros [Ht Hn]. texts. eexists. split.
  - apply text_object. text_fields; text_field.
  - unfold decode_registry_record. read_fields. by destruct g.
Qed.

Lemma case_reads zone c : printable_case zone c -> exists v, text_of (caseResponse zone c) v /\ decode_case v = Some c.
Proof.
  intros [Ht Hn Hz Hy]. texts. eexists. split.
  - apply text_object. text_fields; text_field.
  - unfold decode_case. read_fields. by destruct c.
Qed.

Lemma delivery_reads d : printable_delivery d -> exists v, text_of (deliveryResponse d) v /\ decode_delivery v = Some d.
Proof.
  intros [Ht Hn]. texts. eexists. split.
  - apply text_object. text_fields; text_field.
  - unfold decode_delivery. read_fields. by destruct d.
Qed.

Lemma deliveries_read l : Forall printable_delivery l -> exists vs,
  Forall2 text_of (map deliveryResponse l) vs /\ forall raws : list string, length raws = length vs ->
    mapM (fun m : string * json => decode_delivery m.2) (zip raws vs) = Some l.
Proof.
  induction 1 as [|d l Hd _ (vs & Ht & Hr)].
  - exists []. split; [constructor|]. by intros [|].
  - destruct (delivery_reads d Hd) as (v & Hv & Hdec). exists (v :: vs). split; [by constructor|].
    intros [|raw raws]; [done|]. intros [= Hlen]. cbn [zip zip_with mapM]. cbn [snd]. rewrite Hdec. cbn [mbind option_bind].
    change (zip_with pair raws vs) with (zip raws vs). by rewrite Hr.
Qed.

Lemma page_reads p : printable_page p -> exists v, text_of (edgePageResponse p) v /\ decode_page v = Some p.
Proof.
  intros [Hd Hn]. texts. destruct (deliveries_read _ Hd) as (vs & Ht & Hr). eexists. split.
  - apply text_object. text_fields; [by apply text_array|text_field..].
  - unfold decode_page. read_fields. unfold wire_structs. rewrite Hr by exact (Forall2_length Ht).
    cbn [mbind option_bind]. read_fields. by destruct p.
Qed.

(** ** Paths *)
Definition literal_byte (a : ascii) : bool := path_byte a && negb (a =c? "%").

Lemma unescape_literal pre s : all_chars literal_byte pre = true ->
  url_unescape encodePath (pre ++ s) = String.append pre <$> url_unescape encodePath s.
Proof.
  induction pre as [|a pre IH]; [intros _; cbn; by destruct (url_unescape encodePath s)|].
  cbn [all_chars append]. intros [Ha Hp]%andb_true_iff. cbn [url_unescape].
  assert (E : (a =c? "%") = false) by (unfold literal_byte in Ha; by bools).
  rewrite E, IH by done. by destruct (url_unescape encodePath s).
Qed.

Lemma unescape_around pre id post : all_chars literal_byte pre = true -> all_chars literal_byte post = true ->
  url_unescape encodePath (pre ++ PathEscape id ++ post) = Some (pre ++ id ++ post).
Proof.
  intros Hpre Hpost. rewrite unescape_literal, unescape_segment by done.
  pose proof (unescape_literal post "" Hpost) as H. rewrite app_string_nil_r in H. rewrite H. cbn. by rewrite app_string_nil_r.
Qed.

Lemma literal_path s : all_chars literal_byte s = true -> all_chars path_byte s = true.
Proof. apply all_chars_weaken. unfold literal_byte. intros a Ha. by bools. Qed.

Lemma segment_path s : all_chars path_byte (PathEscape s) = true.
Proof. generalize (segment_chars s). apply all_chars_weaken. unfold path_byte. by intros a ->. Qed.

Lemma segment_no_slash s : has_char "/" (PathEscape s) = false.
Proof. apply (chars_without "/" segment_byte); [done|apply segment_chars]. Qed.

Definition value_ok (s : string) : Prop := all_chars value_byte s = true.

Lemma around_target pre id post query : all_chars literal_byte ("/v1" ++ pre) = true -> all_chars literal_byte post = true ->
  all_chars (fun a => negb (ctl_byte a) && negb (a =c? "#")) query = true ->
  good_target ("/v1" ++ pre ++ id ++ post) ("/v1" ++ pre ++ PathEscape id ++ post) query.
Proof.
  intros Hpre Hpost Hq. constructor; [|done| |done|].
  - rewrite !(app_string_assoc "/v1"). by apply unescape_around.
  - rewrite (app_string_assoc "/v1"), !all_chars_app, <- all_chars_app. rewrite segment_path, (literal_path post) by done.
    by rewrite (literal_path ("/v1" ++ pre)).
  - by eexists.
Qed.

Lemma digits_literal z : 0 <= z -> all_chars literal_byte (dec z) = true /\ PathEscape (dec z) = dec z /\
  all_chars value_byte (dec z) = true /\ has_char "/" (dec z) = false /\ url_unescape encodeQueryComponent (dec z) = Some (dec z)
  /\ dec z <> "".
Proof.
  intros Hz. pose proof (dec_chars z) as Hc.
  assert (Hw : forall p, (forall a, dec_char a = true -> p a = true) -> all_chars p (dec z) = true)
    by (intros p Hp; revert Hc; by apply all_chars_weaken).
  assert (He : forall s, all_chars dec_char s = true -> PathEscape s = s /\ url_unescape encodeQueryComponent s = Some s).
  { clear. unfold PathEscape. induction s as [|a s IH]; [done|]. cbn [all_chars]. intros [Ha Hs]%andb_true_iff.
    destruct (IH Hs) as [IH1 IH2]. cbn [url_escape url_unescape]. rewrite IH1, IH2. clear -Ha.
    revert Ha. every_byte a; by vm_compute. }
  destruct (He _ Hc) as [H1 H2]. split_and!; [|done| | |done|].
  - apply Hw. intros a. every_byte a; by vm_compute.
  - apply Hw. intros a. every_byte a; by vm_compute.
  - by apply (chars_without "/" dec_char).
  - destruct (text_dec z Hz) as [Hs _]. by destruct (dec z).
Qed.

Lemma plain_escaped id : dot_segment id = false ->
  dot_segment (PathEscape id) = false /\ has_char "/" (PathEscape id) = false.
Proof.
  intros Hd. split; [|apply segment_no_slash]. unfold dot_segment. by rewrite escape_dots.
Qed.

Lemma query_bytes key s : all_chars (fun a => negb (ctl_byte a) && negb (a =c? "#")) key = true ->
  all_chars value_byte s = true -> all_chars (fun a => negb (ctl_byte a) && negb (a =c? "#")) (key ++ s) = true.
Proof.
  intros Hk Hs. rewrite all_chars_app, Hk. revert Hs. apply all_chars_weaken. unfold value_byte. intros a Ha.
  bools. by repeat match goal with H : _ = false |- _ => rewrite H end.
Qed.

Lemma around_received base pre id post query :
  all_chars literal_byte ("/v1" ++ pre) = true -> all_chars literal_byte post = true ->
  all_chars (fun a => negb (ctl_byte a) && negb (a =c? "#")) query = true -> query <> "" ->
  resolvePath base ("/v1" ++ pre ++ PathEscape id ++ post) = "/v1" ++ pre ++ PathEscape id ++ post ->
  exists raw, received base ("/v1" ++ pre ++ PathEscape id ++ post ++ "?" ++ query)
    = Some (mkURL ("/v1" ++ pre ++ id ++ post) raw query).
Proof.
  intros Hpre Hpost Hq Hne Hr.
  replace ("/v1" ++ pre ++ PathEscape id ++ post ++ "?" ++ query)
    with (target ("/v1" ++ pre ++ PathEscape id ++ post) query)
    by (unfold target; by rewrite <- !app_string_assoc).
  apply target_received; [by apply around_target|done|done].
Qed.

Lemma case_received base id commitment : dot_segment id = false -> exists raw,
  received base ("/v1/cases/" ++ PathEscape id ++ "?commitment=" ++ QueryEscape commitment)
  = Some (mkURL ("/v1/cases/" ++ id) raw ("commitment=" ++ QueryEscape commitment)).
Proof.
  intros Hid. destruct (around_received base "/cases/" id "" ("commitment=" ++ QueryEscape commitment)) as [raw Hraw].
  - done.
  - done.
  - by apply query_bytes, value_chars.
  - done.
  - rewrite app_string_nil_r. apply (resolve_plain base ["v1"; "cases"; PathEscape id]); [done|].
    repeat constructor; by apply plain_escaped.
  - exists raw. rewrite app_string_nil_r in Hraw. exact Hraw.
Qed.

Lemma dec_no_dots n : dot_segment (dec n) = false.
Proof.
  generalize (dec_chars n). unfold dot_segment. destruct (String.eqb_spec (dec n) ".") as [->|]; [done|].
  by destruct (String.eqb_spec (dec n) "..") as [->|].
Qed.

Lemma registry_received base n commitment : 0 <= n -> exists raw,
  received base ("/v1/registries/" ++ dec n ++ "?commitment=" ++ QueryEscape commitment)
  = Some (mkURL ("/v1/registries/" ++ dec n) raw ("commitment=" ++ QueryEscape commitment)).
Proof.
  intros Hn. destruct (digits_literal n Hn) as (_ & He & _ & Hs & _).
  pose proof (dec_no_dots n) as Hd.
  destruct (around_received base "/registries/" (dec n) "" ("commitment=" ++ QueryEscape commitment)) as [raw Hraw].
  - done.
  - done.
  - by apply query_bytes, value_chars.
  - done.
  - rewrite app_string_nil_r, He. apply (resolve_plain base ["v1"; "registries"; dec n]); [done|]. by repeat constructor.
  - exists raw. rewrite He, app_string_nil_r in Hraw. exact Hraw.
Qed.

(** The page query: two decimal parameters. *)
Definition page_query (after limit : Z) : string := "after_sequence=" ++ dec after ++ "&limit=" ++ dec limit.

Lemma edges_received base q : dot_segment (dq_EdgeID q) = false -> 0 <= dq_EdgeGeneration q -> 0 <= dq_AfterSequence q ->
  0 <= dq_Limit q -> exists raw, received base (delivery_path q)
  = Some (mkURL ("/v1/edges/" ++ dq_EdgeID q ++ "/generations/" ++ dec (dq_EdgeGeneration q) ++ "/deliveries") raw
            (page_query (dq_AfterSequence q) (dq_Limit q))).
Proof.
  intros Hid Hg Ha Hl. destruct (digits_literal _ Hg) as (Hgl & _ & _ & Hgs & _).
  destruct (digits_literal _ Ha) as (_ & _ & Hav & _). destruct (digits_literal _ Hl) as (_ & _ & Hlv & _).
  pose proof (dec_no_dots (dq_EdgeGeneration q)) as Hd.
  destruct (around_received base "/edges/" (dq_EdgeID q) ("/generations/" ++ dec (dq_EdgeGeneration q) ++ "/deliveries")
    (page_query (dq_AfterSequence q) (dq_Limit q))) as [raw Hraw].
  - done.
  - rewrite !all_chars_app, Hgl. done.
  - unfold page_query. rewrite !(app_string_assoc _ _ (dec (dq_Limit q))), (app_string_assoc "after_sequence=").
    apply query_bytes; [|done]. rewrite all_chars_app, query_bytes by done. done.
  - done.
  - apply (resolve_plain base ["v1"; "edges"; PathEscape (dq_EdgeID q); "generations"; dec (dq_EdgeGeneration q); "deliveries"]);
      [done|]. repeat constructor; (done || by apply plain_escaped).
  - exists raw. transitivity (received base ("/v1" ++ "/edges/" ++ PathEscape (dq_EdgeID q)
      ++ ("/generations/" ++ dec (dq_EdgeGeneration q) ++ "/deliveries") ++ "?"
      ++ page_query (dq_AfterSequence q) (dq_Limit q))); [|exact Hraw].
    unfold delivery_path, page_query. f_equal. by rewrite <- !app_string_assoc.
Qed.

(** ** Query values *)
Lemma value_no c s : value_byte c = false -> all_chars value_byte s = true -> has_char c s = false.
Proof. apply chars_without. Qed.

Lemma query_pair_of key value v : has_char "=" key = false -> has_char ";" key = false -> key <> "" ->
  url_unescape encodeQueryComponent key = Some key -> all_chars value_byte value = true ->
  url_unescape encodeQueryComponent value = Some v -> query_pair (key ++ "=" ++ value) = Some (key, v).
Proof.
  intros Hk1 Hk2 Hk3 Hk4 Hv1 Hv2. unfold query_pair. rewrite !has_char_app, Hk2, (value_no ";" value) by done.
  cbn [String.append has_char orb]. change ("=" =c? ";")%char with false. cbn [orb].
  assert (Hne : is_empty (key ++ String "=" value) = false) by by destruct key.
  rewrite Hne, cut_some by done. cbn [orb default]. rewrite Hk4. cbn [mbind option_bind]. cbn [from_option id]. by rewrite Hv2.
Qed.

Lemma get_commitment commitment : query_get ("commitment=" ++ QueryEscape commitment) "commitment" = commitment.
Proof.
  unfold query_get. rewrite split_none.
  - pose proof (query_pair_of "commitment" (QueryEscape commitment) commitment) as H.
    cbn [omap list_omap]. change ("commitment=" ++ QueryEscape commitment) with ("commitment" ++ "=" ++ QueryEscape commitment).
    rewrite H by (done || apply value_chars || apply unescape_escape). done.
  - rewrite has_char_app. by apply (value_no "&"), value_chars.
Qed.

Lemma get_page after limit : nat64 after -> 1 <= limit <= 1000 -> edgePage (page_query after limit) = Some (after, limit).
Proof.
  intros Ha Hl. assert (Hl' : nat64 limit) by (unfold nat64; lia).
  destruct (digits_literal after (proj1 Ha)) as (_ & _ & Hav & _ & Hau & Hane).
  destruct (digits_literal limit (proj1 Hl')) as (_ & _ & Hlv & _ & Hlu & Hlne).
  pose proof (query_pair_of "after_sequence" _ _ eq_refl eq_refl ltac:(done) eq_refl Hav Hau) as H1.
  pose proof (query_pair_of "limit" _ _ eq_refl eq_refl ltac:(done) eq_refl Hlv Hlu) as H2.
  assert (Hsplit : split_on "&" (page_query after limit) = ["after_sequence" ++ "=" ++ dec after; "limit" ++ "=" ++ dec limit]).
  { transitivity (split_on "&" (("after_sequence" ++ "=" ++ dec after) ++ String "&" ("limit" ++ "=" ++ dec limit))).
    - f_equal.
    - rewrite split_some, split_none; [done|..]; rewrite !has_char_app; by apply (value_no "&"). }
  unfold edgePage, query_get. rewrite Hsplit. cbn [omap list_omap]. rewrite H1, H2.
  change (List.filter (fun p : string * string => p.1 =s? "after_sequence") [("after_sequence", dec after); ("limit", dec limit)])
    with [("after_sequence", dec after)].
  change (List.filter (fun p : string * string => p.1 =s? "limit") [("after_sequence", dec after); ("limit", dec limit)])
    with [("limit", dec limit)].
  pose proof (ParseInt_nat _ Ha) as P1. pose proof (ParseInt_nat _ Hl') as P2.
  destruct (dec after) as [|x1 r1]; [done|]. destruct (dec limit) as [|x2 r2]; [done|]. rewrite P1, P2.
  unfold nat64 in Ha. rewrite (proj2 (Z.ltb_ge after 0)) by lia. cbn [mbind option_bind].
  rewrite (proj2 (Z.ltb_ge limit 1)), (proj2 (Z.ltb_ge 1000 limit)) by lia. done.
Qed.

(** ** A read over HTTP *)
Definition rejection (r : Response) : CliErr := CliRejected (rs_status r) (failure_code (rs_body r)).

Lemma store_error_status e : (rs_status (writeStoreError e) <? 200) || (300 <=? rs_status (writeStoreError e)) = true.
Proof.
  unfold writeStoreError. destruct (typedControlOutcome e) as [[status code]|] eqn:E.
  - assert (status = 403 \/ status = 410 \/ status = 409 \/ status = 422 \/ status = 504) as H.
    { unfold typedControlOutcome in E. destruct (is_deadline e); repeat case_match; simplify_eq; tauto. }
    cbn [writeError writeJSON rs_status]. by destruct H as [->|[->|[->|[->| ->]]]].
  - by repeat case_match.
Qed.

Section Reads.
Context {St : Type} (api : Admission_ St) (s : Server) (c : Client) (tls : option ConnectionState).
Hypothesis Hworkload : workload s tls = Some (cl_workload c).

(** The reply to a GET, as the client uses it. *)
Lemma call_reply {R} path u (decode : json -> option R) st reply : received (cl_base c) path = Some u ->
  ServeHTTP api s (mkRequest "GET" u (Some "") tls) st = (st, reply) ->
  call (over_http api s tls) c "GET" path "" decode st =
    (st, if (rs_status reply <? 200) || (300 <=? rs_status reply) then Err (rejection reply)
         else of_option (CliError "decode response") (decode_single decode (limit_reader maxResponseBytes (rs_body reply)))).
Proof using Type. intros Hr Hs. unfold call, over_http. by rewrite Hr, Hs. Qed.

Lemma call_printed {R} path u (decode : json -> option R) st text v x : received (cl_base c) path = Some u ->
  ServeHTTP api s (mkRequest "GET" u (Some "") tls) st = (st, writeJSON 200 (String "{" text)) ->
  text_of (String "{" text) v -> decode v = Some x ->
  call (over_http api s tls) c "GET" path "" decode st =
    (st, if len (String "{" text) <=? maxResponseBytes then Ok x else Err (CliError "decode response")).
Proof using Type.
  intros Hr Hs Ht Hv. rewrite (call_reply _ _ _ _ _ Hr Hs). cbn [writeJSON rs_status rs_body].
  change ((200 <? 200) || (300 <=? 200)) with false. cbn iota.
  rewrite (limited_decode maxResponseBytes decode text v ltac:(done) Ht), Hv. by destruct (_ <=? _).
Qed.

Lemma call_refused {R} path u (decode : json -> option R) st e : received (cl_base c) path = Some u ->
  ServeHTTP api s (mkRequest "GET" u (Some "") tls) st = (st, writeStoreError e) ->
  call (over_http api s tls) c "GET" path "" decode st = (st, Err (rejection (writeStoreError e))).
Proof using Type. intros Hr Hs. rewrite (call_reply _ _ _ _ _ Hr Hs). by rewrite store_error_status. Qed.

Lemma http_registry tenant n commitment st : tenant <> "" -> 0 < n -> nat64 n -> validCommitment_client commitment = true ->
  (forall g, ad_ResolveRegistry api (cl_workload c) n commitment st = Ok g -> printable_registry g) ->
  ClientResolveRegistry (over_http api s tls) c tenant n commitment st = (st,
    match ad_ResolveRegistry api (cl_workload c) n commitment st with
    | Err e => Err (rejection (writeStoreError e))
    | Ok g => if len (registryResponse g) <=? maxResponseBytes then check_resolved_registry tenant n commitment g
              else Err (CliError "decode response")
    end).
Proof using Hworkload.
  intros Ht Hn Hn64 Hc Hp. unfold ClientResolveRegistry. apply String.eqb_neq in Ht.
  rewrite Ht, Hc, (proj2 (Z.leb_gt n 0)) by done. cbn [orb negb].
  destruct (registry_received (cl_base c) n commitment ltac:(lia)) as [raw Hr].
  destruct (digits_literal n ltac:(lia)) as (_ & _ & _ & Hs & _ & Hne).
  assert (Hserve : ServeHTTP api s (mkRequest "GET" (mkURL ("/v1/registries/" ++ dec n) raw ("commitment=" ++ QueryEscape commitment)) (Some "") tls) st =
    (st, match ad_ResolveRegistry api (cl_workload c) n commitment st with
         | Err e => writeStoreError e | Ok g => writeJSON 200 (registryResponse g) end)).
  { unfold ServeHTTP. cbn [rq_TLS]. rewrite Hworkload. cbn [rq_Method rq_URL url_Path].
    change ("GET" =s? "POST") with false. change ("GET" =s? "GET") with true. cbn [andb].
    change (has_prefix "/v1/cases/" ("/v1/registries/" ++ dec n)) with false.
    change (has_prefix "/v1/registries/" ("/v1/registries/" ++ dec n)) with true. cbn iota. f_equal.
    unfold handleResolveRegistry, TrimPrefix. cbn [rq_URL url_Path url_RawQuery]. rewrite strip_prefix_app.
    cbn [from_option id]. rewrite Hs, get_commitment, ParseInt_nat by done.
    assert (He : is_empty (dec n) = false) by by destruct (dec n). rewrite He, (proj2 (Z.leb_gt n 0)) by done.
    assert (Hce : is_empty commitment = false) by by destruct commitment. by rewrite Hce. }
  destruct (ad_ResolveRegistry api (cl_workload c) n commitment st) as [g|e] eqn:E.
  - destruct (registry_reads g (Hp g eq_refl)) as (v & Hv & Hd).
    rewrite (call_printed _ _ _ _ _ v g Hr Hserve Hv Hd).
    unfold check. cbn [fst snd]. unfold registryResponse, json_object. cbn [String.append]. by destruct (_ <=? _).
  - by rewrite (call_refused _ _ _ _ _ Hr Hserve).
Qed.

(** The reply to a case query for an identifier that travels as it is. *)
Lemma serve_case id commitment raw st : commitment <> "" ->
  ServeHTTP api s (mkRequest "GET" (mkURL ("/v1/cases/" ++ id) raw ("commitment=" ++ QueryEscape commitment)) (Some "") tls) st =
    (st, if is_empty id || has_char "/" id then writeError 400 "invalid_case_query"
         else match ad_ResolveCase api (cl_workload c) id commitment st with
              | Err e => writeStoreError e | Ok r => writeCase (sv_zone s) r end).
Proof using Hworkload.
  intros Hc. unfold ServeHTTP. cbn [rq_TLS]. rewrite Hworkload. cbn [rq_Method rq_URL url_Path].
  change ("GET" =s? "POST") with false. change ("GET" =s? "GET") with true. cbn [andb].
  change (has_prefix "/v1/cases/" ("/v1/cases/" ++ id)) with true. cbn iota. f_equal.
  unfold handleResolveCase, TrimPrefix. cbn [rq_URL url_Path url_RawQuery]. rewrite strip_prefix_app.
  cbn [from_option Datatypes.id]. rewrite get_commitment.
  assert (Hce : is_empty commitment = false) by by destruct commitment. by rewrite Hce.
Qed.

Lemma commitment_nonempty cm : validCommitment_client cm = true -> cm <> "".
Proof using Type. by intros H ->. Qed.

Lemma http_case id commitment st : plain_id id = true -> id <> "" -> validCommitment_client commitment = true ->
  (forall r, ad_ResolveCase api (cl_workload c) id commitment st = Ok r -> printable_case (sv_zone s) r) ->
  ClientResolveCase (over_http api s tls) c id commitment st = (st,
    match ad_ResolveCase api (cl_workload c) id commitment st with
    | Err e => Err (rejection (writeStoreError e))
    | Ok r => if len (caseResponse (sv_zone s) r) <=? maxResponseBytes then check_case id commitment r
              else Err (CliError "decode response")
    end).
Proof using Hworkload.
  unfold plain_id. intros [Hs%negb_true_iff Hd%negb_true_iff]%andb_true_iff Hne Hc Hp. unfold ClientResolveCase.
  rewrite (proj2 (String.eqb_neq _ _) Hne), Hc. cbn [orb negb].
  destruct (case_received (cl_base c) id commitment Hd) as [raw Hr].
  pose proof (serve_case id commitment raw st (commitment_nonempty _ Hc)) as Hserve.
  assert (He : is_empty id = false) by by destruct id. rewrite He, Hs in Hserve. cbn [orb] in Hserve.
  destruct (ad_ResolveCase api (cl_workload c) id commitment st) as [r|e] eqn:E.
  - destruct (case_reads _ r (Hp r eq_refl)) as (v & Hv & Hdec). unfold writeCase in Hserve.
    rewrite (pc_year _ _ (Hp r eq_refl)) in Hserve. rewrite (call_printed _ _ _ _ _ v r Hr Hserve Hv Hdec).
    unfold check. cbn [fst snd]. unfold caseResponse, json_object. cbn [String.append]. by destruct (_ <=? _).
  - by rewrite (call_refused _ _ _ _ _ Hr Hserve).
Qed.

(** An identifier with a slash, or a dot segment, never reaches the service. *)
Lemma http_case_refused id commitment st : plain_id id = false -> validCommitment_client commitment = true ->
  exists status code, ClientResolveCase (over_http api s tls) c id commitment st = (st, Err (CliRejected status code)).
Proof using Hworkload.
  intros Hid Hc. assert (Hne : id <> "") by by intros ->. unfold ClientResolveCase.
  rewrite (proj2 (String.eqb_neq _ _) Hne), Hc. cbn [orb negb].
  assert (Hreply : exists u status code, received (cl_base c) ("/v1/cases/" ++ PathEscape id ++ "?commitment=" ++ QueryEscape commitment) = Some u /\
    ServeHTTP api s (mkRequest "GET" u (Some "") tls) st = (st, writeError status code) /\ 400 <= status).
  { destruct (dot_segment id) eqn:Hd.
    - assert (Hg : forall p, all_chars literal_byte ("/v1" ++ p) = true ->
        good_target ("/v1" ++ p) ("/v1" ++ p) ("commitment=" ++ QueryEscape commitment)).
      { intros p Hp. pose proof (around_target p "" "" ("commitment=" ++ QueryEscape commitment) Hp eq_refl) as Hg.
        rewrite !app_string_nil_r in Hg. apply Hg. by apply query_bytes, value_chars. }
      unfold dot_segment in Hd. apply orb_true_iff in Hd as [->%String.eqb_eq| ->%String.eqb_eq].
      + destruct (target_resolved (cl_base c) _ "/v1/cases/." _ "/v1/cases/" ("commitment=" ++ QueryEscape commitment)
          (Hg "/cases/." eq_refl) ltac:(done) eq_refl (Hg "/cases/" eq_refl)) as [raw Hr].
        eexists _, 400, "invalid_case_query". split_and!; [exact Hr| |done].
        apply (serve_case "" commitment raw st), commitment_nonempty, Hc.
      + destruct (target_resolved (cl_base c) _ "/v1/cases/.." _ "/v1/" ("commitment=" ++ QueryEscape commitment)
          (Hg "/cases/.." eq_refl) ltac:(done) eq_refl (Hg "/" eq_refl)) as [raw Hr].
        eexists _, 404, "not_found". split_and!; [exact Hr| |done].
        unfold ServeHTTP. cbn [rq_TLS]. by rewrite Hworkload.
    - destruct (case_received (cl_base c) id commitment Hd) as [raw Hr].
      eexists _, 400, "invalid_case_query". split_and!; [exact Hr| |done].
      rewrite serve_case by by apply commitment_nonempty. unfold plain_id in Hid. rewrite Hd in Hid.
      apply andb_false_iff in Hid as [Hid%negb_false_iff|Hid]; [|done]. by rewrite Hid, orb_true_r. }
  destruct Hreply as (u & status & code & Hr & Hs & Hst).
  rewrite (call_reply _ _ _ _ _ Hr Hs). cbn [writeError writeJSON rs_status]. rewrite (proj2 (Z.leb_le 300 status)), orb_true_r by lia.
  unfold check, rejection. cbn. eauto.
Qed.

Lemma valid_query q : validate_delivery_query q = Ok tt ->
  dq_EdgeID q <> "" /\ 1 <= dq_Limit q <= 1000 /\ 0 < dq_EdgeGeneration q.
Proof using Type.
  unfold validate_delivery_query. intros Hv. split; [intros E; rewrite E in Hv; by rewrite orb_true_r in Hv|].
  inv_result. bools. lia.
Qed.

(** The query the server makes of a page request. *)
Definition server_query (q : EdgeDeliveryQuery) : EdgeDeliveryQuery :=
  {| dq_TenantID := sv_tenant s; dq_EdgeID := dq_EdgeID q; dq_PrincipalID := wl_principal (cl_workload c);
     dq_EdgeGeneration := dq_EdgeGeneration q; dq_AfterSequence := dq_AfterSequence q; dq_Limit := dq_Limit q |}.

(** A query the client accepts: its own edge and generation, within the limits
    of [Validate], with an edge identifier that is one path segment. *)
Record own_query (q : EdgeDeliveryQuery) : Prop := {
  oq_edge : dq_EdgeID q = wl_edge (cl_workload c);
  oq_generation : dq_EdgeGeneration q = wl_generation (cl_workload c);
  oq_tenant : dq_TenantID q <> "";
  oq_valid : validate_delivery_query (with_principal q (wl_principal (cl_workload c))) = Ok tt;
  oq_plain : plain_id (dq_EdgeID q) = true;
  oq_numbers : nat64 (dq_AfterSequence q) /\ nat64 (dq_EdgeGeneration q) }.

Lemma serve_page q raw st : own_query q ->
  ServeHTTP api s (mkRequest "GET" (mkURL ("/v1/edges/" ++ dq_EdgeID q ++ "/generations/" ++ dec (dq_EdgeGeneration q) ++ "/deliveries")
    raw (page_query (dq_AfterSequence q) (dq_Limit q))) (Some "") tls) st =
  (st, match ad_ListEdgeDeliveries api (server_query q) st with
       | Err e => writeStoreError (CtlAuthority e) | Ok p => writeJSON 200 (edgePageResponse p) end).
Proof using Hworkload.
  intros [He Hg _ Hv Hp [Ha Hn]]. destruct (valid_query _ Hv) as (Hed & Hlim & Hpos).
  cbn [with_principal dq_EdgeID dq_Limit dq_EdgeGeneration] in Hed, Hlim, Hpos.
  unfold plain_id in Hp. apply andb_true_iff in Hp as [Hs%negb_true_iff _].
  destruct (digits_literal (dq_EdgeGeneration q) (proj1 Hn)) as (_ & _ & _ & Hgs & _).
  unfold ServeHTTP. cbn [rq_TLS]. rewrite Hworkload. cbn [rq_Method rq_URL url_Path].
  set (rest := dq_EdgeID q ++ "/generations/" ++ dec (dq_EdgeGeneration q) ++ "/deliveries").
  change ("GET" =s? "POST") with false. change ("GET" =s? "GET") with true. cbn [andb].
  change (has_prefix "/v1/cases/" ("/v1/edges/" ++ rest)) with false.
  change (has_prefix "/v1/registries/" ("/v1/edges/" ++ rest)) with false.
  change (has_prefix "/v1/edges/" ("/v1/edges/" ++ rest)) with true. cbn iota. f_equal.
  unfold reconcile, TrimPrefix. cbn [rq_URL url_Path url_RawQuery]. rewrite strip_prefix_app. cbn [from_option Datatypes.id].
  assert (Hsplit : split_on "/" rest = [dq_EdgeID q; "generations"; dec (dq_EdgeGeneration q); "deliveries"]).
  { change rest with (join "/" [dq_EdgeID q; "generations"; dec (dq_EdgeGeneration q); "deliveries"]).
    apply split_join_on; [done|]. by repeat constructor. }
  rewrite Hsplit. assert (Hee : is_empty (dq_EdgeID q) = false) by by destruct (dq_EdgeID q).
  rewrite Hee. change ("generations" <>s? "generations") with false. change ("deliveries" <>s? "deliveries") with false.
  cbn [orb]. rewrite ParseInt_nat, <- He, <- Hg, String.eqb_refl, Z.eqb_refl by done.
  rewrite (proj2 (Z.leb_gt (dq_EdgeGeneration q) 0)) by lia. cbn [orb negb].
  rewrite get_page by (done || lia). done.
Qed.

Lemma http_page q st : own_query q ->
  (forall p, ad_ListEdgeDeliveries api (server_query q) st = Ok p -> printable_page p) ->
  ClientListEdgeDeliveries (over_http api s tls) c q st = (st,
    match ad_ListEdgeDeliveries api (server_query q) st with
    | Err e => Err (rejection (writeStoreError (CtlAuthority e)))
    | Ok p => if len (edgePageResponse p) <=? maxResponseBytes then check_page q p
              else Err (CliError "decode response")
    end).
Proof using Hworkload.
  intros Hq Hp. pose proof Hq as [He Hg Ht Hv Hpl [Ha Hn]]. unfold ClientListEdgeDeliveries.
  rewrite <- He, <- Hg, String.eqb_refl, Z.eqb_refl, Hv, (proj2 (String.eqb_neq _ _) Ht). cbn [negb orb is_ok].
  destruct (valid_query _ Hv) as (Hed & Hlim & Hpos).
  cbn [with_principal dq_EdgeID dq_Limit dq_EdgeGeneration] in Hed, Hlim, Hpos.
  rewrite (proj2 (String.eqb_neq _ _) Hed). cbn [orb].
  assert (Hd : dot_segment (dq_EdgeID q) = false) by (unfold plain_id in Hpl; by bools).
  destruct (edges_received (cl_base c) q Hd (proj1 Hn) (proj1 Ha) ltac:(lia)) as [raw Hr].
  pose proof (serve_page q raw st Hq) as Hserve.
  change (delivery_path (with_principal q (wl_principal (cl_workload c)))) with (delivery_path q).
  change (check_page (with_principal q (wl_principal (cl_workload c)))) with (check_page q).
  destruct (ad_ListEdgeDeliveries api (server_query q) st) as [p|e] eqn:E.
  - destruct (page_reads p (Hp p eq_refl)) as (v & Htv & Hdec).
    rewrite (call_printed _ _ _ _ _ v p Hr Hserve Htv Hdec).
    unfold check. cbn [fst snd]. unfold edgePageResponse, json_object. cbn [String.append]. by destruct (_ <=? _).
  - by rewrite (call_refused _ _ _ _ _ Hr Hserve).
Qed.

(** *** Submission *)
Lemma submit_received base path : path = "/v1/cases" \/ path = "/v1/advice" -> received base path = Some (mkURL path "" "").
Proof using Type.
  intros [-> | ->]; unfold received;
    match goal with |- context [parse_reference ?p] => change (parse_reference p) with (Some (mkURL p "" "")) end;
    cbn [mbind option_bind url_RawQuery];
    match goal with |- context [EscapedPath (mkURL ?p "" "")] => change (EscapedPath (mkURL p "" "")) with p end.
  - change "/v1/cases" with ("/" ++ join "/" ["v1"; "cases"]) at 1. by rewrite resolve_plain by (done || by repeat constructor).
  - change "/v1/advice" with ("/" ++ join "/" ["v1"; "advice"]) at 1. by rewrite resolve_plain by (done || by repeat constructor).
Qed.

Lemma admission_error_status e : (rs_status (writeAdmissionError e) <? 200) || (300 <=? rs_status (writeAdmissionError e)) = true.
Proof using Type.
  unfold writeAdmissionError. destruct (typedControlOutcome e) as [[status code]|] eqn:E.
  - assert (status = 403 \/ status = 410 \/ status = 409 \/ status = 422 \/ status = 504) as H.
    { unfold typedControlOutcome in E. destruct (is_deadline e); repeat case_match; simplify_eq; tauto. }
    cbn [writeError writeJSON rs_status]. by destruct H as [->|[->|[->|[->| ->]]]].
  - by repeat case_match.
Qed.

Lemma read_whole raw limit : 0 < len raw <= limit -> limit < 2 ^ 63 - 1 -> readRaw (Some raw) limit = Some raw.
Proof using Type.
  intros Hl Hm. unfold readRaw. cbn [mbind option_bind]. rewrite int64_id by (unfold int64_min, int64_max; lia). unfold limit_reader.
  by rewrite (proj2 (Z.leb_le _ _)), (proj2 (Z.eqb_neq _ _)), (proj2 (Z.ltb_ge _ _)) by lia.
Qed.

Lemma serve_submit path raw st : path = "/v1/cases" \/ path = "/v1/advice" -> 0 < len raw <= sv_maxBodyBytes s -> sv_maxBodyBytes s < 2 ^ 63 - 1 ->
  ServeHTTP api s (mkRequest "POST" (mkURL path "" "") (Some raw) tls) st =
    ((ad_Submit api (cl_workload c) raw st).1,
     match (ad_Submit api (cl_workload c) raw st).2 with
     | Err e => writeAdmissionError e | Ok r => writeJSON 200 (receiptResponse r) end).
Proof using Hworkload.
  intros Hp Hl Hm. unfold ServeHTTP. cbn [rq_TLS]. rewrite Hworkload. cbn [rq_Method rq_URL url_Path].
  assert (Hs : submit api s (mkRequest "POST" (mkURL path "" "") (Some raw) tls) (cl_workload c) false st =
    ((ad_Submit api (cl_workload c) raw st).1, match (ad_Submit api (cl_workload c) raw st).2 with
     | Err e => writeAdmissionError e | Ok r => writeJSON 200 (receiptResponse r) end)).
  { unfold submit. cbn [rq_body]. rewrite read_whole by done. by destruct (ad_Submit api (cl_workload c) raw st) as [st' [r|e]]. }
  destruct Hp as [-> | ->]; exact Hs.
Qed.

Lemma http_submit raw header st : ReadHeader raw = Ok header ->
  hd_schema header = SspFamilyCase \/ hd_schema header = SspFamilyAdvice ->
  0 < len raw <= sv_maxBodyBytes s -> sv_maxBodyBytes s < 2 ^ 63 - 1 ->
  (forall r, (ad_Submit api (cl_workload c) raw st).2 = Ok r -> printable_receipt r) ->
  ClientSubmit (over_http api s tls) c (cl_workload c) raw st = ((ad_Submit api (cl_workload c) raw st).1,
    match (ad_Submit api (cl_workload c) raw st).2 with
    | Err e => Err (rejection (writeAdmissionError e))
    | Ok r => if len (receiptResponse r) <=? maxResponseBytes then check_receipt (hd_id header) r
              else Err (CliError "decode response")
    end).
Proof using Hworkload.
  intros Hh Hfam Hl Hm Hp. unfold ClientSubmit. rewrite bool_decide_true, Hh by done. cbn [negb].
  assert (Hpath : exists path, (if hd_schema header =s? SspFamilyCase then Some "/v1/cases"
    else if hd_schema header =s? SspFamilyAdvice then Some "/v1/advice" else None) = Some path /\ (path = "/v1/cases" \/ path = "/v1/advice")).
  { destruct Hfam as [-> | ->]; eauto. }
  destruct Hpath as (path & -> & Hpath). pose proof (serve_submit path raw st Hpath Hl Hm) as Hserve.
  unfold call. rewrite (submit_received _ _ Hpath). unfold over_http at 1. rewrite Hserve. unfold check, check_receipt. cbn [fst snd].
  destruct (ad_Submit api (cl_workload c) raw st) as [st' [r|e]]; cbn [fst snd] in *; f_equal.
  - destruct (receipt_reads r (Hp r eq_refl)) as (v & Hv & Hd). cbn [writeJSON rs_status rs_body].
    change ((200 <? 200) || (300 <=? 200)) with false. cbn iota. unfold receiptResponse in *. unfold json_object in *. cbn [String.append] in *.
    rewrite (limited_decode maxResponseBytes decode_commit _ v ltac:(done) Hv), Hd. by destruct (_ <=? _).
  - by rewrite admission_error_status.
Qed.
End Reads.

(** C20: reading through the client and the server is asking the service.  Let the
    connection authenticate the client's workload.  For any service behind the
    server and every well-formed query, whatever text the identifiers hold
    (escapes, percent signs, spaces, UTF-8), [ResolveRegistry], [ResolveCase] and
    [ListEdgeDeliveries] of the client return the service's answer, with its own
    consistency check applied, when the answer fits 1 MiB, and the service's refusal
    as a typed rejection when it refuses; nothing is changed.  The exception is a
    case identifier that is not one path segment: it is always rejected. *)
Theorem http_reads_exact {St} (api : Admission_ St) s c tls st : workload s tls = Some (cl_workload c) ->
  (forall tenant n commitment, tenant <> "" -> 0 < n -> nat64 n -> validCommitment_client commitment = true ->
     (forall g, ad_ResolveRegistry api (cl_workload c) n commitment st = Ok g -> printable_registry g) ->
     ClientResolveRegistry (over_http api s tls) c tenant n commitment st = (st,
       match ad_ResolveRegistry api (cl_workload c) n commitment st with
       | Err e => Err (rejection (writeStoreError e))
       | Ok g => if len (registryResponse g) <=? maxResponseBytes then check_resolved_registry tenant n commitment g
                 else Err (CliError "decode response")
       end)) /\
  (forall id commitment, plain_id id = true -> id <> "" -> validCommitment_client commitment = true ->
     (forall r, ad_ResolveCase api (cl_workload c) id commitment st = Ok r -> printable_case (sv_zone s) r) ->
     ClientResolveCase (over_http api s tls) c id commitment st = (st,
       match ad_ResolveCase api (cl_workload c) id commitment st with
       | Err e => Err (rejection (writeStoreError e))
       | Ok r => if len (caseResponse (sv_zone s) r) <=? maxResponseBytes then check_case id commitment r
                 else Err (CliError "decode response")
       end)) /\
  (forall id commitment, plain_id id = false -> validCommitment_client commitment = true ->
     exists status code, ClientResolveCase (over_http api s tls) c id commitment st = (st, Err (CliRejected status code))) /\
  (forall q, own_query c q ->
     (forall p, ad_ListEdgeDeliveries api (server_query s c q) st = Ok p -> printable_page p) ->
     ClientListEdgeDeliveries (over_http api s tls) c q st = (st,
       match ad_ListEdgeDeliveries api (server_query s c q) st with
       | Err e => Err (rejection (writeStoreError (CtlAuthority e)))
       | Ok p => if len (edgePageResponse p) <=? maxResponseBytes then check_page q p
                 else Err (CliError "decode response")
       end)).
Proof.
  intros Hw. split_and!; intros; [by apply http_registry|by apply http_case|by apply http_case_refused|by apply http_page].
Qed.
