(* ===== verification/HttpBounds.v ===== *)
(** * The sizes of control's responses

    A case, a registry or a single delivery of at most 64 KiB always fits the
    client's limit of one mebibyte; a page of several need not. *)
From stdpp Require Import gmap pretty.
From S2P Require Import Prelude GoText GoStrconv GoTime GoJson GoJsonRead GoUtf8 GoJsonText GoJsonWire GoUrl DeliveryStream Authority PgTx AuthorityStore.
From S2P Require Import SspGuard SspBody SspRegistry SspEnvelope SspStrip SspTheorems SspSign Registry ControlApi ControlHttp EdgeVerifier ControlClient HttpTheorems GoJsonPrint.
Open Scope string_scope.
Open Scope Z_scope.
Open Scope snag_scope.

(** ** Numbers *)
Lemma len_dec z : nat64 z -> len (dec z) <= 19.
Proof. intros Hz. unfold nat64 in Hz. apply len_dec_pow; lia. Qed.

(** ** Instants *)
Lemma len_zone off : -1440 < off < 1440 -> len (zone_text off) <= 6.
Proof.
  intros Hoff. unfold zone_text. destruct (off =? 0); [by unfold len|].
  rewrite !len_app, !len_pad by (cbn; Z.to_euclidean_division_equations; lia). change (len ":") with 1.
  destruct (off <? 0); unfold len; cbn; lia.
Qed.

Lemma len_time off t : -1440 < off < 1440 -> four_digit_year (t + off * minute) = true -> len (json_time off t) <= 40.
Proof.
  intros Hoff Hy. unfold json_time. rewrite json_string_text, json_text_plain by apply time_plain.
  change (String quote (?x ++ String quote "")) with (String quote "" ++ x ++ String quote "").
  rewrite !len_app. change (len (String quote "")) with 1.
  cut (len (format_zone off t) <= 35); [lia|]. unfold format_zone, format_with. unfold four_digit_year in Hy.
  generalize (t + off * minute), Hy. clear Hy t. intros u Hy.
  destruct (civil_of_days (u / day)) as [[y m] d] eqn:Ec. destruct (civil_roundtrip _ _ _ _ Ec) as (_ & Hm & Hd).
  assert (Hdin : days_in y m <= 31) by (unfold days_in; repeat case_match; lia).
  pose proof (Z.mod_pos_bound u day ltac:(done)) as Hr. destruct (clock_fields _ Hr) as (Hh & Hmi & Hs & _ & _). bools.
  pose proof (len_fraction (u mod day mod second)). pose proof (len_zone off Hoff).
  rewrite !len_app, !len_pad by (cbn; lia). change (len "-") with 1. change (len "T") with 1. change (len ":") with 1. lia.
Qed.

(** ** Records of committed rows: identifiers of at most 512 runes, 64-bit
    numbers, wires of at most 64 KiB *)
Lemma short_text s : short s -> text_ok s.
Proof. by intros [? _]. Qed.

Lemma len_raw b : len b <= MaxEnvelopeBytes -> len (json_bytes b) <= 87386.
Proof.
  intros Hb. rewrite length_json_bytes. pose proof (len_nonneg b). change MaxEnvelopeBytes with 65536 in Hb.
  Z.to_euclidean_division_equations. lia.
Qed.

Record small_registry (g : RegistryRecord) : Prop := {
  sg_texts : Forall short [rr_TenantID g; rr_EnvelopeID g; rr_Commitment g; rr_PreviousCommitment g];
  sg_numbers : Forall nat64 [rr_Revision g; rr_RoutingEpoch g; rr_AuthorityRevision g];
  sg_raw : len (rr_Raw g) <= MaxEnvelopeBytes }.

Record small_delivery (d : EdgeDelivery) : Prop := {
  sd_texts : Forall short [ed_Kind d; ed_CaseID d; ed_EnvelopeID d; ed_Commitment d];
  sd_numbers : Forall nat64 [ed_Sequence d; ed_AuthorityRevision d];
  sd_raw : len (ed_Raw d) <= MaxEnvelopeBytes }.

Record small_case (zone : Z -> Z) (c : CaseRecord) : Prop := {
  sc_texts : Forall short [cs_TenantID c; cs_CaseID c; cs_EnvelopeID c; cs_Commitment c; cs_Domain c;
                           cs_IssuerEdgeID c; cs_RegistryHash c];
  sc_numbers : Forall nat64 [cs_IssuerEdgeGeneration c; cs_RoutingEpoch c; cs_RegistryRevision c; cs_AuthorityRevision c];
  sc_zone : -1440 < zone (cs_ExpiresAt c) < 1440;
  sc_year : four_digit_year (cs_ExpiresAt c + zone (cs_ExpiresAt c) * minute) = true;
  sc_raw : len (cs_Raw c) <= MaxEnvelopeBytes }.

Lemma shorts_texts l : Forall short l -> Forall text_ok l.
Proof. apply Forall_impl, short_text. Qed.

(** The length of a printed object, field by field. *)
Ltac close_lens := repeat match goal with
  | |- context [len (json_string (String ?a ?b))] =>
      let x := eval vm_compute in (len (json_string (String a b))) in change (len (json_string (String a b))) with x
  | |- context [len (String ?a ?b)] => let x := eval vm_compute in (len (String a b)) in change (len (String a b)) with x
  end.
Ltac open_lens := unfold json_object, marshal_member; cbn [map join fst snd]; rewrite !len_app; close_lens.
Ltac bound_lens := texts; repeat match goal with
  | H : short ?s |- context [len (json_string ?s)] => pose proof (len_short s H); clear H
  | H : nat64 ?z |- context [len (dec ?z)] => pose proof (len_dec z H); clear H
  end.

Lemma small_registry_fits g : small_registry g -> printable_registry g /\ len (registryResponse g) <= maxResponseBytes.
Proof.
  intros [Ht Hn Hr]. split; [constructor; [by apply shorts_texts|done]|].
  pose proof (len_raw _ Hr). unfold registryResponse. change maxResponseBytes with 1048576. open_lens. bound_lens. lia.
Qed.

Lemma small_case_fits zone c : small_case zone c -> printable_case zone c /\ len (caseResponse zone c) <= maxResponseBytes.
Proof.
  intros [Ht Hn Hz Hy Hr]. split; [constructor; [by apply shorts_texts|done..]|].
  pose proof (len_raw _ Hr). pose proof (len_time _ _ Hz Hy). unfold caseResponse. change maxResponseBytes with 1048576. open_lens. bound_lens. lia.
Qed.

Lemma small_delivery_printable d : small_delivery d -> printable_delivery d /\ len (deliveryResponse d) <= 100000.
Proof.
  intros [Ht Hn Hr]. split; [constructor; [by apply shorts_texts|done]|].
  pose proof (len_raw _ Hr). unfold deliveryResponse. open_lens. bound_lens. lia.
Qed.

Definition page_numbers (p : EdgeDeliveryPage) : Prop := Forall nat64 [dp_HighWatermark p; dp_CompleteThrough p].

(** A page is at most 100,000 bytes per delivery, and at least the base64 of its
    wires. *)
Definition raw_size (l : list EdgeDelivery) : Z := foldr (fun d n => len (ed_Raw d) + n) 0 l.

Lemma len_delivery d : 4 * ((len (ed_Raw d) + 2) / 3) <= len (deliveryResponse d).
Proof.
  pose proof (length_json_bytes (ed_Raw d)) as Hraw. unfold deliveryResponse. open_lens. rewrite Hraw.
  repeat match goal with |- context [len (?f ?x)] => lazymatch goal with H : 0 <= len (f x) |- _ => fail | _ => pose proof (len_nonneg (f x)) end end.
  lia.
Qed.

Lemma small_page_printable p : Forall small_delivery (dp_Deliveries p) -> page_numbers p -> printable_page p.
Proof. intros Hd Hn. constructor; [|done]. revert Hd. apply Forall_impl. by intros d [? _]%small_delivery_printable. Qed.

Lemma len_page p : Forall small_delivery (dp_Deliveries p) -> page_numbers p ->
  4 * raw_size (dp_Deliveries p) <= 3 * len (edgePageResponse p) /\
  len (edgePageResponse p) <= 100001 * Z.of_nat (length (dp_Deliveries p)) + 200.
Proof.
  intros Hd Hn. assert (Hsum : 4 * raw_size (dp_Deliveries p) <= 3 * foldr (fun x n => len x + n) 0 (map deliveryResponse (dp_Deliveries p)) /\
    foldr (fun x n => len x + n) 0 (map deliveryResponse (dp_Deliveries p)) <= 100000 * Z.of_nat (length (dp_Deliveries p))).
  { induction Hd as [|d l [_ Hs]%small_delivery_printable Hd [IH1 IH2]]; [cbn; lia|]. cbn [raw_size foldr map length].
    fold (raw_size l). pose proof (len_delivery d) as Hl. split; [|lia].
    assert (len (ed_Raw d) <= 3 * ((len (ed_Raw d) + 2) / 3)) by (Z.to_euclidean_division_equations; lia). lia. }
  unfold edgePageResponse, json_array. open_lens. rewrite len_join, length_map. unfold page_numbers in Hn.
  pose proof (len_nonneg (dec (dp_HighWatermark p))). pose proof (len_nonneg (dec (dp_CompleteThrough p))). bound_lens. lia.
Qed.

Lemma small_page_fits p : Forall small_delivery (dp_Deliveries p) -> page_numbers p -> (length (dp_Deliveries p) <= 10)%nat ->
  len (edgePageResponse p) <= maxResponseBytes.
Proof. intros Hd Hn Hl. destruct (len_page _ Hd Hn) as [_ Hp]. change maxResponseBytes with 1048576. lia. Qed.

Lemma large_page_cut p : Forall small_delivery (dp_Deliveries p) -> page_numbers p -> 786432 < raw_size (dp_Deliveries p) ->
  maxResponseBytes < len (edgePageResponse p).
Proof. intros Hd Hn Hl. destruct (len_page _ Hd Hn) as [Hp _]. change maxResponseBytes with 1048576. lia. Qed.
