(* ===== verification/HttpEdge.v ===== *)
(** * An edge that reads the authority over HTTP

    The edge's verifier, the control client, the control server, the control
    service and the ledger, composed: in the reachable states of the control
    plane, what the edge decides about a delivery when its authority is the
    client of its own control plane. *)
From stdpp Require Import gmap.
From S2P Require Import Prelude GoText GoStrconv GoTime GoJson GoJsonRead GoBase64 GoUtf8 GoJsonWire GoUrl Sha256 DeliveryStream Authority PgTx AuthorityStore.
From S2P Require Import OutboxWorker AuthorityOutbox AuthoritySpec AuthorityInv AuthorityTheorems AuthorityReads.
From S2P Require Import SspGuard SspBody SspRegistry SspEnvelope SspTheorems Registry RegistryTheorems ControlApi.
From S2P Require Import SqliteTx EdgeStore EdgeConsumer EdgeVerifier ControlTheorems ControlSystem ControlEdge.
From S2P Require Import GoJsonPrint ControlHttp ControlClient HttpTheorems HttpBounds.
Open Scope string_scope.
Open Scope Z_scope.
Open Scope snag_scope.

Ltac each := repeat (apply List.Forall_cons; [|]); [..|apply List.Forall_nil].

Section Deployment.
Context {JC : Jcs} {ED : Ed25519} (s : ControlService) (sv : Server) (cl : Client) (tls : option ConnectionState).
Context (clock : nat -> Z) (envs : nat -> AttemptEnv) (others : nat -> DB -> DB).

(** The columns are BIGINT. *)
Record bigints (db : DB) : Prop := {
  bi_revision : revision_seq db <= int64_max + 1;
  bi_sequence : forall key q d, PgTx.deliveries db !! (key, q) = Some d -> q <= int64_max }.

Lemma safe_nat64 z : 0 <= z <= maxSafeInteger -> nat64 z.
Proof. unfold nat64, maxSafeInteger. lia. Qed.

Lemma wire_size raw e : decodeStrictEnvelope raw = Ok e -> len raw <= MaxEnvelopeBytes.
Proof.
  unfold decodeStrictEnvelope. destruct (rawGuard raw) as [[]|] eqn:E; [|done]. intros _. by apply rawGuard_spec in E as [H _].
Qed.

Lemma commitment_short v : validCommitment v = true -> short v.
Proof. rewrite validCommitment_is_pattern. apply pattern_short. Qed.

Lemma shape_case e : well_formed e -> Schema e <> SspFamilyRegistry -> validOpaqueID (CaseID e) = true.
Proof.
  intros (_ & _ & _ & _ & _ & Hs & _) Hne. unfold check_shape in Hs. rewrite (proj2 (String.eqb_neq _ _) Hne) in Hs.
  inv_result. by bools.
Qed.

Section Rows.
Context (db : DB).
Hypothesis Hinv : control_inv s db.
Hypothesis Hbig : bigints db.
Hypothesis Hshort : short (ct_tenant s).

Lemma row_small_registry n g : registries db !! (ct_tenant s, n) = Some g -> small_registry g.
Proof using All.
  intros Hg. pose proof (ci_registry _ _ Hinv _ _ _ Hg) as (_ & Hn & e & v & Hev)%registry_has_evidence.
  destruct (re_wire _ _ _ _ Hev) as (Hdec & Hw & _). destruct (re_row _ _ _ _ Hev) as (Ht & Hid & Hr & Hep & _).
  destruct (registry_identifiers _ _ _ _ _ Hinv Hg) as (_ & _ & Hc).
  pose proof (rev_registries _ (inv_revision _ (ci_ledger _ _ Hinv)) _ _ Hg) as Hrev.
  destruct Hw as (_ & Hi & _ & _ & _ & _ & He1 & He2 & _). pose proof (bi_revision _ Hbig) as Hb.
  assert (Hp : short (rr_PreviousCommitment g)).
  { destruct (chain_link _ (inv_chain _ (ci_ledger _ _ Hinv)) _ _ _ Hg) as [[-> _]|(p & Hp & ->)]; [apply empty_short|].
    destruct (registry_identifiers _ _ _ _ _ Hinv Hp) as (_ & _ & Hc'). by apply commitment_short. }
  constructor; [| |by eapply wire_size].
  - each; rewrite ?Ht, ?Hid; try done; first [by apply commitment_short | by apply opaque_short].
  - each; rewrite ?Hr, ?Hep; try (by apply safe_nat64). unfold nat64, int64_max in *. lia.
Qed.

Lemma row_small_case id c : PgTx.cases db !! (ct_tenant s, id) = Some c ->
  -1440 < sv_zone sv (cs_ExpiresAt c) < 1440 -> four_digit_year (cs_ExpiresAt c + sv_zone sv (cs_ExpiresAt c) * minute) = true ->
  small_case (sv_zone sv) c.
Proof using All.
  intros Hc Hz Hy. destruct (case_has_evidence _ _ _ _ Hinv Hc) as (e & er & g & vv & key & b & em & ex & Hrow).
  destruct (cre_wire _ _ _ _ _ _ _ _ _ _ _ Hrow) as (Hdec & Hw & Hsc).
  destruct (case_body_ids _ _ Hdec Hw Hsc) as (b' & Hb' & _ & Hgen & Hdom & Hedge).
  assert (b' = b) as ->.
  { pose proof (cre_body _ _ _ _ _ _ _ _ _ _ _ Hrow) as Hb. unfold authorizeCase in Hb. rewrite Hb' in Hb. cbn [must mbind result_bind] in Hb.
    destruct (issuer_unauthorized _ _ _ _ _); [done|]. by injection Hb. }
  destruct (case_identifiers _ _ _ _ _ Hinv Hc) as (_ & _ & _ & _ & Hcm & Hrh & _).
  pose proof (cre_row _ _ _ _ _ _ _ _ _ _ _ Hrow) as (Ht & Hcid & Hid & Hd & He & Hg & Hep & Hrv & _ & _ & Hpos).
  pose proof (rev_cases _ (inv_revision _ (ci_ledger _ _ Hinv)) _ _ Hc) as Hrev. pose proof (bi_revision _ Hbig) as Hb.
  pose proof (shape_case _ Hw ltac:(by rewrite Hsc)) as Hcase. pose proof Hw as (_ & Hi & _ & _ & _ & _ & He1 & He2 & _).
  constructor; [| |done|done|by eapply wire_size].
  - each; rewrite ?Ht, ?Hcid, ?Hid, ?Hd, ?He; try done; first [by apply commitment_short | by apply opaque_short].
  - each; rewrite ?Hg, ?Hep, ?Hrv; try (apply safe_nat64; lia). unfold nat64, int64_max in *. lia.
Qed.

Lemma row_small_delivery key q d : key.1.1 = ct_tenant s -> PgTx.deliveries db !! (key, q) = Some d -> small_delivery d.
Proof using All.
  destruct key as [[t edge] gen]. cbn. intros -> Hd. pose proof (bi_sequence _ Hbig _ _ _ Hd) as Hq.
  pose proof (logged_positive _ _ _ _ _ Hinv Hd) as Hpos. pose proof (bi_revision _ Hbig) as Hb.
  destruct (facts_delivery _ (inv_facts _ (ci_ledger _ _ Hinv)) _ _ _ _ _ Hd) as (c & Hc & _ & Hrow).
  destruct (case_has_evidence _ _ _ _ Hinv Hc) as (e & er & g & vv & key & b & em & ex & Hev).
  destruct (cre_wire _ _ _ _ _ _ _ _ _ _ _ Hev) as (Hdec & Hw & Hsc).
  pose proof (cre_row _ _ _ _ _ _ _ _ _ _ _ Hev) as (_ & Hcid & Hid & _).
  destruct (facts_case _ (inv_facts _ (ci_ledger _ _ Hinv)) _ _ _ Hc) as (_ & Hcid' & _).
  pose proof (shape_case _ Hw ltac:(by rewrite Hsc)) as Hcase.
  assert (Hkinds : short "case" /\ short "advice") by by split.
  destruct Hrow as [->|(a & Ha & Hrow)].
  - destruct (case_identifiers _ _ _ _ _ Hinv Hc) as (_ & _ & _ & _ & Hcm & _).
    pose proof (rev_cases _ (inv_revision _ (ci_ledger _ _ Hinv)) _ _ Hc) as Hrev.
    constructor; cbn [delivery_of_case ed_Kind ed_CaseID ed_EnvelopeID ed_Commitment ed_Raw ed_Sequence ed_AuthorityRevision].
    + each; rewrite ?Hcid, ?Hid; [apply Hkinds|by apply opaque_short|apply opaque_short, Hw|by apply commitment_short].
    + each; unfold nat64, int64_max in *; lia.
    + by eapply wire_size.
  - destruct (advice_has_evidence _ _ _ _ Hinv Ha) as (c' & ec & er' & g' & vv' & kc & bc & emc & exc & e' & k' & b' & em' & ex' & Hc' & _ & Hae).
    destruct (are_wire _ _ _ _ _ _ _ _ _ _ _ _ Hae) as (Hdec' & Hw' & _). destruct (are_row _ _ _ _ _ _ _ _ _ _ _ _ Hae) as (Hen & _).
    destruct (advice_identifiers _ _ _ _ _ Hinv Ha) as (_ & Hac & _).
    pose proof (rev_advice _ (inv_revision _ (ci_ledger _ _ Hinv)) _ _ Ha) as Hrev.
    assert (Hs : ed_Sequence d = q) by (apply (log_sequence _ (inv_log _ (ci_ledger _ _ Hinv)) _ _ _ Hd)).
    rewrite Hrow in Hs |- *. cbn in Hs.
    constructor; cbn [delivery_of_advice ed_Kind ed_CaseID ed_EnvelopeID ed_Commitment ed_Raw ed_Sequence ed_AuthorityRevision].
    + each; rewrite <- ?Hcid', ?Hcid, ?Hen; [apply Hkinds|by apply opaque_short|apply opaque_short, Hw'|by apply commitment_short].
    + each; unfold nat64, int64_max in *; lia.
    + by eapply wire_size.
Qed.

(** A logged delivery has all its fields. *)
Lemma row_delivery_complete key q d : key.1.1 = ct_tenant s -> PgTx.deliveries db !! (key, q) = Some d ->
  check_deliveries q [d] = true.
Proof using Hinv.
  destruct key as [[t edge] gen]. cbn [fst]. intros -> Hd.
  pose proof (log_sequence _ (inv_log _ (ci_ledger _ _ Hinv)) _ _ _ Hd) as Hs.
  destruct (facts_delivery _ (inv_facts _ (ci_ledger _ _ Hinv)) _ _ _ _ _ Hd) as (c & Hc & _ & Hrow).
  destruct (case_identifiers _ _ _ _ _ Hinv Hc) as (_ & Hi & _ & _ & Hcm & _ & He & _).
  destruct (facts_case _ (inv_facts _ (ci_ledger _ _ Hinv)) _ _ _ Hc) as (_ & _ & (_ & _ & _ & _ & _ & Hl) & _).
  pose proof (rev_cases _ (inv_revision _ (ci_ledger _ _ Hinv)) _ _ Hc) as Hrev.
  assert (Hne : forall x, validCommitment x = true -> x <> "") by by intros x Hx ->.
  assert (Hok : ed_Kind d <> "" /\ ed_EnvelopeID d <> "" /\ ed_Commitment d <> "" /\ len (ed_Raw d) <> 0 /\ 0 < ed_AuthorityRevision d).
  { destruct Hrow as [->|(a & Ha & ->)]; cbn.
    - split_and!; [done|by apply non_blank_nonempty|by apply Hne|done|lia].
    - destruct (advice_identifiers _ _ _ _ _ Hinv Ha) as (Hae & Hac & Hal).
      pose proof (rev_advice _ (inv_revision _ (ci_ledger _ _ Hinv)) _ _ Ha) as Har.
      split_and!; [done|by apply non_blank_nonempty|by apply Hne|done|lia]. }
  destruct Hok as (H1 & H2 & H3 & H4 & H5). cbn [check_deliveries].
  rewrite Hs, Z.eqb_refl, (proj2 (Z.eqb_neq _ _) H4), (proj2 (Z.leb_gt _ _) H5).
  by rewrite !(proj2 (String.eqb_neq _ _)) by (done || by apply non_blank_nonempty).
Qed.
End Rows.

(** ** The registry an edge may read *)
Lemma edges_of_snapshot e d snapshot i : decodeRegistry e d = Ok snapshot -> edges_of snapshot !! i =
  (fun x => {| re_PrincipalID := ed_principal x; re_Generation := ed_generation x |}) <$> rg_edges snapshot !! i.
Proof.
  unfold decodeRegistry. intros Hd. inv_result. unfold edges_of, index_by. cbn [rg_edgesList rg_edges].
  rewrite <- lookup_fmap. f_equal. induction (bd_edges a0) as [|x l IH] using rev_ind; [cbn [foldl]; by rewrite fmap_empty|].
  rewrite !foldl_app. cbn [foldl]. by rewrite fmap_insert, IH.
Qed.

(** The edges of a committed registry, against the marks. *)
Lemma marked_registry db n g : marks_inv s db -> registries db !! (ct_tenant s, n) = Some g ->
  exists e v, registry_evidence s g e v /\ forall i x, rg_edges (ve_snapshot v) !! i = Some x -> exists hw,
    highwater db !! (ct_tenant s, i) = Some hw /\
    (ed_generation x < hw_HighestGeneration hw \/
     (ed_generation x = hw_HighestGeneration hw /\ ed_principal x = hw_PrincipalID hw)).
Proof.
  intros Hm Hg. destruct (Hm _ _ _ Hg) as (ck & w & raw & r & Ha & Hrow & Ht & Hn & He).
  assert (Hsnap : exists e v, registry_evidence s g e v /\ request_edges r = edges_of (ve_snapshot v) /\
    decodeRegistry e (ve_commitment v) = Ok (ve_snapshot v)).
  { clear He. unfold admit_registry in Ha.
    destruct (_ || _); [done|]. destruct (ReadHeader raw) as [h|] eqn:Eh; [|done].
    apply ReadHeader_exact in Eh as (e & Hdec & ->). destruct (_ <>s? _) eqn:Es; [done|].
    destruct (VerifyRoot _ _ _) as [v|] eqn:Ev; [|done]. unfold verified_commitment in Ha.
    destruct (ve_commitment v =s? "") eqn:Ec; [done|]. destruct (_ || _) eqn:Eb in Ha; [done|]. injection Ha as <-.
    pose proof Ev as (e' & Hdec' & Hw & Hs & _ & _ & Hr & _)%VerifyRoot_time. rewrite Hdec in Hdec'. injection Hdec' as <-.
    bools. cbn in *. exists e, v. split_and!; [|done|done]. rewrite Hrow. cbn.
    constructor; cbn; [done|split_and!; congruence|done|]. by apply (root_proof _ (ck 0%nat)). }
  destruct Hsnap as (e & v & Hev & Hre & Hdec). exists e, v. split; [done|]. intros i x Hx.
  specialize (He i). rewrite Hre, (edges_of_snapshot _ _ _ i Hdec), Hx in He.
  destruct (He _ eq_refl) as (hw & Hhw & Hcase). rewrite <- Ht in Hhw. eauto.
Qed.

(** What the edge of a case is in the registry of that case. *)
Lemma case_edge_registered db id c e er g vv key b em ex : case_row_evidence s db c e er g vv key b em ex ->
  PgTx.cases db !! (ct_tenant s, id) = Some c ->
  exists x, rg_edges (ve_snapshot vv) !! cs_IssuerEdgeID c = Some x /\ ed_generation x = cs_IssuerEdgeGeneration c.
Proof.
  intros Hrow _. pose proof (cre_body _ _ _ _ _ _ _ _ _ _ _ Hrow) as Hb. unfold authorizeCase in Hb.
  pose proof (cre_row _ _ _ _ _ _ _ _ _ _ _ Hrow) as (_ & _ & _ & _ & -> & -> & _).
  destruct (decode_verified_case (Body e)) as [b'|]; [|done]. cbn [must mbind result_bind] in Hb.
  destruct (issuer_unauthorized _ _ _ _ b') eqn:Hi; [done|]. injection Hb as <-.
  unfold issuer_unauthorized in Hi. destruct (rg_edges (ve_snapshot vv) !! vc_edge b') as [x|]; [|done].
  exists x. split; [done|]. cbn [default Datatypes.id] in Hi. bools. done.
Qed.

(** ** The case control returns now

    Control verifies a committed case again at its own clock, when it is read:
    the registry and the case have to be live and the key usable at that time,
    whatever they were when the case was committed. *)
Definition readable (e er : Envelope) (snapshot : Registry) (key : RegisteredKey) : Prop :=
  live er (clock 0%nat) /\ Expired snapshot (clock 1%nat) = false /\
  Usable key (clock 2%nat) = true /\ live e (clock 2%nat) /\ live e (clock 3%nat).

(** Under the same key, control at its clock against the edge at the emission. *)
Lemma registered_now raw e snapshot usage em key now :
  verifyRegisteredEnvelope raw (header_of e) snapshot usage em = Ok (key, e) -> decodeStrictEnvelope raw = Ok e ->
  (Usable key now = true /\ live e now -> ControlApi.verifyRegisteredEnvelope raw (header_of e) snapshot usage now = Ok (key, e)) /\
  (~ (Usable key now = true /\ live e now) ->
     exists err, ControlApi.verifyRegisteredEnvelope raw (header_of e) snapshot usage now = Err err).
Proof.
  unfold verifyRegisteredEnvelope, ControlApi.verifyRegisteredEnvelope. cbn [header_of hd_author]. intros Hk Hdec.
  destruct (rg_keys snapshot !! AuthorKeyID e) as [k|]; [|done]. destruct (rk_usage k <>s? usage) eqn:Eu; [done|]. cbn [orb] in Hk |- *.
  destruct (negb (Usable k em)) eqn:Eu0 in Hk; [done|]. destruct (NewEd25519VerifyingKey (rk_public k)) as [vk|]; [|done].
  cbn [else_permanent lift_ssp mbind result_bind] in Hk |- *.
  destruct (Verify raw _ em) as [e1|] eqn:Ev; [|done]. cbn [else_permanent mbind result_bind] in Hk.
  destruct (ParseTimestamp (EmittedAt e1)) as [actual|] eqn:Ea; [|done].
  destruct (negb (actual =? em)) eqn:Em; [done|]. cbn [orb] in Hk. destruct (Usable k actual) eqn:Eua; [|done]. cbn [negb] in Hk.
  injection Hk as -> ->. destruct (Verify_time _ _ _ _ Ev) as (_ & _ & _ & Hall). split.
  - intros [-> Hl]. cbn [negb]. rewrite (Hall _ Hl). cbn [lift_ssp mbind result_bind]. by rewrite Ea, Eua.
  - intros Hno. destruct (Usable key now) eqn:En; cbn [negb]; [|eauto].
    destruct (Verify raw _ now) as [e2|err] eqn:Ev2; cbn [lift_ssp mbind result_bind]; [|eauto].
    destruct (Verify_time _ _ _ _ Ev2) as (Hd2 & _ & Hl2 & _). rewrite Hdec in Hd2. injection Hd2 as <-. tauto.
Qed.

Lemma commitment_now raw e em d now : EnvelopeCommitment raw em = Ok d -> decodeStrictEnvelope raw = Ok e ->
  (live e now -> EnvelopeCommitment raw now = Ok d) /\ (~ live e now -> exists err, EnvelopeCommitment raw now = Err err).
Proof.
  intros Hc Hdec. split; [by eapply Commitment_time|]. intros Hl.
  destruct (EnvelopeCommitment raw now) as [d'|err] eqn:E; [|eauto].
  apply EnvelopeCommitment_exact in E as (e' & c & (Hd & [_ Hl']%Validate_exact)%decodeAndValidate_spec & _).
  rewrite Hdec in Hd. by injection Hd as <-.
Qed.

Section CaseRead.
Context (db : DB) (id : string) (c : CaseRecord) (w : Workload).
Context (e er : Envelope) (g : RegistryRecord) (vv : Verified) (key : RegisteredKey) (b : verifiedCaseBody) (em ex : Z).
Hypothesis Hinv : control_inv s db.
Hypothesis Hcase : PgTx.cases db !! (ct_tenant s, id) = Some c.
Hypothesis Hrow : case_row_evidence s db c e er g vv key b em ex.

Lemma registry_now :
  (live er (clock 0%nat) /\ Expired (ve_snapshot vv) (clock 1%nat) = false ->
     ControlApi.resolveRegistry s clock db (header_of e) = Ok (ve_snapshot vv)) /\
  (~ (live er (clock 0%nat) /\ Expired (ve_snapshot vv) (clock 1%nat) = false) ->
     exists err, ControlApi.resolveRegistry s clock db (header_of e) = Err err).
Proof using Hinv Hrow.
  destruct (cre_registry _ _ _ _ _ _ _ _ _ _ _ Hrow) as (Hg & Hev & _). destruct (cre_binding _ _ _ _ _ _ _ _ _ _ _ Hrow) as (Hn & Hcm & Hep).
  destruct (registry_identifiers _ _ _ _ _ Hinv Hg) as (Ht & Hpos & Hvc). destruct (re_row _ _ _ _ Hev) as (_ & _ & _ & _ & Hrc).
  destruct (re_snapshot _ _ _ _ Hev) as (Hreg & Hne & Hsr & Hse). destruct (registry_expiry _ _ _ Hreg) as [Hsc _].
  unfold ControlApi.resolveRegistry. cbn [header_of hd_revision hd_registry_hash]. rewrite <- Hn, <- Hcm.
  unfold ResolveRegistry. rewrite Ht, Hvc, (proj2 (Z.leb_gt _ _) Hpos), Hg, String.eqb_refl. cbn [negb orb].
  assert (Hbind : is_ok (CheckBinding (ve_snapshot vv) (rr_Revision g) (rr_Commitment g)) = true)
    by (apply CheckBinding_ok; split; congruence).
  destruct (re_proof _ _ _ _ Hev (clock 0%nat)) as [Hiff Hdec]. split.
  - intros [Hl%Hiff Hx]. rewrite Hl. unfold verified_commitment. rewrite (proj2 (String.eqb_neq _ _) Hne), Hx, Hbind, Hsr, Hse, <- Hrc.
    by rewrite !Z.eqb_refl, !String.eqb_refl.
  - intros Hno. destruct Hdec as [Hv|(err & ->)]; [|destruct (reg_is_expired err); eauto].
    rewrite Hv. unfold verified_commitment. rewrite (proj2 (String.eqb_neq _ _) Hne), Hbind, Hsr, Hse, <- Hrc, !Z.eqb_refl, !String.eqb_refl.
    destruct (Expired (ve_snapshot vv) (clock 1%nat)); cbn [negb orb]; [eauto|]. apply Hiff in Hv. tauto.
Qed.

Lemma case_found (Hprincipal : rk_principal key <> "") ck :
  (Usable key (ck 0%nat) = true /\ live e (ck 0%nat) /\ live e (ck 1%nat) ->
     findCommittedCase s ck db id (cs_Commitment c) (header_of e) (ve_snapshot vv) = Ok (mkCommitted (cs_Commitment c) (cs_Domain c) c)) /\
  (~ (Usable key (ck 0%nat) = true /\ live e (ck 0%nat) /\ live e (ck 1%nat)) ->
     exists err, findCommittedCase s ck db id (cs_Commitment c) (header_of e) (ve_snapshot vv) = Err err).
Proof using Hinv Hcase Hrow.
  destruct (case_identifiers _ _ _ _ _ Hinv Hcase) as (Ht & Hid & _ & _ & Hcm & _).
  destruct (cre_wire _ _ _ _ _ _ _ _ _ _ _ Hrow) as (Hdec & Hw & Hsc).
  pose proof (cre_row _ _ _ _ _ _ _ _ _ _ _ Hrow) as (_ & Hcid & _ & Hdom & _).
  destruct (facts_case _ (inv_facts _ (ci_ledger _ _ Hinv)) _ _ _ Hcase) as (_ & Hcid' & _).
  pose proof (cre_body _ _ _ _ _ _ _ _ _ _ _ Hrow) as Hb. destruct (case_bodies _ _ Hdec Hw Hsc) as (b' & Hb' & Hcb & _ & Hne & _).
  unfold authorizeCase in Hb. rewrite Hb' in Hb. cbn [must mbind result_bind] in Hb.
  destruct (issuer_unauthorized _ _ _ _ b') in Hb; [done|]. injection Hb as ->.
  unfold findCommittedCase, ResolveCase. rewrite Ht, Hid, Hcm, Hcase, String.eqb_refl. cbn [negb orb].
  rewrite (proj2 (ReadHeader_exact _ (header_of e))) by eauto. rewrite !Z.eqb_refl, String.eqb_refl. cbn [negb orb].
  destruct (registered_now _ _ _ _ _ _ (ck 0%nat) (cre_key _ _ _ _ _ _ _ _ _ _ _ Hrow) Hdec) as [Hyes Hnot].
  destruct (commitment_now _ _ _ _ (ck 1%nat) (cre_commitment _ _ _ _ _ _ _ _ _ _ _ Hrow) Hdec) as [Hcy Hcn]. split.
  - intros (Hu & Hl & Hl'). rewrite Hyes by done. rewrite Hsc, (proj2 (String.eqb_neq _ _) Hprincipal), (Hcy Hl'), !String.eqb_refl, Hcb.
    cbn [negb orb cb_domain]. by rewrite <- Hcid, Hcid', Hdom, !String.eqb_refl, (proj2 (String.eqb_neq _ _) Hne).
  - intros Hno. destruct (ControlApi.verifyRegisteredEnvelope _ _ _ _ _) as [[k x]|err] eqn:Ev; [|destruct (reg_is_expired err); eauto].
    destruct (_ || (rk_principal k =s? "")); [eauto|].
    destruct (EnvelopeCommitment (cs_Raw c) (ck 1%nat)) as [d|] eqn:Ec; [|eauto]. exfalso.
    assert (Hu : ~ ~ (Usable key (ck 0%nat) = true /\ live e (ck 0%nat))) by by intros [? ?]%Hnot.
    assert (Hl : ~ ~ live e (ck 1%nat)) by by intros [? ?]%Hcn. tauto.
Qed.

Hypothesis Hplain : non_blank (wl_principal w) = true.
Hypothesis Howner : rk_principal key = wl_principal w.
Hypothesis Hedge : exists x, rg_edges (ve_snapshot vv) !! cs_IssuerEdgeID c = Some x /\
  ed_generation x = cs_IssuerEdgeGeneration c /\ ed_principal x = wl_principal w.
Hypothesis Hown : cs_IssuerEdgeID c = wl_edge w /\ cs_IssuerEdgeGeneration c = wl_generation w.

Lemma control_case :
  (readable e er (ve_snapshot vv) key -> ControlResolveCase s clock (fun _ => db) w id (cs_Commitment c) = Ok c) /\
  (~ readable e er (ve_snapshot vv) key -> exists err, ControlResolveCase s clock (fun _ => db) w id (cs_Commitment c) = Err err).
Proof using All.
  destruct (case_identifiers _ _ _ _ _ Hinv Hcase) as (Ht & Hid & _ & _ & Hcm & _).
  destruct (cre_wire _ _ _ _ _ _ _ _ _ _ _ Hrow) as (Hdec & Hw & Hsc).
  pose proof (non_blank_nonempty _ Hplain) as Hne. assert (Hkp : rk_principal key <> "") by congruence.
  destruct registry_now as [Hry Hrn]. destruct (case_found Hkp (later 2 clock)) as [Hfy Hfn].
  unfold ControlResolveCase. assert (Hres : ResolveCase (ct_tenant s) id (cs_Commitment c) db = Ok c)
    by (unfold ResolveCase; by rewrite Ht, Hid, Hcm, Hcase, String.eqb_refl).
  rewrite Hres, (proj2 (ReadHeader_exact _ (header_of e))) by eauto.
  change (hd_schema (header_of e)) with (Schema e). rewrite Hsc, String.eqb_refl. cbn [negb]. unfold readable. split.
  - intros (H0 & H1 & H2). rewrite Hry by done. cbn [mbind result_bind]. rewrite Hfy by done. cbn [mbind result_bind cm_record cm_domain].
    destruct Hedge as (x & -> & -> & ->). destruct Hown as [<- <-].
    by rewrite !String.eqb_refl, !Z.eqb_refl, (proj2 (String.eqb_neq _ _) Hne), andb_false_r.
  - intros Hno. destruct (ControlApi.resolveRegistry _ _ _ _) as [snap|err] eqn:Er; cbn [mbind result_bind]; [|eauto].
    assert (Hr : ~ ~ (live er (clock 0%nat) /\ Expired (ve_snapshot vv) (clock 1%nat) = false)) by by intros [? ?]%Hrn.
    assert (snap = ve_snapshot vv) as ->.
    { pose proof Er as (r & v & (Hrr & Hv & _) & ->)%resolved_registry. apply resolved_row in Hrr as [Hrr _].
      destruct (cre_registry _ _ _ _ _ _ _ _ _ _ _ Hrow) as (Hg & Hev & _). destruct (cre_binding _ _ _ _ _ _ _ _ _ _ _ Hrow) as (Hn & _).
      rewrite <- Hn, Hg in Hrr. injection Hrr as <-.
      destruct (re_proof _ _ _ _ Hev (clock 0%nat)) as [_ [Hv'|[? Hv']]]; congruence. }
    destruct (findCommittedCase _ _ _ _ _ _ _) as [m|err] eqn:Ef; cbn [mbind result_bind]; [|eauto]. exfalso.
    assert (Hf : ~ ~ (Usable key (clock 2%nat) = true /\ live e (clock 2%nat) /\ live e (clock 3%nat))) by (intros [? ?]%Hfn; congruence).
    tauto.
Qed.
End CaseRead.

Section Reads.
Context (db : DB).
Hypothesis Hreach : control_reachable s db.
Hypothesis Hbig : bigints db.
Hypothesis Hshort : short (ct_tenant s).
Hypothesis Htenant : sv_tenant sv = ct_tenant s.
Hypothesis Hworkload : workload sv tls = Some (cl_workload cl).
Hypothesis Hplain : plain_id (wl_edge (cl_workload cl)) = true.
Hypothesis Hgeneration : nat64 (wl_generation (cl_workload cl)).
Hypothesis Hactive : edge_active s db (wl_edge (cl_workload cl)) (wl_generation (cl_workload cl)) (wl_principal (cl_workload cl)).

Definition api : Admission_ DB := control_admission s clock envs others.
Definition http_authority : ProjectionAuthority := projectionAuthorityClient (over_http api sv tls) cl (ct_tenant s) db.

Lemma control_registry id c g : PgTx.cases db !! (ct_tenant s, id) = Some c ->
  cs_IssuerEdgeID c = wl_edge (cl_workload cl) -> cs_IssuerEdgeGeneration c = wl_generation (cl_workload cl) ->
  registries db !! (ct_tenant s, cs_RegistryRevision c) = Some g ->
  ControlResolveRegistry s db (cl_workload cl) (cs_RegistryRevision c) (rr_Commitment g) = Ok g.
Proof using Hreach Hactive.
  intros Hc Hedge Hgen Hg. pose proof (control_reachable_inv _ _ Hreach) as Hinv.
  destruct (case_has_evidence _ _ _ _ Hinv Hc) as (e & er & g' & vv & key & b & em & ex & Hrow).
  assert (g' = g) as ->.
  { destruct (cre_registry _ _ _ _ _ _ _ _ _ _ _ Hrow) as (Hg' & _). destruct (cre_binding _ _ _ _ _ _ _ _ _ _ _ Hrow) as (Hn & _).
    pose proof (cre_row _ _ _ _ _ _ _ _ _ _ _ Hrow) as (_ & _ & _ & _ & _ & _ & _ & Hcr & _).
    rewrite Hn, <- Hcr, Hg in Hg'. by injection Hg'. }
  destruct (cre_registry _ _ _ _ _ _ _ _ _ _ _ Hrow) as (_ & Hev & Hpos & now & Hlive).
  destruct (marked_registry _ _ _ (control_reachable_marks _ _ Hreach) Hg) as (er' & vv' & Hev' & Hmarks).
  destruct (evidence_unique _ _ _ _ _ _ _ Hev Hev' Hlive) as [-> ->].
  destruct (case_edge_registered _ _ _ _ _ _ _ _ _ _ _ Hrow Hc) as (x & Hx & Hxg).
  destruct Hactive as (Hp & h & hw & _ & _ & Hhw & Hhp & Hhg & _).
  destruct (Hmarks _ _ Hx) as (hw' & Hhw' & Hcase). rewrite Hedge, Hhw in Hhw'. injection Hhw' as <-.
  assert (Hprin : ed_principal x = wl_principal (cl_workload cl)) by (destruct Hcase as [|[_ ?]]; [lia|congruence]).
  destruct (case_identifiers _ _ _ _ _ Hinv Hc) as (Ht & _ & He & Hgp & _).
  destruct (registry_identifiers _ _ _ _ _ Hinv Hg) as (_ & Hn & Hcm).
  destruct (re_wire _ _ _ _ Hev) as (Hdec & Hw & Hsc). destruct (re_row _ _ _ _ Hev) as (Hrt & Hrid & Hrr & Hre & Hrc).
  destruct (re_snapshot _ _ _ _ Hev) as (_ & Hvc & Hsr & Hse).
  destruct Hlive as (emr & exr & Hemr & Hexr & Hlt).
  assert (Hl : live er emr) by (exists emr, exr; split_and!; (done || lia)).
  pose proof (proj2 (proj1 (re_proof _ _ _ _ Hev emr)) Hl) as Hproof.
  pose proof (trust_configured s (mkAuthorityVerifier (ct_tenant s) (store_authority s "" db) (ct_trust s)) g er vv eq_refl eq_refl Hev Hpos _ Hproof) as Htrust.
  cbn [av_trust] in Htrust. unfold ControlResolveRegistry.
  rewrite (proj2 (String.eqb_neq _ _) (non_blank_nonempty _ Hp)). rewrite <- Hedge at 1.
  rewrite (proj2 (String.eqb_neq _ _) (non_blank_nonempty _ He)), <- Hgen at 1. rewrite (proj2 (Z.leb_gt _ _) Hgp). cbn [orb].
  unfold ResolveRegistry. rewrite Ht, Hcm, (proj2 (Z.leb_gt _ _) Hn), Hg, String.eqb_refl. cbn [negb orb].
  rewrite (proj2 (ReadHeader_exact _ (header_of er))) by eauto. cbn [header_of hd_schema hd_emitted].
  rewrite Hsc, String.eqb_refl, Hemr, Htrust, Hproof. cbn [negb]. unfold verified_commitment.
  rewrite (proj2 (String.eqb_neq _ _) Hvc), <- Hedge, Hx, Hprin, Hxg, Hgen.
  destruct (chain_last _ (inv_chain _ (ci_ledger _ _ Hinv)) _ _ _ Hg) as (_ & Hrn & _).
  rewrite Hrt, Hrn, Hsr, Hrn, Hse, <- Hrc, !String.eqb_refl, !Z.eqb_refl. done.
Qed.

Lemma client_commitment v : validCommitment v = true -> validCommitment_client v = true.
Proof using Type.
  unfold validCommitment, validCommitment_client. change (7 + 64) with 71. destruct (negb (len v =? 71)); [done|].
  destruct (strip_prefix "sha256:" v) as [r|]; [|done]. rewrite !forallb_forall. intros H x Hx. specialize (H x Hx).
  destruct x as [z|]; [|done]. cbn in H |- *. rewrite negb_true_iff in *. bools.
  rewrite andb_false_iff, !orb_false_iff, !Z.ltb_ge in H. rewrite orb_false_iff, andb_false_iff, orb_false_iff, !Z.ltb_ge. lia.
Qed.

Lemma raw_nonempty raw e : decodeStrictEnvelope raw = Ok e -> (len raw =? 0) = false.
Proof using Type.
  intros Hd. apply Z.eqb_neq. intros Hl. destruct raw; [done|]. unfold len in Hl. cbn in Hl. lia.
Qed.

Lemma http_registry_row id c g : PgTx.cases db !! (ct_tenant s, id) = Some c ->
  cs_IssuerEdgeID c = wl_edge (cl_workload cl) -> cs_IssuerEdgeGeneration c = wl_generation (cl_workload cl) ->
  registries db !! (ct_tenant s, cs_RegistryRevision c) = Some g ->
  pa_ResolveRegistry http_authority (ct_tenant s) (cs_RegistryRevision c) (rr_Commitment g) = Ok g.
Proof using Hreach Hactive Hworkload Hbig Hshort.
  intros Hc Hedge Hgen Hg. pose proof (control_reachable_inv _ _ Hreach) as Hinv.
  pose proof (control_registry _ _ _ Hc Hedge Hgen Hg) as Hctl.
  destruct (registry_identifiers _ _ _ _ _ Hinv Hg) as (Ht & Hn & Hcm).
  pose proof (row_small_registry db Hinv Hbig Hshort _ _ Hg) as Hsmall.
  destruct (small_registry_fits _ Hsmall) as [Hprint Hfit].
  pose proof (ci_registry _ _ Hinv _ _ _ Hg) as (_ & Hrn & er & vv & Hev)%registry_has_evidence.
  destruct (re_wire _ _ _ _ Hev) as (Hdec & (_ & Hid & _) & _). destruct (re_row _ _ _ _ Hev) as (Hrt & Hrid & _).
  pose proof (rev_registries _ (inv_revision _ (ci_ledger _ _ Hinv)) _ _ Hg) as Hrev. cbn beta in Hrev.
  unfold http_authority, projectionAuthorityClient. cbn [pa_ResolveRegistry]. rewrite String.eqb_refl. cbn [negb].
  assert (Hn64 : nat64 (cs_RegistryRevision c)).
  { rewrite Hrn. destruct Hsmall as [_ Hnum _]. texts. done. }
  rewrite (http_registry api sv cl tls Hworkload); [|by apply non_blank_nonempty|done|done|by apply client_commitment|].
  - change (ad_ResolveRegistry api) with (fun w n cm d => ControlResolveRegistry s d w n cm). cbn beta. rewrite Hctl.
    rewrite (proj2 (Z.leb_le _ _) Hfit). unfold check_resolved_registry. cbn [snd].
    rewrite Hrt, <- Hrn, !String.eqb_refl, Z.eqb_refl, (raw_nonempty _ _ Hdec). cbn [negb orb].
    rewrite Hrid, (proj2 (String.eqb_neq _ _) (opaque_nonempty _ Hid)), (proj2 (Z.leb_gt _ _)) by lia. done.
  - intros g' Hg'. change (ad_ResolveRegistry api) with (fun w n cm d => ControlResolveRegistry s d w n cm) in Hg'.
    cbn beta in Hg'. rewrite Hctl in Hg'. by injection Hg' as <-.
Qed.

(** A page of the edge's own log, as the reconciler and the verifier ask for it. *)
Definition page_request (after limit : Z) : EdgeDeliveryQuery :=
  {| dq_TenantID := ct_tenant s; dq_EdgeID := wl_edge (cl_workload cl); dq_PrincipalID := "";
     dq_EdgeGeneration := wl_generation (cl_workload cl); dq_AfterSequence := after; dq_Limit := limit |}.
Definition own_key : string * string * Z := (ct_tenant s, wl_edge (cl_workload cl), wl_generation (cl_workload cl)).

Lemma rows_complete l : forall q, map ed_Sequence l = seqZ q (Z.of_nat (length l)) ->
  (forall d, d ∈ l -> PgTx.deliveries db !! (own_key, ed_Sequence d) = Some d) -> check_deliveries q l = true.
Proof using Hreach.
  pose proof (control_reachable_inv _ _ Hreach) as Hinv.
  induction l as [|d l IH]; intros q Hs Hl; [done|]. cbn [length map] in Hs. rewrite Nat2Z.inj_succ, seqZ_cons, Z.pred_succ in Hs by lia.
  injection Hs as Hq Hs. pose proof (row_delivery_complete db Hinv own_key (ed_Sequence d) d eq_refl (Hl d ltac:(by left))) as Hone.
  cbn [check_deliveries] in Hone |- *. rewrite andb_true_r, Hq in Hone. rewrite Hq, Hone. apply IH; [done|]. intros x Hx. apply Hl. by right.
Qed.

Lemma own_page after limit page : after <= int64_max ->
  ListEdgeDeliveries (with_principal (page_request after limit) (wl_principal (cl_workload cl))) db = Ok page ->
  Forall small_delivery (dp_Deliveries page) /\ page_numbers page /\
  check_page (page_request after limit) page =
    if after <=? dp_HighWatermark page then Ok page else Err (CliError "invalid authority delivery page").
Proof using Hreach Hactive Hbig Hshort Hplain Hgeneration clock envs others sv tls.
  intros Hafter Hlist. pose proof (control_reachable_inv _ _ Hreach) as Hinv. pose proof (inv_log _ (ci_ledger _ _ Hinv)) as Hlog.
  assert (Hnonneg : 0 <= after /\ 1 <= limit).
  { unfold ListEdgeDeliveries in Hlist. destruct (validate_delivery_query _) as [[]|] eqn:Hvalid in Hlist; [|done].
    pose proof Hvalid as (_ & Hlim & _)%valid_query. cbn in Hlim. split; [|lia].
    unfold validate_delivery_query in Hvalid; cbn in Hvalid. inv_result. bools. lia. }
  pose proof Hlist as (Hhw & Hseq & Hct & Hall)%ListEdgeDeliveries_page; [|done]. cbn in Hhw, Hseq, Hct, Hall. fold own_key in Hhw, Hall.
  assert (Hmax : 0 <= dp_HighWatermark page <= int64_max).
  { pose proof (log_pos _ Hlog own_key). split; [lia|]. destruct (decide (dp_HighWatermark page <= 0)); [unfold int64_max; lia|].
    destruct (proj2 (log_dense _ Hlog own_key (dp_HighWatermark page))) as [x Hx]; [lia|]. by apply (bi_sequence _ Hbig _ _ _ Hx). }
  assert (Hcount : Z.of_nat (length (dp_Deliveries page)) = Z.max 0 (Z.min limit (dp_HighWatermark page - after))).
  { rewrite <- (length_map ed_Sequence (dp_Deliveries page)), Hseq, length_seqZ. lia. }
  assert (Hlen : map ed_Sequence (dp_Deliveries page) = seqZ (after + 1) (Z.of_nat (length (dp_Deliveries page)))).
  { rewrite Hseq, Hcount. destruct (decide (0 <= Z.min limit (dp_HighWatermark page - after))); [by rewrite Z.max_r|].
    by rewrite Z.max_l, !seqZ_nil by lia. }
  split_and!.
  - apply List.Forall_forall. intros d Hd%list_elem_of_In. eapply (row_small_delivery db Hinv Hbig Hshort own_key _ d eq_refl). by apply Hall.
  - unfold page_numbers. each; unfold nat64, int64_max in *; lia.
  - unfold check_page. cbn [page_request dq_AfterSequence]. destruct (Z.leb_spec after (dp_HighWatermark page)) as [Hle|Hgt].
    + rewrite !(proj2 (Z.ltb_ge _ _)) by lia. rewrite (proj2 (Z.eqb_eq _ _)) by lia. cbn [negb orb]. by rewrite (rows_complete _ _ Hlen Hall).
    + by rewrite (proj2 (Z.ltb_lt _ _) Hgt).
Qed.

Lemma own_request after limit : after <= int64_max ->
  validate_delivery_query (with_principal (page_request after limit) (wl_principal (cl_workload cl))) = Ok tt ->
  own_query cl (page_request after limit).
Proof using Hplain Hgeneration.
  intros Hafter Hvalid. assert (Hnonneg : 0 <= after /\ ct_tenant s <> "").
  { split; [|intros E]; unfold validate_delivery_query in Hvalid; cbn in Hvalid; [|by rewrite E in Hvalid]. inv_result. bools. lia. }
  constructor; cbn [page_request dq_EdgeID dq_EdgeGeneration dq_TenantID dq_AfterSequence]; try done; [tauto|].
  split; [unfold nat64, int64_max in *; lia|done].
Qed.

(** What the client reads is the store's page, if it fits. *)
Lemma http_page_read after limit : after <= int64_max ->
  pa_ListEdgeDeliveries http_authority (page_request after limit) =
    match ListEdgeDeliveries (with_principal (page_request after limit) (wl_principal (cl_workload cl))) db with
    | Ok page => if (after <=? dp_HighWatermark page) && (len (edgePageResponse page) <=? maxResponseBytes)
                 then Ok page else Err (ErrPlain "controlclient")
    | Err _ => Err (ErrPlain "controlclient")
    end.
Proof using Hreach Hactive Hworkload Hbig Hshort Htenant Hplain Hgeneration.
  intros Hafter. unfold http_authority, projectionAuthorityClient. cbn [pa_ListEdgeDeliveries]. cbn [page_request dq_TenantID].
  rewrite String.eqb_refl. cbn [negb]. fold (page_request after limit).
  destruct (validate_delivery_query (with_principal (page_request after limit) (wl_principal (cl_workload cl)))) as [[]|err] eqn:Hvalid.
  2:{ unfold ListEdgeDeliveries, ClientListEdgeDeliveries. rewrite Hvalid. by destruct (_ || _). }
  pose proof (own_request _ _ Hafter Hvalid) as Hown.
  assert (Hsame : server_query sv cl (page_request after limit) = with_principal (page_request after limit) (wl_principal (cl_workload cl)))
    by (unfold server_query, with_principal; cbn [page_request dq_TenantID]; by rewrite Htenant).
  rewrite (http_page api sv cl tls Hworkload _ db Hown).
  - change (ad_ListEdgeDeliveries api) with ListEdgeDeliveries. rewrite Hsame. cbn [snd].
    destruct (ListEdgeDeliveries _ db) as [page|] eqn:Hlist; [|done]. destruct (own_page _ _ _ Hafter Hlist) as (_ & _ & ->).
    destruct (_ <=? maxResponseBytes); [|by rewrite andb_false_r]. by destruct (_ <=? _).
  - intros p Hp. change (ad_ListEdgeDeliveries api) with ListEdgeDeliveries in Hp. rewrite Hsame in Hp.
    destruct (own_page _ _ _ Hafter Hp) as (Hsmall & Hnum & _). by apply small_page_printable.
Qed.

Lemma http_delivery_row q d : PgTx.deliveries db !! (own_key, q) = Some d ->
  exists page, dp_Deliveries page = [d] /\ pa_ListEdgeDeliveries http_authority (page_request (q - 1) 1) = Ok page.
Proof using Hreach Hactive Hworkload Hbig Hshort Htenant Hplain Hgeneration.
  intros Hd. pose proof (control_reachable_inv _ _ Hreach) as Hinv.
  destruct (an_delivery _ _ _ _ _ (store_answers _ _ _ _ _ Hinv Hactive) _ _ Hd) as (page & Hone & Hlist).
  exists page. split; [done|]. change (ListEdgeDeliveries (with_principal (page_request (q - 1) 1) (wl_principal (cl_workload cl))) db = Ok page) in Hlist.
  pose proof (inv_log _ (ci_ledger _ _ Hinv)) as Hlog. pose proof (proj1 (log_dense _ Hlog _ _) (ex_intro _ _ Hd)) as Hq.
  pose proof (bi_sequence _ Hbig _ _ _ Hd) as Hmax.
  assert (Hafter : q - 1 <= dp_HighWatermark page).
  { pose proof Hlist as (Hhw & _)%ListEdgeDeliveries_page; [|done]. cbn in Hhw. fold own_key in Hhw. lia. }
  rewrite http_page_read, Hlist, (proj2 (Z.leb_le _ _) Hafter) by lia.
  destruct (own_page (q - 1) 1 page ltac:(lia) Hlist) as (Hsmall & Hnum & _).
  by rewrite (proj2 (Z.leb_le _ _)) by (apply small_page_fits; [done..|rewrite Hone; cbn; lia]).
Qed.

(** Over HTTP an edge reads the evidence of its own deliveries exactly. *)
Lemma http_evidence : answers_evidence s http_authority db (wl_edge (cl_workload cl)) (wl_generation (cl_workload cl)).
Proof using All. constructor; [apply http_registry_row|apply http_delivery_row]. Qed.
(** *** The case *)
Hypothesis Hzone : forall t, -1440 < sv_zone sv t < 1440.

Lemma case_expiry_set id c : PgTx.cases db !! (ct_tenant s, id) = Some c -> is_zero_time (cs_ExpiresAt c) = false.
Proof using Hreach.
  intros Hc. pose proof (control_reachable_inv _ _ Hreach) as Hinv.
  destruct (ci_case _ _ Hinv _ _ _ Hc) as [(ck & dbs & w & raw & r & Ha & _ & Hv & Hrow & _) _].
  apply case_admission in Ha as (e & record & v & key & b & em & ex & [_ [_ Hex] _ _ _ _ _ _ _ Hreq]).
  unfold validate_case in Hv. inv_result. bools.
  assert (cc_ExpiresAt r = ex) as Hr by by rewrite Hreq. rewrite Hrow. cbn [case_row cs_ExpiresAt]. rewrite Hr in *.
  replace (pg_time ex) with ex by (symmetry; by eapply ParseTimestamp_micro). done.
Qed.

Section Case.
Context (id : string) (c : CaseRecord).
Context (e er : Envelope) (g : RegistryRecord) (vv : Verified) (key : RegisteredKey) (b : verifiedCaseBody) (em ex : Z).
Hypothesis Hcase : PgTx.cases db !! (ct_tenant s, id) = Some c.
Hypothesis Hown : cs_IssuerEdgeID c = wl_edge (cl_workload cl) /\ cs_IssuerEdgeGeneration c = wl_generation (cl_workload cl).
Hypothesis Hrow : case_row_evidence s db c e er g vv key b em ex.
Hypothesis Hyear : four_digit_year (cs_ExpiresAt c + sv_zone sv (cs_ExpiresAt c) * minute) = true.

(** The edge of the case, in its registry, still belongs to the workload. *)
Lemma case_owner : rk_principal key = wl_principal (cl_workload cl) /\
  exists x, rg_edges (ve_snapshot vv) !! cs_IssuerEdgeID c = Some x /\
    ed_generation x = cs_IssuerEdgeGeneration c /\ ed_principal x = wl_principal (cl_workload cl).
Proof using Hreach Hactive Hcase Hown Hrow.
  destruct (case_edge_registered _ _ _ _ _ _ _ _ _ _ _ Hrow Hcase) as (x & Hx & Hxg).
  destruct (cre_registry _ _ _ _ _ _ _ _ _ _ _ Hrow) as (Hg & Hev & _ & now & Hlive).
  destruct (marked_registry _ _ _ (control_reachable_marks _ _ Hreach) Hg) as (er' & vv' & Hev' & Hmarks).
  destruct (evidence_unique _ _ _ _ _ _ _ Hev Hev' Hlive) as [-> ->].
  destruct Hactive as (Hp & h & hw & _ & _ & Hhw & Hhp & Hhg & _). destruct Hown as [Hoe Hog].
  destruct (Hmarks _ _ Hx) as (hw' & Hhw' & Hc). rewrite Hoe, Hhw in Hhw'. injection Hhw' as <-.
  assert (Hprin : ed_principal x = wl_principal (cl_workload cl)) by (destruct Hc as [|[_ ?]]; [lia|congruence]).
  split; [|by exists x]. pose proof (cre_body _ _ _ _ _ _ _ _ _ _ _ Hrow) as Hb. unfold authorizeCase in Hb.
  pose proof (cre_row _ _ _ _ _ _ _ _ _ _ _ Hrow) as (_ & _ & _ & _ & He & _).
  destruct (decode_verified_case (Body e)) as [b'|]; [|done]. cbn [must mbind result_bind] in Hb.
  destruct (issuer_unauthorized _ _ _ _ b') eqn:Hi; [done|]. injection Hb as <-.
  unfold issuer_unauthorized in Hi. rewrite <- He, Hx in Hi. cbn [default Datatypes.id] in Hi. bools. congruence.
Qed.

Lemma http_case_read : plain_id id = true ->
  (readable e er (ve_snapshot vv) key -> answers_case http_authority id c) /\
  (~ readable e er (ve_snapshot vv) key -> no_answer http_authority id c).
Proof using All.
  intros Hid. pose proof (control_reachable_inv _ _ Hreach) as Hinv. destruct case_owner as [Hkey Hedge].
  destruct (case_identifiers _ _ _ _ _ Hinv Hcase) as (_ & Hidn & He & Hg & Hcm & _ & Hen & _).
  destruct (control_case db id c (cl_workload cl) e er g vv key b em ex Hinv Hcase Hrow (proj1 Hactive) Hkey Hedge Hown) as [Hyes Hno].
  destruct (small_case_fits _ _ (row_small_case db Hinv Hbig Hshort _ _ Hcase (Hzone _) Hyear)) as [Hprint Hfit].
  destruct (facts_case _ (inv_facts _ (ci_ledger _ _ Hinv)) _ _ _ Hcase) as (_ & Hcid & _).
  pose proof (cre_row _ _ _ _ _ _ _ _ _ _ _ Hrow) as (_ & _ & _ & Hdom & _ & _ & _ & _ & _ & _ & Hrev).
  destruct (cre_wire _ _ _ _ _ _ _ _ _ _ _ Hrow) as (Hdec & Hw & Hsc).
  destruct (case_bodies _ _ Hdec Hw Hsc) as (b' & Hb' & _ & _ & Hdne & _).
  assert (b' = b) as ->.
  { pose proof (cre_body _ _ _ _ _ _ _ _ _ _ _ Hrow) as Hb. unfold authorizeCase in Hb. rewrite Hb' in Hb. cbn [must mbind result_bind] in Hb.
    destruct (issuer_unauthorized _ _ _ _ _); [done|]. by injection Hb. }
  pose proof (http_case api sv cl tls Hworkload id (cs_Commitment c) db Hid (non_blank_nonempty _ Hidn) (client_commitment _ Hcm)) as Hread.
  change (ad_ResolveCase api) with (fun w i cm d => ControlResolveCase s clock (fun _ => d) w i cm) in Hread. cbn beta in Hread.
  unfold answers_case, no_answer, http_authority, projectionAuthorityClient. cbn [pa_ResolveCase]. split.
  - intros Hr. rewrite (Hyes Hr) in Hread. rewrite Hread by (intros r Hr'; by injection Hr' as <-).
    rewrite (proj2 (Z.leb_le _ _) Hfit). unfold check_case. cbn [snd].
    rewrite Hcid, !String.eqb_refl, (raw_nonempty _ _ Hdec), (case_expiry_set _ _ Hcase), Hdom.
    rewrite !(proj2 (String.eqb_neq _ "")) by first [done | by apply non_blank_nonempty].
    by rewrite !(proj2 (Z.leb_gt _ _)) by lia.
  - intros (err & Herr)%Hno. rewrite Herr in Hread. rewrite Hread by done. cbn. eauto.
Qed.

Lemma http_case_unreadable : plain_id id = false -> no_answer http_authority id c.
Proof using All.
  intros Hid. pose proof (control_reachable_inv _ _ Hreach) as Hinv.
  destruct (case_identifiers _ _ _ _ _ Hinv Hcase) as (_ & _ & _ & _ & Hcm & _).
  destruct (http_case_refused api sv cl tls Hworkload id (cs_Commitment c) db Hid (client_commitment _ Hcm)) as (st & code & Hr).
  unfold no_answer, http_authority, projectionAuthorityClient. cbn [pa_ResolveCase]. rewrite Hr. cbn. eauto.
Qed.
End Case.

End Reads.
End Deployment.
