(* ===== verification/HttpDelivery.v ===== *)
(** * What reading the authority over HTTP does to an edge

    The verdicts on deliveries, the pages of a reconciliation and the deliveries
    that an edge cannot pass, when its authority is the control plane behind the
    client and the server. *)
From stdpp Require Import gmap.
From S2P Require Import Prelude GoText GoStrconv GoTime GoJson GoJsonRead GoBase64 GoUtf8 GoJsonWire GoUrl Sha256 DeliveryStream Authority PgTx AuthorityStore.
From S2P Require Import OutboxWorker AuthorityOutbox AuthoritySpec AuthorityInv AuthorityTheorems AuthorityReads.
From S2P Require Import SspGuard SspBody SspRegistry SspEnvelope SspTheorems Registry RegistryTheorems ControlApi.
From S2P Require Import SqliteTx EdgeStore EdgeApply EdgeConsumer EdgeRecovery EdgeVerifier ControlTheorems ControlSystem ControlEdge.
From S2P Require Import GoJsonPrint ControlHttp ControlClient HttpTheorems HttpBounds HttpEdge.
Open Scope string_scope.
Open Scope Z_scope.
Open Scope snag_scope.

(** The same computation has one result. *)
Ltac determined := repeat match goal with
  | H1 : ?t = Ok ?a, H2 : ?t = Ok ?b |- _ => rewrite H1 in H2; injection H2 as <-
  | H1 : ?t = Some ?a, H2 : ?t = Some ?b |- _ => rewrite H1 in H2; injection H2 as <-
  end.

Section Deployment.
Context {JC : Jcs} {ED : Ed25519} (s : ControlService) (sv : Server) (cl : Client) (tls : option ConnectionState).
Context (clock : nat -> Z) (envs : nat -> AttemptEnv) (others : nat -> DB -> DB).

(** A deployment: a reachable ledger with BIGINT columns, a server of its
    tenant, and a client with the certificate of an active edge. *)
Record deployed (db : DB) : Prop := {
  de_reachable : control_reachable s db;
  de_bigints : bigints db;
  de_tenant : short (ct_tenant s) /\ sv_tenant sv = ct_tenant s;
  de_workload : workload sv tls = Some (cl_workload cl);
  de_edge : plain_id (wl_edge (cl_workload cl)) = true /\ nat64 (wl_generation (cl_workload cl));
  de_active : edge_active s db (wl_edge (cl_workload cl)) (wl_generation (cl_workload cl)) (wl_principal (cl_workload cl));
  de_zone : forall t, -1440 < sv_zone sv t < 1440 }.

Definition edge_identity : EdgeIdentity :=
  {| ei_TenantID := ct_tenant s; ei_EdgeID := wl_edge (cl_workload cl); ei_Generation := wl_generation (cl_workload cl) |}.
Definition http_verifier (db : DB) : AuthorityVerifier :=
  mkAuthorityVerifier (ct_tenant s) (http_authority s sv cl tls clock envs others db) (ct_trust s).

(** The page source of the reconciler. *)
Definition http_source (db : DB) (q : EdgeDeliveryQuery) : result string EdgeDeliveryPage :=
  match pa_ListEdgeDeliveries (http_authority s sv cl tls clock envs others db) q with
  | Ok page => Ok page
  | Err _ => Err "controlclient"
  end.
Definition http_reconciler (limit : Z) (db : DB) : Reconciler := authorityFetchAfter (http_source db) limit.

Section Facts.
Context (db : DB) (Hdep : deployed db).

Lemma deployed_evidence : answers_evidence s (http_authority s sv cl tls clock envs others db) db
  (wl_edge (cl_workload cl)) (wl_generation (cl_workload cl)).
Proof using Hdep. destruct Hdep as [? ? [? ?] ? [? ?] ? ?]. by apply http_evidence. Qed.

(** The case behind a delivery, and whether control returns it now. *)
Lemma deployed_case id c : PgTx.cases db !! (ct_tenant s, id) = Some c ->
  cs_IssuerEdgeID c = wl_edge (cl_workload cl) -> cs_IssuerEdgeGeneration c = wl_generation (cl_workload cl) ->
  exists e er g vv key b em ex, case_row_evidence s db c e er g vv key b em ex /\
    (four_digit_year (cs_ExpiresAt c + sv_zone sv (cs_ExpiresAt c) * minute) = true -> plain_id id = true ->
     readable clock e er (ve_snapshot vv) key -> answers_case (http_authority s sv cl tls clock envs others db) id c) /\
    (four_digit_year (cs_ExpiresAt c + sv_zone sv (cs_ExpiresAt c) * minute) = true ->
     plain_id id = false \/ ~ readable clock e er (ve_snapshot vv) key ->
     no_answer (http_authority s sv cl tls clock envs others db) id c).
Proof using Hdep.
  intros Hc He Hg. destruct Hdep as [Hr Hb [Hs Ht] Hw [Hp Hn] Ha Hz]. pose proof (control_reachable_inv _ _ Hr) as Hinv.
  destruct (case_has_evidence _ _ _ _ Hinv Hc) as (e & er & g & vv & key & b & em & ex & Hrow).
  exists e, er, g, vv, key, b, em, ex. split; [done|].
  pose proof (fun Hy => http_case_read s sv cl tls clock envs others db Hr Hb Hs Ht Hw Hp Hn Ha Hz id c e er g vv key b em ex Hc (conj He Hg) Hrow Hy) as Hread.
  pose proof (fun Hy => http_case_unreadable s sv cl tls clock envs others db Hr Hb Hs Ht Hw Hp Hn Ha Hz id c e er g vv key b em ex Hc (conj He Hg) Hrow Hy) as Hun.
  split; [intros Hy Hid; by apply (Hread Hy Hid)|]. intros Hy [Hid|Hno]; [by apply Hun|].
  destruct (plain_id id) eqn:Hid; [by apply (Hread Hy eq_refl)|by apply Hun].
Qed.

(** ** Deliveries an edge cannot pass

    A delivery of the edge's log whose envelope was emitted in the window of its
    registry, but whose case control does not return: its identifier does not
    travel in a path, or it is not live when control reads it. *)
Definition stuck (x : EdgeDelivery) : Prop :=
  exists c g e er em ec, PgTx.cases db !! (ct_tenant s, ed_CaseID x) = Some c /\
    registries db !! (ct_tenant s, cs_RegistryRevision c) = Some g /\
    decodeStrictEnvelope (ed_Raw x) = Ok e /\ decodeStrictEnvelope (rr_Raw g) = Ok er /\
    ParseTimestamp (EmittedAt e) = Some em /\ live er em /\ decodeStrictEnvelope (cs_Raw c) = Ok ec /\
    four_digit_year (cs_ExpiresAt c + sv_zone sv (cs_ExpiresAt c) * minute) = true /\
    (plain_id (ed_CaseID x) = false \/ ~ live ec (clock 2%nat)).

Lemma stuck_transient q x d : PgTx.deliveries db !! (own_key s cl, q) = Some x -> stuck x ->
  delivers s d (wl_edge (cl_workload cl)) (wl_generation (cl_workload cl)) q (ed_Raw x) ->
  exists why, VerifyDelivery (http_verifier db) d = Err (Transient why).
Proof using Hdep.
  intros Hx (c & g & e & er & em & ec & Hc & Hg & Hdec & Hder & Hem & Hl & Hdc & Hy & Hwhy) Hd.
  pose proof (control_reachable_inv _ _ (de_reachable _ Hdep)) as Hinv. pose proof deployed_evidence as Hans.
  destruct (facts_delivery _ (inv_facts _ (ci_ledger _ _ Hinv)) _ _ _ _ _ Hx) as (c' & Hc' & Hkey & Hrow).
  rewrite Hc in Hc'. injection Hc' as <-. injection Hkey as Hke Hkg.
  destruct (deployed_case _ _ Hc Hke Hkg) as (e1 & er1 & g1 & vv & key & b & em1 & ex & Hev & _ & Hno).
  assert (Hna : no_answer (http_authority s sv cl tls clock envs others db) (ed_CaseID x) c).
  { apply Hno; [done|]. destruct Hwhy as [|Hwhy]; [by left|right]. destruct (cre_wire _ _ _ _ _ _ _ _ _ _ _ Hev) as (Hd1 & _).
    rewrite Hdc in Hd1. injection Hd1 as <-. unfold readable. tauto. }
  rewrite <- Hke, <- Hkg in Hans, Hd. destruct Hrow as [Hrow|(a & Ha & Hrow)].
  - assert (Hraw : ed_Raw x = cs_Raw c) by by rewrite Hrow. rewrite Hraw in Hd, Hdec.
    assert (Hx' : PgTx.deliveries db !! (row_edge_key (ct_tenant s) c, q) = Some (delivery_of_case c q)).
    { unfold row_edge_key. by rewrite Hke, Hkg, <- Hrow. }
    destruct (case_at_edge s db (http_verifier db) _ c d Hinv Hc eq_refl eq_refl Hans q Hx' Hd)
      as (g2 & e2 & er2 & em2 & p & Hg2 & He2 & Her2 & Hem2 & _ & _ & _ & Ht & _).
    determined. eexists. by apply Ht.
  - assert (Hraw : ed_Raw x = av_Raw a) by by rewrite Hrow. rewrite Hraw in Hd, Hdec.
    assert (Hs : ed_Sequence x = q) by apply (log_sequence _ (inv_log _ (ci_ledger _ _ Hinv)) _ _ _ Hx).
    assert (Hs' : ed_Sequence x = av_DeliverySequence a) by by rewrite Hrow. rewrite <- Hs, Hs' in Hd.
    destruct (advice_at_edge s db (http_verifier db) _ c d Hinv Hc eq_refl eq_refl Hans a Ha Hd)
      as (g2 & e2 & ec2 & er2 & em2 & emc & p & Hg2 & He2 & Hec2 & Her2 & Hem2 & _ & _ & _ & _ & Ht & _).
    determined. eexists. by apply Ht.
Qed.
(** What the reconciler fetches over HTTP is what the store would give it. *)
Lemma http_fetch limit after batch : after <= int64_max ->
  http_reconciler limit db edge_identity after = Ok batch ->
  authority_reconciler (wl_principal (cl_workload cl)) limit db edge_identity after = Ok batch.
Proof using Hdep.
  intros Hafter. destruct Hdep as [Hr Hb [Hs Ht] Hw [Hp Hn] Ha Hz].
  unfold http_reconciler, authority_reconciler, authorityFetchAfter, http_source, authority_source.
  change (reconcile_query limit edge_identity after) with (page_request s cl after limit).
  rewrite http_page_read by done. change (EdgeRecovery.with_principal (wl_principal (cl_workload cl)) (page_request s cl after limit))
    with (with_principal (page_request s cl after limit) (wl_principal (cl_workload cl))).
  destruct (negb (identity_valid _)); [done|]. destruct (after <? 0); [done|].
  destruct (ListEdgeDeliveries _ db) as [page|]; [by destruct ((after <=? _) && _)|done].
Qed.

(** A batch that starts at a stuck delivery is not applied at all. *)
Lemma stuck_batch `{AEAD} tenant limit q x batch rv now e : PgTx.deliveries db !! (own_key s cl, q) = Some x -> stuck x ->
  (forall k, rv_verify rv k = VerifyDelivery (http_verifier db)) -> http_reconciler limit db edge_identity (q - 1) = Ok batch ->
  contiguous edge_identity (rb_Deliveries batch) (q - 1 + 1) = true ->
  rb_HighWatermark batch = next_sequence db (own_key s cl) - 1 /\
  (applyBatch tenant edge_identity rv now 0 (rb_Deliveries batch) e = (e, O, None) /\ rb_Deliveries batch = [] \/
   exists why, applyBatch tenant edge_identity rv now 0 (rb_Deliveries batch) e = (e, O, Some why)).
Proof using Hdep.
  intros Hx Hst Hverify Hf Hcont. pose proof (control_reachable_inv _ _ (de_reachable _ Hdep)) as Hinv.
  pose proof (inv_log _ (ci_ledger _ _ Hinv)) as Hlog. pose proof (bi_sequence _ (de_bigints _ Hdep) _ _ _ Hx) as Hmax.
  apply http_fetch in Hf; [|lia]. apply (authority_fetch_ok _ _ _ _ _ _ Hlog) in Hf as [Hhigh Hauth]. split; [done|].
  destruct (rb_Deliveries batch) as [|d l]; [by left|right]. cbn [contiguous] in Hcont. cbn [applyBatch].
  apply List.Forall_cons_iff in Hauth as [(x' & Hx' & Hraw) _].
  unfold delivery_expected in Hcont. replace (q - 1 + 1) with q in Hcont by lia. bools.
  assert (x' = x) as ->.
  { assert (Hk : key_of (delivery_identity d) = own_key s cl)
      by (unfold key_of, delivery_identity, own_key; cbn [edge_identity ei_TenantID ei_EdgeID ei_Generation] in *; congruence).
    rewrite Hk in Hx'. match goal with H : jd_DeliverySeq d = q |- _ => rewrite H in Hx' end. enough (Some x' = Some x) as [=] by done. etrans; [symmetry; exact Hx'|exact Hx]. }
  destruct (stuck_transient q x d Hx Hst) as [why Hwhy]; [by constructor|].
  unfold consumer_apply. rewrite Hverify, Hwhy. eauto.
Qed.
End Facts.

(** C16: what an edge decides about its own case when it reads the authority over
    HTTP.  In every state of the control plane, for an active edge with its
    own certificate, the delivery of a committed case of its log is refused for
    good exactly when the registry of the case was not live at its emission.
    Otherwise the edge accepts it, with the committed identity and binding, when
    the case identifier travels as one path segment and control can verify the
    case at the clock of the request; if not, the verdict on this attempt is
    transient (resolve authority case).  The expiry of the case must have a
    four-digit year in the zone of the server, since the reply prints it there. *)
Theorem case_delivery_over_http db id c q d :
  deployed db -> PgTx.cases db !! (ct_tenant s, id) = Some c ->
  row_edge_key (ct_tenant s) c = own_key s cl ->
  PgTx.deliveries db !! (own_key s cl, q) = Some (delivery_of_case c q) ->
  delivers s d (wl_edge (cl_workload cl)) (wl_generation (cl_workload cl)) q (cs_Raw c) ->
  four_digit_year (cs_ExpiresAt c + sv_zone sv (cs_ExpiresAt c) * minute) = true ->
  exists g e er em vv key p,
    registries db !! (ct_tenant s, cs_RegistryRevision c) = Some g /\
    decodeStrictEnvelope (cs_Raw c) = Ok e /\ decodeStrictEnvelope (rr_Raw g) = Ok er /\
    ParseTimestamp (EmittedAt e) = Some em /\
    (forall now, VerifyRoot (ct_trust s) now (rr_Raw g) = Ok vv <-> live er now) /\
    rg_keys (ve_snapshot vv) !! AuthorKeyID e = Some key /\
    projects_case p c /\ storable d p /\
    (live er em -> plain_id id = true -> readable clock e er (ve_snapshot vv) key ->
       VerifyDelivery (http_verifier db) d = Ok (Some p)) /\
    (live er em -> plain_id id = false \/ ~ readable clock e er (ve_snapshot vv) key ->
       VerifyDelivery (http_verifier db) d = Err (Transient "resolve authority case")) /\
    (~ live er em -> VerifyDelivery (http_verifier db) d = Err (Permanent "invalid_registry_proof")).
Proof.
  intros Hdep Hc Hkey Hx Hd Hy. pose proof (control_reachable_inv _ _ (de_reachable _ Hdep)) as Hinv.
  injection Hkey as Hke Hkg. pose proof (deployed_evidence db Hdep) as Hans. rewrite <- Hke, <- Hkg in Hans, Hd.
  destruct (deployed_case db Hdep _ _ Hc Hke Hkg) as (e & er & g & vv & key & b & em & ex & Hev & Hyes & Hno).
  assert (Hx' : PgTx.deliveries db !! (row_edge_key (ct_tenant s) c, q) = Some (delivery_of_case c q))
    by (unfold row_edge_key; by rewrite Hke, Hkg).
  destruct (case_at_edge s db (http_verifier db) _ c d Hinv Hc eq_refl eq_refl Hans q Hx' Hd)
    as (g2 & e2 & er2 & em2 & p & Hg2 & He2 & Her2 & Hem2 & Hp & Hst & H1 & H2 & H3).
  destruct (cre_wire _ _ _ _ _ _ _ _ _ _ _ Hev) as (Hdec & _). destruct (cre_times _ _ _ _ _ _ _ _ _ _ _ Hev) as (Hem & _).
  destruct (cre_registry _ _ _ _ _ _ _ _ _ _ _ Hev) as (Hg & Hreg & _).
  pose proof (cre_row _ _ _ _ _ _ _ _ _ _ _ Hev) as (_ & _ & _ & _ & _ & _ & _ & Hrv & _).
  destruct (cre_binding _ _ _ _ _ _ _ _ _ _ _ Hev) as (Hn & _). rewrite Hn, <- Hrv in Hg.
  destruct (re_wire _ _ _ _ Hreg) as (Hder & _).
  assert (g2 = g) as -> by congruence. assert (e2 = e /\ er2 = er) as [-> ->] by (split; congruence). assert (em2 = em) as -> by congruence.
  exists g, e, er, em, vv, key, p. split_and!; try done.
  - intros now. apply (re_proof _ _ _ _ Hreg).
  - pose proof (cre_key _ _ _ _ _ _ _ _ _ _ _ Hev) as Hk. unfold verifyRegisteredEnvelope in Hk.
    cbn [header_of hd_author] in Hk. destruct (rg_keys _ !! _) as [k|]; [|done]. inv_result. by repeat case_match; simplify_eq.
  - intros Hl Hid Hr. apply H1; [done|]. by apply Hyes.
  - intros Hl Hr. apply H2; [done|]. by apply Hno.
Qed.

(** C17: a delivery whose case control no longer returns stops its edge.  For an
    active edge that reads the authority over HTTP, take the next delivery of
    its log, a case or the advice of a case, emitted in the window of its registry,
    whose case is not live at the clock with which control reads it (or has an
    identifier that is not one path segment).  Handling that delivery from the stream fails
    and changes nothing, and the carrier is told to deliver it again; and every
    reconciliation pass, with any page limit, leaves the edge where it was and
    does not resume it.  This holds of each single attempt, in any state of the
    ledger and of the edge and at any clock where the delivery is in that
    condition; the expiry of the case must have a four-digit year in the zone of
    the server. *)
Theorem unreadable_case_stalls_edge `{AEAD} tenant db q x c :
  deployed db -> PgTx.deliveries db !! (own_key s cl, q) = Some x -> stuck db x ->
  last_of (co_db c) (key_of edge_identity) = q - 1 ->
  (forall m msg now env c' r calls, msg_Metadata msg = Ok m -> co_halted c = false ->
     delivers s (journal_of m msg) (wl_edge (cl_workload cl)) (wl_generation (cl_workload cl)) q (ed_Raw x) ->
     Process tenant edge_identity (VerifyDelivery (http_verifier db)) msg now env c = (c', r, calls) ->
     c' = c /\ calls = [CallNak]) /\
  (forall limit rv now c' r, (forall k, rv_verify rv k = VerifyDelivery (http_verifier db)) ->
     Reconcile (H0 := http_reconciler limit db) tenant edge_identity rv now c = (c', r) ->
     co_db c' = co_db c /\ co_halted c' = co_halted c /\ forall res, r = Ok res -> rr_Resumed res = false).
Proof.
  intros Hdep Hx Hst Hlast. split.
  - intros m msg now env c' r calls Hm Hh Hd Hrun. destruct (stuck_transient db Hdep q x _ Hx Hst Hd) as [why Hwhy].
    pose proof (logged_positive _ _ _ _ _ (control_reachable_inv _ _ (de_reachable _ Hdep)) Hx) as Hq.
    destruct Hd as [Hdt Hde Hdg Hdq _]. unfold Process, Handle in Hrun.
    rewrite Hh, Hm, Hdt, Hde, Hdg, Hdq, (proj2 (Z.leb_gt _ _) Hq) in Hrun. cbn [edge_identity ei_TenantID ei_EdgeID ei_Generation] in Hrun.
    rewrite !String.eqb_refl, Z.eqb_refl in Hrun. cbn [negb orb] in Hrun. unfold consumer_apply in Hrun. rewrite Hwhy in Hrun.
    injection Hrun as <- _ <-. split; [|done]. destruct c. cbn in *. by rewrite Hh.
  - intros limit rv now c' r Hv Hrun. pose proof Hrun as Hcases.
    apply Reconcile_cases in Hcases as [(-> & -> & e & ->)|(batch & e1 & n & e & Hf & Hc & Hl & Hb & Hend)]; [done|].
    rewrite Hlast in Hf, Hc, Hl. destruct (stuck_batch db Hdep tenant limit q x batch rv now (co_db c) Hx Hst Hv Hf Hc) as [Hhigh Hcase].
    assert (e1 = co_db c) as -> by (destruct Hcase as [[E _]|[why E]]; congruence).
    assert (Hhalt : co_halted c = true).
    { unfold Reconcile in Hrun. destruct (co_halted c) eqn:Eh; [done|]. cbn [negb] in Hrun. injection Hrun as <- <-.
      destruct Hend as [(_ & E & _)|(_ & _ & _ & _ & _ & _ & E)]; congruence. }
    destruct Hend as [(-> & -> & Hres)|(-> & _ & _ & Hlow & _ & _ & _)]; [by rewrite Hhalt|]. exfalso.
    pose proof (inv_log _ (ci_ledger _ _ (control_reachable_inv _ _ (de_reachable _ Hdep)))) as Hlog.
    pose proof (proj1 (log_dense _ Hlog _ _) (ex_intro _ _ Hx)) as Hq.
    destruct Hcase as [[_ Hnil]|[why E]]; [|congruence]. lia.
Qed.

(** C18: the size of a page over HTTP.  The server puts a whole page in one reply
    and the client reads at most 1 MiB of it.  For an active edge and any page
    of its log that the store returns, a page of at most ten deliveries is read
    exactly as the store has it, whatever the committed envelopes; but a page
    with more than 786,432 bytes of envelopes is never read: the client reports
    an error, and a reconciliation that needs this page changes nothing and
    fails, every time. *)
Theorem http_page_bounds `{AEAD} tenant db after limit page c :
  deployed db -> after <= int64_max ->
  ListEdgeDeliveries (with_principal (page_request s cl after limit) (wl_principal (cl_workload cl))) db = Ok page ->
  after <= dp_HighWatermark page ->
  ((length (dp_Deliveries page) <= 10)%nat -> http_source db (page_request s cl after limit) = Ok page) /\
  (786432 < raw_size (dp_Deliveries page) -> http_source db (page_request s cl after limit) = Err "controlclient" /\
     (last_of (co_db c) (key_of edge_identity) = after -> forall rv now, exists e,
        Reconcile (H0 := http_reconciler limit db) tenant edge_identity rv now c = (c, Err e))).
Proof.
  intros Hdep Hmax Hlist Hafter. pose proof Hdep as [Hr Hb [Hs Ht] Hw [Hp Hn] Ha Hz].
  destruct (own_page s sv cl tls clock envs others db Hr Hb Hs Hp Hn Ha after limit page Hmax Hlist) as (Hsmall & Hnum & _).
  pose proof (http_page_read s sv cl tls clock envs others db Hr Hb Hs Ht Hw Hp Hn Ha after limit Hmax) as Hread.
  rewrite Hlist, (proj2 (Z.leb_le _ _) Hafter) in Hread. cbn [andb] in Hread. split.
  - intros Hten. unfold http_source. rewrite Hread. by rewrite (proj2 (Z.leb_le _ _) (small_page_fits _ Hsmall Hnum Hten)).
  - intros Hbig. assert (Hsource : http_source db (page_request s cl after limit) = Err "controlclient").
    { unfold http_source. by rewrite Hread, (proj2 (Z.leb_gt _ _) (large_page_cut _ Hsmall Hnum Hbig)). }
    split; [done|]. intros Hlast rv now. unfold Reconcile. destruct (negb (co_halted c)); [eauto|].
    unfold DeliveryState. destruct (negb (identity_valid _)); [eauto|]. destruct (rv_state1 rv); [eauto|].
    assert (Hl : sr_last (match delivery_state (co_db c) !! key_of edge_identity with Some r => r | None => fresh_state end) = after)
      by (unfold last_of in Hlast; by destruct (delivery_state _ !! _)).
    rewrite Hl. unfold FetchAfter, http_reconciler, authorityFetchAfter.
    change (reconcile_query limit edge_identity after) with (page_request s cl after limit). rewrite Hsource.
    destruct (negb _); [eauto|]. destruct (after <? 0); eauto.
Qed.

(** A submission of the service, as a run and with the receipt it gives. *)
Lemma submitted db raw e db' answer :
  control_reachable s db -> (forall k d, rtc (control_step s) d (others k d)) -> decodeStrictEnvelope raw = Ok e -> bigints db' ->
  Submit s clock (fun _ => db) (cl_workload cl) raw envs others db = (db', answer) ->
  rtc (control_step s) db db' /\ forall rc, answer = Ok rc ->
    r_AuthorityID rc = ct_authority s /\ r_EnvelopeID rc = ID e /\ short (ID e) /\ short (r_Commitment rc) /\ nat64 (r_Revision rc) /\
    (r_Commitment rc <> "" /\ ID e <> "" /\ 0 < r_Revision rc) /\
    ((exists c, PgTx.cases db' !! (ct_tenant s, CaseID e) = Some c /\ cs_Raw c = raw /\
        cs_Commitment c = r_Commitment rc /\ cs_AuthorityRevision c = r_Revision rc) \/
     (exists a, PgTx.advice db' !! (ct_tenant s, CaseID e) = Some a /\ av_Raw a = raw /\
        av_Commitment a = r_Commitment rc /\ av_CommitRevision a = r_Revision rc)).
Proof.
  intros Hreach Hothers Hdec Hbig Hsub. pose proof (control_reachable_inv _ _ Hreach) as Hinv.
  assert (Hrun : rtc (control_step s) db db').
  { replace db' with (Submit s clock (fun _ => db) (cl_workload cl) raw envs others db).1 by by rewrite Hsub.
    apply Submit_run; [done|]. split; [apply Hinv|]. intros n. reflexivity. }
  split; [done|]. intros rc ->. assert (Hinv' : control_inv s db') by (apply control_reachable_inv; unfold control_reachable in *; by etrans).
  assert (Hlo : forall k d, rtc ledger_step d (others k d)) by (intros; by eapply store_run_ledger, control_run_store).
  pose proof (store_reachable_ledger _ (control_reachable_store _ _ Hreach)) as Hlr.
  unfold Submit in Hsub. destruct (admitWire _ _ _ _ _) as [[r|r]|] eqn:Ea; [..|done]; unfold lift_store in Hsub.
  - destruct (CommitCase _ _ _ _ _) as [d1 [rc1|]] eqn:Ec; [|done]. cbn in Hsub. injection Hsub as -> ->.
    destruct (CommitCase_ok _ _ _ Hlo _ _ _ _ Hlr Ec) as (_ & c & Hc & Hx & ->).
    apply case_admission in Ea as (e' & record & v & key & b & em & ex & [Hwire _ _ _ _ _ _ _ _ Hreq]).
    destruct Hwire as (Hdec' & Hwf & _). rewrite Hdec in Hdec'. injection Hdec' as <-.
    assert (Hr : cc_TenantID r = ct_tenant s /\ cc_CaseID r = CaseID e /\ cc_EnvelopeID r = ID e /\ cc_Raw r = raw) by (rewrite Hreq; done).
    destruct Hr as (Ht & Hid & Hen & Hraw). rewrite Ht, Hid in Hc.
    assert (Hcc : cs_Raw c = cc_Raw r /\ cs_Commitment c = cc_Commitment r) by (destruct Hx as [->|(_ & ? & ? & _)]; done).
    destruct (case_identifiers _ _ _ _ _ Hinv' Hc) as (_ & _ & _ & _ & Hcm & _).
    pose proof (rev_cases _ (inv_revision _ (ci_ledger _ _ Hinv')) _ _ Hc) as Hrev. pose proof (bi_revision _ Hbig) as Hb.
    cbn [receipt r_AuthorityID r_EnvelopeID r_Commitment r_Revision]. rewrite Hen. destruct Hcc as [Hcr Hcc]. rewrite <- Hcc.
    pose proof (proj1 (proj2 Hwf)) as Hopaque.
    split_and!; [done|done|by apply opaque_short|by apply commitment_short|unfold nat64, int64_max in *; lia..| | | |].
    + by intros E; rewrite E in Hcm.
    + by apply opaque_nonempty.
    + lia.
    + left. exists c. split_and!; [done|congruence|done|done].
  - destruct (CommitAdvice _ _ _ _ _) as [d1 [rc1|]] eqn:Ec; [|done]. cbn in Hsub. injection Hsub as -> ->.
    destruct (CommitAdvice_ok _ _ _ Hlo _ _ _ _ Hlr Ec) as (_ & a & Ha & Hx & ->).
    apply advice_admission in Ea as (e' & record & v & key & b & c & em & ex & [Hwire _ _ _ _ _ _ _ _ _ Hreq]).
    destruct Hwire as (Hdec' & Hwf & _). rewrite Hdec in Hdec'. injection Hdec' as <-.
    assert (Hr : ca_TenantID r = ct_tenant s /\ ca_CaseID r = CaseID e /\ ca_EnvelopeID r = ID e /\ ca_Raw r = raw) by (rewrite Hreq; done).
    destruct Hr as (Ht & Hid & Hen & Hraw). rewrite Ht, Hid in Ha.
    assert (Hcc : av_Raw a = ca_Raw r /\ av_Commitment a = ca_Commitment r) by by rewrite Hx.
    destruct (advice_identifiers _ _ _ _ _ Hinv' Ha) as (_ & Hcm & _).
    pose proof (rev_advice _ (inv_revision _ (ci_ledger _ _ Hinv')) _ _ Ha) as Hrev. pose proof (bi_revision _ Hbig) as Hb.
    cbn [receipt r_AuthorityID r_EnvelopeID r_Commitment r_Revision]. rewrite Hen. destruct Hcc as [Hcr Hcc]. rewrite <- Hcc.
    pose proof (proj1 (proj2 Hwf)) as Hopaque.
    split_and!; [done|done|by apply opaque_short|by apply commitment_short|unfold nat64, int64_max in *; lia..| | | |].
    + by intros E; rewrite E in Hcm.
    + by apply opaque_nonempty.
    + lia.
    + right. exists a. split_and!; [done|congruence|done|done].
Qed.

(** C19: a receipt that reaches a client is the authority's, and it is durable.  For
    a case or an advice of the client's own workload, posted to a server whose
    body limit it fits, with any faults, retries and concurrent commits at the
    store: the ledger moves by a run of the control plane, the client returns a
    receipt exactly when the service gave that receipt, and then the ledger
    holds exactly the posted bytes, as the case or the advice of the envelope,
    with the receipt's commitment and revision. *)
Theorem submit_over_http db raw e :
  control_reachable s db -> (forall k d, rtc (control_step s) d (others k d)) -> workload sv tls = Some (cl_workload cl) ->
  decodeStrictEnvelope raw = Ok e -> Schema e = SspFamilyCase \/ Schema e = SspFamilyAdvice ->
  MaxEnvelopeBytes <= sv_maxBodyBytes sv < 2 ^ 63 - 1 -> short (ct_authority s) -> ct_authority s <> "" ->
  let '(db', answer) := Submit s clock (fun _ => db) (cl_workload cl) raw envs others db in
  let '(seen, result) := ClientSubmit (over_http (api s clock envs others) sv tls) cl (cl_workload cl) raw db in
  bigints db' -> seen = db' /\ rtc (control_step s) db db' /\ forall rc, (result = Ok rc <-> answer = Ok rc) /\
    (result = Ok rc -> r_AuthorityID rc = ct_authority s /\ r_EnvelopeID rc = ID e /\
      ((exists c, PgTx.cases db' !! (ct_tenant s, CaseID e) = Some c /\ cs_Raw c = raw /\
          cs_Commitment c = r_Commitment rc /\ cs_AuthorityRevision c = r_Revision rc) \/
       (exists a, PgTx.advice db' !! (ct_tenant s, CaseID e) = Some a /\ av_Raw a = raw /\
          av_Commitment a = r_Commitment rc /\ av_CommitRevision a = r_Revision rc))).
Proof.
  intros Hreach Hothers Hw Hdec Hfam Hbody Hshort Hne.
  destruct (Submit s clock (fun _ => db) (cl_workload cl) raw envs others db) as [db' answer] eqn:Esub.
  destruct (ClientSubmit _ cl (cl_workload cl) raw db) as [seen result] eqn:Ecl. intros Hbig.
  pose proof (submitted db raw e db' answer Hreach Hothers Hdec Hbig Esub) as [Hrun Hans].
  pose proof (wire_size _ _ Hdec) as Hsize. pose proof (raw_nonempty _ _ Hdec) as Hnonempty. pose proof (len_nonneg raw) as Hpos.
  assert (Hread : ReadHeader raw = Ok (header_of e)) by (apply ReadHeader_exact; eauto).
  pose proof (http_submit (api s clock envs others) sv cl tls Hw raw (header_of e) db Hread Hfam) as Hhttp.
  change (ad_Submit (api s clock envs others)) with (fun w raw db => Submit s clock (fun _ => db) w raw envs others db) in Hhttp.
  cbn beta in Hhttp. rewrite Esub, Ecl in Hhttp. cbn [fst snd header_of hd_id] in Hhttp.
  apply Z.eqb_neq in Hnonempty. destruct answer as [rc0|err].
  - destruct (Hans rc0 eq_refl) as (Ha & Hid & Hsid & Hscm & Hnum & Hrow).
    assert (Hprint : printable_receipt rc0).
    { constructor; [|done]. each; [rewrite Ha|rewrite Hid|]; by apply short_text. }
    assert (Hfit : len (receiptResponse rc0) <= maxResponseBytes).
    { unfold receiptResponse. change maxResponseBytes with 1048576. open_lens. rewrite Ha, Hid.
      pose proof (len_short _ Hshort). pose proof (len_short _ Hsid). pose proof (len_short _ Hscm). pose proof (len_dec _ Hnum). lia. }
    rewrite (proj2 (Z.leb_le _ _) Hfit) in Hhttp. unfold check_receipt in Hhttp.
    assert (Hids : r_Commitment rc0 <> "" /\ ID e <> "" /\ 0 < r_Revision rc0) by apply Hrow.
    rewrite Ha, Hid, String.eqb_refl, (proj2 (String.eqb_neq _ _) Hne), (proj2 (Z.leb_gt _ _) (proj2 (proj2 Hids))) in Hhttp.
    rewrite (proj2 (String.eqb_neq _ _) (proj1 Hids)) in Hhttp. cbn [negb orb] in Hhttp.
    assert ((seen, result) = (db', Ok rc0)) as [= -> ->] by (apply Hhttp; [lia|lia|by intros r [= <-]]).
    split; [done|]. split; [done|]. intros rc. split; [by split; intros [= <-]|]. intros [= <-]. split_and!; try done. apply Hrow.
  - assert (seen = db' /\ exists x, result = Err x) as [-> [x ->]].
    { assert ((seen, result) = (db', Err (rejection (writeAdmissionError err)))) as [= -> ->] by (apply Hhttp; [lia|lia|done]). eauto. }
    split; [done|]. split; [done|]. intros rc. by split.
Qed.
End Deployment.
