(* ===== verification/HttpExample.v ===== *)
(** * The HTTP deployment, concretely

    The ledger of ControlExample.v behind a control server, read by its edge. *)
From stdpp Require Import gmap.
From S2P Require Import Prelude GoText GoStrconv GoTime GoJson GoJsonRead GoBase64 GoUtf8 GoJsonWire GoUrl Sha256 DeliveryStream Authority PgTx AuthorityStore.
From S2P Require Import OutboxWorker AuthorityOutbox AuthoritySpec AuthorityInv AuthorityTheorems AuthorityReads.
From S2P Require Import SspGuard SspBody SspRegistry SspEnvelope SspTheorems SspSign SspExample Registry RegistryTheorems ControlApi.
From S2P Require Import SqliteTx EdgeStore EdgeApply EdgeConsumer EdgeRecovery EdgeExample EdgeVerifier ControlTheorems ControlSystem ControlEdge ControlExample.
From S2P Require Import GoJsonPrint ControlHttp ControlClient HttpTheorems HttpBounds HttpEdge HttpDelivery.
Open Scope string_scope.
Open Scope Z_scope.
Open Scope snag_scope.

#[local] Existing Instance toy_jcs.
#[local] Existing Instance toy_ed25519.

Definition web_identities : gmap string Workload :=
  {["uri:spiffe://acme/edge-1" := ctl_edge_workload; "uri:spiffe://acme/dispatch" := ctl_dispatch_workload]}.
Definition web_server : Server :=
  match NewServer "acme" web_identities 0 0 (fun _ => 120) with
  | Some sv => sv
  | None => mkServer "" ∅ 0 0 (fun _ => 0)
  end.
Definition web_tls : option ConnectionState :=
  Some (mkConnection [mkCertificate ["Edge.Acme"] [] [] ["spiffe://acme/edge-1"]] true).
Definition web_client : Client :=
  match NewClient (Some (mkEndpoint "https" "" "control.acme" false "/" "" "" false "")) (Some (mkTLS VersionTLS13 false true 1))
          ctl_edge_workload 0 with
  | Some cl => cl
  | None => mkClient "" ctl_edge_workload 0
  end.

Lemma web_deployed : deployed ctl_service web_server web_client web_tls ctl_db3.
Proof.
  constructor.
  - apply ctl_reachable3.
  - constructor; [vm_compute; congruence|]. intros key q d Hd.
    assert (Hall : map_Forall (fun k (_ : EdgeDelivery) => k.2 <= int64_max) (PgTx.deliveries ctl_db3)).
    { apply (bool_decide_unpack _). vm_compute. exact I. }
    exact (Hall _ _ Hd).
  - split; [|reflexivity]. split; vm_compute; congruence.
  - vm_compute. reflexivity.
  - split; [vm_compute; reflexivity|]. split; vm_compute; congruence.
  - apply ctl_active.
  - intros t. change (sv_zone web_server t) with 120. lia.
Qed.

Lemma case_delivery_over_http_witness : exists g e er em vv key p,
    registries ctl_db3 !! ("acme", 1) = Some g /\
    decodeStrictEnvelope ctl_case_wire = Ok e /\ decodeStrictEnvelope (rr_Raw g) = Ok er /\
    ParseTimestamp (EmittedAt e) = Some em /\
    (forall now, VerifyRoot (ct_trust ctl_service) now (rr_Raw g) = Ok vv <-> live er now) /\
    rg_keys (ve_snapshot vv) !! AuthorKeyID e = Some key /\
    projects_case p ctl_case_row /\ storable (ctl_delivery 1 ctl_case_wire) p /\
    (live er em -> plain_id "case-1" = true -> readable ctl_clock e er (ve_snapshot vv) key ->
       VerifyDelivery (http_verifier ctl_service web_server web_client web_tls ctl_clock (fun _ => calm ex_later) (fun _ db => db) ctl_db3)
         (ctl_delivery 1 ctl_case_wire) = Ok (Some p)) /\
    (live er em -> plain_id "case-1" = false \/ ~ readable ctl_clock e er (ve_snapshot vv) key ->
       VerifyDelivery (http_verifier ctl_service web_server web_client web_tls ctl_clock (fun _ => calm ex_later) (fun _ db => db) ctl_db3)
         (ctl_delivery 1 ctl_case_wire) = Err (Transient "resolve authority case")) /\
    (~ live er em ->
       VerifyDelivery (http_verifier ctl_service web_server web_client web_tls ctl_clock (fun _ => calm ex_later) (fun _ db => db) ctl_db3)
         (ctl_delivery 1 ctl_case_wire) = Err (Permanent "invalid_registry_proof")).
Proof.
  apply (case_delivery_over_http ctl_service web_server web_client web_tls ctl_clock (fun _ => calm ex_later) (fun _ db => db)
    ctl_db3 "case-1" ctl_case_row 1 (ctl_delivery 1 ctl_case_wire)).
  - apply web_deployed.
  - apply ctl_rows.
  - reflexivity.
  - apply ctl_rows.
  - by constructor.
  - vm_compute. reflexivity.
Defined.

(** An hour after the case expired. *)
Definition web_late : nat -> Z := fun _ => ex_time "2026-01-01T02:00:00Z".

Lemma web_stuck : stuck ctl_service web_server web_late ctl_db3 (delivery_of_case ctl_case_row 1).
Proof.
  eexists ctl_case_row, _, _, _, _, _. split; [apply ctl_rows|]. split; [vm_compute; reflexivity|]. split; [vm_compute; reflexivity|].
  split; [vm_compute; reflexivity|]. split; [vm_compute; reflexivity|].
  split. { eexists _, _. split; [vm_compute; reflexivity|]. split; [vm_compute; reflexivity|]. split; vm_compute; congruence. }
  split; [vm_compute; reflexivity|]. split; [vm_compute; reflexivity|]. right.
  intros (a & b & _ & Hb & [_ Hlt]). vm_compute in Hb. injection Hb as <-. vm_compute in Hlt. done.
Qed.

#[local] Existing Instance toy_aead.
Definition web_envs : nat -> AttemptEnv := fun _ => calm ex_later.
Definition web_others : nat -> DB -> DB := fun _ db => db.
Definition web_halted : Consumer := {| co_db := empty_edge; co_halted := true |}.

(** The delivery of the case as a stream message, for a consumer that is not
    halted. *)
Definition web_active : Consumer := {| co_db := empty_edge; co_halted := false |}.
Definition web_message : JournalMessage :=
  {| msg_Metadata := Ok {| jm_Stream := "SSP"; jm_Sequence := 1; jm_DeliverySeq := 1; jm_TenantID := "acme";
       jm_EdgeID := wl_edge (cl_workload web_client); jm_EdgeGeneration := wl_generation (cl_workload web_client) |};
     msg_Subject := ""; msg_Data := ctl_case_wire; msg_DoubleAck := None; msg_Nak := None |}.

Lemma unreadable_case_stalls_edge_witness :
  (exists r, Process "acme" (edge_identity ctl_service web_client)
     (VerifyDelivery (http_verifier ctl_service web_server web_client web_tls web_late web_envs web_others ctl_db3))
     web_message 0 quiet web_active = (web_active, r, [CallNak])) /\
  (forall limit rv now c' r,
     (forall k, rv_verify rv k = VerifyDelivery (http_verifier ctl_service web_server web_client web_tls web_late web_envs web_others ctl_db3)) ->
     Reconcile (H0 := http_reconciler ctl_service web_server web_client web_tls web_late web_envs web_others limit ctl_db3)
       "acme" (edge_identity ctl_service web_client) rv now web_halted = (c', r) ->
     co_db c' = co_db web_halted /\ co_halted c' = co_halted web_halted /\ forall res, r = Ok res -> rr_Resumed res = false).
Proof.
  split.
  - destruct (Process "acme" _ _ web_message 0 quiet web_active) as [[c r] calls] eqn:E. exists r.
    destruct (unreadable_case_stalls_edge ctl_service web_server web_client web_tls web_late web_envs web_others
      "acme" ctl_db3 1 (delivery_of_case ctl_case_row 1) web_active web_deployed
      (proj2 (proj2 ctl_rows)) web_stuck eq_refl) as [Hhandle _].
    destruct (Hhandle _ web_message 0 quiet c r calls eq_refl eq_refl) as [-> ->]; [constructor; vm_compute; reflexivity|exact E|reflexivity].
  - apply (unreadable_case_stalls_edge ctl_service web_server web_client web_tls web_late web_envs web_others
      "acme" ctl_db3 1 (delivery_of_case ctl_case_row 1) web_halted).
    + apply web_deployed.
    + apply ctl_rows.
    + apply web_stuck.
    + vm_compute. reflexivity.
Defined.

Definition web_page : EdgeDeliveryPage :=
  {| dp_Deliveries := [delivery_of_case ctl_case_row 1; delivery_of_advice "case-1" ctl_advice_row];
     dp_HighWatermark := 2; dp_CompleteThrough := 2 |}.

Lemma http_page_bounds_witness :
  ((length (dp_Deliveries web_page) <= 10)%nat ->
     http_source ctl_service web_server web_client web_tls ctl_clock web_envs web_others ctl_db3
       (page_request ctl_service web_client 0 100) = Ok web_page) /\
  (786432 < raw_size (dp_Deliveries web_page) ->
     http_source ctl_service web_server web_client web_tls ctl_clock web_envs web_others ctl_db3
       (page_request ctl_service web_client 0 100) = Err "controlclient" /\
     (last_of (co_db web_halted) (key_of (edge_identity ctl_service web_client)) = 0 -> forall rv now, exists e,
        Reconcile (H0 := http_reconciler ctl_service web_server web_client web_tls ctl_clock web_envs web_others 100 ctl_db3)
          "acme" (edge_identity ctl_service web_client) rv now web_halted = (web_halted, Err e))).
Proof.
  apply (http_page_bounds ctl_service web_server web_client web_tls ctl_clock web_envs web_others
    "acme" ctl_db3 0 100 web_page web_halted).
  - apply web_deployed.
  - vm_compute. congruence.
  - vm_compute. reflexivity.
  - vm_compute. congruence.
Defined.

Definition web_case : Envelope := Eval vm_compute in
  match decodeStrictEnvelope ctl_case_wire with Ok e => e | Err _ => ctl_registry "" end.

Lemma submit_over_http_witness :
  let '(db', answer) := Submit ctl_service ctl_clock (fun _ => ctl_db1) (cl_workload web_client) ctl_case_wire web_envs web_others ctl_db1 in
  let '(seen, result) := ClientSubmit (over_http (api ctl_service ctl_clock web_envs web_others) web_server web_tls)
    web_client (cl_workload web_client) ctl_case_wire ctl_db1 in
  bigints db' -> seen = db' /\ rtc (control_step ctl_service) ctl_db1 db' /\ forall rc, (result = Ok rc <-> answer = Ok rc) /\
    (result = Ok rc -> r_AuthorityID rc = ct_authority ctl_service /\ r_EnvelopeID rc = ID web_case /\
      ((exists c, PgTx.cases db' !! (ct_tenant ctl_service, CaseID web_case) = Some c /\ cs_Raw c = ctl_case_wire /\
          cs_Commitment c = r_Commitment rc /\ cs_AuthorityRevision c = r_Revision rc) \/
       (exists a, PgTx.advice db' !! (ct_tenant ctl_service, CaseID web_case) = Some a /\ av_Raw a = ctl_case_wire /\
          av_Commitment a = r_Commitment rc /\ av_CommitRevision a = r_Revision rc))).
Proof.
  apply (submit_over_http ctl_service web_server web_client web_tls ctl_clock web_envs web_others ctl_db1 ctl_case_wire web_case).
  - apply rtc_once, ctl_step1.
  - intros k d. apply rtc_refl.
  - vm_compute. reflexivity.
  - vm_compute. reflexivity.
  - left. reflexivity.
  - split; vm_compute; congruence.
  - split; vm_compute; congruence.
  - vm_compute. congruence.
Defined.

Definition web_service : Admission_ DB := api ctl_service ctl_clock web_envs web_others.
Definition web_commitment : string := cr_Commitment ctl_registry_request.

(** The registry of the deployment, read by its edge, and a case identifier with
    a slash. *)
Lemma http_reads_exact_witness :
  ClientResolveRegistry (over_http web_service web_server web_tls) web_client "acme" 1 web_commitment ctl_db3 = (ctl_db3,
    match ad_ResolveRegistry web_service (cl_workload web_client) 1 web_commitment ctl_db3 with
    | Err e => Err (rejection (writeStoreError e))
    | Ok g => if len (registryResponse g) <=? maxResponseBytes then check_resolved_registry "acme" 1 web_commitment g
              else Err (CliError "decode response")
    end) /\
  exists status code, ClientResolveCase (over_http web_service web_server web_tls) web_client "a/b" web_commitment ctl_db3
    = (ctl_db3, Err (CliRejected status code)).
Proof.
  assert (Hw : workload web_server web_tls = Some (cl_workload web_client)) by (vm_compute; reflexivity).
  destruct (http_reads_exact web_service web_server web_client web_tls ctl_db3 Hw) as (Hregistry & _ & Hrefused & _). split.
  - apply Hregistry; [discriminate|reflexivity|split; vm_compute; congruence|vm_compute; reflexivity|].
    intros g Hg. vm_compute in Hg. injection Hg as <-. constructor; each; try (vm_compute; reflexivity); split; vm_compute; congruence.
  - apply Hrefused; vm_compute; reflexivity.
Defined.

(** The same delivery, read while the case is live and after it expired. *)
Example web_verdicts :
  is_ok (VerifyDelivery (http_verifier ctl_service web_server web_client web_tls ctl_clock web_envs web_others ctl_db3)
           (ctl_delivery 1 ctl_case_wire)) = true /\
  VerifyDelivery (http_verifier ctl_service web_server web_client web_tls web_late web_envs web_others ctl_db3)
    (ctl_delivery 1 ctl_case_wire) = Err (Transient "resolve authority case").
Proof. split; vm_compute; reflexivity. Qed.
