(* ===== verification/EdgeRuntime.v ===== *)
(** * cmd/snagline-edge/runtime.go: the edge process

    The loops that keep an edge at the authority's log: the reconciliation at
    start-up and every thirty seconds, the recovery of a halted consumer, the
    turn of the consumer loop, and the readiness check.  A loop takes fuel, one
    unit per pass; [None] is a loop that is still running. *)
From stdpp Require Import gmap.
From S2P Require Import Prelude GoText GoStrconv GoTime GoJson Sha256 DeliveryStream Authority.
From S2P Require Import PgTx AuthorityStore AuthoritySpec AuthorityInv AuthorityTheorems AuthorityReads.
From S2P Require Import SqliteTx EdgeStore EdgeApply EdgeConsumer EdgeRecovery EdgeJetStream.
Open Scope string_scope.
Open Scope Z_scope.
Open Scope snag_scope.

Definition edgeAuthorityReconcileInterval : Z := 30 * second.

(** The outside of one pass: the faults of the two state reads around it, those
    inside, and the reconciliation source as it answers then. *)
Record PassEnv := {
  pe_before : option string;
  pe_pass : ReconcileEnv;
  pe_source : Reconciler;
  pe_after : option string
}.

(** The outside of a whole authoritative reconciliation. *)
Record AuthoritativeEnv := {
  ae_state : option string;
  ae_require : TxEnv;
  ae_open : option string;
  ae_passes : nat -> PassEnv
}.

Section Runtime.
Context `{AEAD} (tenant : string) (identity : EdgeIdentity).

(** ** [edgeAuthorityReadReady] *)
Definition edgeAuthorityReadReady `{Reconciler} (fault : option string) (s : EdgeDB) : result string unit :=
  match DeliveryState identity fault s with
  | Err _ => Err "edge delivery state unavailable"
  | Ok state =>
      if sr_mode state <>s? DeliveryModeActive then Err "edge delivery state unavailable"
      else match FetchAfter identity (sr_last state) with
           | Err _ => Err "edge authoritative read unavailable"
           | Ok _ => Ok tt
           end
  end.

(** ** [reconcileEdge] *)
Fixpoint reconcileEdge (fuel k : nat) (now : nat -> Z) (envs : nat -> PassEnv) (c : Consumer)
  : option (Consumer * result string unit) :=
  if negb (co_halted c) then Some (c, Ok tt)
  else match fuel with
  | O => None
  | S fuel =>
      match Reconcile (H0 := pe_source (envs k)) tenant identity (pe_pass (envs k)) (now k) c with
      | (c, Err e) => Some (c, Err e)
      | (c, Ok _) => reconcileEdge fuel (S k) now envs c
      end
  end.

(** ** [reconcileAuthoritativeEdge] *)
Fixpoint authoritativePasses (fuel k : nat) (now : Z) (envs : nat -> PassEnv) (c : Consumer)
  : option (EdgeDB * result string unit) :=
  if negb (co_halted c) then Some (co_db c, Ok tt)
  else match fuel with
  | O => None
  | S fuel =>
      match DeliveryState identity (pe_before (envs k)) (co_db c) with
      | Err e => Some (co_db c, Err e)
      | Ok before =>
          match Reconcile (H0 := pe_source (envs k)) tenant identity (pe_pass (envs k)) now c with
          | (c, Err e) => Some (co_db c, Err e)
          | (c, Ok result) =>
              if rr_Resumed result then Some (co_db c, Ok tt)
              else match DeliveryState identity (pe_after (envs k)) (co_db c) with
              | Err e => Some (co_db c, Err e)
              | Ok after =>
                  if sr_last after <=? sr_last before
                  then Some (co_db c, Err "authority reconciliation made no durable progress")
                  else authoritativePasses fuel (S k) now envs c
              end
          end
      end
  end.

Definition reconcileAuthoritativeEdge (fuel : nat) (now : Z) (env : AuthoritativeEnv) (s : EdgeDB)
  : option (EdgeDB * result string unit) :=
  if is_zero_time now then Some (s, Err "invalid authority reconciliation dependencies")
  else match DeliveryState identity (ae_state env) s with
  | Err e => Some (s, Err e)
  | Ok state =>
      match RequireReconciliation identity (sr_high state) "authoritative_reconciliation" now (ae_require env) s with
      | (s, Err e) => Some (s, Err e)
      | (s, Ok _) =>
          match NewJournalConsumer identity (ae_open env) s with
          | Err e => Some (s, Err e)
          | Ok c => authoritativePasses fuel 0 now (ae_passes env) c
          end
      end
  end.

(** ** One turn of [runEdgeConsumer] *)
Record RuntimeState := { rt_consumer : Consumer; rt_next : Z }.

(** What a turn meets: its clock readings and the outside of the branch it
    takes. *)
Record TurnEnv := {
  te_fuel : nat;
  te_now : nat -> Z;
  te_recover : nat -> PassEnv;
  te_periodic : AuthoritativeEnv;
  te_verify : Verifier;
  te_fetched : Fetched;
  te_tx : TxEnv
}.

Definition consumerTurn (pc : PullConsumer) (te : TurnEnv) (st : RuntimeState) : option RuntimeState :=
  let c := rt_consumer st in
  if co_halted c then
    match reconcileEdge (te_fuel te) 0 (te_now te) (te_recover te) c with
    | None => None
    | Some (c, _) => Some {| rt_consumer := c; rt_next := rt_next st |}
    end
  else if negb (te_now te 0%nat <? rt_next st) then
    match reconcileAuthoritativeEdge (te_fuel te) (te_now te 1%nat) (te_periodic te) (co_db c) with
    | None => None
    | Some (s, _) => Some {| rt_consumer := {| co_db := s; co_halted := co_halted c |};
                             rt_next := te_now te 2%nat + edgeAuthorityReconcileInterval |}
    end
  else
    let '(c, _, _) := HandleNext tenant pc (te_verify te) (te_fetched te) (te_now te 1%nat) (te_tx te) c in
    Some {| rt_consumer := c; rt_next := rt_next st |}.
End Runtime.

(** ** Termination

    A pass that neither fails nor resumes moves the counter forward, and never
    past the highest watermark it was told. *)
Section Passes.
Context `{AEAD} (tenant : string) (identity : EdgeIdentity).
Let key : edge_key := key_of identity.

Lemma DeliveryState_last fault s st : DeliveryState identity fault s = Ok st -> sr_last st = last_of s key.
Proof.
  unfold DeliveryState, last_of, key. destruct (negb _); [done|]. destruct fault; [done|]. intros [= <-].
  by destruct (delivery_state s !! _).
Qed.

Lemma Reconcile_ok (R : Reconciler) rv now c c' res : Reconcile tenant identity rv now c = (c', Ok res) ->
  exists batch, R identity (last_of (co_db c) key) = Ok batch /\
    Z.of_nat (length (rb_Deliveries batch)) = rb_CompleteThrough batch - last_of (co_db c) key /\
    (rr_Resumed res = true /\ co_halted c' = false \/
     rr_Resumed res = false /\ co_halted c' = true /\ rb_CompleteThrough batch < rb_HighWatermark batch /\
     last_of (co_db c') key = rb_CompleteThrough batch).
Proof.
  unfold Reconcile. destruct (negb (co_halted c)); [done|].
  destruct (DeliveryState identity _ (co_db c)) as [st|] eqn:Es; [|done]. rewrite (DeliveryState_last _ _ _ Es).
  destruct (FetchAfter identity _) as [batch|] eqn:Ef; [|done]. destruct (_ || _) eqn:Eb; [done|].
  destruct (negb (Z.of_nat _ =? _)) eqn:En; [done|]. destruct (negb (contiguous _ _ _)); [done|].
  destruct (applyBatch _ _ _ _ _ _ _) as [[s n] [e|]]; [done|].
  destruct (DeliveryState identity _ s) as [st2|] eqn:Es2; [|done].
  destruct (negb (sr_last st2 =? _)) eqn:El; [done|]. rewrite (DeliveryState_last _ _ _ Es2) in El. bools.
  intros Hrun. exists batch. split; [exact Ef|]. split; [done|].
  destruct (Z.eqb_spec (rb_CompleteThrough batch) (rb_HighWatermark batch)) as [E|E].
  - destruct (CompleteReconciliation _ _ _ _ _ _) as [s2 [u|]]; [|done]. injection Hrun as <- <-. by left.
  - injection Hrun as <- <-. right. cbn. split_and!; [done..|lia|done].
Qed.

Section Bounded.
Context (H' : Z) (envs : nat -> PassEnv).
Hypothesis Hbound : forall k after batch, pe_source (envs k) identity after = Ok batch -> rb_HighWatermark batch <= H'.

Lemma passes_terminate now fuel : forall k c, Z.max 0 (H' - last_of (co_db c) key) < Z.of_nat fuel ->
  is_Some (authoritativePasses tenant identity fuel k now envs c).
Proof using Hbound.
  induction fuel as [|fuel IH]; intros k c Hf; [lia|]. cbn [authoritativePasses]. destruct (negb (co_halted c)); [done|].
  destruct (DeliveryState identity _ (co_db c)) as [before|] eqn:Eb; [|done].
  destruct (Reconcile _ _ _ _ _) as [c1 [res|]] eqn:Er; [|done]. destruct (rr_Resumed res) eqn:Eres; [done|].
  destruct (DeliveryState identity _ (co_db c1)) as [after|] eqn:Ea; [|done].
  destruct (Z.leb_spec (sr_last after) (sr_last before)) as [|Hlt]; [done|].
  rewrite (DeliveryState_last _ _ _ Eb), (DeliveryState_last _ _ _ Ea) in Hlt. apply IH.
  apply Reconcile_ok in Er as (batch & Hb%Hbound & _ & [[? _]|(_ & _ & Hc & Hl)]); [congruence|]. lia.
Qed.

(** A source that gives a delivery whenever it knows of more. *)
Hypothesis Hadvances : forall k after batch, pe_source (envs k) identity after = Ok batch ->
  rb_CompleteThrough batch < rb_HighWatermark batch -> rb_Deliveries batch <> [].

Lemma recovery_terminates now fuel : forall k c, Z.max 0 (H' - last_of (co_db c) key) < Z.of_nat fuel ->
  is_Some (reconcileEdge tenant identity fuel k now envs c).
Proof using Hbound Hadvances.
  induction fuel as [|fuel IH]; intros k c Hf; [lia|]. cbn [reconcileEdge]. destruct (negb (co_halted c)); [done|].
  destruct (Reconcile _ _ _ _ _) as [c1 [res|]] eqn:Er; [|done].
  apply Reconcile_ok in Er as (batch & Hfetch & Hn & [[_ Hh]|(_ & _ & Hc & Hl)]).
  - destruct fuel; cbn [reconcileEdge]; by rewrite Hh.
  - apply IH. pose proof (Hbound _ _ _ Hfetch). pose proof (Hadvances _ _ _ Hfetch Hc).
    destruct (rb_Deliveries batch); [done|]. cbn [length] in Hn. lia.
Qed.
End Bounded.
End Passes.

(** The authority's pages bound the passes and advance them. *)
Lemma authority_batch principal limit db id after batch : log_inv db ->
  authority_reconciler principal limit db id after = Ok batch ->
  rb_HighWatermark batch = next_sequence db (key_of id) - 1 /\
  (rb_CompleteThrough batch < rb_HighWatermark batch -> rb_Deliveries batch <> []).
Proof.
  intros Hl Hf. split; [by apply (authority_fetch_ok _ _ _ _ _ _ Hl Hf)|].
  unfold authority_reconciler, authorityFetchAfter, authority_source in Hf.
  destruct (negb _); [done|]. destruct (after <? 0); [done|].
  destruct (ListEdgeDeliveries _ db) as [page|] eqn:Ep; [|done].
  assert (Hlim : 1 <= limit).
  { unfold ListEdgeDeliveries in Ep. destruct (validate_delivery_query _) eqn:Ev in Ep; [|done].
    unfold validate_delivery_query in Ev. cbn in Ev. inv_result. bools. lia. }
  destruct (_ || _); [done|]. destruct (convertPage _ _ _) as [ds|] eqn:Ec; [|done]. injection Hf as <-. cbn.
  apply ListEdgeDeliveries_page in Ep as (_ & Hseq & Hct & _); [|done]. cbn in Hseq, Hct.
  rewrite (convertPage_ok _ _ _ _ Ec). intros Hlt Hnil%map_eq_nil. rewrite Hnil in Hseq, Hct. cbn in Hct.
  apply (f_equal (@length Z)) in Hseq. rewrite length_seqZ in Hseq. cbn in Hseq. lia.
Qed.

(** C13: the reconciliation loops of an edge process end.  Whatever faults occur and
    whatever the verifier decides, and even if the authority's log keeps growing
    between passes, as long as it stays below some bound [H']: the
    reconciliation at start-up (and every thirty seconds) and the recovery of a
    halted consumer both return, after at most as many passes as there are
    deliveries between the edge's counter and that bound, plus one. *)
Theorem reconciliation_terminates `{AEAD} tenant identity principal limit (dbs : nat -> DB) H' :
  (forall k, store_reachable (dbs k) /\ next_sequence (dbs k) (key_of identity) - 1 <= H') ->
  (forall fuel now env s, (forall k, pe_source (ae_passes env k) = authority_reconciler principal limit (dbs k)) ->
     Z.max 0 (H' - last_of s (key_of identity)) < Z.of_nat fuel ->
     exists s' r, reconcileAuthoritativeEdge tenant identity fuel now env s = Some (s', r)) /\
  (forall fuel now envs c, (forall k, pe_source (envs k) = authority_reconciler principal limit (dbs k)) ->
     Z.max 0 (H' - last_of (co_db c) (key_of identity)) < Z.of_nat fuel ->
     exists c' r, reconcileEdge tenant identity fuel 0 now envs c = Some (c', r)).
Proof.
  intros Hdbs.
  assert (Hb : forall k after batch, authority_reconciler principal limit (dbs k) identity after = Ok batch ->
    rb_HighWatermark batch <= H' /\ (rb_CompleteThrough batch < rb_HighWatermark batch -> rb_Deliveries batch <> [])).
  { intros k after batch Hf. destruct (Hdbs k) as [[Hl _ _ _ _]%store_reachable_inv Hh].
    destruct (authority_batch _ _ _ _ _ _ Hl Hf) as [-> Ha]. by split. }
  split.
  - intros fuel now env s Hs Hf. unfold reconcileAuthoritativeEdge. destruct (is_zero_time now); [eauto|].
    destruct (DeliveryState _ _ s) as [st|]; [|eauto].
    destruct (RequireReconciliation _ _ _ _ _ s) as [s1 [u|]] eqn:Er; [|eauto].
    destruct (NewJournalConsumer _ _ s1) as [c|] eqn:En; [|eauto].
    assert (Hc : last_of (co_db c) (key_of identity) = last_of s (key_of identity)).
    { unfold NewJournalConsumer in En. destruct (negb _); [done|]. destruct (DeliveryState _ _ s1); [|done].
      destruct (_ && _); [done|]. injection En as <-. cbn [co_db].
      apply RequireReconciliation_cases in Er as [->|(_ & El & _)%counter_log]; [done|]. by rewrite El, decide_True. }
    destruct (passes_terminate tenant identity H' (ae_passes env)) with (now := now) (fuel := fuel) (k := O) (c := c)
      as [[s' r] Hr]; [| |by eauto]; [|by rewrite Hc]. intros k after batch. rewrite Hs. apply Hb.
  - intros fuel now envs c Hs Hf.
    destruct (recovery_terminates tenant identity H' envs) with (now := now) (fuel := fuel) (k := O) (c := c)
      as [[c' r] Hr]; [..|by eauto]; [| |done]; intros k after batch; rewrite Hs; apply Hb.
Qed.

(** ** What the loops leave *)
Section Follows.
Context `{AEAD} (tenant : string) (identity : EdgeIdentity) (db : DB).
Let key : edge_key := key_of identity.
Hypothesis Hlog : log_inv db.

(** An edge store that is a prefix of the authority's log. *)
Definition prefix_of (s : EdgeDB) : Prop := edge_log_inv s /\ follows db s.

Lemma recovery_follows envs now fuel : (forall k, honest identity db (pe_source (envs k))) -> forall k c c' r,
  prefix_of (co_db c) -> reconcileEdge tenant identity fuel k now envs c = Some (c', r) -> prefix_of (co_db c').
Proof using Hlog.
  intros Hh. induction fuel as [|fuel IH]; intros k c c' r [Hi Hf]; cbn [reconcileEdge];
    (destruct (negb (co_halted c)); [by intros [= <- <-]|]); [done|].
  destruct (Reconcile _ _ _ _ _) as [c1 r1] eqn:Er.
  destruct (reconcile_follows _ _ _ _ _ _ _ _ _ Hlog (Hh k) Hi Hf Er) as (Hi1 & Hf1 & _).
  destruct r1; [by apply IH|]. by intros [= <- <-].
Qed.

Lemma passes_follow envs now fuel : (forall k, honest identity db (pe_source (envs k))) -> forall k c s r,
  prefix_of (co_db c) -> co_halted c = true -> authoritativePasses tenant identity fuel k now envs c = Some (s, r) ->
  prefix_of s /\ deliveries (co_db c) ⊆ deliveries s /\
  (r = Ok tt -> mode_of s key = DeliveryModeActive /\ last_of s key = next_sequence db key - 1).
Proof using Hlog.
  intros Hh. induction fuel as [|fuel IH]; intros k c s r [Hi Hf] Hhalt; cbn [authoritativePasses]; rewrite Hhalt; [done|].
  cbn [negb]. destruct (DeliveryState identity _ (co_db c)) as [before|]; [|by intros [= <- <-]].
  destruct (Reconcile _ _ _ _ _) as [c1 r1] eqn:Er.
  destruct (reconcile_follows _ _ _ _ _ _ _ _ _ Hlog (Hh k) Hi Hf Er) as (Hi1 & Hf1 & Hsub & Hres).
  destruct r1 as [res|]; [|by intros [= <- <-]]. destruct (rr_Resumed res) eqn:Eres.
  { intros [= <- <-]. split; [done|]. split; [done|]. intros _. by apply (Hres res). }
  destruct (DeliveryState identity _ (co_db c1)) as [after|]; [|by intros [= <- <-]].
  destruct (_ <=? _); [by intros [= <- <-]|]. intros Hrun.
  apply Reconcile_ok in Er as (_ & _ & _ & [[? _]|(_ & Hh1 & _)]); [congruence|].
  destruct (IH _ _ _ _ (conj Hi1 Hf1) Hh1 Hrun) as (? & ? & ?). split_and!; [done|by etrans|done].
Qed.

Lemma authoritative_follows fuel now env s s' r : (forall k, honest identity db (pe_source (ae_passes env k))) -> prefix_of s ->
  reconcileAuthoritativeEdge tenant identity fuel now env s = Some (s', r) ->
  prefix_of s' /\ deliveries s ⊆ deliveries s' /\
  (r = Ok tt -> mode_of s' key = DeliveryModeActive /\ last_of s' key = next_sequence db key - 1).
Proof using Hlog.
  intros Hh [Hi Hf]. unfold reconcileAuthoritativeEdge. destruct (is_zero_time now); [by intros [= <- <-]|].
  destruct (DeliveryState _ _ s) as [st|]; [|by intros [= <- <-]].
  destruct (RequireReconciliation _ _ _ _ _ s) as [s1 r1] eqn:Er.
  destruct (require_follows _ _ _ _ _ _ _ _ _ Hi Hf Er) as (Hi1 & Hf1 & Hd & _).
  assert (Hsub : deliveries s ⊆ deliveries s1) by by rewrite Hd.
  destruct r1 as [u|]; [|by intros [= <- <-]]. destruct (NewJournalConsumer _ _ s1) as [c|] eqn:En; [|by intros [= <- <-]].
  apply RequireReconciliation_ok in Er. unfold NewJournalConsumer, DeliveryState in En. destruct (negb _); [done|].
  destruct (ae_open env); [done|]. destruct (_ && _); [done|]. injection En as <-. intros Hrun.
  apply passes_follow in Hrun as (? & ? & ?); [|done|done|]; cbn [co_db co_halted] in *; [split_and!; [done|by etrans|done]|].
  unfold mode_of in Er. destruct (delivery_state s1 !! key_of identity); [|done]. by rewrite Er.
Qed.
End Follows.

(** C12: an edge that started has the whole log.  Let the edge's store be a prefix
    of the log of a reachable authority (a new store is), and let the
    reconciliation at start-up run against that authority with any faults,
    any page limit and any verdicts.  If it succeeds, the store is active again and
    has recorded every delivery of the authority's log for this edge generation,
    with its exact bytes, whatever the broker retained.  If it fails, nothing is
    lost: the store is still a prefix of the log and has grown. *)
Theorem startup_catches_up `{AEAD} tenant identity principal limit db fuel now env s s' r :
  store_reachable db -> prefix_of db s ->
  (forall k, pe_source (ae_passes env k) = authority_reconciler principal limit db) ->
  reconcileAuthoritativeEdge tenant identity fuel now env s = Some (s', r) ->
  prefix_of db s' /\ deliveries s ⊆ deliveries s' /\
  (r = Ok tt -> mode_of s' (key_of identity) = DeliveryModeActive /\
     forall seq x, PgTx.deliveries db !! (key_of identity, seq) = Some x ->
       exists row, deliveries s' !! (key_of identity, seq) = Some row /\ dr_raw_sha256 row = hash (ed_Raw x)).
Proof.
  intros [Hl _ _ _ _]%store_reachable_inv Hs Hsource Hrun.
  destruct (authoritative_follows tenant identity db Hl fuel now env s s' r) as (Hp & Hsub & Hok); [|done|done|].
  { intros k. rewrite Hsource. by apply store_honest. }
  split_and!; [done..|]. intros [Hm Hlast]%Hok. split; [done|]. by apply (caught_up identity db s' Hl); try apply Hp.
Qed.

(** ** The authority and an edge process, together *)
Section System.
Context `{AEAD} (tenant : string) (pc : PullConsumer).
Let identity : EdgeIdentity := pc_identity pc.

(** The outside of a turn: pages of the authority's log, and wakes that carry
    its bytes. *)
Record turn_honest (db : DB) (te : TurnEnv) : Prop := {
  th_recover : forall k, honest identity db (pe_source (te_recover te k));
  th_periodic : forall k, honest identity db (pe_source (ae_passes (te_periodic te) k));
  th_wake : forall m meta, te_fetched te = FetchedMsg m -> Metadata identity m = Ok meta ->
    authentic db (journal_of meta (journal_message identity m)) }.

(** The authority commits, the edge takes a turn, or the process restarts:
    a restart reopens the consumer on the same store. *)
Inductive process_step : DB * RuntimeState -> DB * RuntimeState -> Prop :=
| SAuthority db db' st : store_step db db' -> process_step (db, st) (db', st)
| STurn db te st st' : turn_honest db te -> consumerTurn tenant identity pc te st = Some st' -> process_step (db, st) (db, st')
| SRestart db st fuel now env s' r fault c next : (forall k, honest identity db (pe_source (ae_passes env k))) ->
    reconcileAuthoritativeEdge tenant identity fuel now env (co_db (rt_consumer st)) = Some (s', r) ->
    NewJournalConsumer identity fault s' = Ok c -> process_step (db, st) (db, {| rt_consumer := c; rt_next := next |}).

Definition process_inv (x : DB * RuntimeState) : Prop :=
  store_reachable x.1 /\ prefix_of x.1 (co_db (rt_consumer x.2)).

Lemma turn_keeps db te st st' : log_inv db -> turn_honest db te -> prefix_of db (co_db (rt_consumer st)) ->
  consumerTurn tenant identity pc te st = Some st' -> prefix_of db (co_db (rt_consumer st')).
Proof.
  intros Hl [Hr Hp Hw] Hpre. unfold consumerTurn. destruct (co_halted (rt_consumer st)) eqn:Eh.
  { destruct (reconcileEdge _ _ _ _ _ _ _) as [[c1 r1]|] eqn:Ec; [|done]. intros [= <-]. cbn.
    by apply (recovery_follows tenant identity db Hl) in Ec. }
  destruct (negb _).
  { destruct (reconcileAuthoritativeEdge _ _ _ _ _ _) as [[s1 r1]|] eqn:Ec; [|done]. intros [= <-]. cbn.
    by apply (authoritative_follows tenant identity db Hl) in Ec as (? & _). }
  destruct (HandleNext _ _ _ _ _ _ _) as [[c1 r1] calls] eqn:Ec. intros [= <-]. cbn. destruct Hpre as [Hi Hf].
  unfold HandleNext in Ec. rewrite Eh in Ec.
  destruct (te_fetched te) as [[] e|[[[] e]|]|m]; try by injection Ec as <- _ _.
  destruct (Handle _ _ _ _ _ _ _) as [c2 r2] eqn:Ehd.
  apply (handle_follows tenant (pc_identity pc) db) in Ehd; [|done|done|intros meta; by apply Hw].
  destruct r2; by injection Ec as <- _ _.
Qed.

Lemma process_step_inv x y : process_step x y -> process_inv x -> process_inv y.
Proof.
  intros Hstep [Hr Hp]. destruct Hstep as [db db' st Hs|db te st st' Hh Ht|db st fuel now env s' r fault c next Hh Hrun Hn];
    cbn [fst snd] in *; pose proof (store_reachable_inv _ Hr) as Hinv; pose proof (inv_log _ Hinv) as Hl.
  - split; [cbn; unfold store_reachable in *; by eapply rtc_r|]. destruct Hp as [Hi Hf]. split; [done|]. cbn.
    eapply follows_mono; [|exact Hf]. apply step_extends; [by apply store_step_ledger|done].
  - split; [done|]. by eapply turn_keeps.
  - split; [done|]. cbn [fst snd rt_consumer]. apply (authoritative_follows tenant identity db Hl) in Hrun as (Hp' & _); [|done|done].
    unfold NewJournalConsumer in Hn. destruct (negb _); [done|]. destruct (DeliveryState _ _ _); [|done].
    destruct (_ && _); [done|]. by injection Hn as <-.
Qed.

(** C11: an edge process never holds anything but a prefix of the authority's log.
    Run the authority and an edge process together from an empty ledger and a new
    edge store, in any interleaving: commits, halts and outbox work at the
    authority; consumed wakes, recoveries, periodic reconciliations and
    restarts at the edge, with any faults and any verdicts, over sources that
    serve the authority's log.  In every state reached, for every number up to the
    edge's counter the edge has recorded exactly the authority's delivery of that
    number, and it has recorded nothing beyond its counter. *)
Theorem edge_process_follows_authority db st next :
  rtc process_step (empty_db, {| rt_consumer := {| co_db := empty_edge; co_halted := false |}; rt_next := next |}) (db, st) ->
  let s := co_db (rt_consumer st) in
  last_of s (key_of identity) <= next_sequence db (key_of identity) - 1 /\
  forall seq, (1 <= seq <= last_of s (key_of identity) -> exists row x,
      deliveries s !! (key_of identity, seq) = Some row /\ PgTx.deliveries db !! (key_of identity, seq) = Some x /\
      dr_raw_sha256 row = hash (ed_Raw x)) /\
    (is_Some (deliveries s !! (key_of identity, seq)) -> 1 <= seq <= last_of s (key_of identity)).
Proof.
  intros Hrun s. assert (process_inv (db, st)) as [Hr [Hi Hf]].
  { assert (Hkeep : forall x y, rtc process_step x y -> process_inv x -> process_inv y)
      by (induction 1; eauto using process_step_inv).
    apply (Hkeep _ _ Hrun). split; [apply rtc_refl|]. split.
    - constructor; intros; cbn; rewrite ?lookup_empty; [unfold last_of, high_of; cbn; rewrite !lookup_empty; lia|].
      unfold last_of. cbn. rewrite lookup_empty. split; [by intros []|lia].
    - intros k q row. cbn. by rewrite lookup_empty. }
  cbn [fst snd] in *. fold s in Hi, Hf. pose proof (inv_log _ (store_reachable_inv _ Hr)) as Hl.
  assert (Hrows : forall seq, 1 <= seq <= last_of s (key_of identity) -> exists row x,
      deliveries s !! (key_of identity, seq) = Some row /\ PgTx.deliveries db !! (key_of identity, seq) = Some x /\
      dr_raw_sha256 row = hash (ed_Raw x)).
  { intros seq Hq. apply (edge_dense _ Hi) in Hq as [row Hrow]. destruct (Hf _ _ _ Hrow) as (x & Hx & E). eauto. }
  split; [|intros seq; split; [apply Hrows|apply (edge_dense _ Hi)]].
  destruct (Z.leb_spec 1 (last_of s (key_of identity))) as [Hpos|Hneg].
  - destruct (Hrows (last_of s (key_of identity))) as (_ & x & _ & Hx & _); [lia|].
    assert (1 <= last_of s (key_of identity) < next_sequence db (key_of identity)) by (apply (log_dense _ Hl); eauto). lia.
  - pose proof (log_pos _ Hl (key_of identity)). lia.
Qed.
End System.
