(* ===== verification/RuntimeExample.v ===== *)
(** * An edge process at a concrete authority

    The ledger of AuthorityExample.v, followed by a new edge whose pages have
    one delivery each, so that catching up takes two passes. *)
From stdpp Require Import gmap.
From S2P Require Import Prelude GoText GoStrconv GoTime GoJson Sha256 DeliveryStream Authority.
From S2P Require Import PgTx AuthorityStore AuthoritySpec AuthorityInv AuthorityTheorems AuthorityReads AuthorityExample.
From S2P Require Import SqliteTx EdgeStore EdgeApply EdgeConsumer EdgeRecovery EdgeJetStream EdgeExample EdgeRuntime.
Open Scope string_scope.
Open Scope Z_scope.
Open Scope snag_scope.

#[local] Existing Instance toy_aead.

Definition run_source : Reconciler := authority_reconciler "spiffe-1" 1 ex_db3.
Definition run_pass : PassEnv :=
  {| pe_before := None; pe_source := run_source; pe_after := None;
     pe_pass := {| rv_state1 := None; rv_verify := fun _ _ => Err (Permanent "unknown"); rv_tx := fun _ => quiet;
                   rv_state2 := None; rv_complete := None |} |}.
Definition run_env : AuthoritativeEnv :=
  {| ae_state := None; ae_require := quiet; ae_open := None; ae_passes := fun _ => run_pass |}.
Definition run_startup : option (EdgeDB * result string unit) :=
  reconcileAuthoritativeEdge "acme" ex_id 3 ex_now run_env empty_edge.
Definition run_store : EdgeDB := match run_startup with Some (s, _) => s | None => empty_edge end.

Lemma run_new : prefix_of ex_db3 empty_edge.
Proof.
  split.
  - constructor; intros; cbn; rewrite ?lookup_empty; [unfold last_of, high_of; cbn; rewrite !lookup_empty; lia|].
    unfold last_of. cbn. rewrite lookup_empty. split; [by intros []|lia].
  - intros k q row. cbn. by rewrite lookup_empty.
Qed.

Lemma run_ok : run_startup = Some (run_store, Ok tt).
Proof. vm_compute. reflexivity. Qed.

Lemma startup_catches_up_witness :
  last_of run_store (key_of ex_id) = 2 /\
  (Ok tt = Ok tt :> result string unit -> mode_of run_store (key_of ex_id) = DeliveryModeActive /\
     forall seq x, PgTx.deliveries ex_db3 !! (key_of ex_id, seq) = Some x ->
       exists row, deliveries run_store !! (key_of ex_id, seq) = Some row /\ dr_raw_sha256 row = hash (ed_Raw x)).
Proof.
  split; [vm_compute; reflexivity|].
  exact (proj2 (proj2 (startup_catches_up "acme" ex_id "spiffe-1" 1 ex_db3 3 ex_now run_env empty_edge run_store (Ok tt)
    ex_run run_new (fun _ => eq_refl) run_ok))).
Defined.

Lemma reconciliation_terminates_witness :
  (exists s' r, reconcileAuthoritativeEdge "acme" ex_id 3 ex_now run_env empty_edge = Some (s', r)) /\
  (exists c' r, reconcileEdge "acme" ex_id 3 0 (fun _ => ex_now) (fun _ => run_pass)
     {| co_db := empty_edge; co_halted := true |} = Some (c', r)).
Proof.
  destruct (reconciliation_terminates "acme" ex_id "spiffe-1" 1 (fun _ => ex_db3) 2) as [Hstart Hrecover].
  - intros _. split; [exact ex_run|]. vm_compute. congruence.
  - split; [apply Hstart|apply Hrecover]; try reflexivity; vm_compute; reflexivity.
Defined.

Definition run_pull : PullConsumer :=
  {| pc_identity := ex_id; pc_fetchWait := 5 * second;
     pc_spec := {| cc_stream := StreamName; cc_name := "edge-1"; cc_durable := "edge-1"; cc_deliver_policy := "";
       cc_ack_policy := ""; cc_replay_policy := ""; cc_filter := edgeDeliverySubject ex_id; cc_ack_wait := 0; cc_max_deliver := 0 |} |}.

Definition run_new_process : RuntimeState := {| rt_consumer := {| co_db := empty_edge; co_halted := false |}; rt_next := 0 |}.
Definition run_process : RuntimeState := {| rt_consumer := {| co_db := run_store; co_halted := false |}; rt_next := ex_now |}.

(** The authority commits a registry, a case and its advice; the edge restarts. *)
Lemma run_steps : rtc (process_step "acme" run_pull) (empty_db, run_new_process) (ex_db3, run_process).
Proof.
  assert (Hdb : forall d d', rtc store_step d d' -> rtc (process_step "acme" run_pull) (d, run_new_process) (d', run_new_process)).
  { intros d d' Hrun. induction Hrun as [|x y z Hs _ IH]; [apply rtc_refl|]. eapply rtc_l; [by apply SAuthority|exact IH]. }
  eapply rtc_r; [exact (Hdb _ _ ex_run)|].
  apply (SRestart "acme" run_pull ex_db3 run_new_process 3 ex_now run_env run_store (Ok tt) None
    {| co_db := run_store; co_halted := false |} ex_now).
  - intros k. apply (store_honest ex_id ex_db3). apply (inv_log _ (store_reachable_inv _ ex_run)).
  - exact run_ok.
  - vm_compute. reflexivity.
Qed.

Lemma edge_process_follows_authority_witness :
  last_of run_store (key_of ex_id) <= next_sequence ex_db3 (key_of ex_id) - 1 /\
  (1 <= 2 <= last_of run_store (key_of ex_id) -> exists row x,
      deliveries run_store !! (key_of ex_id, 2) = Some row /\ PgTx.deliveries ex_db3 !! (key_of ex_id, 2) = Some x /\
      dr_raw_sha256 row = hash (ed_Raw x)).
Proof.
  destruct (edge_process_follows_authority "acme" run_pull ex_db3 run_process 0 run_steps) as [Hlast Hrows].
  exact (conj Hlast (proj1 (Hrows 2))).
Defined.
