(* ===== verification/EdgeOpen.v ===== *)
(** * internal/edge/service.go: opening a case, finalizing an advice

    [NewService], [OpenCase], [NewFinalizer], [FinalizeAdvice] and the reads:
    the request is checked, the envelope is built and signed, its exact bytes
    are spooled and only then handed to the gateway ([EdgeService]).  The case
    read of internal/sspedge/edge_case_store.go ([GetCase]), from which a final
    advice takes its header, is here too.  The clock readings, the answer of
    the identifier generator and the faults of the store calls are inputs of
    each call; the gateway is the interface of [EdgeService]. *)
From S2P Require Import Prelude GoText GoStrconv GoTime GoJson GoJsonRead GoBase64 GoUtf8 GoJsonText Sha256 DeliveryStream SqliteTx.
From S2P Require Import SspGuard SspBody SspRegistry SspEnvelope SspStrip SspTheorems SspSign GoJsonWire Registry.
From S2P Require Import EdgeStore EdgeApply EdgeSpool EdgeInv EdgeFront EdgeTurns EdgeSystem EdgeTheorems EdgeService.
Open Scope string_scope.
Open Scope Z_scope.
Open Scope snag_scope.

(** [t.Format(time.RFC3339)] of a UTC instant: no fraction. *)
Definition format_seconds (t : Z) : string := format_nano (t / second * second).

Example format_seconds_half : format_seconds (1785240000 * second + 500000000) = "2026-07-28T12:00:00Z".
Proof. reflexivity. Qed.

(** ** Data *)
Record RegistryCoordinates := { rx_RoutingEpoch : Z; rx_Revision : Z; rx_Hash : string }.

Record OpenCaseRequest := {
  oc_CaseID : string;
  oc_Domain : string;
  oc_Summary : string;
  oc_PublicSummary : string;
  oc_ContextManifest : string;
  oc_Registry : RegistryCoordinates
}.

Record FinalizeAdviceRequest := {
  fa_CaseID : string;
  fa_CaseCommitment : string;
  fa_Text : string;
  fa_PublicSummary : string
}.

#[export] Instance FinalizeAdviceRequest_eq : EqDecision FinalizeAdviceRequest.
Proof. solve_decision. Defined.

(** [CaseRecord] of internal/edge. *)
Record LocalCase := {
  lc_EnvelopeID : string;
  lc_CaseID : string;
  lc_Commitment : string;
  lc_Summary : string;
  lc_Registry : RegistryCoordinates;
  lc_ExpiresAt : Z;
  lc_Committed : bool
}.

(** ** Request validation *)
Definition validOpaque (value : string) : bool :=
  utf8_valid value && (1 <=? rune_count value) && (rune_count value <=? 512).
Definition validBoundedText (value : string) (maximum : Z) : bool :=
  utf8_valid value && (1 <=? rune_count value) && (rune_count value <=? maximum).

Definition validateOpenCaseRequest (r : OpenCaseRequest) : result ServiceError unit :=
  if negb (validOpaque (oc_CaseID r)) || negb (validOpaque (oc_Domain r))
  then Err (ErrService "case ID and domain must be bounded opaque identifiers")
  else if negb (validBoundedText (oc_Summary r) 4096)
  then Err (ErrService "case summary must contain 1..4096 UTF-8 code points")
  else if negb (validBoundedText (oc_PublicSummary r) 1024)
  then Err (ErrService "public case summary must contain 1..1024 UTF-8 code points")
  else if negb (sha256_pattern (oc_ContextManifest r)) || negb (sha256_pattern (rx_Hash (oc_Registry r)))
          || (rx_RoutingEpoch (oc_Registry r) <? 0) || (rx_Revision (oc_Registry r) <? 0)
  then Err (ErrService "case registry coordinates or context manifest are invalid")
  else Ok tt.

Definition validateFinalizeAdviceRequest (r : FinalizeAdviceRequest) : result ServiceError unit :=
  if negb (validOpaque (fa_CaseID r)) || negb (sha256_pattern (fa_CaseCommitment r))
     || negb (validBoundedText (fa_Text r) 8192) || negb (validBoundedText (fa_PublicSummary r) 1024)
  then Err (ErrService "advice request is invalid")
  else Ok tt.

(** ** Bodies, as [json.Marshal] prints the two structs *)
Definition case_fields (sv : Service) (r : OpenCaseRequest) : list (string * string) :=
  [("domain", json_string (oc_Domain r)); ("issuer_edge_id", json_string (sv_edgeID sv));
   ("issuer_edge_generation", dec (sv_edgeGeneration sv)); ("summary", json_string (oc_Summary r));
   ("public_summary", json_string (oc_PublicSummary r));
   ("context_manifest", json_string (oc_ContextManifest r))].
Definition case_body (sv : Service) (r : OpenCaseRequest) : bytes := json_object (case_fields sv r).

Definition advice_fields (r : FinalizeAdviceRequest) : list (string * string) :=
  [("case_commitment", json_string (fa_CaseCommitment r)); ("text", json_string (fa_Text r));
   ("public_summary", json_string (fa_PublicSummary r))].
Definition advice_body (r : FinalizeAdviceRequest) : bytes := json_object (advice_fields r).

Definition case_envelope (sv : Service) (r : OpenCaseRequest) (id : string) (now : Z) : Envelope :=
  {| Schema := SspFamilyCase; ID := id; CaseID := oc_CaseID r; EmittedAt := format_seconds now;
     ExpiresAt := format_seconds (now + sv_ttl sv);
     RoutingEpoch := rx_RoutingEpoch (oc_Registry r); RegistryRevision := rx_Revision (oc_Registry r);
     RegistryHash := rx_Hash (oc_Registry r); AuthorKeyID := sv_authorKeyID sv; SignatureAlg := "ed25519";
     Body := case_body sv r; Signature := "" |}.

Definition advice_envelope (fz : Finalizer) (c : LocalCase) (r : FinalizeAdviceRequest) (id : string)
    (now expires : Z) : Envelope :=
  {| Schema := SspFamilyAdvice; ID := id; CaseID := lc_CaseID c; EmittedAt := format_seconds now;
     ExpiresAt := format_seconds expires;
     RoutingEpoch := rx_RoutingEpoch (lc_Registry c); RegistryRevision := rx_Revision (lc_Registry c);
     RegistryHash := rx_Hash (lc_Registry c); AuthorKeyID := fz_authorKeyID fz; SignatureAlg := "ed25519";
     Body := advice_body r; Signature := "" |}.

(** ** The stored case payload *)
Record encryptedCasePayload := { py_Summary : string; py_ContextManifest : string }.

Definition decode_payload : json -> option encryptedCasePayload :=
  wire_struct ["summary"; "context_manifest"] (fun l =>
    s ← wire_field (decode_raw decode_string) "" l "summary";
    m ← wire_field (decode_raw decode_string) "" l "context_manifest";
    Some {| py_Summary := s; py_ContextManifest := m |}).
Definition decodeCasePayload (raw : bytes) : result string encryptedCasePayload :=
  of_option "decode case payload" (decode_single decode_payload raw).

(** ** [json.Unmarshal] of an envelope and of an advice body: unknown members
    are ignored *)
Definition decode_raw_message (_ : bytes) (m : string * json) : option bytes := Some m.1.

Definition unmarshal_envelope (raw : bytes) : option Envelope :=
  parse raw ≫= decode_struct (fun l =>
    schema ← wire_field (decode_raw decode_string) "" l "schema";
    id ← wire_field (decode_raw decode_string) "" l "id";
    caseID ← wire_field (decode_raw decode_string) "" l "case_id";
    emitted ← wire_field (decode_raw decode_string) "" l "emitted_at";
    expires ← wire_field (decode_raw decode_string) "" l "expires_at";
    epoch ← wire_field (decode_raw decode_int64) 0 l "routing_epoch";
    revision ← wire_field (decode_raw decode_int64) 0 l "registry_revision";
    hash ← wire_field (decode_raw decode_string) "" l "registry_hash";
    author ← wire_field (decode_raw decode_string) "" l "author_key_id";
    alg ← wire_field (decode_raw decode_string) "" l "signature_alg";
    body ← wire_field decode_raw_message "" l "body";
    signature ← wire_field (decode_raw decode_string) "" l "signature";
    Some {| Schema := schema; ID := id; CaseID := caseID; EmittedAt := emitted; ExpiresAt := expires;
            RoutingEpoch := epoch; RegistryRevision := revision; RegistryHash := hash; AuthorKeyID := author;
            SignatureAlg := alg; Body := body; Signature := signature |}).

Definition unmarshal_advice_body (raw : bytes) : option (string * string * string) :=
  parse raw ≫= decode_struct (fun l =>
    c ← wire_field (decode_raw decode_string) "" l "case_commitment";
    t ← wire_field (decode_raw decode_string) "" l "text";
    p ← wire_field (decode_raw decode_string) "" l "public_summary";
    Some (c, t, p)).

(** ** Construction: a nil interface or function of the Go configuration is
    [None] or [false] here *)
Record ServiceConfig := {
  sf_EdgeID : string;
  sf_EdgeGeneration : Z;
  sf_PrincipalID : string;
  sf_AuthorKeyID : string;
  sf_Signer : option Ed25519SigningKey;
  sf_Store : bool;
  sf_Gateway : bool;
  sf_NewID : bool;
  sf_EnvelopeTTL : Z
}.

Record FinalizerConfig := {
  ff_PrincipalID : string;
  ff_AuthorKeyID : string;
  ff_Signer : option Ed25519SigningKey;
  ff_Cases : bool;
  ff_Spool : bool;
  ff_Gateway : bool;
  ff_NewID : bool;
  ff_EnvelopeTTL : Z
}.

(** [NewCaseSigner] and [NewAdviceSigner]. *)
Definition NewCaseSigner (key : Ed25519SigningKey) : result ServiceError Ed25519SigningKey :=
  if signing_is_zero key then Err (ErrService "case signing key is required") else Ok key.
Definition NewAdviceSigner (key : Ed25519SigningKey) : result ServiceError Ed25519SigningKey :=
  if signing_is_zero key then Err (ErrService "advice signing key is required") else Ok key.

Definition NewService (c : ServiceConfig) : result ServiceError Service :=
  match sf_Signer c with
  | None => Err (ErrService "edge identity, signer, store, gateway, and ID generator are required")
  | Some signer =>
      if is_empty (sf_EdgeID c) || (sf_EdgeGeneration c <=? 0) || is_empty (sf_PrincipalID c)
         || is_empty (sf_AuthorKeyID c) || negb (sf_Store c) || negb (sf_Gateway c) || negb (sf_NewID c)
      then Err (ErrService "edge identity, signer, store, gateway, and ID generator are required")
      else if sf_EnvelopeTTL c <=? 0 then Err (ErrService "envelope TTL must be positive")
      else Ok {| sv_edgeID := sf_EdgeID c; sv_edgeGeneration := sf_EdgeGeneration c;
                 sv_principalID := sf_PrincipalID c; sv_authorKeyID := sf_AuthorKeyID c;
                 sv_signer := signer; sv_ttl := sf_EnvelopeTTL c |}
  end.

Definition NewFinalizer (c : FinalizerConfig) : result ServiceError Finalizer :=
  match ff_Signer c with
  | None => Err (ErrService "dispatcher identity, signer, cases, advice spool, gateway, positive TTL, and ID generator are required")
  | Some signer =>
      if is_empty (ff_PrincipalID c) || is_empty (ff_AuthorKeyID c) || negb (ff_Cases c) || negb (ff_Spool c)
         || negb (ff_Gateway c) || negb (ff_NewID c) || (ff_EnvelopeTTL c <=? 0)
      then Err (ErrService "dispatcher identity, signer, cases, advice spool, gateway, positive TTL, and ID generator are required")
      else Ok {| fz_principalID := ff_PrincipalID c; fz_authorKeyID := ff_AuthorKeyID c; fz_signer := signer;
                 fz_ttl := ff_EnvelopeTTL c |}
  end.

(** What the outside answers during one call: the fault of each read, the
    clock when the envelope is built and after the gateway answered, the
    identifier generator, and the environments of the two transactions. *)
Record CallEnv := {
  ce_load : option string;
  ce_read : option string;
  ce_now : Z;
  ce_id : result string string;
  ce_save : TxEnv;
  ce_after : Z;
  ce_mark : TxEnv
}.

Section Open.
Context `{Jcs} `{Ed25519} `{AEAD} `{GatewayClient} (tenant : string).

Definition SignCase (key : Ed25519SigningKey) (e : Envelope) (now : Z) : result SspErr bytes :=
  if Schema e <>s? SspFamilyCase then Err (ErrSsp "case signer only signs ssp.case.v1") else Sign e key now.
Definition SignAdvice (key : Ed25519SigningKey) (e : Envelope) (now : Z) : result SspErr bytes :=
  if Schema e <>s? SspFamilyAdvice then Err (ErrSsp "advice signer only signs ssp.advice.v1") else Sign e key now.

Definition OpenCase (sv : Service) (r : OpenCaseRequest) (env : CallEnv) (s : EdgeDB)
  : EdgeDB * (Submission * option ServiceError) * list (WorkloadIdentity * bytes) :=
  let failed e := (s, (no_submission, Some e), []) in
  match validateOpenCaseRequest r with
  | Err e => failed e
  | Ok _ =>
      match LoadPendingCase tenant (oc_CaseID r) (ce_load env) s with
      | Err _ => failed (ErrService "load pending case")
      | Ok (Some _) => failed ErrAlreadyPending
      | Ok None =>
          let now := ce_now env in
          match ce_id env with
          | Err _ => failed (ErrService "create envelope ID")
          | Ok id =>
              match SignCase (sv_signer sv) (case_envelope sv r id now) now with
              | Err _ => failed (ErrService "sign case")
              | Ok raw =>
                  match EnvelopeCommitment raw now with
                  | Err _ => failed (ErrService "commit signed case")
                  | Ok commitment =>
                      let pending := {| ep_EnvelopeID := id; ep_CaseID := oc_CaseID r; ep_Commitment := commitment;
                                        ep_Raw := raw; ep_CreatedAt := now |} in
                      match SavePendingCase tenant pending (ce_save env) s with
                      | (s', Err _) => (s', (no_submission, Some (ErrService "save pending case")), [])
                      | (s', Ok _) => submitPending sv pending (ce_after env) (ce_mark env) s'
                      end
                  end
              end
          end
      end
  end.

(** ** Reads *)
Definition accepted_case (s : EdgeDB) (caseID : string) : option CaseRow :=
  match cases s !! caseID with
  | Some r => if er_state r =s? "accepted" then Some r else None
  | None => None
  end.

Definition GetCase (caseID : string) (fault : option string) (s : EdgeDB) : result string (option LocalCase) :=
  if blank caseID then Err "case ID is required"
  else match fault with
  | Some e => Err e
  | None =>
      match accepted_case s caseID with
      | None => Ok None
      | Some row =>
          plain ← open_field tenant "ssp_edge_cases" caseID (er_payload_ciphertext row);
          payload ← decodeCasePayload plain;
          expiresAt ← parseSQLTime (er_expires_at row);
          mret (Some {| lc_EnvelopeID := er_envelope_id row; lc_CaseID := caseID;
                        lc_Commitment := er_commitment row; lc_Summary := py_Summary payload;
                        lc_Registry := {| rx_RoutingEpoch := er_routing_epoch row;
                                          rx_Revision := er_registry_revision row;
                                          rx_Hash := er_registry_hash row |};
                        lc_ExpiresAt := expiresAt; lc_Committed := true |})
      end
  end.

Definition found {A} (x : result string (option A)) : result ServiceError A :=
  match x with
  | Err e => Err (ErrService e)
  | Ok None => Err ErrNotFound
  | Ok (Some a) => Ok a
  end.
Definition ServiceGetCase (caseID : string) (fault : option string) (s : EdgeDB) : result ServiceError LocalCase :=
  found (GetCase caseID fault s).
Definition ServiceListAdvice (caseID : string) (fault : option string) (s : EdgeDB)
  : result string (list AdviceView) := ListAdvice tenant caseID fault s.
Definition ServicePresentAdvice (adviceID : string) (fault : option string) (s : EdgeDB)
  : result ServiceError AdviceView := found (PresentAdvice tenant adviceID fault s).

(** ** The final advice of a case *)
Definition pendingAdviceMatchesRequest (raw : bytes) (r : FinalizeAdviceRequest) (now : Z) : result SspErr bool :=
  EnvelopeCommitment raw now;;
  envelope ← of_option (ErrSsp "unmarshal envelope") (unmarshal_envelope raw);
  if Schema envelope <>s? SspFamilyAdvice then Err (ErrSsp "stored envelope is not advice")
  else
    '(caseCommitment, text, publicSummary) ←
      of_option (ErrSsp "unmarshal advice body") (unmarshal_advice_body (Body envelope));
    Ok ((CaseID envelope =s? fa_CaseID r) && (caseCommitment =s? fa_CaseCommitment r)
        && (text =s? fa_Text r) && (publicSummary =s? fa_PublicSummary r)).

Definition FinalizeAdvice (fz : Finalizer) (r : FinalizeAdviceRequest) (env : CallEnv) (s : EdgeDB)
  : EdgeDB * (Submission * option ServiceError) * list (WorkloadIdentity * bytes) :=
  let failed e := (s, (no_submission, Some e), []) in
  match validateFinalizeAdviceRequest r with
  | Err e => failed e
  | Ok _ =>
      match LoadPendingAdvice tenant (fa_CaseID r) (ce_load env) s with
      | Err _ => failed (ErrService "load pending advice")
      | Ok (Some pending) =>
          match pendingAdviceMatchesRequest (ea_Raw pending) r (ce_now env) with
          | Err _ => failed (ErrService "decode pending advice")
          | Ok matches => failed (if matches then ErrAlreadyPending else ErrPendingAdviceConflict)
          end
      | Ok None =>
          match GetCase (fa_CaseID r) (ce_read env) s with
          | Err _ => failed (ErrService "read committed case")
          | Ok None => failed ErrNotFound
          | Ok (Some c) =>
              if negb (lc_Committed c) || (lc_Commitment c <>s? fa_CaseCommitment r) then failed ErrNotCommitted
              else
                let now := ce_now env in
                let expires := if lc_ExpiresAt c <? now + fz_ttl fz then lc_ExpiresAt c else now + fz_ttl fz in
                if expires <=? now then failed ErrNotCommitted
                else match ce_id env with
                | Err _ => failed (ErrService "create advice ID")
                | Ok id =>
                    match SignAdvice (fz_signer fz) (advice_envelope fz c r id now expires) now with
                    | Err _ => failed (ErrService "sign advice")
                    | Ok raw =>
                        match EnvelopeCommitment raw now with
                        | Err _ => failed (ErrService "commit signed advice")
                        | Ok commitment =>
                            let pending := {| ea_AdviceID := id; ea_CaseID := lc_CaseID c;
                                              ea_CaseCommitment := fa_CaseCommitment r; ea_Commitment := commitment;
                                              ea_Raw := raw; ea_CreatedAt := now |} in
                            match SavePendingAdvice tenant pending (ce_save env) s with
                            | (s', Err _) => (s', (no_submission, Some (ErrService "save pending advice")), [])
                            | (s', Ok _) => submitPendingAdvice fz pending (ce_after env) (ce_mark env) s'
                            end
                        end
                    end
                end
          end
      end
  end.
End Open.
