(* ===== verification/EdgeEnvelope.v ===== *)
(** * The envelopes an edge and a dispatcher sign

    The envelope of an opened case and of a final advice: its printed body
    reads back as the request, it passes the validation of internal/ssp and it
    always fits the 64 KiB of a wire. *)
From S2P Require Import Prelude GoText GoStrconv GoTime GoJson GoJsonRead GoBase64 GoUtf8 GoJsonText Sha256 DeliveryStream SqliteTx.
From S2P Require Import SspGuard SspBody SspRegistry SspEnvelope SspStrip SspTheorems SspSign GoJsonWire Registry ControlApi EdgeVerifier ControlTheorems GoJsonPrint.
From S2P Require Import EdgeStore EdgeApply EdgeSpool EdgeInv EdgeFront EdgeTurns EdgeSystem EdgeTheorems EdgeService EdgeOpen.
Open Scope string_scope.
Open Scope Z_scope.
Open Scope snag_scope.

(** ** Instants *)

(** The instants SSP can name: the years 1 to 9999. *)
Definition ssp_instant (t : Z) : bool :=
  let '(y, _, _) := civil_of_days (t / day) in (1 <=? y) && (y <=? 9999).

Definition whole_seconds (t : Z) : Z := t / second * second.

Lemma whole_seconds_le t : whole_seconds t <= t < whole_seconds t + second.
Proof. unfold whole_seconds, second. zdiv. Qed.

Lemma whole_seconds_day t : whole_seconds t / day = t / day.
Proof. unfold whole_seconds, day, hour, minute, second. zdiv. Qed.

Lemma format_seconds_parse t : ssp_instant t = true -> ParseTimestamp (format_seconds t) = Some (whole_seconds t).
Proof.
  unfold ssp_instant. rewrite <- whole_seconds_day. destruct (civil_of_days _) as [[y m] d] eqn:E. intros Hy. bools.
  apply (format_parse _ y m d); [done|lia|]. unfold whole_seconds, second. zdiv.
Qed.

Lemma format_seconds_plain t : ssp_instant t = true -> all_chars plain_json (format_seconds t) = true /\ len (format_seconds t) = 20.
Proof.
  intros Hy. split; [by apply format_plain|]. unfold ssp_instant in Hy. rewrite <- whole_seconds_day in Hy.
  unfold format_seconds, format_nano, format_with. fold (whole_seconds t).
  destruct (civil_of_days _) as [[y m] d] eqn:E. destruct (civil_roundtrip _ _ _ _ E) as (_ & Hm & Hd). bools.
  assert (Hdin : days_in y m <= 31) by (unfold days_in; repeat case_match; lia).
  pose proof (Z.mod_pos_bound (whole_seconds t) day ltac:(done)) as Hr. destruct (clock_fields _ Hr) as (Hh & Hmi & Hs & _ & _).
  assert (Hf : whole_seconds t mod day mod second = 0)
    by (rewrite Z.mod_mod_divide by (by exists 86400); by apply Z.mod_mul).
  rewrite Hf. rewrite !len_app, !len_pad by (cbn; lia). done.
Qed.

(** ** The printed bodies *)
Definition case_json (sv : Service) (r : OpenCaseRequest) : members :=
  [("domain", json_string (oc_Domain r), JString (oc_Domain r));
   ("issuer_edge_id", json_string (sv_edgeID sv), JString (sv_edgeID sv));
   ("issuer_edge_generation", dec (sv_edgeGeneration sv), JNumber (dec (sv_edgeGeneration sv)));
   ("summary", json_string (oc_Summary r), JString (oc_Summary r));
   ("public_summary", json_string (oc_PublicSummary r), JString (oc_PublicSummary r));
   ("context_manifest", json_string (oc_ContextManifest r), JString (oc_ContextManifest r))].

Definition advice_json (r : FinalizeAdviceRequest) : members :=
  [("case_commitment", json_string (fa_CaseCommitment r), JString (fa_CaseCommitment r));
   ("text", json_string (fa_Text r), JString (fa_Text r));
   ("public_summary", json_string (fa_PublicSummary r), JString (fa_PublicSummary r))].

(** A body of printed members with distinct names. *)
Record printed_body (raw : bytes) (l : members) : Prop := {
  pb_text : text_of raw (JObject l);
  pb_printed : printed_text raw;
  pb_nodup : NoDup (keys_of l);
  pb_not_null : Forall (fun m => m.2 <> JNull) l
}.

Lemma body_compact raw l : printed_body raw l -> compact_body raw (JObject l).
Proof. intros [Ht Hp _ _]. split; [done|by apply printed_compact]. Qed.

Lemma body_exact raw l : printed_body raw l -> exactObject raw = Ok l /\ Forall (fun m => text_of m.1.2 m.2) l.
Proof. intros [Ht _ _ _]. by apply exactObject_spec, parse_text. Qed.

Lemma body_members raw l : printed_body raw l -> requireExactMembers l (keys_of l) (keys_of l) = Ok tt.
Proof.
  intros Hb. destruct (body_exact _ _ Hb) as [_ Ht]. apply requireExact_ok; [apply Hb| |done].
  pose proof (pb_not_null _ _ Hb) as Hn. rewrite Forall_forall in *. intros m Hm. auto.
Qed.

Definition request_texts (r : OpenCaseRequest) : Prop :=
  utf8_valid (oc_Domain r) = true /\ utf8_valid (oc_Summary r) = true /\ utf8_valid (oc_PublicSummary r) = true /\
  utf8_valid (oc_ContextManifest r) = true.

Lemma case_body_printed sv r : request_texts r -> utf8_valid (sv_edgeID sv) = true -> 0 <= sv_edgeGeneration sv ->
  printed_body (case_body sv r) (case_json sv r).
Proof.
  intros (Hd & Hs & Hp & Hm) He Hg. split.
  - change (case_json sv r) with (zip_with (fun p v => (p.1, p.2, v)) (case_fields sv r) (snd <$> case_json sv r)).
    apply text_object. repeat constructor; try done; (by apply text_string) || by apply text_dec.
  - apply printed_object. repeat constructor; try done; (by apply printed_string) || by apply printed_dec.
  - apply (bool_decide_unpack _). vm_compute. exact I.
  - repeat constructor; done.
Qed.

Lemma advice_body_printed r : utf8_valid (fa_CaseCommitment r) = true -> utf8_valid (fa_Text r) = true ->
  utf8_valid (fa_PublicSummary r) = true -> printed_body (advice_body r) (advice_json r).
Proof.
  intros Hc Ht Hp. split.
  - change (advice_json r) with (zip_with (fun p v => (p.1, p.2, v)) (advice_fields r) (snd <$> advice_json r)).
    apply text_object. repeat constructor; try done; by apply text_string.
  - apply printed_object. repeat constructor; try done; by apply printed_string.
  - apply (bool_decide_unpack _). vm_compute. exact I.
  - repeat constructor; done.
Qed.

(** ** Validated requests *)
Lemma bounded_text v n : validBoundedText v n = true <-> utf8_valid v = true /\ 1 <= rune_count v <= n.
Proof. unfold validBoundedText. rewrite !andb_true_iff, !Z.leb_le. tauto. Qed.

Lemma validateOpenCaseRequest_ok r : validateOpenCaseRequest r = Ok tt <->
  validOpaqueID (oc_CaseID r) = true /\ validOpaqueID (oc_Domain r) = true /\
  (utf8_valid (oc_Summary r) = true /\ 1 <= rune_count (oc_Summary r) <= 4096) /\
  (utf8_valid (oc_PublicSummary r) = true /\ 1 <= rune_count (oc_PublicSummary r) <= 1024) /\
  sha256_pattern (oc_ContextManifest r) = true /\ sha256_pattern (rx_Hash (oc_Registry r)) = true /\
  0 <= rx_RoutingEpoch (oc_Registry r) /\ 0 <= rx_Revision (oc_Registry r).
Proof.
  unfold validateOpenCaseRequest. change validOpaque with validOpaqueID. rewrite <- !bounded_text.
  destruct (validOpaqueID (oc_CaseID r)), (validOpaqueID (oc_Domain r)), (validBoundedText (oc_Summary r) _),
    (validBoundedText (oc_PublicSummary r) _); cbn [negb orb]; try (split; [done|naive_solver]).
  destruct (sha256_pattern (oc_ContextManifest r)), (sha256_pattern (rx_Hash _)); cbn [negb orb]; try (split; [done|naive_solver]).
  destruct (Z.ltb_spec (rx_RoutingEpoch (oc_Registry r)) 0), (Z.ltb_spec (rx_Revision (oc_Registry r)) 0); cbn [orb];
    (split; [intros; try discriminate; split_and!; (reflexivity || assumption)|intros (_ & _ & _ & _ & _ & _ & ? & ?); (done || lia)]).
Qed.

Lemma validateFinalizeAdviceRequest_ok r : validateFinalizeAdviceRequest r = Ok tt <->
  validOpaqueID (fa_CaseID r) = true /\ sha256_pattern (fa_CaseCommitment r) = true /\
  (utf8_valid (fa_Text r) = true /\ 1 <= rune_count (fa_Text r) <= 8192) /\
  (utf8_valid (fa_PublicSummary r) = true /\ 1 <= rune_count (fa_PublicSummary r) <= 1024).
Proof.
  unfold validateFinalizeAdviceRequest. change validOpaque with validOpaqueID. rewrite <- !bounded_text.
  destruct (validOpaqueID (fa_CaseID r)), (sha256_pattern (fa_CaseCommitment r)), (validBoundedText (fa_Text r) _),
    (validBoundedText (fa_PublicSummary r) _); cbn [negb orb]; naive_solver.
Qed.

Lemma opaque_utf8 v : validOpaqueID v = true -> utf8_valid v = true /\ rune_count v <= 512.
Proof. unfold validOpaqueID. intros H. by bools. Qed.

Lemma pattern_utf8 v : sha256_pattern v = true -> utf8_valid v = true.
Proof. intros H%pattern_ascii. by apply ascii_utf8. Qed.

Lemma valid_request_texts r : validateOpenCaseRequest r = Ok tt -> request_texts r.
Proof.
  intros (_ & [Hd _]%opaque_utf8 & [Hs _] & [Hp _] & Hm%pattern_utf8 & _)%validateOpenCaseRequest_ok. by split_and!.
Qed.

Lemma valid_advice_printed r : validateFinalizeAdviceRequest r = Ok tt -> printed_body (advice_body r) (advice_json r).
Proof.
  intros (_ & Hc%pattern_utf8 & [Ht _] & [Hp _])%validateFinalizeAdviceRequest_ok. by apply advice_body_printed.
Qed.

(** ** The bodies pass the family checks and read back as the request *)
Section Read.
Context (raw : bytes) (l : members) (Hb : printed_body raw l).

Lemma body_string k raw' v : In (k, raw', JString v) l -> requiredString l k = Ok v.
Proof using Hb. destruct (body_exact _ _ Hb) as [_ Ht]. by apply requiredString_ok, Ht; apply Hb. Qed.

Lemma body_integer k z : 0 <= z <= maxSafeInteger -> In (k, dec z, JNumber (dec z)) l -> requiredNonNegativeInteger l k = Ok z.
Proof using Hb. destruct (body_exact _ _ Hb) as [_ Ht]. by apply requiredInteger_ok, Ht; apply Hb. Qed.

Lemma body_field_string k raw' v : In (k, raw', JString v) l -> field decode_string "" l k = Some v.
Proof using Hb. intros Hin. by rewrite (field_one _ _ _ _ _ _ (pb_nodup _ _ Hb) Hin). Qed.

Lemma body_field_integer k z : 0 <= z <= maxSafeInteger -> In (k, dec z, JNumber (dec z)) l -> field decode_int64 0 l k = Some z.
Proof using Hb. intros Hz Hin. rewrite (field_one _ _ _ _ _ _ (pb_nodup _ _ Hb) Hin). by apply ParseInt_dec0. Qed.
End Read.

Ltac member_in := cbn; tauto.

Lemma check_number_dec z : 0 <= z <= maxSafeInteger -> check_number (dec z) = Ok tt.
Proof.
  intros Hz. unfold check_number. rewrite ParseInt_dec0 by done.
  assert (Hf : all_chars (fun a => negb (float_char a)) (dec z) = true).
  { destruct (Z.eq_dec z 0) as [->|]; [done|]. destruct (dec_digits z) as (a & d & -> & Ha & Hd); [lia|].
    cbn [all_chars]. apply andb_true_iff. split.
    - revert Ha. clear. destruct a as [[] [] [] [] [] [] [] []]; vm_compute; done.
    - revert Hd. apply all_chars_weaken. clear. intros b. destruct b as [[] [] [] [] [] [] [] []]; vm_compute; done. }
  rewrite Hf. cbn [negb]. unfold reject. by rewrite !(proj2 (Z.ltb_ge _ _)) by lia.
Qed.

(** The number walk of a flat object of strings and safe integers. *)
Lemma walk_flat (l : members) :
  Forall (fun m => match m.2 with JString _ => True | JNumber t => check_number t = Ok tt | _ => False end) l ->
  walk (JObject l) = Ok tt.
Proof.
  induction 1 as [|[k v] l Hm _ IH]; [done|]. cbn [walk] in IH |- *. cbn [snd] in Hm. destruct (mem _ _); cbn [mbind result_bind fst snd]; [done|].
  destruct v; try done. cbn [walk]. by rewrite Hm.
Qed.

Lemma body_numbers raw l : printed_body raw l ->
  Forall (fun m => match m.2 with JString _ => True | JNumber t => check_number t = Ok tt | _ => False end) l ->
  validateNumbers raw = Ok tt.
Proof.
  intros Hb Hl. pose proof (pb_text _ _ Hb) as Ht. apply parse_text in Ht. unfold parse in Ht. unfold validateNumbers.
  destruct (read_value _) as [[v z]|]; [|done]. cbn [mbind option_bind] in Ht. destruct (is_empty _); [|done]. injection Ht as ->.
  by apply walk_flat.
Qed.

Lemma case_body_valid sv r : validateOpenCaseRequest r = Ok tt -> validOpaqueID (sv_edgeID sv) = true ->
  0 < sv_edgeGeneration sv <= maxSafeInteger ->
  validateNumbers (case_body sv r) = Ok tt /\ validateCaseAdviceBody SspFamilyCase (case_body sv r) = Ok tt.
Proof.
  intros Hr He Hg. pose proof (opaque_utf8 _ He) as [Heu _].
  pose proof (case_body_printed sv r (valid_request_texts _ Hr) Heu ltac:(lia)) as Hb.
  apply validateOpenCaseRequest_ok in Hr as (_ & Hd & [_ Hs] & [_ Hp] & Hm & _). destruct (body_exact _ _ Hb) as [Hx _]. split.
  - apply (body_numbers _ _ Hb). repeat constructor. apply check_number_dec. lia.
  - unfold validateCaseAdviceBody. rewrite (pt_utf8 _ (pb_printed _ _ Hb)), Hx. cbn [negb mbind result_bind].
    rewrite String.eqb_refl. pose proof (body_members _ _ Hb) as Hm'. change (keys_of (case_json sv r)) with case_members in Hm'.
    rewrite Hm'. cbn [mbind result_bind].
    rewrite (body_string _ _ Hb "domain" (json_string (oc_Domain r)) (oc_Domain r)),
      (body_string _ _ Hb "issuer_edge_id" (json_string (sv_edgeID sv)) (sv_edgeID sv)),
      (body_integer _ _ Hb "issuer_edge_generation" (sv_edgeGeneration sv)) by (member_in || lia).
    cbn [mbind result_bind]. rewrite (proj2 (Z.eqb_neq (sv_edgeGeneration sv) 0)) by lia.
    rewrite (body_string _ _ Hb "summary" (json_string (oc_Summary r)) (oc_Summary r)),
      (body_string _ _ Hb "public_summary" (json_string (oc_PublicSummary r)) (oc_PublicSummary r)),
      (body_string _ _ Hb "context_manifest" (json_string (oc_ContextManifest r)) (oc_ContextManifest r)) by member_in.
    cbn [mbind result_bind]. rewrite Hd, He, Hm, !(proj2 (Z.eqb_neq _ 0)), !(proj2 (Z.ltb_ge _ _)) by lia. done.
Qed.

Lemma advice_body_valid r : validateFinalizeAdviceRequest r = Ok tt ->
  validateNumbers (advice_body r) = Ok tt /\ validateCaseAdviceBody SspFamilyAdvice (advice_body r) = Ok tt.
Proof.
  intros Hr. pose proof (valid_advice_printed _ Hr) as Hb.
  apply validateFinalizeAdviceRequest_ok in Hr as (_ & Hc & [_ Ht] & [_ Hp]). destruct (body_exact _ _ Hb) as [Hx _]. split.
  - apply (body_numbers _ _ Hb). repeat constructor.
  - unfold validateCaseAdviceBody. rewrite (pt_utf8 _ (pb_printed _ _ Hb)), Hx. cbn [negb mbind result_bind].
    change (SspFamilyAdvice =s? SspFamilyCase) with false. cbn iota. rewrite String.eqb_refl.
    pose proof (body_members _ _ Hb) as Hm'. change (keys_of (advice_json r)) with advice_members in Hm'. rewrite Hm'.
    cbn [mbind result_bind].
    rewrite (body_string _ _ Hb "case_commitment" (json_string (fa_CaseCommitment r)) (fa_CaseCommitment r)),
      (body_string _ _ Hb "text" (json_string (fa_Text r)) (fa_Text r)),
      (body_string _ _ Hb "public_summary" (json_string (fa_PublicSummary r)) (fa_PublicSummary r)) by member_in.
    cbn [mbind result_bind]. rewrite Hc, !(proj2 (Z.eqb_neq _ 0)), !(proj2 (Z.ltb_ge _ _)) by lia. done.
Qed.

(** The edge, and control, read from the body what the request said. *)
Lemma case_body_reads sv r : validateOpenCaseRequest r = Ok tt -> validOpaqueID (sv_edgeID sv) = true ->
  0 < sv_edgeGeneration sv <= maxSafeInteger ->
  decode_verified_case (case_body sv r) = Some (mkVerifiedCase (oc_Domain r) (sv_edgeID sv) (sv_edgeGeneration sv)
    (oc_Summary r) (oc_PublicSummary r) (oc_ContextManifest r)).
Proof.
  intros Hr [He _]%opaque_utf8 Hg. pose proof (case_body_printed sv r (valid_request_texts _ Hr) He ltac:(lia)) as Hb.
  unfold decode_verified_case. rewrite (parse_text _ _ (pb_text _ _ Hb)). cbn [mbind option_bind decode_struct].
  rewrite (body_field_string _ _ Hb "domain" (json_string (oc_Domain r)) (oc_Domain r)),
    (body_field_string _ _ Hb "issuer_edge_id" (json_string (sv_edgeID sv)) (sv_edgeID sv)),
    (body_field_integer _ _ Hb "issuer_edge_generation" (sv_edgeGeneration sv)),
    (body_field_string _ _ Hb "summary" (json_string (oc_Summary r)) (oc_Summary r)),
    (body_field_string _ _ Hb "public_summary" (json_string (oc_PublicSummary r)) (oc_PublicSummary r)),
    (body_field_string _ _ Hb "context_manifest" (json_string (oc_ContextManifest r)) (oc_ContextManifest r))
    by (member_in || lia).
  done.
Qed.

Lemma advice_body_reads r : validateFinalizeAdviceRequest r = Ok tt ->
  decode_verified_advice (advice_body r) = Some (mkVerifiedAdvice (fa_CaseCommitment r) (fa_Text r) (fa_PublicSummary r)).
Proof.
  intros Hb%valid_advice_printed. unfold decode_verified_advice. rewrite (parse_text _ _ (pb_text _ _ Hb)).
  cbn [mbind option_bind decode_struct].
  rewrite (body_field_string _ _ Hb "case_commitment" (json_string (fa_CaseCommitment r)) (fa_CaseCommitment r)),
    (body_field_string _ _ Hb "text" (json_string (fa_Text r)) (fa_Text r)),
    (body_field_string _ _ Hb "public_summary" (json_string (fa_PublicSummary r)) (fa_PublicSummary r)) by member_in.
  done.
Qed.

(** ** Sizes *)
Ltac literal_lengths ss := match ss with
  | ?s :: ?ss => (let n := eval vm_compute in (len (json_string s)) in change (len (json_string s)) with n in * ); literal_lengths ss
  | _ => idtac
  end.

Lemma len_dec_safe z : 0 <= z <= maxSafeInteger -> len (dec z) <= 16.
Proof. intros Hz. apply len_dec_pow; unfold maxSafeInteger in *; lia. Qed.

Lemma len_opaque v : validOpaqueID v = true -> len (json_string v) <= 3074.
Proof. intros [Hu Hr]%opaque_utf8. pose proof (len_json_string v Hu). lia. Qed.

Lemma len_pattern v : sha256_pattern v = true -> len (json_string v) = 73.
Proof. intros [Hp Hl]%pattern_plain. rewrite len_plain by done. lia. Qed.

(** What an envelope of a case or an advice adds to its body. *)
Lemma len_wire e v : len (json_string (Schema e)) <= 15 -> validOpaqueID (ID e) = true -> validOpaqueID (CaseID e) = true ->
  validOpaqueID (AuthorKeyID e) = true -> len (json_string (EmittedAt e)) = 22 -> len (json_string (ExpiresAt e)) = 22 ->
  0 <= RoutingEpoch e <= maxSafeInteger -> 0 <= RegistryRevision e <= maxSafeInteger ->
  sha256_pattern (RegistryHash e) = true -> SignatureAlg e = "ed25519" -> len (json_string (Signature e)) <= 88 ->
  len (braced (printed_members e v)) <= len (Body e) + 9649.
Proof.
  intros Hs Hid%len_opaque Hc Ha%len_opaque He Hx Hr%len_dec_safe Hv%len_dec_safe Hh Halg Hsig.
  pose proof (len_opaque _ Hc) as Hcl. pose proof (len_pattern _ Hh) as Hhl.
  assert (Hce : CaseID e <> "") by by apply opaque_nonempty. assert (Hhe : RegistryHash e <> "") by (by intros E; rewrite E in Hh).
  unfold braced, printed_members. rewrite !fmap_app, !omit_texts. unfold omit_empty.
  rewrite (proj2 (String.eqb_neq _ _) Hce), (proj2 (String.eqb_neq _ _) Hhe).
  rewrite !len_app, len_join. change (len "{") with 1. change (len "}") with 1.
  destruct (Signature e =s? ""); cbn [fmap list_fmap app foldr length fst str_member num_member]; rewrite !len_member, Halg;
    literal_lengths ["schema"; "id"; "case_id"; "emitted_at"; "expires_at"; "routing_epoch"; "registry_revision";
      "registry_hash"; "author_key_id"; "signature_alg"; "body"; "signature"; "ed25519"]; lia.
Qed.

Lemma len_case_body sv r : validateOpenCaseRequest r = Ok tt -> validOpaqueID (sv_edgeID sv) = true ->
  0 < sv_edgeGeneration sv <= maxSafeInteger -> len (case_body sv r) <= 37065.
Proof.
  intros (_ & Hd%len_opaque & [Hsu Hs] & [Hpu Hp] & Hm%len_pattern & _)%validateOpenCaseRequest_ok He%len_opaque Hg.
  pose proof (len_json_string _ Hsu). pose proof (len_json_string _ Hpu).
  pose proof (len_dec_safe (sv_edgeGeneration sv) ltac:(lia)).
  unfold case_body, json_object. rewrite !len_app, len_join. change (len "{") with 1. change (len "}") with 1.
  cbn [case_fields map foldr length fst snd]. rewrite !len_member.
  literal_lengths ["domain"; "issuer_edge_id"; "issuer_edge_generation"; "summary"; "public_summary"; "context_manifest"]. lia.
Qed.

Lemma len_advice_body r : validateFinalizeAdviceRequest r = Ok tt -> len (advice_body r) <= 55421.
Proof.
  intros (_ & Hc%len_pattern & [Htu Ht] & [Hpu Hp])%validateFinalizeAdviceRequest_ok.
  pose proof (len_json_string _ Htu). pose proof (len_json_string _ Hpu).
  unfold advice_body, json_object. rewrite !len_app, len_join. change (len "{") with 1. change (len "}") with 1.
  cbn [advice_fields map foldr length fst snd]. rewrite !len_member.
  literal_lengths ["case_commitment"; "text"; "public_summary"]. lia.
Qed.

(** ** Signing *)

(** RFC 8785 canonicalizes every wire within the raw guard. *)
Class JcsTotal `{Jcs} : Prop := jcs_total w : rawGuard w = Ok tt -> is_Some (jcs_transform w).

(** The header and body facts both families share. *)
Record signable (e : Envelope) (l : members) (now : Z) : Prop := {
  sg_body : printed_body (Body e) l;
  sg_values : forallb (fun m => guard_ok 2 m.2) l = true;
  sg_valid : Validate e now = Ok tt;
  sg_unsigned : Signature e = "";
  sg_schema : len (json_string (Schema e)) <= 15;
  sg_case : validOpaqueID (CaseID e) = true;
  sg_emitted : len (json_string (EmittedAt e)) = 22;
  sg_expires : len (json_string (ExpiresAt e)) = 22;
  sg_hash : sha256_pattern (RegistryHash e) = true;
  sg_size : len (Body e) + 9649 <= MaxEnvelopeBytes
}.

Section Signing.
Context `{Jcs} `{!JcsTotal} `{Ed25519Laws}.

Lemma signable_guard e l now sig : signable e l now -> all_chars plain_json sig = true -> len sig <= 86 ->
  rawGuard (braced (printed_members (with_signature e sig) (JObject l))) = Ok tt /\
  len (braced (printed_members (with_signature e sig) (JObject l))) <= MaxEnvelopeBytes.
Proof using Type.
  intros [Hb Hv Hval _ Hs Hc He Hx Hh Hz] Hp Hl.
  pose proof Hval as ((_ & Hid & Hau & Halg & _ & _ & Hr1 & Hr2 & _) & _)%Validate_exact.
  assert (Hlen : len (braced (printed_members (with_signature e sig) (JObject l))) <= MaxEnvelopeBytes).
  { etransitivity; [apply (len_wire (with_signature e sig)); try done|exact Hz]. cbn [Signature with_signature].
    rewrite len_plain by done. lia. }
  split; [|done]. apply guard_printed; try done; [|apply Hb|apply Hb|].
  - apply (valid_fields _ now); [done|by apply plain_utf8].
  - cbn [guard_ok]. rewrite (bool_decide_true _ (pb_nodup _ _ Hb)). done.
Qed.

Lemma signable_signs e l key now : signable e l now -> len (privateKey key) = PrivateKeySize ->
  exists wire, Sign e key now = Ok wire /\ len wire <= MaxEnvelopeBytes.
Proof using All.
  intros Hs Hk. pose proof (body_compact _ _ (sg_body _ _ _ Hs)) as Hb.
  destruct (signable_guard e l now "" Hs eq_refl ltac:(done)) as [Hg0 _].
  destruct (jcs_total _ Hg0) as [c Hc].
  assert (Hz : signing_is_zero key = false) by (unfold signing_is_zero; destruct (privateKey key); done).
  set (sig := b64_encode (ed25519_sign (privateKey key) c)).
  destruct (signable_guard e l now sig Hs) as [Hg Hl]; [apply b64_plain| |].
  { unfold sig. rewrite b64_length, ed25519_sign_size by done. done. }
  eexists. split; [|exact Hl]. unfold Sign, key_sign, canonical. rewrite Hz.
  rewrite (Validate_signature e "" now), (sg_valid _ _ _ Hs). cbn [mbind result_bind].
  rewrite (marshal_printed _ (JObject l)) by done. cbn [mbind result_bind]. rewrite Hg0. cbn [mbind result_bind].
  rewrite Hc. cbn [mbind result_bind of_option].
  rewrite (marshal_printed _ (JObject l)) by done. cbn [mbind result_bind].
  match goal with |- context [rawGuard ?w] => change w with (braced (printed_members (with_signature e sig) (JObject l))) end.
  by rewrite Hg.
Qed.
End Signing.

(** ** The two envelopes are signable *)

(** A service and a finalizer with registered identities and a whole key. *)
Record service_ok (sv : Service) : Prop := {
  so_edge : validOpaqueID (sv_edgeID sv) = true;
  so_author : validOpaqueID (sv_authorKeyID sv) = true;
  so_generation : 0 < sv_edgeGeneration sv <= maxSafeInteger;
  so_key : len (privateKey (sv_signer sv)) = PrivateKeySize
}.

Definition safe_coordinates (x : RegistryCoordinates) : Prop :=
  0 <= rx_RoutingEpoch x <= maxSafeInteger /\ 0 <= rx_Revision x <= maxSafeInteger /\ sha256_pattern (rx_Hash x) = true.

Lemma window_valid now expires : ssp_instant now = true -> ssp_instant expires = true -> now < whole_seconds expires ->
  exists em ex, ParseTimestamp (format_seconds now) = Some em /\ ParseTimestamp (format_seconds expires) = Some ex /\
    em <= now < ex.
Proof.
  intros Hn He Hw. exists (whole_seconds now), (whole_seconds expires). rewrite !format_seconds_parse by done.
  pose proof (whole_seconds_le now). split_and!; (done || lia).
Qed.

Lemma window_of_ttl now ttl : second <= ttl -> now < whole_seconds (now + ttl).
Proof. unfold whole_seconds, second. zdiv. Qed.

Lemma format_seconds_length t : ssp_instant t = true -> len (json_string (format_seconds t)) = 22.
Proof. intros [Hp Hl]%format_seconds_plain. rewrite len_plain by done. lia. Qed.

Lemma case_signable sv r id now : service_ok sv -> second <= sv_ttl sv -> validateOpenCaseRequest r = Ok tt ->
  safe_coordinates (oc_Registry r) -> validOpaqueID id = true -> ssp_instant now = true -> ssp_instant (now + sv_ttl sv) = true ->
  signable (case_envelope sv r id now) (case_json sv r) now.
Proof.
  intros [He Ha Hg Hk] Ht Hr (Hep & Hrv & Hh) Hid Hn Hx. pose proof (opaque_utf8 _ He) as [Heu _].
  pose proof (case_body_printed sv r (valid_request_texts _ Hr) Heu ltac:(lia)) as Hb.
  destruct (case_body_valid sv r Hr He Hg) as [Hnum Hbody]. pose proof (len_case_body sv r Hr He Hg) as Hlen.
  pose proof Hr as (Hc & _)%validateOpenCaseRequest_ok.
  split; try done; cbn [case_envelope Body Schema CaseID EmittedAt ExpiresAt RegistryHash]; try by apply format_seconds_length.
  - cbn [forallb case_json guard_ok snd andb]. rewrite float_ok_dec by lia. done.
  - apply Validate_exact. split; [|by apply window_valid; [..|apply window_of_ttl]].
    unfold well_formed. cbn [case_envelope Schema ID AuthorKeyID SignatureAlg Body RoutingEpoch RegistryRevision RegistryHash].
    split_and!; try done; try lia.
    unfold check_shape. cbn [case_envelope Schema CaseID RegistryHash]. change (SspFamilyCase =s? SspFamilyRegistry) with false.
    rewrite Hc. assert (Hne : rx_Hash (oc_Registry r) <> "") by (by intros E; rewrite E in Hh).
    by rewrite (proj2 (String.eqb_neq _ _) Hne).
  - etransitivity; [apply Zplus_le_compat_r; exact Hlen|done].
Qed.

Lemma advice_signable fz c r id now expires : validOpaqueID (fz_authorKeyID fz) = true ->
  validateFinalizeAdviceRequest r = Ok tt -> validOpaqueID (lc_CaseID c) = true -> safe_coordinates (lc_Registry c) ->
  validOpaqueID id = true -> ssp_instant now = true -> ssp_instant expires = true -> now < whole_seconds expires ->
  signable (advice_envelope fz c r id now expires) (advice_json r) now.
Proof.
  intros Ha Hr Hc (Hep & Hrv & Hh) Hid Hn Hx Hw. pose proof (valid_advice_printed r Hr) as Hb.
  destruct (advice_body_valid r Hr) as [Hnum Hbody]. pose proof (len_advice_body r Hr) as Hlen.
  split; try done; cbn [advice_envelope Body Schema CaseID EmittedAt ExpiresAt RegistryHash]; try by apply format_seconds_length.
  - apply Validate_exact. split; [|by apply window_valid].
    unfold well_formed. cbn [advice_envelope Schema ID AuthorKeyID SignatureAlg Body RoutingEpoch RegistryRevision RegistryHash].
    split_and!; try done; try lia.
    unfold check_shape. cbn [advice_envelope Schema CaseID RegistryHash]. change (SspFamilyAdvice =s? SspFamilyRegistry) with false.
    rewrite Hc. assert (Hne : rx_Hash (lc_Registry c) <> "") by (by intros E; rewrite E in Hh).
    by rewrite (proj2 (String.eqb_neq _ _) Hne).
  - etransitivity; [apply Zplus_le_compat_r; exact Hlen|done].
Qed.
