(* ===== verification/EdgeOpenTheorems.v ===== *)
(** * What an edge signs, spools and submits

    [OpenCase] and [FinalizeAdvice] as a whole: nothing reaches the gateway
    that was not signed for the request and spooled first; a valid request gets
    that far; and a case has one final advice. *)
From S2P Require Import Prelude GoText GoStrconv GoTime GoJson GoJsonRead GoBase64 GoUtf8 GoJsonText Sha256 DeliveryStream SqliteTx.
From S2P Require Import SspGuard SspBody SspRegistry SspEnvelope SspStrip SspTheorems SspSign GoJsonWire Registry ControlApi EdgeVerifier ControlTheorems GoJsonPrint.
From S2P Require Import EdgeStore EdgeApply EdgeSpool EdgeInv EdgeFront EdgeTurns EdgeSystem EdgeTheorems EdgeService EdgeOpen EdgeEnvelope.
Open Scope string_scope.
Open Scope Z_scope.
Open Scope snag_scope.

Lemma private_key_present key : len (privateKey key) = PrivateKeySize -> signing_is_zero key = false.
Proof. unfold signing_is_zero. by destruct (privateKey key). Qed.

(** ** Opening a case *)
Section Open.
Context `{Jcs} `{Ed25519Laws} `{AEADLaws} `{GatewayClient} (tenant : string).

(** [p] is the spooled submission of [r]: a wire signed at [now] under the
    author key of the service, that decodes to the envelope built from the
    request, with the request in its body. *)
Record opened (sv : Service) (r : OpenCaseRequest) (now : Z) (p : PendingCase) : Prop := {
  od_case : ep_CaseID p = oc_CaseID r;
  od_created : ep_CreatedAt p = now;
  od_commitment : EnvelopeCommitment (ep_Raw p) now = Ok (ep_Commitment p);
  od_verifies : exists sig, forall vk keys, VerifyingKey (sv_signer sv) = Ok vk -> keys !! sv_authorKeyID sv = Some vk ->
    Verify (ep_Raw p) keys now = Ok (with_signature (case_envelope sv r (ep_EnvelopeID p) now) sig);
  od_body : decode_verified_case (case_body sv r) = Some (mkVerifiedCase (oc_Domain r) (sv_edgeID sv) (sv_edgeGeneration sv)
    (oc_Summary r) (oc_PublicSummary r) (oc_ContextManifest r))
}.

Lemma OpenCase_cases sv r env s s' b err calls : OpenCase tenant sv r env s = (s', (b, err), calls) ->
  (calls = [] /\ b = no_submission /\ is_Some err /\ s' = s) \/
  exists p s1, validateOpenCaseRequest r = Ok tt /\ LoadPendingCase tenant (oc_CaseID r) (ce_load env) s = Ok None /\
    ce_id env = Ok (ep_EnvelopeID p) /\ ep_CaseID p = oc_CaseID r /\ ep_CreatedAt p = ce_now env /\
    Sign (case_envelope sv r (ep_EnvelopeID p) (ce_now env)) (sv_signer sv) (ce_now env) = Ok (ep_Raw p) /\
    EnvelopeCommitment (ep_Raw p) (ce_now env) = Ok (ep_Commitment p) /\
    SavePendingCase tenant p (ce_save env) s = (s1, Ok tt) /\
    submitPending sv p (ce_after env) (ce_mark env) s1 = (s', (b, err), calls).
Proof using Type.
  unfold OpenCase. intros Ho.
  destruct (validateOpenCaseRequest r) as [[]|e] eqn:Hr; [|left; injection Ho as <- <- <- <-; eauto].
  destruct (LoadPendingCase _ _ _ _) as [[p|]|e] eqn:Hl; [left; injection Ho as <- <- <- <-; eauto| |left; injection Ho as <- <- <- <-; eauto].
  destruct (ce_id env) as [id|e] eqn:Hid; [|left; injection Ho as <- <- <- <-; eauto].
  destruct (SignCase _ _ _) as [raw|e] eqn:Hs; [|left; injection Ho as <- <- <- <-; eauto].
  destruct (EnvelopeCommitment _ _) as [commitment|e] eqn:Hc; [|left; injection Ho as <- <- <- <-; eauto].
  destruct (SavePendingCase _ _ _ _) as [s1 [[]|e]] eqn:Hsave.
  - right. eexists {| ep_EnvelopeID := id; ep_Raw := raw; ep_Commitment := commitment |}, s1. by split_and!.
  - apply SavePendingCase_cases in Hsave as [[-> _]|(? & _)]; [|done]. left. injection Ho as <- <- <- <-. eauto.
Qed.

Lemma signed_opened sv r now p : service_ok sv -> validateOpenCaseRequest r = Ok tt ->
  ep_CaseID p = oc_CaseID r -> ep_CreatedAt p = now ->
  Sign (case_envelope sv r (ep_EnvelopeID p) now) (sv_signer sv) now = Ok (ep_Raw p) ->
  EnvelopeCommitment (ep_Raw p) now = Ok (ep_Commitment p) -> opened sv r now p.
Proof using All.
  intros [He Ha Hg Hk] Hr Hci Hcr Hs Hd. pose proof (opaque_utf8 _ He) as [Heu _].
  pose proof (case_body_printed sv r (valid_request_texts _ Hr) Heu ltac:(lia)) as Hb. split; try done.
  - destruct (Sign_decodes (case_envelope sv r (ep_EnvelopeID p) now) _ _ _ _ (body_compact _ _ Hb) Hs Hk) as (c & Hz & Hc & Hdec). eexists.
    intros vk keys Hvk Hkey. by apply (signed_verifies _ (sv_signer sv) vk).
  - by apply case_body_reads.
Qed.

(** C22: an edge submits only what it signed for the request and spooled.
    Either [OpenCase] fails before the gateway is reached and the store is
    unchanged; or the case had no spooled submission, the spool now returns one
    ([opened]: under the new identifier, at the clock reading, a wire that
    verifies under the service's key to the envelope of the request, whose body
    reads back as the request with the edge as issuer, and whose commitment is
    recorded), and exactly one submission went to the gateway: that wire, under
    the service's identity.  Then either an error is reported and the store
    holds the spooled case as pending, or the gateway's receipt names that
    envelope and commitment and the case is durably accepted with it. *)
Theorem opened_case_exact sv r env s s' b err calls :
  service_ok sv -> four_digit_year (ce_now env) = true -> OpenCase tenant sv r env s = (s', (b, err), calls) ->
  (calls = [] /\ b = no_submission /\ is_Some err /\ s' = s) \/
  exists p s1, pending_cases s !! oc_CaseID r = None /\ ce_id env = Ok (ep_EnvelopeID p) /\ opened sv r (ce_now env) p /\
    SavePendingCase tenant p (ce_save env) s = (s1, Ok tt) /\
    LoadPendingCase tenant (oc_CaseID r) None s1 = Ok (Some p) /\
    calls = [(service_identity sv, ep_Raw p)] /\
    ((exists x, err = Some x /\ b = pending_submission p /\ s' = s1) \/
     (exists rc, EdgeService.Submit (service_identity sv) (ep_Raw p) = Ok rc /\ err = None /\
        b = accepted rc (pending_submission p) /\ case_admitted p rc s')).
Proof using All.
  intros Hok Hy [Hf|(p & s1 & Hr & Hl & Hid & Hc & Hn & Hs & Hd & Hsave & Hsub)]%OpenCase_cases; [by left|right].
  exists p, s1. assert (Hnone : pending_cases s !! oc_CaseID r = None).
  { unfold LoadPendingCase in Hl. destruct (blank _), (ce_load env); try done.
    destruct (pending_cases s !! oc_CaseID r) as [row|]; [|done]. cbn in Hl. destruct (parseSQLTime _); [|done].
    cbn in Hl. by destruct (open_field _ _ _ _). }
  pose proof (signed_opened sv r _ p Hok Hr Hc Hn Hs Hd) as Hop.
  assert (Hload : LoadPendingCase tenant (oc_CaseID r) None s1 = Ok (Some p)).
  { destruct (saved_case tenant p _ _ _ ltac:(by rewrite Hn) Hsave) as (row & Hrow & Hscan).
    unfold LoadPendingCase. rewrite <- Hc, Hrow.
    unfold SavePendingCase in Hsave. apply save_inv, negb_false_iff, case_id_ok in Hsave. by rewrite Hsave. }
  apply submitPending_cases in Hsub as [-> Hsub]. split_and!; done.
Qed.

(** ** A valid request is spooled and submitted *)

(** A request within the limits the wire can carry, a free case and a fresh
    identifier, a clock SSP can print, and a store that answers. *)
Record open_ready (sv : Service) (r : OpenCaseRequest) (env : CallEnv) (s : EdgeDB) (id : string) : Prop := {
  or_request : validateOpenCaseRequest r = Ok tt;
  or_coordinates : safe_coordinates (oc_Registry r);
  or_case : blank (oc_CaseID r) = false;
  or_free : pending_cases s !! oc_CaseID r = None;
  or_generated : ce_id env = Ok id;
  or_id : validOpaqueID id = true;
  or_shown : blank id = false;
  or_fresh : forall k row, pending_cases s !! k = Some row -> pc_envelope_id row <> id;
  or_now : ssp_instant (ce_now env) = true;
  or_expiry : ssp_instant (ce_now env + sv_ttl sv) = true;
  or_set : is_zero_time (ce_now env) = false;
  or_load : ce_load env = None;
  or_save : forall n, io (ce_save env) n = None
}.

Lemma SavePendingCase_fresh p env s : validatePendingCase p = true -> (forall n, io env n = None) ->
  pending_cases s !! ep_CaseID p = None ->
  (forall k row, pending_cases s !! k = Some row -> pc_envelope_id row <> ep_EnvelopeID p) ->
  exists s1, SavePendingCase tenant p env s = (s1, Ok tt).
Proof using Type.
  intros Hv Hio Hfree Hfresh. unfold SavePendingCase. rewrite Hv. cbn [negb]. unfold run_tx. rewrite Hio.
  assert (He : existsb (fun kv => pc_envelope_id kv.2 =s? ep_EnvelopeID p) (map_to_list (pending_cases s)) = false).
  { apply not_true_iff_false. rewrite existsb_exists. intros ([k row] & Hin & E%String.eqb_eq).
    apply list_elem_of_In, elem_of_map_to_list in Hin. by apply (Hfresh k row). }
  unfold savePendingCaseWork, loadPendingCaseTx, seal, put, select, rand, sql, lift, mbind, stx_bind, mret, stx_ret.
  cbn [fst snd]. rewrite Hio, Hfree. cbn [scanPendingCase mret result_ret fst snd]. rewrite Hio.
  unfold insert_strict. rewrite Hfree, He. rewrite Hio. eauto.
Qed.

(** A valid request is spooled and submitted.  For a service with opaque
    identities, a positive generation, a whole key and a lifetime of at least a
    second: a request that passes validation with registry coordinates up to
    2^53 - 1, for a case without a spooled submission, is signed into a wire of
    at most 64 KiB (however long the texts and whatever they need to be escaped
    to), spooled under the generated identifier, and handed to the gateway. *)
Theorem valid_case_opens `{!JcsTotal} sv r env s id :
  service_ok sv -> second <= sv_ttl sv -> open_ready sv r env s id ->
  exists p s1, ep_EnvelopeID p = id /\ opened sv r (ce_now env) p /\ len (ep_Raw p) <= MaxEnvelopeBytes /\
    SavePendingCase tenant p (ce_save env) s = (s1, Ok tt) /\
    OpenCase tenant sv r env s = submitPending sv p (ce_after env) (ce_mark env) s1.
Proof using All.
  intros Hok Httl [Hr Hco Hcb Hfree Hgen Hid Hidb Hfresh Hn Hx Hz Hl Hio]. pose proof Hok as [He Ha Hg Hk].
  pose proof (case_signable sv r id (ce_now env) Hok Httl Hr Hco Hid Hn Hx) as Hsg.
  destruct (signable_signs _ _ (sv_signer sv) _ Hsg Hk) as (raw & Hs & Hlen).
  destruct (Sign_decodes _ _ _ _ _ (body_compact _ _ (sg_body _ _ _ Hsg)) Hs Hk) as (c & _ & Hc & Hd).
  assert (Hcm : EnvelopeCommitment raw (ce_now env) = Ok (sha256_text c)) by (apply EnvelopeCommitment_exact; eauto).
  set (p := {| ep_EnvelopeID := id; ep_CaseID := oc_CaseID r; ep_Commitment := sha256_text c; ep_Raw := raw;
               ep_CreatedAt := ce_now env |}).
  assert (Hv : validatePendingCase p = true).
  { unfold validatePendingCase. cbn [p ep_EnvelopeID ep_CaseID ep_Commitment ep_Raw ep_CreatedAt].
    rewrite Hidb, Hcb, sha256_text_pattern, Hz, (proj2 (Z.ltb_ge _ _) Hlen). cbn [negb orb].
    assert (Hne : len raw <> 0).
    { intros E. apply decodeAndValidate_spec in Hd as [(l & Hp & _)%decodeStrictEnvelope_spec _].
      destruct raw; [|by unfold len in E; cbn in E]. discriminate Hp. }
    by rewrite (proj2 (Z.eqb_neq _ _) Hne). }
  destruct (SavePendingCase_fresh p (ce_save env) s Hv Hio Hfree Hfresh) as [s1 Hsave].
  exists p, s1. split_and!; [done|by apply signed_opened|done|done|].
  unfold OpenCase, LoadPendingCase, SignCase. rewrite Hr, Hcb, Hl, Hfree, Hgen. cbn [scanPendingCase].
  cbn [case_envelope Schema]. rewrite String.eqb_refl. cbn [negb].
  change (mkEnvelope SspFamilyCase _ _ _ _ _ _ _ _ _ _ _) with (case_envelope sv r id (ce_now env)).
  rewrite Hs, Hcm. fold p. by rewrite Hsave.
Qed.
End Open.

(** ** Reading a spooled wire back *)

Definition envelope_names : list string := "case_id" :: "registry_hash" :: envelopeCommonRequiredMembers.

(** [json.Unmarshal] agrees with the strict decoder on what that accepts. *)
Lemma unmarshal_strict raw e : decodeStrictEnvelope raw = Ok e -> Schema e <> SspFamilyRegistry -> unmarshal_envelope raw = Some e.
Proof.
  intros (l & Hp & Hs & Hi & (v & Hb) & Hcase & Hn & Hk)%decodeStrictEnvelope_spec Hreg.
  rewrite (proj2 (String.eqb_neq _ _) Hreg) in Hcase. destruct Hcase as [(rc & Hc) (rh & Hh)].
  assert (Hf : distinct_folds envelope_names = true) by (vm_compute; reflexivity).
  assert (Hstr : forall name w, In (name, w) [("schema", Schema e); ("id", ID e); ("emitted_at", EmittedAt e);
       ("expires_at", ExpiresAt e); ("author_key_id", AuthorKeyID e);
       ("signature_alg", SignatureAlg e); ("signature", Signature e)] ->
    wire_field (decode_raw decode_string) "" l name = Some w).
  { intros name w (r & Hin)%Hs. by rewrite (wire_one _ _ l envelope_names name r (JString w)). }
  assert (Hint : forall name w, In (name, w) [("routing_epoch", RoutingEpoch e); ("registry_revision", RegistryRevision e)] ->
    wire_field (decode_raw decode_int64) 0 l name = Some w).
  { intros name w (_ & r & t & Hin & Ht)%Hi. by rewrite (wire_one _ _ l envelope_names name r (JNumber t)). }
  unfold unmarshal_envelope. rewrite Hp. cbn [mbind option_bind decode_struct].
  rewrite (Hstr "schema" (Schema e)), (Hstr "id" (ID e)), (Hstr "emitted_at" (EmittedAt e)), (Hstr "expires_at" (ExpiresAt e)),
    (Hstr "author_key_id" (AuthorKeyID e)), (Hstr "signature_alg" (SignatureAlg e)), (Hstr "signature" (Signature e)),
    (Hint "routing_epoch" (RoutingEpoch e)), (Hint "registry_revision" (RegistryRevision e)) by (cbn; tauto).
  rewrite (wire_one _ _ l envelope_names "case_id" rc (JString (CaseID e))),
    (wire_one _ _ l envelope_names "registry_hash" rh (JString (RegistryHash e))),
    (wire_one _ _ l envelope_names "body" (Body e) v) by done.
  by destruct e.
Qed.

Lemma unmarshal_advice_printed r : validateFinalizeAdviceRequest r = Ok tt ->
  unmarshal_advice_body (advice_body r) = Some (fa_CaseCommitment r, fa_Text r, fa_PublicSummary r).
Proof.
  intros Hb%valid_advice_printed. unfold unmarshal_advice_body. rewrite (parse_text _ _ (pb_text _ _ Hb)).
  cbn [mbind option_bind decode_struct].
  assert (Hstr : forall k w, In (k, json_string w, JString w) (advice_json r) ->
    wire_field (decode_raw decode_string) "" (advice_json r) k = Some w).
  { intros k w Hin. rewrite (wire_one _ _ _ advice_members k (json_string w) (JString w)); [done|vm_compute; reflexivity| |apply Hb|done].
    by change (keys_of (advice_json r)) with advice_members. }
  by rewrite (Hstr "case_commitment" (fa_CaseCommitment r)), (Hstr "text" (fa_Text r)),
    (Hstr "public_summary" (fa_PublicSummary r)) by member_in.
Qed.

(** ** Finalizing an advice *)
Section Finalize.
Context `{Jcs} `{Ed25519Laws} `{AEADLaws} `{GatewayClient} (tenant : string).

(** [c] is the accepted row of a case as [GetCase] shows it. *)
Record shows (row : CaseRow) (c : LocalCase) : Prop := {
  sh_commitment : lc_Commitment c = er_commitment row;
  sh_registry : lc_Registry c = {| rx_RoutingEpoch := er_routing_epoch row; rx_Revision := er_registry_revision row;
                                   rx_Hash := er_registry_hash row |};
  sh_expiry : parseSQLTime (er_expires_at row) = Ok (lc_ExpiresAt c);
  sh_committed : lc_Committed c = true
}.

Lemma GetCase_shows caseID fault s c : GetCase tenant caseID fault s = Ok (Some c) ->
  exists row, accepted_case s caseID = Some row /\ shows row c /\ lc_CaseID c = caseID /\ fault = None.
Proof using Type.
  unfold GetCase. destruct (blank caseID); [done|]. destruct fault; [done|].
  destruct (accepted_case s caseID) as [row|]; [|done]. intros Hg. inv_result. injection Hg as <-. exists row. split_and!; [done|by split|done..].
Qed.

(** [p] is the spooled final advice of [r] for the case [c]: a wire signed at
    [now] under the dispatcher's author key, under the registry coordinates of
    the case, that expires with the case at the latest. *)
Record finalized (fz : Finalizer) (c : LocalCase) (r : FinalizeAdviceRequest) (now : Z) (p : PendingAdvice) : Prop := {
  fd_request : validateFinalizeAdviceRequest r = Ok tt;
  fd_case : ea_CaseID p = fa_CaseID r /\ lc_CaseID c = fa_CaseID r;
  fd_binding : ea_CaseCommitment p = fa_CaseCommitment r /\ lc_Commitment c = fa_CaseCommitment r;
  fd_created : ea_CreatedAt p = now;
  fd_commitment : EnvelopeCommitment (ea_Raw p) now = Ok (ea_Commitment p);
  fd_window : now < Z.min (lc_ExpiresAt c) (now + fz_ttl fz);
  fd_decodes : exists sig, decodeAndValidate (ea_Raw p) now = Ok (with_signature
    (advice_envelope fz c r (ea_AdviceID p) now (Z.min (lc_ExpiresAt c) (now + fz_ttl fz))) sig) /\
    forall vk keys, VerifyingKey (fz_signer fz) = Ok vk -> keys !! fz_authorKeyID fz = Some vk ->
      Verify (ea_Raw p) keys now = Ok (with_signature
        (advice_envelope fz c r (ea_AdviceID p) now (Z.min (lc_ExpiresAt c) (now + fz_ttl fz))) sig);
  fd_body : decode_verified_advice (advice_body r) =
    Some (mkVerifiedAdvice (fa_CaseCommitment r) (fa_Text r) (fa_PublicSummary r))
}.

Lemma FinalizeAdvice_cases fz r env s s' b err calls : FinalizeAdvice tenant fz r env s = (s', (b, err), calls) ->
  (calls = [] /\ b = no_submission /\ is_Some err /\ s' = s) \/
  exists c p s1, validateFinalizeAdviceRequest r = Ok tt /\
    LoadPendingAdvice tenant (fa_CaseID r) (ce_load env) s = Ok None /\
    GetCase tenant (fa_CaseID r) (ce_read env) s = Ok (Some c) /\ lc_Commitment c = fa_CaseCommitment r /\
    ce_now env < Z.min (lc_ExpiresAt c) (ce_now env + fz_ttl fz) /\ ce_id env = Ok (ea_AdviceID p) /\
    ea_CaseID p = lc_CaseID c /\ ea_CaseCommitment p = fa_CaseCommitment r /\ ea_CreatedAt p = ce_now env /\
    Sign (advice_envelope fz c r (ea_AdviceID p) (ce_now env) (Z.min (lc_ExpiresAt c) (ce_now env + fz_ttl fz)))
         (fz_signer fz) (ce_now env) = Ok (ea_Raw p) /\
    EnvelopeCommitment (ea_Raw p) (ce_now env) = Ok (ea_Commitment p) /\
    SavePendingAdvice tenant p (ce_save env) s = (s1, Ok tt) /\
    submitPendingAdvice fz p (ce_after env) (ce_mark env) s1 = (s', (b, err), calls).
Proof using Type.
  unfold FinalizeAdvice. intros Ho.
  destruct (validateFinalizeAdviceRequest r) as [[]|e] eqn:Hr; [|left; injection Ho as <- <- <- <-; eauto].
  destruct (LoadPendingAdvice _ _ _ _) as [[p|]|e] eqn:Hl; [left| |left; injection Ho as <- <- <- <-; eauto].
  { destruct (pendingAdviceMatchesRequest _ _ _) as [[]|]; injection Ho as <- <- <- <-; eauto. }
  destruct (GetCase _ _ _ _) as [[c|]|e] eqn:Hg; [|left; injection Ho as <- <- <- <-; eauto..].
  destruct (negb (lc_Committed c) || _) eqn:Hcm; [left; injection Ho as <- <- <- <-; eauto|]. bools.
  assert (Hmin : (if lc_ExpiresAt c <? ce_now env + fz_ttl fz then lc_ExpiresAt c else ce_now env + fz_ttl fz)
    = Z.min (lc_ExpiresAt c) (ce_now env + fz_ttl fz)) by (destruct (Z.ltb_spec (lc_ExpiresAt c) (ce_now env + fz_ttl fz)); lia).
  cbv zeta in Ho. rewrite Hmin in Ho. clear Hmin.
  destruct (Z.leb_spec (Z.min (lc_ExpiresAt c) (ce_now env + fz_ttl fz)) (ce_now env)); [left; injection Ho as <- <- <- <-; eauto|].
  destruct (ce_id env) as [id|e] eqn:Hid; [|left; injection Ho as <- <- <- <-; eauto].
  destruct (SignAdvice _ _ _) as [raw|e] eqn:Hs; [|left; injection Ho as <- <- <- <-; eauto].
  destruct (EnvelopeCommitment _ _) as [commitment|e] eqn:Hc; [|left; injection Ho as <- <- <- <-; eauto].
  destruct (SavePendingAdvice _ _ _ _) as [s1 [[]|e]] eqn:Hsave.
  - right. exists c, {| ea_AdviceID := id; ea_CaseID := lc_CaseID c; ea_CaseCommitment := fa_CaseCommitment r;
                        ea_Commitment := commitment; ea_Raw := raw; ea_CreatedAt := ce_now env |}, s1.
    split_and!; try done; lia.
  - apply SavePendingAdvice_cases in Hsave as [[-> _]|(? & _)]; [|done]. left. injection Ho as <- <- <- <-. eauto.
Qed.

(** C23: a dispatcher submits only advice it signed for a committed case and
    spooled.  Either [FinalizeAdvice] fails before the gateway is reached and
    the store is unchanged; or the case had no spooled advice, the store shows
    an accepted case row whose commitment is the one the request names, the
    spool now returns the advice ([finalized]: a wire that verifies under the
    dispatcher's key to an advice envelope for that case, under the case's
    registry coordinates, emitted now and expiring with the case at the latest,
    whose body reads back as the request), and exactly one submission went to
    the gateway: that wire, under the dispatcher's principal and no edge. *)
Theorem final_advice_exact fz r env s s' b err calls :
  len (privateKey (fz_signer fz)) = PrivateKeySize -> four_digit_year (ce_now env) = true ->
  FinalizeAdvice tenant fz r env s = (s', (b, err), calls) ->
  (calls = [] /\ b = no_submission /\ is_Some err /\ s' = s) \/
  exists row c p s1, pending_advice s !! fa_CaseID r = None /\
    accepted_case s (fa_CaseID r) = Some row /\ er_commitment row = fa_CaseCommitment r /\ shows row c /\
    ce_id env = Ok (ea_AdviceID p) /\ finalized fz c r (ce_now env) p /\
    SavePendingAdvice tenant p (ce_save env) s = (s1, Ok tt) /\
    LoadPendingAdvice tenant (fa_CaseID r) None s1 = Ok (Some p) /\
    calls = [(finalizer_identity fz, ea_Raw p)] /\
    ((exists x, err = Some x /\ b = pending_advice_submission p /\ s' = s1) \/
     (exists rc, EdgeService.Submit (finalizer_identity fz) (ea_Raw p) = Ok rc /\ err = None /\
        b = accepted rc (pending_advice_submission p) /\ advice_admitted p rc s')).
Proof using All.
  intros Hk Hy [Hf|(c & p & s1 & Hr & Hl & Hg & Hcm & Hw & Hid & Hc & Hcc & Hn & Hs & Hd & Hsave & Hsub)]%FinalizeAdvice_cases;
    [by left|right].
  destruct (GetCase_shows _ _ _ _ Hg) as (row & Hrow & Hsh & Hci & _). exists row, c, p, s1.
  assert (Hnone : pending_advice s !! fa_CaseID r = None).
  { unfold LoadPendingAdvice in Hl. destruct (blank _), (ce_load env); try done.
    destruct (pending_advice s !! fa_CaseID r) as [row'|]; [|done]. cbn in Hl. destruct (parseSQLTime _); [|done].
    cbn in Hl. by destruct (open_field _ _ _ _). }
  assert (Hfin : finalized fz c r (ce_now env) p).
  { split; try done; [by rewrite Hc| |by apply advice_body_reads].
    destruct (Sign_decodes (advice_envelope fz c r (ea_AdviceID p) (ce_now env) _) _ _ _ _
      (body_compact _ _ (valid_advice_printed r Hr)) Hs Hk) as (m & Hz & Hm & Hdec). eexists. split; [exact Hdec|].
    intros vk keys Hvk Hkey. by apply (signed_verifies _ (fz_signer fz) vk). }
  assert (Hload : LoadPendingAdvice tenant (fa_CaseID r) None s1 = Ok (Some p)).
  { destruct (saved_advice tenant p _ _ _ ltac:(by rewrite Hn) Hsave) as (row' & Hrow' & Hscan).
    unfold LoadPendingAdvice. rewrite <- Hci, <- Hc, Hrow'.
    unfold SavePendingAdvice in Hsave. apply save_inv, negb_false_iff, advice_case_id_ok in Hsave. by rewrite Hsave. }
  apply submitPendingAdvice_cases in Hsub as [-> Hsub].
  split_and!; try done. rewrite <- Hcm. symmetry. apply Hsh.
Qed.

(** ** One final advice *)

(** The later call reads the spooled wire as it was signed. *)
Lemma pending_matches fz c r now p r2 now2 e : finalized fz c r now p -> decodeAndValidate (ea_Raw p) now = Ok e ->
  (live e now2 -> pendingAdviceMatchesRequest (ea_Raw p) r2 now2 = Ok (bool_decide (r2 = r))) /\
  (~ live e now2 -> exists x, pendingAdviceMatchesRequest (ea_Raw p) r2 now2 = Err x).
Proof using Type.
  intros Hf Hd. destruct (fd_decodes _ _ _ _ _ Hf) as (sig & Hdec & _). rewrite Hd in Hdec. injection Hdec as ->.
  pose proof (decode_later _ _ now2 _ Hd) as Hlater. pose proof (fd_commitment _ _ _ _ _ Hf) as Hc.
  apply EnvelopeCommitment_exact in Hc as (e' & m & Hd' & Hm & _). unfold pendingAdviceMatchesRequest. split.
  - intros Hl. assert (Hec : EnvelopeCommitment (ea_Raw p) now2 = Ok (sha256_text m)).
    { apply EnvelopeCommitment_exact. eexists _, m. split; [by apply Hlater|done]. }
    rewrite Hec. cbn [mbind result_bind]. apply decodeAndValidate_spec in Hd as [Hd _].
    rewrite (unmarshal_strict _ _ Hd) by done. cbn [of_option mbind result_bind Schema Body CaseID with_signature advice_envelope].
    rewrite String.eqb_refl. cbn [negb]. rewrite unmarshal_advice_printed by apply Hf. cbn [of_option mbind result_bind].
    f_equal. destruct (fd_case _ _ _ _ _ Hf) as [_ ->]. destruct r as [a1 b1 c1 d1], r2 as [a2 b2 c2 d2]. cbn.
    destruct (String.eqb_spec a1 a2), (String.eqb_spec b1 b2), (String.eqb_spec c1 c2), (String.eqb_spec d1 d2); subst;
      cbn; symmetry; (apply bool_decide_eq_true_2 || apply bool_decide_eq_false_2); congruence.
  - intros Hl. destruct (EnvelopeCommitment _ now2) as [d|x] eqn:Hec; [|eauto].
    apply EnvelopeCommitment_exact in Hec as (e2 & c2 & [_ Hl2]%Hlater & _). done.
Qed.

(** C24: a case has one final advice.  Once an advice was spooled for a case,
    then after any further store calls, another [FinalizeAdvice] for that case,
    by any finalizer and with any request, reaches no gateway and leaves the
    store alone.  When that request is valid and the case loads without a fault,
    the caller learns which advice it is while the spooled wire is live: already
    pending for the same request, a conflict for any other; once it expired the
    call reports that it cannot decode it. *)
Theorem one_final_advice p env s s1 ops fz2 r2 env2 s3 b err calls :
  edge_reachable tenant s -> four_digit_year (ea_CreatedAt p) = true ->
  SavePendingAdvice tenant p env s = (s1, Ok tt) -> fa_CaseID r2 = ea_CaseID p ->
  FinalizeAdvice tenant fz2 r2 env2 (run_ops tenant ops s1) = (s3, (b, err), calls) ->
  calls = [] /\ s3 = run_ops tenant ops s1 /\ b = no_submission /\ is_Some err /\
  (forall fz c r now e, finalized fz c r now p -> decodeAndValidate (ea_Raw p) now = Ok e ->
     validateFinalizeAdviceRequest r2 = Ok tt -> ce_load env2 = None ->
     (live e (ce_now env2) -> err = Some (if bool_decide (r2 = r) then ErrAlreadyPending else ErrPendingAdviceConflict)) /\
     (~ live e (ce_now env2) -> err = Some (ErrService "decode pending advice"))).
Proof using All.
  intros Hr Hy Hsave Hc Hfin. destruct (kept_advice tenant p env s s1 ops Hr Hy Hsave) as (_ & _ & _ & Hload).
  rewrite <- Hc in Hload. unfold FinalizeAdvice in Hfin.
  destruct (validateFinalizeAdviceRequest r2) as [[]|x] eqn:Hv; [|injection Hfin as <- <- <- <-; split_and!; try done; by eauto].
  assert (Hl : forall x, LoadPendingAdvice tenant (fa_CaseID r2) x (run_ops tenant ops s1) =
    match x with None => Ok (Some p) | Some e => Err e end).
  { intros x. unfold LoadPendingAdvice in *. destruct (blank _); [done|]. by destruct x. }
  rewrite Hl in Hfin. destruct (ce_load env2) as [x|]; [injection Hfin as <- <- <- <-; split_and!; try done; by eauto|].
  destruct (pendingAdviceMatchesRequest (ea_Raw p) r2 (ce_now env2)) as [m|x] eqn:Hm;
    injection Hfin as <- <- <- <-; (split_and!; [done..|eauto|]); intros fz c r now e Hf Hd _ _;
    destruct (pending_matches _ _ _ _ _ r2 (ce_now env2) _ Hf Hd) as [Hlive Hdead]; split; intros Hx.
  - apply Hlive in Hx. rewrite Hm in Hx. by injection Hx as ->.
  - apply Hdead in Hx as [y Hx]. congruence.
  - apply Hlive in Hx. congruence.
  - done.
Qed.
End Finalize.
