(* ===== verification/EdgeAdmission.v ===== *)
(** * From the edge's request to the authority's ledger

    The gateway of an edge service is control: its API over the authority
    store (the HTTP hop between them changes nothing, HttpTheorems.v).  What a
    registered edge opens is admitted, and [OpenCase] reports exactly what the
    commit reported. *)
From stdpp Require Import gmap.
From S2P Require Import Prelude GoText GoStrconv GoTime GoJson GoJsonRead GoBase64 GoUtf8 GoJsonText Sha256 DeliveryStream.
From S2P Require Import Authority PgTx AuthorityStore AuthoritySpec AuthorityInv AuthorityTheorems.
From S2P Require Import SspGuard SspBody SspRegistry SspEnvelope SspStrip SspTheorems SspSign GoJsonWire Registry ControlApi EdgeVerifier ControlTheorems GoJsonPrint.
From S2P Require Import SqliteTx EdgeStore EdgeApply EdgeSpool EdgeInv EdgeFront EdgeTurns EdgeSystem EdgeTheorems EdgeService EdgeOpen EdgeEnvelope EdgeOpenTheorems.
Open Scope string_scope.
Open Scope Z_scope.
Open Scope snag_scope.

(** ** Control as the gateway *)
Definition workload_of (id : WorkloadIdentity) : Workload :=
  mkWorkload (wi_PrincipalID id) (wi_EdgeID id) (wi_EdgeGeneration id).
Definition edge_receipt (r : CommitReceipt) : EdgeReceipt :=
  {| rc_AuthorityID := r_AuthorityID r; rc_Revision := r_Revision r; rc_EnvelopeID := r_EnvelopeID r;
     rc_Commitment := r_Commitment r |}.

(** What the registry grants to the service for the domain of the request. *)
Record registered_for (snapshot : Registry) (sv : Service) (r : OpenCaseRequest) `{Ed25519} (key : RegisteredKey) : Prop := {
  rf_principal : sv_principalID sv <> "";
  rf_key : rg_keys snapshot !! sv_authorKeyID sv = Some key;
  rf_public : rk_public key = ed25519_public (privateKey (sv_signer sv));
  rf_usage : rk_usage key = UsageEdge;
  rf_owner : rk_principal key = sv_principalID sv;
  rf_edge : exists edge, rg_edges snapshot !! sv_edgeID sv = Some edge /\ ed_principal edge = sv_principalID sv /\
    ed_generation edge = sv_edgeGeneration sv;
  rf_keys : exists principal, rg_principals snapshot !! sv_principalID sv = Some principal /\
    mem (sv_authorKeyID sv) (pr_keys principal) = true;
  rf_route : exists route, rg_domains snapshot !! oc_Domain r = Some route /\ mem SspFamilyCase (rt_families route) = true;
  rf_issuer : AuthorizesCaseIssuer snapshot (oc_Domain r) (sv_edgeID sv) = true;
  rf_epoch : MachineAcceptableEpoch snapshot (oc_Domain r) (rx_RoutingEpoch (oc_Registry r)) = true
}.

Section Admission.
Context `{Jcs} `{Ed25519Laws} (s : ControlService).

(** The commit request of an opened case. *)
Definition request_of (sv : Service) (r : OpenCaseRequest) (p : PendingCase) (now : Z) : CommitCaseRequest :=
  {| cc_TenantID := ct_tenant s; cc_CaseID := oc_CaseID r; cc_EnvelopeID := ep_EnvelopeID p; cc_Commitment := ep_Commitment p;
     cc_Raw := ep_Raw p; cc_Domain := oc_Domain r; cc_IssuerEdgeID := sv_edgeID sv;
     cc_IssuerEdgeGeneration := sv_edgeGeneration sv; cc_RoutingEpoch := rx_RoutingEpoch (oc_Registry r);
     cc_RegistryRevision := rx_Revision (oc_Registry r); cc_RegistryHash := rx_Hash (oc_Registry r);
     cc_ExpiresAt := whole_seconds (now + sv_ttl sv); cc_PrincipalID := sv_principalID sv; cc_EdgeID := sv_edgeID sv;
     cc_Decision := "verified_case_admission" |}.

(** The instants control reads while it verifies the wire. *)
Record timely (sv : Service) (key : RegisteredKey) (now : Z) (clock : nat -> Z) : Prop := {
  tm_now : ssp_instant now = true;
  tm_expiry : ssp_instant (now + sv_ttl sv) = true;
  tm_clock : forall n, (n = 2 \/ n = 3)%nat -> whole_seconds now <= clock n < whole_seconds (now + sv_ttl sv);
  tm_usable : Usable key (clock 2%nat) = true /\ Usable key (whole_seconds now) = true
}.

Lemma not_unauthorized snapshot sv r key ident now sig : service_ok sv -> registered_for snapshot sv r key ->
  case_unauthorized (workload_of (service_identity sv)) (header_of (with_signature (case_envelope sv r ident now) sig))
    snapshot key (with_signature (case_envelope sv r ident now) sig)
    (mkCaseBody (oc_Domain r) (sv_edgeID sv) (sv_edgeGeneration sv)) = false.
Proof using Type.
  intros [He Ha Hg Hk] [Hp _ _ _ Ho (edge & Hedge & Hep & Heg) (pr & Hpr & Hm) (route & Hro & Hf) Hi Hx].
  unfold case_unauthorized. cbn [cb_edge cb_domain cb_generation].
  cbn [workload_of service_identity wl_principal wl_edge wl_generation wi_PrincipalID wi_EdgeID wi_EdgeGeneration].
  rewrite Hedge, Hro. cbn [default from_option id]. rewrite Hep, Hpr, Heg, Ho. cbn [default from_option id].
  rewrite !bool_decide_true by eauto. rewrite !String.eqb_refl, !Z.eqb_refl.
  unfold AuthorizesCaseIssuerGeneration. rewrite Hi, Hedge, Heg, Z.eqb_refl, (proj2 (Z.leb_gt _ 0)) by lia.
  cbn [header_of hd_author with_signature case_envelope AuthorKeyID RoutingEpoch]. rewrite Hm, Hf, Hx.
  rewrite (proj2 (String.eqb_neq _ _) Hp), (proj2 (String.eqb_neq _ _) (opaque_nonempty _ He)). done.
Qed.

(** Control admits what a registered edge opened, and hands the authority
    exactly the fields of the edge's request. *)
Lemma opened_admitted sv r now p snapshot key clock dbs : service_ok sv -> opened sv r now p -> timely sv key now clock ->
  registered_for snapshot sv r key ->
  (forall h, hd_revision h = rx_Revision (oc_Registry r) -> hd_registry_hash h = rx_Hash (oc_Registry r) ->
     ControlApi.resolveRegistry s clock (dbs 0%nat) h = Ok snapshot) ->
  admitWire s clock dbs (workload_of (service_identity sv)) (ep_Raw p) = Ok (AdmitCase (request_of sv r p now)).
Proof using All.
  intros Hok [Hc Hcr Hcm (sig & Hver) Hbody] [Hn Hx Hcl [Hu Hu']] Hreg Hres. pose proof Hok as [He Ha Hg Hk].
  assert (Hnew : NewEd25519VerifyingKey (rk_public key) = Ok (mkVerifyingKey (rk_public key))).
  { unfold NewEd25519VerifyingKey. by rewrite (rf_public _ _ _ _ Hreg), ed25519_public_size by done. }
  assert (Hvk : VerifyingKey (sv_signer sv) = Ok (mkVerifyingKey (rk_public key))).
  { unfold VerifyingKey, signing_public. rewrite private_key_present by done. cbn [mbind result_bind].
    by rewrite <- (rf_public _ _ _ _ Hreg). }
  specialize (Hver _ {[sv_authorKeyID sv := mkVerifyingKey (rk_public key)]} Hvk (lookup_singleton_eq _ _)).
  set (e := with_signature (case_envelope sv r (ep_EnvelopeID p) now) sig) in *.
  destruct (Verify_time _ _ _ _ Hver) as (Hdec & Hw & _ & Hlater).
  assert (Hem : ParseTimestamp (EmittedAt e) = Some (whole_seconds now)) by by apply format_seconds_parse.
  assert (Hex : ParseTimestamp (ExpiresAt e) = Some (whole_seconds (now + sv_ttl sv))) by by apply format_seconds_parse.
  assert (Hlive : forall n, (n = 2 \/ n = 3)%nat -> live e (clock n)) by (intros n Hn'; do 2 eexists; split_and!; [done..| |]; by apply Hcl).
  destruct (case_body_ids _ _ Hdec Hw eq_refl) as (b & Hb & Hcb & _). change (Body e) with (case_body sv r) in Hb, Hcb.
  rewrite Hbody in Hb. injection Hb as <-. cbn [vc_domain vc_edge vc_generation] in Hcb.
  assert (Hh : ReadHeader (ep_Raw p) = Ok (header_of e)) by (apply ReadHeader_exact; eauto).
  unfold admitWire. rewrite Hh. cbn [header_of hd_schema]. change (Schema e) with SspFamilyCase. rewrite String.eqb_refl.
  cbn [negb andb]. fold (header_of e). rewrite (Hres (header_of e) eq_refl eq_refl). cbn [mbind result_bind].
  assert (Hreg' : ControlApi.verifyRegisteredEnvelope (ep_Raw p) (header_of e) snapshot UsageEdge (clock 2%nat) = Ok (key, e)).
  { unfold ControlApi.verifyRegisteredEnvelope. change (hd_author (header_of e)) with (sv_authorKeyID sv).
    rewrite (rf_key _ _ _ _ Hreg), (rf_usage _ _ _ _ Hreg), String.eqb_refl, Hu. cbn [negb orb].
    rewrite Hnew. cbn [lift_ssp mbind result_bind]. rewrite (Hlater _ (Hlive 2%nat ltac:(by left))). cbn [lift_ssp mbind result_bind].
    by rewrite Hem, Hu'. }
  unfold submitCase. change (later 2 clock 0%nat) with (clock 2%nat). change (later 2 clock 1%nat) with (clock 3%nat).
  rewrite Hreg'. change (Schema e) with SspFamilyCase. rewrite String.eqb_refl. cbn [negb].
  rewrite (rf_owner _ _ _ _ Hreg), (proj2 (String.eqb_neq _ _) (rf_principal _ _ _ _ Hreg)).
  change (Body e) with (case_body sv r). rewrite Hcb.
  pose proof (not_unauthorized snapshot sv r key (ep_EnvelopeID p) now sig Hok Hreg) as Hun. fold e in Hun. rewrite Hun.
  rewrite (Commitment_time _ _ _ _ Hdec Hcm _ (Hlive 3%nat ltac:(by right))), Hex. cbn [mbind result_bind]. done.
Qed.
End Admission.

(** ** The whole call *)
Section Whole.
Context `{Jcs} `{!JcsTotal} `{Ed25519Laws} `{AEADLaws} (s : ControlService) (tenant : string).
Context (clock : nat -> Z) (dbs : nat -> DB) (envs : nat -> AttemptEnv) (others : nat -> DB -> DB) (db : DB).

(** The answer of control to one submission. *)
Definition control_gateway : GatewayClient := fun id raw =>
  match (ControlApi.Submit s clock dbs (workload_of id) raw envs others db).2 with
  | Ok receipt => Ok (edge_receipt receipt)
  | Err _ => Err "submit"
  end.
#[local] Existing Instance control_gateway.

Lemma MarkCase_fresh a env st row : validateAcceptedRemote a = true -> (forall n, io env n = None) ->
  EdgeStore.pending_cases st !! ac_CaseID a = Some row -> pc_state row = "pending" ->
  pc_envelope_id row = ac_EnvelopeID a -> pc_commitment row = ac_Commitment a ->
  exists st', MarkCaseAcceptedRemote a env st = (st', Ok tt).
Proof using Type.
  intros Hv Hio Hrow Hst He Hc. unfold MarkCaseAcceptedRemote. rewrite Hv. cbn [negb]. unfold run_tx. rewrite Hio.
  unfold markCaseWork, check, exec, select, sql, mbind, stx_bind, mret, stx_ret. cbn [fst snd]. rewrite Hio, Hrow. cbn [fst snd].
  rewrite He, Hc, Hst, !String.eqb_refl. cbn [negb orb].
  change ("pending" =s? "accepted_remote") with false. cbn beta iota delta [fst snd].
  rewrite Hio. cbn iota. rewrite Hio. eauto.
Qed.

(** The row a first save leaves. *)
Lemma saved_pending p env st st1 : four_digit_year (ep_CreatedAt p) = true ->
  EdgeStore.pending_cases st !! ep_CaseID p = None -> SavePendingCase tenant p env st = (st1, Ok tt) ->
  exists row, EdgeStore.pending_cases st1 !! ep_CaseID p = Some row /\
    scanPendingCase tenant (Some row) (ep_CaseID p) = Ok (Some p) /\
    pc_state row = "pending" /\ pc_envelope_id row = ep_EnvelopeID p /\ pc_commitment row = ep_Commitment p.
Proof using All.
  intros Hy Hfree Hsave. destruct (saved_case tenant p _ _ _ Hy Hsave) as (row & Hrow & Hscan). exists row.
  apply SavePendingCase_cases in Hsave as [[-> _]|(_ & _ & nonce & _ & ->)]; [congruence|].
  cbn [EdgeStore.pending_cases set_pending_cases] in Hrow. rewrite lookup_insert_eq in Hrow. injection Hrow as <-.
  split_and!; try done. cbn [EdgeStore.pending_cases set_pending_cases]. by rewrite lookup_insert_eq.
Qed.

(** The gateway's receipt for the spooled envelope, recorded on a calm store. *)
Lemma submit_receipted sv p now env st row rc :
  EdgeService.Submit (service_identity sv) (ep_Raw p) = Ok rc ->
  rc_EnvelopeID rc = ep_EnvelopeID p -> rc_Commitment rc = ep_Commitment p -> blank (rc_AuthorityID rc) = false ->
  0 < rc_Revision rc -> validatePendingCase p = true -> is_zero_time now = false -> (forall n, io env n = None) ->
  EdgeStore.pending_cases st !! ep_CaseID p = Some row -> pc_state row = "pending" ->
  pc_envelope_id row = ep_EnvelopeID p -> pc_commitment row = ep_Commitment p ->
  exists st' row', submitPending sv p now env st =
      (st', (accepted rc (pending_submission p), None), [(service_identity sv, ep_Raw p)]) /\
    case_admitted p rc st' /\ EdgeStore.pending_cases st' !! ep_CaseID p = Some row' /\
    scanPendingCase tenant (Some row') (ep_CaseID p) = scanPendingCase tenant (Some row) (ep_CaseID p).
Proof using Type.
  intros Hs He Hc Ha Hr Hv Hz Hio Hrow Hst Hre Hrc.
  set (a := {| ac_EnvelopeID := ep_EnvelopeID p; ac_CaseID := ep_CaseID p; ac_Commitment := ep_Commitment p;
               ac_Receipt := rc; ac_AcceptedAt := now |}).
  assert (Hva : validateAcceptedRemote a = true).
  { unfold validatePendingCase in Hv. unfold validateAcceptedRemote. cbn. apply negb_true_iff in Hv. bools.
    rewrite He, Hc, Ha, Hz, !String.eqb_refl, (proj2 (Z.leb_gt _ _) Hr).
    repeat match goal with E : blank _ = false |- _ => rewrite E; clear E | E : sha256_pattern _ = true |- _ => rewrite E; clear E end.
    done. }
  destruct (MarkCase_fresh a env st row Hva Hio Hrow Hst Hre Hrc) as [st' Hm].
  assert (Hne : is_empty (rc_AuthorityID rc) = false) by (destruct (rc_AuthorityID rc); [discriminate Ha|done]).
  assert (Hsub : submitPending sv p now env st =
    (st', (accepted rc (pending_submission p), None), [(service_identity sv, ep_Raw p)])).
  { unfold submitPending. rewrite Hs, He, Hc, !String.eqb_refl, Hne, (proj2 (Z.leb_gt _ _) Hr). cbn [negb orb]. fold a. by rewrite Hm. }
  apply MarkCaseAcceptedRemote_cases in Hm as [(? & ? & _)|(row' & _ & Hr' & _ & _ & [(_ & ->)|(Hst' & _)])]; [done| |].
  - cbn [a ac_CaseID] in *. rewrite Hrow in Hr'. injection Hr' as <-.
    exists (set_pending_cases (<[ep_CaseID p:=accepted_case_row a row]> (EdgeStore.pending_cases st)) st), (accepted_case_row a row).
    split_and!; [done| |cbn; by rewrite lookup_insert_eq|done].
    apply submitPending_cases in Hsub as [_ [(? & ? & _)|(rc' & Hs' & _ & _ & Hadm)]]; [done|]. rewrite Hs in Hs'. by injection Hs' as <-.
  - cbn [a ac_CaseID] in *. rewrite Hrow in Hr'. injection Hr' as <-. rewrite Hst in Hst'. done.
Qed.

Lemma instant_year t : ssp_instant t = true -> four_digit_year t = true.
Proof using Type.
  unfold ssp_instant, four_digit_year. destruct (civil_of_days _) as [[y m] d]. intros Hy. bools.
  by rewrite !(proj2 (Z.leb_le _ _)) by lia.
Qed.

(** The outcome of the authority, as the edge records it. *)
Definition outcome_matches (p : PendingCase) (req : CommitCaseRequest) (final : EdgeDB)
    (answer : Submission * option ServiceError) : Prop :=
  let commit := CommitCase (ct_authority s) req envs others db in
  match commit.2 with
  | Ok rc => answer = (accepted (edge_receipt rc) (pending_submission p), None) /\ case_admitted p (edge_receipt rc) final /\
      exists row, PgTx.cases commit.1 !! (ct_tenant s, ep_CaseID p) = Some row /\ case_replayed req row /\
        cs_AuthorityRevision row = r_Revision rc
  | Err _ => answer = (pending_submission p, Some (ErrService "submit pending case"))
  end.

(** C21: a registered edge gets its case committed.  Let control be the gateway
    of the service, over any reachable authority store with any faults, retries
    and interleaved commits.  For a ready request ([open_ready]) naming a
    registry that control resolves, that lists the service's key, principal,
    edge and generation and lets that edge open cases in that domain at that
    epoch, and clocks of control within the window of the case: [OpenCase]
    signs and spools the case, control admits exactly its fields for
    commitment, and [OpenCase] reports the outcome of that commit.  If the
    authority committed, the call succeeds, the edge's row durably carries the
    receipt and the ledger holds the case with the spooled bytes under the
    receipt's revision; if not, the case stays spooled for a retry. *)
Theorem open_case_through_control sv r env st id snapshot key st' answer calls :
  store_reachable db -> (forall k d, rtc store_step d (others k d)) ->
  service_ok sv -> second <= sv_ttl sv -> open_ready sv r env st id ->
  timely sv key (ce_now env) clock -> registered_for snapshot sv r key ->
  (forall h, hd_revision h = rx_Revision (oc_Registry r) -> hd_registry_hash h = rx_Hash (oc_Registry r) ->
     ControlApi.resolveRegistry s clock (dbs 0%nat) h = Ok snapshot) ->
  blank (ct_authority s) = false -> is_zero_time (ce_after env) = false -> (forall n, io (ce_mark env) n = None) ->
  OpenCase tenant sv r env st = (st', answer, calls) ->
  exists p, ep_EnvelopeID p = id /\ opened sv r (ce_now env) p /\ calls = [(service_identity sv, ep_Raw p)] /\
    admitWire s clock dbs (workload_of (service_identity sv)) (ep_Raw p) = Ok (AdmitCase (request_of s sv r p (ce_now env))) /\
    outcome_matches p (request_of s sv r p (ce_now env)) st' answer /\
    exists row, EdgeStore.pending_cases st' !! oc_CaseID r = Some row /\
      scanPendingCase tenant (Some row) (oc_CaseID r) = Ok (Some p).
Proof using All.
  intros Hdb Hoth Hok Httl Hready Htime Hreg Hres Hauth Hafter Hmark Ho.
  destruct (valid_case_opens tenant sv r env st id Hok Httl Hready) as (p & s1 & Hid & Hop & Hlen & Hsave & Hopen).
  exists p. pose proof (opened_admitted s sv r _ p snapshot key clock dbs Hok Hop Htime Hreg Hres) as Hadm.
  rewrite Hopen in Ho. pose proof Hop as [Hcase Hcreated _ _ _].
  destruct (saved_pending p _ _ _ ltac:(rewrite Hcreated; by apply instant_year, (or_now _ _ _ _ _ Hready))
    ltac:(rewrite Hcase; apply Hready) Hsave) as (row & Hrow & Hscan & Hst & Hpe & Hpc).
  assert (Hgw : EdgeService.Submit (service_identity sv) (ep_Raw p) =
    match (CommitCase (ct_authority s) (request_of s sv r p (ce_now env)) envs others db).2 with
    | Ok rc => Ok (edge_receipt rc) | Err _ => Err "submit" end).
  { unfold EdgeService.Submit, control_gateway, ControlApi.Submit. rewrite Hadm. unfold lift_store. cbn [fst snd].
    by destruct (CommitCase _ _ _ _ _) as [d [rc|x]]. }
  unfold outcome_matches. destruct (CommitCase (ct_authority s) (request_of s sv r p (ce_now env)) envs others db)
    as [db' [rc|x]] eqn:Hcommit; cbn [fst snd] in *.
  - destruct (CommitCase_ok (ct_authority s) envs others ltac:(intros; by apply store_run_ledger) _ _ _ _
      (store_reachable_ledger _ Hdb) Hcommit) as (Hdb' & c & Hc & Hrep & ->).
    assert (Hpos : 0 < cs_AuthorityRevision c).
    { apply ledger_inv_reachable, inv_revision in Hdb'. apply (rev_cases _ Hdb') in Hc. lia. }
    destruct (submit_receipted sv p (ce_after env) (ce_mark env) s1 row _ Hgw) as (st2 & row' & Hsub & Hcadm & Hrow' & Hscan'); try done.
    { unfold SavePendingCase in Hsave. by apply save_inv, negb_false_iff in Hsave. }
    rewrite Hsub in Ho. injection Ho as <- <- <-. rewrite <- Hcase. split_and!; try done.
    + exists c. split_and!; [|done..]. by rewrite Hcase.
    + exists row'. by rewrite Hscan'.
  - unfold submitPending in Ho. rewrite Hgw in Ho. injection Ho as <- <- <-. rewrite <- Hcase. split_and!; eauto.
Qed.
End Whole.
