(* ===== verification/OpenExample.v ===== *)
(** * Opening a case and finalizing its advice at a concrete deployment

    The registry of ControlExample.v, an edge service with the registered key,
    and a dispatcher. *)
From stdpp Require Import gmap.
From S2P Require Import Prelude GoText GoStrconv GoTime GoJson GoJsonRead GoBase64 Sha256 DeliveryStream Authority PgTx AuthorityStore.
From S2P Require Import AuthoritySpec AuthorityInv AuthorityTheorems.
From S2P Require Import SspGuard SspBody SspRegistry SspEnvelope SspTheorems SspSign SspExample Registry RegistryTheorems ControlApi.
From S2P Require Import SqliteTx EdgeStore EdgeConsumer EdgeVerifier ControlTheorems ControlSystem ControlEdge ControlExample.
From S2P Require Import EdgeApply EdgeSpool EdgeInv EdgeFront EdgeTurns EdgeSystem EdgeTheorems EdgeService EdgeExample.
From S2P Require Import EdgeOpen EdgeEnvelope EdgeOpenTheorems EdgeAdmission.
Open Scope string_scope.
Open Scope Z_scope.
Open Scope snag_scope.

#[local] Existing Instance toy_jcs.
#[local] Existing Instance toy_ed25519.
#[local] Existing Instance toy_ed25519_laws.
#[local] Existing Instance toy_aead.
#[local] Existing Instance toy_aead_laws.

#[local] Instance toy_jcs_total : JcsTotal.
Proof. intros w _. by exists w. Qed.

Definition op_service : Service :=
  {| sv_edgeID := "edge-1"; sv_edgeGeneration := 3; sv_principalID := "owner"; sv_authorKeyID := "key-e";
     sv_signer := ctl_key 12; sv_ttl := hour |}.
Definition op_request : OpenCaseRequest :=
  {| oc_CaseID := "case-7"; oc_Domain := "payments"; oc_Summary := "payment <stuck> & retried"; oc_PublicSummary := "stuck";
     oc_ContextManifest := ex_sha "a";
     oc_Registry := {| rx_RoutingEpoch := 2; rx_Revision := 1; rx_Hash := cr_Commitment ctl_registry_request |} |}.
Definition op_env (id : string) : CallEnv :=
  {| ce_load := None; ce_read := None; ce_now := ex_later; ce_id := Ok id; ce_save := quiet; ce_after := ex_later + second;
     ce_mark := quiet |}.

Lemma op_service_ok : service_ok op_service.
Proof. split; (reflexivity || split; reflexivity || done). Qed.

Lemma op_ready : open_ready op_service op_request (op_env "env-7") empty_edge "env-7".
Proof.
  split; try reflexivity; done.
Qed.

(** ** Control as the gateway, over the store that holds the registry *)
Definition op_gateway : GatewayClient :=
  control_gateway ctl_service ctl_clock (fun _ => ctl_db1) (fun _ => calm ex_later) (fun _ d => d) ctl_db1.
#[local] Existing Instance op_gateway.

Definition op_run : EdgeDB * (Submission * option ServiceError) * list (WorkloadIdentity * bytes) :=
  OpenCase "acme" op_service op_request (op_env "env-7") empty_edge.

Lemma op_run_eq : OpenCase "acme" op_service op_request (op_env "env-7") empty_edge = (op_run.1.1, op_run.1.2, op_run.2).
Proof. fold op_run. by destruct op_run as [[] ]. Qed.

Lemma valid_case_opens_witness : exists p s1, ep_EnvelopeID p = "env-7" /\ opened op_service op_request ex_later p /\
  len (ep_Raw p) <= MaxEnvelopeBytes /\ SavePendingCase "acme" p quiet empty_edge = (s1, Ok tt) /\
  OpenCase "acme" op_service op_request (op_env "env-7") empty_edge = submitPending op_service p (ex_later + second) quiet s1.
Proof. apply (valid_case_opens "acme" op_service op_request (op_env "env-7") empty_edge "env-7" op_service_ok); [done|apply op_ready]. Defined.

(** The registry as control resolves it. *)
Definition op_resolved (h : EnvelopeHeader) : result CtlErr Registry :=
  ControlApi.resolveRegistry ctl_service ctl_clock ctl_db1 h.
Definition op_header : EnvelopeHeader :=
  mkHeader SspFamilyCase "" "" "" "" 2 1 (cr_Commitment ctl_registry_request) "key-e".
Definition op_snapshot : Registry := match op_resolved op_header with
  | Ok snapshot => snapshot
  | Err _ => mkRegistry 0 0 "" "" "" 0 [] [] [] [] ∅ ∅ ∅ ∅
  end.
Definition op_key : RegisteredKey := default (mkRegisteredKey "" "" "" "" 0 0 None) (rg_keys op_snapshot !! "key-e").

Lemma op_resolves h : hd_revision h = 1 -> hd_registry_hash h = cr_Commitment ctl_registry_request -> op_resolved h = Ok op_snapshot.
Proof. intros Hr Hh. unfold op_resolved, ControlApi.resolveRegistry. rewrite Hr, Hh. vm_compute. reflexivity. Qed.

Lemma op_registered : registered_for op_snapshot op_service op_request op_key.
Proof.
  split; try (vm_compute; reflexivity).
  - done.
  - exists (mkEdge "edge-1" "owner" 3). split_and!; vm_compute; reflexivity.
  - exists (default zero_principal (rg_principals op_snapshot !! "owner")). split; vm_compute; reflexivity.
  - exists (default zero_route (rg_domains op_snapshot !! "payments")). split; vm_compute; reflexivity.
Qed.

Lemma op_timely : timely op_service op_key ex_later ctl_clock.
Proof.
  split.
  - vm_compute. reflexivity.
  - vm_compute. reflexivity.
  - intros n [-> | ->]; (split; [apply Z.leb_le|apply Z.ltb_lt]; vm_compute; reflexivity).
  - split; vm_compute; reflexivity.
Qed.

Lemma ctl_db1_reachable : store_reachable ctl_db1.
Proof. apply (control_reachable_store ctl_service). eapply rtc_l; [apply ctl_step1|apply rtc_refl]. Qed.

Lemma open_case_through_control_witness : exists p, ep_EnvelopeID p = "env-7" /\
  opened op_service op_request ex_later p /\ op_run.2 = [(service_identity op_service, ep_Raw p)] /\
  admitWire ctl_service ctl_clock (fun _ => ctl_db1) (workload_of (service_identity op_service)) (ep_Raw p)
    = Ok (AdmitCase (request_of ctl_service op_service op_request p ex_later)) /\
  outcome_matches ctl_service (fun _ => calm ex_later) (fun _ d => d) ctl_db1 p
    (request_of ctl_service op_service op_request p ex_later) op_run.1.1 op_run.1.2 /\
  exists row, EdgeStore.pending_cases op_run.1.1 !! "case-7" = Some row /\
    scanPendingCase "acme" (Some row) "case-7" = Ok (Some p).
Proof.
  apply (open_case_through_control ctl_service "acme" ctl_clock (fun _ => ctl_db1) (fun _ => calm ex_later) (fun _ d => d) ctl_db1
    op_service op_request (op_env "env-7") empty_edge "env-7" op_snapshot op_key op_run.1.1 op_run.1.2 op_run.2).
  - apply ctl_db1_reachable.
  - intros k d. apply rtc_refl.
  - apply op_service_ok.
  - done.
  - apply op_ready.
  - apply op_timely.
  - apply op_registered.
  - apply op_resolves.
  - reflexivity.
  - reflexivity.
  - done.
  - apply op_run_eq.
Defined.

(** The call succeeded. *)
Example op_accepted : sb_AcceptedRemote op_run.1.2.1 = true /\ op_run.1.2.2 = None.
Proof. vm_compute. done. Qed.

Lemma opened_case_exact_witness :
  (op_run.2 = [] /\ op_run.1.2.1 = no_submission /\ is_Some op_run.1.2.2 /\ op_run.1.1 = empty_edge) \/
  exists p s1, pending_cases empty_edge !! "case-7" = None /\ Ok "env-7" = Ok (A := string) (E := string) (ep_EnvelopeID p) /\
    opened op_service op_request ex_later p /\
    SavePendingCase "acme" p quiet empty_edge = (s1, Ok tt) /\
    LoadPendingCase "acme" "case-7" None s1 = Ok (Some p) /\
    op_run.2 = [(service_identity op_service, ep_Raw p)] /\
    ((exists x, op_run.1.2.2 = Some x /\ op_run.1.2.1 = pending_submission p /\ op_run.1.1 = s1) \/
     (exists rc, EdgeService.Submit (service_identity op_service) (ep_Raw p) = Ok rc /\ op_run.1.2.2 = None /\
        op_run.1.2.1 = accepted rc (pending_submission p) /\ case_admitted p rc op_run.1.1)).
Proof.
  apply (opened_case_exact "acme" op_service op_request (op_env "env-7") empty_edge op_run.1.1 op_run.1.2.1 op_run.1.2.2 op_run.2).
  - apply op_service_ok.
  - vm_compute. reflexivity.
  - rewrite op_run_eq. by destruct op_run.1.2.
Defined.

(** ** The dispatcher's advice for a delivered case *)
Definition op_finalizer : Finalizer :=
  {| fz_principalID := "dispatch"; fz_authorKeyID := "key-d"; fz_signer := ctl_key 11; fz_ttl := day |}.
Definition op_row : CaseRow :=
  {| er_envelope_id := "env-7"; er_commitment := ex_sha "b"; er_issuer_edge_id := "edge-1"; er_issuer_edge_generation := 3;
     er_route_kind := "domain"; er_route_token := ""; er_source_token := ""; er_domain := "payments"; er_routing_epoch := 2;
     er_registry_revision := 1; er_registry_hash := cr_Commitment ctl_registry_request;
     er_payload_ciphertext := "xxxxxxxxxxxx" ++ "#" ++ encodeCasePayload "payment stuck" (ex_sha "a");
     er_expires_at := sqlTime (ex_later + hour); er_state := "accepted" |}.
Definition op_store : EdgeDB := set_cases {["case-7" := op_row]} empty_edge.
Definition op_advice (text : string) : FinalizeAdviceRequest :=
  {| fa_CaseID := "case-7"; fa_CaseCommitment := ex_sha "b"; fa_Text := text; fa_PublicSummary := "advice" |}.

Definition op_final : EdgeDB * (Submission * option ServiceError) * list (WorkloadIdentity * bytes) :=
  FinalizeAdvice "acme" op_finalizer (op_advice "restart it") (op_env "advice-7") op_store.

Lemma op_final_eq : FinalizeAdvice "acme" op_finalizer (op_advice "restart it") (op_env "advice-7") op_store =
  (op_final.1.1, (op_final.1.2.1, op_final.1.2.2), op_final.2).
Proof. fold op_final. by destruct op_final as [[? []] ]. Qed.

(** It was signed, spooled and sent; control refused it, since the case was
    never submitted there. *)
Example op_final_sent : length op_final.2 = 1%nat /\ is_Some op_final.1.2.2.
Proof. vm_compute. eauto. Qed.

Lemma final_advice_exact_witness : op_final.2 <> [] /\
  exists row c p s1, pending_advice op_store !! "case-7" = None /\
    accepted_case op_store "case-7" = Some row /\ er_commitment row = ex_sha "b" /\ shows row c /\
    Ok "advice-7" = Ok (A := string) (E := string) (ea_AdviceID p) /\ finalized op_finalizer c (op_advice "restart it") ex_later p /\
    SavePendingAdvice "acme" p quiet op_store = (s1, Ok tt) /\
    LoadPendingAdvice "acme" "case-7" None s1 = Ok (Some p) /\
    op_final.2 = [(finalizer_identity op_finalizer, ea_Raw p)] /\
    ((exists x, op_final.1.2.2 = Some x /\ op_final.1.2.1 = pending_advice_submission p /\ op_final.1.1 = s1) \/
     (exists rc, EdgeService.Submit (finalizer_identity op_finalizer) (ea_Raw p) = Ok rc /\ op_final.1.2.2 = None /\
        op_final.1.2.1 = accepted rc (pending_advice_submission p) /\ advice_admitted p rc op_final.1.1)).
Proof.
  assert (Hne : op_final.2 <> []) by (intros E; pose proof (proj1 op_final_sent) as Hl; rewrite E in Hl; discriminate Hl).
  split; [done|].
  destruct (final_advice_exact "acme" op_finalizer (op_advice "restart it") (op_env "advice-7") op_store
    op_final.1.1 op_final.1.2.1 op_final.1.2.2 op_final.2) as [(E & _)|Hx];
    [reflexivity|vm_compute; reflexivity|apply op_final_eq|contradiction|exact Hx].
Defined.

(** The spooled advice in the spool of a fresh store, and another request for
    the same case. *)
Definition op_pending : PendingAdvice :=
  match LoadPendingAdvice "acme" "case-7" None op_final.1.1 with
  | Ok (Some p) => p
  | _ => {| ea_AdviceID := ""; ea_CaseID := ""; ea_CaseCommitment := ""; ea_Commitment := ""; ea_Raw := ""; ea_CreatedAt := 0 |}
  end.
Definition op_kept : EdgeDB * result string unit := SavePendingAdvice "acme" op_pending quiet empty_edge.
Definition op_second : EdgeDB * (Submission * option ServiceError) * list (WorkloadIdentity * bytes) :=
  FinalizeAdvice "acme" op_finalizer (op_advice "wait") (op_env "advice-8") (run_ops "acme" [] op_kept.1).

Lemma one_final_advice_witness : op_second.2 = [] /\ op_second.1.2.2 = Some ErrPendingAdviceConflict.
Proof.
  split; [|vm_compute; reflexivity].
  refine (proj1 (one_final_advice "acme" op_pending quiet empty_edge op_kept.1 [] op_finalizer (op_advice "wait") (op_env "advice-8")
    op_second.1.1 op_second.1.2.1 op_second.1.2.2 op_second.2 _ _ _ _ _)).
  - by exists [].
  - vm_compute. reflexivity.
  - unfold op_kept. apply run_pair. vm_compute. reflexivity.
  - vm_compute. reflexivity.
  - fold op_second. by destruct op_second as [[? []] ].
Defined.
