(* ===== verification/EdgeReadable.v ===== *)
(** * Every stored row can be read back

    A well-formedness invariant of the edge store: whatever calls were made, in
    any order and with any faults, every sealed field opens under its table and
    key, every stored payload decodes and every stored time parses, so that no
    read of the store fails on what the store wrote. *)
From stdpp Require Import sorting relations.
From S2P Require Import Prelude GoText GoStrconv GoTime GoJson GoJsonRead GoBase64 GoUtf8 GoJsonText Sha256 DeliveryStream SqliteTx.
From S2P Require Import SspGuard SspBody SspRegistry SspEnvelope SspStrip SspTheorems SspSign GoJsonWire Registry ControlApi EdgeVerifier ControlTheorems GoJsonPrint.
From S2P Require Import EdgeStore EdgeApply EdgeRecovery EdgeSpool EdgeInv EdgeFront EdgeTurns EdgeSystem EdgeTheorems EdgeService EdgeOpen EdgeEnvelope EdgeOpenTheorems EdgeExample.
Open Scope string_scope.
Open Scope Z_scope.
Open Scope snag_scope.

(** ** The payload of a case *)
Definition payload_json (summary manifest : string) : members :=
  [("summary", json_string summary, JString summary); ("context_manifest", json_string manifest, JString manifest)].

Lemma payload_text summary manifest : utf8_valid summary = true -> utf8_valid manifest = true ->
  text_of (encodeCasePayload summary manifest) (JObject (payload_json summary manifest)).
Proof.
  intros Hs Hm.
  assert (E : encodeCasePayload summary manifest =
    json_object [("summary", json_string summary); ("context_manifest", json_string manifest)]).
  { unfold encodeCasePayload, json_object, marshal_member. cbn [map join fst snd]. by rewrite <- !app_string_assoc. }
  rewrite E.
  change (payload_json summary manifest) with (zip_with (fun p v => (p.1, p.2, v))
    [("summary", json_string summary); ("context_manifest", json_string manifest)] [JString summary; JString manifest]).
  apply text_object. repeat constructor; by apply text_string.
Qed.

(** [encodeCasePayload] and [decodeCasePayload] are a round trip on UTF-8. *)
Lemma payload_roundtrip summary manifest : utf8_valid summary = true -> utf8_valid manifest = true ->
  decodeCasePayload (encodeCasePayload summary manifest) =
    Ok {| py_Summary := summary; py_ContextManifest := manifest |}.
Proof.
  intros Hs Hm. pose proof (payload_text _ _ Hs Hm) as Ht. apply parse_text in Ht. unfold parse in Ht.
  unfold decodeCasePayload, decode_single. destruct (read_value _) as [[v z]|]; [|done]. cbn [mbind option_bind] in *.
  destruct (is_empty (skip_ws z)); [|done]. injection Ht as ->.
  assert (Hone : forall k w, In (k, json_string w, JString w) (payload_json summary manifest) ->
    wire_field (decode_raw decode_string) "" (payload_json summary manifest) k = Some w).
  { intros k w Hin. rewrite (wire_one _ _ _ ["summary"; "context_manifest"] k (json_string w) (JString w));
      [done|vm_compute; reflexivity|done| |done]. apply (bool_decide_unpack _). vm_compute. exact I. }
  unfold decode_payload, wire_struct.
  assert (Hk : known_names ["summary"; "context_manifest"] (payload_json summary manifest) = true) by (vm_compute; reflexivity).
  rewrite Hk, (Hone "summary" summary), (Hone "context_manifest" manifest) by (cbn; tauto). done.
Qed.

(** ** Readable rows *)
Section Readable.
Context `{AEADLaws} (tenant : string).

Definition case_readable (k : string) (r : CaseRow) : Prop :=
  exists plain payload t, open_field tenant "ssp_edge_cases" k (er_payload_ciphertext r) = Ok plain /\
    decodeCasePayload plain = Ok payload /\ parseSQLTime (er_expires_at r) = Ok t.
Definition advice_readable (k : string) (r : EdgeAdviceRow) : Prop := exists v, advice_view tenant k r = Ok v.

Record readable (s : EdgeDB) : Prop := {
  rd_pending_case : forall k r, pending_cases s !! k = Some r -> exists p, scanPendingCase tenant (Some r) k = Ok (Some p);
  rd_pending_advice : forall k r, pending_advice s !! k = Some r -> exists p, scanPendingAdvice tenant (Some r) k = Ok (Some p);
  rd_case : forall k r, cases s !! k = Some r -> case_readable k r;
  rd_advice : forall k r, advice s !! k = Some r -> advice_readable k r
}.

(** The inputs that have a text: UTF-8 payloads and years of four digits. *)
Definition printable_projection (p : VerifiedProjection) : Prop :=
  match p_Case p with
  | Some c => utf8_valid (c_Summary c) = true /\ utf8_valid (c_ContextManifest c) = true /\ four_digit_year (c_ExpiresAt c) = true
  | None => True
  end.
Definition printable_op (op : EdgeOp) : Prop :=
  match op with
  | OpApply _ _ _ p now _ _ => four_digit_year now = true /\ match p with Some p => printable_projection p | None => True end
  | OpSaveCase p _ => four_digit_year (ep_CreatedAt p) = true
  | OpSaveAdvice p _ => four_digit_year (ea_CreatedAt p) = true
  | _ => True
  end.

(** The two projection tables, which the counters and the turns never touch. *)
Definition projections_readable (s : EdgeDB) : Prop :=
  (forall k r, cases s !! k = Some r -> case_readable k r) /\ (forall k r, advice s !! k = Some r -> advice_readable k r).

Lemma same_readable s s' : cases s' = cases s -> advice s' = advice s -> projections_readable s -> projections_readable s'.
Proof using Type. unfold projections_readable. by intros -> ->. Qed.

Lemma new_case_readable p c nonce : utf8_valid (c_Summary c) = true -> utf8_valid (c_ContextManifest c) = true ->
  four_digit_year (c_ExpiresAt c) = true -> len nonce = Z.of_nat nonceSize ->
  case_readable (c_CaseID c) (case_row_of p c (nonce ++ Seal nonce (encodeCasePayload (c_Summary c) (c_ContextManifest c))
    (aad tenant "ssp_edge_cases" (c_CaseID c)))).
Proof using All.
  intros Hs Hm Hy Hn. eexists _, _, (c_ExpiresAt c). cbn [case_row_of er_payload_ciphertext er_expires_at].
  split_and!; [by apply open_sealed|by apply payload_roundtrip|]. unfold parseSQLTime. by rewrite parse_sqlTime.
Qed.

Lemma new_advice_readable p a nonce now : four_digit_year now = true -> len nonce = Z.of_nat nonceSize ->
  advice_readable (a_AdviceID a) (advice_row_of p a (nonce ++ Seal nonce (a_Text a)
    (aad tenant "ssp_edge_advice" (a_AdviceID a))) now).
Proof using All.
  intros Hy Hn. unfold advice_readable, advice_view. cbn [advice_row_of ar_text_ciphertext ar_received_at].
  rewrite open_sealed by done. cbn [mbind result_bind]. unfold parseSQLTime. rewrite parse_sqlTime by done. eauto.
Qed.

Lemma quarantine_readable id com seq now s : projections_readable s -> projections_readable (quarantined_store id com seq now s).
Proof using Type.
  intros [Hc Ha]. split; intros k r Hr; cbn in Hr.
  - rewrite lookup_fmap in Hr. destruct (cases s !! k) as [r0|] eqn:E; [|done]. injection Hr as <-.
    destruct (Hc _ _ E) as (plain & py & t & H1 & H2 & H3). destruct (_ =s? id); by exists plain, py, t.
  - rewrite lookup_fmap in Hr. destruct (advice s !! k) as [r0|] eqn:E; [|done]. injection Hr as <-.
    destruct (Ha _ _ E) as [v Hv]. destruct (_ =s? id); [|by exists v]. exists v. exact Hv.
Qed.

Lemma persist_readable p now env st st' u : printable_projection p -> four_digit_year now = true ->
  persistProjection tenant p now env st = (st', Ok u) -> projections_readable st.2 -> projections_readable st'.2.
Proof using All.
  intros Hp Hy Hw [Hc Ha]. unfold persistProjection, seal in Hw. destruct (p_Family p =s? FamilyCase).
  { unfold printable_projection in Hp. destruct (p_Case p) as [c|]; [|stx_inv]. stx_inv. apply put_ok in Hw as (t & Ht & ->).
    apply insert_or_ignore_ok in Ht as [[_ ->]|[Hn ->]]; edge_simpl; [by split|]. split; [|done].
    cbn [cases set_cases snd]. intros k r [[<- <-]|[_ Hr]]%lookup_insert_Some; [|by apply Hc].
    destruct Hp as (H1 & H2 & H3). apply new_case_readable; [done..|]. apply len_random_bytes. }
  destruct (p_Family p =s? FamilyAdvice); [|stx_inv]. destruct (p_Advice p) as [a|]; [|stx_inv]. stx_inv.
  destruct (cases st.2 !! a_CaseID a) as [c|] eqn:Ec; [|stx_inv]. destruct (er_state c =s? "accepted"); stx_inv.
  match goal with Hx : put _ _ _ _ _ = _ |- _ => apply put_ok in Hx as (t & Ht & ->) end.
  match goal with Hx : insertFront "cli" _ _ _ _ = _ |- _ => apply insertFront_ok in Hx end. apply insertFront_ok in Hw.
  assert (Hsame : cases st'.2 = cases st.2 /\ advice st'.2 = t)
    by (destruct Hw as [[_ ->]|[_ ->]]; cbn [set_front_outbox cases advice snd];
        match goal with Hx : _ \/ _ |- _ => destruct Hx as [[_ ->]|[_ ->]] end; done).
  destruct Hsame as [E1 E2]. split; rewrite ?E1, ?E2; [done|].
  apply insert_or_ignore_ok in Ht as [[_ ->]|[_ ->]]; [done|].
  intros k r [[<- <-]|[_ Hr]]%lookup_insert_Some; [|by apply Ha]. apply new_advice_readable; [done|apply len_random_bytes].
Qed.

Lemma verdict_readable d v reason p now env st st' r :
  match p with Some p => printable_projection p | None => True end -> four_digit_year now = true ->
  applyVerdict tenant d v reason p now env st = (st', Ok r) -> projections_readable st.2 -> projections_readable st'.2.
Proof using All.
  intros Hp Hy Hw Hr. unfold applyVerdict in Hw. destruct (v =s? VerdictAccepted); [|by stx_inv].
  destruct p as [p|]; [|stx_inv]. stx_inv.
  match goal with Hc : claimIdentity _ _ _ _ _ _ = _ |- _ => apply claimIdentity_cases in Hc
    as [(-> & _ & E)|[(-> & E & _)|(-> & E & _)]] end; cbn in Hw.
  - stx_inv. match goal with Hx : persistProjection _ _ _ _ _ = _ |- _ =>
      eapply persist_readable in Hx; [exact Hx|done..|] end. by rewrite E.
  - stx_inv. by rewrite E.
  - stx_inv. rewrite E. by apply quarantine_readable.
Qed.

(** The four tables the reads look at. *)
Definition same_tables (s s' : EdgeDB) : Prop :=
  cases s' = cases s /\ advice s' = advice s /\ pending_cases s' = pending_cases s /\ pending_advice s' = pending_advice s.

Lemma same_tables_readable s s' : same_tables s s' -> readable s -> readable s'.
Proof using Type. intros (E1 & E2 & E3 & E4) [A B C D]. split; rewrite ?E1, ?E2, ?E3, ?E4; done. Qed.

Lemma counter_tables key s s' last high mode : counter_effect key s s' last high mode -> same_tables s s'.
Proof using Type. intros [-> _ _ _ _]. done. Qed.

Lemma apply_readable d v reason p now allow env s : edge_log_inv s -> printable_op (OpApply d v reason p now allow env) ->
  readable s -> readable (applyVerified tenant d v reason p now allow env s).1.
Proof using All.
  intros Hl [Hy Hp] Hr. destruct (applyVerified _ _ _ _ _ _ _ _ _) as [s' x] eqn:E. cbn [fst].
  destruct (applyVerified_effect tenant _ _ _ _ _ _ _ _ _ _ Hl E) as [(e & _ & ->)|(o & _ & _ & He)]; [done|].
  destruct He as [row _ _ ->|o0 _ Hc|row _ _ _ _ Hc|o0 v' r' s1 env' st1 st2 _ _ _ Ha <- -> Hc];
    [done|by eapply same_tables_readable, Hr; eapply counter_tables..|].
  apply counter_tables in Hc. eapply same_tables_readable; [exact Hc|].
  pose proof (applyVerdict_log _ _ _ _ _ _ _ _ _ _ Ha) as (_ & _ & E1 & E2 & _).
  destruct Hr as [R1 R2 R3 R4]. destruct (verdict_readable _ _ _ _ _ _ _ _ _ Hp Hy Ha (conj R3 R4)) as [R5 R6].
  split; cbn [set_deliveries pending_cases pending_advice cases advice]; rewrite ?E1, ?E2; done.
Qed.

Lemma put_case_readable s k r p : scanPendingCase tenant (Some r) k = Ok (Some p) -> readable s ->
  readable (set_pending_cases (<[k := r]> (pending_cases s)) s).
Proof using Type.
  intros Hs [R1 R2 R3 R4]. split; cbn [set_pending_cases pending_cases pending_advice cases advice]; try done.
  intros k' r' [[<- <-]|[_ Hr]]%lookup_insert_Some; eauto.
Qed.

Lemma put_advice_readable s k r p : scanPendingAdvice tenant (Some r) k = Ok (Some p) -> readable s ->
  readable (set_pending_advice (<[k := r]> (pending_advice s)) s).
Proof using Type.
  intros Hs [R1 R2 R3 R4]. split; cbn [set_pending_advice pending_cases pending_advice cases advice]; try done.
  intros k' r' [[<- <-]|[_ Hr]]%lookup_insert_Some; eauto.
Qed.

Lemma front_readable s s' : front_step s s' -> readable s -> readable s'.
Proof using Type. intros [-> _]. by apply same_tables_readable. Qed.

Lemma run_op_readable op s : edge_inv s -> printable_op op -> readable s -> readable (run_op tenant op s).
Proof using All.
  intros [Hl _] Hp Hr. destruct op as [d v reason p now allow env|id observed reason now env|id c h now f
    |front owner ttl limit now env|receipt now env|p env|a env|p env|a env
    |ev request now ret ttl cap env|ev request result at_ claim env|ev request claim env
    |ev request claim env]; cbn [run_op printable_op] in *.
  - by apply apply_readable.
  - destruct (RequireReconciliation _ _ _ _ _ _) as [s' r] eqn:E.
    apply RequireReconciliation_cases in E as [->|Hc%counter_tables]; [done|]. by eapply same_tables_readable.
  - destruct (CompleteReconciliation _ _ _ _ _ _) as [s' [u|e]] eqn:E; [|by apply CompleteReconciliation_err in E as ->].
    apply CompleteReconciliation_ok in E as (_ & Hc%counter_tables & _). by eapply same_tables_readable.
  - destruct (ClaimFrontDeliveries _ _ _ _ _ _ _ _) as [s' r] eqn:E.
    apply ClaimFrontDeliveries_cases in E as [(e & _ & ->)|(ds & _ & Hs & _)]; [done|]. by eapply front_readable.
  - destruct (MarkFrontDelivered _ _ _ _) as [s' r] eqn:E. apply MarkFrontDelivered_step in E. by eapply front_readable.
  - destruct (SavePendingCase _ _ _ _) as [s' r] eqn:E.
    apply SavePendingCase_cases in E as [[-> _]|(_ & _ & nonce & Hn & ->)]; [done|].
    eapply put_case_readable; [by apply scan_saved_case|done].
  - destruct (MarkCaseAcceptedRemote _ _ _) as [s' r] eqn:E.
    apply MarkCaseAcceptedRemote_cases in E
      as [(e & _ & ->)|(row & _ & Hrow & _ & _ & [(Hs & ->)|(_ & -> & _)])]; [done| |done].
    destruct (rd_pending_case _ Hr _ _ Hrow) as [p Hscan]. by eapply put_case_readable.
  - destruct (SavePendingAdvice _ _ _ _) as [s' r] eqn:E.
    apply SavePendingAdvice_cases in E as [[-> _]|(_ & _ & nonce & Hn & ->)]; [done|].
    eapply put_advice_readable; [by apply scan_saved_advice|done].
  - destruct (MarkAdviceAcceptedRemote _ _ _) as [s' r] eqn:E.
    apply MarkAdviceAcceptedRemote_cases in E
      as [(e & _ & ->)|(row & _ & Hrow & _ & _ & [(Hs & ->)|(_ & -> & _)])]; [done| |done].
    destruct (rd_pending_advice _ Hr _ _ Hrow) as [p Hscan]. by eapply put_advice_readable.
  - destruct (BindDispatcherTurn _ _ _ _ _ _ _ _ _) as [s' r] eqn:E.
    apply BindDispatcherTurn_cases in E as [(e & _ & ->)|(b & _ & -> & _)]; [done|]. by apply (same_tables_readable s).
  - destruct (CompleteDispatcherTurn _ _ _ _ _ _ _ _) as [s' r] eqn:E.
    apply CompleteDispatcherTurn_cases in E
      as [(e & _ & ->)|(_ & r0 & _ & _ & [(_ & _ & ->)|(_ & nonce & _ & ->)])]; [done|done|].
    by apply (same_tables_readable s).
  - destruct (ReleaseDispatcherTurnClaim _ _ _ _ _ _) as [s' r] eqn:E.
    apply ReleaseDispatcherTurnClaim_cases in E as [(e & _ & ->)|(_ & r0 & _ & _ & _ & ->)]; [done|].
    by apply (same_tables_readable s).
  - destruct (AbandonDispatcherTurn _ _ _ _ _ _) as [s' r] eqn:E.
    apply AbandonDispatcherTurn_cases in E as [(e & _ & ->)|(_ & r0 & _ & _ & _ & ->)]; [done|].
    by apply (same_tables_readable s).
Qed.

Lemma run_ops_readable ops : forall s, edge_inv s -> readable s -> Forall printable_op ops ->
  readable (run_ops tenant ops s).
Proof using All.
  induction ops as [|op ops IH]; intros s Hi Hr Hp; [done|]. apply Forall_cons_1 in Hp as [H1 H2].
  rewrite run_ops_cons. apply IH; [by apply run_op_ok|by apply run_op_readable|done].
Qed.

Lemma readable_empty : readable empty_edge.
Proof using Type. split; intros k r; cbn; by rewrite lookup_empty. Qed.

(** ** What the reads return *)

(** A view shows an accepted advice row of the case, decrypted. *)
Definition shows_advice (s : EdgeDB) (caseID : string) (v : AdviceView) : Prop :=
  exists r, advice s !! av_AdviceID v = Some r /\ ar_state r = "accepted" /\ ar_case_id r = caseID /\ av_CaseID v = caseID /\
    open_field tenant "ssp_edge_advice" (av_AdviceID v) (ar_text_ciphertext r) = Ok (av_Text v) /\
    parseSQLTime (ar_received_at r) = Ok (av_ReceivedAt v).

(** A local case shows an accepted case row. *)
Definition shows_case (s : EdgeDB) (caseID : string) (c : LocalCase) : Prop :=
  exists r plain py, cases s !! caseID = Some r /\ er_state r = "accepted" /\ lc_CaseID c = caseID /\
    lc_EnvelopeID c = er_envelope_id r /\ lc_Commitment c = er_commitment r /\ lc_Committed c = true /\
    rx_RoutingEpoch (lc_Registry c) = er_routing_epoch r /\ rx_Revision (lc_Registry c) = er_registry_revision r /\
    rx_Hash (lc_Registry c) = er_registry_hash r /\ parseSQLTime (er_expires_at r) = Ok (lc_ExpiresAt c) /\
    open_field tenant "ssp_edge_cases" caseID (er_payload_ciphertext r) = Ok plain /\
    decodeCasePayload plain = Ok py /\ lc_Summary c = py_Summary py.

Lemma advice_view_exact k r v : advice_view tenant k r = Ok v <->
  av_AdviceID v = k /\ av_CaseID v = ar_case_id r /\
  open_field tenant "ssp_edge_advice" k (ar_text_ciphertext r) = Ok (av_Text v) /\
  parseSQLTime (ar_received_at r) = Ok (av_ReceivedAt v).
Proof using Type.
  unfold advice_view. destruct (open_field _ _ _ _) as [t|]; [|by split; [|intros (_ & _ & ? & _)]]. cbn [mbind result_bind].
  destruct (parseSQLTime _) as [at_|]; [|by split; [|intros (_ & _ & _ & ?)]]. cbn [mbind result_bind mret result_ret]. split.
  - by intros [= <-].
  - intros (E1 & E2 & [= E3] & [= E4]). destruct v. cbn in *. by subst.
Qed.

Lemma view_all_readable l : (forall k r, (k, r) ∈ l -> advice_readable k r) ->
  exists vs, view_all tenant l = Ok vs /\ map av_AdviceID vs = l.*1 /\
    forall v, v ∈ vs <-> exists k r, (k, r) ∈ l /\ advice_view tenant k r = Ok v.
Proof using Type.
  induction l as [|[k r] l IH]; intros Hl.
  { exists []. split_and!; [done..|]. intros v. split; [by intros ?%not_elem_of_nil|].
    intros (k & r & Hin & _). by apply not_elem_of_nil in Hin. }
  destruct (Hl k r) as [v Hv]; [left|].
  destruct IH as (vs & Hvs & Hk & Hin); [intros; apply Hl; by right|]. exists (v :: vs). cbn [view_all].
  rewrite Hv, Hvs. cbn [mbind result_bind mret result_ret]. split_and!; [done| |].
  - cbn [map fmap list_fmap fst]. rewrite Hk. by apply advice_view_exact in Hv as (-> & _).
  - intros w. rewrite elem_of_cons, Hin. split.
    + intros [->|(k' & r' & Hl' & Hw)]; eexists _, _; (split; [|done || exact Hw]); [by left|by right|..]; done.
    + intros (k' & r' & [[= -> ->]|Hl']%elem_of_cons & Hw); [left; congruence|right; eauto].
Qed.

Lemma advice_rows_elem s caseID k r : (k, r) ∈ advice_rows caseID s <->
  advice s !! k = Some r /\ ar_state r = "accepted" /\ ar_case_id r = caseID.
Proof using Type.
  unfold advice_rows. rewrite merge_sort_Permutation, list_elem_of_filter, elem_of_map_to_list. cbn [fst snd]. tauto.
Qed.

Lemma advice_rows_readable s caseID : readable s -> exists vs, view_all tenant (advice_rows caseID s) = Ok vs /\
  NoDup (map av_AdviceID vs) /\ forall v, v ∈ vs <-> shows_advice s caseID v.
Proof using Type.
  intros Hr. destruct (view_all_readable (advice_rows caseID s)) as (vs & Hvs & Hk & Hin).
  { intros k r [Hkr _]%advice_rows_elem. by eapply rd_advice. }
  exists vs. split_and!; [done| |].
  - rewrite Hk. unfold advice_rows. rewrite merge_sort_Permutation.
    eapply sublist_NoDup; [|apply fmap_sublist, sublist_filter].
    apply NoDup_fst_map_to_list.
  - intros v. rewrite Hin. unfold shows_advice. split.
    + intros (k & r & (H1 & H2 & H3)%advice_rows_elem & (<- & H4 & H5 & H6)%advice_view_exact). exists r. by rewrite <- H3 at 2.
    + intros (r & H1 & H2 & H3 & H4 & H5 & H6). exists (av_AdviceID v), r. rewrite advice_rows_elem, advice_view_exact.
      by rewrite H3.
Qed.

(** C25: every row the edge store wrote can be read back.  The store starts
    empty and takes any calls in any order, failing and crashing anywhere, whose
    payloads are UTF-8 and whose clock has years of four digits.  Then no read
    without a database fault, of a key that is not blank, fails.
    [LoadPendingCase] and [LoadPendingAdvice] find a submission exactly when the
    spool has a row, with the row's identity and commitment and the decrypted
    wire.  [GetCase] finds a case exactly when its row is accepted, and shows
    that row; [PresentAdvice] shows exactly the accepted advice of that
    identifier; and [ListAdvice] lists exactly the accepted advices of the case,
    each once, with its decrypted text and time. *)
Theorem edge_rows_readable ops : Forall printable_op ops ->
  let s := run_ops tenant ops empty_edge in
  forall k, blank k = false ->
  (exists p, LoadPendingCase tenant k None s = Ok p /\ (is_Some p <-> is_Some (pending_cases s !! k)) /\
     forall x r, p = Some x -> pending_cases s !! k = Some r -> ep_CaseID x = k /\ ep_EnvelopeID x = pc_envelope_id r /\
       ep_Commitment x = pc_commitment r /\
       open_field tenant "ssp_edge_pending_cases" k (pc_raw_ciphertext r) = Ok (ep_Raw x)) /\
  (exists p, LoadPendingAdvice tenant k None s = Ok p /\ (is_Some p <-> is_Some (pending_advice s !! k)) /\
     forall x r, p = Some x -> pending_advice s !! k = Some r -> ea_CaseID x = k /\ ea_AdviceID x = pa_advice_id r /\
       ea_Commitment x = pa_commitment r /\
       open_field tenant "ssp_edge_pending_advice" k (pa_raw_ciphertext r) = Ok (ea_Raw x)) /\
  (exists c, GetCase tenant k None s = Ok c /\
     (is_Some c <-> exists r, cases s !! k = Some r /\ er_state r = "accepted") /\ forall x, c = Some x -> shows_case s k x) /\
  (exists a, PresentAdvice tenant k None s = Ok a /\
     forall v, a = Some v <-> av_AdviceID v = k /\ shows_advice s (av_CaseID v) v) /\
  (exists l, ListAdvice tenant k None s = Ok l /\ NoDup (map av_AdviceID l) /\ forall v, v ∈ l <-> shows_advice s k v).
Proof using All.
  intros Hops s k Hk. assert (Hr : readable s) by (apply run_ops_readable; [apply edge_inv_empty|apply readable_empty|done]).
  unfold LoadPendingCase, LoadPendingAdvice, GetCase, PresentAdvice, ListAdvice. rewrite Hk. split_and!.
  - destruct (pending_cases s !! k) as [r|] eqn:E; [|exists None; by split_and!].
    destruct (rd_pending_case _ Hr _ _ E) as [p Hp]. exists (Some p). split_and!; [done|split; eauto|].
    intros x r' [= <-] [= <-]. cbn in Hp. destruct (parseSQLTime _); [|done]. cbn [mbind result_bind] in Hp.
    destruct (open_field _ _ _ _); [|done]. by injection Hp as <-.
  - destruct (pending_advice s !! k) as [r|] eqn:E; [|exists None; by split_and!].
    destruct (rd_pending_advice _ Hr _ _ E) as [p Hp]. exists (Some p). split_and!; [done|split; eauto|].
    intros x r' [= <-] [= <-]. cbn in Hp. destruct (parseSQLTime _); [|done]. cbn [mbind result_bind] in Hp.
    destruct (open_field _ _ _ _); [|done]. by injection Hp as <-.
  - unfold accepted_case. destruct (cases s !! k) as [r|] eqn:E; [|exists None; split_and!; [done|naive_solver|done]].
    destruct (String.eqb_spec (er_state r) "accepted") as [Es|]; [|exists None; split_and!; [done|naive_solver|done]].
    destruct (rd_case _ Hr _ _ E) as (plain & py & t & H1 & H2 & H3). rewrite H1. cbn [mbind result_bind].
    rewrite H2. cbn [mbind result_bind]. rewrite H3. eexists. split_and!; [reflexivity|split; eauto|].
    intros x [= <-]. exists r, plain, py. by split_and!.
  - unfold accepted_advice. destruct (advice s !! k) as [r|] eqn:E.
    2:{ exists None. split; [done|]. intros v. split; [done|]. intros [<- (r & Hr' & _)]. congruence. }
    destruct (String.eqb_spec (ar_state r) "accepted") as [Es|Es].
    2:{ exists None. split; [done|]. intros v. split; [done|]. intros [<- (r' & Hr' & ? & _)]. congruence. }
    destruct (rd_advice _ Hr _ _ E) as [v Hv]. rewrite Hv. exists (Some v). split; [done|].
    apply advice_view_exact in Hv as Hv'. destruct Hv' as (E1 & E2 & E3 & E4). intros w. split.
    + intros [= <-]. split; [done|]. exists r. by rewrite E1.
    + intros [Hw (r' & H1 & H2 & H3 & _ & H5 & H6)]. f_equal. assert (r' = r) as -> by congruence.
      enough (Hvw : advice_view tenant k r = Ok w) by (rewrite Hv in Hvw; by injection Hvw).
      apply advice_view_exact. by rewrite <- Hw.
  - by apply advice_rows_readable.
Qed.
End Readable.

#[local] Existing Instance toy_aead.
#[local] Existing Instance toy_aead_laws.

(** The store of the example: a case, its advice, and a spooled case. *)
Lemma edge_rows_readable_witness :
  let s := run_ops "acme" (ex_ops ++ [OpSaveCase ex_pending quiet])%list empty_edge in
  (exists l, ListAdvice "acme" "case-1" None s = Ok l /\ NoDup (map av_AdviceID l) /\
     forall v, v ∈ l <-> shows_advice "acme" s "case-1" v) /\
  (exists c, GetCase "acme" "case-1" None s = Ok c /\
     (is_Some c <-> exists r, cases s !! "case-1" = Some r /\ er_state r = "accepted") /\
     forall x, c = Some x -> shows_case "acme" s "case-1" x) /\
  er_state <$> cases s !! "case-1" = Some "accepted" /\ pc_state <$> pending_cases s !! "case-9" = Some "pending" /\
  map av_Text (match ListAdvice "acme" "case-1" None s with Ok l => l | Err _ => [] end) = ["restart it"].
Proof.
  assert (Hp : Forall printable_op (ex_ops ++ [OpSaveCase ex_pending quiet])%list)
    by (repeat constructor; vm_compute; split_and?; reflexivity).
  intros s. split_and!; [apply (edge_rows_readable "acme" _ Hp)|apply (edge_rows_readable "acme" _ Hp)|..];
    vm_compute; reflexivity.
Defined.
