(* ===== verification/BuzzNostr.v ===== *)
(** * internal/collab/buzz: the Nostr event of a projection

    The signed event a projection publishes (projector.go): its JSON without
    HTML escapes, the digest that is its identity, the tags, and the card it
    carries.  [uuid.Parse] of github.com/google/uuid is a parameter.  A nil and
    an empty slice of tags are the same here; the events built by [prepare]
    have neither. *)
From S2P Require Import Prelude GoText GoStrconv GoTime GoJson GoJsonRead GoUtf8 GoJsonText Sha256.
From S2P Require Import SspGuard SspBody SspRegistry SspEnvelope SspStrip SspTheorems SspSign GoJsonWire Registry.
Open Scope string_scope.
Open Scope Z_scope.
Open Scope snag_scope.

(** ** JSON without HTML escapes: [SetEscapeHTML(false)] *)
Definition nostr_rune (r : option Z) : string :=
  match r with
  | None => escape_u 0xFFFD
  | Some c =>
      if (c =? 34) || (c =? 92) then escape c
      else if c =? 8 then escape 98
      else if c =? 12 then escape 102
      else if c =? 10 then escape 110
      else if c =? 13 then escape 114
      else if c =? 9 then escape 116
      else if c <? 32 then escape_u c
      else if (c =? 0x2028) || (c =? 0x2029) then escape_u c
      else encode_rune c
  end.

Definition nostr_string (s : string) : string := String quote (print_text nostr_rune s ++ String quote "").

(** ** Events *)
Record nostrEvent := {
  ne_ID : string;
  ne_PubKey : string;
  ne_CreatedAt : Z;
  ne_Kind : Z;
  ne_Tags : list (list string);
  ne_Content : string;
  ne_Sig : string
}.

Definition stockBuzzMessageKind : Z := 9.

Definition nostr_tags (tags : list (list string)) : string :=
  json_array (map (fun t => json_array (map nostr_string t)) tags).

Definition marshalNostrEvent (e : nostrEvent) : bytes := json_object
  [("id", nostr_string (ne_ID e)); ("pubkey", nostr_string (ne_PubKey e)); ("created_at", dec (ne_CreatedAt e));
   ("kind", dec (ne_Kind e)); ("tags", nostr_tags (ne_Tags e)); ("content", nostr_string (ne_Content e));
   ("sig", nostr_string (ne_Sig e))].

Definition decode_tags (_ : list (list string)) (v : json) : option (list (list string)) :=
  match v with
  | JArray l => mapM (fun m => decode_strings [] m.2) l
  | JNull => Some []
  | _ => None
  end.

Definition decode_event (raw : bytes) : option nostrEvent :=
  parse raw ≫= decode_struct (fun l =>
    id ← wire_field (decode_raw decode_string) "" l "id";
    pubkey ← wire_field (decode_raw decode_string) "" l "pubkey";
    created ← wire_field (decode_raw decode_int64) 0 l "created_at";
    kind ← wire_field (decode_raw decode_int64) 0 l "kind";
    tags ← wire_field (decode_raw decode_tags) [] l "tags";
    content ← wire_field (decode_raw decode_string) "" l "content";
    sig ← wire_field (decode_raw decode_string) "" l "sig";
    Some {| ne_ID := id; ne_PubKey := pubkey; ne_CreatedAt := created; ne_Kind := kind; ne_Tags := tags;
            ne_Content := content; ne_Sig := sig |}).

(** ** The digest *)
Definition byte_at (s : string) (i : nat) : ascii := default "000"%char (String.get i s).

Fixpoint backslashes_before (s : string) (at_ : nat) : nat :=
  match at_ with
  | O => O
  | S i => if byte_at s i =c? backslash then S (backslashes_before s i) else O
  end.
Definition jsonBackslashEscaped (s : string) (at_ : nat) : bool := Nat.odd (backslashes_before s at_).

(** The condition of the loop: an escape [\u2028] or [\u2029] starts at [i]. *)
Definition separator_at (s : string) (i : nat) : bool :=
  (byte_at s i =c? backslash) && (i + 5 <? String.length s)%nat
  && (byte_at s (i + 1) =c? "u") && (byte_at s (i + 2) =c? "2") && (byte_at s (i + 3) =c? "0")
  && (byte_at s (i + 4) =c? "2") && ((byte_at s (i + 5) =c? "8") || (byte_at s (i + 5) =c? "9"))
  && negb (jsonBackslashEscaped s i).

Definition separator_bytes (d : ascii) : string :=
  byte1 0xE2 (byte1 0x80 (byte1 (0xA8 + code d - code "8") "")).

(** The loop from index [i]; [normalized] stays [None] until the first escape. *)
Fixpoint unescape_loop (n : nat) (s : string) (i : nat) (normalized : option string) : option string :=
  match n with
  | O => normalized
  | S n =>
      if (String.length s <=? i)%nat then normalized
      else if separator_at s i
      then unescape_loop n s (i + 6) (Some (default (substring 0 i s) normalized ++ separator_bytes (byte_at s (i + 5))))
      else unescape_loop n s (i + 1) ((fun t => t ++ String (byte_at s i) "") <$> normalized)
  end.
Definition unescapeNostrLineSeparators (s : string) : string :=
  default s (unescape_loop (String.length s) s 0 None).

Definition nostr_serialized (e : nostrEvent) : string := json_array
  ["0"; nostr_string (ne_PubKey e); dec (ne_CreatedAt e); dec (ne_Kind e); nostr_tags (ne_Tags e);
   nostr_string (ne_Content e)].

Definition nostrDigest (e : nostrEvent) : bytes := sha256 (unescapeNostrLineSeparators (nostr_serialized e)).

Example unescape_one : unescapeNostrLineSeparators (String quote (escape_u 0x2028 ++ "a" ++ escape_u 0x2029)) =
  String quote (encode_rune 0x2028 ++ "a" ++ encode_rune 0x2029).
Proof. reflexivity. Qed.
Example unescape_escaped : unescapeNostrLineSeparators (escape 92 ++ "u2028") = escape 92 ++ "u2028".
Proof. reflexivity. Qed.

(** ** Channels *)
Class Uuid := uuid_text : string -> option string. (** [uuid.Parse] and then [String]. *)

Definition eventChannel (wire : bytes) : string :=
  match decode_event wire with
  | None => ""
  | Some e =>
      match find (fun tag => match tag with [k; _] => k =s? "h" | _ => false end) (ne_Tags e) with
      | Some [_; channel] => channel
      | _ => ""
      end
  end.

Definition canonicalUUID `{Uuid} (channel : string) : bool :=
  match uuid_text channel with Some t => t =s? channel | None => false end.

Fixpoint channel_of_tags `{Uuid} (tags : list (list string)) (channel : string) : result string string :=
  match tags with
  | [] => if is_empty channel then Err "prepared event must have exactly one channel tag" else Ok channel
  | tag :: tags =>
      match tag with
      | [] => channel_of_tags tags channel
      | k :: rest =>
          if k <>s? "h" then channel_of_tags tags channel
          else match rest with
               | [c] =>
                   if negb (is_empty channel) then Err "prepared event must have exactly one channel tag"
                   else if negb (canonicalUUID c) then Err "prepared event channel tag is not a canonical UUID"
                   else channel_of_tags tags c
               | _ => Err "prepared event must have exactly one channel tag"
               end
      end
  end.
Definition stockEventChannel `{Uuid} (e : nostrEvent) : result string string := channel_of_tags (ne_Tags e) "".

(** ** Cards *)
Record collaborationCard := {
  cd_Family : string;
  cd_CaseID : string;
  cd_EnvelopeID : string;
  cd_Commitment : string;
  cd_Summary : string;
  cd_Advice : string
}.

(** [string([]rune(value)[:limit])]: a byte that is not UTF-8 is U+FFFD. *)
Definition boundedCardText (value : string) (limit : Z) : string :=
  if rune_count value <=? limit then value
  else String.concat "" (map (fun r => encode_rune (default 0xFFFD r)) (take (Z.to_nat limit) (decode value))).

Definition omitempty (name value : string) : list (string * string) :=
  if is_empty value then [] else [(name, json_string value)].

Definition card_fields (c : collaborationCard) : list (string * string) :=
  ([("family", json_string (cd_Family c)); ("case_id", json_string (cd_CaseID c));
    ("envelope_id", json_string (cd_EnvelopeID c)); ("commitment", json_string (cd_Commitment c))]
   ++ omitempty "summary" (cd_Summary c) ++ omitempty "advice" (cd_Advice c))%list.
Definition card_text (c : collaborationCard) : string := json_object (card_fields c).

Definition renderCard (e : Envelope) (commitment summary advice : string) : result string string :=
  if Schema e =s? SspFamilyCase then
    Ok (card_text {| cd_Family := Schema e; cd_CaseID := CaseID e; cd_EnvelopeID := ID e; cd_Commitment := commitment;
                     cd_Summary := boundedCardText summary 1024; cd_Advice := "" |})
  else if Schema e =s? SspFamilyAdvice then
    Ok (card_text {| cd_Family := Schema e; cd_CaseID := CaseID e; cd_EnvelopeID := ID e; cd_Commitment := commitment;
                     cd_Summary := ""; cd_Advice := boundedCardText advice 1024 |})
  else Err "no collaboration card".

Definition decode_card (raw : string) : option collaborationCard :=
  parse raw ≫= decode_struct (fun l =>
    family ← wire_field (decode_raw decode_string) "" l "family";
    caseID ← wire_field (decode_raw decode_string) "" l "case_id";
    envelopeID ← wire_field (decode_raw decode_string) "" l "envelope_id";
    commitment ← wire_field (decode_raw decode_string) "" l "commitment";
    summary ← wire_field (decode_raw decode_string) "" l "summary";
    advice ← wire_field (decode_raw decode_string) "" l "advice";
    Some {| cd_Family := family; cd_CaseID := caseID; cd_EnvelopeID := envelopeID; cd_Commitment := commitment;
            cd_Summary := summary; cd_Advice := advice |}).
