(* ===== verification/BuzzProjector.v ===== *)
(** * internal/collab/buzz: the projector

    projector.go, state.go and authority_source.go: committed facts are read
    from the authority, verified, turned into signed Nostr events, stored, and
    only then published; failures are counted until a record is parked.  The
    source, the verifier, the channel map, the signer, the relay, the clock and
    the faults of the store are inputs of each run.  The store keeps the state
    whole ([MemoryStore]; [ProjectionStore] does the same behind an encrypted
    blob, which is not modelled): a save that reports an error may have been
    applied.  Error texts are abbreviated. *)
From S2P Require Import Prelude GoText GoStrconv GoTime GoJson GoJsonRead GoUtf8 GoJsonText Sha256.
From S2P Require Import SspGuard SspBody SspRegistry SspEnvelope SspStrip SspTheorems SspSign GoJsonWire Registry.
From S2P Require Import Authority BuzzNostr.
Open Scope string_scope.
Open Scope Z_scope.
Open Scope snag_scope.

(** ** State *)
Record CommittedFact := {
  cf_Sequence : Z;
  cf_EnvelopeID : string;
  cf_Commitment : string;
  cf_Raw : bytes
}.

Inductive DeliveryStatus := StatusNone | StatusPrepared | StatusPublished | StatusRetry | StatusPoison.
#[export] Instance DeliveryStatus_eq : EqDecision DeliveryStatus.
Proof. solve_decision. Defined.

Record SupersededProjection := {
  sp_EventID : string;
  sp_RootEventID : string;
  sp_Wire : bytes;
  sp_Attempts : Z;
  sp_LastError : string;
  sp_SupersededAt : Z;
  sp_Reason : string
}.

Record Delivery := {
  dv_Record : CommittedFact;
  dv_EventID : string;
  dv_RootEventID : string;
  dv_Wire : bytes;
  dv_Status : DeliveryStatus;
  dv_Attempts : Z;
  dv_LastError : string;
  dv_Superseded : list SupersededProjection
}.

(** The zero values of Go. *)
Definition no_fact : CommittedFact := {| cf_Sequence := 0; cf_EnvelopeID := ""; cf_Commitment := ""; cf_Raw := "" |}.
Definition no_delivery : Delivery :=
  {| dv_Record := no_fact; dv_EventID := ""; dv_RootEventID := ""; dv_Wire := ""; dv_Status := StatusNone;
     dv_Attempts := 0; dv_LastError := ""; dv_Superseded := [] |}.

Record LagState := { lg_Checkpoint : Z; lg_HighWatermark : Z; lg_Pending : Z; lg_Poisoned : Z }.

Record State := {
  st_Checkpoint : Z;
  st_HighWatermark : Z;
  st_CaseRoots : gmap string string;
  st_Records : gmap Z Delivery;
  st_Lag : LagState
}.

Definition set_status (s : DeliveryStatus) (d : Delivery) : Delivery :=
  {| dv_Record := dv_Record d; dv_EventID := dv_EventID d; dv_RootEventID := dv_RootEventID d; dv_Wire := dv_Wire d;
     dv_Status := s; dv_Attempts := dv_Attempts d; dv_LastError := dv_LastError d; dv_Superseded := dv_Superseded d |}.
Definition set_error (e : string) (d : Delivery) : Delivery :=
  {| dv_Record := dv_Record d; dv_EventID := dv_EventID d; dv_RootEventID := dv_RootEventID d; dv_Wire := dv_Wire d;
     dv_Status := dv_Status d; dv_Attempts := dv_Attempts d; dv_LastError := e; dv_Superseded := dv_Superseded d |}.
Definition set_record (r : CommittedFact) (d : Delivery) : Delivery :=
  {| dv_Record := r; dv_EventID := dv_EventID d; dv_RootEventID := dv_RootEventID d; dv_Wire := dv_Wire d;
     dv_Status := dv_Status d; dv_Attempts := dv_Attempts d; dv_LastError := dv_LastError d; dv_Superseded := dv_Superseded d |}.

Definition set_records (m : gmap Z Delivery) (s : State) : State :=
  {| st_Checkpoint := st_Checkpoint s; st_HighWatermark := st_HighWatermark s; st_CaseRoots := st_CaseRoots s;
     st_Records := m; st_Lag := st_Lag s |}.
Definition put_record (seq : Z) (d : Delivery) (s : State) : State := set_records (<[seq := d]> (st_Records s)) s.
Definition put_root (caseID id : string) (s : State) : State :=
  {| st_Checkpoint := st_Checkpoint s; st_HighWatermark := st_HighWatermark s;
     st_CaseRoots := <[caseID := id]> (st_CaseRoots s); st_Records := st_Records s; st_Lag := st_Lag s |}.

(** [state.Records[seq]]: the zero value when the key is missing. *)
Definition record_at (s : State) (seq : Z) : Delivery := default no_delivery (st_Records s !! seq).

Definition count_status (st : DeliveryStatus) (s : State) : Z :=
  Z.of_nat (length (filter (fun kv => dv_Status kv.2 = st) (map_to_list (st_Records s)))).
Definition recalculateLag (s : State) : State :=
  {| st_Checkpoint := st_Checkpoint s; st_HighWatermark := st_HighWatermark s; st_CaseRoots := st_CaseRoots s;
     st_Records := st_Records s;
     st_Lag := {| lg_Checkpoint := st_Checkpoint s; lg_HighWatermark := st_HighWatermark s;
                  lg_Pending := count_status StatusRetry s; lg_Poisoned := count_status StatusPoison s |} |}.

(** A nil map is the empty map. *)
Definition normalizeState (s : State) : State := recalculateLag s.
Definition zero_state : State :=
  {| st_Checkpoint := 0; st_HighWatermark := 0; st_CaseRoots := ∅; st_Records := ∅;
     st_Lag := {| lg_Checkpoint := 0; lg_HighWatermark := 0; lg_Pending := 0; lg_Poisoned := 0 |} |}.

Definition recordFailure (seq : Z) (err : string) (maxAttempts : Z) (s : State) : State :=
  let d := record_at s seq in
  let attempts := dv_Attempts d + 1 in
  put_record seq {| dv_Record := dv_Record d; dv_EventID := dv_EventID d; dv_RootEventID := dv_RootEventID d;
                    dv_Wire := dv_Wire d; dv_Status := if maxAttempts <=? attempts then StatusPoison else StatusRetry;
                    dv_Attempts := attempts; dv_LastError := err; dv_Superseded := dv_Superseded d |} s.

(** ** The outside *)
Inductive PublishError := ErrPreparedExpiredAbsent | ErrPublish (text : string).
Definition publish_text (e : PublishError) : string :=
  match e with ErrPreparedExpiredAbsent => "prepared event expired and is absent" | ErrPublish t => t end.

(** One save: its error, and whether the state was written all the same. *)
Record SaveAnswer := { sa_error : option string; sa_applied : bool }.

(** What happens while one record is projected: the verifier, the channel map,
    the clock and the signer when an event is built, the clock of a
    supersession, the answers to the publication of a stored event and of a
    fresh one, the order in which Go ranges over the records, the save before a
    publication and the save after the record. *)
Record RecordEnv := {
  re_verify : bytes -> result string Envelope;
  re_channel : string -> result string string;
  re_clock : Z;
  re_sign : bytes -> result string string;
  re_superseded_at : Z;
  re_retry : bytes -> result PublishError unit;
  re_publish : bytes -> result PublishError unit;
  re_range : list (Z * Delivery) -> list (Z * Delivery);
  re_save : SaveAnswer;
  re_final : SaveAnswer
}.

Inductive Event := Saved (s : State) | Published (wire : bytes).

(** The state in memory, the state on disk, and what was done so far. *)
Record World := { w_state : State; w_disk : State; w_trace : list Event }.

Record Projector := {
  pj_pubkey : string;
  pj_caseMentionPubKey : string;
  pj_maxAttempts : Z
}.

Definition defaultMaxAttempts : Z := 20.

(** [NewProjector]: whether every interface of the configuration is set, the
    signer's public key, and [schnorr.ParsePubKey] of the decoded mention key as
    a parameter. *)
Class Schnorr := ParsePubKey : string -> bool.
Record ProjectorConfig := {
  pc_interfaces : bool;
  pc_pubkey : string;
  pc_CaseMentionPubKey : string;
  pc_MaxAttempts : Z
}.
Definition NewProjector `{Schnorr} (c : ProjectorConfig) : result string Projector :=
  if negb (pc_interfaces c) then Err "source, verifier, channels, store, signer, and relay are required"
  else if negb (hex64 (pc_CaseMentionPubKey c)) || (pc_CaseMentionPubKey c =s? pc_pubkey c)
          || negb (ParsePubKey (pc_CaseMentionPubKey c))
  then Err "case mention pubkey is invalid"
  else Ok {| pj_pubkey := pc_pubkey c; pj_caseMentionPubKey := pc_CaseMentionPubKey c;
             pj_maxAttempts := if pc_MaxAttempts c <=? 0 then defaultMaxAttempts else pc_MaxAttempts c |}.

Definition on_state (f : State -> State) (w : World) : World :=
  {| w_state := f (w_state w); w_disk := w_disk w; w_trace := w_trace w |}.

Definition Save (a : SaveAnswer) (w : World) : World * option string :=
  let s := normalizeState (w_state w) in
  let written := match sa_error a with None => true | Some _ => sa_applied a end in
  ({| w_state := w_state w; w_disk := if written then s else w_disk w;
      w_trace := if written then (w_trace w ++ [Saved s])%list else w_trace w |}, sa_error a).

Definition relayPublish (answer : bytes -> result PublishError unit) (wire : bytes) (w : World)
  : World * result PublishError unit :=
  ({| w_state := w_state w; w_disk := w_disk w; w_trace := (w_trace w ++ [Published wire])%list |}, answer wire).

(** ** Preparing an event *)
Record preparedEvent := { pe_ID : string; pe_Wire : bytes }.

Definition event_tags (p : Projector) (channel root : string) : list (list string) :=
  if is_empty root then [["h"; channel]; ["p"; pj_caseMentionPubKey p]]
  else [["h"; channel]; ["e"; root; ""; "reply"]].

(** [Unix] of the clock: whole seconds, rounded down. *)
Definition unsigned_event (p : Projector) (channel root content : string) (clock : Z) : nostrEvent :=
  {| ne_ID := ""; ne_PubKey := pj_pubkey p; ne_CreatedAt := clock / second; ne_Kind := stockBuzzMessageKind;
     ne_Tags := event_tags p channel root; ne_Content := content; ne_Sig := "" |}.
Definition event_id (p : Projector) (channel root content : string) (clock : Z) : string :=
  hex (nostrDigest (unsigned_event p channel root content clock)).
Definition signed_event (p : Projector) (channel root content : string) (clock : Z) (sig : string) : nostrEvent :=
  {| ne_ID := event_id p channel root content clock; ne_PubKey := pj_pubkey p; ne_CreatedAt := clock / second;
     ne_Kind := stockBuzzMessageKind; ne_Tags := event_tags p channel root; ne_Content := content; ne_Sig := sig |}.

Definition prepare `{Uuid} (p : Projector) (env : RecordEnv) (channel root content : string) : result string preparedEvent :=
  if negb (utf8_valid content) || is_empty content then Err "collaboration card is not UTF-8"
  else if negb (canonicalUUID channel) then Err "operator channel mapping must be a canonical UUID"
  else
    signature ← re_sign env (nostrDigest (unsigned_event p channel root content (re_clock env)));
    Ok {| pe_ID := event_id p channel root content (re_clock env);
          pe_Wire := marshalNostrEvent (signed_event p channel root content (re_clock env) signature) |}.

(** ** Bodies *)
Record buzzCaseBody := {
  cb_Domain : string;
  cb_IssuerEdgeID : string;
  cb_IssuerEdgeGeneration : Z;
  cb_Summary : string;
  cb_PublicSummary : string;
  cb_ContextManifest : string
}.
Record adviceBody := { ab_CaseCommitment : string; ab_Text : string; ab_PublicSummary : string }.

(** [decoder.More]: a closing bracket or the end. *)
Definition more (rest : string) : bool :=
  match skip_ws rest with
  | "" => false
  | String a _ => negb ((a =c? "]") || (a =c? "}"))
  end.
Definition decodeExactBody {R} (decode : json -> option R) (raw : bytes) : option R :=
  '(v, rest) ← read_value raw;
  body ← decode v;
  if more rest then None else Some body.

Definition decode_buzz_case : json -> option buzzCaseBody :=
  wire_struct ["domain"; "issuer_edge_id"; "issuer_edge_generation"; "summary"; "public_summary"; "context_manifest"] (fun l =>
    domain ← wire_field (decode_raw decode_string) "" l "domain";
    edge ← wire_field (decode_raw decode_string) "" l "issuer_edge_id";
    generation ← wire_field (decode_raw decode_int64) 0 l "issuer_edge_generation";
    summary ← wire_field (decode_raw decode_string) "" l "summary";
    public ← wire_field (decode_raw decode_string) "" l "public_summary";
    manifest ← wire_field (decode_raw decode_string) "" l "context_manifest";
    Some {| cb_Domain := domain; cb_IssuerEdgeID := edge; cb_IssuerEdgeGeneration := generation; cb_Summary := summary;
            cb_PublicSummary := public; cb_ContextManifest := manifest |}).
Definition decode_buzz_advice : json -> option adviceBody :=
  wire_struct ["case_commitment"; "text"; "public_summary"] (fun l =>
    commitment ← wire_field (decode_raw decode_string) "" l "case_commitment";
    text ← wire_field (decode_raw decode_string) "" l "text";
    public ← wire_field (decode_raw decode_string) "" l "public_summary";
    Some {| ab_CaseCommitment := commitment; ab_Text := text; ab_PublicSummary := public |}).

(** ** Projecting one record *)
Section Project.
Context `{Uuid} (p : Projector).

(** [state.recordFailure(...)] and an error. *)
Definition fail_record (seq : Z) (err message : string) (w : World) : World * result string bool :=
  (on_state (recordFailure seq err (pj_maxAttempts p)) w, Err message).

(** The end of the three preparing functions: the prepared event is saved,
    then published, then marked. *)
Definition publishPrepared (env : RecordEnv) (seq : Z) (wire : bytes) (w : World) : World * result string bool :=
  match Save (re_save env) w with
  | (w, Some _) => (w, Err "persist prepared event")
  | (w, None) =>
      match relayPublish (re_publish env) wire w with
      | (w, Err e) => fail_record seq (publish_text e) "publish prepared event" w
      | (w, Ok _) => (on_state (fun s => put_record seq (set_status StatusPublished (record_at s seq)) s) w, Ok true)
      end
  end.

Definition prepared_delivery (record : CommittedFact) (e : preparedEvent) (root : string) (history : list SupersededProjection)
  : Delivery :=
  {| dv_Record := record; dv_EventID := pe_ID e; dv_RootEventID := root; dv_Wire := pe_Wire e;
     dv_Status := StatusPrepared; dv_Attempts := 0; dv_LastError := ""; dv_Superseded := history |}.

Definition prepareAndPublishCase (env : RecordEnv) (record : CommittedFact) (envelope : Envelope) (w : World)
  : World * result string bool :=
  let seq := cf_Sequence record in
  match decodeExactBody decode_buzz_case (Body envelope) with
  | None => fail_record seq "decode body" "decode case" w
  | Some body =>
      if is_empty (cb_Domain body) || (cb_IssuerEdgeGeneration body <=? 0) || is_empty (cb_Summary body)
         || is_empty (cb_PublicSummary body)
      then fail_record seq "case projection fields are required" "decode case" w
      else match re_channel env (cb_Domain body) with
      | Err e => fail_record seq e "case channel" w
      | Ok channel =>
          if is_empty channel then fail_record seq "operator channel mapping is missing" "case channel" w
          else match renderCard envelope (cf_Commitment record) (cb_PublicSummary body) "" with
          | Err e => fail_record seq e e w
          | Ok content =>
              match prepare p env channel "" content with
              | Err e => fail_record seq e e w
              | Ok prepared =>
                  publishPrepared env seq (pe_Wire prepared)
                    (on_state (fun s => put_root (CaseID envelope) (pe_ID prepared)
                                          (put_record seq (prepared_delivery record prepared "" []) s)) w)
              end
          end
      end
  end.

(** [caseDelivery]: the first record found with the root's identifier. *)
Definition caseDelivery (range : list (Z * Delivery) -> list (Z * Delivery)) (s : State) (caseID : string) : option Delivery :=
  root ← st_CaseRoots s !! caseID;
  snd <$> find (fun kv => dv_EventID kv.2 =s? root) (range (map_to_list (st_Records s))).

Definition prepareAndPublishAdvice (env : RecordEnv) (record : CommittedFact) (envelope : Envelope) (w : World)
  : World * result string bool :=
  let seq := cf_Sequence record in
  match decodeExactBody decode_buzz_advice (Body envelope) with
  | None => fail_record seq "decode body" "decode advice" w
  | Some body =>
      if is_empty (ab_Text body) || is_empty (ab_PublicSummary body)
      then fail_record seq "advice projection fields are required" "decode advice" w
      else match st_CaseRoots (w_state w) !! CaseID envelope with
      | None => fail_record seq "case root is not prepared" "advice root" w
      | Some root =>
          match caseDelivery (re_range env) (w_state w) (CaseID envelope) with
          | None => fail_record seq "case delivery is missing" "advice case" w
          | Some d =>
              let channel := eventChannel (dv_Wire d) in
              if is_empty channel then fail_record seq "prepared case has no channel" "advice channel" w
              else match renderCard envelope (cf_Commitment record) "" (ab_PublicSummary body) with
              | Err e => fail_record seq e e w
              | Ok content =>
                  match prepare p env channel root content with
                  | Err e => fail_record seq e e w
                  | Ok prepared =>
                      publishPrepared env seq (pe_Wire prepared)
                        (on_state (put_record seq (prepared_delivery record prepared root [])) w)
                  end
              end
          end
      end
  end.

Definition superseded_of (env : RecordEnv) (d : Delivery) : SupersededProjection :=
  {| sp_EventID := dv_EventID d; sp_RootEventID := dv_RootEventID d; sp_Wire := dv_Wire d; sp_Attempts := dv_Attempts d;
     sp_LastError := dv_LastError d; sp_SupersededAt := re_superseded_at env; sp_Reason := "expired_absent" |}.

Definition supersedeExpiredAbsent (env : RecordEnv) (record : CommittedFact) (current : Delivery) (w : World)
  : World * result string bool :=
  let seq := cf_Sequence record in
  match decode_event (dv_Wire current) with
  | None => (w, Err "invalid persisted projection evidence")
  | Some old =>
      if (ne_ID old <>s? dv_EventID current) || negb (ne_Kind old =? stockBuzzMessageKind) || is_empty (ne_Content old)
      then (w, Err "invalid persisted projection evidence")
      else match stockEventChannel old with
      | Err e => (w, Err e)
      | Ok channel =>
          match decode_card (ne_Content old) with
          | None => (w, Err "invalid persisted collaboration card")
          | Some card =>
              if is_empty (cd_CaseID card) || ((cd_Family card <>s? SspFamilyCase) && (cd_Family card <>s? SspFamilyAdvice))
              then (w, Err "invalid persisted collaboration card")
              else if (cd_Family card =s? SspFamilyAdvice)
                      && (default "" (st_CaseRoots (w_state w) !! cd_CaseID card) <>s? dv_RootEventID current)
              then (w, Err "persisted advice root conflicts with case root")
              else match prepare p env channel (dv_RootEventID current) (ne_Content old) with
              | Err e => fail_record seq e e w
              | Ok prepared =>
                  let replacement := prepared_delivery record prepared (dv_RootEventID current)
                    (dv_Superseded current ++ [superseded_of env current])%list in
                  let w1 := on_state (put_record seq replacement) w in
                  if cd_Family card =s? SspFamilyCase then
                    if default "" (st_CaseRoots (w_state w) !! cd_CaseID card) <>s? ne_ID old
                    then (w1, Err "persisted case root conflicts with prepared event")
                    else publishPrepared env seq (pe_Wire prepared) (on_state (put_root (cd_CaseID card) (pe_ID prepared)) w1)
                  else publishPrepared env seq (pe_Wire prepared) w1
              end
          end
      end
  end.

Definition projectRecord (env : RecordEnv) (record : CommittedFact) (w : World) : World * result string bool :=
  let seq := cf_Sequence record in
  let found := record_at (w_state w) seq in
  let fresh := cf_Sequence (dv_Record found) =? 0 in
  let entry := if fresh then set_record record found else found in
  let w := if fresh then on_state (put_record seq entry) w else w in
  if decide (dv_Status entry = StatusPoison) then (w, Ok false)
  else if negb (is_empty (dv_Wire entry)) then
    match relayPublish (re_retry env) (dv_Wire entry) w with
    | (w, Err ErrPreparedExpiredAbsent) => supersedeExpiredAbsent env record entry w
    | (w, Err e) => fail_record seq (publish_text e) "publish prepared record" w
    | (w, Ok _) => (on_state (put_record seq (set_error "" (set_status StatusPublished entry))) w, Ok true)
    end
  else match re_verify env (cf_Raw record) with
  | Err e => fail_record seq e "verify committed record" w
  | Ok envelope =>
      if ID envelope <>s? cf_EnvelopeID record
      then fail_record seq "authority fact metadata conflicts with committed bytes" "reject committed record" w
      else if Schema envelope =s? SspFamilyCase then prepareAndPublishCase env record envelope w
      else if Schema envelope =s? SspFamilyAdvice then prepareAndPublishAdvice env record envelope w
      else fail_record seq "unsupported SSP family" "unsupported SSP family" w
  end.

(** ** A run *)
Record ProjectResult := { pr_Processed : Z; pr_Published : Z; pr_Lag : LagState }.
Definition no_result : ProjectResult := {| pr_Processed := 0; pr_Published := 0; pr_Lag := st_Lag zero_state |}.
Definition result_of (processed published : Z) (w : World) : ProjectResult :=
  {| pr_Processed := processed; pr_Published := published; pr_Lag := st_Lag (w_state w) |}.

Definition seen (seq : Z) (s : State) : State :=
  {| st_Checkpoint := st_Checkpoint s; st_HighWatermark := Z.max (st_HighWatermark s) seq; st_CaseRoots := st_CaseRoots s;
     st_Records := st_Records s; st_Lag := st_Lag s |}.
Definition advance (seq : Z) (s : State) : State :=
  {| st_Checkpoint := seq; st_HighWatermark := st_HighWatermark s; st_CaseRoots := st_CaseRoots s;
     st_Records := st_Records s; st_Lag := st_Lag s |}.

Fixpoint project_records (envs : nat -> RecordEnv) (i : nat) (records : list CommittedFact) (processed published : Z) (w : World)
  : World * (ProjectResult * option string) :=
  match records with
  | [] => (w, (result_of processed published w, None))
  | record :: records =>
      if (cf_Sequence record <=? st_Checkpoint (w_state w)) || (len (cf_Raw record) =? 0)
      then (w, (result_of processed published w, Some "invalid authority fact"))
      else
        match projectRecord (envs i) record (on_state (seen (cf_Sequence record)) w) with
        | (w, Err e) =>
            let w := on_state recalculateLag w in
            let '(w, fault) := Save (re_final (envs i)) w in
            (w, (result_of (processed + 1) published w, Some (default e fault)))
        | (w, Ok b) =>
            let published := if b then published + 1 else published in
            let w := on_state (fun s => recalculateLag (advance (cf_Sequence record) s)) w in
            match Save (re_final (envs i)) w with
            | (w, Some e) => (w, (result_of (processed + 1) published w, Some e))
            | (w, None) => project_records envs (S i) records (processed + 1) published w
            end
        end
  end.

Record ProjectEnv := {
  pv_load : option string;
  pv_read : Z -> Z -> result string (list CommittedFact);
  pv_record : nat -> RecordEnv
}.

(** A run starts from the state on disk and returns the state it leaves there. *)
Definition Project (limit : Z) (env : ProjectEnv) (disk : State) : State * list Event * (ProjectResult * option string) :=
  if limit <=? 0 then (disk, [], (no_result, Some "positive project limit is required"))
  else match pv_load env with
  | Some e => (disk, [], (no_result, Some e))
  | None =>
      let state := normalizeState disk in
      let w := {| w_state := state; w_disk := disk; w_trace := [] |} in
      match pv_read env (st_Checkpoint state) limit with
      | Err e => (disk, [], ({| pr_Processed := 0; pr_Published := 0; pr_Lag := st_Lag state |}, Some e))
      | Ok records =>
          let '(w, answer) := project_records (pv_record env) 0 records 0 0 w in
          (w_disk w, w_trace w, answer)
      end
  end.

(** Runs one after another. *)
Fixpoint project_runs (limit : Z) (envs : list ProjectEnv) (disk : State) : State :=
  match envs with
  | [] => disk
  | env :: envs => project_runs limit envs (Project limit env disk).1.1
  end.
End Project.

(** ** The authority as the source: [AuthoritySource.ReadAfter] *)
Definition fact_of (f : ProjectionFact) : CommittedFact :=
  {| cf_Sequence := pf_AuthorityRevision f; cf_EnvelopeID := pf_EnvelopeID f; cf_Commitment := pf_Commitment f;
     cf_Raw := pf_Raw f |}.

Definition ReadAfter (tenantID : string) (list_facts : ProjectionFactQuery -> result AErr ProjectionFactPage) (after limit : Z)
  : result string (list CommittedFact) :=
  if negb (non_blank tenantID) then Err "projection authority and tenant are required"
  else if 2 ^ 63 - 1 <? after then Err "authority checkpoint exceeds supported range"
  else match list_facts {| fq_TenantID := tenantID; fq_After := after; fq_Limit := limit |} with
  | Err _ => Err "list projection facts"
  | Ok page =>
      if existsb (fun f => (pf_AuthorityRevision f <=? after) || (pf_AuthorityRevision f <=? 0)) (pp_Facts page)
      then Err "authority returned a non-advancing fact"
      else Ok (map fact_of (pp_Facts page))
  end.
