(* ===== verification/BuzzHistory.v ===== *)
(** * What the projector stores and what it publishes

    [projectRecord_cases] lists what projecting one record can do, and
    [published_events_are_saved] shows that an event reaches the relay only
    after it is on disk. *)
From S2P Require Import Prelude GoText GoStrconv GoTime GoJson GoJsonRead GoUtf8 GoJsonText Sha256.
From S2P Require Import SspGuard SspBody SspRegistry SspEnvelope SspStrip SspTheorems SspSign GoJsonWire Registry.
From S2P Require Import BuzzNostr BuzzProjector.
Open Scope string_scope.
Open Scope Z_scope.
Open Scope snag_scope.

(** ** The disk, from the trace *)
Definition after_event (disk : State) (e : Event) : State := match e with Saved s => s | Published _ => disk end.
Definition last_saved (disk : State) (t : list Event) : State := foldl after_event disk t.

Lemma last_saved_snoc disk t e : last_saved disk (t ++ [e])%list = after_event (last_saved disk t) e.
Proof. unfold last_saved. by rewrite foldl_app. Qed.

(** A stored event that may be published. *)
Definition stored (s : State) (wire : bytes) : Prop :=
  exists seq d, st_Records s !! seq = Some d /\ dv_Wire d = wire /\ wire <> "" /\ dv_Status d <> StatusPoison.

Inductive trace_ok (disk : State) : list Event -> Prop :=
| trace_nil : trace_ok disk []
| trace_save t s : trace_ok disk t -> trace_ok disk (t ++ [Saved s])%list
| trace_publish t wire : trace_ok disk t -> stored (last_saved disk t) wire -> trace_ok disk (t ++ [Published wire])%list.

Record world_ok (disk : State) (w : World) : Prop := {
  wo_disk : w_disk w = last_saved disk (w_trace w);
  wo_trace : trace_ok disk (w_trace w)
}.

(** The memory holds the records of the disk. *)
Definition synced (w : World) : Prop := st_Records (w_state w) = st_Records (w_disk w).

Lemma on_state_ok disk f w : world_ok disk w -> world_ok disk (on_state f w).
Proof. intros [A B]. by split. Qed.

Lemma Save_world disk a w : world_ok disk w -> world_ok disk (Save a w).1.
Proof.
  intros [A B]. unfold Save. cbn [fst]. destruct (match sa_error a with None => _ | Some _ => _ end); split; cbn; try done.
  - by rewrite last_saved_snoc.
  - by constructor.
Qed.

Lemma Save_done a w w' : Save a w = (w', None) -> w_state w' = w_state w /\ st_Records (w_disk w') = st_Records (w_state w) /\
  st_Checkpoint (w_disk w') = st_Checkpoint (w_state w) /\ st_CaseRoots (w_disk w') = st_CaseRoots (w_state w).
Proof. unfold Save. destruct (sa_error a); [done|]. by intros [= <-]. Qed.

Lemma relayPublish_world disk answer wire w : stored (w_disk w) wire -> world_ok disk w -> world_ok disk (relayPublish answer wire w).1.
Proof. intros Hs [A B]. split; cbn; [by rewrite last_saved_snoc|]. constructor; [done|]. by rewrite <- A. Qed.

Lemma put_record_here seq d s : st_Records (put_record seq d s) !! seq = Some d.
Proof. cbn. by rewrite lookup_insert_eq. Qed.

Lemma wire_not_empty e : marshalNostrEvent e <> "".
Proof. done. Qed.

Section Projector.
Context `{Uuid} (p : Projector).

Lemma prepared_wire env channel root content e : prepare p env channel root content = Ok e ->
  exists sig, re_sign env (nostrDigest (unsigned_event p channel root content (re_clock env))) = Ok sig /\
    e = {| pe_ID := event_id p channel root content (re_clock env);
           pe_Wire := marshalNostrEvent (signed_event p channel root content (re_clock env) sig) |} /\
    utf8_valid content = true /\ content <> "" /\ canonicalUUID channel = true.
Proof.
  unfold prepare. destruct (negb (utf8_valid content) || is_empty content) eqn:E1; [done|].
  destruct (canonicalUUID channel); [|done]. cbn [negb].
  destruct (re_sign env _) as [sig|]; [|done]. intros [= <-]. exists sig. apply orb_false_iff in E1 as [E1 E2].
  apply negb_false_iff in E1. split_and!; try done. by destruct content.
Qed.

Lemma publishPrepared_world disk env seq d w : dv_Wire d <> "" -> dv_Status d <> StatusPoison ->
  st_Records (w_state w) !! seq = Some d -> world_ok disk w -> world_ok disk (publishPrepared p env seq (dv_Wire d) w).1.
Proof.
  intros Hne Hst Hd Hw. unfold publishPrepared. pose proof (Save_world disk (re_save env) w Hw) as H1.
  destruct (Save (re_save env) w) as [w1 [e|]] eqn:Es; [done|]. cbn [fst] in H1.
  destruct (Save_done _ _ _ Es) as (_ & Hr & _).
  assert (Hsto : stored (w_disk w1) (dv_Wire d)) by (exists seq, d; by rewrite Hr).
  pose proof (relayPublish_world disk (re_publish env) _ _ Hsto H1) as H2. unfold relayPublish in *. cbn [fst] in H2.
  destruct (re_publish env (dv_Wire d)) as [u|e]; by apply on_state_ok.
Qed.

Lemma prepared_world disk env record e root history w : pe_Wire e <> "" -> world_ok disk w -> forall f,
  (forall s, st_Records (f s) = st_Records s) ->
  world_ok disk (publishPrepared p env (cf_Sequence record) (pe_Wire e)
    (on_state (fun s => f (put_record (cf_Sequence record) (prepared_delivery record e root history) s)) w)).1.
Proof.
  intros Hne Hw f Hf. apply (publishPrepared_world disk env (cf_Sequence record) (prepared_delivery record e root history));
    [done|done| |by apply on_state_ok]. cbn [w_state on_state]. by rewrite Hf, put_record_here.
Qed.

Lemma fail_world disk seq e m w : world_ok disk w -> world_ok disk (fail_record p seq e m w).1.
Proof. apply on_state_ok. Qed.

(** ** Every way a record can be projected *)
Definition sent (wire : bytes) (w : World) : World :=
  {| w_state := w_state w; w_disk := w_disk w; w_trace := (w_trace w ++ [Published wire])%list |}.

(** The entry of a record, and the world once it is noted. *)
Definition entry_of (s : State) (record : CommittedFact) : Delivery :=
  let found := record_at s (cf_Sequence record) in
  if cf_Sequence (dv_Record found) =? 0 then set_record record found else found.
Definition noted (record : CommittedFact) (w : World) : World :=
  if cf_Sequence (dv_Record (record_at (w_state w) (cf_Sequence record))) =? 0
  then on_state (put_record (cf_Sequence record) (entry_of (w_state w) record)) w else w.

(** An update of the case roots. *)
Definition root_update (f : State -> State) : Prop := f = id \/ exists caseID id_, f = put_root caseID id_.

(** The event of a fresh record: what its envelope, its public summary and the
    channel say. *)
Definition fresh_event (env : RecordEnv) (record : CommittedFact) (w : World) (root : string) (e : preparedEvent) : Prop :=
  exists envelope channel content, re_verify env (cf_Raw record) = Ok envelope /\ ID envelope = cf_EnvelopeID record /\
    prepare p env channel root content = Ok e /\
    ((exists body, Schema envelope = SspFamilyCase /\ root = "" /\ decodeExactBody decode_buzz_case (Body envelope) = Some body /\
        cb_PublicSummary body <> "" /\ re_channel env (cb_Domain body) = Ok channel /\
        renderCard envelope (cf_Commitment record) (cb_PublicSummary body) "" = Ok content) \/
     (exists body d, Schema envelope = SspFamilyAdvice /\ st_CaseRoots (w_state w) !! CaseID envelope = Some root /\
        decodeExactBody decode_buzz_advice (Body envelope) = Some body /\ ab_PublicSummary body <> "" /\
        caseDelivery (re_range env) (w_state w) (CaseID envelope) = Some d /\ channel = eventChannel (dv_Wire d) /\
        renderCard envelope (cf_Commitment record) "" (ab_PublicSummary body) = Ok content)).

(** The event that replaces an expired one. *)
Definition renewed_event (env : RecordEnv) (entry : Delivery) (e : preparedEvent) : Prop :=
  exists old channel, decode_event (dv_Wire entry) = Some old /\ stockEventChannel old = Ok channel /\
    prepare p env channel (dv_RootEventID entry) (ne_Content old) = Ok e.

Inductive projected (env : RecordEnv) (record : CommittedFact) (w : World) (entry : Delivery) : World -> result string bool -> Prop :=
| PjParked : dv_Status entry = StatusPoison -> projected env record w entry w (Ok false)
| PjRetried : dv_Status entry <> StatusPoison -> dv_Wire entry <> "" -> re_retry env (dv_Wire entry) = Ok tt ->
    projected env record w entry
      (on_state (put_record (cf_Sequence record) (set_error "" (set_status StatusPublished entry))) (sent (dv_Wire entry) w)) (Ok true)
| PjRefused err e : dv_Status entry <> StatusPoison -> dv_Wire entry <> "" -> re_retry env (dv_Wire entry) = Err err ->
    projected env record w entry
      (on_state (recordFailure (cf_Sequence record) e (pj_maxAttempts p)) (sent (dv_Wire entry) w)) (Err "publish prepared record")
| PjFailed e m : dv_Status entry <> StatusPoison -> dv_Wire entry = "" ->
    projected env record w entry (on_state (recordFailure (cf_Sequence record) e (pj_maxAttempts p)) w) (Err m)
| PjPrepared root e f w' r : dv_Status entry <> StatusPoison -> dv_Wire entry = "" -> fresh_event env record w root e -> root_update f ->
    publishPrepared p env (cf_Sequence record) (pe_Wire e)
      (on_state (fun s => f (put_record (cf_Sequence record) (prepared_delivery record e root []) s)) w) = (w', r) ->
    projected env record w entry w' r
| PjRenewed e f w' r : dv_Status entry <> StatusPoison -> dv_Wire entry <> "" ->
    re_retry env (dv_Wire entry) = Err ErrPreparedExpiredAbsent -> renewed_event env entry e -> root_update f ->
    publishPrepared p env (cf_Sequence record) (pe_Wire e)
      (on_state (fun s => f (put_record (cf_Sequence record) (prepared_delivery record e (dv_RootEventID entry)
         (dv_Superseded entry ++ [superseded_of env entry])%list) s)) (sent (dv_Wire entry) w)) = (w', r) ->
    projected env record w entry w' r
| PjRenewFailed e m : dv_Status entry <> StatusPoison -> dv_Wire entry <> "" ->
    re_retry env (dv_Wire entry) = Err ErrPreparedExpiredAbsent ->
    projected env record w entry
      (on_state (recordFailure (cf_Sequence record) e (pj_maxAttempts p)) (sent (dv_Wire entry) w)) (Err m)
| PjConflict e : dv_Status entry <> StatusPoison -> dv_Wire entry <> "" ->
    re_retry env (dv_Wire entry) = Err ErrPreparedExpiredAbsent -> renewed_event env entry e ->
    projected env record w entry
      (on_state (put_record (cf_Sequence record) (prepared_delivery record e (dv_RootEventID entry)
         (dv_Superseded entry ++ [superseded_of env entry])%list)) (sent (dv_Wire entry) w))
      (Err "persisted case root conflicts with prepared event")
| PjCorrupt m : dv_Status entry <> StatusPoison -> dv_Wire entry <> "" ->
    re_retry env (dv_Wire entry) = Err ErrPreparedExpiredAbsent ->
    projected env record w entry (sent (dv_Wire entry) w) (Err m).

Lemma case_projected env record entry envelope w w' r : dv_Status entry <> StatusPoison -> dv_Wire entry = "" ->
  re_verify env (cf_Raw record) = Ok envelope -> ID envelope = cf_EnvelopeID record -> Schema envelope = SspFamilyCase ->
  prepareAndPublishCase p env record envelope w = (w', r) -> projected env record w entry w' r.
Proof.
  intros Hs Hw Hv Hid Hf. unfold prepareAndPublishCase, fail_record.
  destruct (decodeExactBody _ _) as [body|] eqn:Hb; [|intros [= <- <-]; by apply PjFailed].
  destruct (is_empty (cb_Domain body) || _ || _ || _) eqn:E; [intros [= <- <-]; by apply PjFailed|].
  destruct (re_channel env (cb_Domain body)) as [channel|] eqn:Hc; [|intros [= <- <-]; by apply PjFailed].
  destruct (is_empty channel); [intros [= <- <-]; by apply PjFailed|].
  destruct (renderCard _ _ _ _) as [content|] eqn:Hr; [|intros [= <- <-]; by apply PjFailed].
  destruct (prepare p env channel "" content) as [e|] eqn:Hp; [|intros [= <- <-]; by apply PjFailed].
  intros Ho. eapply PjPrepared; [done|done| |right; by eexists _, _|exact Ho].
  exists envelope, channel, content. split_and!; [done..|]. left. exists body. split_and!; try done.
  intros Hn. rewrite Hn in E. by rewrite orb_true_r in E.
Qed.

Lemma advice_projected env record entry envelope w w' r : dv_Status entry <> StatusPoison -> dv_Wire entry = "" ->
  re_verify env (cf_Raw record) = Ok envelope -> ID envelope = cf_EnvelopeID record -> Schema envelope = SspFamilyAdvice ->
  prepareAndPublishAdvice p env record envelope w = (w', r) -> projected env record w entry w' r.
Proof.
  intros Hs Hw Hv Hid Hf. unfold prepareAndPublishAdvice, fail_record.
  destruct (decodeExactBody _ _) as [body|] eqn:Hb; [|intros [= <- <-]; by apply PjFailed].
  destruct (is_empty (ab_Text body) || _) eqn:E; [intros [= <- <-]; by apply PjFailed|].
  destruct (st_CaseRoots _ !! _) as [root|] eqn:Hroot; [|intros [= <- <-]; by apply PjFailed].
  destruct (caseDelivery _ _ _) as [d|] eqn:Hd; [|intros [= <- <-]; by apply PjFailed].
  destruct (is_empty (eventChannel _)); [intros [= <- <-]; by apply PjFailed|].
  destruct (renderCard _ _ _ _) as [content|] eqn:Hr; [|intros [= <- <-]; by apply PjFailed].
  destruct (prepare p env _ root content) as [e|] eqn:Hp; [|intros [= <- <-]; by apply PjFailed].
  intros Ho. eapply PjPrepared; [done|done| |by left|exact Ho].
  exists envelope, (eventChannel (dv_Wire d)), content. split_and!; [done..|]. right. exists body, d. split_and!; try done.
  intros Hn. rewrite Hn in E. by rewrite orb_true_r in E.
Qed.

Lemma supersede_projected env record entry w w' r : dv_Status entry <> StatusPoison -> dv_Wire entry <> "" ->
  re_retry env (dv_Wire entry) = Err ErrPreparedExpiredAbsent ->
  supersedeExpiredAbsent p env record entry (sent (dv_Wire entry) w) = (w', r) -> projected env record w entry w' r.
Proof.
  intros Hs Hw Hx. unfold supersedeExpiredAbsent, fail_record.
  destruct (decode_event (dv_Wire entry)) as [old|] eqn:Hold; [|intros [= <- <-]; by apply PjCorrupt].
  destruct (_ || _ || _); [intros [= <- <-]; by apply PjCorrupt|].
  destruct (stockEventChannel old) as [channel|] eqn:Hc; [|intros [= <- <-]; by apply PjCorrupt].
  destruct (decode_card _) as [card|]; [|intros [= <- <-]; by apply PjCorrupt].
  destruct (is_empty (cd_CaseID card) || _); [intros [= <- <-]; by apply PjCorrupt|].
  destruct ((cd_Family card =s? SspFamilyAdvice) && _); [intros [= <- <-]; by apply PjCorrupt|].
  destruct (prepare p env channel _ _) as [e|] eqn:Hp; [|intros [= <- <-]; by apply PjRenewFailed].
  assert (Hren : renewed_event env entry e) by by exists old, channel.
  destruct (cd_Family card =s? SspFamilyCase).
  - destruct (negb _); [intros [= <- <-]; by apply PjConflict|]. intros Ho.
    eapply PjRenewed; [done..|exact Hren|right; by eexists _, _|exact Ho].
  - intros Ho. eapply PjRenewed; [done..|exact Hren|by left|exact Ho].
Qed.

Lemma projectRecord_cases env record w w' r : projectRecord p env record w = (w', r) ->
  projected env record (noted record w) (entry_of (w_state w) record) w' r.
Proof.
  unfold projectRecord. fold (entry_of (w_state w) record). fold (noted record w).
  set (entry := entry_of (w_state w) record). set (w0 := noted record w).
  destruct (decide (dv_Status entry = StatusPoison)) as [Hs|Hs]; [intros [= <- <-]; by apply PjParked|].
  destruct (is_empty (dv_Wire entry)) eqn:He; cbn [negb].
  - assert (Hw : dv_Wire entry = "") by by destruct (dv_Wire entry). unfold fail_record.
    destruct (re_verify env (cf_Raw record)) as [envelope|] eqn:Hv; [|intros [= <- <-]; by apply PjFailed].
    destruct (String.eqb_spec (ID envelope) (cf_EnvelopeID record)) as [Hid|]; cbn [negb]; [|intros [= <- <-]; by apply PjFailed].
    destruct (String.eqb_spec (Schema envelope) SspFamilyCase); [by eapply case_projected|].
    destruct (String.eqb_spec (Schema envelope) SspFamilyAdvice); [by eapply advice_projected|].
    intros [= <- <-]. by apply PjFailed.
  - assert (Hw : dv_Wire entry <> "") by by intros E; rewrite E in He. unfold relayPublish. fold (sent (dv_Wire entry) w0).
    unfold fail_record. destruct (re_retry env (dv_Wire entry)) as [[]|[|t]] eqn:Hx.
    + intros [= <- <-]. by apply PjRetried.
    + by apply supersede_projected.
    + intros [= <- <-]. by eapply PjRefused.
Qed.

Lemma entry_wire s record : dv_Wire (entry_of s record) = dv_Wire (record_at s (cf_Sequence record)).
Proof. unfold entry_of. by destruct (_ =? _). Qed.
Lemma entry_status s record : dv_Status (entry_of s record) = dv_Status (record_at s (cf_Sequence record)).
Proof. unfold entry_of. by destruct (_ =? _). Qed.

Lemma entry_stored w record : synced w -> dv_Wire (entry_of (w_state w) record) <> "" ->
  dv_Status (entry_of (w_state w) record) <> StatusPoison -> stored (w_disk w) (dv_Wire (entry_of (w_state w) record)).
Proof.
  rewrite entry_wire, entry_status. unfold synced, record_at. intros Hs Hw Hst.
  destruct (st_Records (w_state w) !! cf_Sequence record) as [d|] eqn:E; [|done].
  exists (cf_Sequence record), d. by rewrite <- Hs.
Qed.

Lemma noted_disk record w : w_disk (noted record w) = w_disk w.
Proof. unfold noted. by destruct (_ =? _). Qed.
Lemma noted_world disk record w : world_ok disk w -> world_ok disk (noted record w).
Proof. unfold noted. destruct (_ =? _); [apply on_state_ok|done]. Qed.

Lemma sent_world disk wire w : stored (w_disk w) wire -> world_ok disk w -> world_ok disk (sent wire w).
Proof. apply (relayPublish_world disk (fun _ => Ok tt)). Qed.

Lemma made_wire env channel root content e : prepare p env channel root content = Ok e -> pe_Wire e <> "".
Proof. intros (sig & _ & -> & _)%prepared_wire. apply wire_not_empty. Qed.
Lemma fresh_wire env record w root e : fresh_event env record w root e -> pe_Wire e <> "".
Proof. intros (? & ? & ? & _ & _ & Hp & _). by eapply made_wire. Qed.
Lemma renewed_wire env entry e : renewed_event env entry e -> pe_Wire e <> "".
Proof. intros (? & ? & _ & _ & Hp). by eapply made_wire. Qed.
Lemma root_update_records f s : root_update f -> st_Records (f s) = st_Records s.
Proof. by intros [->|(? & ? & ->)]. Qed.

Lemma projectRecord_world disk env record w w' r : world_ok disk w -> synced w ->
  projectRecord p env record w = (w', r) -> world_ok disk w'.
Proof.
  intros Hw Hy Hp%projectRecord_cases. pose proof (noted_world disk record w Hw) as Hn.
  assert (Hsent : dv_Wire (entry_of (w_state w) record) <> "" -> dv_Status (entry_of (w_state w) record) <> StatusPoison ->
    world_ok disk (sent (dv_Wire (entry_of (w_state w) record)) (noted record w)))
    by (intros Hne Hst; apply sent_world; [rewrite noted_disk; by apply entry_stored|done]).
  destruct Hp as [| | | |root e f w' r _ _ He Hf Ho|e f w' r Hst Hne _ He Hf Ho| | |]; auto using on_state_ok.
  - rewrite <- (f_equal fst Ho : _ = w'). apply prepared_world; [by eapply fresh_wire|done|]. intros s. by apply root_update_records.
  - rewrite <- (f_equal fst Ho : _ = w'). apply prepared_world; [by eapply renewed_wire|auto|]. intros s. by apply root_update_records.
Qed.

Lemma project_records_world disk envs : forall records i a b w w' answer, world_ok disk w -> synced w ->
  project_records p envs i records a b w = (w', answer) -> world_ok disk w'.
Proof.
  induction records as [|record records IH]; intros i a b w w' answer Hw Hy; [by intros [= <- _]|].
  cbn [project_records]. destruct (_ || _); [by intros [= <- _]|].
  destruct (projectRecord p (envs i) record _) as [w1 [b1|e1]] eqn:E.
  - apply (projectRecord_world disk) in E; [|by apply on_state_ok|done].
    pose proof (Save_world disk (re_final (envs i)) _ (on_state_ok disk (fun s => recalculateLag (advance (cf_Sequence record) s)) w1 E)) as Hs.
    destruct (Save (re_final (envs i)) _) as [w2 [e2|]] eqn:E2; [by intros [= <- _]|]. cbn [fst] in Hs.
    apply IH; [done|]. apply Save_done in E2 as (E3 & E4 & _). unfold synced. by rewrite E3, E4.
  - apply (projectRecord_world disk) in E; [|by apply on_state_ok|done].
    pose proof (Save_world disk (re_final (envs i)) _ (on_state_ok disk recalculateLag w1 E)) as Hs.
    destruct (Save (re_final (envs i)) _) as [w2 fault]. by intros [= <- _].
Qed.

Lemma trace_ok_inv disk t t1 wire t2 : trace_ok disk t -> t = (t1 ++ Published wire :: t2)%list -> stored (last_saved disk t1) wire.
Proof.
  intros Ht. revert t2. induction Ht as [|t s _ IH|t wire' _ IH Hs]; intros t2 E; [by destruct t1| |].
  - destruct t2 as [|e t2 _] using rev_ind; [by apply app_inj_tail in E as [_ ?]|].
    rewrite app_comm_cons, app_assoc in E. apply app_inj_tail in E as [E _]. by eapply IH.
  - destruct t2 as [|e t2 _] using rev_ind; [by apply app_inj_tail in E as [<- [= ->]]|].
    rewrite app_comm_cons, app_assoc in E. apply app_inj_tail in E as [E _]. by eapply IH.
Qed.

Lemma Project_world limit env disk disk' trace answer : Project p limit env disk = (disk', trace, answer) ->
  disk' = last_saved disk trace /\ trace_ok disk trace.
Proof.
  unfold Project. destruct (limit <=? 0); [intros [= <- <- _]; split; [done|constructor]|].
  destruct (pv_load env); [intros [= <- <- _]; split; [done|constructor]|].
  destruct (pv_read env _ _) as [records|]; [|intros [= <- <- _]; split; [done|constructor]].
  destruct (project_records _ _ _ _ _ _ _) as [w answer'] eqn:E. intros [= <- <- _].
  apply (project_records_world disk) in E as [A B]; [done| |done]. split; [done|constructor].
Qed.

(** Nothing reaches the relay that is not on disk.  In any run, with any
    records, any answers of the verifier, the signer, the channel map and the
    relay, and saves that fail or fail after being applied: the state left on
    disk is the last one saved, and whenever an event is handed to the relay,
    the state on disk at that moment holds exactly its bytes, in a record that
    is not parked.  So a crash at any point can only lead to the publication of
    the same bytes. *)
Theorem published_events_are_saved limit env disk disk' trace answer :
  Project p limit env disk = (disk', trace, answer) ->
  disk' = last_saved disk trace /\
  forall before wire rest, trace = (before ++ Published wire :: rest)%list -> stored (last_saved disk before) wire.
Proof.
  intros [H1 H2]%Project_world. split; [done|]. intros before wire rest. by apply trace_ok_inv.
Qed.
End Projector.
